(* ===== verification/_CoqProject ===== *)
-Q . S2P
Prelude.v
DeviceModel.v
Floats.v
FrameCodec.v
FrameCodecLoads.v
Slicer.v
FrameCodecStream.v
FrameCodecWire.v
FrameCodecProps.v
CText.v
ConfigDB.v
ConfigDBGroups.v
ConfigDBProps.v
Pipeline.v
ParserProps.v
DoubleText.v
AdapterConfig.v
Writer.v
WriterProps.v
HttpModel.v
HttpExec.v
HttpSafety.v
HttpRuns.v
HttpRequest.v
HttpChunks.v
HttpUrl.v
HttpObserve.v
HttpForm.v
Ingest.v
Strtod.v
DoubleNearest.v
HttpIngest.v
JsonText.v
HttpIngestProps.v
ModbusPoller.v
Buffer.v
Tcp.v
TcpInv.v
TcpProps.v
Loop.v
LoopInv.v
LoopProps.v
LoopThread.v
Server.v
ServerInv.v
ServerProps.v
ServerTcp.v
HttpServerParser.v
HttpServerProps.v
Timers.v
TimersProps.v
Times.v
Logging.v
LogStream.v
AsyncLog.v
AsyncLogProps.v
Lifecycle.v
Sha256.v
Passwords.v
AdapterMain.v
AdapterApp.v
AdapterAppProps.v
EndToEnd.v
