(* ===== verification/Prelude.v ===== *)
(** * etherAdapter: a verification development

    etherAdapter is a process that takes the binary sampling data devices send
    over TCP, modbus/TCP and HTTP, decodes it by the layouts of a configuration
    database, and inserts the rows into the EtherDB time-series database.  Its
    own code is [src/src/adapter]; it runs on a network library, [src/src/net]
    (event loop, connections, buffers, an HTTP parser), and a base library,
    [src/src/base].  This library models that code as executable definitions,
    function by function, and proves what makes it correct.

    ** The program

<<
   devices --TCP--> TcpConnection --> IngestServer --chunks--> ParserWorker --batches--+
                    (Tcp)             (Ingest)     queue       (Pipeline)     queues   |
                                                               FrameCodec              v
   clients --HTTP-> TcpConnection --> HttpIngest ----------batches--------------> EtherDBWriter --> EtherDB
                                      (HttpIngest)                                (Writer)          client
   ModbusPoller --requests--> devices     ConfigDB: who sends what, in which layout
>>

    An event loop runs the two servers and their connections; the parser and the
    writer each have a thread; the modbus poller has one per device.  The components share the
    configuration (read only), the queues and the counters.

    ** Files

    In dependency order; the theorems named are the main ones of each part.

    - [Prelude]: machine integers, list slices with integer bounds, the option
      monad's lemmas, copies into a buffer.
    - [DeviceModel] ([adapter/DeviceModel.h]): fields, frames, devices, groups.
    - [Floats]: IEEE-754 values as bit patterns and the conversions between
      [float], [double] and integers.
    - [FrameCodec] ([adapter/FrameCodec.{h,cpp}]) with [FrameCodecLoads] (loads,
      bit fields and records against reference definitions), [Slicer] (the laws
      of a slicing loop, as a class, and what follows from them),
      [FrameCodecStream] (the two slicers satisfy the laws), [FrameCodecWire]
      (encoders of the wire format) and [FrameCodecProps]: no access outside the
      stream buffer or the row, termination, fewer than 64 KiB left pending
      ([feed_safe], [feedModbus_safe]); the result does not depend on how TCP cut
      the stream ([feed_segmentation], [feedModbus_segmentation]); what a peer
      encodes is what is decoded ([feed_roundtrip], [feedModbus_roundtrip],
      [decodePayload_correct], [float_field_exact]).
    - [CText]: [strtol] and friends, [std::to_string], substring searches.
    - [ConfigDB] ([adapter/ConfigDB.{h,cpp}]), [ConfigDBGroups], [ConfigDBProps]:
      the loaders, the grouping of devices by endpoint, the lookups; a
      configuration that loads is well formed ([loadAll_well_formed]), the groups
      partition the devices ([rebuildIndexes_partition], [rebuildIndexes_status]),
      lookups are exact ([matchGroup_correct]), columns hold their fields
      ([materialized_column_fits]).
    - [Pipeline] ([adapter/Pipeline.h], [ParserWorker.{h,cpp}],
      [PublishQueue.{h,cpp}]) and [ParserProps]: the parser thread refines
      decoding alone ([parserRun_conserves]) and flushes in time
      ([parserLoop_flush_policy]).
    - [DoubleText], [Strtod]: printing and reading of doubles; [DoubleNearest]: the
      double that is read is a nearest one to the decimal number written
      ([f64_of_ratio_nearest]).
    - [AdapterConfig] ([base/ConfigParser.h], [adapter/AdapterConfig.{h,cpp}]):
      the INI reader and the settings ([iniLoad_text], [loadConfig_limits]).
    - [Writer] ([adapter/EtherDBWriter.{h,cpp}]) and [WriterProps]: staging
      buffers, statements and SQL refine plain insertion in order
      ([writerRun_inserts], [staged_value]).
    - [HttpModel], [HttpExec] ([net/http/http_parser.{h,c}]), [HttpSafety],
      [HttpRuns], [HttpRequest], [HttpChunks], [HttpUrl]: the HTTP parser state by
      state; safety and termination on every input
      ([http_parser_execute_safe]), round trips of requests and chunked bodies
      ([http_parser_execute_requests], [http_parser_execute_chunks]), numbers and
      names ([content_length_exact], [header_name_recognised]), URLs
      ([http_parser_parse_url_ok]).
    - [Ingest] ([adapter/IngestServer.{h,cpp}]): the server refines a memoryless
      filter of messages ([ingestRun_filters]).
    - [HttpIngest] ([adapter/HttpIngest.{h,cpp}]), [JsonText] (JSON objects as a
      client may spell them) and [HttpIngestProps]: each request has one outcome,
      which fixes its response, its batch and its counts ([httpRun_ends]); the
      objects the reader accepts, with their escapes, spaces and decimal numbers
      ([parseJsonFields_reads]), and what it does not decode ([json_escapes_kept]);
      independence of how the requests are cut ([httpRun_segments]).
    - [ModbusPoller] ([adapter/ModbusPoller.{h,cpp}]): the requests a device gets and
      that they keep coming ([runDevice_requests], [runDevice_live]).
    - [Buffer] ([net/Buffer.h], [base/ByteOrder.cpp]): the two-index byte buffer
      refines a list of bytes ([applyOp_ok]); integers in network order
      ([appendInts_readInts]).
    - [Tcp] ([net/TcpConnection.{h,cpp}], [Channel.{h,cpp}], and what the poller,
      the loop and the server do with one connection), [TcpInv] (the invariant and one lemma per operation) and [TcpProps]: no
      assertion fails as long as none of three events happens ([tcp_safe],
      [may_happen]), which are reachable and not survived: an error reported for a
      closed connection with unread input, the server destroyed during an orderly
      shutdown, and another thread's [shutdown] that stores its state behind the
      close ([tcp_unsafe_events]); without them bytes stay in order and the write
      side closes behind the last ([tcp_in_order]), output drains ([tcp_drains]), and
      the callbacks come as [Ingest] assumes ([connections_ingest]).
    - [Loop] ([net/EventLoop.{h,cpp}], [EPollPoller.{h,cpp}]): a loop instruction by
      instruction, with the threads and signals around it, its functors, its
      channels and its wakeup descriptor; [LoopInv] (the invariant) and [LoopProps]:
      no assertion fails ([loop_safe]), functors are called once each and in the
      order they were queued ([loop_executes]), the loop does not sleep over work
      ([loop_wakes]), a request to quit before [loop] is lost ([quit_forgotten]).
    - [LoopThread] ([net/EventLoopThread.{h,cpp}]): the hand-over of a loop from the
      thread that runs it, and the race of its destructor ([thread_destructor]).
    - [Server] ([net/TcpServer.{h,cpp}], [Acceptor.{h,cpp}],
      [EventLoopThreadPool.{h,cpp}]): a server, its acceptor and its connections over
      the loops of a pool; [ServerInv] (the invariant) and [ServerProps]: no
      assertion fails while the server lives ([server_safe]), connections go to the
      loops in turn and stay there ([server_spreads]), when a server can be
      destroyed and what happens when it is destroyed too early
      ([server_destroyed], [server_destroyed_early]).
    - [ServerTcp]: the connections of [Server] are those of [Tcp] with their buffers
      forgotten ([connection_refines]).
    - [HttpObserve] (callbacks that only observe see the events of the recording
      ones, for every input), [HttpForm] ([base/Ascii.cpp], what [base/String.h] and
      URL coding do), [HttpServerParser] and [HttpServerProps]
      ([net/http/HttpParser.{h,cpp}], [HttpServer::doMessage]): the method,
      path and body of a printed request are handed on as they were, its parameters
      and fields trimmed and in lower case as [server_reads] says, pipelined ones are merged
      ([server_merges]), bad escapes are not survived ([server_asserts]).
    - [Timers] and [TimersProps] ([net/TimerQueue.cpp], [Timer.{h,cpp}]): the timers
      of an event loop, their heap and the callbacks that add and cancel timers:
      exactly the due timers fire ([timers_fire]), cancelled ones never again
      ([cancelled_never_fires]).
    - [Times] ([base/Timestamp.{h,cpp}]): the calendar with its inverse ([gmtime_ok])
      and the texts of a time stamp, which read back ([toFormattedString_reads]).
    - [Logging] ([adapter/AdapterLog.{h,cpp}], [base/LogFile.{h,cpp}], the buffer of
      [base/LogStream.h]): lines, and rolling files over the C library's streams;
      [LogStream] ([base/LogStream.cpp]): numbers in lines ([convert_correct]).
    - [AsyncLog] ([base/AsyncLogging.{h,cpp}]), the thread that writes the log with
      those that append and the owner that starts and stops it, and
      [AsyncLogProps]: lines reach the files in order ([log_in_order]) and do so in
      the end ([log_live]), but for what [stop] loses ([log_stop]).
    - [Lifecycle]: contexts of connections ([doMessageOn_ok]) and the destructors of
      pollers and connections ([loop_destroyed], [connection_destroyed]).
    - [Sha256] ([base/Sha256.h]): the hash fed in pieces against its definition on
      the whole message, and its wrong constant ([sha256_pieces]); [Passwords]: what
      a stored hash accepts ([verifyPassword_spec]).
    - [AdapterMain] ([adapter/main.cpp], the rest of [AdapterApp.cpp]): arguments,
      directories ([mkdirs_spec]), set-up of the log, statistics
      ([statsDeltas_sum]).
    - [AdapterApp] ([adapter/AdapterApp.{h,cpp}]), [AdapterAppProps] and [EndToEnd]:
      the components composed, for every interleaving of their threads: what is
      decoded is inserted exactly once and in order ([adapterRun_delivers]), and the
      values on the wire are the values in the database
      ([adapterRun_end_to_end]).

    ** Conventions

    A machine integer is a [Z] with its wrap-around written out ([u8] .. [u64],
    [swrap]); bytes are [Z]s in [0 .. 255]; a double is its bit pattern; a
    [std::string] is a [string], a buffer a [list Z].  A pointer into a buffer is
    the rest of the buffer from there, a pointer into a table an index.
    [None] stands for what the code must not do: a failed assertion, an access
    outside an object, undefined behaviour.  That a function does not return
    [None] is always a theorem, not an assumption.  Only the timers say what
    happens when memory runs out ([NoMemory]); elsewhere it does not.

    Loops that are not structural take fuel.  A slicer gets one turn per byte in
    its buffer and one more (each turn that continues drops a byte at least);
    [http_parser_execute] one turn per byte, eight states for each byte at most;
    the JSON and header loops the length of their text and one more; the writer's
    loops one turn per row; the loop around [fwrite] one turn per byte; a number of
    64 bits twenty digits.  The theorems above state that the result is never
    the one of missing fuel.

    Threads are sequences of events in any interleaving ([AppEvent],
    [NetEvent], [TcpEvent], [LoopEvent], [ThreadEvent], [ServerEvent], [LogEvent]).
    In [Tcp] an event of the loop is one step, and a call of another thread is
    three: it tests the state, it stores the new one, it queues its functor.  A concurrent queue keeps the order of each of its producers and is consumed by
    one thread.

    ** What is a parameter

    Code outside [src/] or below the language: the EtherDB client ([DbClient], an
    abstract state with its operations), the results of SQLite's statements and
    its text of a REAL, the order in which an [unordered_map] is traversed and the
    one [std::sort] gives to equal elements ([StdSort]), what
    [llround] does outside [long long], the answers of the kernel to [send],
    [recv], [connect], [time], [fopen] and [fwrite], the allocator of timers, and what the users of a
    connection or a timer do in its callbacks.
    Sizes of input are bounded where the code counts on it: below 2^64 bytes in a
    stream, 64 KiB for a URL, 1 GiB sent over or waiting unread in a connection.
    Two signed results that C++ leaves undefined when they do not fit an [int]
    are taken to wrap: [eventType] ([routeDevice]) and [failStreak]
    ([connect_failed]).  A connection is taken to live as long as its functors are
    queued, although [send]'s holds a bare [this].

    ** What is not modelled

    The text of each log message, and [operator<<] of a [double]; thread start and
    join but for the threads of loops and of the log; the calls that open sockets
    and files; the Windows branches (the completion-port poller among them) and
    the [poll] one; the mqtt stub, which does nothing; sessions, servlets, files
    and responses of the HTTP server, UDP, idle-timeout servers and the console
    channel, which the adapter does not use; the base library's own [Logger], its
    thread pool, bounded queues and wrappers of threads
    and locks; and third-party code: SQLite, zlib and the lock-free queue, which
    appear by their contracts. *)

From stdpp Require Import base list numbers gmap strings.
From Stdlib Require Import ZArith Lia.

Declare Scope ether_scope.
Delimit Scope ether_scope with ether.
Open Scope ether_scope.
Local Open Scope Z_scope.

Create HintDb ether.

(** ** Machine integers *)

(** [(uintN_t) z]: the value modulo [2^w]. *)
Definition uwrap (w z : Z) : Z := z mod 2 ^ w.

(** [(intN_t) z] on a two's complement machine. *)
Definition swrap (w z : Z) : Z :=
  let m := z mod 2 ^ w in if m <? 2 ^ (w - 1) then m else m - 2 ^ w.

Notation u8 := (uwrap 8).
Notation u16 := (uwrap 16).
Notation u32 := (uwrap 32).
Notation u64 := (uwrap 64).

(** A byte of a buffer; buffers are lists of bytes. *)
Definition is_byte (b : Z) : Prop := 0 <= b < 256.
Definition is_bytes (l : list Z) : Prop := Forall is_byte l.

(** ** Buffers indexed by [size_t] *)

(** [v.size()] *)
Definition lenZ {A} (l : list A) : Z := Z.of_nat (length l).

(** [p[i]]: [None] is an access outside the buffer. *)
Definition rd {A} (l : list A) (i : Z) : option A :=
  if i <? 0 then None else l !! Z.to_nat i.

(** [p + n] (the bytes from there on) and the first [n] bytes. *)
Definition dropZ {A} (n : Z) (l : list A) : list A := drop (Z.to_nat n) l.
Definition takeZ {A} (n : Z) (l : list A) : list A := take (Z.to_nat n) l.

(** [p[i] = x]: [None] is a write outside the buffer. *)
Definition wr {A} (l : list A) (i : Z) (x : A) : option (list A) :=
  if (0 <=? i) && (i <? lenZ l) then Some (<[Z.to_nat i := x]> l) else None.

(** ** Tactics *)

Ltac destr_if :=
  match goal with
  | |- context [if ?b then _ else _] => destruct b eqn:?
  | H : context [if ?b then _ else _] |- _ => destruct b eqn:?
  end.

Ltac bool_to_prop :=
  repeat match goal with
  | H : _ && _ = true |- _ => apply andb_true_iff in H; destruct H
  | H : _ || _ = false |- _ => apply orb_false_iff in H; destruct H
  | H : negb _ = true |- _ => apply negb_true_iff in H
  | H : negb _ = false |- _ => apply negb_false_iff in H
  | H : (_ =? _) = true |- _ => apply Z.eqb_eq in H
  | H : (_ =? _) = false |- _ => apply Z.eqb_neq in H
  | H : (_ <? _) = true |- _ => apply Z.ltb_lt in H
  | H : (_ <? _) = false |- _ => apply Z.ltb_ge in H
  | H : (_ <=? _) = true |- _ => apply Z.leb_le in H
  | H : (_ <=? _) = false |- _ => apply Z.leb_gt in H
  | H : (_ >? _) = _ |- _ => rewrite Z.gtb_ltb in H
  | H : (_ >=? _) = _ |- _ => rewrite Z.geb_leb in H
  end.

(** ** Lemmas on machine integers *)

Lemma uwrap_range w z : 0 <= w -> 0 <= uwrap w z < 2 ^ w.
Proof. intros. unfold uwrap. apply Z.mod_pos_bound. lia. Qed.

Lemma uwrap_small w z : 0 <= z < 2 ^ w -> uwrap w z = z.
Proof. intros. unfold uwrap. by apply Z.mod_small. Qed.

Lemma uwrap_uwrap w z : 0 <= w -> uwrap w (uwrap w z) = uwrap w z.
Proof. intros. apply uwrap_small. by apply uwrap_range. Qed.

Lemma uwrap_add_l w a b : uwrap w (uwrap w a + b) = uwrap w (a + b).
Proof. unfold uwrap. apply Zplus_mod_idemp_l. Qed.

Lemma swrap_range w z : 0 < w -> - 2 ^ (w - 1) <= swrap w z < 2 ^ (w - 1).
Proof.
  intros. unfold swrap.
  pose proof (Z.mod_pos_bound z (2 ^ w) ltac:(lia)).
  assert (2 ^ w = 2 * 2 ^ (w - 1)).
  { rewrite <- Z.pow_succ_r by lia. f_equal. lia. }
  destruct (Z.ltb_spec (z mod 2 ^ w) (2 ^ (w - 1))); lia.
Qed.

Lemma swrap_small w z : 0 < w -> - 2 ^ (w - 1) <= z < 2 ^ (w - 1) -> swrap w z = z.
Proof.
  intros Hw Hz. unfold swrap.
  assert (2 ^ w = 2 * 2 ^ (w - 1)) as Hp.
  { rewrite <- Z.pow_succ_r by lia. f_equal. lia. }
  destruct (Z.le_gt_cases 0 z).
  - rewrite Z.mod_small by lia. destruct (Z.ltb_spec z (2 ^ (w - 1))); lia.
  - assert (z mod 2 ^ w = z + 2 ^ w) as ->.
    { symmetry. apply Z.mod_unique with (-1); lia. }
    destruct (Z.ltb_spec (z + 2 ^ w) (2 ^ (w - 1))); lia.
Qed.

Lemma swrap_uwrap w z : 0 < w -> swrap w (uwrap w z) = swrap w z.
Proof. intros. unfold swrap, uwrap. by rewrite Z.mod_mod by lia. Qed.

Lemma uwrap_swrap w z : 0 < w -> uwrap w (swrap w z) = uwrap w z.
Proof.
  intros. unfold swrap, uwrap.
  destruct (z mod 2 ^ w <? 2 ^ (w - 1)).
  - by rewrite Z.mod_mod by lia.
  - replace (z mod 2 ^ w - 2 ^ w) with (z mod 2 ^ w + (-1) * 2 ^ w) by lia.
    rewrite Z.mod_add by lia. by rewrite Z.mod_mod by lia.
Qed.

#[export] Hint Resolve uwrap_range swrap_range : ether.
#[export] Hint Rewrite uwrap_uwrap swrap_uwrap uwrap_swrap using lia : ether.

(** ** Lemmas on buffers *)

Lemma lenZ_nonneg {A} (l : list A) : 0 <= lenZ l.
Proof. unfold lenZ. lia. Qed.

Lemma lenZ_nil {A} : lenZ (@nil A) = 0.
Proof. done. Qed.

Lemma lenZ_cons {A} (x : A) l : lenZ (x :: l) = 1 + lenZ l.
Proof. unfold lenZ. simpl length. lia. Qed.

Lemma lenZ_app {A} (l k : list A) : lenZ (l ++ k) = lenZ l + lenZ k.
Proof. unfold lenZ. rewrite length_app. lia. Qed.

Lemma lenZ_dropZ {A} n (l : list A) : lenZ (dropZ n l) = Z.max 0 (lenZ l - Z.max 0 n).
Proof. unfold lenZ, dropZ. rewrite length_drop. lia. Qed.

Lemma lenZ_takeZ {A} n (l : list A) : lenZ (takeZ n l) = Z.min (Z.max 0 n) (lenZ l).
Proof. unfold lenZ, takeZ. rewrite length_take. lia. Qed.

Lemma takeZ_dropZ {A} n (l : list A) : takeZ n l ++ dropZ n l = l.
Proof. apply take_drop. Qed.

Lemma dropZ_app_le {A} n (l k : list A) : n <= lenZ l -> dropZ n (l ++ k) = dropZ n l ++ k.
Proof. unfold dropZ, lenZ. intros. apply drop_app_le. lia. Qed.

Lemma takeZ_app_le {A} n (l k : list A) : n <= lenZ l -> takeZ n (l ++ k) = takeZ n l.
Proof. unfold takeZ, lenZ. intros. apply take_app_le. lia. Qed.

Lemma dropZ_dropZ {A} a b (l : list A) : 0 <= a -> 0 <= b -> dropZ b (dropZ a l) = dropZ (a + b) l.
Proof. unfold dropZ. intros. rewrite drop_drop. f_equal. lia. Qed.

Lemma dropZ_0 {A} (l : list A) : dropZ 0 l = l.
Proof. done. Qed.

Lemma dropZ_app_length {A} n (l k : list A) : n = lenZ l -> dropZ n (l ++ k) = k.
Proof. intros ->. unfold dropZ, lenZ. rewrite Nat2Z.id. apply drop_app_length. Qed.

Lemma takeZ_app_length {A} n (l k : list A) : n = lenZ l -> takeZ n (l ++ k) = l.
Proof. intros ->. unfold takeZ, lenZ. rewrite Nat2Z.id. apply take_app_length. Qed.

Lemma rd_app_l {A} (l k : list A) i : i < lenZ l -> rd (l ++ k) i = rd l i.
Proof.
  unfold rd, lenZ. intros. destruct (Z.ltb_spec i 0); [done|].
  apply lookup_app_l. lia.
Qed.

Lemma rd_app_r {A} (l k : list A) i : lenZ l <= i -> rd (l ++ k) i = rd k (i - lenZ l).
Proof.
  unfold rd, lenZ. intros. destruct (Z.ltb_spec i 0); [lia|].
  destruct (Z.ltb_spec (i - Z.of_nat (length l)) 0); [lia|].
  rewrite lookup_app_r by lia. f_equal. lia.
Qed.

Lemma rd_is_Some {A} (l : list A) i : 0 <= i < lenZ l -> is_Some (rd l i).
Proof.
  unfold rd, lenZ. intros. destruct (Z.ltb_spec i 0); [lia|].
  apply lookup_lt_is_Some. lia.
Qed.

Lemma rd_Some_lt {A} (l : list A) i x : rd l i = Some x -> 0 <= i < lenZ l.
Proof.
  unfold rd, lenZ. destruct (Z.ltb_spec i 0); [done|].
  intros Hl%lookup_lt_Some. lia.
Qed.

Lemma rd_dropZ {A} (l : list A) a i : 0 <= a -> 0 <= i -> rd (dropZ a l) i = rd l (a + i).
Proof.
  unfold rd, dropZ. intros. destruct (Z.ltb_spec i 0); [lia|].
  destruct (Z.ltb_spec (a + i) 0); [lia|].
  rewrite lookup_drop. f_equal. lia.
Qed.

Lemma rd_bytes l i b : is_bytes l -> rd l i = Some b -> is_byte b.
Proof.
  unfold rd, is_bytes. destruct (i <? 0); [done|].
  intros HF Hl. rewrite Forall_lookup in HF. eauto.
Qed.

Lemma rd_cons_0 {A} (x : A) l : rd (x :: l) 0 = Some x.
Proof. done. Qed.

Lemma rd_cons_S {A} (x : A) l i : 0 < i -> rd (x :: l) i = rd l (i - 1).
Proof.
  unfold rd. intros. destruct (Z.ltb_spec i 0), (Z.ltb_spec (i - 1) 0); try lia.
  replace (Z.to_nat i) with (S (Z.to_nat (i - 1))) by lia. done.
Qed.

Lemma wr_Some {A} (l : list A) i x : 0 <= i < lenZ l -> wr l i x = Some (<[Z.to_nat i := x]> l).
Proof.
  unfold wr. intros. destruct (Z.leb_spec 0 i), (Z.ltb_spec i (lenZ l)); simpl; lia || done.
Qed.

Lemma wr_length {A} (l l' : list A) i x : wr l i x = Some l' -> length l' = length l.
Proof. unfold wr. destruct (_ && _); [|done]. intros [= <-]. apply length_insert. Qed.

#[export] Hint Rewrite @lenZ_nil @lenZ_cons @lenZ_app @lenZ_dropZ @lenZ_takeZ : lenZ.
#[export] Hint Resolve lenZ_nonneg rd_is_Some : ether.

(** ** Copies into a buffer *)

(** [memcpy(data + off, bytes, n)] *)
Definition memcpy (data : list Z) (off : Z) (bytes : list Z) : option (list Z) :=
  if (0 <=? off) && (off + lenZ bytes <=? lenZ data)
  then Some (takeZ off data ++ bytes ++ dropZ (off + lenZ bytes) data)
  else None.

Definition subBytes (off n : Z) (l : list Z) : list Z := takeZ n (dropZ off l).

Lemma subBytes_length off n l : 0 <= off -> 0 <= n -> off + n <= lenZ l -> lenZ (subBytes off n l) = n.
Proof. intros. unfold subBytes. rewrite lenZ_takeZ, lenZ_dropZ. lia. Qed.

Lemma takeZ_all {A} n (l : list A) : lenZ l <= n -> takeZ n l = l.
Proof. intros H. unfold takeZ, lenZ in *. apply firstn_all2. lia. Qed.

Lemma takeZ_takeZ {A} a b (l : list A) : 0 <= a -> takeZ a (takeZ b l) = takeZ (Z.min a b) l.
Proof. intros H. unfold takeZ. rewrite take_take. f_equal. lia. Qed.

Lemma dropZ_takeZ {A} a b (l : list A) : 0 <= a -> dropZ a (takeZ b l) = takeZ (b - a) (dropZ a l).
Proof. intros H. unfold takeZ, dropZ. rewrite skipn_firstn_comm. f_equal. lia. Qed.

Lemma subBytes_split off a b l : 0 <= off -> 0 <= a -> 0 <= b ->
  subBytes off (a + b) l = subBytes off a l ++ subBytes (off + a) b l.
Proof.
  intros. unfold subBytes. rewrite <- (takeZ_dropZ a (takeZ (a + b) (dropZ off l))).
  rewrite takeZ_takeZ, dropZ_takeZ, dropZ_dropZ by lia. f_equal; f_equal; lia.
Qed.

Lemma memcpy_spec data off bytes : 0 <= off -> off + lenZ bytes <= lenZ data ->
  exists data', memcpy data off bytes = Some data' /\ lenZ data' = lenZ data /\
    subBytes off (lenZ bytes) data' = bytes /\
    (forall o n, 0 <= o -> 0 <= n -> o + n <= off \/ off + lenZ bytes <= o ->
       subBytes o n data' = subBytes o n data).
Proof.
  intros Ho Hb. unfold memcpy. pose proof (lenZ_nonneg bytes) as Hn. pose proof (lenZ_nonneg data).
  destruct (Z.leb_spec 0 off); [|lia]. destruct (Z.leb_spec (off + lenZ bytes) (lenZ data)); [|lia].
  eexists. split; [done|].
  assert (lenZ (takeZ off data) = off) as Hl by (rewrite lenZ_takeZ; lia).
  split_and!.
  - rewrite !lenZ_app, lenZ_takeZ, lenZ_dropZ. lia.
  - unfold subBytes. rewrite dropZ_app_length by done. by apply takeZ_app_length.
  - intros o n Hon Hnn Hd. unfold subBytes. rewrite <- (takeZ_dropZ off data) at 3. destruct Hd as [Hd|Hd].
    + rewrite !dropZ_app_le by lia. by rewrite !takeZ_app_le by (rewrite lenZ_dropZ; lia).
    + f_equal. rewrite app_assoc.
      replace o with (off + lenZ bytes + (o - off - lenZ bytes)) by lia.
      rewrite <- (dropZ_dropZ (off + lenZ bytes)) by lia.
      rewrite dropZ_app_length by (rewrite lenZ_app; lia). rewrite dropZ_dropZ by lia.
      by rewrite (takeZ_dropZ off data).
Qed.

(** One call per segment, threading the state and collecting the outputs. *)
Fixpoint feed_calls {S O} (feed : S -> list Z -> option (S * list O)) (s : S)
    (segs : list (list Z)) : option (S * list O) :=
  match segs with
  | [] => Some (s, [])
  | d :: ds =>
      '(s1, o1) ← feed s d;
      '(s2, o2) ← feed_calls feed s1 ds;
      Some (s2, o1 ++ o2)
  end.

(** ** The incremental consumer interface

    A component that is fed a byte stream in arbitrary segments promises that
    its result depends on the concatenation of the segments only. *)

Class ByteStream (S O : Type) := {
  bs_ok : S -> Prop;
  bs_feed : S -> list Z -> option (S * list O);
  bs_total : forall s d, bs_ok s -> is_bytes d ->
    exists s' o, bs_feed s d = Some (s', o) /\ bs_ok s';
  bs_app : forall s s1 o1 d1 d2, bs_ok s -> is_bytes d1 -> is_bytes d2 ->
    bs_feed s d1 = Some (s1, o1) ->
    bs_feed s (d1 ++ d2) = ('(s2, o2) ← bs_feed s1 d2; Some (s2, o1 ++ o2));
}.

Lemma is_bytes_concat segs : Forall is_bytes segs -> is_bytes (concat segs).
Proof. induction 1; simpl; [constructor|]. by apply Forall_app. Qed.

(** A non-empty list of segments is one call on the concatenation. *)
Lemma feed_calls_concat {S O} `{ByteStream S O} segs d (s : S) :
  bs_ok s -> is_bytes d -> Forall is_bytes segs ->
  feed_calls bs_feed s (d :: segs) = bs_feed s (d ++ concat segs).
Proof.
  revert s d. induction segs as [|d2 segs IH]; intros s d Hok Hd Hsegs.
  - simpl. rewrite app_nil_r. destruct (bs_feed s d) as [[s1 o1]|]; simpl; [|done].
    by rewrite app_nil_r.
  - apply Forall_cons in Hsegs as [Hd2 Hsegs].
    destruct (bs_total s d Hok Hd) as (s1 & o1 & E & Hok1).
    change (feed_calls bs_feed s (d :: d2 :: segs)) with
      ('(s1, o1) ← bs_feed s d; '(s2, o2) ← feed_calls bs_feed s1 (d2 :: segs); Some (s2, o1 ++ o2)).
    rewrite E. cbn [mbind option_bind].
    rewrite (IH s1 d2) by done. cbn [concat].
    rewrite (bs_app s s1 o1 d (d2 ++ concat segs)); try done.
    apply Forall_app. split; [done|]. by apply is_bytes_concat.
Qed.
