(* ===== verification/DeviceModel.v ===== *)
(** * The runtime device / protocol model

    [src/src/adapter/DeviceModel.h]: wire field kinds, cells, field, frame,
    device and peer-group descriptions, with the helper methods of those
    structs.  A [const DeviceDesc*] is modelled by [DevicePtr]: the position of
    the device in [ConfigDB::_devices] (its address) with the pointee, which
    never changes once the configuration is loaded. *)

From stdpp Require Import base list numbers gmap strings.
From Stdlib Require Import ZArith Lia.
From S2P Require Import Prelude.
Local Open Scope Z_scope.

(** ** Data *)

(** [enum class FieldKind] *)
Inductive FieldKind :=
| IntSigned
| IntUnsigned
| Float32
| Float64
| Bool.

(** [enum ConnProto] *)
Definition CONN_CUSTOM_DATA : Z := 1.
Definition CONN_MODBUS : Z := 2.
Definition CONN_HTTP : Z := 3.
Definition CONN_MQTT : Z := 4.

(** [struct Cell]: the union [v] is its 64-bit pattern. *)
Record Cell := mkCell { c_v : Z; c_isNull : Z }.

(** The default-constructed cell ([isNull = 0]; the union's bytes are taken
    zero, every reader overwrites or ignores them). *)
Definition Cell0 : Cell := {| c_v := 0; c_isNull := 0 |}.

(** [c.v.i], [c.v.d] (as the bits of the double) *)
Definition cell_i (c : Cell) : Z := swrap 64 (c_v c).
Definition cell_d (c : Cell) : Z := u64 (c_v c).

(** [struct FieldDesc] *)
Record FieldDesc := mkField {
  f_name : string;
  f_unit : string;
  f_kind : FieldKind;
  f_size : Z;        (* uint8_t *)
  f_byteOffset : Z;  (* uint32_t *)
  f_bitOffset : Z;   (* uint8_t *)
  f_bitLen : Z;      (* uint8_t *)
  f_precision : Z;   (* int *)
  f_outSize : Z;     (* uint8_t *)
  f_bindType : Z;    (* int *)
  f_colType : string;
  f_asDouble : bool;
}.

(** [struct FrameSpec] *)
Record FrameSpec := mkSpec {
  s_dataProtoId : Z;
  s_frameType : Z;
  s_frameLen : Z;
  s_startFlag : Z;   (* uint8_t *)
  s_endFlag : Z;     (* uint8_t *)
  s_endian : Z;
  s_payloadMin : Z;  (* uint32_t *)
  s_slaveAddr : Z;
  s_funCode : Z;
  s_startAddr : Z;
  s_addrNum : Z;
  s_fields : list FieldDesc;
}.

(** The default-constructed [FrameSpec]. *)
Definition FrameSpec0 : FrameSpec :=
  {| s_dataProtoId := 0; s_frameType := 0; s_frameLen := 0; s_startFlag := 0;
     s_endFlag := 0; s_endian := 0; s_payloadMin := 0; s_slaveAddr := 0;
     s_funCode := 0; s_startAddr := -1; s_addrNum := 0; s_fields := [] |}.

(** [FrameSpec::hasModbusRequest] *)
Definition hasModbusRequest (s : FrameSpec) : bool :=
  (0 <=? s_startAddr s) && (0 <? s_addrNum s).

(** [FrameSpec::isModbusHeaderLen] *)
Definition isModbusHeaderLen (s : FrameSpec) : bool :=
  (s_frameType s =? 0) || (s_frameType s =? 2) || (s_frameType s =? 7) ||
  (s_frameType s =? 9).

(** [struct DeviceDesc]; [d_group] is the index of the group in
    [ConfigDB::_groups]. *)
Record DeviceDesc := mkDevice {
  d_deviceId : string;
  d_deviceName : string;
  d_ip : string;
  d_devicePort : Z;      (* uint16_t *)
  d_connProto : Z;
  d_localServerPort : Z; (* uint16_t *)
  d_dataProtoId : Z;
  d_endian : Z;
  d_spec : FrameSpec;
  d_group : option nat;
  d_isEvent : bool;
  d_eventType : Z;
  d_immediateFlush : bool;
}.

(** [DeviceDesc::fieldCount] *)
Definition fieldCount (d : DeviceDesc) : Z := lenZ (s_fields (d_spec d)).

(** The effective [endian] setting: the device's override, else the header's. *)
Definition endianSetting (d : DeviceDesc) : Z :=
  if d_endian d =? 0 then s_endian (d_spec d) else d_endian d.

(** [DeviceDesc::bigEndian] *)
Definition bigEndian (d : DeviceDesc) : bool := negb (endianSetting d =? 0).

(** [DeviceDesc::modbusBigEndian] *)
Definition modbusBigEndian (d : DeviceDesc) : bool := negb (endianSetting d =? 1).

(** [const DeviceDesc*] *)
Record DevicePtr := mkPtr { p_addr : nat; p_desc : DeviceDesc }.

(** [struct DeviceGroup] *)
Record DeviceGroup := mkGroup { g_key : string; g_members : list DevicePtr }.

(** [DeviceGroup::primary] *)
Definition primary (g : DeviceGroup) : option DevicePtr := head (g_members g).

(** [DeviceGroup::byFrameType] *)
Fixpoint findFrameType (ft : Z) (members : list DevicePtr) : option DevicePtr :=
  match members with
  | [] => None
  | d :: rest =>
      if s_frameType (d_spec (p_desc d)) =? ft then Some d else findFrameType ft rest
  end.

Definition byFrameType (g : DeviceGroup) (ft : Z) : option DevicePtr :=
  findFrameType ft (g_members g).

#[export] Instance FieldKind_eq_dec : EqDecision FieldKind.
Proof. solve_decision. Defined.

#[export] Instance Cell_eq_dec : EqDecision Cell.
Proof. solve_decision. Defined.

(** ** Well-formed configuration

    What [ConfigDB] establishes for every loaded field and frame
    (proved in [ConfigDB.v]) and the codec relies on. *)

Definition field_ok (f : FieldDesc) : Prop :=
  (f_size f = 1 \/ f_size f = 2 \/ f_size f = 4 \/ f_size f = 8) /\
  (f_kind f = Float32 -> f_size f = 4) /\
  (f_kind f = Float64 -> f_size f = 8) /\
  (f_kind f = Bool -> f_size f = 1) /\
  0 <= f_byteOffset f < 2 ^ 32 /\
  0 <= f_bitOffset f /\ 0 <= f_bitLen f /\
  (0 < f_bitLen f -> f_bitOffset f + f_bitLen f <= f_size f * 8) /\
  (f_asDouble f = true <-> f_kind f = Float32 \/ f_kind f = Float64).

(** [payloadMin] covers every field, up to the wrap-around of its [uint32_t]
    computation. *)
Definition spec_ok (s : FrameSpec) : Prop :=
  Forall field_ok (s_fields s) /\
  0 <= s_payloadMin s < 2 ^ 32 /\
  - 2 ^ 31 <= s_frameLen s < 2 ^ 31 /\
  Forall (fun f => u32 (f_byteOffset f + f_size f) <= s_payloadMin s) (s_fields s).

Definition device_ok (d : DeviceDesc) : Prop := spec_ok (d_spec d).

Definition group_ok (g : DeviceGroup) : Prop :=
  Forall (fun p => device_ok (p_desc p)) (g_members g).

(** ** Lemmas *)

Lemma findFrameType_elem ft ms p :
  findFrameType ft ms = Some p -> p ∈ ms /\ s_frameType (d_spec (p_desc p)) = ft.
Proof.
  induction ms as [|d ms IH]; simpl; [done|].
  destruct (Z.eqb_spec (s_frameType (d_spec (p_desc d))) ft).
  - intros [= <-]. split; [left|done].
  - intros [? ?]%IH. split; [by right|done].
Qed.

Lemma byFrameType_elem g ft p :
  byFrameType g ft = Some p -> p ∈ g_members g /\ s_frameType (d_spec (p_desc p)) = ft.
Proof. apply findFrameType_elem. Qed.

Lemma byFrameType_ok g ft p :
  group_ok g -> byFrameType g ft = Some p -> device_ok (p_desc p).
Proof.
  intros Hg [Hin _]%byFrameType_elem. unfold group_ok in Hg.
  rewrite Forall_forall in Hg. by apply Hg.
Qed.

Lemma fieldCount_nonneg d : 0 <= fieldCount d.
Proof. apply lenZ_nonneg. Qed.

Lemma cell_i_wrap v n : cell_i (mkCell (u64 v) n) = swrap 64 v.
Proof. unfold cell_i; simpl. by rewrite swrap_uwrap by lia. Qed.

Lemma cell_d_wrap v n : 0 <= v < 2 ^ 64 -> cell_d (mkCell v n) = v.
Proof. intros. unfold cell_d; simpl. by apply uwrap_small. Qed.

(** ** Deciding well-formedness *)

Definition field_okb (f : FieldDesc) : bool :=
  ((f_size f =? 1) || (f_size f =? 2) || (f_size f =? 4) || (f_size f =? 8)) &&
  match f_kind f with
  | Float32 => (f_size f =? 4) && f_asDouble f
  | Float64 => (f_size f =? 8) && f_asDouble f
  | Bool => (f_size f =? 1) && negb (f_asDouble f)
  | _ => negb (f_asDouble f)
  end &&
  (0 <=? f_byteOffset f) && (f_byteOffset f <? 2 ^ 32) && (0 <=? f_bitOffset f) &&
  (0 <=? f_bitLen f) &&
  ((f_bitLen f <=? 0) || (f_bitOffset f + f_bitLen f <=? f_size f * 8)).

Lemma field_okb_ok f : field_okb f = true -> field_ok f.
Proof.
  unfold field_okb, field_ok. intros H. bool_to_prop. rewrite !orb_true_iff, !Z.eqb_eq, !Z.leb_le in *.
  destruct (f_kind f), (f_asDouble f); bool_to_prop; simpl in *; intuition (congruence || lia).
Qed.

Definition spec_okb (s : FrameSpec) : bool :=
  forallb field_okb (s_fields s) && (0 <=? s_payloadMin s) && (s_payloadMin s <? 2 ^ 32) &&
  (- 2 ^ 31 <=? s_frameLen s) && (s_frameLen s <? 2 ^ 31) &&
  forallb (fun f => u32 (f_byteOffset f + f_size f) <=? s_payloadMin s) (s_fields s).

Lemma spec_okb_ok s : spec_okb s = true -> spec_ok s.
Proof.
  unfold spec_okb, spec_ok. intros H. bool_to_prop.
  repeat match goal with H : forallb _ _ = true |- _ => rewrite forallb_forall in H end.
  split_and!; try lia; apply Forall_forall; intros f Hf%list_elem_of_In.
  - by apply field_okb_ok; auto.
  - apply Z.leb_le; auto.
Qed.

Lemma group_okb_ok g :
  forallb (fun p => spec_okb (d_spec (p_desc p))) (g_members g) = true -> group_ok g.
Proof.
  rewrite forallb_forall. intros H. apply Forall_forall. intros p Hp%list_elem_of_In.
  by apply spec_okb_ok, H.
Qed.

#[export] Hint Resolve fieldCount_nonneg byFrameType_ok : ether.
