(* ===== verification/Floats.v ===== *)
(** * IEEE-754 formats by their bit patterns

    The adapter moves floating-point values between 4- and 8-byte encodings
    ([(double)f], [(float)d], [(double)i]).  Values are their bit patterns; a
    format has [p] fraction bits and [w] exponent bits; conversions round to
    nearest, ties to even, and keep the payload of a NaN while setting its
    quiet bit, which is what the hardware conversion instructions do. *)

From stdpp Require Import base list numbers.
From Stdlib Require Import ZArith Lia.
From S2P Require Import Prelude.
Local Open Scope Z_scope.

(** ** Formats *)

Definition fp_bias (w : Z) : Z := 2 ^ (w - 1) - 1.
Definition fp_sign (p w b : Z) : Z := (b / 2 ^ (p + w)) mod 2.
Definition fp_exp (p w b : Z) : Z := (b / 2 ^ p) mod 2 ^ w.
Definition fp_man (p b : Z) : Z := b mod 2 ^ p.

(** A finite pattern stands for [M * 2^E]. *)
Definition fp_finite (p w b : Z) : Z * Z :=
  if fp_exp p w b =? 0 then (fp_man p b, 1 - fp_bias w - p)
  else (fp_man p b + 2 ^ p, fp_exp p w b - fp_bias w - p).

(** [n / 2^s], to nearest, ties to even. *)
Definition rne_shift (n s : Z) : Z :=
  if s <=? 0 then n * 2 ^ (- s)
  else
    let q := n / 2 ^ s in
    let r := n mod 2 ^ s in
    let half := 2 ^ (s - 1) in
    if r <? half then q else if half <? r then q + 1 else q + q mod 2.

(** The pattern nearest to [(-1)^s * M * 2^E] ([M >= 0]). *)
Definition fp_encode (p w s M E : Z) : Z :=
  let inf := (2 ^ w - 1) * 2 ^ p in
  let mag :=
    if M =? 0 then 0
    else
      let x := Z.log2 M + E in
      let emin := 1 - fp_bias w in
      let q := Z.max (x - p) (emin - p) in
      let n := rne_shift M (q - E) in
      let bits := if emin <=? x then (x + fp_bias w - 1) * 2 ^ p + n else n in
      Z.min bits inf
  in s * 2 ^ (p + w) + mag.

Definition fp_is_nan (p w b : Z) : bool :=
  (fp_exp p w b =? 2 ^ w - 1) && negb (fp_man p b =? 0).

(** Move a NaN payload to a format with [p'] fraction bits. *)
Definition nan_payload (p p' m : Z) : Z :=
  Z.lor (if p <=? p' then m * 2 ^ (p' - p) else m / 2 ^ (p - p')) (2 ^ (p' - 1)).

Definition fp_convert (p w p' w' b : Z) : Z :=
  let s := fp_sign p w b in
  if fp_exp p w b =? 2 ^ w - 1 then
    s * 2 ^ (p' + w') + (2 ^ w' - 1) * 2 ^ p' +
    (if fp_man p b =? 0 then 0 else nan_payload p p' (fp_man p b))
  else
    let '(M, E) := fp_finite p w b in fp_encode p' w' s M E.

(** [(double)f] and [(float)d] *)
Definition f32_to_f64 (b : Z) : Z := fp_convert 23 8 52 11 b.
Definition f64_to_f32 (b : Z) : Z := fp_convert 52 11 23 8 b.

(** [(double)i] for an [int64_t] *)
Definition i64_to_f64 (i : Z) : Z :=
  fp_encode 52 11 (if i <? 0 then 1 else 0) (Z.abs i) 0.

Definition f32_is_nan : Z -> bool := fp_is_nan 23 8.

(** ** Sanity: known encodings *)

Example f32_one : f32_to_f64 0x3F800000 = 0x3FF0000000000000.
Proof. reflexivity. Qed.
Example f32_min_subnormal : f32_to_f64 1 = 0x36A0000000000000.
Proof. reflexivity. Qed.
Example f64_tenth : f64_to_f32 0x3FB999999999999A = 0x3DCCCCCD.
Proof. reflexivity. Qed.
Example f64_overflow : f64_to_f32 0x7FEFFFFFFFFFFFFF = 0x7F800000.
Proof. reflexivity. Qed.
Example i64_minus_three : i64_to_f64 (-3) = 0xC008000000000000.
Proof. reflexivity. Qed.

(** ** Exactness *)

(** The low [k] bits are independent of a multiple of [2^k]. *)
Lemma add_is_lor a k x : 0 <= k -> 0 <= x < 2 ^ k -> a * 2 ^ k + x = Z.lor (a * 2 ^ k) x.
Proof.
  intros Hk Hx. rewrite <- Z.add_lor_land.
  enough (Z.land (a * 2 ^ k) x = 0) as -> by lia.
  apply Z.bits_inj'. intros n Hn. rewrite Z.land_spec, Z.bits_0, <- Z.shiftl_mul_pow2 by lia.
  destruct (Z.ltb_spec n k).
  - by rewrite Z.shiftl_spec_low by lia.
  - rewrite <- (Z.mod_small x (2 ^ k)) by lia.
    rewrite Z.mod_pow2_bits_high by lia. apply andb_false_r.
Qed.

Lemma add_lor_low a k x y :
  0 <= k -> 0 <= x < 2 ^ k -> 0 <= y < 2 ^ k -> 0 <= Z.lor x y < 2 ^ k ->
  Z.lor (a * 2 ^ k + x) y = a * 2 ^ k + Z.lor x y.
Proof. intros. rewrite !add_is_lor by lia. by rewrite Z.lor_assoc. Qed.

Lemma rne_shift_nonpos n s : s <= 0 -> rne_shift n s = n * 2 ^ (- s).
Proof. intros. unfold rne_shift. destruct (Z.leb_spec s 0); [done|lia]. Qed.

Lemma rne_shift_scale n s k :
  0 <= k -> rne_shift (n * 2 ^ k) (s + k) = rne_shift n s.
Proof.
  intros Hk. unfold rne_shift.
  destruct (Z.leb_spec s 0) as [Hs|Hs], (Z.leb_spec (s + k) 0) as [Hsk|Hsk]; try lia.
  - rewrite <- Z.mul_assoc, <- Z.pow_add_r by lia. f_equal. f_equal. lia.
  - assert (n * 2 ^ k = n * 2 ^ (- s) * 2 ^ (s + k)) as ->.
    { rewrite <- Z.mul_assoc, <- Z.pow_add_r by lia. do 2 f_equal. lia. }
    rewrite Z.div_mul, Z.mod_mul by lia.
    destruct (Z.ltb_spec 0 (2 ^ (s + k - 1))) as [|Hneg]; [done|].
    pose proof (Z.pow_pos_nonneg 2 (s + k - 1)). lia.
  - rewrite Z.pow_add_r by lia.
    rewrite Z.div_mul_cancel_r by lia.
    rewrite Z.mul_mod_distr_r by lia.
    replace (s + k - 1) with (s - 1 + k) by lia. rewrite (Z.pow_add_r 2 (s - 1)) by lia.
    assert (0 < 2 ^ k) by lia.
    assert ((n mod 2 ^ s * 2 ^ k <? 2 ^ (s - 1) * 2 ^ k) = (n mod 2 ^ s <? 2 ^ (s - 1))) as ->.
    { apply Bool.eq_iff_eq_true. rewrite !Z.ltb_lt. nia. }
    assert ((2 ^ (s - 1) * 2 ^ k <? n mod 2 ^ s * 2 ^ k) = (2 ^ (s - 1) <? n mod 2 ^ s)) as ->.
    { apply Bool.eq_iff_eq_true. rewrite !Z.ltb_lt. nia. }
    done.
Qed.

Lemma fp_encode_scale p w s M E k :
  0 <= k -> 0 <= M -> fp_encode p w s (M * 2 ^ k) (E - k) = fp_encode p w s M E.
Proof.
  intros Hk HM. unfold fp_encode.
  destruct (Z.eqb_spec M 0) as [->|HM0]; [by rewrite Z.mul_0_l|].
  destruct (Z.eqb_spec (M * 2 ^ k) 0); [nia|].
  rewrite Z.log2_mul_pow2 by lia.
  replace (k + Z.log2 M + (E - k)) with (Z.log2 M + E) by lia.
  match goal with |- context [rne_shift (M * _) ?e] =>
    replace e with (Z.max (Z.log2 M + E - p) (1 - fp_bias w - p) - E + k) by lia end.
  by rewrite rne_shift_scale by lia.
Qed.

(** Encoding the value of a finite pattern gives the pattern back. *)
Lemma fp_encode_finite p w b s :
  0 < p -> 1 < w -> fp_exp p w b <> 2 ^ w - 1 ->
  let '(M, E) := fp_finite p w b in
  fp_encode p w s M E = s * 2 ^ (p + w) + fp_exp p w b * 2 ^ p + fp_man p b.
Proof.
  intros Hp Hw Hne. unfold fp_finite, fp_encode.
  assert (0 <= fp_exp p w b < 2 ^ w) as He by (apply Z.mod_pos_bound; lia).
  assert (0 <= fp_man p b < 2 ^ p) as Hm by (apply Z.mod_pos_bound; lia).
  set (e := fp_exp p w b) in *. set (m := fp_man p b) in *.
  assert (0 < 2 ^ p) by lia.
  destruct (Z.eqb_spec e 0) as [He0|He0].
  - destruct (Z.eqb_spec m 0) as [->|Hm0]; [rewrite He0; lia|].
    assert (Z.log2 m < p) by (apply Z.log2_lt_pow2; lia).
    destruct (Z.leb_spec (1 - fp_bias w) (Z.log2 m + (1 - fp_bias w - p))); [lia|].
    rewrite Z.max_r by lia. rewrite rne_shift_nonpos by lia.
    replace (1 - fp_bias w - p - (1 - fp_bias w - p)) with 0 by lia.
    simpl (2 ^ - 0). assert (m <= (2 ^ w - 1) * 2 ^ p) by nia. lia.
  - destruct (Z.eqb_spec (m + 2 ^ p) 0); [lia|].
    assert (Z.log2 (m + 2 ^ p) = p) as ->.
    { apply Z.log2_unique; [lia|]. rewrite Z.pow_succ_r; lia. }
    destruct (Z.leb_spec (1 - fp_bias w) (p + (e - fp_bias w - p))); [|lia].
    rewrite Z.max_l by lia. rewrite rne_shift_nonpos by lia.
    replace (p + (e - fp_bias w - p) - p - (e - fp_bias w - p)) with 0 by lia.
    simpl (2 ^ - 0).
    replace (p + (e - fp_bias w - p) + fp_bias w - 1) with (e - 1) by lia.
    rewrite Z.min_l; [lia|]. nia.
Qed.

(** The three parts of an assembled pattern. *)
Lemma fp_parts p w s e m :
  0 <= p -> 0 <= w -> 0 <= s < 2 -> 0 <= e < 2 ^ w -> 0 <= m < 2 ^ p ->
  let b := s * 2 ^ (p + w) + e * 2 ^ p + m in
  fp_sign p w b = s /\ fp_exp p w b = e /\ fp_man p b = m.
Proof.
  intros Hp Hw Hs He Hm b.
  assert (b = m + (e + s * 2 ^ w) * 2 ^ p) as Hb.
  { unfold b. rewrite Z.pow_add_r by lia. ring. }
  assert (b / 2 ^ p = e + s * 2 ^ w) as Hd.
  { rewrite Hb, Z.div_add by lia. rewrite (Z.div_small m) by lia. lia. }
  split_and!.
  - unfold fp_sign. rewrite Z.pow_add_r, <- Z.div_div by lia. rewrite Hd.
    rewrite Z.div_add by lia. rewrite (Z.div_small e) by lia. by apply Z.mod_small.
  - unfold fp_exp. rewrite Hd, Z.mod_add by lia. by apply Z.mod_small.
  - unfold fp_man. rewrite Hb, Z.mod_add by lia. by apply Z.mod_small.
Qed.

(** Reassembling a pattern from its parts. *)
Lemma fp_reassemble p w b :
  0 <= p -> 0 <= w -> 0 <= b < 2 ^ (p + w + 1) ->
  fp_sign p w b * 2 ^ (p + w) + fp_exp p w b * 2 ^ p + fp_man p b = b.
Proof.
  intros Hp Hw Hb. unfold fp_sign, fp_exp, fp_man.
  rewrite (Z.pow_add_r 2 (p + w) 1) in Hb by lia.
  rewrite (Z.mod_small (b / 2 ^ (p + w))).
  2:{ split; [apply Z.div_pos; lia|apply Z.div_lt_upper_bound; lia]. }
  rewrite Z.pow_add_r, <- Z.div_div by lia.
  pose proof (Z.div_mod b (2 ^ p)). pose proof (Z.div_mod (b / 2 ^ p) (2 ^ w)). nia.
Qed.

(** A value with few enough digits and an exponent in range is encoded
    exactly, as a normal number. *)
Lemma fp_encode_exact p w s M E :
  0 < p -> 1 < w -> 0 <= s < 2 -> 0 < M -> Z.log2 M <= p ->
  1 - fp_bias w <= Z.log2 M + E <= fp_bias w ->
  let b := fp_encode p w s M E in
  let k := p - Z.log2 M in
  fp_sign p w b = s /\ fp_exp p w b <> 2 ^ w - 1 /\
  fp_finite p w b = (M * 2 ^ k, E - k).
Proof.
  intros Hp Hw Hs HM Hlog Hx b k.
  assert (k = p - Z.log2 M) as Hk by done. clearbody k.
  pose proof (Z.log2_nonneg M).
  assert (2 ^ p <= M * 2 ^ k < 2 ^ (p + 1)) as HN.
  { pose proof (Z.log2_spec M HM) as [H1 H2].
    replace (2 ^ p) with (2 ^ Z.log2 M * 2 ^ k).
    2:{ rewrite <- Z.pow_add_r by lia. f_equal. lia. }
    replace (p + 1) with (Z.succ (Z.log2 M) + k) by lia.
    rewrite (Z.pow_add_r 2 (Z.succ (Z.log2 M)) k) by lia.
    assert (0 < 2 ^ k) by lia. nia. }
  rewrite Z.pow_add_r in HN by lia.
  assert (0 < 2 ^ p) by lia.
  assert (2 ^ w = 2 * 2 ^ (w - 1)) as Hw2.
  { rewrite <- Z.pow_succ_r by lia. f_equal. lia. }
  assert (b = s * 2 ^ (p + w) + (Z.log2 M + E + fp_bias w) * 2 ^ p + (M * 2 ^ k - 2 ^ p)) as Hb.
  { unfold b, fp_encode. destruct (Z.eqb_spec M 0); [lia|].
    destruct (Z.leb_spec (1 - fp_bias w) (Z.log2 M + E)); [|lia].
    rewrite Z.max_l by lia. rewrite rne_shift_nonpos by lia.
    replace (- (Z.log2 M + E - p - E)) with k by lia.
    unfold fp_bias in *. rewrite Z.min_l; [ring|]. nia. }
  destruct (fp_parts p w s (Z.log2 M + E + fp_bias w) (M * 2 ^ k - 2 ^ p))
    as (Hsg & Hex & Hma); try (unfold fp_bias in *; lia).
  rewrite <- Hb in Hsg, Hex, Hma.
  split_and!; [done|rewrite Hex; unfold fp_bias in *; lia|].
  unfold fp_finite. rewrite Hex, Hma.
  destruct (Z.eqb_spec (Z.log2 M + E + fp_bias w) 0); [lia|].
  f_equal; lia.
Qed.

Lemma fp_finite_bounds p w b :
  0 < p -> 1 < w -> fp_exp p w b <> 2 ^ w - 1 ->
  let '(M, E) := fp_finite p w b in
  0 <= M /\ (0 < M -> Z.log2 M <= p /\
  1 - fp_bias w - p <= Z.log2 M + E <= fp_bias w).
Proof.
  intros Hp Hw Hne. unfold fp_finite.
  assert (0 <= fp_exp p w b < 2 ^ w) as He by (apply Z.mod_pos_bound; lia).
  assert (0 <= fp_man p b < 2 ^ p) as Hm by (apply Z.mod_pos_bound; lia).
  set (e := fp_exp p w b) in *. set (m := fp_man p b) in *.
  assert (2 ^ w = 2 * 2 ^ (w - 1)) as Hw2.
  { rewrite <- Z.pow_succ_r by lia. f_equal. lia. }
  assert (1 <= 2 ^ (w - 1)) by (pose proof (Z.pow_pos_nonneg 2 (w - 1)); lia).
  destruct (Z.eqb_spec e 0) as [He0|He0].
  - split; [lia|]. intros Hm0. pose proof (Z.log2_nonneg m).
    assert (Z.log2 m < p) by (apply Z.log2_lt_pow2; lia). unfold fp_bias in *. lia.
  - split; [lia|]. intros _.
    assert (Z.log2 (m + 2 ^ p) = p) as ->.
    { apply Z.log2_unique; [lia|]. rewrite Z.pow_succ_r; lia. }
    unfold fp_bias in *. lia.
Qed.

(** Widening a single to a double and narrowing it again gives the same bits
    (a NaN is quieted). *)
Lemma f64_to_f32_to_f64_finite b :
  0 <= b < 2 ^ 32 -> fp_exp 23 8 b <> 255 -> f64_to_f32 (f32_to_f64 b) = b.
Proof.
  intros Hb Hne. unfold f32_to_f64, f64_to_f32, fp_convert.
  destruct (Z.eqb_spec (fp_exp 23 8 b) (2 ^ 8 - 1)); [done|].
  pose proof (fp_finite_bounds 23 8 b ltac:(lia) ltac:(lia) ltac:(lia)) as HB.
  pose proof (fp_encode_finite 23 8 b (fp_sign 23 8 b) ltac:(lia) ltac:(lia) ltac:(lia)) as HE.
  rewrite (fp_reassemble 23 8 b) in HE by lia.
  assert (0 <= fp_sign 23 8 b < 2) as Hs by (apply Z.mod_pos_bound; lia).
  destruct (fp_finite 23 8 b) as [M E]. destruct HB as [HM0 HB].
  destruct (Z.eq_dec M 0) as [->|HM].
  - clear HB. set (s := fp_sign 23 8 b) in *.
    change (fp_encode 52 11 s 0 E) with (s * 2 ^ 63 + 0).
    change (fp_encode 23 8 s 0 E) with (s * 2 ^ 31 + 0) in HE. rewrite <- HE.
    assert (s = 0 \/ s = 1) as [-> | ->] by lia; reflexivity.
  - specialize (HB ltac:(lia)). change (fp_bias 8) with 127 in HB.
    pose proof (fp_encode_exact 52 11 (fp_sign 23 8 b) M E) as HX. cbn zeta in HX.
    change (fp_bias 11) with 1023 in HX.
    destruct HX as (HX1 & HX2 & HX3); try lia.
    destruct (Z.eqb_spec (fp_exp 52 11 (fp_encode 52 11 (fp_sign 23 8 b) M E)) (2 ^ 11 - 1));
      [done|].
    rewrite HX3, HX1. by rewrite fp_encode_scale by lia.
Qed.

Lemma f64_to_f32_to_f64_special b :
  0 <= b < 2 ^ 32 -> fp_exp 23 8 b = 255 ->
  f64_to_f32 (f32_to_f64 b) = if f32_is_nan b then Z.lor b (2 ^ 22) else b.
Proof.
  intros Hb He. unfold f32_to_f64, f64_to_f32, f32_is_nan, fp_is_nan, fp_convert. rewrite He.
  change (255 =? 2 ^ 8 - 1) with true. cbn [andb].
  pose proof (fp_reassemble 23 8 b ltac:(lia) ltac:(lia) ltac:(lia)) as HR. rewrite He in HR.
  assert (0 <= fp_sign 23 8 b < 2) as Hs by (apply Z.mod_pos_bound; lia).
  assert (0 <= fp_man 23 b < 2 ^ 23) as Hm by (apply Z.mod_pos_bound; lia).
  set (s := fp_sign 23 8 b) in *. set (m := fp_man 23 b) in *.
  destruct (Z.eqb_spec m 0) as [Hm0|Hm0]; cbn [negb].
  - pose proof (fp_parts 52 11 s (2 ^ 11 - 1) 0) as HP. cbn zeta in HP.
    destruct HP as (HP1 & HP2 & HP3); try lia.
    rewrite HP1, HP2, HP3. rewrite <- HR, Hm0. simpl. lia.
  - assert (0 <= nan_payload 23 52 m < 2 ^ 52 /\ nan_payload 23 52 m <> 0 /\
            nan_payload 52 23 (nan_payload 23 52 m) = Z.lor m (2 ^ 22) /\
            0 <= Z.lor m (2 ^ 22) < 2 ^ 23) as (H1 & H2 & H3 & H4).
    { unfold nan_payload. cbn [Z.leb Z.compare Pos.compare Pos.compare_cont].
      change (52 - 23) with 29. change (52 - 1) with 51. change (23 - 1) with 22.
      assert (Z.lor (m * 2 ^ 29) (2 ^ 51) = Z.lor m (2 ^ 22) * 2 ^ 29) as ->.
      { change (2 ^ 51) with (2 ^ 22 * 2 ^ 29). rewrite <- !Z.shiftl_mul_pow2 by lia.
        by rewrite Z.shiftl_lor. }
      rewrite Z.div_mul by lia. rewrite <- Z.lor_assoc, Z.lor_diag.
      assert (0 <= Z.lor m (2 ^ 22)) by (apply Z.lor_nonneg; lia).
      assert (Z.lor m (2 ^ 22) < 2 ^ 23).
      { apply Z.log2_lt_pow2; [|rewrite Z.log2_lor by lia].
        - assert (Z.lor m (2 ^ 22) <> 0) by (intros ?%Z.lor_eq_0_iff; lia). lia.
        - assert (Z.log2 m < 23) by (apply Z.log2_lt_pow2; lia).
          rewrite Z.log2_pow2 by lia. lia. }
      assert (Z.lor m (2 ^ 22) <> 0) by (intros ?%Z.lor_eq_0_iff; lia).
      split_and!; first [done | nia]. }
    pose proof (fp_parts 52 11 s (2 ^ 11 - 1) (nan_payload 23 52 m)) as HP. cbn zeta in HP.
    destruct HP as (HP1 & HP2 & HP3); try lia.
    rewrite HP1, HP2, HP3. destruct (Z.eqb_spec (nan_payload 23 52 m) 0); [done|].
    rewrite H3. change (2 ^ 8 - 1) with 255. change (23 + 8) with 31.
    rewrite <- HR. change (23 + 8) with 31.
    replace (s * 2 ^ 31 + 255 * 2 ^ 23 + m) with ((s * 2 ^ 8 + 255) * 2 ^ 23 + m) by ring.
    replace (s * 2 ^ 31 + 255 * 2 ^ 23) with ((s * 2 ^ 8 + 255) * 2 ^ 23) by ring.
    by rewrite add_lor_low by lia.
Qed.

Lemma f32_roundtrip b :
  0 <= b < 2 ^ 32 ->
  f64_to_f32 (f32_to_f64 b) = if f32_is_nan b then Z.lor b (2 ^ 22) else b.
Proof.
  intros Hb. destruct (Z.eq_dec (fp_exp 23 8 b) 255) as [He|He].
  - by apply f64_to_f32_to_f64_special.
  - rewrite f64_to_f32_to_f64_finite by done. unfold f32_is_nan, fp_is_nan.
    change (2 ^ 8 - 1) with 255. by destruct (Z.eqb_spec (fp_exp 23 8 b) 255).
Qed.

(** Conversions produce patterns of the target width. *)
Lemma fp_encode_range p w s M E :
  0 < p -> 1 < w -> 0 <= s < 2 -> 0 <= M -> 0 <= fp_encode p w s M E < 2 ^ (p + w + 1).
Proof.
  intros Hp Hw Hs HM. unfold fp_encode.
  assert (0 < 2 ^ p) by lia. assert (1 < 2 ^ w) by (apply Z.pow_gt_1; lia).
  rewrite !Z.pow_add_r by lia. change (2 ^ 1) with 2.
  match goal with |- context [s * _ + ?mag] => assert (0 <= mag <= (2 ^ w - 1) * 2 ^ p) end.
  2:{ nia. }
  destruct (M =? 0); [nia|]. split; [|lia]. apply Z.min_glb; [|nia].
  assert (forall k, 0 <= rne_shift M k) as Hr.
  { intros k. unfold rne_shift.
    destruct (Z.leb_spec k 0); [apply Z.mul_nonneg_nonneg; lia|].
    assert (0 <= M / 2 ^ k) by (apply Z.div_pos; lia).
    pose proof (Z.mod_pos_bound (M / 2 ^ k) 2).
    repeat destr_if; lia. }
  destruct (Z.leb_spec (1 - fp_bias w) (Z.log2 M + E)); [|apply Hr].
  apply Z.add_nonneg_nonneg; [|apply Hr]. apply Z.mul_nonneg_nonneg; lia.
Qed.

Lemma f32_to_f64_range b : 0 <= f32_to_f64 b < 2 ^ 64.
Proof.
  unfold f32_to_f64, fp_convert.
  pose proof (Z.mod_pos_bound (b / 2 ^ (23 + 8)) 2 ltac:(lia)) as Hs. fold (fp_sign 23 8 b) in Hs.
  pose proof (Z.mod_pos_bound b (2 ^ 23) ltac:(lia)) as Hm. fold (fp_man 23 b) in Hm.
  destruct (fp_exp 23 8 b =? 2 ^ 8 - 1).
  - assert (0 <= (if fp_man 23 b =? 0 then 0 else nan_payload 23 52 (fp_man 23 b)) < 2 ^ 52) as Hn.
    { destruct (fp_man 23 b =? 0); [lia|]. unfold nan_payload. cbn [Z.leb Z.compare Pos.compare Pos.compare_cont].
      split; [apply Z.lor_nonneg; lia|]. apply Z.log2_lt_cancel. rewrite Z.log2_lor by lia.
      change (Z.log2 (2 ^ 52)) with 52. apply Z.max_lub_lt; [|done].
      assert (fp_man 23 b * 2 ^ (52 - 23) < 2 ^ 52) by lia.
      destruct (Z.eq_dec (fp_man 23 b) 0) as [->|]; [done|]. apply Z.log2_lt_pow2; lia. }
    lia.
  - destruct (fp_finite 23 8 b) as [M E] eqn:EF. apply (fp_encode_range 52 11); try lia.
    unfold fp_finite in EF. destruct (fp_exp 23 8 b =? 0); injection EF as <- <-; lia.
Qed.

Lemma f64_to_f32_range b : 0 <= f64_to_f32 b < 2 ^ 32.
Proof.
  unfold f64_to_f32, fp_convert.
  pose proof (Z.mod_pos_bound (b / 2 ^ (52 + 11)) 2 ltac:(lia)) as Hs. fold (fp_sign 52 11 b) in Hs.
  pose proof (Z.mod_pos_bound b (2 ^ 52) ltac:(lia)) as Hm. fold (fp_man 52 b) in Hm.
  destruct (fp_exp 52 11 b =? 2 ^ 11 - 1).
  - assert (0 <= (if fp_man 52 b =? 0 then 0 else nan_payload 52 23 (fp_man 52 b)) < 2 ^ 23) as Hn.
    { destruct (fp_man 52 b =? 0); [lia|]. unfold nan_payload. cbn [Z.leb Z.compare Pos.compare Pos.compare_cont].
      assert (0 <= fp_man 52 b / 2 ^ (52 - 23) < 2 ^ 23) as Hd
        by (split; [apply Z.div_pos; lia|apply Z.div_lt_upper_bound; lia]).
      split; [apply Z.lor_nonneg; lia|]. apply Z.log2_lt_cancel. rewrite Z.log2_lor by lia.
      change (Z.log2 (2 ^ 23)) with 23. apply Z.max_lub_lt; [|done].
      destruct (Z.eq_dec (fp_man 52 b / 2 ^ (52 - 23)) 0) as [->|]; [done|]. apply Z.log2_lt_pow2; lia. }
    lia.
  - destruct (fp_finite 52 11 b) as [M E] eqn:EF. apply (fp_encode_range 23 8); try lia.
    unfold fp_finite in EF. destruct (fp_exp 52 11 b =? 0); injection EF as <- <-; lia.
Qed.

(** ** Conversion to integers *)

(** The integer part of a finite double, toward zero. *)
Definition f64_trunc (b : Z) : option Z :=
  if fp_exp 52 11 b =? 2 ^ 11 - 1 then None
  else
    let '(M, E) := fp_finite 52 11 b in
    let m := if 0 <=? E then M * 2 ^ E else M / 2 ^ (- E) in
    Some (if fp_sign 52 11 b =? 1 then - m else m).

(** [(int64_t)d] and [(uint32_t)d]: [None] is the undefined conversion of a
    value outside the target type. *)
Definition f64_to_range (lo hi b : Z) : option Z :=
  match f64_trunc b with
  | Some v => if (lo <=? v) && (v <=? hi) then Some v else None
  | None => None
  end.

Definition f64_to_i64 : Z -> option Z := f64_to_range (- 2 ^ 63) (2 ^ 63 - 1).
Definition f64_to_u32 : Z -> option Z := f64_to_range 0 (2 ^ 32 - 1).

Example f64_trunc_neg : f64_to_i64 0xC008CCCCCCCCCCCD = Some (-3).
Proof. reflexivity. Qed.

Lemma f64_to_range_bounds lo hi b v : f64_to_range lo hi b = Some v -> lo <= v <= hi.
Proof.
  unfold f64_to_range. destruct (f64_trunc b) as [w|]; [|done].
  destruct (_ && _) eqn:E; [|done]. intros [= <-]. by bool_to_prop.
Qed.
