(* ===== verification/FrameCodec.v ===== *)
(** * The frame codec: definitions

    [src/src/adapter/FrameCodec.{h,cpp}]: integer and float loads, field and
    record decoding, and the two stream slicers [feed] (custom_data) and
    [feedModbus].

    A pointer into the stream buffer is the list of bytes from there to the
    end of the buffer, so [base + pos] is [dropZ pos buf] and [n - pos] is its
    length.  [None] is undefined behaviour: a read outside the buffer, a
    write outside the row, or a shift by the operand's width or more. *)

From stdpp Require Import base list numbers gmap strings.
From Stdlib Require Import ZArith Lia.
From S2P Require Import Prelude DeviceModel Floats.
Local Open Scope Z_scope.

(** ** Loads *)

(** [loadRaw], the big-endian loop: [v = (v << 8) | p[i]]. *)
Fixpoint loadRaw_be (n : nat) (p : list Z) (v : Z) : option Z :=
  match n with
  | O => Some v
  | S n' =>
      match p with
      | [] => None
      | b :: p' => loadRaw_be n' p' (Z.lor (u64 (Z.shiftl v 8)) b)
      end
  end.

(** [loadRaw], the little-endian loop: [v |= (uint64_t)p[i] << (8 * i)]. *)
Fixpoint loadRaw_le (n : nat) (i : Z) (p : list Z) (v : Z) : option Z :=
  match n with
  | O => Some v
  | S n' =>
      match p with
      | [] => None
      | b :: p' =>
          if 64 <=? 8 * i then None
          else loadRaw_le n' (i + 1) p' (Z.lor v (u64 (Z.shiftl b (8 * i))))
      end
  end.

Definition loadRaw (p : list Z) (size : Z) (be : bool) : option Z :=
  if be then loadRaw_be (Z.to_nat size) p 0 else loadRaw_le (Z.to_nat size) 0 p 0.

(** [signExtend]: [(v ^ m) - m] in [uint64_t], then the cast. *)
Definition signExtend (v bits : Z) : option Z :=
  if 64 <=? bits then Some (swrap 64 v)
  else if bits <=? 0 then None
  else let m := Z.shiftl 1 (bits - 1) in Some (swrap 64 (u64 (Z.lxor v m - m))).

Definition is_signed (k : FieldKind) : bool :=
  match k with IntSigned => true | _ => false end.

(** [decodeInt] *)
Definition decodeInt (p : list Z) (f : FieldDesc) (be : bool) : option Z :=
  v ← loadRaw p (f_size f) be;
  if 0 <? f_bitLen f then
    if 64 <=? f_bitOffset f then None
    else
      let mask := if 64 <=? f_bitLen f then 2 ^ 64 - 1
                  else u64 (Z.shiftl 1 (f_bitLen f) - 1) in
      let v := Z.land (Z.shiftr v (f_bitOffset f)) mask in
      if is_signed (f_kind f) then signExtend v (f_bitLen f) else Some (swrap 64 v)
  else
    if is_signed (f_kind f) then signExtend v (f_size f * 8) else Some (swrap 64 v).

(** The byte swaps of [loadFloat32] and [loadFloat64]. *)
Definition bswap32 (b : Z) : Z :=
  Z.lor (Z.lor (u32 (Z.shiftl (Z.land b 0x000000FF) 24))
               (u32 (Z.shiftl (Z.land b 0x0000FF00) 8)))
        (Z.lor (Z.shiftr (Z.land b 0x00FF0000) 8)
               (Z.shiftr (Z.land b 0xFF000000) 24)).

Definition bswap64 (b : Z) : Z :=
  Z.lor (Z.lor (Z.lor (u64 (Z.shiftl (Z.land b 0x00000000000000FF) 56))
                      (u64 (Z.shiftl (Z.land b 0x000000000000FF00) 40)))
               (Z.lor (u64 (Z.shiftl (Z.land b 0x0000000000FF0000) 24))
                      (u64 (Z.shiftl (Z.land b 0x00000000FF000000) 8))))
        (Z.lor (Z.lor (Z.shiftr (Z.land b 0x000000FF00000000) 8)
                      (Z.shiftr (Z.land b 0x0000FF0000000000) 24))
               (Z.lor (Z.shiftr (Z.land b 0x00FF000000000000) 40)
                      (Z.shiftr (Z.land b 0xFF00000000000000) 56))).

(** [memcpy(&bits, p, n)] on a little-endian host. *)
Definition memcpy_le (n : nat) (p : list Z) : option Z := loadRaw_le n 0 p 0.

(** [loadFloat32] (the result is the bits of the double), [loadFloat64] *)
Definition loadFloat32 (p : list Z) (be : bool) : option Z :=
  bits ← memcpy_le 4 p;
  Some (f32_to_f64 (if be then bswap32 bits else bits)).

Definition loadFloat64 (p : list Z) (be : bool) : option Z :=
  bits ← memcpy_le 8 p;
  Some (if be then bswap64 bits else bits).

(** ** Records *)

(** The cell one field writes ([switch (f.kind)] of [decodePayload]). *)
Definition decodeCell (f : FieldDesc) (be : bool) (p : list Z) : option Cell :=
  match f_kind f with
  | Float32 => d ← loadFloat32 p be; Some (mkCell d 0)
  | Float64 => d ← loadFloat64 p be; Some (mkCell d 0)
  | Bool => v ← loadRaw p 1 be; Some (mkCell (if v =? 0 then 0 else 1) 0)
  | IntSigned | IntUnsigned =>
      raw ← decodeInt p f be;
      Some (mkCell (if f_asDouble f then i64_to_f64 raw else u64 raw) 0)
  end.

(** The field loop of [decodePayload], from field [i] on. *)
Fixpoint decodeFields (fs : list FieldDesc) (i : Z) (be : bool) (payload : list Z)
    (payloadLen : Z) (row : list Cell) : option (bool * list Cell) :=
  match fs with
  | [] => Some (true, row)
  | f :: fs' =>
      if f_byteOffset f + f_size f >? payloadLen then Some (false, row)
      else
        c ← decodeCell f be (dropZ (f_byteOffset f) payload);
        row' ← wr row i c;
        decodeFields fs' (i + 1) be payload payloadLen row'
  end.

(** [FrameCodec::decodePayload] *)
Definition decodePayload (spec : FrameSpec) (be : bool) (payload : list Z)
    (payloadLen : Z) (row : list Cell) : option (bool * list Cell) :=
  match s_fields spec with
  | [] => Some (false, row)
  | _ :: _ =>
      if s_payloadMin spec >? payloadLen then Some (false, row)
      else decodeFields (s_fields spec) 0 be payload payloadLen row
  end.

(** ** Streams *)

(** [struct DeviceStream], in two records: what the slicing loops touch ... *)
Record Slicing := mkSlicing {
  sl_rowScratch : list Cell;
  sl_frames : Z;
  sl_resyncs : Z;
  sl_badFrames : Z;
  sl_flagMiss : Z;
  sl_unknownType : Z;
}.

(** ... and the pending bytes with the counters kept around the loops. *)
Record DeviceStream := mkStream {
  st_buf : list Z;
  st_bytesIn : Z;
  st_unknownTypeLogged : Z;
  st_slicing : Slicing;
}.

Definition Slicing0 : Slicing := mkSlicing [] 0 0 0 0 0.
Definition DeviceStream0 : DeviceStream := mkStream [] 0 0 Slicing0.

(** One row handed to the sink: [sink.push(dev, recvMs, row)]; the sink
    copies [fieldCount] cells. *)
Record Row := mkRow { r_dev : DevicePtr; r_ts : Z; r_cells : list Cell }.

Definition set_scratch (r : list Cell) (s : Slicing) : Slicing :=
  mkSlicing r (sl_frames s) (sl_resyncs s) (sl_badFrames s) (sl_flagMiss s) (sl_unknownType s).
Definition inc_frames (s : Slicing) : Slicing :=
  mkSlicing (sl_rowScratch s) (u64 (sl_frames s + 1)) (sl_resyncs s) (sl_badFrames s)
    (sl_flagMiss s) (sl_unknownType s).
Definition add_resyncs (n : Z) (s : Slicing) : Slicing :=
  mkSlicing (sl_rowScratch s) (sl_frames s) (u64 (sl_resyncs s + n)) (sl_badFrames s)
    (sl_flagMiss s) (sl_unknownType s).
Definition inc_badFrames (s : Slicing) : Slicing :=
  mkSlicing (sl_rowScratch s) (sl_frames s) (sl_resyncs s) (u64 (sl_badFrames s + 1))
    (sl_flagMiss s) (sl_unknownType s).
Definition inc_flagMiss (s : Slicing) : Slicing :=
  mkSlicing (sl_rowScratch s) (sl_frames s) (sl_resyncs s) (sl_badFrames s)
    (u64 (sl_flagMiss s + 1)) (sl_unknownType s).
Definition inc_unknownType (s : Slicing) : Slicing :=
  mkSlicing (sl_rowScratch s) (sl_frames s) (sl_resyncs s) (sl_badFrames s) (sl_flagMiss s)
    (u64 (sl_unknownType s + 1)).

Definition add_bytesIn (n : Z) (s : DeviceStream) : DeviceStream :=
  mkStream (st_buf s) (u64 (st_bytesIn s + n)) (st_unknownTypeLogged s) (st_slicing s).
Definition set_unknownTypeLogged (n : Z) (s : DeviceStream) : DeviceStream :=
  mkStream (st_buf s) (st_bytesIn s) n (st_slicing s).
Definition set_stream (buf : list Z) (sl : Slicing) (s : DeviceStream) : DeviceStream :=
  mkStream buf (st_bytesIn s) (st_unknownTypeLogged s) sl.

(** [vector::resize] upwards, when the scratch row is too short. *)
Definition growScratch (n : Z) (s : Slicing) : Slicing :=
  let r := sl_rowScratch s in
  if lenZ r <? n then set_scratch (r ++ replicate (Z.to_nat (n - lenZ r)) Cell0) s else s.

Definition kHeaderSize : Z := 6.
Definition kMaxFrame : Z := 64 * 1024.

(** One iteration of a slicing loop, seen from the current position:
    break there after dropping [k] bytes, go on [k] bytes further, or return
    at once (skipping the compaction). *)
Inductive Step :=
| Break (k : Z) (st : Slicing)
| Advance (k : Z) (st : Slicing) (rows : list Row)
| ReturnNow (st : Slicing).

(** ** custom_data *)

(** The record loop of [feed]: [n] records of [recordBytes] bytes from [p].
    Gives [ok], the scratch row and the rows pushed. *)
Fixpoint feedRecords (n : nat) (dev : DevicePtr) (ts : Z) (p : list Z) (recordBytes : Z)
    (scratch : list Cell) : option (bool * list Cell * list Row) :=
  match n with
  | O => Some (true, scratch, [])
  | S n' =>
      '(good, scratch) ← decodePayload (d_spec (p_desc dev)) (bigEndian (p_desc dev)) p
                           recordBytes scratch;
      if negb good then Some (false, scratch, [])
      else
        let row := mkRow dev ts (takeZ (fieldCount (p_desc dev)) scratch) in
        '(ok, scratch, rows) ← feedRecords n' dev ts (dropZ recordBytes p) recordBytes scratch;
        Some (ok, scratch, row :: rows)
  end.

(** [records] of [feed] *)
Definition recordCount (payloadBytes recordBytes : Z) : Z :=
  if (0 <? recordBytes) && (recordBytes <=? payloadBytes) &&
     (payloadBytes mod recordBytes =? 0)
  then payloadBytes / recordBytes else 1.

(** Skip one byte: [++pos; ++st.resyncs; continue;] *)
Definition resync1 (st : Slicing) : Step := Advance 1 (add_resyncs 1 st) [].

(** A complete frame of device [dev] at [h]: step 4 of [feed]. *)
Definition feedFrame (dev : DevicePtr) (ts : Z) (h : list Z)
    (payloadBytes tail trailFlag : Z) (st : Slicing) : option Step :=
  let spec := d_spec (p_desc dev) in
  let frameBytes := kHeaderSize + payloadBytes + tail in
  last ← (if tail =? 0 then Some 0 else rd h (frameBytes - 1));
  let st := if negb (tail =? 0) && negb (last =? trailFlag) then inc_flagMiss st else st in
  let recordBytes := if 0 <? s_frameLen spec then s_frameLen spec else payloadBytes in
  let records := recordCount payloadBytes recordBytes in
  let st := growScratch (fieldCount (p_desc dev)) st in
  '(ok, scratch, rows) ← feedRecords (Z.to_nat records) dev ts (dropZ kHeaderSize h)
                           recordBytes (sl_rowScratch st);
  let st := set_scratch scratch st in
  Some (Advance frameBytes (if ok : bool then inc_frames st else inc_badFrames st) rows).

(** One iteration of the [while] loop of [feed] at position [h]. *)
Definition feed_step (group : DeviceGroup) (ts : Z) (h : list Z) (st : Slicing)
    : option Step :=
  if lenZ h <? kHeaderSize then Some (Break 0 st)
  else
    frameType ← rd h 0;
    flag ← rd h 1;
    h2 ← rd h 2;
    h3 ← rd h 3;
    let frameLen := Z.lor h2 (Z.shiftl h3 8) in
    match byFrameType group frameType with
    | None => Some (resync1 (inc_unknownType st))
    | Some dev =>
        let spec := d_spec (p_desc dev) in
        match s_fields spec with
        | [] => Some (resync1 st)
        | _ :: _ =>
            let leadFlag := if d_isEvent (p_desc dev) then s_startFlag spec else 0 in
            let trailFlag := if d_isEvent (p_desc dev) then s_endFlag spec else 0 in
            if negb (leadFlag =? 0) && negb (flag =? leadFlag) then
              Some (resync1 (inc_flagMiss st))
            else
              let payloadBytes :=
                if frameLen =? 0 then (if 0 <? s_frameLen spec then s_frameLen spec else 0)
                else frameLen in
              if (payloadBytes =? 0) || (payloadBytes <? s_payloadMin spec) then
                Some (resync1 st)
              else
                let tail := if trailFlag =? 0 then 0 else 1 in
                let frameBytes := kHeaderSize + payloadBytes + tail in
                if frameBytes >? kMaxFrame then Some (resync1 st)
                else if lenZ h <? frameBytes then Some (Break 0 st)
                else feedFrame dev ts h payloadBytes tail trailFlag st
        end
    end.

(** ** Modbus *)

(** The scan for the protocol id 0x0000 at offsets 2 and 3; [None] when fewer
    than four bytes remain. *)
Fixpoint mbapScan (h : list Z) (p : Z) : option Z :=
  match h with
  | _ :: ((_ :: c :: d :: _) as t) =>
      if (c =? 0) && (d =? 0) then Some p else mbapScan t (p + 1)
  | _ => None
  end.

(** The outcome of a step [k] bytes further on, seen from here. *)
Definition shiftStep (k : Z) (r : Step) : Step :=
  match r with
  | Break j st => Break (k + j) st
  | Advance j st rows => Advance (k + j) st rows
  | ReturnNow st => ReturnNow st
  end.

(** A complete response of [total] bytes at [h]: decode, push, advance. *)
Definition modbusFrame (dev : DevicePtr) (ts : Z) (h : list Z) (hdr total payloadLen : Z)
    (st : Slicing) : option Step :=
  '(good, scratch) ← decodePayload (d_spec (p_desc dev)) (modbusBigEndian (p_desc dev))
                       (dropZ hdr h) payloadLen (sl_rowScratch st);
  let st := set_scratch scratch st in
  if negb good then Some (resync1 (inc_badFrames st))
  else
    Some (Advance total (inc_frames st)
            [mkRow dev ts (takeZ (fieldCount (p_desc dev)) scratch)]).

(** An MBAP-framed response at [h], synchronized on the protocol id. *)
Definition modbusResponse (dev : DevicePtr) (ts : Z) (hdr : Z) (h : list Z) (st : Slicing)
    : option Step :=
  if lenZ h <? 6 then Some (Break 0 st)
  else
    h4 ← rd h 4;
    h5 ← rd h 5;
    let mbapLen := Z.lor (Z.shiftl h4 8) h5 in
    if mbapLen <? 1 then Some (resync1 st)
    else
      let total := 6 + mbapLen in
      if (total >? kMaxFrame) || (total <? hdr) then Some (resync1 st)
      else if lenZ h <? total then Some (Break 0 st)
      else
        let payloadLen := total - hdr in
        if payloadLen <? s_payloadMin (d_spec (p_desc dev)) then Some (resync1 st)
        else modbusFrame dev ts h hdr total payloadLen st.

(** One iteration of the [while (true)] loop of [feedModbus] at position [h]. *)
Definition modbus_step (dev : DevicePtr) (ts : Z) (h : list Z) (st : Slicing)
    : option Step :=
  let spec := d_spec (p_desc dev) in
  let hdr := s_frameType spec in
  if (hdr =? 7) || (hdr =? 9) then
    match mbapScan h 0 with
    | None =>
        let have := lenZ h in
        let keep := if have >? 3 then 3 else have in
        let drop := have - keep in
        Some (Break drop (add_resyncs drop st))
    | Some p =>
        let st := if p =? 0 then st else add_resyncs p st in
        option_map (shiftStep p) (modbusResponse dev ts hdr (dropZ p h) st)
    end
  else
    let payloadNeed := s_payloadMin spec in
    let total := hdr + payloadNeed in
    if total >? kMaxFrame then Some (ReturnNow st)
    else if lenZ h <? total then Some (Break 0 st)
    else modbusFrame dev ts h hdr total payloadNeed st.

(** ** The loops *)

Section Slice.
Variable step : list Z -> Slicing -> option Step.

(** Iterate [step] from [h]; gives the unconsumed bytes, the state, the rows
    in order, and whether the loop was left by [break]. *)
Fixpoint slice (fuel : nat) (h : list Z) (st : Slicing)
    : option (list Z * Slicing * list Row * bool) :=
  match fuel with
  | O => None
  | S fuel' =>
      r ← step h st;
      match r with
      | Break k st' => Some (dropZ k h, st', [], true)
      | ReturnNow st' => Some (h, st', [], false)
      | Advance k st' rows =>
          '(rest, st'', rows', b) ← slice fuel' (dropZ k h) st';
          Some (rest, st'', rows ++ rows', b)
      end
  end.
End Slice.

(** The compaction at the end of both functions: erase the consumed prefix,
    then keep the last 256 KiB of a runaway buffer. *)
Definition compact (rest : list Z) (sl : Slicing) : list Z * Slicing :=
  if lenZ rest >? 256 * 1024 then
    (dropZ (lenZ rest - 256 * 1024) rest, add_resyncs 1 sl)
  else (rest, sl).

(** Insert the new bytes, run the loop, compact (unless the function returned
    from inside the loop). *)
Definition feedLoop (step : list Z -> Slicing -> option Step) (data : list Z)
    (sl : Slicing) (st : DeviceStream) : option (DeviceStream * list Row) :=
  let buf := st_buf st ++ data in
  '(rest, sl', rows, b) ← slice step (S (length buf)) buf sl;
  let '(buf', sl'') := if b : bool then compact rest sl' else (buf, sl') in
  Some (set_stream buf' sl'' st, rows).

(** [FrameCodec::feed] *)
Definition feed (group : DeviceGroup) (ts : Z) (st : DeviceStream) (data : list Z)
    : option (DeviceStream * list Row) :=
  let st := add_bytesIn (lenZ data) st in
  feedLoop (feed_step group ts) data (st_slicing st) st.

(** [st.badFrames++] on the whole stream *)
Definition stream_inc_badFrames (st : DeviceStream) : DeviceStream :=
  set_stream (st_buf st) (inc_badFrames (st_slicing st)) st.

(** [FrameCodec::feedModbus] *)
Definition feedModbus (dev : DevicePtr) (ts : Z) (st : DeviceStream) (data : list Z)
    : option (DeviceStream * list Row) :=
  let spec := d_spec (p_desc dev) in
  let st := add_bytesIn (lenZ data) st in
  match s_fields spec with
  | [] => Some (st, [])
  | _ :: _ =>
      if negb (isModbusHeaderLen spec) then Some (stream_inc_badFrames st, [])
      else if s_payloadMin spec =? 0 then Some (stream_inc_badFrames st, [])
      else
        feedLoop (modbus_step dev ts) data
          (growScratch (fieldCount (p_desc dev)) (st_slicing st)) st
  end.
