(* ===== verification/FrameCodecLoads.v ===== *)
(** * The frame codec: loads and records

    Functional specifications of the loads, [signExtend], [decodeInt] and
    [decodePayload] of [FrameCodec.v] against reference definitions: the
    number a byte string stands for in either byte order, a bit field as a
    quotient and remainder, a record as one cell per field. *)

From stdpp Require Import base list numbers gmap strings.
From Stdlib Require Import ZArith Lia.
From S2P Require Import Prelude DeviceModel Floats FrameCodec.
Local Open Scope Z_scope.

(** ** Reference definitions *)

(** The number a byte string stands for, least significant byte first. *)
Fixpoint le_value (l : list Z) : Z :=
  match l with [] => 0 | b :: l' => b + 256 * le_value l' end.

Definition bytes_value (be : bool) (l : list Z) : Z :=
  le_value (if be then reverse l else l).

(** The [n] bytes of a number, in either byte order. *)
Fixpoint le_bytes (n : nat) (v : Z) : list Z :=
  match n with O => [] | S n' => v mod 256 :: le_bytes n' (v / 256) end.

Definition int_bytes (be : bool) (n : nat) (v : Z) : list Z :=
  if be then reverse (le_bytes n v) else le_bytes n v.

(** The integer a field of raw value [v] stands for. *)
Definition field_value (f : FieldDesc) (v : Z) : Z :=
  let '(v, bits) :=
    if 0 <? f_bitLen f then ((v / 2 ^ f_bitOffset f) mod 2 ^ f_bitLen f, f_bitLen f)
    else (v, f_size f * 8) in
  if is_signed (f_kind f) then swrap bits v else swrap 64 v.

(** ** Byte strings *)

Lemma le_value_bounds l : is_bytes l -> 0 <= le_value l < 2 ^ (8 * lenZ l).
Proof.
  induction 1 as [|b l Hb _ IH]; [done|].
  rewrite lenZ_cons, Z.mul_add_distr_l, Z.pow_add_r by (pose proof (lenZ_nonneg l); lia).
  change (2 ^ (8 * 1)) with 256. unfold is_byte in Hb. simpl. lia.
Qed.

Lemma is_bytes_reverse l : is_bytes l -> is_bytes (reverse l).
Proof. apply Forall_reverse. Qed.

Lemma lenZ_reverse {A} (l : list A) : lenZ (reverse l) = lenZ l.
Proof. unfold lenZ. by rewrite length_reverse. Qed.

Lemma bytes_value_bounds be l : is_bytes l -> 0 <= bytes_value be l < 2 ^ (8 * lenZ l).
Proof.
  intros H. unfold bytes_value. destruct be; [|by apply le_value_bounds].
  rewrite <- (lenZ_reverse l). by apply le_value_bounds, is_bytes_reverse.
Qed.

Lemma le_bytes_length n v : length (le_bytes n v) = n.
Proof. revert v. induction n; intros; simpl; [done|]. by rewrite IHn. Qed.

Lemma le_bytes_is_bytes n v : is_bytes (le_bytes n v).
Proof.
  revert v. induction n; intros; simpl; constructor; [|apply IHn].
  pose proof (Z.mod_pos_bound v 256). unfold is_byte. lia.
Qed.

Lemma le_value_bytes n v : le_value (le_bytes n v) = v mod 2 ^ (8 * Z.of_nat n).
Proof.
  revert v. induction n; intros; [by rewrite Z.mod_1_r|].
  simpl le_bytes. simpl le_value. rewrite IHn.
  replace (8 * Z.of_nat (S n)) with (8 + 8 * Z.of_nat n) by lia.
  rewrite Z.pow_add_r by lia. change (2 ^ 8) with 256.
  rewrite Z.rem_mul_r by lia. done.
Qed.

Lemma int_bytes_length be n v : length (int_bytes be n v) = n.
Proof. destruct be; simpl; rewrite ?length_reverse; apply le_bytes_length. Qed.

Lemma int_bytes_is_bytes be n v : is_bytes (int_bytes be n v).
Proof. destruct be; simpl; [apply is_bytes_reverse|]; apply le_bytes_is_bytes. Qed.

(** Encoding then reading back, in either byte order. *)
Lemma bytes_value_int_bytes be n v :
  bytes_value be (int_bytes be n v) = v mod 2 ^ (8 * Z.of_nat n).
Proof.
  unfold bytes_value, int_bytes. destruct be; rewrite ?reverse_involutive; apply le_value_bytes.
Qed.

Lemma le_value_snoc l b : le_value (l ++ [b]) = le_value l + b * 2 ^ (8 * lenZ l).
Proof.
  induction l as [|a l IH]; [change (b + 256 * 0 = 0 + b * 2 ^ 0); lia|].
  rewrite lenZ_cons, Z.mul_add_distr_l, Z.pow_add_r by (pose proof (lenZ_nonneg l); lia).
  change (2 ^ (8 * 1)) with 256. simpl. rewrite IH. lia.
Qed.

(** ** Loads *)

(** [v << 8 | b] when the result fits. *)
Lemma shl8_lor v b : 0 <= v < 2 ^ 56 -> is_byte b -> Z.lor (u64 (Z.shiftl v 8)) b = v * 256 + b.
Proof.
  intros Hv Hb. rewrite Z.shiftl_mul_pow2 by lia. rewrite uwrap_small by lia.
  unfold is_byte in Hb. by rewrite <- add_is_lor by lia.
Qed.

Lemma loadRaw_be_value n p v :
  is_bytes p -> (n <= length p)%nat -> 0 <= v < 2 ^ (64 - 8 * Z.of_nat n) -> (n <= 8)%nat ->
  loadRaw_be n p v = Some (v * 2 ^ (8 * Z.of_nat n) + bytes_value true (take n p)).
Proof.
  revert p v. induction n as [|n IH]; intros p v Hp Hn Hv H8.
  - simpl loadRaw_be. f_equal. change (bytes_value true (take 0 p)) with 0. simpl. lia.
  - destruct p as [|b p]; [simpl in Hn; lia|]. apply Forall_cons in Hp as [Hb Hp].
    assert (v < 2 ^ 56).
    { assert (2 ^ (64 - 8 * Z.of_nat (S n)) <= 2 ^ 56) by (apply Z.pow_le_mono_r; lia). lia. }
    simpl loadRaw_be. rewrite shl8_lor by (done || lia).
    rewrite IH; [|done|simpl in Hn; lia| |lia].
    + f_equal. unfold bytes_value. simpl take. rewrite reverse_cons, le_value_snoc, lenZ_reverse.
      assert (lenZ (take n p) = Z.of_nat n) as ->.
      { unfold lenZ. rewrite length_take. simpl in Hn. lia. }
      replace (8 * Z.of_nat (S n)) with (8 + 8 * Z.of_nat n) by lia.
      rewrite (Z.pow_add_r 2 8) by lia. change (2 ^ 8) with 256. ring.
    + replace (64 - 8 * Z.of_nat n) with (64 - 8 * Z.of_nat (S n) + 8) by lia.
      rewrite Z.pow_add_r by lia. change (2 ^ 8) with 256. unfold is_byte in Hb. lia.
Qed.

Lemma loadRaw_le_value n i p v :
  is_bytes p -> (n <= length p)%nat -> 0 <= i -> 0 <= v < 2 ^ (8 * i) -> i + Z.of_nat n <= 8 ->
  loadRaw_le n i p v = Some (v + le_value (take n p) * 2 ^ (8 * i)).
Proof.
  revert i p v. induction n as [|n IH]; intros i p v Hp Hn Hi Hv H8.
  - simpl loadRaw_le. f_equal. change (le_value (take 0 p)) with 0. lia.
  - destruct p as [|b p]; [simpl in Hn; lia|]. apply Forall_cons in Hp as [Hb Hp].
    unfold is_byte in Hb. simpl loadRaw_le. destruct (Z.leb_spec 64 (8 * i)); [lia|].
    assert (2 ^ (8 * (i + 1)) = 256 * 2 ^ (8 * i)) as Hpow.
    { rewrite Z.mul_add_distr_l, Z.pow_add_r by lia. change (2 ^ (8 * 1)) with 256. lia. }
    assert (2 ^ (8 * (i + 1)) <= 2 ^ 64) by (apply Z.pow_le_mono_r; lia).
    rewrite Z.shiftl_mul_pow2, uwrap_small by nia.
    rewrite Z.lor_comm, <- add_is_lor by lia.
    rewrite IH; [|done|simpl in Hn; lia|lia|nia|lia].
    f_equal. simpl take. simpl le_value. rewrite Hpow. ring.
Qed.

Lemma loadRaw_value be p size :
  is_bytes p -> 0 <= size <= 8 -> size <= lenZ p ->
  loadRaw p size be = Some (bytes_value be (takeZ size p)).
Proof.
  intros Hp Hs Hl. unfold loadRaw, takeZ, lenZ in *. destruct be.
  - rewrite loadRaw_be_value; [f_equal; lia|done|lia| |lia]. split; [lia|].
    apply Z.pow_pos_nonneg; lia.
  - rewrite loadRaw_le_value; [|done|lia|lia|done|lia]. f_equal. unfold bytes_value. lia.
Qed.

(** ** Sign extension and bit fields *)

(** [(v ^ m) - m] is the two's complement reading of the low [bits] bits. *)
Lemma signExtend_swrap v bits :
  0 < bits <= 64 -> 0 <= v < 2 ^ bits -> signExtend v bits = Some (swrap bits v).
Proof.
  intros Hb Hv. unfold signExtend.
  destruct (Z.leb_spec 64 bits); [f_equal; f_equal; lia|].
  destruct (Z.leb_spec bits 0); [lia|]. cbv zeta. f_equal.
  rewrite Z.shiftl_mul_pow2, Z.mul_1_l by lia.
  assert (2 ^ bits = 2 * 2 ^ (bits - 1)) as Hpow.
  { rewrite <- Z.pow_succ_r by lia. f_equal. lia. }
  assert (2 ^ bits <= 2 ^ 63) by (apply Z.pow_le_mono_r; lia).
  rewrite swrap_uwrap by lia. unfold swrap at 2. rewrite (Z.mod_small v) by lia.
  assert (0 < 2 ^ (bits - 1)) by (apply Z.pow_pos_nonneg; lia).
  destruct (Z.ltb_spec v (2 ^ (bits - 1))) as [Hlt|Hge].
  - replace (Z.lxor v (2 ^ (bits - 1)) - 2 ^ (bits - 1)) with v.
    { apply swrap_small; lia. }
    replace (2 ^ (bits - 1)) with (1 * 2 ^ (bits - 1)) at 1 by lia.
    rewrite Z.lxor_comm, <- Z.add_nocarry_lxor; [lia|].
    apply Z.bits_inj'. intros n Hn. rewrite Z.land_spec, Z.bits_0, <- Z.shiftl_mul_pow2 by lia.
    destruct (Z.ltb_spec n (bits - 1)); [by rewrite Z.shiftl_spec_low by lia|].
    rewrite <- (Z.mod_small v (2 ^ (bits - 1))) by lia.
    rewrite Z.mod_pow2_bits_high by lia. apply andb_false_r.
  - set (m := 2 ^ (bits - 1)) in *.
    assert (Z.lxor v m = v - m) as ->.
    { assert (v = Z.lxor (v - m) m) as Hv'.
      { replace v with (1 * m + (v - m)) at 1 by lia. unfold m.
        rewrite add_is_lor by (fold m; lia). rewrite Z.lor_comm, Z.mul_1_l.
        symmetry. apply Z.lxor_lor. apply Z.bits_inj'. intros n Hn.
        rewrite Z.land_spec, Z.bits_0. fold m.
        destruct (Z.eq_dec n (bits - 1)) as [->|Hne].
        - rewrite <- (Z.mod_small (v - m) m) by lia. unfold m.
          by rewrite Z.mod_pow2_bits_high by lia.
        - unfold m. rewrite Z.pow2_bits_false by lia. apply andb_false_r. }
      rewrite Hv' at 1. by rewrite Z.lxor_assoc, Z.lxor_nilpotent, Z.lxor_0_r. }
    rewrite swrap_small by lia. lia.
Qed.

(** ** Integer fields *)

Lemma field_size_bounds f : field_ok f -> 1 <= f_size f <= 8.
Proof. intros (H & _). lia. Qed.

Lemma mask_ones n : 0 <= n <= 64 ->
  (if 64 <=? n then 2 ^ 64 - 1 else u64 (Z.shiftl 1 n - 1)) = Z.ones n.
Proof.
  intros Hn. rewrite Z.ones_equiv. destruct (Z.leb_spec 64 n).
  - by assert (n = 64) as -> by lia.
  - assert (0 < 2 ^ n) by (apply Z.pow_pos_nonneg; lia).
    assert (2 ^ n <= 2 ^ 63) by (apply Z.pow_le_mono_r; lia).
    rewrite Z.shiftl_mul_pow2, Z.mul_1_l, uwrap_small by lia. lia.
Qed.

(** [decodeInt] reads the field the table describes. *)
Lemma decodeInt_value p f be :
  is_bytes p -> field_ok f -> f_size f <= lenZ p ->
  decodeInt p f be = Some (field_value f (bytes_value be (takeZ (f_size f) p))).
Proof.
  intros Hp Hf Hl. pose proof (field_size_bounds f Hf) as Hs.
  unfold decodeInt, field_value.
  rewrite loadRaw_value by (done || lia). cbn [mbind option_bind].
  set (v := bytes_value be (takeZ (f_size f) p)).
  assert (0 <= v < 2 ^ (f_size f * 8)) as Hv.
  { pose proof (bytes_value_bounds be (takeZ (f_size f) p)) as H. fold v in H.
    rewrite lenZ_takeZ in H. replace (Z.min (Z.max 0 (f_size f)) (lenZ p)) with (f_size f) in H by lia.
    rewrite Z.mul_comm. apply H. by apply Forall_take. }
  destruct Hf as (_ & _ & _ & _ & _ & Ho & Hn & Hbits & _).
  destruct (Z.ltb_spec 0 (f_bitLen f)) as [Hpos|Hz].
  - specialize (Hbits Hpos). destruct (Z.leb_spec 64 (f_bitOffset f)); [lia|].
    cbv zeta. rewrite mask_ones by lia. rewrite Z.land_ones, Z.shiftr_div_pow2 by lia.
    destruct (is_signed (f_kind f)); [|done].
    apply signExtend_swrap; [lia|]. apply Z.mod_pos_bound. apply Z.pow_pos_nonneg; lia.
  - destruct (is_signed (f_kind f)); [|done]. apply signExtend_swrap; lia.
Qed.

(** ** Floating-point fields *)

Lemma lor_add a q k b : a = q * 2 ^ k -> 0 <= k -> 0 <= b < 2 ^ k -> Z.lor a b = a + b.
Proof. intros -> ? ?. symmetry. by apply add_is_lor. Qed.

Lemma land_byte x k : 0 <= k -> Z.land x (Z.shiftl 255 k) = (x / 2 ^ k) mod 256 * 2 ^ k.
Proof.
  intros Hk. change 256 with (2 ^ 8).
  rewrite <- Z.land_ones, <- Z.shiftr_div_pow2, <- Z.shiftl_mul_pow2 by lia.
  change (Z.ones 8) with 255. apply Z.bits_inj'. intros n Hn.
  rewrite Z.land_spec. destruct (Z.ltb_spec n k).
  - rewrite !Z.shiftl_spec_low by lia. apply andb_false_r.
  - rewrite !Z.shiftl_spec, Z.land_spec, Z.shiftr_spec by lia. do 2 f_equal. lia.
Qed.

Lemma le_value_byte l k b : is_bytes l -> l !! k = Some b ->
  (le_value l / 2 ^ (8 * Z.of_nat k)) mod 256 = b.
Proof.
  revert k. induction l as [|a l IH]; intros k Hl Hk; [done|].
  apply Forall_cons in Hl as [Ha Hl]. unfold is_byte in Ha. destruct k as [|k].
  - injection Hk as ->. simpl le_value. change (2 ^ (8 * Z.of_nat 0)) with 1.
    rewrite Z.div_1_r, Z.mul_comm, Z.mod_add by lia. by apply Z.mod_small.
  - simpl in Hk. simpl le_value.
    replace (8 * Z.of_nat (S k)) with (8 + 8 * Z.of_nat k) by lia.
    rewrite Z.pow_add_r, <- Z.div_div by lia. change (2 ^ 8) with 256.
    rewrite (Z.mul_comm 256), Z.div_add, (Z.div_small a) by lia. by apply IH.
Qed.

(** A swapped byte: isolate it and move it to its mirrored place. *)
Lemma swap_left w x k s b : 0 <= k -> 0 <= s -> is_byte b -> k + s + 8 <= w ->
  (x / 2 ^ k) mod 256 = b ->
  uwrap w (Z.shiftl (Z.land x (Z.shiftl 255 k)) s) = b * 2 ^ (k + s).
Proof.
  unfold is_byte. intros Hk Hs Hb Hw Hx. rewrite land_byte, Hx by lia.
  rewrite Z.shiftl_mul_pow2, <- Z.mul_assoc, <- Z.pow_add_r by lia.
  apply uwrap_small. assert (0 < 2 ^ (k + s)) by (apply Z.pow_pos_nonneg; lia).
  assert (2 ^ (k + s + 8) <= 2 ^ w) as H1 by (apply Z.pow_le_mono_r; lia).
  rewrite Z.pow_add_r in H1 by lia. change (2 ^ 8) with 256 in H1. nia.
Qed.

Lemma swap_right x k s b : 0 <= s <= k -> (x / 2 ^ k) mod 256 = b ->
  Z.shiftr (Z.land x (Z.shiftl 255 k)) s = b * 2 ^ (k - s).
Proof.
  intros Hk Hx. rewrite land_byte, Hx by lia. rewrite Z.shiftr_div_pow2 by lia.
  replace (2 ^ k) with (2 ^ (k - s) * 2 ^ s) by (rewrite <- Z.pow_add_r by lia; f_equal; lia).
  rewrite Z.mul_assoc, Z.div_mul; lia.
Qed.

Ltac byte_at H k := refine (le_value_byte _ k _ H _); reflexivity.

Lemma bswap32_reverse a b c d : is_bytes [a; b; c; d] ->
  bswap32 (le_value [a; b; c; d]) = le_value [d; c; b; a].
Proof.
  intros H. pose proof H as HF. unfold is_bytes in HF. rewrite !Forall_cons in HF.
  destruct HF as (Ha & Hb & Hc & Hd & _).
  set (x := le_value [a; b; c; d]).
  change (bswap32 x) with
    (Z.lor (Z.lor (u32 (Z.shiftl (Z.land x (Z.shiftl 255 0)) 24))
                  (u32 (Z.shiftl (Z.land x (Z.shiftl 255 8)) 8)))
           (Z.lor (Z.shiftr (Z.land x (Z.shiftl 255 16)) 8)
                  (Z.shiftr (Z.land x (Z.shiftl 255 24)) 24))).
  rewrite (swap_left 32 x 0 24 a), (swap_left 32 x 8 8 b), (swap_right x 16 8 c),
    (swap_right x 24 24 d) by (try lia; try assumption;
      first [byte_at H 0%nat | byte_at H 1%nat | byte_at H 2%nat | byte_at H 3%nat]).
  unfold is_byte in *. simpl (2 ^ _).
  rewrite (lor_add (a * 16777216) a 24), (lor_add (c * 256) c 8) by lia.
  rewrite (lor_add _ (a * 256 + b) 16) by lia. simpl le_value. lia.
Qed.

Lemma bswap64_reverse a b c d e f g h : is_bytes [a; b; c; d; e; f; g; h] ->
  bswap64 (le_value [a; b; c; d; e; f; g; h]) = le_value [h; g; f; e; d; c; b; a].
Proof.
  intros H. pose proof H as HF. unfold is_bytes in HF. rewrite !Forall_cons in HF.
  destruct HF as (Ha & Hb & Hc & Hd & He & Hf & Hg & Hh & _).
  set (x := le_value [a; b; c; d; e; f; g; h]).
  change (bswap64 x) with
    (Z.lor (Z.lor (Z.lor (u64 (Z.shiftl (Z.land x (Z.shiftl 255 0)) 56))
                         (u64 (Z.shiftl (Z.land x (Z.shiftl 255 8)) 40)))
                  (Z.lor (u64 (Z.shiftl (Z.land x (Z.shiftl 255 16)) 24))
                         (u64 (Z.shiftl (Z.land x (Z.shiftl 255 24)) 8))))
           (Z.lor (Z.lor (Z.shiftr (Z.land x (Z.shiftl 255 32)) 8)
                         (Z.shiftr (Z.land x (Z.shiftl 255 40)) 24))
                  (Z.lor (Z.shiftr (Z.land x (Z.shiftl 255 48)) 40)
                         (Z.shiftr (Z.land x (Z.shiftl 255 56)) 56)))).
  rewrite (swap_left 64 x 0 56 a), (swap_left 64 x 8 40 b), (swap_left 64 x 16 24 c),
    (swap_left 64 x 24 8 d), (swap_right x 32 8 e), (swap_right x 40 24 f),
    (swap_right x 48 40 g), (swap_right x 56 56 h)
    by (try lia; try assumption;
      first [byte_at H 0%nat | byte_at H 1%nat | byte_at H 2%nat | byte_at H 3%nat
            |byte_at H 4%nat | byte_at H 5%nat | byte_at H 6%nat | byte_at H 7%nat]).
  unfold is_byte in *. simpl (2 ^ _).
  rewrite (lor_add (a * 72057594037927936) a 56), (lor_add (c * 1099511627776) c 40),
    (lor_add (e * 16777216) e 24), (lor_add (g * 256) g 8) by lia.
  rewrite (lor_add (a * 72057594037927936 + _) (a * 256 + b) 48) by lia.
  rewrite (lor_add (e * 16777216 + _) (e * 256 + f) 16) by lia.
  rewrite (lor_add _ (a * 16777216 + b * 65536 + c * 256 + d) 32) by lia.
  simpl le_value. lia.
Qed.

(** The bits of a single (double) field are its bytes in the device's order. *)
Lemma loadFloat32_value p be : is_bytes p -> 4 <= lenZ p ->
  loadFloat32 p be = Some (f32_to_f64 (bytes_value be (takeZ 4 p))).
Proof.
  intros Hp Hl. unfold loadFloat32, memcpy_le.
  change (loadRaw_le 4 0 p 0) with (loadRaw p 4 false).
  rewrite loadRaw_value by (done || lia). cbn [mbind option_bind].
  destruct be; [|done]. do 2 f_equal.
  assert (is_bytes (takeZ 4 p)) as Ht by by apply Forall_take.
  assert (length (takeZ 4 p) = 4%nat) as Hlen.
  { unfold takeZ, lenZ in *. rewrite length_take. lia. }
  destruct (takeZ 4 p) as [|a [|b [|c [|d [|]]]]]; try discriminate Hlen.
  unfold bytes_value. by rewrite bswap32_reverse.
Qed.

Lemma loadFloat64_value p be : is_bytes p -> 8 <= lenZ p ->
  loadFloat64 p be = Some (bytes_value be (takeZ 8 p)).
Proof.
  intros Hp Hl. unfold loadFloat64, memcpy_le.
  change (loadRaw_le 8 0 p 0) with (loadRaw p 8 false).
  rewrite loadRaw_value by (done || lia). cbn [mbind option_bind].
  destruct be; [|done]. f_equal.
  assert (is_bytes (takeZ 8 p)) as Ht by by apply Forall_take.
  assert (length (takeZ 8 p) = 8%nat) as Hlen.
  { unfold takeZ, lenZ in *. rewrite length_take. lia. }
  destruct (takeZ 8 p) as [|a [|b [|c [|d [|e [|f [|g [|h [|]]]]]]]]]; try discriminate Hlen.
  unfold bytes_value. by rewrite bswap64_reverse.
Qed.

(** ** Records *)

(** The cell a field stands for in a payload. *)
Definition field_cell (be : bool) (payload : list Z) (f : FieldDesc) : Cell :=
  let raw := bytes_value be (takeZ (f_size f) (dropZ (f_byteOffset f) payload)) in
  match f_kind f with
  | Float32 => mkCell (f32_to_f64 raw) 0
  | Float64 => mkCell raw 0
  | Bool => mkCell (if raw =? 0 then 0 else 1) 0
  | IntSigned | IntUnsigned => mkCell (u64 (field_value f raw)) 0
  end.

(** The row of a record: one cell per field. *)
Definition record_cells (spec : FrameSpec) (be : bool) (payload : list Z) : list Cell :=
  map (field_cell be payload) (s_fields spec).

Definition field_fits (n : Z) (f : FieldDesc) : bool := f_byteOffset f + f_size f <=? n.

(** The record is decodable from [n] bytes. *)
Definition record_fits (spec : FrameSpec) (n : Z) : bool :=
  match s_fields spec with [] => false | _ :: _ => true end &&
  (s_payloadMin spec <=? n) && forallb (field_fits n) (s_fields spec).

Lemma decodeCell_spec f be payload :
  is_bytes payload -> field_ok f -> f_byteOffset f + f_size f <= lenZ payload ->
  decodeCell f be (dropZ (f_byteOffset f) payload) = Some (field_cell be payload f).
Proof.
  intros Hp Hf Hl. pose proof (field_size_bounds f Hf) as Hs. pose proof Hf as Hf'.
  destruct Hf' as (_ & H32 & H64 & HB & Ho & _ & _ & _ & HD).
  assert (is_bytes (dropZ (f_byteOffset f) payload)) as Hd by by apply Forall_drop.
  assert (f_size f <= lenZ (dropZ (f_byteOffset f) payload)) as Hdl by (rewrite lenZ_dropZ; lia).
  unfold decodeCell, field_cell.
  destruct (f_kind f) eqn:K.
  - rewrite decodeInt_value by done. cbn [mbind option_bind].
    destruct (f_asDouble f); [by destruct HD as [HD _]; destruct HD|done].
  - rewrite decodeInt_value by done. cbn [mbind option_bind].
    destruct (f_asDouble f); [by destruct HD as [HD _]; destruct HD|done].
  - rewrite H32 in Hdl |- * by done. by rewrite loadFloat32_value.
  - rewrite H64 in Hdl |- * by done. by rewrite loadFloat64_value.
  - rewrite HB in Hdl |- * by done. by rewrite loadRaw_value by (done || lia).
Qed.

Lemma takeZ_insert_snoc {A} (l : list A) i x :
  0 <= i < lenZ l -> takeZ (i + 1) (<[Z.to_nat i := x]> l) = takeZ i l ++ [x].
Proof.
  unfold takeZ, lenZ. intros Hi. replace (Z.to_nat (i + 1)) with (S (Z.to_nat i)) by lia.
  rewrite (take_S_r _ _ x) by (apply list_lookup_insert_eq; lia).
  by rewrite take_insert_ge by lia.
Qed.

Lemma dropZ_insert_after {A} (l : list A) i j x :
  0 <= i < j -> dropZ j (<[Z.to_nat i := x]> l) = dropZ j l.
Proof. unfold dropZ. intros. apply drop_insert_lt. lia. Qed.

(** The field loop writes the cells of the fields in place. *)
Lemma decodeFields_spec be payload n fs : forall i row,
  is_bytes payload -> Forall field_ok fs ->
  (forall f, f ∈ fs -> field_fits n f = true -> f_byteOffset f + f_size f <= lenZ payload) ->
  0 <= i -> i + lenZ fs <= lenZ row ->
  exists row', decodeFields fs i be payload n row = Some (forallb (field_fits n) fs, row') /\
    length row' = length row /\
    (forallb (field_fits n) fs = true ->
     row' = takeZ i row ++ map (field_cell be payload) fs ++ dropZ (i + lenZ fs) row).
Proof.
  induction fs as [|f fs IH]; intros i row Hp Hok Hin Hi Hlen.
  - exists row. split_and!; [done|done|]. intros _. rewrite lenZ_nil, Z.add_0_r. simpl.
    symmetry. apply takeZ_dropZ.
  - apply Forall_cons in Hok as [Hf Hok]. rewrite lenZ_cons in Hlen.
    pose proof (lenZ_nonneg fs). simpl decodeFields. simpl forallb.
    destruct (field_fits n f) eqn:Hfit; unfold field_fits in Hfit; rewrite Z.gtb_ltb.
    2:{ exists row. destruct (Z.ltb_spec n (f_byteOffset f + f_size f)); [done|].
        apply Z.leb_gt in Hfit. lia. }
    apply Z.leb_le in Hfit. destruct (Z.ltb_spec n (f_byteOffset f + f_size f)); [lia|].
    rewrite decodeCell_spec; [|done|done|].
    2:{ apply Hin; [left|]. by apply Z.leb_le. }
    cbn [mbind option_bind andb]. rewrite wr_Some by lia. cbn [mbind option_bind].
    destruct (IH (i + 1) (<[Z.to_nat i := field_cell be payload f]> row)) as (row' & E & L & F);
      [done|done| |lia| |].
    { intros g Hg. apply Hin. by right. }
    { unfold lenZ in *. rewrite length_insert. lia. }
    exists row'. split_and!; [done| |].
    { by rewrite L, length_insert. }
    intros Ht. rewrite (F Ht), takeZ_insert_snoc, dropZ_insert_after by lia.
    rewrite lenZ_cons, <- app_assoc. simpl. do 3 f_equal. f_equal. lia.
Qed.

(** [decodePayload] fails exactly when a field does not fit, and otherwise
    writes the record's cells over the first cells of the row. *)
Lemma decodePayload_spec spec be payload n row :
  is_bytes payload -> spec_ok spec -> n < 2 ^ 32 ->
  (s_payloadMin spec <= n -> s_payloadMin spec <= lenZ payload) ->
  lenZ (s_fields spec) <= lenZ row ->
  exists row', decodePayload spec be payload n row = Some (record_fits spec n, row') /\
    length row' = length row /\
    (record_fits spec n = true ->
     row' = record_cells spec be payload ++ dropZ (lenZ (s_fields spec)) row).
Proof.
  intros Hp (Hok & Hmin & _ & Hcov) Hn Hbuf Hrow. unfold decodePayload, record_fits, record_cells.
  destruct (s_fields spec) as [|f0 fs0] eqn:Hfs; [by exists row|]. rewrite <- Hfs in *.
  cbn [andb]. rewrite Z.gtb_ltb.
  destruct (Z.ltb_spec n (s_payloadMin spec)) as [Hlt|Hge].
  { exists row. destruct (Z.leb_spec (s_payloadMin spec) n); [lia|done]. }
  destruct (Z.leb_spec (s_payloadMin spec) n); [|lia]. cbn [andb].
  destruct (decodeFields_spec be payload n (s_fields spec) 0 row) as (row' & E & L & F);
    [done|done| |done|lia|].
  { intros f Hf Hfit. apply Z.leb_le in Hfit. rewrite Forall_forall in Hok, Hcov.
    specialize (Hcov f Hf). pose proof (field_size_bounds f (Hok f Hf)).
    destruct (Hok f Hf) as (_ & _ & _ & _ & Ho & _).
    rewrite uwrap_small in Hcov by lia. lia. }
  exists row'. split_and!; [done|done|]. intros Ht. rewrite (F Ht). done.
Qed.

Lemma record_cells_length spec be payload :
  lenZ (record_cells spec be payload) = lenZ (s_fields spec).
Proof. unfold record_cells, lenZ. by rewrite length_map. Qed.
