(* ===== verification/Slicer.v ===== *)
(** * Slicing loops in general

    What an iteration of a slicing loop must satisfy ([SlicerLaws]) for the
    loop to terminate, to stay inside the buffer, to leave fewer than
    [kMaxFrame] bytes behind, and to be insensitive to how the stream was cut
    into segments.  [FrameCodecStream.v] shows that the iterations of [feed]
    and [feedModbus] are such slicers. *)

From stdpp Require Import base list numbers.
From Stdlib Require Import ZArith Lia.
From S2P Require Import Prelude DeviceModel FrameCodec.
Local Open Scope Z_scope.

(** The bounds a step respects at [h], and what its rows satisfy. *)
Definition step_ok (ok : Slicing -> Prop) (P : Row -> Prop) (h : list Z) (r : Step) : Prop :=
  match r with
  | Break k st => 0 <= k <= lenZ h /\ lenZ h - k < kMaxFrame /\ ok st
  | Advance k st rows => 1 <= k <= lenZ h /\ ok st /\ Forall P rows /\ lenZ rows <= k
  | ReturnNow _ => False
  end.

Class SlicerLaws (step : list Z -> Slicing -> option Step) (ok : Slicing -> Prop)
    (P : Row -> Prop) : Prop := {
  sl_shape : forall h st, is_bytes h -> ok st ->
    exists r, step h st = Some r /\ step_ok ok P h r;
  sl_stable : forall h d st k st' rows,
    step h st = Some (Advance k st' rows) -> step (h ++ d) st = Some (Advance k st' rows);
  sl_restart : forall h d st k st' r, ok st ->
    step h st = Some (Break k st') -> step (dropZ k h ++ d) st' = Some r ->
    step (h ++ d) st = Some (shiftStep k r);
}.

(** The loop as a relation: one rule per way of going on. *)
Inductive slices (step : list Z -> Slicing -> option Step) :
    list Z -> Slicing -> list Z -> Slicing -> list Row -> Prop :=
| slices_break h st k st' :
    step h st = Some (Break k st') -> slices step h st (dropZ k h) st' []
| slices_advance h st k st' rows rest st'' rows' :
    step h st = Some (Advance k st' rows) ->
    slices step (dropZ k h) st' rest st'' rows' ->
    slices step h st rest st'' (rows ++ rows').

(** The counters kept around the loop do not matter to it. *)
Lemma feedLoop_frame step d sl st st' r s w :
  feedLoop step d sl st = Some (set_stream r s st, w) -> st_buf st' = st_buf st ->
  feedLoop step d sl st' = Some (set_stream r s st', w).
Proof.
  intros E Hb. unfold feedLoop in *. rewrite Hb.
  destruct (slice step (S (length (st_buf st ++ d))) (st_buf st ++ d) sl) as [[[[h sl'] rows] b]|];
    [|done].
  cbn [mbind option_bind] in *. cbv beta iota zeta in *.
  destruct (if b then compact h sl' else (st_buf st ++ d, sl')) as [h' sl''].
  by injection E as -> -> ->.
Qed.

Section Laws.
Context {step : list Z -> Slicing -> option Step} {ok : Slicing -> Prop} {P : Row -> Prop}.
Context `{!SlicerLaws step ok P}.

Lemma is_bytes_dropZ k h : is_bytes h -> is_bytes (dropZ k h).
Proof. intros. by apply Forall_drop. Qed.

(** With fuel for every byte the loop terminates by [break], in bounds. *)
Lemma slice_total fuel : forall h st,
  is_bytes h -> ok st -> (length h < fuel)%nat ->
  exists rest st' rows, slice step fuel h st = Some (rest, st', rows, true) /\
    slices step h st rest st' rows /\ ok st' /\ is_bytes rest /\ lenZ rest < kMaxFrame /\
    Forall P rows /\ lenZ rows + lenZ rest <= lenZ h.
Proof.
  induction fuel as [|fuel IH]; intros h st Hh Hok Hf; [lia|]. simpl slice.
  destruct (sl_shape h st Hh Hok) as (r & E & Hr). rewrite E. cbn [mbind option_bind].
  destruct r as [k st'|k st' rows|st']; simpl in Hr; [| |done].
  - destruct Hr as (Hk & Hb & Hok'). exists (dropZ k h), st', [].
    split_and!; [done|by constructor|done|by apply is_bytes_dropZ| |by constructor|];
      rewrite ?lenZ_nil, lenZ_dropZ; lia.
  - destruct Hr as (Hk & Hok' & HP & Hcnt).
    destruct (IH (dropZ k h) st') as (rest & st'' & rows' & E' & Hs & Ho & Hb & Hl & HP' & Hrest); [by apply is_bytes_dropZ|done| |].
    { unfold dropZ. rewrite length_drop. unfold lenZ in Hk. lia. }
    rewrite E'. exists rest, st'', (rows ++ rows'). split_and!; [done| |done..| |].
    + by eapply slices_advance.
    + by apply Forall_app.
    + rewrite lenZ_dropZ in Hrest. rewrite lenZ_app. lia.
Qed.

(** The relation determines the result. *)
Lemma slices_det h st rest1 st1 rows1 rest2 st2 rows2 :
  slices step h st rest1 st1 rows1 -> slices step h st rest2 st2 rows2 ->
  rest1 = rest2 /\ st1 = st2 /\ rows1 = rows2.
Proof.
  intros H. revert rest2 st2 rows2.
  induction H as [h st k st' E|h st k st' rows rest st'' rows' E _ IH]; intros rest2 st2 rows2 H2;
    inversion H2 as [? ? k2 ? E2|? ? k2 ? ? ? ? ? E2 Hs2]; subst; rewrite E in E2;
    simplify_eq; [done|]. by apply IH in Hs2 as (-> & -> & ->).
Qed.

Lemma shape_at h st r : is_bytes h -> ok st -> step h st = Some r -> step_ok ok P h r.
Proof.
  intros Hh Hok E. destruct (sl_shape h st Hh Hok) as (r' & E' & Hr).
  by rewrite E in E'; injection E' as <-.
Qed.

Lemma dropZ_split k j (h d : list Z) : 0 <= k <= lenZ h -> 0 <= j ->
  dropZ (k + j) (h ++ d) = dropZ j (dropZ k h ++ d).
Proof.
  intros Hk Hj. rewrite <- dropZ_app_le by lia. by rewrite dropZ_dropZ by lia.
Qed.

(** What was done before more bytes arrived needs no redoing. *)
Lemma slices_app h st rest st1 rows1 d rest2 st2 rows2 :
  is_bytes h -> is_bytes d -> ok st ->
  slices step h st rest st1 rows1 -> slices step (rest ++ d) st1 rest2 st2 rows2 ->
  slices step (h ++ d) st rest2 st2 (rows1 ++ rows2).
Proof.
  intros Hh Hd Hok H.
  induction H as [h st k st' E|h st k st' rows rest st'' rows' E _ IH]; intros H2;
    pose proof (shape_at _ _ _ Hh Hok E) as Hr; simpl in Hr.
  - destruct Hr as (Hk & _ & Hok').
    assert (is_bytes (dropZ k h ++ d)) as Hb by (apply Forall_app; split; [by apply is_bytes_dropZ|done]).
    inversion H2 as [? ? j ? E2|? ? j ? rows3 ? ? rows4 E2 Hs2]; subst;
      pose proof (sl_restart h d st k st' _ Hok E E2) as Hs; simpl in Hs;
      pose proof (shape_at _ _ _ Hb Hok' E2) as Hj; simpl in Hj;
      rewrite app_nil_l.
    + rewrite <- dropZ_split by lia. by apply slices_break.
    + eapply slices_advance; [exact Hs|]. by rewrite dropZ_split by lia.
  - destruct Hr as (Hk & Hok' & _). rewrite <- app_assoc.
    eapply slices_advance; [by apply sl_stable|]. rewrite dropZ_app_le by lia.
    apply IH; [by apply is_bytes_dropZ|done|done].
Qed.

(** The whole function: total, in bounds, the pending bytes stay below
    [kMaxFrame] (so the 256 KiB cut never happens). *)
Lemma feedLoop_total data sl st :
  is_bytes (st_buf st) -> is_bytes data -> ok sl ->
  exists rest sl' rows,
    feedLoop step data sl st = Some (set_stream rest sl' st, rows) /\
    slices step (st_buf st ++ data) sl rest sl' rows /\
    ok sl' /\ is_bytes rest /\ lenZ rest < kMaxFrame /\ Forall P rows /\
    lenZ rows + lenZ rest <= lenZ (st_buf st) + lenZ data.
Proof.
  intros Hb Hd Hok. unfold feedLoop.
  assert (is_bytes (st_buf st ++ data)) as Hbd by by apply Forall_app.
  destruct (slice_total (S (length (st_buf st ++ data))) (st_buf st ++ data) sl)
    as (rest & sl' & rows & E & Hs & Hok' & Hrest & Hlen & HP & Hcnt); [done|done|lia|].
  rewrite E. cbn [mbind option_bind]. exists rest, sl', rows. rewrite lenZ_app in Hcnt.
  split_and!; try done.
  unfold compact. rewrite Z.gtb_ltb. unfold kMaxFrame in Hlen.
  by destruct (Z.ltb_spec (256 * 1024) (lenZ rest)); [lia|].
Qed.

(** Two calls are one call on the concatenation. *)
Lemma feedLoop_app d1 d2 sl st rest1 sl1 rows1 rest2 sl2 rows2 st1 :
  is_bytes (st_buf st) -> is_bytes d1 -> is_bytes d2 -> ok sl ->
  feedLoop step d1 sl st = Some (set_stream rest1 sl1 st, rows1) ->
  st_buf st1 = rest1 -> feedLoop step d2 sl1 st1 = Some (set_stream rest2 sl2 st1, rows2) ->
  feedLoop step (d1 ++ d2) sl st = Some (set_stream rest2 sl2 st, rows1 ++ rows2).
Proof.
  intros Hb H1 H2 Hok E1 Hst1 E2.
  destruct (feedLoop_total d1 sl st Hb H1 Hok) as (r1 & s1 & w1 & F1 & S1 & O1 & B1 & _).
  rewrite E1 in F1. injection F1 as -> -> ->.
  destruct (feedLoop_total d2 s1 st1) as (r2 & s2 & w2 & F2 & S2 & _); [by rewrite Hst1|done|done|].
  rewrite E2 in F2. injection F2 as -> -> ->. rewrite Hst1 in S2.
  destruct (feedLoop_total (d1 ++ d2) sl st) as (r3 & s3 & w3 & F3 & S3 & _);
    [done|by apply Forall_app|done|].
  rewrite F3. rewrite app_assoc in S3.
  pose proof (slices_app _ _ _ _ _ d2 _ _ _ (proj2 (Forall_app _ _ _) (conj Hb H1)) H2 Hok S1 S2) as S12.
  destruct (slices_det _ _ _ _ _ _ _ _ S3 S12) as (-> & -> & ->). done.
Qed.
End Laws.
