(* ===== verification/FrameCodecStream.v ===== *)
(** * The frame codec: stream laws

    The iterations of [feed] and [feedModbus] satisfy [SlicerLaws]; hence both
    functions are total (no read outside the stream buffer, no write outside
    the scratch row), leave fewer than 64 KiB pending, and are [ByteStream]s:
    how TCP cut the stream into segments does not matter. *)

From stdpp Require Import base list numbers gmap strings.
From Stdlib Require Import ZArith Lia.
From S2P Require Import Prelude DeviceModel Floats FrameCodec FrameCodecLoads Slicer.
Local Open Scope Z_scope.

(** ** Reads that succeed are stable when bytes are appended *)

Lemma dropZ_app_ex {A} a (p d : list A) : exists d', dropZ a (p ++ d) = dropZ a p ++ d'.
Proof. unfold dropZ. rewrite drop_app. by eexists. Qed.

Lemma rd_app {A} (p d : list A) i x : rd p i = Some x -> rd (p ++ d) i = Some x.
Proof. intros H. pose proof (rd_Some_lt _ _ _ H). by rewrite rd_app_l by lia. Qed.

Lemma loadRaw_be_app n p d : forall v x,
  loadRaw_be n p v = Some x -> loadRaw_be n (p ++ d) v = Some x.
Proof. revert p. induction n as [|n IH]; intros [|b p] v x; simpl; try done. apply IH. Qed.

Lemma loadRaw_le_app n p d : forall i v x,
  loadRaw_le n i p v = Some x -> loadRaw_le n i (p ++ d) v = Some x.
Proof.
  revert p. induction n as [|n IH]; intros [|b p] i v x; cbn [loadRaw_le app]; try done.
  destruct (64 <=? 8 * i); [done|]. apply IH.
Qed.

Lemma loadRaw_app p d size be x :
  loadRaw p size be = Some x -> loadRaw (p ++ d) size be = Some x.
Proof. unfold loadRaw. destruct be; [apply loadRaw_be_app|apply loadRaw_le_app]. Qed.

(** Push a success through a bind, using the stability lemma [L] for its head. *)
Ltac bind_app L :=
  match goal with
  | H : (?m ≫= _) = Some _ |- _ =>
      let E := fresh "E" in
      destruct m as [?|] eqn:E; [|discriminate H]; rewrite (L _ _ _ E) || rewrite (L _ _ _ _ E)
        || rewrite (L _ _ _ _ _ E); cbn [mbind option_bind] in H |- *
  end.

Lemma decodeInt_app p d f be x :
  decodeInt p f be = Some x -> decodeInt (p ++ d) f be = Some x.
Proof.
  unfold decodeInt. intros H. destruct (loadRaw p (f_size f) be) eqn:E; [|discriminate H].
  by rewrite (loadRaw_app _ _ _ _ _ E).
Qed.

Lemma decodeCell_app f be p d c :
  decodeCell f be p = Some c -> decodeCell f be (p ++ d) = Some c.
Proof.
  unfold decodeCell, loadFloat32, loadFloat64, memcpy_le. intros H.
  destruct (f_kind f).
  1,2: destruct (decodeInt p f be) eqn:E; [|discriminate H];
    by rewrite (decodeInt_app _ _ _ _ _ E).
  - destruct (loadRaw_le 4 0 p 0) eqn:E; [|discriminate H].
    by rewrite (loadRaw_le_app _ _ _ _ _ _ E).
  - destruct (loadRaw_le 8 0 p 0) eqn:E; [|discriminate H].
    by rewrite (loadRaw_le_app _ _ _ _ _ _ E).
  - destruct (loadRaw p 1 be) eqn:E; [|discriminate H].
    by rewrite (loadRaw_app _ _ _ _ _ E).
Qed.

Lemma decodeFields_app fs be p d n : forall i row r,
  decodeFields fs i be p n row = Some r -> decodeFields fs i be (p ++ d) n row = Some r.
Proof.
  induction fs as [|f fs IH]; intros i row r; cbn [decodeFields]; [done|].
  destruct (f_byteOffset f + f_size f >? n); [done|].
  destruct (dropZ_app_ex (f_byteOffset f) p d) as [d' ->].
  destruct (decodeCell f be (dropZ (f_byteOffset f) p)) eqn:E; [|done].
  rewrite (decodeCell_app _ _ _ _ _ E). cbn [mbind option_bind].
  destruct (wr row i c); [|done]. apply IH.
Qed.

Lemma decodePayload_app spec be p d n row r :
  decodePayload spec be p n row = Some r -> decodePayload spec be (p ++ d) n row = Some r.
Proof.
  unfold decodePayload. destruct (s_fields spec); [done|].
  destruct (s_payloadMin spec >? n); [done|]. apply decodeFields_app.
Qed.

Lemma feedRecords_app dev ts rb d n : forall p scratch r,
  feedRecords n dev ts p rb scratch = Some r ->
  feedRecords n dev ts (p ++ d) rb scratch = Some r.
Proof.
  revert d. induction n as [|n IH]; intros d p scratch r; cbn [feedRecords]; [done|].
  destruct (decodePayload (d_spec (p_desc dev)) (bigEndian (p_desc dev)) p rb scratch)
    as [[good sc]|] eqn:E; [|done].
  rewrite (decodePayload_app _ _ _ _ _ _ _ E). cbn [mbind option_bind].
  destruct (negb good); [done|].
  destruct (dropZ_app_ex rb p d) as [d' ->].
  destruct (feedRecords n dev ts (dropZ rb p) rb sc) as [[[ok sc'] rows]|] eqn:E2; [|done].
  by rewrite (IH _ _ _ _ E2).
Qed.

Lemma feedFrame_app dev ts h d pb tail tf st r :
  feedFrame dev ts h pb tail tf st = Some r -> feedFrame dev ts (h ++ d) pb tail tf st = Some r.
Proof.
  unfold feedFrame. cbv zeta. intros H.
  destruct (if tail =? 0 then Some 0 else rd h (kHeaderSize + pb + tail - 1)) as [l|] eqn:El;
    [|discriminate H].
  assert ((if tail =? 0 then Some 0 else rd (h ++ d) (kHeaderSize + pb + tail - 1)) = Some l) as ->.
  { destruct (tail =? 0); [done|]. by apply rd_app. }
  cbn [mbind option_bind] in *.
  destruct (dropZ_app_ex kHeaderSize h d) as [d' ->].
  match type of H with (?m ≫= _) = _ => destruct m as [[[ok sc] rows]|] eqn:E; [|discriminate H] end.
  by rewrite (feedRecords_app _ _ _ _ _ _ _ _ E).
Qed.

(** ** custom_data: the iteration of [feed] *)

(** The counters are [uint64_t]. *)
Definition slicing_ok (s : Slicing) : Prop :=
  0 <= sl_frames s < 2 ^ 64 /\ 0 <= sl_resyncs s < 2 ^ 64 /\ 0 <= sl_badFrames s < 2 ^ 64 /\
  0 <= sl_flagMiss s < 2 ^ 64 /\ 0 <= sl_unknownType s < 2 ^ 64.

Ltac slicing_solve :=
  unfold slicing_ok, inc_frames, inc_badFrames, inc_flagMiss, inc_unknownType, add_resyncs,
    set_scratch in *; simpl in *;
  repeat match goal with
  | |- context [uwrap 64 ?x] => pose proof (uwrap_range 64 x ltac:(lia)); generalize dependent (uwrap 64 x); intros
  end; try tauto; intuition lia.

Lemma inc_frames_ok s : slicing_ok s -> slicing_ok (inc_frames s).
Proof. intros. slicing_solve. Qed.
Lemma inc_badFrames_ok s : slicing_ok s -> slicing_ok (inc_badFrames s).
Proof. intros. slicing_solve. Qed.
Lemma inc_flagMiss_ok s : slicing_ok s -> slicing_ok (inc_flagMiss s).
Proof. intros. slicing_solve. Qed.
Lemma inc_unknownType_ok s : slicing_ok s -> slicing_ok (inc_unknownType s).
Proof. intros. slicing_solve. Qed.
Lemma add_resyncs_ok n s : slicing_ok s -> slicing_ok (add_resyncs n s).
Proof. intros. slicing_solve. Qed.
Lemma set_scratch_ok r s : slicing_ok s -> slicing_ok (set_scratch r s).
Proof. done. Qed.
Lemma growScratch_ok n s : slicing_ok s -> slicing_ok (growScratch n s).
Proof. unfold growScratch. by destruct (_ <? _). Qed.

#[export] Hint Resolve inc_frames_ok inc_badFrames_ok inc_flagMiss_ok inc_unknownType_ok
  add_resyncs_ok set_scratch_ok growScratch_ok : ether.

Lemma growScratch_length n s : n <= lenZ (sl_rowScratch (growScratch n s)).
Proof.
  unfold growScratch. destruct (Z.ltb_spec (lenZ (sl_rowScratch s)) n); simpl; [|lia].
  unfold lenZ in *. rewrite length_app, length_replicate. lia.
Qed.

Lemma feed_step_stable g ts h d st k st' rows :
  feed_step g ts h st = Some (Advance k st' rows) ->
  feed_step g ts (h ++ d) st = Some (Advance k st' rows).
Proof.
  unfold feed_step. rewrite lenZ_app. pose proof (lenZ_nonneg d).
  destruct (Z.ltb_spec (lenZ h) kHeaderSize); [done|].
  destruct (Z.ltb_spec (lenZ h + lenZ d) kHeaderSize); [lia|].
  unfold kHeaderSize in *. rewrite !rd_app_l by lia.
  destruct (rd h 0); [|done]. destruct (rd h 1); [|done].
  destruct (rd h 2); [|done]. destruct (rd h 3); [|done]. cbn [mbind option_bind]. cbv zeta.
  destruct (byFrameType g z); [|done].
  destruct (s_fields (d_spec (p_desc d0))); [done|].
  repeat match goal with
  | |- context [if ?b then Some (resync1 _) else _] => destruct b; [done|]
  end.
  match goal with |- (if _ <? ?f then _ else _) = _ -> _ =>
    destruct (Z.ltb_spec (lenZ h) f); [done|]; destruct (Z.ltb_spec (lenZ h + lenZ d) f); [lia|] end.
  apply feedFrame_app.
Qed.

Lemma feed_step_break g ts h st k st' :
  feed_step g ts h st = Some (Break k st') -> k = 0 /\ st' = st.
Proof.
  unfold feed_step. destruct (lenZ h <? kHeaderSize); [by intros [= <- <-]|].
  destruct (rd h 0); [|done]. destruct (rd h 1); [|done].
  destruct (rd h 2); [|done]. destruct (rd h 3); [|done]. cbn [mbind option_bind]. cbv zeta.
  destruct (byFrameType g z); [|done].
  destruct (s_fields (d_spec (p_desc d))); [done|].
  repeat match goal with
  | |- context [if ?b then Some (resync1 _) else _] => destruct b; [done|]
  end.
  match goal with |- (if ?b then _ else _) = _ -> _ => destruct b; [by intros [= <- <-]|] end.
  unfold feedFrame. cbv zeta. intros H.
  match type of H with (?m ≫= _) = _ => destruct m; [|discriminate H] end.
  cbn [mbind option_bind] in H.
  by match type of H with (?m ≫= _) = _ => destruct m as [[[? ?] ?]|]; [|discriminate H] end.
Qed.

(** The rows of a complete frame: one per record, all from the same device. *)
Definition frame_rows (dev : DevicePtr) (ts : Z) (p : list Z) (rb : Z) (n : nat) : list Row :=
  map (fun k : nat =>
         mkRow dev ts (record_cells (d_spec (p_desc dev)) (bigEndian (p_desc dev))
                         (dropZ (Z.of_nat k * rb) p))) (seq 0 n).

Lemma frame_rows_S dev ts p rb n : 0 <= rb ->
  frame_rows dev ts p rb (S n) =
  mkRow dev ts (record_cells (d_spec (p_desc dev)) (bigEndian (p_desc dev)) p) ::
  frame_rows dev ts (dropZ rb p) rb n.
Proof.
  intros Hrb. unfold frame_rows. simpl seq. rewrite map_cons. f_equal.
  rewrite <- seq_shift, map_map. apply map_ext. intros k.
  rewrite dropZ_dropZ by lia. do 3 f_equal. lia.
Qed.

Lemma feedRecords_spec dev ts rb n : forall p scratch,
  is_bytes p -> device_ok (p_desc dev) -> 0 < rb < 2 ^ 32 ->
  (s_payloadMin (d_spec (p_desc dev)) <= rb ->
   (Z.of_nat n - 1) * rb + s_payloadMin (d_spec (p_desc dev)) <= lenZ p) ->
  fieldCount (p_desc dev) <= lenZ scratch ->
  exists ok sc rows, feedRecords n dev ts p rb scratch = Some (ok, sc, rows) /\
    length sc = length scratch /\
    (n <> O -> ok = record_fits (d_spec (p_desc dev)) rb) /\
    rows = if record_fits (d_spec (p_desc dev)) rb then frame_rows dev ts p rb n else [].
Proof.
  induction n as [|n IH]; intros p scratch Hp Hd Hrb Hlen Hsc; cbn [feedRecords].
  { exists true, scratch, []. split_and!; try done. by destruct (record_fits _ _). }
  set (spec := d_spec (p_desc dev)) in *. unfold fieldCount in Hsc. fold spec in Hsc.
  destruct (decodePayload_spec spec (bigEndian (p_desc dev)) p rb scratch)
    as (sc & E & L & F); [done|done|lia|nia|done|].
  rewrite E. cbn [mbind option_bind].
  destruct (record_fits spec rb) eqn:Hfit; cbn [negb].
  2:{ by exists false, sc, []. }
  destruct (IH (dropZ rb p) sc) as (ok & sc' & rows & E' & L' & Hok & Hrows);
    [by apply Forall_drop|done|done| | |].
  { intros Hm. rewrite lenZ_dropZ. specialize (Hlen Hm). pose proof Hd as (_ & Hmin & _).
    fold spec in Hmin. nia. }
  { unfold lenZ. rewrite L. apply Hsc. }
  rewrite E'. cbn [mbind option_bind]. exists ok, sc', (mkRow dev ts (takeZ (fieldCount (p_desc dev)) sc) :: rows).
  split_and!; [done|congruence| |].
  - intros _. destruct n as [|n]; [|by apply Hok].
    cbn [feedRecords] in E'. by injection E' as <- _ _.
  - rewrite Hrows, frame_rows_S by lia. f_equal. f_equal.
    rewrite (F eq_refl). unfold fieldCount. fold spec.
    apply takeZ_app_length. symmetry. apply record_cells_length.
Qed.

Lemma recordCount_pos pb rb : 0 < rb -> 0 < pb -> Z.to_nat (recordCount pb rb) <> O.
Proof.
  intros. unfold recordCount.
  destruct (Z.ltb_spec 0 rb), (Z.leb_spec rb pb), (Z.eqb_spec (pb mod rb) 0); cbn [andb]; try lia.
  assert (1 <= pb / rb) by (apply Z.div_le_lower_bound; lia). lia.
Qed.

Lemma growScratch_counters n s :
  sl_frames (growScratch n s) = sl_frames s /\ sl_resyncs (growScratch n s) = sl_resyncs s /\
  sl_badFrames (growScratch n s) = sl_badFrames s.
Proof. unfold growScratch. by destruct (_ <? _). Qed.

(** What a complete frame at [h] does. *)
Lemma feedFrame_spec dev ts h pb tail tf st :
  is_bytes h -> device_ok (p_desc dev) -> slicing_ok st ->
  0 < pb -> s_payloadMin (d_spec (p_desc dev)) <= pb ->
  tail = 0 \/ tail = 1 -> kHeaderSize + pb + tail <= lenZ h ->
  kHeaderSize + pb + tail <= kMaxFrame ->
  let spec := d_spec (p_desc dev) in
  let rb := if 0 <? s_frameLen spec then s_frameLen spec else pb in
  exists st', slicing_ok st' /\
    sl_resyncs st' = sl_resyncs st /\
    (record_fits spec rb = true ->
     sl_frames st' = u64 (sl_frames st + 1) /\ sl_badFrames st' = sl_badFrames st) /\
    feedFrame dev ts h pb tail tf st =
    Some (Advance (kHeaderSize + pb + tail) st'
            (if record_fits spec rb
             then frame_rows dev ts (dropZ kHeaderSize h) rb (Z.to_nat (recordCount pb rb))
             else [])).
Proof.
  intros Hh Hd Hst Hpb Hmin Ht Hlen Hmax spec rb. unfold feedFrame. cbv zeta. fold spec. fold rb.
  unfold kHeaderSize, kMaxFrame in *.
  assert (exists l, (if tail =? 0 then Some 0 else rd h (6 + pb + tail - 1)) = Some l) as [l ->].
  { destruct (tail =? 0); [by eexists|]. apply rd_is_Some. lia. }
  cbn [mbind option_bind].
  set (st1 := if _ && _ then inc_flagMiss st else st).
  assert (slicing_ok st1) as Hst1 by (unfold st1; destruct (_ && _); auto with ether).
  pose proof Hd as (_ & Hpm & Hfl & _). fold spec in Hpm, Hfl, Hmin.
  assert (0 < rb < 2 ^ 32) as Hrb.
  { unfold rb. destruct (Z.ltb_spec 0 (s_frameLen spec)); lia. }
  destruct (feedRecords_spec dev ts rb (Z.to_nat (recordCount pb rb)) (dropZ 6 h)
    (sl_rowScratch (growScratch (fieldCount (p_desc dev)) st1)))
    as (ok & sc & rows & E & L & Hok & Hrows);
    [by apply Forall_drop|done|done| |apply growScratch_length|].
  { fold spec. intros Hm. rewrite lenZ_dropZ. unfold recordCount.
    destruct (Z.ltb_spec 0 rb), (Z.leb_spec rb pb), (Z.eqb_spec (pb mod rb) 0); cbn [andb]; try lia.
    pose proof (Z.div_mod pb rb ltac:(lia)). assert (0 <= pb / rb) by (apply Z.div_pos; lia).
    rewrite Z2Nat.id by lia. nia. }
  rewrite E. cbn [mbind option_bind]. fold spec in Hrows, Hok. rewrite Hrows.
  destruct (growScratch_counters (fieldCount (p_desc dev)) st1) as (G1 & G2 & G3).
  assert (sl_frames st1 = sl_frames st /\ sl_resyncs st1 = sl_resyncs st /\
          sl_badFrames st1 = sl_badFrames st) as (S1 & S2 & S3)
    by (unfold st1; by destruct (_ && _)).
  eexists; split_and!; [| | |done].
  - destruct ok; auto with ether.
  - destruct ok; simpl; congruence.
  - intros Hfit. rewrite Hok, Hfit by (apply recordCount_pos; lia). simpl. split; congruence.
Qed.

(** The rows pushed: one cell per field of the row's device, none of them NULL. *)
Definition row_ok (r : Row) : Prop :=
  lenZ (r_cells r) = fieldCount (p_desc (r_dev r)) /\ Forall (fun c => c_isNull c = 0) (r_cells r).

Definition group_row (g : DeviceGroup) (ts : Z) (r : Row) : Prop :=
  row_ok r /\ r_dev r ∈ g_members g /\ r_ts r = ts.

Definition dev_row (dev : DevicePtr) (ts : Z) (r : Row) : Prop :=
  row_ok r /\ r_dev r = dev /\ r_ts r = ts.

Lemma record_row_ok dev ts be p :
  row_ok (mkRow dev ts (record_cells (d_spec (p_desc dev)) be p)).
Proof.
  split; [apply record_cells_length|]. simpl. unfold record_cells. apply Forall_map, Forall_true.
  intros f. unfold field_cell. by destruct (f_kind f).
Qed.

Lemma frame_rows_ok dev ts p rb n : Forall (dev_row dev ts) (frame_rows dev ts p rb n).
Proof.
  unfold frame_rows. apply Forall_map, Forall_true. intros k. split_and!; try done; apply record_row_ok.
Qed.

(** A frame has at most one record per payload byte. *)
Lemma frame_rows_count dev ts p (b : bool) pb rb : 0 < pb -> 0 < rb ->
  lenZ (if b then frame_rows dev ts p rb (Z.to_nat (recordCount pb rb)) else []) <= pb.
Proof.
  intros Hp Hr. destruct b; [|rewrite lenZ_nil; lia]. unfold lenZ, frame_rows.
  rewrite length_map, length_seq. unfold recordCount.
  destruct (Z.ltb_spec 0 rb), (Z.leb_spec rb pb), (Z.eqb_spec (pb mod rb) 0); cbn [andb]; try lia.
  assert (0 <= pb / rb) by (apply Z.div_pos; lia).
  assert (pb / rb <= pb / 1) by (apply Z.div_le_compat_l; lia). rewrite Z.div_1_r in *. lia.
Qed.

Lemma feed_step_shape g ts h st :
  group_ok g -> is_bytes h -> slicing_ok st ->
  exists r, feed_step g ts h st = Some r /\ step_ok slicing_ok (group_row g ts) h r.
Proof.
  intros Hg Hh Hst. unfold feed_step.
  destruct (Z.ltb_spec (lenZ h) kHeaderSize) as [Hs|Hs].
  { eexists; split; [done|]. simpl. unfold kHeaderSize, kMaxFrame in *.
    pose proof (lenZ_nonneg h). split_and!; lia || done. }
  unfold kHeaderSize in Hs.
  assert (forall s, slicing_ok s -> step_ok slicing_ok (group_row g ts) h (resync1 s)) as Hr.
  { intros s Hs'. simpl. split_and!; [lia|lia|auto with ether|constructor|rewrite lenZ_nil; lia]. }
  destruct (rd_is_Some h 0 ltac:(lia)) as [h0 ->]. destruct (rd_is_Some h 1 ltac:(lia)) as [h1 ->].
  destruct (rd_is_Some h 2 ltac:(lia)) as [h2 E2]. rewrite E2.
  destruct (rd_is_Some h 3 ltac:(lia)) as [h3 E3]. rewrite E3.
  cbn [mbind option_bind]. cbv zeta.
  destruct (byFrameType g h0) as [dev|] eqn:Hdev; [|eexists; eauto with ether].
  pose proof (byFrameType_elem _ _ _ Hdev) as [Hmem _]. apply byFrameType_ok in Hdev; [|done].
  destruct (s_fields (d_spec (p_desc dev))) eqn:Hf; [eexists; eauto with ether|].
  destruct (negb _ && negb _); [eexists; eauto with ether|].
  set (pb := if _ =? 0 then _ else _).
  set (tail := if _ =? 0 then 0 else 1).
  destruct ((pb =? 0) || (pb <? s_payloadMin (d_spec (p_desc dev)))) eqn:Hpb; [eexists; eauto with ether|].
  assert (0 <= pb) as Hpb0.
  { unfold pb. pose proof (rd_bytes _ _ _ Hh E2) as B2. pose proof (rd_bytes _ _ _ Hh E3) as B3.
    unfold is_byte in *.
    destruct (_ =? 0); [destruct (Z.ltb_spec 0 (s_frameLen (d_spec (p_desc dev)))); lia|].
    apply Z.lor_nonneg. split; [lia|]. apply Z.shiftl_nonneg. lia. }
  bool_to_prop. rewrite Z.gtb_ltb.
  destruct (Z.ltb_spec kMaxFrame (kHeaderSize + pb + tail)); [eexists; eauto with ether|].
  assert (tail = 0 \/ tail = 1) as Ht.
  { unfold tail. match goal with |- context [if ?b then 0 else 1] => destruct b end; auto. }
  destruct (Z.ltb_spec (lenZ h) (kHeaderSize + pb + tail)).
  { eexists; split; [done|]. simpl. unfold kHeaderSize, kMaxFrame in *.
    pose proof (lenZ_nonneg h). split_and!; lia || done. }
  match goal with |- context [feedFrame dev ts h pb tail ?tf st] =>
    destruct (feedFrame_spec dev ts h pb tail tf st) as (st' & Hok' & _ & _ & E); try done; try lia end.
  rewrite E. eexists; split; [done|]. simpl. unfold kHeaderSize in *.
  assert (lenZ (if record_fits (d_spec (p_desc dev)) (if 0 <? s_frameLen (d_spec (p_desc dev)) then s_frameLen (d_spec (p_desc dev)) else pb)
            then frame_rows dev ts (dropZ 6 h) (if 0 <? s_frameLen (d_spec (p_desc dev)) then s_frameLen (d_spec (p_desc dev)) else pb)
              (Z.to_nat (recordCount pb (if 0 <? s_frameLen (d_spec (p_desc dev)) then s_frameLen (d_spec (p_desc dev)) else pb)))
            else []) <= pb) as Hcnt.
  { apply frame_rows_count; [lia|]. destruct (Z.ltb_spec 0 (s_frameLen (d_spec (p_desc dev)))); lia. }
  split_and!; [lia|lia|done| |lia].
  destruct (record_fits _ _); [|constructor].
  eapply Forall_impl; [apply frame_rows_ok|]. intros r (? & Hr' & ?).
  split_and!; [done|by rewrite Hr'|done].
Qed.

#[export] Instance feed_slicer g ts : group_ok g ->
  SlicerLaws (feed_step g ts) slicing_ok (group_row g ts).
Proof.
  intros Hg. constructor.
  - intros h st Hh Hst. by apply feed_step_shape.
  - intros. by apply feed_step_stable.
  - intros h d st k st' r _ E E2. destruct (feed_step_break _ _ _ _ _ _ E) as [-> ->].
    rewrite dropZ_0 in E2. rewrite E2. by destruct r.
Qed.

(** ** Modbus: the iteration of [feedModbus] *)

(** A device the modbus path can slice: a valid response header length, a
    field layout, and (without MBAP) a frame within [kMaxFrame]. *)
Class ModbusReady (d : DeviceDesc) : Prop := {
  mr_device : device_ok d;
  mr_header : isModbusHeaderLen (d_spec d) = true;
  mr_fields : s_fields (d_spec d) <> [];
  mr_payload : 0 < s_payloadMin (d_spec d);
  mr_total : (s_frameType (d_spec d) =? 7) || (s_frameType (d_spec d) =? 9) = false ->
    s_frameType (d_spec d) + s_payloadMin (d_spec d) <= kMaxFrame;
}.

Definition modbus_ok (d : DeviceDesc) (s : Slicing) : Prop :=
  slicing_ok s /\ fieldCount d <= lenZ (sl_rowScratch s).

Lemma add_resyncs_0 s : slicing_ok s -> add_resyncs 0 s = s.
Proof.
  intros (_ & H & _). destruct s; unfold add_resyncs; simpl in *.
  rewrite Z.add_0_r, uwrap_small by lia. done.
Qed.

Lemma add_resyncs_add a b s : add_resyncs b (add_resyncs a s) = add_resyncs (a + b) s.
Proof. unfold add_resyncs; simpl. by rewrite uwrap_add_l, Z.add_assoc. Qed.

Lemma mbapScan_shift h : forall p, mbapScan h p = option_map (Z.add p) (mbapScan h 0).
Proof.
  induction h as [|a h IH]; intros p; [done|].
  destruct h as [|b [|c [|d h]]]; try done.
  cbn [mbapScan]. cbn [mbapScan] in IH. destruct ((c =? 0) && (d =? 0)); [simpl; f_equal; lia|].
  rewrite (IH (p + 1)), (IH (0 + 1)).
  match goal with |- _ = option_map _ (option_map _ ?x) => destruct x; simpl; [f_equal; lia|done] end.
Qed.

Lemma mbapScan_step a b c d h p :
  mbapScan (a :: b :: c :: d :: h) p =
  if (c =? 0) && (d =? 0) then Some p else mbapScan (b :: c :: d :: h) (p + 1).
Proof. done. Qed.

Lemma mbapScan_bounds h : forall q, mbapScan h 0 = Some q ->
  0 <= q /\ q + 4 <= lenZ h /\ forall d, mbapScan (h ++ d) 0 = Some q /\
  mbapScan (dropZ q h ++ d) 0 = Some 0.
Proof.
  induction h as [|a h IH]; intros q Hq; [done|].
  destruct h as [|b [|c [|d h]]]; try done. rewrite mbapScan_step in Hq.
  destruct ((c =? 0) && (d =? 0)) eqn:E.
  - injection Hq as <-. split; [lia|]. split; [rewrite !lenZ_cons; pose proof (lenZ_nonneg h); lia|].
    intros d'. rewrite dropZ_0. cbn [app]. by rewrite mbapScan_step, E.
  - rewrite mbapScan_shift in Hq.
    destruct (mbapScan (b :: c :: d :: h) 0) as [q'|] eqn:Hq'; [|done]. injection Hq as <-.
    destruct (IH q' eq_refl) as (H1 & H2 & H3). split; [lia|]. rewrite (lenZ_cons a). split; [lia|].
    intros d'. destruct (H3 d') as [H4 H5]. split.
    + cbn [app] in *. by rewrite mbapScan_step, E, mbapScan_shift, H4.
    + rewrite <- H5. f_equal. f_equal. unfold dropZ.
      replace (Z.to_nat (0 + 1 + q')) with (S (Z.to_nat q')) by lia. done.
Qed.

Lemma option_map_add0 o : option_map (Z.add 0) o = o.
Proof. by destruct o. Qed.

Lemma mbapScan_None h d : mbapScan h 0 = None ->
  let k := lenZ h - (if lenZ h >? 3 then 3 else lenZ h) in
  mbapScan (h ++ d) 0 = option_map (Z.add k) (mbapScan (dropZ k h ++ d) 0).
Proof.
  induction h as [|a h IH]; intros Hn k.
  { change k with 0. by rewrite dropZ_0, app_nil_l, option_map_add0. }
  destruct (Z.gtb_spec (lenZ (a :: h)) 3) as [Hlen|Hlen].
  2:{ assert (k = 0) as -> by (unfold k; destruct (Z.gtb_spec (lenZ (a :: h)) 3); lia).
      by rewrite dropZ_0, option_map_add0. }
  destruct h as [|b [|c [|x h]]];
    try (unfold lenZ in Hlen; simpl in Hlen; lia).
  rewrite mbapScan_step in Hn. destruct ((c =? 0) && (x =? 0)) eqn:E; [done|].
  rewrite mbapScan_shift in Hn.
  destruct (mbapScan (b :: c :: x :: h) 0) eqn:Hn'; [done|]. specialize (IH eq_refl).
  cbv zeta in IH. cbn [app] in IH |- *. rewrite mbapScan_step, E, mbapScan_shift, IH.
  set (k' := lenZ (b :: c :: x :: h) - _) in *.
  assert (k = 1 + k') as ->.
  { unfold k, k'. rewrite (lenZ_cons a) in *.
    destruct (Z.gtb_spec (1 + lenZ (b :: c :: x :: h)) 3), (Z.gtb_spec (lenZ (b :: c :: x :: h)) 3); lia. }
  assert (0 <= k') as Hk'.
  { unfold k'. pose proof (lenZ_nonneg (b :: c :: x :: h)). destruct (_ >? 3) eqn:?; bool_to_prop; lia. }
  replace (dropZ (1 + k') (a :: b :: c :: x :: h)) with (dropZ k' (b :: c :: x :: h)).
  2:{ unfold dropZ. by replace (Z.to_nat (1 + k')) with (S (Z.to_nat k')) by lia. }
  destruct (mbapScan (dropZ k' _ ++ d) 0); simpl; [f_equal; lia|done].
Qed.

Lemma modbusFrame_app dev ts h d hdr total pl st r :
  modbusFrame dev ts h hdr total pl st = Some r ->
  modbusFrame dev ts (h ++ d) hdr total pl st = Some r.
Proof.
  unfold modbusFrame. intros H. destruct (dropZ_app_ex hdr h d) as [d' ->].
  match type of H with (?m ≫= _) = _ => destruct m as [[good sc]|] eqn:E; [|discriminate H] end.
  by rewrite (decodePayload_app _ _ _ _ _ _ _ E).
Qed.

Lemma modbusFrame_not_break dev ts h hdr total pl st k st' :
  modbusFrame dev ts h hdr total pl st <> Some (Break k st').
Proof.
  unfold modbusFrame. destruct (decodePayload _ _ _ _ _) as [[[] sc]|]; done.
Qed.

Lemma modbusResponse_stable dev ts hdr h d st k st' rows :
  modbusResponse dev ts hdr h st = Some (Advance k st' rows) ->
  modbusResponse dev ts hdr (h ++ d) st = Some (Advance k st' rows).
Proof.
  unfold modbusResponse. rewrite lenZ_app. pose proof (lenZ_nonneg d).
  destruct (Z.ltb_spec (lenZ h) 6); [done|]. destruct (Z.ltb_spec (lenZ h + lenZ d) 6); [lia|].
  rewrite !rd_app_l by lia. destruct (rd h 4); [|done]. destruct (rd h 5); [|done].
  cbn [mbind option_bind]. cbv zeta. destruct (_ <? 1); [done|]. destruct (_ || _); [done|].
  match goal with |- (if _ <? ?f then _ else _) = _ -> _ =>
    destruct (Z.ltb_spec (lenZ h) f); [done|]; destruct (Z.ltb_spec (lenZ h + lenZ d) f); [lia|] end.
  destruct (_ <? _); [done|]. apply modbusFrame_app.
Qed.

Lemma modbusResponse_break dev ts hdr h st k st' :
  modbusResponse dev ts hdr h st = Some (Break k st') -> k = 0 /\ st' = st.
Proof.
  unfold modbusResponse. destruct (lenZ h <? 6); [by intros [= <- <-]|].
  destruct (rd h 4); [|done]. destruct (rd h 5); [|done].
  cbn [mbind option_bind]. cbv zeta. destruct (_ <? 1); [done|]. destruct (_ || _); [done|].
  match goal with |- (if ?b then _ else _) = _ -> _ => destruct b; [by intros [= <- <-]|] end.
  destruct (_ <? _); [done|]. intros H. by apply modbusFrame_not_break in H.
Qed.

Lemma shiftStep_Advance k r j st rows :
  option_map (shiftStep k) r = Some (Advance j st rows) ->
  exists j', r = Some (Advance j' st rows) /\ j = k + j'.
Proof. destruct r as [[]|]; simpl; try done. intros [= <- -> ->]. eauto. Qed.

Lemma shiftStep_Break k r j st :
  option_map (shiftStep k) r = Some (Break j st) ->
  exists j', r = Some (Break j' st) /\ j = k + j'.
Proof. destruct r as [[]|]; simpl; try done. intros [= <- ->]. eauto. Qed.

Lemma shiftStep_0 r : shiftStep 0 r = r.
Proof. by destruct r. Qed.

Lemma shiftStep_add a b r : shiftStep (a + b) r = shiftStep a (shiftStep b r).
Proof. destruct r; simpl; f_equal; lia. Qed.

Lemma modbus_step_stable dev ts h d st k st' rows :
  modbus_step dev ts h st = Some (Advance k st' rows) ->
  modbus_step dev ts (h ++ d) st = Some (Advance k st' rows).
Proof.
  unfold modbus_step. cbv zeta. destruct (_ || _).
  - destruct (mbapScan h 0) as [q|] eqn:Eq; [|done].
    destruct (mbapScan_bounds h q Eq) as (Hq & Hl & H). destruct (H d) as [-> _].
    intros (j & Hj & ->)%shiftStep_Advance. rewrite dropZ_app_le by lia.
    by rewrite (modbusResponse_stable _ _ _ _ _ _ _ _ _ Hj).
  - rewrite lenZ_app. pose proof (lenZ_nonneg d). destruct (_ >? _); [done|].
    match goal with |- (if _ <? ?f then _ else _) = _ -> _ =>
      destruct (Z.ltb_spec (lenZ h) f); [done|]; destruct (Z.ltb_spec (lenZ h + lenZ d) f); [lia|] end.
    apply modbusFrame_app.
Qed.

Lemma modbus_step_restart dev ts h d st k st' r :
  slicing_ok st -> modbus_step dev ts h st = Some (Break k st') ->
  modbus_step dev ts (dropZ k h ++ d) st' = Some r ->
  modbus_step dev ts (h ++ d) st = Some (shiftStep k r).
Proof.
  intros Hst. unfold modbus_step. cbv zeta. destruct (_ || _).
  - destruct (mbapScan h 0) as [q|] eqn:Eq.
    + destruct (mbapScan_bounds h q Eq) as (Hq & Hl & H). destruct (H d) as [-> H0].
      intros (j & Hj & ->)%shiftStep_Break. apply modbusResponse_break in Hj as [-> ->].
      rewrite Z.add_0_r, H0, dropZ_0. rewrite Z.eqb_refl, dropZ_app_le by lia.
      destruct (modbusResponse _ _ _ _ _); [|done]. simpl. rewrite shiftStep_0. by intros [= ->].
    + intros [= <- <-]. pose proof (mbapScan_None h d Eq) as HN. cbv zeta in HN. rewrite HN.
      pose proof (lenZ_nonneg h). pose proof (lenZ_nonneg d).
      set (k := lenZ h - _) in *.
      assert (0 <= k <= lenZ h) as Hk.
      { unfold k. destruct (Z.gtb_spec (lenZ h) 3); lia. }
      destruct (mbapScan (dropZ k h ++ d) 0) as [q2|] eqn:Eq2; cbn [option_map].
      * destruct (mbapScan_bounds _ _ Eq2) as (Hq2 & _).
        rewrite <- (dropZ_app_le k h d), dropZ_dropZ by lia. intros Hr.
        assert ((if k + q2 =? 0 then st else add_resyncs (k + q2) st) =
                (if q2 =? 0 then add_resyncs k st else add_resyncs q2 (add_resyncs k st))) as ->.
        { rewrite add_resyncs_add. destruct (Z.eqb_spec q2 0) as [->|]; rewrite ?Z.add_0_r.
          - destruct (Z.eqb_spec k 0) as [->|]; [by rewrite add_resyncs_0|done].
          - destruct (Z.eqb_spec (k + q2) 0); [lia|done]. }
        destruct (modbusResponse _ _ _ _ _); [|done]. injection Hr as <-. simpl.
        by rewrite shiftStep_add.
      * intros [= <-]. simpl. rewrite add_resyncs_add, !lenZ_app, lenZ_dropZ.
        match goal with |- Some (Break ?a (add_resyncs ?a st)) = Some (Break ?b (add_resyncs ?b st)) =>
          replace b with a; [done|] end.
        unfold k. repeat match goal with |- context [?a >? 3] => destruct (Z.gtb_spec a 3) end; lia.
  - destruct (_ >? _); [done|]. destruct (_ <? _) eqn:?; [intros [= <- <-]|intros H; by apply modbusFrame_not_break in H].
    rewrite dropZ_0. intros ->. by rewrite shiftStep_0.
Qed.

Lemma modbus_ok_scratch d sc s :
  modbus_ok d s -> length sc = length (sl_rowScratch s) -> modbus_ok d (set_scratch sc s).
Proof. intros [H1 H2] HL. split; [done|]. unfold lenZ in *. simpl. by rewrite HL. Qed.

Lemma modbus_ok_inc d s :
  modbus_ok d s -> modbus_ok d (inc_frames s) /\ modbus_ok d (inc_badFrames s) /\
  forall n, modbus_ok d (add_resyncs n s).
Proof. intros [H1 H2]. split_and!; try intros ?; split; auto with ether. Qed.

Section Modbus.
Context (dev : DevicePtr) (ts : Z) `{!ModbusReady (p_desc dev)}.
Let spec := d_spec (p_desc dev).
Let ok := modbus_ok (p_desc dev).

(** What a complete response does: one row, or a one-byte skip when a field
    does not fit. *)
Lemma modbusFrame_spec h hdr total pl st :
  is_bytes h -> ok st -> 0 <= hdr -> pl < 2 ^ 32 -> s_payloadMin spec <= pl ->
  hdr + pl <= total <= lenZ h ->
  exists st', ok st' /\
    (record_fits spec pl = true ->
     sl_frames st' = u64 (sl_frames st + 1) /\ sl_resyncs st' = sl_resyncs st /\
     sl_badFrames st' = sl_badFrames st) /\
    modbusFrame dev ts h hdr total pl st =
    Some (if record_fits spec pl
          then Advance total st'
                 [mkRow dev ts (record_cells spec (modbusBigEndian (p_desc dev)) (dropZ hdr h))]
          else Advance 1 st' []).
Proof.
  intros Hh Hok Hhdr Hpl Hmin Hlen. unfold modbusFrame. fold spec.
  destruct (decodePayload_spec spec (modbusBigEndian (p_desc dev)) (dropZ hdr h) pl (sl_rowScratch st))
    as (sc & E & L & F); [by apply Forall_drop|apply mr_device|done| |apply Hok|].
  { intros _. rewrite lenZ_dropZ. lia. }
  rewrite E. cbn [mbind option_bind].
  pose proof (modbus_ok_scratch _ sc st Hok L) as Hok'.
  destruct (modbus_ok_inc _ _ Hok') as (H1 & H2 & _).
  destruct (modbus_ok_inc _ _ H2) as (_ & _ & H3).
  destruct (record_fits spec pl); cbn [negb].
  2: { eexists; split_and!; [exact (H3 1)|done|done]. }
  eexists; split_and!; [exact H1|done|]. rewrite (F eq_refl). rewrite takeZ_app_length; [done|].
  unfold fieldCount. fold spec. symmetry. apply record_cells_length.
Qed.

Lemma modbusFrame_shape h hdr total pl st :
  is_bytes h -> ok st -> 0 <= hdr -> pl < 2 ^ 32 -> s_payloadMin spec <= pl ->
  hdr + pl <= total <= lenZ h -> 1 <= total ->
  exists r, modbusFrame dev ts h hdr total pl st = Some r /\ step_ok ok (dev_row dev ts) h r.
Proof.
  intros Hh Hok Hhdr Hpl Hmin Hlen Ht.
  destruct (modbusFrame_spec h hdr total pl st) as (st' & Hok' & _ & E); try done.
  eexists; split; [exact E|].
  destruct (record_fits spec pl); simpl; split_and!; try done; try lia;
    rewrite ?lenZ_cons, ?lenZ_nil; try lia; constructor; [|constructor].
  split_and!; [apply record_row_ok|done|done].
Qed.

Lemma modbusResponse_shape hdr h st :
  is_bytes h -> ok st -> 0 <= hdr -> 1 <= lenZ h ->
  exists r, modbusResponse dev ts hdr h st = Some r /\ step_ok ok (dev_row dev ts) h r.
Proof.
  intros Hh Hok Hhdr Hlen. unfold modbusResponse. fold spec.
  destruct (modbus_ok_inc _ _ Hok) as (_ & _ & Hre).
  assert (forall s, s = st -> step_ok ok (dev_row dev ts) h (resync1 s)) as Hr.
  { intros s ->. simpl. split_and!; [lia|lia|apply Hre|constructor|rewrite lenZ_nil; lia]. }
  assert (lenZ h < kMaxFrame -> step_ok ok (dev_row dev ts) h (Break 0 st)) as HB.
  { simpl. intros. split_and!; lia || done. }
  destruct (Z.ltb_spec (lenZ h) 6); [eexists; split; [done|apply HB; unfold kMaxFrame; lia]|].
  destruct (rd_is_Some h 4 ltac:(lia)) as [h4 E4]. rewrite E4.
  destruct (rd_is_Some h 5 ltac:(lia)) as [h5 E5]. rewrite E5. cbn [mbind option_bind]. cbv zeta.
  set (n := Z.lor _ h5).
  destruct (Z.ltb_spec n 1); [eexists; eauto|].
  destruct (6 + n >? kMaxFrame) eqn:E1; cbn [orb]; [eexists; eauto|]. bool_to_prop.
  destruct (Z.ltb_spec (6 + n) hdr); [eexists; eauto|].
  destruct (Z.ltb_spec (lenZ h) (6 + n)); [eexists; split; [done|apply HB; lia]|].
  destruct (Z.ltb_spec (6 + n - hdr) (s_payloadMin spec)); [eexists; eauto|].
  apply modbusFrame_shape; try done; unfold kMaxFrame in *; lia.
Qed.

Lemma modbus_step_shape h st :
  is_bytes h -> ok st -> exists r, modbus_step dev ts h st = Some r /\ step_ok ok (dev_row dev ts) h r.
Proof.
  intros Hh Hok. unfold modbus_step. fold spec. cbv zeta.
  pose proof mr_header as Hhdr. unfold isModbusHeaderLen in Hhdr. fold spec in Hhdr.
  pose proof mr_total as Htot. pose proof mr_payload as Hpay. fold spec in Htot, Hpay.
  pose proof (lenZ_nonneg h).
  destruct ((s_frameType spec =? 7) || (s_frameType spec =? 9)) eqn:H79.
  - destruct (mbapScan h 0) as [q|] eqn:Eq.
    + destruct (mbapScan_bounds h q Eq) as (Hq & Hl & _).
      assert (ok (if q =? 0 then st else add_resyncs q st)) as Hok'.
      { destruct (q =? 0); [done|]. by apply modbus_ok_inc. }
      destruct (modbusResponse_shape (s_frameType spec) (dropZ q h)
        (if q =? 0 then st else add_resyncs q st)) as (r & E & Hr);
        [by apply Forall_drop|done| |rewrite lenZ_dropZ; lia|].
      { apply orb_true_iff in H79. rewrite !Z.eqb_eq in H79. lia. }
      rewrite E. eexists; split; [done|].
      destruct r; simpl in *; rewrite ?lenZ_dropZ in Hr; [| |done].
      * destruct Hr as (? & ? & ?). split_and!; lia || done.
      * destruct Hr as (? & ? & ? & ?). split_and!; lia || done.
    + eexists; split; [done|]. simpl. unfold kMaxFrame.
      destruct (Z.gtb_spec (lenZ h) 3); split_and!; try lia; by apply modbus_ok_inc.
  - assert (0 <= s_frameType spec <= 2) as Hft.
    { rewrite !orb_true_iff, !Z.eqb_eq in Hhdr. apply orb_false_iff in H79.
      rewrite !Z.eqb_neq in H79. lia. }
    rewrite Z.gtb_ltb. destruct (Z.ltb_spec kMaxFrame (s_frameType spec + s_payloadMin spec)); [lia|].
    destruct (Z.ltb_spec (lenZ h) (s_frameType spec + s_payloadMin spec)).
    { eexists; split; [done|]. simpl. split_and!; lia || done. }
    apply modbusFrame_shape; try done; unfold kMaxFrame in *; lia.
Qed.

#[export] Instance modbus_slicer : SlicerLaws (modbus_step dev ts) ok (dev_row dev ts).
Proof.
  constructor.
  - intros h st Hh Hst. by apply modbus_step_shape.
  - intros. by apply modbus_step_stable.
  - intros h d st k st' r [Hok _]. by apply modbus_step_restart.
Qed.
End Modbus.

(** ** Whole streams *)

(** A stream between two calls. *)
Definition stream_ok (st : DeviceStream) : Prop :=
  is_bytes (st_buf st) /\ lenZ (st_buf st) < kMaxFrame /\ slicing_ok (st_slicing st).

Lemma stream0_ok : stream_ok DeviceStream0.
Proof. repeat constructor; simpl; lia. Qed.

Lemma add_bytesIn_app (d1 d2 : list Z) buf sl st :
  add_bytesIn (lenZ d2) (set_stream buf sl (add_bytesIn (lenZ d1) st)) =
  set_stream buf sl (add_bytesIn (lenZ (d1 ++ d2)) st).
Proof.
  unfold add_bytesIn, set_stream; simpl. f_equal. rewrite uwrap_add_l, lenZ_app. f_equal. lia.
Qed.

Lemma feed_total_rows g ts st d : group_ok g -> stream_ok st -> is_bytes d ->
  exists st' rows, feed g ts st d = Some (st', rows) /\ stream_ok st' /\ Forall (group_row g ts) rows /\
    lenZ rows + lenZ (st_buf st') <= lenZ (st_buf st) + lenZ d.
Proof.
  intros Hg (Hb & Hl & Hs) Hd. unfold feed.
  destruct (@feedLoop_total _ _ _ (feed_slicer g ts Hg) d (st_slicing st) (add_bytesIn (lenZ d) st))
    as (rest & sl & rows & E & _ & Hok & Hrest & Hlen & HP & Hcnt); [done|done|done|].
  eexists _, rows. split; [exact E|]. done.
Qed.

Lemma feed_total g ts st d : group_ok g -> stream_ok st -> is_bytes d ->
  exists st' rows, feed g ts st d = Some (st', rows) /\ stream_ok st'.
Proof.
  intros Hg Hst Hd. destruct (feed_total_rows g ts st d Hg Hst Hd) as (st' & rows & E & H & _).
  by exists st', rows.
Qed.

Lemma feed_app g ts st d1 d2 st1 rows1 :
  group_ok g -> stream_ok st -> is_bytes d1 -> is_bytes d2 ->
  feed g ts st d1 = Some (st1, rows1) ->
  feed g ts st (d1 ++ d2) = ('(st2, rows2) ← feed g ts st1 d2; Some (st2, rows1 ++ rows2)).
Proof.
  intros Hg (Hb & Hl & Hs) H1 H2 E1. pose proof (feed_slicer g ts Hg) as SL.
  destruct (@feedLoop_total _ _ _ SL d1 (st_slicing st) (add_bytesIn (lenZ d1) st))
    as (r1 & s1 & w1 & F1 & _ & Hok1 & Hb1 & _); [done|done|done|].
  unfold feed in E1. simpl in E1, F1. rewrite F1 in E1. injection E1 as <- <-.
  unfold feed at 2. rewrite add_bytesIn_app. simpl st_slicing.
  destruct (@feedLoop_total _ _ _ SL d2 s1 (set_stream r1 s1 (add_bytesIn (lenZ (d1 ++ d2)) st)))
    as (r2 & s2 & w2 & F2 & _); [done|done|done|].
  rewrite F2. cbn [mbind option_bind]. unfold feed.
  change (st_slicing (add_bytesIn (lenZ (d1 ++ d2)) st)) with (st_slicing st). cbv zeta.
  rewrite (@feedLoop_app _ _ _ SL d1 d2 (st_slicing st) (add_bytesIn (lenZ (d1 ++ d2)) st)
             r1 s1 w1 r2 s2 w2 (set_stream r1 s1 (add_bytesIn (lenZ (d1 ++ d2)) st))); try done.
  by apply (feedLoop_frame _ _ _ (add_bytesIn (lenZ d1) st)).
Qed.

(** custom_data streams of a peer group, as seen by a client. *)
#[export] Instance feed_stream g ts (Hg : group_ok g) : ByteStream DeviceStream Row := {
  bs_ok := stream_ok;
  bs_feed := feed g ts;
  bs_total := fun st d Hst Hd => feed_total g ts st d Hg Hst Hd;
  bs_app := fun st st1 o1 d1 d2 Hst H1 H2 E => feed_app g ts st d1 d2 st1 o1 Hg Hst H1 H2 E;
}.

(** *** Modbus *)

Lemma growScratch_id n s : n <= lenZ (sl_rowScratch s) -> growScratch n s = s.
Proof. unfold growScratch. by destruct (Z.ltb_spec (lenZ (sl_rowScratch s)) n); [lia|]. Qed.

Lemma feedModbus_ready dev ts st d `{!ModbusReady (p_desc dev)} :
  feedModbus dev ts st d =
  feedLoop (modbus_step dev ts) d (growScratch (fieldCount (p_desc dev)) (st_slicing st))
    (add_bytesIn (lenZ d) st).
Proof.
  unfold feedModbus. pose proof (@mr_fields _ ModbusReady0) as Hf.
  destruct (s_fields (d_spec (p_desc dev))); [done|]. rewrite mr_header. cbn [negb].
  pose proof (@mr_payload _ ModbusReady0). by destruct (Z.eqb_spec (s_payloadMin (d_spec (p_desc dev))) 0); [lia|].
Qed.

Lemma modbus_ok_grow d s : slicing_ok s -> modbus_ok d (growScratch (fieldCount d) s).
Proof. intros. split; [by apply growScratch_ok|apply growScratch_length]. Qed.

Lemma feedModbus_total_rows dev ts st d `{!ModbusReady (p_desc dev)} :
  stream_ok st -> is_bytes d ->
  exists st' rows, feedModbus dev ts st d = Some (st', rows) /\ stream_ok st' /\
    Forall (dev_row dev ts) rows /\ lenZ rows + lenZ (st_buf st') <= lenZ (st_buf st) + lenZ d.
Proof.
  intros (Hb & Hl & Hs) Hd. rewrite (feedModbus_ready dev ts st d).
  destruct (@feedLoop_total _ _ _ (modbus_slicer dev ts) d (growScratch (fieldCount (p_desc dev)) (st_slicing st))
    (add_bytesIn (lenZ d) st))
    as (rest & sl & rows & E & _ & Hok & Hrest & Hlen & HP & Hcnt); [done|done|by apply modbus_ok_grow|].
  eexists _, rows. split; [exact E|]. split; [split; [done|split; [done|apply Hok]]|done].
Qed.

Lemma feedModbus_total dev ts st d `{!ModbusReady (p_desc dev)} :
  stream_ok st -> is_bytes d ->
  exists st' rows, feedModbus dev ts st d = Some (st', rows) /\ stream_ok st'.
Proof.
  intros Hst Hd. destruct (feedModbus_total_rows dev ts st d Hst Hd) as (st' & rows & E & H & _).
  by exists st', rows.
Qed.

Lemma feedModbus_app dev ts st d1 d2 st1 rows1 `{!ModbusReady (p_desc dev)} :
  stream_ok st -> is_bytes d1 -> is_bytes d2 ->
  feedModbus dev ts st d1 = Some (st1, rows1) ->
  feedModbus dev ts st (d1 ++ d2) =
    ('(st2, rows2) ← feedModbus dev ts st1 d2; Some (st2, rows1 ++ rows2)).
Proof.
  intros (Hb & Hl & Hs) H1 H2. pose proof (modbus_slicer dev ts) as SL.
  rewrite (feedModbus_ready dev ts st d1), (feedModbus_ready dev ts st (d1 ++ d2)).
  set (sl0 := growScratch _ (st_slicing st)).
  assert (modbus_ok (p_desc dev) sl0) as Hok0 by by apply modbus_ok_grow.
  destruct (@feedLoop_total _ _ _ SL d1 sl0 (add_bytesIn (lenZ d1) st))
    as (r1 & s1 & w1 & F1 & _ & Hok1 & Hb1 & _); [done|done|done|].
  rewrite F1. intros [= <- <-]. rewrite (feedModbus_ready dev ts _ d2), add_bytesIn_app.
  simpl st_slicing.
  rewrite (growScratch_id _ s1) by apply Hok1.
  destruct (@feedLoop_total _ _ _ SL d2 s1 (set_stream r1 s1 (add_bytesIn (lenZ (d1 ++ d2)) st)))
    as (r2 & s2 & w2 & F2 & _); [done|done|done|].
  rewrite F2. cbn [mbind option_bind].
  rewrite (@feedLoop_app _ _ _ SL d1 d2 sl0 (add_bytesIn (lenZ (d1 ++ d2)) st)
             r1 s1 w1 r2 s2 w2 (set_stream r1 s1 (add_bytesIn (lenZ (d1 ++ d2)) st))); try done.
  by apply (feedLoop_frame _ _ _ (add_bytesIn (lenZ d1) st)).
Qed.

(** A response without MBAP header beyond [kMaxFrame]: the bytes are kept and
    nothing else happens. *)
Lemma feedModbus_oversize dev ts st d :
  let spec := d_spec (p_desc dev) in
  s_fields spec <> [] -> isModbusHeaderLen spec = true -> s_payloadMin spec <> 0 ->
  negb ((s_frameType spec =? 7) || (s_frameType spec =? 9)) &&
    (kMaxFrame <? s_frameType spec + s_payloadMin spec) = true ->
  exists sl, feedModbus dev ts st d =
      Some (set_stream (st_buf st ++ d) sl (add_bytesIn (lenZ d) st), []) /\
    (slicing_ok (st_slicing st) -> slicing_ok sl).
Proof.
  intros spec Hf Hh Hz [H79%negb_true_iff Hbig]%andb_prop.
  unfold feedModbus, feedLoop, modbus_step. fold spec.
  destruct (s_fields spec); [done|]. rewrite Hh, (proj2 (Z.eqb_neq _ _) Hz). cbn [negb slice].
  rewrite H79, Z.gtb_ltb, Hbig. cbn [mbind option_bind].
  eexists. split; [done|]. apply growScratch_ok.
Qed.

(** A modbus device's response stream, as seen by a client. *)
#[export] Instance modbus_stream dev ts `{!ModbusReady (p_desc dev)} :
  ByteStream DeviceStream Row := {
  bs_ok := stream_ok;
  bs_feed := feedModbus dev ts;
  bs_total := fun st d Hst Hd => feedModbus_total dev ts st d Hst Hd;
  bs_app := fun st st1 o1 d1 d2 Hst H1 H2 E => feedModbus_app dev ts st d1 d2 st1 o1 Hst H1 H2 E;
}.
