(* ===== verification/FrameCodecWire.v ===== *)
(** * The wire format of the two stream protocols

    What a peer sends: fields, records, custom_data frames and MBAP responses
    as encoders, and what the codec makes of each encoded unit.  The encoders
    follow the format comments of [src/src/adapter/FrameCodec.h] and
    [FrameCodec.cpp]; the repository has no encoder of its own. *)

From stdpp Require Import base list numbers gmap strings.
From Stdlib Require Import ZArith Lia.
From S2P Require Import Prelude DeviceModel Floats FrameCodec FrameCodecLoads Slicer FrameCodecStream.
Local Open Scope Z_scope.

(** ** Fields *)

(** The bits an integer field occupies: the configured bit range, else the
    whole word. *)
Definition field_bits (f : FieldDesc) : Z :=
  if 0 <? f_bitLen f then f_bitLen f else f_size f * 8.

(** The values a field can carry: integers of its width, the bit pattern of
    a float, 0 or 1. *)
Definition value_in (f : FieldDesc) (v : Z) : Prop :=
  match f_kind f with
  | IntSigned => - 2 ^ (field_bits f - 1) <= v < 2 ^ (field_bits f - 1)
  | IntUnsigned => 0 <= v < 2 ^ field_bits f
  | Float32 | Float64 => 0 <= v < 2 ^ (f_size f * 8)
  | Bool => v = 0 \/ v = 1
  end.

Definition is_bitfield (f : FieldDesc) : bool :=
  match f_kind f with IntSigned | IntUnsigned => 0 <? f_bitLen f | _ => false end.

(** The bytes of a value that fills its word, and the payload carrying a value
    at the field's place: a bit field shares its word with its neighbours. *)
Definition wire_field (be : bool) (f : FieldDesc) (v : Z) : list Z :=
  int_bytes be (Z.to_nat (f_size f)) v.

Definition field_at (be : bool) (payload : list Z) (f : FieldDesc) (v : Z) : Prop :=
  let word := takeZ (f_size f) (dropZ (f_byteOffset f) payload) in
  if is_bitfield f then
    (bytes_value be word / 2 ^ f_bitOffset f) mod 2 ^ f_bitLen f = v mod 2 ^ f_bitLen f
  else word = wire_field be f v.

(** The cell the writer should see for a value. *)
Definition value_cell (f : FieldDesc) (v : Z) : Cell :=
  match f_kind f with
  | Float32 => mkCell (f32_to_f64 v) 0
  | Float64 | Bool => mkCell v 0
  | IntSigned | IntUnsigned => mkCell (u64 v) 0
  end.

(** An integer of [bits] bits comes back from its value modulo [2^bits]. *)
Lemma int_cell_wire (k : FieldKind) bits v :
  1 <= bits <= 64 -> k = IntSigned \/ k = IntUnsigned ->
  (if is_signed k then - 2 ^ (bits - 1) <= v < 2 ^ (bits - 1) else 0 <= v < 2 ^ bits) ->
  u64 (if is_signed k then swrap bits (v mod 2 ^ bits) else swrap 64 (v mod 2 ^ bits)) = u64 v.
Proof.
  intros Hb [-> | ->] Hv; cbn [is_signed] in *.
  - change (v mod 2 ^ bits) with (uwrap bits v). rewrite swrap_uwrap by lia.
    by rewrite swrap_small by lia.
  - rewrite uwrap_swrap by lia. by rewrite Z.mod_small by lia.
Qed.

Lemma field_cell_wire be payload f v :
  field_ok f -> value_in f v -> field_at be payload f v ->
  field_cell be payload f = value_cell f v.
Proof.
  intros Hf Hv Hat. pose proof (field_size_bounds f Hf) as Hs.
  pose proof Hf as (_ & H32 & H64 & HB & _ & Hbo & Hbl & Hbits & _).
  unfold field_cell, value_cell, value_in, field_at, is_bitfield, field_bits in *. cbv zeta in *.
  set (word := takeZ (f_size f) (dropZ (f_byteOffset f) payload)) in *.
  assert (word = wire_field be f v -> bytes_value be word = v mod 2 ^ (f_size f * 8)) as Hw.
  { intros ->. unfold wire_field. by rewrite bytes_value_int_bytes, Z2Nat.id, Z.mul_comm by lia. }
  destruct (f_kind f) eqn:K.
  3,4: rewrite Hw by done; by rewrite Z.mod_small by lia.
  3: rewrite Hw, HB by done; destruct Hv as [->| ->]; done.
  all: f_equal; unfold field_value; rewrite K; destruct (Z.ltb_spec 0 (f_bitLen f)) as [Hp|Hp].
  all: first [rewrite Hw by done | rewrite Hat].
  all: apply int_cell_wire; [lia|auto|done].
Qed.

(** ** Records *)

(** A payload carrying the values [vs], one per field of the layout. *)
Definition record_at (be : bool) (spec : FrameSpec) (payload : list Z) (vs : list Z) : Prop :=
  Forall2 (fun f v => value_in f v /\ field_at be payload f v) (s_fields spec) vs.

Definition value_cells (spec : FrameSpec) (vs : list Z) : list Cell :=
  zip_with value_cell (s_fields spec) vs.

Lemma record_cells_wire be spec payload vs :
  Forall field_ok (s_fields spec) -> record_at be spec payload vs ->
  record_cells spec be payload = value_cells spec vs.
Proof.
  unfold record_at, record_cells, value_cells. intros Hok H. revert Hok.
  induction H as [|f v fs vs [Hv Hat] _ IH]; intros Hok; [done|].
  apply Forall_cons in Hok as [Hf Hok]. simpl. by rewrite (field_cell_wire be payload f v), IH.
Qed.

(** ** custom_data frames *)

(** One frame as sent: the device it belongs to, the delimiter and sequence
    bytes, and its records (payload bytes with the values they carry). *)
Record Frame := mkFrame {
  fr_dev : DevicePtr;
  fr_flag : Z;
  fr_seq : Z;
  fr_records : list (list Z * list Z);
}.

Definition fr_payload (fr : Frame) : list Z := concat (map fst (fr_records fr)).

Definition fr_trail (fr : Frame) : Z :=
  if d_isEvent (p_desc (fr_dev fr)) then s_endFlag (d_spec (p_desc (fr_dev fr))) else 0.

Definition encode_frame (fr : Frame) : list Z :=
  [s_frameType (d_spec (p_desc (fr_dev fr))); fr_flag fr] ++
  le_bytes 2 (lenZ (fr_payload fr)) ++ le_bytes 2 (fr_seq fr) ++
  fr_payload fr ++ (if fr_trail fr =? 0 then [] else [fr_trail fr]).

(** The rows a frame should produce. *)
Definition frame_expected (ts : Z) (fr : Frame) : list Row :=
  map (fun r => mkRow (fr_dev fr) ts (value_cells (d_spec (p_desc (fr_dev fr))) (snd r)))
      (fr_records fr).

(** The bytes of each record of a frame: [frame_len] bytes when the header
    table configures it, and then any number of records; one record of any
    length otherwise. *)
Definition record_len (fr : Frame) : Z :=
  let spec := d_spec (p_desc (fr_dev fr)) in
  if 0 <? s_frameLen spec then s_frameLen spec else lenZ (fr_payload fr).

(** A frame the protocol allows for the group. *)
Record frame_ok (g : DeviceGroup) (fr : Frame) : Prop := {
  fo_dev : byFrameType g (s_frameType (d_spec (p_desc (fr_dev fr)))) = Some (fr_dev fr);
  fo_type : is_byte (s_frameType (d_spec (p_desc (fr_dev fr))));
  fo_flag : is_byte (fr_flag fr);
  fo_trail : is_byte (fr_trail fr);
  fo_lead : let spec := d_spec (p_desc (fr_dev fr)) in
            d_isEvent (p_desc (fr_dev fr)) = true -> s_startFlag spec <> 0 ->
            fr_flag fr = s_startFlag spec;
  fo_len : 0 < lenZ (fr_payload fr);
  fo_max : kHeaderSize + lenZ (fr_payload fr) + 1 <= kMaxFrame;
  fo_fits : record_fits (d_spec (p_desc (fr_dev fr))) (record_len fr) = true;
  fo_records : Forall (fun r => is_bytes (fst r) /\ lenZ (fst r) = record_len fr /\
                   record_at (bigEndian (p_desc (fr_dev fr))) (d_spec (p_desc (fr_dev fr)))
                     (fst r) (snd r)) (fr_records fr);
}.

Lemma le_bytes_2 v : le_bytes 2 v = [v mod 256; v / 256 mod 256].
Proof. done. Qed.

Lemma lor_le2 v : 0 <= v < 2 ^ 16 -> Z.lor (v mod 256) (Z.shiftl (v / 256 mod 256) 8) = v.
Proof.
  intros Hv. rewrite Z.shiftl_mul_pow2, Z.lor_comm by lia.
  pose proof (Z.mod_pos_bound v 256 ltac:(lia)). rewrite <- add_is_lor by lia. change (2 ^ 8) with 256.
  rewrite (Z.mod_small (v / 256)) by (split; [apply Z.div_pos; lia|apply Z.div_lt_upper_bound; lia]).
  pose proof (Z.div_mod v 256 ltac:(lia)). lia.
Qed.

Lemma is_byte_mod v : is_byte (v mod 256).
Proof. apply Z.mod_pos_bound. lia. Qed.

#[export] Hint Resolve is_byte_mod : ether.

Section Frame.
Context (g : DeviceGroup) (ts : Z) (Hg : group_ok g) (fr : Frame) (Hfr : frame_ok g fr).
Let dev := fr_dev fr.
Let spec := d_spec (p_desc dev).

Lemma frame_dev_ok : device_ok (p_desc dev).
Proof. eapply byFrameType_ok; [exact Hg|apply (fo_dev _ _ Hfr)]. Qed.

Lemma frame_payload_bytes : is_bytes (fr_payload fr).
Proof.
  apply is_bytes_concat. apply Forall_map. eapply Forall_impl; [apply (fo_records _ _ Hfr)|].
  by intros r (? & _).
Qed.

Lemma frame_bytes : is_bytes (encode_frame fr).
Proof.
  unfold encode_frame, is_bytes. rewrite !Forall_app. split_and!.
  - repeat constructor; apply Hfr.
  - apply le_bytes_is_bytes.
  - apply le_bytes_is_bytes.
  - apply frame_payload_bytes.
  - destruct (fr_trail fr =? 0); repeat constructor; apply Hfr.
Qed.

Lemma frame_size : lenZ (encode_frame fr) =
  kHeaderSize + lenZ (fr_payload fr) + (if fr_trail fr =? 0 then 0 else 1).
Proof.
  unfold encode_frame. rewrite !le_bytes_2. autorewrite with lenZ. unfold kHeaderSize.
  destruct (fr_trail fr =? 0); autorewrite with lenZ; lia.
Qed.

(** [n] records of [rb] bytes each, cut at the record size. *)
Lemma frame_rows_records recs tail rb :
  0 <= rb ->
  Forall (fun r => lenZ (fst r) = rb /\
            record_at (bigEndian (p_desc dev)) spec (fst r) (snd r)) recs ->
  Forall field_ok (s_fields spec) ->
  (forall f, f ∈ s_fields spec -> f_byteOffset f + f_size f <= rb) ->
  frame_rows dev ts (concat (map fst recs) ++ tail) rb (length recs) =
  map (fun r => mkRow dev ts (value_cells spec (snd r))) recs.
Proof.
  intros Hrb Hrecs Hok Hfit. induction Hrecs as [|r recs [Hl Hat] _ IH]; [done|].
  cbn [length map concat]. rewrite frame_rows_S, <- app_assoc by done.
  rewrite (dropZ_app_length rb) by lia. f_equal; [|exact IH]. f_equal.
  rewrite <- (record_cells_wire (bigEndian (p_desc dev)) spec (fst r)) by done.
  unfold record_cells. apply map_ext_in. intros f Hf%list_elem_of_In. unfold field_cell.
  pose proof (Hfit f Hf). rewrite Forall_forall in Hok. pose proof (Hok f Hf) as Hfo.
  pose proof (field_size_bounds f Hfo). destruct Hfo as (_ & _ & _ & _ & Ho & _).
  rewrite dropZ_app_le, takeZ_app_le by (rewrite ?lenZ_dropZ; lia). done.
Qed.

Lemma frame_record_count :
  Z.to_nat (recordCount (lenZ (fr_payload fr)) (record_len fr)) = length (fr_records fr).
Proof.
  assert (lenZ (fr_payload fr) = lenZ (fr_records fr) * record_len fr) as HL.
  { unfold fr_payload. pose proof (fo_records _ _ Hfr) as H. revert H.
    generalize (record_len fr) as rb. intros rb. induction 1 as [|r rs (_ & Hl & _) _ IH]; simpl.
    - done.
    - rewrite lenZ_app, lenZ_cons, IH, Hl. lia. }
  pose proof (fo_len _ _ Hfr) as Hp. pose proof (lenZ_nonneg (fr_records fr)) as Hn.
  assert (0 < record_len fr) as Hr by nia.
  assert (0 < lenZ (fr_records fr)) as Hn0 by nia.
  unfold recordCount. rewrite HL, Z.mod_mul, Z.div_mul by lia.
  destruct (Z.ltb_spec 0 (record_len fr)); [|lia].
  destruct (Z.leb_spec (record_len fr) (lenZ (fr_records fr) * record_len fr)); [|nia].
  simpl. unfold lenZ. apply Nat2Z.id.
Qed.

Lemma frame_record_len_le : record_len fr <= lenZ (fr_payload fr).
Proof.
  pose proof (fo_records _ _ Hfr) as Hrec. pose proof (fo_len _ _ Hfr) as Hlen.
  unfold fr_payload in *. destruct (fr_records fr) as [|r rs]; [done|].
  apply Forall_cons in Hrec as [(_ & <- & _) _]. simpl. rewrite lenZ_app.
  pose proof (lenZ_nonneg (concat (map fst rs))). lia.
Qed.

Lemma frame_fits_record :
  s_payloadMin spec <= record_len fr /\
  (forall f, f ∈ s_fields spec -> f_byteOffset f + f_size f <= record_len fr) /\
  s_fields spec <> [].
Proof.
  pose proof (fo_fits _ _ Hfr) as H. fold dev in H. fold spec in H. unfold record_fits in H.
  bool_to_prop. rewrite forallb_forall in H0. split_and!; [done| |by destruct (s_fields spec)].
  intros f Hf%list_elem_of_In. specialize (H0 f Hf). unfold field_fits in H0. by bool_to_prop.
Qed.

(** The bytes of a frame, as the slicer reads them. *)
Lemma frame_layout rest : exists t,
  encode_frame fr ++ rest =
    s_frameType spec :: fr_flag fr :: lenZ (fr_payload fr) mod 256 ::
    lenZ (fr_payload fr) / 256 mod 256 :: t /\
  dropZ 6 (encode_frame fr ++ rest) =
    fr_payload fr ++ (if fr_trail fr =? 0 then [] else [fr_trail fr]) ++ rest.
Proof.
  unfold encode_frame. rewrite !le_bytes_2. rewrite <- !app_assoc. by eexists.
Qed.

(** The header checks of [feed] let the frame through to its decoding. *)
Lemma feed_step_dispatch rest st :
  feed_step g ts (encode_frame fr ++ rest) st =
  feedFrame dev ts (encode_frame fr ++ rest) (lenZ (fr_payload fr))
    (if fr_trail fr =? 0 then 0 else 1) (fr_trail fr) st.
Proof.
  pose proof frame_size as Hsz. pose proof (fo_max _ _ Hfr) as Hmax. pose proof (fo_len _ _ Hfr) as Hlen.
  destruct frame_fits_record as (Hmin & _ & Hne). pose proof frame_record_len_le as Hle.
  destruct (frame_layout rest) as (t & Et & _). pose proof (lenZ_nonneg rest) as Hrl.
  unfold kHeaderSize, kMaxFrame in *. unfold feed_step. rewrite lenZ_app, Hsz.
  set (tail := if fr_trail fr =? 0 then 0 else 1) in *.
  assert (tail = 0 \/ tail = 1) as Ht by (unfold tail; destruct (fr_trail fr =? 0); auto).
  unfold kHeaderSize, kMaxFrame.
  destruct (Z.ltb_spec (6 + lenZ (fr_payload fr) + tail + lenZ rest) 6); [lia|].
  assert (rd (encode_frame fr ++ rest) 0 = Some (s_frameType spec) /\
          rd (encode_frame fr ++ rest) 1 = Some (fr_flag fr) /\
          rd (encode_frame fr ++ rest) 2 = Some (lenZ (fr_payload fr) mod 256) /\
          rd (encode_frame fr ++ rest) 3 = Some (lenZ (fr_payload fr) / 256 mod 256))
    as (-> & -> & -> & ->) by (by rewrite Et).
  cbn [mbind option_bind]. rewrite lor_le2 by lia. unfold spec at 1, dev at 1.
  rewrite (fo_dev _ _ Hfr). fold dev. fold spec.
  pose proof (fo_lead _ _ Hfr) as Hlead. cbv zeta in Hlead. fold dev in Hlead. fold spec in Hlead.
  change (if d_isEvent (p_desc dev) then s_endFlag spec else 0) with (fr_trail fr). fold tail.
  destruct (s_fields spec) as [|f0 fs0]; [done|]. cbv zeta.
  rewrite (proj2 (Z.eqb_neq (lenZ (fr_payload fr)) 0)) by lia.
  match goal with |- (if ?b then _ else _) = _ => assert (b = false) as -> end.
  { destruct (d_isEvent (p_desc dev)); [|done].
    destruct (Z.eqb_spec (s_startFlag spec) 0); [done|]. simpl.
    rewrite Hlead by done. by rewrite Z.eqb_refl. }
  rewrite (proj2 (Z.eqb_neq (lenZ (fr_payload fr)) 0)) by lia.
  rewrite (proj2 (Z.ltb_ge (lenZ (fr_payload fr)) (s_payloadMin spec))) by lia.
  rewrite Z.gtb_ltb, (proj2 (Z.ltb_ge _ _)) by lia. cbn [orb].
  by rewrite (proj2 (Z.ltb_ge _ _)) by lia.
Qed.

(** One iteration consumes one frame and pushes its records. *)
Lemma feed_step_frame rest st :
  is_bytes rest -> slicing_ok st ->
  exists st', slicing_ok st' /\ sl_resyncs st' = sl_resyncs st /\
    sl_frames st' = u64 (sl_frames st + 1) /\ sl_badFrames st' = sl_badFrames st /\
    feed_step g ts (encode_frame fr ++ rest) st =
    Some (Advance (lenZ (encode_frame fr)) st' (frame_expected ts fr)).
Proof.
  intros Hrest Hst. pose proof frame_dev_ok as Hd. pose proof frame_size as Hsz.
  pose proof (fo_max _ _ Hfr) as Hmax. pose proof (fo_len _ _ Hfr) as Hlen.
  destruct frame_fits_record as (Hmin & Hfit & _). pose proof frame_record_len_le as Hle.
  pose proof (fo_fits _ _ Hfr) as Hfits. fold dev in Hfits. fold spec in Hfits.
  destruct (frame_layout rest) as (t & _ & Edrop). rewrite feed_step_dispatch, Hsz.
  set (tail := if fr_trail fr =? 0 then 0 else 1) in *.
  assert (tail = 0 \/ tail = 1) as Ht by (unfold tail; destruct (fr_trail fr =? 0); auto).
  pose proof (lenZ_nonneg rest) as Hrl. unfold kHeaderSize, kMaxFrame in *.
  assert (is_bytes (encode_frame fr ++ rest)) as Hb
    by (apply Forall_app; split; [apply frame_bytes|done]).
  destruct (feedFrame_spec dev ts (encode_frame fr ++ rest) (lenZ (fr_payload fr)) tail (fr_trail fr) st)
    as (st' & Hok' & Hre & Hcnt & E); try done; unfold kHeaderSize, kMaxFrame in *;
    [fold spec; lia|rewrite lenZ_app; lia|lia|].
  fold spec in Hcnt, E. change (if 0 <? s_frameLen spec then _ else _) with (record_len fr) in Hcnt, E.
  rewrite Hfits, Edrop, frame_record_count in E.
  destruct (Hcnt Hfits) as [Hc1 Hc2]. exists st'. split_and!; try done. rewrite E.
  do 2 f_equal. apply frame_rows_records; [| |apply Hd|done].
  - destruct Hd as (_ & Hd & _). fold spec in Hd. lia.
  - eapply Forall_impl; [apply (fo_records _ _ Hfr)|]. by intros r (_ & ? & ?).
Qed.
End Frame.

(** ** Modbus responses *)

(** One register-read response: with an MBAP header (response header length 7
    or 9) the transaction id and the header bytes after the MBAP prefix; without
    (0 or 2) only the header bytes; then the registers and the values in them. *)
Record Response := mkResponse {
  rs_tid : Z;
  rs_head : list Z;
  rs_payload : list Z;
  rs_values : list Z;
}.

Definition has_mbap (spec : FrameSpec) : bool := (s_frameType spec =? 7) || (s_frameType spec =? 9).

Definition encode_response (spec : FrameSpec) (m : Response) : list Z :=
  (if has_mbap spec
   then int_bytes true 2 (rs_tid m) ++ [0; 0] ++
        int_bytes true 2 (lenZ (rs_head m) + lenZ (rs_payload m))
   else []) ++ rs_head m ++ rs_payload m.

Definition response_expected (dev : DevicePtr) (ts : Z) (m : Response) : Row :=
  mkRow dev ts (value_cells (d_spec (p_desc dev)) (rs_values m)).

Record response_ok (d : DeviceDesc) (m : Response) : Prop := {
  ro_head : is_bytes (rs_head m);
  ro_payload : is_bytes (rs_payload m);
  ro_hdr : lenZ (rs_head m) = if has_mbap (d_spec d) then s_frameType (d_spec d) - 6
                              else s_frameType (d_spec d);
  ro_max : s_frameType (d_spec d) + lenZ (rs_payload m) <= kMaxFrame;
  ro_fixed : has_mbap (d_spec d) = false -> lenZ (rs_payload m) = s_payloadMin (d_spec d);
  ro_fits : record_fits (d_spec d) (lenZ (rs_payload m)) = true;
  ro_record : record_at (modbusBigEndian d) (d_spec d) (rs_payload m) (rs_values m);
}.

Lemma int_bytes_be2 v : int_bytes true 2 v = [v / 256 mod 256; v mod 256].
Proof. done. Qed.

Lemma lor_be2 v : 0 <= v < 2 ^ 16 -> Z.lor (Z.shiftl (v / 256 mod 256) 8) (v mod 256) = v.
Proof. intros. rewrite Z.lor_comm. by apply lor_le2. Qed.

Section Response.
Context (dev : DevicePtr) (ts : Z) `{!ModbusReady (p_desc dev)} (m : Response)
  (Hm : response_ok (p_desc dev) m).
Let spec := d_spec (p_desc dev).

Lemma response_size :
  lenZ (encode_response spec m) = s_frameType spec + lenZ (rs_payload m).
Proof.
  pose proof (ro_hdr _ _ Hm) as H. fold spec in H. unfold encode_response.
  rewrite !int_bytes_be2, !lenZ_app, H. destruct (has_mbap spec); autorewrite with lenZ; lia.
Qed.

Lemma response_bytes : is_bytes (encode_response spec m).
Proof.
  unfold encode_response, is_bytes. rewrite !Forall_app. split_and!; [|apply Hm..].
  rewrite !int_bytes_be2. destruct (has_mbap spec); [|constructor].
  repeat (apply Forall_cons; split; [first [apply is_byte_mod|unfold is_byte; lia]|]). constructor.
Qed.

Lemma response_drop rest :
  dropZ (s_frameType spec) (encode_response spec m ++ rest) = rs_payload m ++ rest.
Proof.
  pose proof (ro_hdr _ _ Hm) as H. fold spec in H. unfold encode_response.
  rewrite !int_bytes_be2. destruct (has_mbap spec).
  - rewrite <- !app_assoc.
    rewrite (app_assoc [_; _]), (app_assoc (_ ++ _)), (app_assoc (_ ++ _)).
    apply dropZ_app_length. autorewrite with lenZ. lia.
  - rewrite app_nil_l, <- app_assoc. by apply dropZ_app_length.
Qed.

(** The cells only depend on the registers of this response. *)
Lemma response_cells rest :
  record_cells spec (modbusBigEndian (p_desc dev)) (rs_payload m ++ rest) =
  value_cells spec (rs_values m).
Proof.
  pose proof (@mr_device _ ModbusReady0) as (Hok & _).
  rewrite <- (record_cells_wire (modbusBigEndian (p_desc dev)) spec (rs_payload m)); [|done|apply Hm].
  pose proof (ro_fits _ _ Hm) as H. fold spec in H. unfold record_fits in H. bool_to_prop.
  rewrite forallb_forall in H0.
  unfold record_cells. apply map_ext_in. intros f Hf. unfold field_cell.
  specialize (H0 f Hf). unfold field_fits in H0. bool_to_prop.
  rewrite Forall_forall in Hok. specialize (Hok f (proj2 (list_elem_of_In _ _) Hf)).
  pose proof (field_size_bounds f Hok). destruct Hok as (_ & _ & _ & _ & Ho & _).
  by rewrite dropZ_app_le, takeZ_app_le by (rewrite ?lenZ_dropZ; lia).
Qed.

Lemma response_frame rest st total :
  is_bytes rest -> modbus_ok (p_desc dev) st -> total = lenZ (encode_response spec m) ->
  exists st', modbus_ok (p_desc dev) st' /\ sl_resyncs st' = sl_resyncs st /\
    sl_frames st' = u64 (sl_frames st + 1) /\ sl_badFrames st' = sl_badFrames st /\
    modbusFrame dev ts (encode_response spec m ++ rest) (s_frameType spec) total
      (lenZ (rs_payload m)) st = Some (Advance total st' [response_expected dev ts m]).
Proof.
  intros Hrest Hok ->. pose proof response_size as Hsz.
  pose proof (ro_fits _ _ Hm) as Hf. fold spec in Hf. pose proof (ro_max _ _ Hm) as Hmax.
  fold spec in Hmax. pose proof (lenZ_nonneg (rs_payload m)). pose proof (lenZ_nonneg rest).
  assert (s_payloadMin spec <= lenZ (rs_payload m)) as Hmin.
  { unfold record_fits in Hf. by bool_to_prop. }
  assert (0 <= s_frameType spec) as Hft.
  { pose proof (@mr_header _ ModbusReady0) as Hh. unfold isModbusHeaderLen in Hh. fold spec in Hh.
    rewrite !orb_true_iff, !Z.eqb_eq in Hh. lia. }
  unfold kMaxFrame in Hmax.
  destruct (modbusFrame_spec dev ts (encode_response spec m ++ rest) (s_frameType spec)
    (lenZ (encode_response spec m)) (lenZ (rs_payload m)) st) as (st' & Hok' & Hc & E); try done; try lia.
  - apply Forall_app. split; [apply response_bytes|done].
  - rewrite lenZ_app. lia.
  - fold spec in Hc, E. rewrite Hf in E, Hc. destruct (Hc eq_refl) as (? & ? & ?).
    exists st'. split_and!; try done. by rewrite E, response_drop, response_cells.
Qed.

(** One iteration consumes one response and pushes its row. *)
Lemma modbus_step_response rest st :
  is_bytes rest -> modbus_ok (p_desc dev) st ->
  exists st', modbus_ok (p_desc dev) st' /\ sl_resyncs st' = sl_resyncs st /\
    sl_frames st' = u64 (sl_frames st + 1) /\ sl_badFrames st' = sl_badFrames st /\
    modbus_step dev ts (encode_response spec m ++ rest) st =
    Some (Advance (lenZ (encode_response spec m)) st' [response_expected dev ts m]).
Proof.
  intros Hrest Hst. pose proof response_size as Hsz.
  destruct (response_frame rest st _ Hrest Hst eq_refl) as (st' & Hok' & Hr & Hf & Hb & E).
  exists st'. split_and!; try done. rewrite <- E.
  pose proof (ro_hdr _ _ Hm) as Hhdr. pose proof (ro_max _ _ Hm) as Hmax.
  pose proof (ro_fits _ _ Hm) as Hfit. fold spec in Hhdr, Hmax, Hfit. unfold record_fits in Hfit. bool_to_prop.
  pose proof (lenZ_nonneg rest). pose proof (lenZ_nonneg (rs_payload m)).
  unfold modbus_step. fold spec. fold (has_mbap spec).
  destruct (has_mbap spec) eqn:Hmb.
  - assert (7 <= s_frameType spec) as Hft.
    { unfold has_mbap in Hmb. rewrite orb_true_iff, !Z.eqb_eq in Hmb. lia. }
    assert (exists t, encode_response spec m ++ rest =
      rs_tid m / 256 mod 256 :: rs_tid m mod 256 :: 0 :: 0 ::
      (lenZ (rs_head m) + lenZ (rs_payload m)) / 256 mod 256 ::
      (lenZ (rs_head m) + lenZ (rs_payload m)) mod 256 :: t) as [t Et].
    { unfold encode_response. rewrite Hmb, !int_bytes_be2. by eexists. }
    assert (mbapScan (encode_response spec m ++ rest) 0 = Some 0) as -> by by rewrite Et.
    rewrite dropZ_0. cbn [Z.eqb]. unfold modbusResponse. fold spec.
    rewrite lenZ_app. destruct (Z.ltb_spec (lenZ (encode_response spec m) + lenZ rest) 6); [lia|].
    assert (rd (encode_response spec m ++ rest) 4 =
              Some ((lenZ (rs_head m) + lenZ (rs_payload m)) / 256 mod 256) /\
            rd (encode_response spec m ++ rest) 5 =
              Some ((lenZ (rs_head m) + lenZ (rs_payload m)) mod 256)) as [-> ->] by by rewrite Et.
    cbn [mbind option_bind]. unfold kMaxFrame in *. rewrite lor_be2 by lia.
    rewrite (proj2 (Z.ltb_ge _ 1)) by lia. rewrite Z.gtb_ltb.
    rewrite (proj2 (Z.ltb_ge (64 * 1024) _)) by lia.
    rewrite (proj2 (Z.ltb_ge _ (s_frameType spec))) by lia. cbn [orb].
    rewrite (proj2 (Z.ltb_ge _ (6 + _))) by lia.
    rewrite (proj2 (Z.ltb_ge _ (s_payloadMin spec))) by lia.
    replace (6 + (lenZ (rs_head m) + lenZ (rs_payload m))) with (lenZ (encode_response spec m)) by lia.
    replace (lenZ (encode_response spec m) - s_frameType spec) with (lenZ (rs_payload m)) by lia.
    rewrite E. done.
  - pose proof (ro_fixed _ _ Hm Hmb) as Hfix. fold spec in Hfix. rewrite <- Hfix, Z.gtb_ltb, <- Hsz.
    rewrite (proj2 (Z.ltb_ge kMaxFrame _)) by (rewrite Hsz; lia).
    by rewrite (proj2 (Z.ltb_ge _ (lenZ (encode_response spec m)))) by (rewrite lenZ_app; lia).
Qed.
End Response.
