(* ===== verification/FrameCodecProps.v ===== *)
(** * The frame codec: properties

    Safety, independence from segmentation and the round trip with the wire
    format for both stream slicers of [src/src/adapter/FrameCodec.cpp], and the
    functional correctness of [decodePayload]. *)

From stdpp Require Import base list numbers gmap strings.
From Stdlib Require Import ZArith Lia.
From S2P Require Import Prelude DeviceModel Floats FrameCodec FrameCodecLoads Slicer FrameCodecStream FrameCodecWire.
Local Open Scope Z_scope.

(** ** Streams of encoded units *)

Section Units.
Context {step : list Z -> Slicing -> option Step} {ok : Slicing -> Prop} {P : Row -> Prop}.
Context `{!SlicerLaws step ok P}.
Context {U : Type} (enc : U -> list Z) (out : U -> list Row) (okU : U -> Prop).
Context (Henc : forall u, okU u -> is_bytes (enc u)).
Context (Hok : forall st, ok st -> 0 <= sl_frames st < 2 ^ 64).
Context (Hstop : forall st, ok st -> step [] st = Some (Break 0 st)).
Context (Hunit : forall u rest st, okU u -> is_bytes rest -> ok st ->
  exists st', ok st' /\ sl_resyncs st' = sl_resyncs st /\
    sl_frames st' = u64 (sl_frames st + 1) /\ sl_badFrames st' = sl_badFrames st /\
    step (enc u ++ rest) st = Some (Advance (lenZ (enc u)) st' (out u))).

Lemma units_bytes us : Forall okU us -> is_bytes (concat (map enc us)).
Proof.
  intros H. apply is_bytes_concat, Forall_map. eapply Forall_impl; [exact H|apply Henc].
Qed.

(** Each unit is consumed by one iteration, nothing is left or skipped. *)
Lemma slices_units us : forall st, Forall okU us -> ok st ->
  exists st', slices step (concat (map enc us)) st [] st' (concat (map out us)) /\ ok st' /\
    sl_frames st' = u64 (sl_frames st + lenZ us) /\ sl_resyncs st' = sl_resyncs st /\
    sl_badFrames st' = sl_badFrames st.
Proof.
  induction us as [|u us IH]; intros st Hus Hst.
  - exists st. split_and!; try done.
    + change (concat (map enc [])) with (@nil Z). exact (slices_break step [] st 0 st (Hstop st Hst)).
    + rewrite lenZ_nil, Z.add_0_r. symmetry. by apply uwrap_small, Hok.
  - apply Forall_cons in Hus as [Hu Hus].
    destruct (Hunit u (concat (map enc us)) st Hu (units_bytes us Hus) Hst)
      as (st1 & Hok1 & Hr1 & Hf1 & Hb1 & E).
    destruct (IH st1 Hus Hok1) as (st2 & Hs & Hok2 & Hf2 & Hr2 & Hb2).
    exists st2. cbn [map concat]. split_and!; try done; [|rewrite Hf2, Hf1, uwrap_add_l, lenZ_cons; f_equal; lia|congruence..].
    eapply slices_advance; [exact E|]. rewrite dropZ_app_length by done. exact Hs.
Qed.

(** The whole function on the units. *)
Lemma feedLoop_units us sl st :
  Forall okU us -> ok sl -> st_buf st = [] ->
  exists sl', feedLoop step (concat (map enc us)) sl st =
      Some (set_stream [] sl' st, concat (map out us)) /\
    sl_frames sl' = u64 (sl_frames sl + lenZ us) /\ sl_resyncs sl' = sl_resyncs sl /\
    sl_badFrames sl' = sl_badFrames sl.
Proof.
  intros Hus Hsl Hbuf.
  destruct (feedLoop_total (concat (map enc us)) sl st) as (rest & sl' & rows & E & Hs & _);
    [by rewrite Hbuf; constructor|by apply units_bytes|done|].
  destruct (slices_units us sl Hus Hsl) as (sl2 & Hs2 & _ & H).
  rewrite Hbuf in Hs. destruct (slices_det _ _ _ _ _ _ _ _ Hs Hs2) as (-> & -> & ->).
  by exists sl2.
Qed.
End Units.

(** One call per segment of a cut stream, through the interface. *)
Lemma feed_calls_cut {S O} `{ByteStream S O} (s : S) segs data :
  bs_ok s -> segs <> [] -> Forall is_bytes segs -> concat segs = data ->
  feed_calls bs_feed s segs = bs_feed s data.
Proof.
  intros Hok Hne Hb <-. destruct segs as [|d segs]; [done|].
  apply Forall_cons in Hb as [Hd Hsegs]. by rewrite feed_calls_concat.
Qed.

Lemma is_bytes_segments segs : is_bytes (concat segs) -> Forall is_bytes segs.
Proof.
  induction segs as [|d segs IH]; simpl; [by constructor|].
  intros [Hd Hs]%Forall_app. constructor; auto.
Qed.

(** A small configuration the examples use: one peer with a status table
    (frame type 1: a signed 16-bit value, a 4-bit field and a float) and an
    event table (frame type 2, delimiter 0xEE, records of 3 bytes). *)
Module Demo.
Definition fld (k : FieldKind) (size off bo bl : Z) (fp : bool) : FieldDesc :=
  {| f_name := "x"; f_unit := ""; f_kind := k; f_size := size; f_byteOffset := off;
     f_bitOffset := bo; f_bitLen := bl; f_precision := 0; f_outSize := 8; f_bindType := 0;
     f_colType := ""; f_asDouble := fp |}.
Definition spec (ft flen sflag eflag pmin : Z) (fs : list FieldDesc) : FrameSpec :=
  {| s_dataProtoId := 1; s_frameType := ft; s_frameLen := flen; s_startFlag := sflag;
     s_endFlag := eflag; s_endian := 0; s_payloadMin := pmin; s_slaveAddr := 1;
     s_funCode := 3; s_startAddr := 0; s_addrNum := 2; s_fields := fs |}.
Definition dev (id : string) (proto : Z) (s : FrameSpec) (ev : bool) : DeviceDesc :=
  {| d_deviceId := id; d_deviceName := id; d_ip := "10.0.0.1"; d_devicePort := 502;
     d_connProto := proto; d_localServerPort := 0; d_dataProtoId := 1; d_endian := 0;
     d_spec := s; d_group := Some 0%nat; d_isEvent := ev; d_eventType := 0;
     d_immediateFlush := false |}.
Definition status : DevicePtr := mkPtr 0
  (dev "status" 1 (spec 1 0 0 0 7
     [fld IntSigned 2 0 0 0 false; fld IntUnsigned 1 2 4 4 false; fld Float32 4 3 0 0 true]) false).
Definition event : DevicePtr := mkPtr 1
  (dev "event" 1 (spec 2 3 0xEE 0xEE 3 [fld IntUnsigned 2 0 0 0 false; fld Bool 1 2 0 0 false]) true).
Definition group : DeviceGroup := mkGroup "10.0.0.1:502" [status; event].
Definition meter : DevicePtr := mkPtr 2
  (dev "meter" 2 (spec 9 0 0 0 4 [fld IntSigned 2 0 0 0 false; fld IntUnsigned 2 2 0 0 false]) false).
Definition serial : DevicePtr := mkPtr 3
  (dev "serial" 2 (spec 2 0 0 0 70000 [fld IntSigned 2 69998 0 0 false]) false).

Lemma group_is_ok : group_ok group.
Proof. by apply group_okb_ok. Qed.

#[export] Instance meter_ready : ModbusReady (p_desc meter).
Proof. constructor; [by apply spec_okb_ok|done|done|done|discriminate]. Qed.
End Demo.

(** ** The custom_data slicer *)

(** C3: for any loaded peer group, any reachable stream state and any bytes,
    [FrameCodec::feed] returns: no read or write out of bounds, no bad shift,
    and fewer than 64 KiB stay pending, so the runaway cut never drops data. *)
Theorem feed_safe g ts st data :
  group_ok g -> stream_ok st -> is_bytes data ->
  exists st' rows, feed g ts st data = Some (st', rows) /\ stream_ok st'.
Proof. intros. by apply feed_total. Qed.

(** C4: what [feed] produces depends on the bytes received only, not on how
    TCP cut them: feeding any non-empty list of segments one after another gives
    the rows, counters and pending bytes of one call on their concatenation. *)
Theorem feed_segmentation g ts st segs :
  group_ok g -> stream_ok st -> segs <> [] -> Forall is_bytes segs ->
  feed_calls (feed g ts) st segs = feed g ts st (concat segs).
Proof. intros Hg Hst Hne Hb. by apply (@feed_calls_cut _ _ (feed_stream g ts Hg)). Qed.

Lemma feed_frames g ts st segs frames :
  group_ok g -> stream_ok st -> st_buf st = [] -> segs <> [] ->
  Forall (frame_ok g) frames -> concat segs = concat (map encode_frame frames) ->
  exists st', feed_calls (feed g ts) st segs = Some (st', concat (map (frame_expected ts) frames)) /\
    st_buf st' = [] /\
    sl_frames (st_slicing st') = u64 (sl_frames (st_slicing st) + lenZ frames) /\
    sl_resyncs (st_slicing st') = sl_resyncs (st_slicing st) /\
    sl_badFrames (st_slicing st') = sl_badFrames (st_slicing st).
Proof.
  intros Hg Hst Hbuf Hne Hfr Hcat.
  assert (forall fr, frame_ok g fr -> is_bytes (encode_frame fr)) as Henc by (intros; by eapply frame_bytes).
  assert (Forall is_bytes segs) as Hb.
  { apply is_bytes_segments. rewrite Hcat. by apply (units_bytes _ (frame_ok g)). }
  pose proof (@feed_calls_cut _ _ (feed_stream g ts Hg) st segs _ Hst Hne Hb Hcat) as Hcut.
  cbn [bs_feed feed_stream] in Hcut. rewrite Hcut. unfold feed. cbv zeta.
  destruct (@feedLoop_units _ _ _ (feed_slicer g ts Hg) _ encode_frame (frame_expected ts) (frame_ok g) Henc)
    with (us := frames) (sl := st_slicing st)
      (st := add_bytesIn (lenZ (concat (map encode_frame frames))) st) as (sl' & E & H); try done.
  - by intros s (? & _).
  - intros fr rest s Hok Hrest Hs. by apply feed_step_frame.
  - apply Hst.
  - eexists. split; [exact E|]. split; [done|exact H].
Qed.

(** C5: round trip.  A stream of frames built by the wire format (any mix of
    the group's devices, one or several records per frame, event delimiters),
    cut into segments anywhere, is decoded into exactly the values that were
    encoded, in order; nothing is left pending, no byte is skipped, no frame is
    counted bad. *)
Theorem feed_roundtrip g ts st segs frames :
  group_ok g -> stream_ok st -> st_buf st = [] -> segs <> [] ->
  Forall (frame_ok g) frames -> concat segs = concat (map encode_frame frames) ->
  exists st', feed_calls (feed g ts) st segs = Some (st', concat (map (frame_expected ts) frames)) /\
    st_buf st' = [] /\
    sl_frames (st_slicing st') = u64 (sl_frames (st_slicing st) + lenZ frames) /\
    sl_resyncs (st_slicing st') = sl_resyncs (st_slicing st) /\
    sl_badFrames (st_slicing st') = sl_badFrames (st_slicing st).
Proof. apply feed_frames. Qed.

(** ** The modbus slicer *)

(** C6: [FrameCodec::feedModbus] is safe in the same sense, for every device
    whose frames the header tables allow to be sliced. *)
Theorem feedModbus_safe dev ts st data :
  ModbusReady (p_desc dev) -> stream_ok st -> is_bytes data ->
  exists st' rows, feedModbus dev ts st data = Some (st', rows) /\ stream_ok st'.
Proof. intros H ? ?. by apply feedModbus_total. Qed.

(** C7: [feedModbus] does not depend on the segmentation either, the partial
    protocol-id match it keeps across calls included. *)
Theorem feedModbus_segmentation dev ts st segs :
  ModbusReady (p_desc dev) -> stream_ok st -> segs <> [] -> Forall is_bytes segs ->
  feed_calls (feedModbus dev ts) st segs = feedModbus dev ts st (concat segs).
Proof. intros HR Hst Hne Hb. by apply (@feed_calls_cut _ _ (modbus_stream dev ts)). Qed.

Lemma feedModbus_responses dev ts st segs ms :
  ModbusReady (p_desc dev) -> stream_ok st -> st_buf st = [] -> segs <> [] ->
  Forall (response_ok (p_desc dev)) ms ->
  concat segs = concat (map (encode_response (d_spec (p_desc dev))) ms) ->
  exists st', feed_calls (feedModbus dev ts) st segs = Some (st', map (response_expected dev ts) ms) /\
    st_buf st' = [] /\
    sl_frames (st_slicing st') = u64 (sl_frames (st_slicing st) + lenZ ms) /\
    sl_resyncs (st_slicing st') = sl_resyncs (st_slicing st) /\
    sl_badFrames (st_slicing st') = sl_badFrames (st_slicing st).
Proof.
  intros HR Hst Hbuf Hne Hms Hcat. set (spec := d_spec (p_desc dev)) in *.
  assert (forall m, response_ok (p_desc dev) m -> is_bytes (encode_response spec m)) as Henc
    by (intros; by apply (response_bytes dev)).
  assert (Forall is_bytes segs) as Hb.
  { apply is_bytes_segments. rewrite Hcat. by apply (units_bytes _ (response_ok (p_desc dev))). }
  pose proof (@feed_calls_cut _ _ (modbus_stream dev ts) st segs _ Hst Hne Hb Hcat) as Hcut.
  cbn [bs_feed modbus_stream] in Hcut. rewrite Hcut, (feedModbus_ready dev ts st _).
  destruct (growScratch_counters (fieldCount (p_desc dev)) (st_slicing st)) as (G1 & G2 & G3).
  destruct (@feedLoop_units _ _ _ (modbus_slicer dev ts) _ (encode_response spec)
      (fun m => [response_expected dev ts m]) (response_ok (p_desc dev)) Henc)
    with (us := ms) (sl := growScratch (fieldCount (p_desc dev)) (st_slicing st))
      (st := add_bytesIn (lenZ (concat (map (encode_response spec) ms))) st) as (sl' & E & Hf & Hr & Hbad); try done.
  - by intros s ((? & _) & _).
  - intros s Hs. unfold modbus_step. fold spec. cbn [lenZ length mbapScan].
    destruct (_ || _) eqn:H79; [by rewrite add_resyncs_0 by apply Hs|].
    pose proof (@mr_total _ HR H79) as Ht. pose proof (@mr_payload _ HR) as Hp. fold spec in Ht, Hp.
    pose proof (@mr_header _ HR) as Hh. unfold isModbusHeaderLen in Hh. fold spec in Hh.
    rewrite !orb_true_iff, !Z.eqb_eq in Hh.
    rewrite Z.gtb_ltb, (proj2 (Z.ltb_ge _ _)) by lia. unfold lenZ; simpl length.
    by rewrite (proj2 (Z.ltb_lt _ _)) by lia.
  - intros m rest s Hm Hrest Hs. by apply modbus_step_response.
  - by apply modbus_ok_grow, Hst.
  - eexists. split; [rewrite E; do 2 f_equal|].
    + clear. induction ms as [|m ms IH]; [done|]. simpl. by rewrite IH.
    + simpl. rewrite Hf, Hr, Hbad, G1, G2, G3. done.
Qed.

(** C8: round trip for modbus: responses encoded with their header (MBAP for
    the header lengths 7 and 9, none for 0 and 2), cut anywhere, are decoded
    into one row per response holding the encoded register values. *)
Theorem feedModbus_roundtrip dev ts st segs ms :
  ModbusReady (p_desc dev) -> stream_ok st -> st_buf st = [] -> segs <> [] ->
  Forall (response_ok (p_desc dev)) ms ->
  concat segs = concat (map (encode_response (d_spec (p_desc dev))) ms) ->
  exists st', feed_calls (feedModbus dev ts) st segs = Some (st', map (response_expected dev ts) ms) /\
    st_buf st' = [] /\
    sl_frames (st_slicing st') = u64 (sl_frames (st_slicing st) + lenZ ms) /\
    sl_resyncs (st_slicing st') = sl_resyncs (st_slicing st) /\
    sl_badFrames (st_slicing st') = sl_badFrames (st_slicing st).
Proof. apply feedModbus_responses. Qed.

(** A response without MBAP header that does not fit [kMaxFrame] is never
    sliced and never compacted: every byte received stays in the buffer, which
    grows without bound (the 256 KiB cut is skipped by the early return). *)
Theorem feedModbus_unbounded dev ts st segs :
  s_fields (d_spec (p_desc dev)) <> [] ->
  s_frameType (d_spec (p_desc dev)) = 0 \/ s_frameType (d_spec (p_desc dev)) = 2 ->
  kMaxFrame < s_frameType (d_spec (p_desc dev)) + s_payloadMin (d_spec (p_desc dev)) ->
  exists st', feed_calls (feedModbus dev ts) st segs = Some (st', []) /\
    st_buf st' = st_buf st ++ concat segs.
Proof.
  intros Hf Hft Hbig. revert st. induction segs as [|d segs IH]; intros st.
  - exists st. by rewrite app_nil_r.
  - assert (exists sl, feedModbus dev ts st d =
      Some (set_stream (st_buf st ++ d) sl (add_bytesIn (lenZ d) st), [])) as [sl E].
    { unfold feedModbus, isModbusHeaderLen, feedLoop, modbus_step.
      set (spec := d_spec (p_desc dev)) in *. destruct (s_fields spec); [done|].
      unfold kMaxFrame in *.
      assert (s_payloadMin spec =? 0 = false) as -> by lia.
      assert (s_frameType spec + s_payloadMin spec >? 64 * 1024 = true) as Hgt by (rewrite Z.gtb_ltb; lia).
      destruct Hft as [Hft|Hft]; rewrite Hft in *; cbn [Z.eqb orb negb slice mbind option_bind Pos.eqb];
        rewrite Hgt; by eexists. }
    cbn [feed_calls]. rewrite E. cbn [mbind option_bind].
    destruct (IH (set_stream (st_buf st ++ d) sl (add_bytesIn (lenZ d) st))) as (st' & E' & Hb).
    rewrite E'. exists st'. split; [done|]. rewrite Hb. simpl. by rewrite app_assoc.
Qed.

(** ** One record *)

(** C9: [decodePayload] stays in bounds, succeeds exactly when the record and
    all its fields fit the payload length, and then writes, over the first cells
    of the row, the value encoded in each field, whatever the row held before;
    the cells after them are untouched. *)
Theorem decodePayload_correct spec be payload payloadLen row :
  is_bytes payload -> spec_ok spec -> payloadLen < 2 ^ 32 -> payloadLen <= lenZ payload ->
  lenZ (s_fields spec) <= lenZ row ->
  exists row', decodePayload spec be payload payloadLen row = Some (record_fits spec payloadLen, row') /\
    length row' = length row /\
    forall vs, record_fits spec payloadLen = true -> record_at be spec payload vs ->
      row' = value_cells spec vs ++ dropZ (lenZ (s_fields spec)) row.
Proof.
  intros Hp Hs Hl Hlen Hrow.
  destruct (decodePayload_spec spec be payload payloadLen row) as (row' & E & L & F); try done; [lia|].
  exists row'. split_and!; try done. intros vs Hfit Hat. rewrite (F Hfit). f_equal.
  by apply record_cells_wire; [apply Hs|].
Qed.

(** A float field is published bit for bit: reading a [Float32] field and
    narrowing the cell again, as the writer does for a FLOAT column, gives back
    the 32 bits on the wire (a signalling NaN comes out quiet), and a [Float64]
    cell is the 64 bits on the wire. *)
Theorem float_field_exact f be p v :
  is_bytes p -> field_ok f -> f_byteOffset f + f_size f <= lenZ p -> value_in f v ->
  field_at be p f v ->
  exists c, decodeCell f be (dropZ (f_byteOffset f) p) = Some c /\
    (f_kind f = Float32 ->
     f64_to_f32 (cell_d c) = if f32_is_nan v then Z.lor v (2 ^ 22) else v) /\
    (f_kind f = Float64 -> cell_d c = v).
Proof.
  intros Hp Hf Hl Hv Hat. exists (value_cell f v). split_and!.
  - rewrite decodeCell_spec by done. f_equal. by apply field_cell_wire.
  - intros K. unfold value_cell, value_in in *. rewrite K in *.
    pose proof Hf as (_ & H32 & _). rewrite H32 in Hv by done.
    rewrite cell_d_wrap; [by apply f32_roundtrip|]. apply f32_to_f64_range.
  - intros K. unfold value_cell, value_in in *. rewrite K in *.
    pose proof Hf as (_ & _ & H64 & _). rewrite H64 in Hv by done. by apply cell_d_wrap.
Qed.

(** ** Instances

    Each property at a concrete configuration and input. *)

Ltac solve_bytes := repeat (apply Forall_cons; split; [unfold is_byte; lia|]); apply Forall_nil; exact I.
Ltac solve_record :=
  unfold record_at; cbn [s_fields]; repeat (apply Forall2_cons; split; [split; [vm_compute; intuition congruence|reflexivity]|]);
  apply Forall2_nil; exact I.

(** A status record (-2, 0xA in the 4-bit field's byte, 1.0f) and two event records. *)
Definition status_frame : Frame := mkFrame Demo.status 0 9
  [([0xFE; 0xFF; 0xA3; 0; 0; 0x80; 0x3F], [-2; 10; 0x3F800000])].
Definition event_frame : Frame := mkFrame Demo.event 0xEE 10
  [([0x34; 0x12; 1], [0x1234; 1]); ([5; 0; 0], [5; 0])].

Lemma feed_safe_witness :
  exists st' rows, feed Demo.group 7 DeviceStream0 [1; 0; 7; 0; 99] = Some (st', rows) /\ stream_ok st'.
Proof.
  apply feed_safe; [apply Demo.group_is_ok|apply stream0_ok|solve_bytes].
Defined.

Lemma feed_segmentation_witness :
  feed_calls (feed Demo.group 7) DeviceStream0 [[1; 0; 7]; [0; 0]; [0; 0xFE; 0xFF]] =
  feed Demo.group 7 DeviceStream0 [1; 0; 7; 0; 0; 0; 0xFE; 0xFF].
Proof.
  apply (feed_segmentation Demo.group 7 DeviceStream0 [[1; 0; 7]; [0; 0]; [0; 0xFE; 0xFF]]);
    [apply Demo.group_is_ok|apply stream0_ok|discriminate|].
  repeat (apply Forall_cons; split; [solve_bytes|]); apply Forall_nil; exact I.
Defined.

Ltac solve_frame :=
  constructor; try reflexivity; try (unfold is_byte; simpl; lia); try (intros; reflexivity);
  try (vm_compute; intuition congruence);
  repeat (apply Forall_cons; split; [split; [solve_bytes|split; [reflexivity|solve_record]]|]);
  apply Forall_nil; exact I.

Lemma feed_roundtrip_witness : exists st',
  feed_calls (feed Demo.group 7) DeviceStream0
    [[1; 0; 7; 0; 9]; [0; 0xFE; 0xFF; 0xA3; 0; 0; 0x80; 0x3F; 2; 0xEE; 6; 0; 10; 0; 0x34];
     [0x12; 1; 5; 0; 0; 0xEE]] =
  Some (st', concat (map (frame_expected 7) [status_frame; event_frame])) /\ st_buf st' = [] /\
  sl_frames (st_slicing st') = 2 /\ sl_resyncs (st_slicing st') = 0 /\
  sl_badFrames (st_slicing st') = 0.
Proof.
  apply (feed_roundtrip Demo.group 7 DeviceStream0 _ [status_frame; event_frame]);
    [apply Demo.group_is_ok|apply stream0_ok|reflexivity|discriminate| |reflexivity].
  apply Forall_cons; split; [|apply Forall_cons; split; [|apply Forall_nil; exact I]].
  - solve_frame.
  - solve_frame.
Defined.

Lemma feedModbus_safe_witness :
  exists st' rows, feedModbus Demo.meter 7 DeviceStream0 [0; 1; 0; 0; 0; 7; 1; 3; 4; 0] = Some (st', rows) /\
    stream_ok st'.
Proof. apply feedModbus_safe; [apply Demo.meter_ready|apply stream0_ok|solve_bytes]. Defined.

Lemma feedModbus_segmentation_witness :
  feed_calls (feedModbus Demo.meter 7) DeviceStream0 [[9; 9; 9; 0]; [1; 0; 0; 0; 7; 1; 3; 4; 0; 5; 0; 6]] =
  feedModbus Demo.meter 7 DeviceStream0 [9; 9; 9; 0; 1; 0; 0; 0; 7; 1; 3; 4; 0; 5; 0; 6].
Proof.
  apply (feedModbus_segmentation Demo.meter 7 DeviceStream0 [[9; 9; 9; 0]; [1; 0; 0; 0; 7; 1; 3; 4; 0; 5; 0; 6]]);
    [apply Demo.meter_ready|apply stream0_ok|discriminate|].
  repeat (apply Forall_cons; split; [solve_bytes|]); apply Forall_nil; exact I.
Defined.

Lemma feedModbus_roundtrip_witness : exists st',
  feed_calls (feedModbus Demo.meter 7) DeviceStream0 [[0; 1; 0; 0; 0]; [7; 1; 3; 4; 0xFF; 0xFB; 0; 6]] =
  Some (st', map (response_expected Demo.meter 7) [mkResponse 1 [1; 3; 4] [0xFF; 0xFB; 0; 6] [-5; 6]]) /\
  st_buf st' = [] /\ sl_frames (st_slicing st') = 1 /\ sl_resyncs (st_slicing st') = 0 /\
  sl_badFrames (st_slicing st') = 0.
Proof.
  apply (feedModbus_roundtrip Demo.meter 7 DeviceStream0 _ [mkResponse 1 [1; 3; 4] [0xFF; 0xFB; 0; 6] [-5; 6]]);
    [apply Demo.meter_ready|apply stream0_ok|reflexivity|discriminate| |reflexivity].
  apply Forall_cons; split; [|apply Forall_nil; exact I].
  constructor; try reflexivity; try discriminate; try solve_bytes; try (vm_compute; intuition congruence).
  solve_record.
Defined.

Lemma feedModbus_unbounded_witness : exists st',
  feed_calls (feedModbus Demo.serial 7) DeviceStream0 [[1; 2]; [3]; [4; 5]] = Some (st', []) /\
  st_buf st' = [1; 2; 3; 4; 5].
Proof.
  apply (feedModbus_unbounded Demo.serial 7 DeviceStream0 [[1; 2]; [3]; [4; 5]]);
    [discriminate|right; reflexivity|reflexivity].
Defined.

Lemma decodePayload_correct_witness :
  exists row', decodePayload (d_spec (p_desc Demo.status)) false [0xFE; 0xFF; 0xA3; 0; 0; 0x80; 0x3F] 7
      [Cell0; Cell0; Cell0; mkCell 77 1] = Some (true, row') /\
    length row' = 4%nat /\
    forall vs, true = true ->
      record_at false (d_spec (p_desc Demo.status)) [0xFE; 0xFF; 0xA3; 0; 0; 0x80; 0x3F] vs ->
      row' = value_cells (d_spec (p_desc Demo.status)) vs ++ [mkCell 77 1].
Proof.
  apply (decodePayload_correct (d_spec (p_desc Demo.status)) false [0xFE; 0xFF; 0xA3; 0; 0; 0x80; 0x3F] 7);
    [solve_bytes|by apply spec_okb_ok|lia|discriminate|discriminate].
Defined.

Lemma float_field_exact_witness :
  exists c, decodeCell (Demo.fld Float32 4 1 0 0 true) true (dropZ 1 [9; 0x7F; 0x80; 0; 1]) = Some c /\
    (Float32 = Float32 -> f64_to_f32 (cell_d c) = 0x7FC00001) /\
    (Float32 = Float64 -> cell_d c = 0x7F800001).
Proof.
  apply (float_field_exact (Demo.fld Float32 4 1 0 0 true) true [9; 0x7F; 0x80; 0; 1] 0x7F800001);
    [solve_bytes|by apply field_okb_ok|discriminate|split; [discriminate|reflexivity]|reflexivity].
Defined.
