(* ===== verification/CText.v ===== *)
(** * Text as the C library reads and writes it

    [strtoll], [strtoul] and [atoi], [std::to_string] of integers, the
    substring searches and [operator<] of [std::string], as far as
    [src/src/adapter] uses them.  A [std::string] is a [string]; its bytes are
    the codes of its characters. *)

From stdpp Require Import base list numbers strings pretty.
From Stdlib Require Import ZArith Lia Ascii.
From Stdlib Require String.
From Stdlib Require Import OrdersEx.
From S2P Require Import Prelude.
Local Open Scope Z_scope.

(** ** Characters *)

(** The unsigned code of a byte. *)
Definition code (c : ascii) : Z := Z.of_N (N_of_ascii c).

Definition is_digit (c : ascii) : bool := (48 <=? code c) && (code c <=? 57).
Definition is_lower (c : ascii) : bool := (97 <=? code c) && (code c <=? 122).
Definition is_upper (c : ascii) : bool := (65 <=? code c) && (code c <=? 90).

(** [isspace] in the C locale *)
Definition is_space (c : ascii) : bool := (code c =? 32) || ((9 <=? code c) && (code c <=? 13)).

(** The value of a digit in a base up to 16. *)
Definition digit_value (base : Z) (c : ascii) : option Z :=
  let v := if is_digit c then code c - 48
           else if is_lower c then code c - 87
           else if is_upper c then code c - 55
           else base in
  if v <? base then Some v else None.

(** ** Numbers from text *)

(** Accumulate digits: the value and the number of digits read. *)
Fixpoint scan_digits (base acc n : Z) (s : string) : Z * Z :=
  match s with
  | String.String c s' =>
      match digit_value base c with
      | Some v => scan_digits base (acc * base + v) (n + 1) s'
      | None => (acc, n)
      end
  | String.EmptyString => (acc, n)
  end.

Fixpoint skip_space (s : string) : string :=
  match s with
  | String.String c s' => if is_space c then skip_space s' else s
  | String.EmptyString => s
  end.

(** The optional sign: negative or not, and the rest. *)
Definition scan_sign (s : string) : bool * string :=
  match s with
  | String.String c s' =>
      if code c =? 45 then (true, s') else if code c =? 43 then (false, s') else (false, s)
  | String.EmptyString => (false, s)
  end.

(** Base 0: [0x] before a hexadecimal digit selects 16, [0] selects 8. *)
Definition scan_base (s : string) : Z * string :=
  match s with
  | String.String c0 (String.String c1 ((String.String c2 _) as s')) =>
      if (code c0 =? 48) && ((code c1 =? 120) || (code c1 =? 88)) &&
         match digit_value 16 c2 with Some _ => true | None => false end
      then (16, s')
      else if code c0 =? 48 then (8, s) else (10, s)
  | String.String c0 _ => if code c0 =? 48 then (8, s) else (10, s)
  | String.EmptyString => (10, s)
  end.

(** What both [strtoll] and [strtoul] scan: sign, magnitude, and whether a
    number was found ([end != t]). *)
Definition scan_number (base : Z) (s : string) : bool * Z * bool :=
  let '(neg, s) := scan_sign (skip_space s) in
  let '(b, s) := if base =? 0 then scan_base s else (base, s) in
  let '(v, n) := scan_digits b 0 0 s in
  (neg, v, 0 <? n).

(** [strtoll(t, &end, base)] with [end != t] *)
Definition strtoll (base : Z) (s : string) : option Z :=
  let '(neg, v, found) := scan_number base s in
  if found then Some (Z.max (- 2 ^ 63) (Z.min (2 ^ 63 - 1) (if neg then - v else v)))
  else None.

(** [strtoul(t, &end, base)] with [end != t] *)
Definition strtoul (base : Z) (s : string) : option Z :=
  let '(neg, v, found) := scan_number base s in
  if found then
    Some (if 2 ^ 64 <=? v then 2 ^ 64 - 1 else if neg then u64 (- v) else v)
  else None.

(** [atoi]: [strtol] in base 10, cast to [int]; 0 without digits. *)
Definition atoi (s : string) : Z :=
  match strtoll 10 s with Some v => swrap 32 v | None => 0 end.

(** ** Numbers to text *)

(** [std::to_string] *)
Definition to_string (z : Z) : string :=
  if z <? 0 then String.append "-" (pretty (Z.to_N (- z))) else pretty (Z.to_N z).

(** ** Searching *)

(** [s.find(c)] and [s.find(c, from)] *)
Fixpoint str_find (c : ascii) (s : string) : option nat :=
  match s with
  | String.String a s' => if Ascii.eqb a c then Some O else option_map S (str_find c s')
  | String.EmptyString => None
  end.

Fixpoint str_drop (n : nat) (s : string) : string :=
  match n, s with
  | O, _ => s
  | S n', String.String _ s' => str_drop n' s'
  | S _, String.EmptyString => s
  end.

Fixpoint str_take (n : nat) (s : string) : string :=
  match n, s with
  | O, _ => String.EmptyString
  | S n', String.String a s' => String.String a (str_take n' s')
  | S _, String.EmptyString => s
  end.

Definition str_find_from (c : ascii) (from : nat) (s : string) : option nat :=
  option_map (Nat.add from) (str_find c (str_drop from s)).

(** [s.empty()] *)
Definition str_empty (s : string) : bool :=
  match s with String.EmptyString => true | String.String _ _ => false end.

(** The bytes before the first NUL: [std::string((const char* )t)]. *)
Fixpoint c_str (s : string) : string :=
  match s with
  | String.String a s' => if code a =? 0 then String.EmptyString else String.String a (c_str s')
  | String.EmptyString => s
  end.

(** [operator<] of [std::string]: lexicographic on unsigned bytes. *)
Definition str_ltb (a b : string) : bool :=
  match String_as_OT.compare a b with Lt => true | _ => false end.

(** All characters satisfy a test. *)
Fixpoint str_forall (p : ascii -> bool) (s : string) : bool :=
  match s with String.String a s' => p a && str_forall p s' | String.EmptyString => true end.

(** ** Lemmas *)

Lemma code_range c : 0 <= code c < 256.
Proof. unfold code. pose proof (N_ascii_bounded c). lia. Qed.

Lemma str_ltb_irrefl a : str_ltb a a = false.
Proof.
  unfold str_ltb. destruct (String_as_OT.compare_spec a a) as [_|H|_]; [done| |done].
  by apply String_as_OT.lt_strorder in H.
Qed.

Lemma str_ltb_trans a b c : str_ltb a b = true -> str_ltb b c = true -> str_ltb a c = true.
Proof.
  unfold str_ltb. intros H1 H2.
  destruct (String_as_OT.compare a b) eqn:E1; try done.
  destruct (String_as_OT.compare b c) eqn:E2; try done.
  pose proof (StrictOrder_Transitive a b c E1 E2) as H. unfold String_as_OT.lt in H. by rewrite H.
Qed.

Lemma str_ltb_total a b : str_ltb a b = false -> str_ltb b a = false -> a = b.
Proof.
  unfold str_ltb. intros H1 H2.
  destruct (String_as_OT.compare_spec a b) as [E|E|E]; [done|done|].
  unfold String_as_OT.lt in E. by rewrite E in H2.
Qed.

Lemma str_ltb_asym a b : str_ltb a b = true -> str_ltb b a = false.
Proof.
  intros H. destruct (str_ltb b a) eqn:E; [|done].
  pose proof (str_ltb_trans a b a H E) as Ha. by rewrite str_ltb_irrefl in Ha.
Qed.

(** *** Decimal text *)

Lemma digit_char n : (n < 10)%N -> digit_value 10 (pretty_N_char n) = Some (Z.of_N n) /\
  is_space (pretty_N_char n) = false /\ is_digit (pretty_N_char n) = true.
Proof.
  intros H.
  assert (exists k : nat, (k < 10)%nat /\ n = N.of_nat k) as (k & Hk & ->) by (exists (N.to_nat n); lia).
  do 10 (destruct k as [|k]; [done|]). lia.
Qed.

(** The first character of a text satisfies a test. *)
Definition starts_with (p : ascii -> bool) (s : string) : bool :=
  match s with String.String c _ => p c | String.EmptyString => false end.

(** Scanning what [pretty] wrote in front of [s]. *)
Lemma scan_pretty_go x : exists k, 0 <= k /\ ((0 < x)%N -> 0 < k) /\
  forall acc n s, scan_digits 10 acc n (pretty_N_go x s) =
                  scan_digits 10 (acc * 10 ^ k + Z.of_N x) (n + k) s.
Proof.
  induction (N.lt_wf_0 x) as [x _ IH].
  destruct (decide (x = 0)%N) as [->|Hx].
  { exists 0. split_and!; try lia. intros. rewrite pretty_N_go_0. f_equal; lia. }
  destruct (IH (x / 10)%N) as (k & Hk & _ & E); [apply N.div_lt; lia|].
  exists (k + 1). split_and!; try lia. intros acc n s.
  rewrite pretty_N_go_step, E by lia. cbn [scan_digits].
  pose proof (N.mod_lt x 10 ltac:(lia)) as Hm.
  destruct (digit_char (x `mod` 10)%N Hm) as (-> & _).
  pose proof (N.div_mod x 10 ltac:(lia)) as Hdm.
  f_equal; [|lia]. rewrite Z.pow_add_r by lia. change (10 ^ 1) with 10.
  rewrite N2Z.inj_mod, N2Z.inj_div. change (Z.of_N 10) with 10.
  pose proof (Z.div_mod (Z.of_N x) 10 ltac:(lia)). lia.
Qed.

Lemma digits_pretty_go x : forall s,
  str_forall is_digit (pretty_N_go x s) = str_forall is_digit s /\
  ((0 < x)%N -> starts_with is_digit (pretty_N_go x s) = true).
Proof.
  induction (N.lt_wf_0 x) as [x _ IH]. intros s.
  destruct (decide (x = 0)%N) as [->|Hx]; [by rewrite pretty_N_go_0|].
  rewrite pretty_N_go_step by lia.
  destruct (IH (x / 10)%N ltac:(apply N.div_lt; lia)
              (String.String (pretty_N_char (x `mod` 10)) s)) as [E1 E2].
  destruct (digit_char (x `mod` 10)%N (N.mod_lt x 10 ltac:(lia))) as (_ & _ & Hd).
  split.
  - rewrite E1. cbn [str_forall]. by rewrite Hd.
  - intros _. destruct (decide (x / 10 = 0)%N) as [->|Hq]; [|by apply E2, N.neq_0_lt_0].
    rewrite pretty_N_go_0. exact Hd.
Qed.

Lemma to_string_digits n : 0 <= n ->
  str_forall is_digit (to_string n) = true /\ starts_with is_digit (to_string n) = true.
Proof.
  intros Hn. unfold to_string. destruct (Z.ltb_spec n 0); [lia|].
  unfold pretty, pretty_N. destruct (decide (Z.to_N n = 0)%N); [done|].
  destruct (digits_pretty_go (Z.to_N n) "") as [E1 E2]. rewrite E1, E2; [done|]. assert (Z.to_N n <> 0)%N by done. lia.
Qed.

Lemma to_string_inj n m : 0 <= n -> 0 <= m -> to_string n = to_string m -> n = m.
Proof.
  intros Hn Hm. unfold to_string. destruct (Z.ltb_spec n 0), (Z.ltb_spec m 0); try lia.
  intros E%pretty_N_inj. lia.
Qed.

(** A decimal number ends at the first non-digit. *)
Lemma scan_to_string n s : 0 <= n -> starts_with is_digit s = false ->
  exists k, 0 < k /\ scan_digits 10 0 0 (to_string n +:+ s) = (n, k).
Proof.
  intros Hn Hs. unfold to_string. destruct (Z.ltb_spec n 0); [lia|].
  assert (forall v k, scan_digits 10 v k s = (v, k)) as Hend.
  { intros. destruct s as [|c s]; [done|]. cbn [scan_digits]. cbn [starts_with] in Hs.
    unfold digit_value. rewrite Hs. unfold is_digit in Hs.
    unfold is_lower, is_upper. repeat destr_if; bool_to_prop; try done; lia. }
  assert (forall x t, pretty_N_go x t +:+ s = pretty_N_go x (t +:+ s)) as Happ.
  { intros x. induction (N.lt_wf_0 x) as [x _ IH]. intros t.
    destruct (decide (x = 0)%N) as [->|]; [by rewrite !pretty_N_go_0|].
    rewrite (pretty_N_go_step x t), (pretty_N_go_step x (t +:+ s)) by lia.
    by rewrite IH by (apply N.div_lt; lia). }
  unfold pretty, pretty_N. destruct (decide (Z.to_N n = 0)%N) as [E|E].
  - exists 1. split; [lia|]. assert (n = 0) as -> by lia.
    change ("0" +:+ s) with (String.String "0"%char s). cbn [scan_digits].
    change (digit_value 10 "0") with (Some 0). cbn beta iota. by rewrite Hend.
  - destruct (scan_pretty_go (Z.to_N n)) as (k & Hk & Hpos & Hscan).
    exists k. split; [lia|]. rewrite Happ, Hscan, Hend. f_equal; lia.
Qed.

Lemma scan_sign_digit s : starts_with is_digit s = true ->
  scan_sign (skip_space s) = (false, s).
Proof.
  destruct s as [|c s]; [done|]. cbn [starts_with skip_space]. unfold is_digit. intros H.
  bool_to_prop. unfold is_space.
  destruct (Z.eqb_spec (code c) 32); [lia|]. destruct (Z.leb_spec 9 (code c)), (Z.leb_spec (code c) 13);
    cbn [andb orb]; try lia; cbn [scan_sign];
    destruct (Z.eqb_spec (code c) 45), (Z.eqb_spec (code c) 43); lia || done.
Qed.

(** [atoi] reads back a decimal number, whatever follows it. *)
Lemma atoi_to_string n s : 0 <= n < 2 ^ 31 -> starts_with is_digit s = false ->
  atoi (to_string n +:+ s) = n.
Proof.
  intros Hn Hs. unfold atoi, strtoll, scan_number.
  rewrite scan_sign_digit.
  2:{ destruct (to_string_digits n ltac:(lia)) as [_ H]. by destruct (to_string n). }
  cbn [Z.eqb]. destruct (scan_to_string n s ltac:(lia) Hs) as (k & Hk & ->).
  destruct (Z.ltb_spec 0 k); [|lia]. rewrite swrap_small by lia. lia.
Qed.

(** *** Searching *)

Lemma str_cons_app a s t : String.String a s +:+ t = String.String a (s +:+ t).
Proof. reflexivity. Qed.

Lemma str_nil_app (t : string) : String.EmptyString +:+ t = t.
Proof. reflexivity. Qed.

Lemma str_find_app c s t : str_forall (fun a => negb (Ascii.eqb a c)) s = true ->
  str_find c (s +:+ String.String c t) = Some (String.length s).
Proof.
  induction s as [|a s IH]; intros H.
  - change (String.EmptyString +:+ String.String c t) with (String.String c t).
    cbn [str_find]. by rewrite Ascii.eqb_refl.
  - cbn [str_forall] in H. bool_to_prop.
    change (String.String a s +:+ String.String c t) with (String.String a (s +:+ String.String c t)).
    cbn [str_find String.length]. by rewrite H, IH.
Qed.

Lemma str_drop_app s t : str_drop (String.length s) (s +:+ t) = t.
Proof. by induction s. Qed.

Lemma str_take_app s t : str_take (String.length s) (s +:+ t) = s.
Proof.
  induction s as [|a s IH]; [by destruct t|].
  rewrite str_cons_app. cbn [String.length str_take]. by rewrite IH.
Qed.

Lemma str_app_cons s c t : s +:+ String.String c t = (s +:+ String.String c "") +:+ t.
Proof. induction s as [|a s IH]; [done|]. rewrite !str_cons_app. by rewrite IH. Qed.

Lemma str_app_assoc (a b c : string) : a +:+ (b +:+ c) = (a +:+ b) +:+ c.
Proof. induction a as [|x a IH]; [done|]. rewrite !str_cons_app. by rewrite IH. Qed.

Lemma str_length_app a b : String.length (a +:+ b) = (String.length a + String.length b)%nat.
Proof. induction a as [|x a IH]; [done|]. rewrite str_cons_app. cbn [String.length]. by rewrite IH. Qed.

Lemma str_forall_impl (p q : ascii -> bool) s :
  (forall c, p c = true -> q c = true) -> str_forall p s = true -> str_forall q s = true.
Proof.
  intros Hpq. induction s as [|c s IH]; cbn [str_forall]; [done|].
  intros H. bool_to_prop. by rewrite Hpq, IH.
Qed.

Lemma str_find_None c s : str_find c s = None -> str_forall (fun a => negb (Ascii.eqb a c)) s = true.
Proof.
  induction s as [|a s IH]; cbn [str_find str_forall]; [done|].
  destruct (Ascii.eqb a c); [done|]. destruct (str_find c s); [done|]. auto.
Qed.

Example strtoll_hex : strtoll 0 " 0x1F" = Some 31.
Proof. reflexivity. Qed.
Example strtoll_octal : strtoll 0 "-017z" = Some (-15).
Proof. reflexivity. Qed.
Example strtoll_bad_hex : strtoll 0 "0xg" = Some 0.
Proof. reflexivity. Qed.
Example strtoul_minus_one : strtoul 0 "-1" = Some (2 ^ 64 - 1).
Proof. reflexivity. Qed.
Example strtoll_none : strtoll 0 "abc" = None.
Proof. reflexivity. Qed.

Lemma str_app_nil_r (s : string) : s +:+ String.EmptyString = s.
Proof. induction s as [|a s IH]; [done|]. by rewrite str_cons_app, IH. Qed.

(** [strtoll] reads back a decimal number. *)
Lemma strtoll_to_string n : - 2 ^ 63 <= n < 2 ^ 63 -> strtoll 10 (to_string n) = Some n.
Proof.
  intros Hn. unfold strtoll, scan_number.
  assert (forall m, 0 <= m -> scan_sign (skip_space (to_string m)) = (false, to_string m) /\
    exists k, 0 < k /\ scan_digits 10 0 0 (to_string m) = (m, k)) as Hpos.
  { intros m Hm. destruct (to_string_digits m Hm) as [_ Hd]. split; [by apply scan_sign_digit|].
    rewrite <- (str_app_nil_r (to_string m)). by apply scan_to_string. }
  destruct (Z.ltb_spec n 0).
  - assert (to_string n = String.String "-" (to_string (- n))) as ->.
    { unfold to_string. destruct (Z.ltb_spec n 0); [|lia]. by destruct (Z.ltb_spec (- n) 0); [lia|]. }
    destruct (Hpos (- n) ltac:(lia)) as (_ & k & Hk & E).
    cbn [skip_space]. change (is_space "-") with false. cbn [scan_sign].
    change (code "-" =? 45) with true. change (10 =? 0) with false. cbv iota beta zeta. rewrite E.
    destruct (Z.ltb_spec 0 k); [|lia]. f_equal. lia.
  - destruct (Hpos n ltac:(lia)) as (-> & k & Hk & E). cbn [Z.eqb]. rewrite E.
    destruct (Z.ltb_spec 0 k); [|lia]. f_equal. lia.
Qed.
