(* ===== verification/ConfigDB.v ===== *)
(** * The configuration database reader: definitions

    [src/src/adapter/ConfigDB.{h,cpp}]: the rows of the three tables become
    frame specifications, fields and devices; the devices are grouped by
    endpoint and indexed for the ingest paths.

    SQLite is not modelled: a database is the result sets of the queries the
    code prepares ([None]: the statement does not compile).  The text SQLite
    gives for a REAL column and its error message are parameters.

    A pointer into [_devices] or [_groups] is an index.  [None] is undefined
    behaviour (a double out of the range of the integer it is converted to). *)

From stdpp Require Import base list numbers gmap strings sorting.
From Stdlib Require Import ZArith Lia Ascii.
From Stdlib Require String.
From S2P Require Import Prelude DeviceModel Floats CText.
Local Open Scope Z_scope.

(** ** Rows *)

(** The storage classes of SQLite. *)
Inductive SqlValue :=
| SqlInteger (v : Z)
| SqlFloat (bits : Z)
| SqlText (s : string)
| SqlBlob (s : string)
| SqlNull.

Definition SqlRow : Type := list SqlValue.

Definition column (row : SqlRow) (i : nat) : SqlValue := default SqlNull (row !! i).

(** [readInt64] *)
Definition readInt64 (row : SqlRow) (i : nat) (dflt : Z) : option Z :=
  match column row i with
  | SqlInteger v => Some v
  | SqlFloat b => f64_to_i64 b
  | SqlText s => Some (default dflt (strtoll 0 s))
  | _ => Some dflt
  end.

(** [readUInt32] *)
Definition readUInt32 (row : SqlRow) (i : nat) (dflt : Z) : option Z :=
  match column row i with
  | SqlInteger v => Some (u32 v)
  | SqlFloat b => f64_to_u32 b
  | SqlText s => Some (match strtoul 0 s with Some v => u32 v | None => dflt end)
  | _ => Some dflt
  end.

(** [(int)readInt64(...)] *)
Definition readInt (row : SqlRow) (i : nat) (dflt : Z) : option Z :=
  v ← readInt64 row i dflt; Some (swrap 32 v).

(** ** Field types *)

(** [parseConnProto] *)
Definition parseConnProto (text : string) : Z :=
  let plain :=
    match text with
    | String.String c _ => if is_digit c then atoi text else 0
    | String.EmptyString => 0
    end in
  match str_find "("%char text with
  | None => plain
  | Some l =>
      match str_find_from ")"%char l text with
      | None => plain
      | Some r =>
          if (S l <? r)%nat then
            let v := atoi (str_take (r - l - 1) (str_drop (l + 1) text)) in
            if 0 <? v then v else plain
          else plain
      end
  end.

(** [mapFieldType] *)
Definition mapFieldType (c : Z) : option (FieldKind * Z) :=
  if c =? 0 then Some (Bool, 1)
  else if c =? 1 then Some (IntSigned, 2)
  else if c =? 2 then Some (IntSigned, 4)
  else if c =? 3 then Some (Float32, 4)
  else if c =? 4 then Some (Float64, 8)
  else if c =? 5 then Some (IntSigned, 1)
  else if c =? 6 then Some (IntUnsigned, 1)
  else if c =? 7 then Some (IntUnsigned, 2)
  else if c =? 8 then Some (IntUnsigned, 4)
  else if c =? 9 then Some (IntSigned, 8)
  else if c =? 10 then Some (IntUnsigned, 8)
  else None.

(** [enum BindType] *)
Definition kBindTimestamp : Z := 0.
Definition kBindBool : Z := 1.
Definition kBindTinyInt : Z := 2.
Definition kBindSmallInt : Z := 3.
Definition kBindInt : Z := 4.
Definition kBindBigInt : Z := 5.
Definition kBindFloat : Z := 6.
Definition kBindDouble : Z := 7.

(** The characters [makeIdentifier] keeps. *)
Definition is_ident_char (c : ascii) : bool :=
  is_lower c || is_upper c || is_digit c || (code c =? 95).

Fixpoint identChars (s : string) : string :=
  match s with
  | String.String c s' => String.String (if is_ident_char c then c else "_"%char) (identChars s')
  | String.EmptyString => String.EmptyString
  end.

(** [makeIdentifier] *)
Definition makeIdentifier (raw fallback : string) : string :=
  match identChars raw with
  | String.EmptyString => fallback
  | String.String c _ as out => if is_digit c then String.String "_"%char out else out
  end.

(** The four materialization columns of a field. *)
Definition materialization (k : FieldKind) (size : Z) : bool * Z * Z * string :=
  match k with
  | Bool => (false, 1, kBindBool, "BOOL")
  | Float32 => (true, 4, kBindFloat, "FLOAT")
  | Float64 => (true, 8, kBindDouble, "DOUBLE")
  | IntSigned =>
      if size =? 1 then (false, size, kBindTinyInt, "TINYINT")
      else if size =? 2 then (false, size, kBindSmallInt, "SMALLINT")
      else if size =? 4 then (false, size, kBindInt, "INT")
      else (false, size, kBindBigInt, "BIGINT")
  | IntUnsigned =>
      if size =? 1 then (false, 2, kBindSmallInt, "SMALLINT")
      else if size =? 2 then (false, 4, kBindInt, "INT")
      else (false, 8, kBindBigInt, "BIGINT")
  end.

(** [materializeField] *)
Definition materializeField (f : FieldDesc) (index : Z) : FieldDesc :=
  let '(asDouble, outSize, bindType, colType) := materialization (f_kind f) (f_size f) in
  {| f_name := makeIdentifier (f_name f) ("f" +:+ to_string index); f_unit := f_unit f;
     f_kind := f_kind f; f_size := f_size f; f_byteOffset := f_byteOffset f;
     f_bitOffset := f_bitOffset f; f_bitLen := f_bitLen f; f_precision := f_precision f;
     f_outSize := outSize; f_bindType := bindType; f_colType := colType;
     f_asDouble := asDouble |}.

(** ** Loading *)

(** The result sets of the prepared statements. *)
Record SqlDb := mkSqlDb {
  q_headersNew : option (list SqlRow);
  q_headersLegacy : option (list SqlRow);
  q_headersMinimal : option (list SqlRow);
  q_fields : option (list SqlRow);
  q_devices : option (list SqlRow);
  q_errmsg : string;
}.

(** [struct DeviceGroup] inside [ConfigDB]: members by index. *)
Record GroupIx := mkGroupIx { gx_key : string; gx_members : list nat }.

(** [class ConfigDB] *)
Record ConfigDB := mkDB {
  db_devices : list DeviceDesc;
  db_specs : gmap Z FrameSpec;
  db_listenPorts : list Z;
  db_httpListenPorts : list Z;
  db_groups : list GroupIx;
  db_groupByIpPort : gmap string nat;
  db_groupByIpUnique : gmap string nat;
  db_httpByPort : gmap Z nat;
}.

(** One header row: the specification it defines. *)
Definition headerRow (withModbus : bool) (pid : Z) (row : SqlRow) : option FrameSpec :=
  frameType ← readInt row 1 0;
  frameLen ← readInt row 2 0;
  startFlag ← readUInt32 row 3 0;
  endFlag ← readUInt32 row 4 0;
  endian ← readInt row 5 0;
  '(slaveAddr, funCode, startAddr, addrNum) ←
    (if withModbus then
       a ← readInt row 6 0; b ← readInt row 7 0; c ← readInt row 8 (-1); d ← readInt row 9 0;
       Some (a, b, c, d)
     else Some (0, 0, -1, 0));
  Some {| s_dataProtoId := pid; s_frameType := frameType; s_frameLen := frameLen;
          s_startFlag := u8 startFlag; s_endFlag := u8 endFlag; s_endian := endian;
          s_payloadMin := 0; s_slaveAddr := slaveAddr; s_funCode := funCode;
          s_startAddr := startAddr; s_addrNum := addrNum; s_fields := [] |}.

(** The row loop of [loadHeaders]. *)
Fixpoint headerRows (withModbus : bool) (rows : list SqlRow) (specs : gmap Z FrameSpec)
    : option (gmap Z FrameSpec) :=
  match rows with
  | [] => Some specs
  | row :: rows' =>
      pid ← readInt row 0 (-1);
      if pid <=? 0 then headerRows withModbus rows' specs
      else
        s ← headerRow withModbus pid row;
        headerRows withModbus rows' (<[pid := s]> specs)
  end.

(** [loadHeaders]: the first statement that compiles is used. *)
Definition loadHeaders (db : SqlDb) (specs : gmap Z FrameSpec)
    : option (string + gmap Z FrameSpec) :=
  match q_headersNew db with
  | Some rows => m ← headerRows true rows specs; Some (inr m)
  | None =>
      match q_headersLegacy db with
      | Some rows => m ← headerRows true rows specs; Some (inr m)
      | None =>
          match q_headersMinimal db with
          | Some rows => m ← headerRows false rows specs; Some (inr m)
          | None => Some (inl ("data_header_table: " +:+ q_errmsg db))
          end
      end
  end.

Section Text.
(** [sqlite3_column_text] of a REAL. *)
Variable float_text : Z -> string.

(** [readText] *)
Definition readText (row : SqlRow) (i : nat) : string :=
  match column row i with
  | SqlInteger v => to_string v
  | SqlFloat b => float_text b
  | SqlText s | SqlBlob s => c_str s
  | SqlNull => ""
  end.

(** One row of the field table: [None] inside when the row is skipped. *)
Definition fieldRow (row : SqlRow) : option (option FieldDesc) :=
  c ← readInt row 3 (-1);
  match mapFieldType c with
  | None => Some None
  | Some (kind, size) =>
      byteOffset ← readUInt32 row 4 0;
      bitOffset ← readUInt32 row 5 0;
      bitLen ← readUInt32 row 6 0;
      precision ← readInt row 7 0;
      let bad := (0 <? u8 bitLen) && (size * 8 <? u8 bitOffset + u8 bitLen) in
      Some (Some
        {| f_name := readText row 1; f_unit := readText row 2; f_kind := kind; f_size := size;
           f_byteOffset := byteOffset; f_bitOffset := if bad then 0 else u8 bitOffset;
           f_bitLen := if bad then 0 else u8 bitLen; f_precision := precision;
           f_outSize := 0; f_bindType := 0; f_colType := ""; f_asDouble := false |})
  end.

(** Materialize a field and append it to its specification. *)
Definition addField (pid : Z) (f : FieldDesc) (specs : gmap Z FrameSpec) : gmap Z FrameSpec :=
  let spec := default FrameSpec0 (specs !! pid) in
  let f' := materializeField f (lenZ (s_fields spec)) in
  let fend := u32 (f_byteOffset f + f_size f) in
  <[pid := {| s_dataProtoId := pid; s_frameType := s_frameType spec;
              s_frameLen := s_frameLen spec; s_startFlag := s_startFlag spec;
              s_endFlag := s_endFlag spec; s_endian := s_endian spec;
              s_payloadMin := if fend >? s_payloadMin spec then fend else s_payloadMin spec;
              s_slaveAddr := s_slaveAddr spec; s_funCode := s_funCode spec;
              s_startAddr := s_startAddr spec; s_addrNum := s_addrNum spec;
              s_fields := s_fields spec ++ [f'] |}]> specs.

(** The row loop of [loadFields]. *)
Fixpoint fieldRows (rows : list SqlRow) (specs : gmap Z FrameSpec) : option (gmap Z FrameSpec) :=
  match rows with
  | [] => Some specs
  | row :: rows' =>
      pid ← readInt row 0 (-1);
      if pid <=? 0 then fieldRows rows' specs
      else
        o ← fieldRow row;
        match o with
        | None => fieldRows rows' specs
        | Some f => fieldRows rows' (addField pid f specs)
        end
  end.

(** [loadFields] *)
Definition loadFields (db : SqlDb) (specs : gmap Z FrameSpec)
    : option (string + gmap Z FrameSpec) :=
  match q_fields db with
  | None => Some (inl ("data_proto_table: " +:+ q_errmsg db))
  | Some rows => m ← fieldRows rows specs; Some (inr m)
  end.

(** One row of the device table, [n] devices loaded so far. *)
Definition deviceRow (specs : gmap Z FrameSpec) (n : Z) (row : SqlRow)
    : option (option DeviceDesc) :=
  let deviceId := readText row 0 in
  let ip := readText row 2 in
  if str_empty deviceId || str_empty ip then Some None
  else
    port ← readUInt32 row 3 0;
    local ← readUInt32 row 5 0;
    pid ← readInt row 6 0;
    endian ← readInt row 7 0;
    let proto := parseConnProto (readText row 4) in
    Some (Some
      {| d_deviceId := makeIdentifier deviceId ("device_" +:+ to_string (n + 1));
         d_deviceName := readText row 1; d_ip := ip; d_devicePort := u16 port;
         d_connProto := if proto =? 0 then CONN_CUSTOM_DATA else proto;
         d_localServerPort := u16 local; d_dataProtoId := pid; d_endian := endian;
         d_spec := default FrameSpec0 (specs !! pid);
         d_group := None; d_isEvent := false; d_eventType := 0; d_immediateFlush := false |}).

(** The row loop of [loadDevices]. *)
Fixpoint deviceRows (specs : gmap Z FrameSpec) (rows : list SqlRow) (devices : list DeviceDesc)
    : option (list DeviceDesc) :=
  match rows with
  | [] => Some devices
  | row :: rows' =>
      o ← deviceRow specs (lenZ devices) row;
      match o with
      | None => deviceRows specs rows' devices
      | Some d => deviceRows specs rows' (devices ++ [d])
      end
  end.

(** [loadDevices] *)
Definition loadDevices (db : SqlDb) (specs : gmap Z FrameSpec)
    : option (string + list DeviceDesc) :=
  match q_devices db with
  | None => Some (inl ("device_table: " +:+ q_errmsg db))
  | Some rows => l ← deviceRows specs rows []; Some (inr l)
  end.
End Text.

(** ** Indexes *)

(** [std::sort] and [std::unique] on ports. *)
Fixpoint unique_adj (l : list Z) : list Z :=
  match l with
  | x :: ((y :: _) as l') => if x =? y then unique_adj l' else x :: unique_adj l'
  | _ => l
  end.

Definition sort_unique (l : list Z) : list Z := unique_adj (merge_sort Z.le l).

(** Step 1: the ports of the served protocols, and the first http device of
    each http port. *)
Fixpoint portLoop (devices : list DeviceDesc) (i : nat) (ports http : list Z)
    (byPort : gmap Z nat) : list Z * list Z * gmap Z nat :=
  match devices with
  | [] => (ports, http, byPort)
  | d :: ds =>
      let p := d_localServerPort d in
      if p =? 0 then portLoop ds (S i) ports http byPort
      else if d_connProto d =? CONN_HTTP then
        portLoop ds (S i) ports (http ++ [p])
          (match byPort !! p with Some _ => byPort | None => <[p := i]> byPort end)
      else if (d_connProto d =? CONN_CUSTOM_DATA) || (d_connProto d =? CONN_MODBUS) then
        portLoop ds (S i) (ports ++ [p]) http byPort
      else portLoop ds (S i) ports http byPort
  end.

(** ["ip:port"] *)
Definition endpointKey (ip : string) (port : Z) : string := ip +:+ ":" +:+ to_string port.

(** Step 2: group the devices by endpoint. *)
Definition groupDevice (d : DeviceDesc) (i : nat) (groups : list GroupIx)
    (byIpPort : gmap string nat) : list GroupIx * gmap string nat :=
  if negb (d_devicePort d =? 0) then
    let key := endpointKey (d_ip d) (d_devicePort d) in
    match byIpPort !! key with
    | Some gi =>
        (alter (fun g => mkGroupIx (gx_key g) (gx_members g ++ [i])) gi groups, byIpPort)
    | None => (groups ++ [mkGroupIx key [i]], <[key := length groups]> byIpPort)
    end
  else (groups ++ [mkGroupIx (d_ip d +:+ ":0#" +:+ to_string (Z.of_nat i)) [i]], byIpPort).

Fixpoint groupLoop (devices : list DeviceDesc) (i : nat) (groups : list GroupIx)
    (byIpPort : gmap string nat) : list GroupIx * gmap string nat :=
  match devices with
  | [] => (groups, byIpPort)
  | d :: ds =>
      let '(groups', byIpPort') := groupDevice d i groups byIpPort in
      groupLoop ds (S i) groups' byIpPort'
  end.

(** What the comparison of step 3 looks at, and the comparison. *)
Definition rankKey (d : DeviceDesc) : Z * string := (d_dataProtoId d, d_deviceId d).

Definition rankBefore (a b : Z * string) : bool :=
  if negb (fst a =? fst b) then fst a <? fst b else str_ltb (snd a) (snd b).

(** The order of two members, by their devices' ranks. *)
Definition rank_le (ranks : list (Z * string)) (i j : nat) : Prop :=
  match ranks !! i, ranks !! j with
  | Some a, Some b => rankBefore b a = false
  | None, Some _ => False
  | _, None => True
  end.

#[export] Instance rank_le_dec ranks i j : Decision (rank_le ranks i j).
Proof. unfold rank_le. destruct (ranks !! i), (ranks !! j); apply _. Defined.

(** [std::sort] by rank: the same members, none before one that ranks below it.
    The order of members of equal rank is the library's choice. *)
Class StdSort := {
  std_sort : list (Z * string) -> list nat -> list nat;
  std_sort_perm : forall ranks ms, std_sort ranks ms ≡ₚ ms;
  std_sort_sorted : forall ranks ms, StronglySorted (rank_le ranks) (std_sort ranks ms);
}.

Section Ranking.
Context {std : StdSort}.

Definition sortMembers (devices : list DeviceDesc) (members : list nat) : list nat :=
  std_sort (map rankKey devices) members.

(** The routing fields of member [k] of group [gi].  The difference of two [int]s
    is undefined in C++ when it does not fit; it is taken to wrap. *)
Definition routeDevice (gi k : nat) (baseProto : Z) (d : DeviceDesc) : DeviceDesc :=
  let isEvent := (0 <? k)%nat in
  {| d_deviceId := d_deviceId d; d_deviceName := d_deviceName d; d_ip := d_ip d;
     d_devicePort := d_devicePort d; d_connProto := d_connProto d;
     d_localServerPort := d_localServerPort d; d_dataProtoId := d_dataProtoId d;
     d_endian := d_endian d; d_spec := d_spec d; d_group := Some gi; d_isEvent := isEvent;
     d_eventType := if isEvent then swrap 32 (d_dataProtoId d - baseProto) else 0;
     d_immediateFlush := negb isEvent && (d_connProto d =? CONN_CUSTOM_DATA) |}.

Fixpoint routeMembers (gi k : nat) (baseProto : Z) (members : list nat)
    (devices : list DeviceDesc) : list DeviceDesc :=
  match members with
  | [] => devices
  | m :: ms => routeMembers gi (S k) baseProto ms (alter (routeDevice gi k baseProto) m devices)
  end.

(** Step 3 for one group; [None]: [front()] of an empty vector. *)
Definition rankGroup (gi : nat) (g : GroupIx) (devices : list DeviceDesc)
    : option (GroupIx * list DeviceDesc) :=
  let members := sortMembers devices (gx_members g) in
  first ← head members;
  base ← devices !! first;
  Some (mkGroupIx (gx_key g) members, routeMembers gi 0 (d_dataProtoId base) members devices).

Fixpoint rankLoop (gi : nat) (groups : list GroupIx) (devices : list DeviceDesc)
    : option (list GroupIx * list DeviceDesc) :=
  match groups with
  | [] => Some ([], devices)
  | g :: gs =>
      '(g', devices') ← rankGroup gi g devices;
      '(gs', devices'') ← rankLoop (S gi) gs devices';
      Some (g' :: gs', devices'')
  end.

(** The address part of a group key. *)
Definition keyIp (key : string) : string :=
  match str_find ":"%char key with Some n => str_take n key | None => key end.

Fixpoint countIps (groups : list GroupIx) (m : gmap string Z) : gmap string Z :=
  match groups with
  | [] => m
  | g :: gs => let ip := keyIp (gx_key g) in countIps gs (<[ip := default 0 (m !! ip) + 1]> m)
  end.

(** Step 4: the addresses used by exactly one group. *)
Fixpoint uniqueIps (groups : list GroupIx) (gi : nat) (counts : gmap string Z)
    (m : gmap string nat) : gmap string nat :=
  match groups with
  | [] => m
  | g :: gs =>
      let ip := keyIp (gx_key g) in
      uniqueIps gs (S gi) counts (if default 0 (counts !! ip) =? 1 then <[ip := gi]> m else m)
  end.

(** [rebuildIndexes] *)
Definition rebuildIndexes (db : ConfigDB) : option ConfigDB :=
  let '(ports, http, byPort) := portLoop (db_devices db) 0 [] [] ∅ in
  let '(groups, byIpPort) := groupLoop (db_devices db) 0 [] ∅ in
  '(groups, devices) ← rankLoop 0 groups (db_devices db);
  Some {| db_devices := devices; db_specs := db_specs db;
          db_listenPorts := sort_unique ports; db_httpListenPorts := sort_unique http;
          db_groups := groups; db_groupByIpPort := byIpPort;
          db_groupByIpUnique := uniqueIps groups 0 (countIps groups ∅) ∅;
          db_httpByPort := byPort |}.

(** [loadAll] *)
Definition loadAll (float_text : Z -> string) (q : SqlDb) (db : ConfigDB)
    : option (string + ConfigDB) :=
  h ← loadHeaders q ∅;
  match h with
  | inl e => Some (inl e)
  | inr specs =>
      f ← loadFields float_text q specs;
      match f with
      | inl e => Some (inl e)
      | inr specs =>
          d ← loadDevices float_text q specs;
          match d with
          | inl e => Some (inl e)
          | inr devices =>
              db' ← rebuildIndexes
                {| db_devices := devices; db_specs := specs; db_listenPorts := db_listenPorts db;
                   db_httpListenPorts := db_httpListenPorts db; db_groups := db_groups db;
                   db_groupByIpPort := db_groupByIpPort db;
                   db_groupByIpUnique := db_groupByIpUnique db; db_httpByPort := db_httpByPort db |};
              Some (inr db')
          end
      end
  end.

End Ranking.

(** ** Lookups *)

(** [const DeviceDesc*] and [const DeviceGroup*] from their indexes. *)
Definition deviceAt (db : ConfigDB) (i : nat) : option DevicePtr :=
  d ← db_devices db !! i; Some (mkPtr i d).

Definition groupAt (db : ConfigDB) (gi : nat) : option DeviceGroup :=
  g ← db_groups db !! gi;
  Some (mkGroup (gx_key g) (omap (deviceAt db) (gx_members g))).

(** [matchGroup] *)
Definition matchGroup (db : ConfigDB) (ip : string) (peerPort : Z) : option nat :=
  match db_groupByIpPort db !! endpointKey ip peerPort with
  | Some gi => Some gi
  | None => db_groupByIpUnique db !! ip
  end.

(** [matchDevice] *)
Definition matchDevice (db : ConfigDB) (ip : string) (peerPort : Z) : option DevicePtr :=
  gi ← matchGroup db ip peerPort;
  g ← groupAt db gi;
  primary g.

(** [matchHttpDevice] *)
Definition matchHttpDevice (db : ConfigDB) (ip : string) (peerPort httpPort : Z)
    : option DevicePtr :=
  let byPort := i ← db_httpByPort db !! httpPort; deviceAt db i in
  match matchDevice db ip peerPort with
  | Some d => if d_connProto (p_desc d) =? CONN_HTTP then Some d else byPort
  | None => byPort
  end.

(** [spec] *)
Definition specOf (db : ConfigDB) (pid : Z) : option FrameSpec := db_specs db !! pid.
