(* ===== verification/ConfigDBGroups.v ===== *)
(** * The configuration database reader: grouping and lookups

    What [rebuildIndexes] of [src/src/adapter/ConfigDB.cpp] builds: the keys
    of the groups, the grouping loop, the ranking of the members, and the
    address fallback. *)

From stdpp Require Import base list numbers gmap strings sorting pretty.
From Stdlib Require Import ZArith Lia Ascii.
From Stdlib Require String.
From S2P Require Import Prelude DeviceModel Floats CText ConfigDB.
Local Open Scope Z_scope.

(** ** Keys *)

Definition no_colon (s : string) : bool := str_forall (fun a => negb (Ascii.eqb a ":"%char)) s.

Lemma digits_no_colon s : str_forall is_digit s = true -> no_colon s = true.
Proof.
  apply str_forall_impl. intros c Hc. apply negb_true_iff. unfold is_digit in Hc.
  destruct (Ascii.eqb_spec c ":"); [by subst|done].
Qed.

(** What follows the last colon, and what precedes it, is determined. *)
Lemma last_colon_inj a b s t : no_colon s = true -> no_colon t = true ->
  a +:+ String.String ":" s = b +:+ String.String ":" t -> a = b /\ s = t.
Proof.
  assert (forall u v w, no_colon (u +:+ String.String ":" v) = true -> w = true -> False) as Hno.
  { intros u v w H _. unfold no_colon in H. induction u as [|c u IH].
    - by cbn in H.
    - rewrite str_cons_app in H. cbn [str_forall] in H. bool_to_prop. by apply IH. }
  revert b. induction a as [|c a IH]; intros [|e b] Hs Ht E;
    rewrite ?str_cons_app, ?str_nil_app in E; injection E.
  - by intros ->.
  - intros E2 <-. rewrite E2 in Hs. exfalso. by eapply Hno.
  - intros E2 ->. rewrite <- E2 in Ht. exfalso. by eapply Hno.
  - intros E2 ->. by apply IH in E2 as [-> ->].
Qed.

Lemma endpointKey_inj ip1 p1 ip2 p2 : 0 <= p1 -> 0 <= p2 ->
  endpointKey ip1 p1 = endpointKey ip2 p2 -> ip1 = ip2 /\ p1 = p2.
Proof.
  intros H1 H2 E. unfold endpointKey in E.
  apply last_colon_inj in E as [-> E]; [|by apply digits_no_colon, to_string_digits..].
  split; [done|]. by apply to_string_inj.
Qed.

(** The key of the group a device belongs to. *)
Definition device_key (i : nat) (d : DeviceDesc) : string :=
  if negb (d_devicePort d =? 0) then endpointKey (d_ip d) (d_devicePort d)
  else d_ip d +:+ ":0#" +:+ to_string (Z.of_nat i).

Lemma hash_no_colon i : 0 <= i -> no_colon ("0#" +:+ to_string i) = true.
Proof.
  intros Hi. change ("0#" +:+ to_string i) with (String.String "0" (String.String "#" (to_string i))).
  unfold no_colon. cbn [str_forall]. apply andb_true_iff. split; [done|].
  apply andb_true_iff. split; [done|]. by apply digits_no_colon, to_string_digits.
Qed.

(** Two devices have one key exactly when they share an endpoint. *)
Lemma device_key_eq i di j dj :
  0 <= d_devicePort di -> 0 <= d_devicePort dj ->
  device_key i di = device_key j dj ->
  if d_devicePort di =? 0 then i = j
  else d_ip di = d_ip dj /\ d_devicePort di = d_devicePort dj.
Proof.
  intros Hi Hj. unfold device_key.
  assert (forall a p b k, 0 <= p -> 0 <= k -> endpointKey a p <> b +:+ ":0#" +:+ to_string k) as Hne.
  { intros a p b k Hp Hk E. unfold endpointKey in E.
    change (b +:+ ":0#" +:+ to_string k) with (b +:+ String.String ":" ("0#" +:+ to_string k)) in E.
    apply last_colon_inj in E as [_ E]; [|by apply digits_no_colon, to_string_digits|by apply hash_no_colon].
    destruct (to_string_digits p Hp) as [Hd _]. rewrite E in Hd. by cbn in Hd. }
  destruct (Z.eqb_spec (d_devicePort di) 0), (Z.eqb_spec (d_devicePort dj) 0); cbn [negb].
  - intros E.
    change (?b +:+ ":0#" +:+ ?k) with (b +:+ String.String ":" ("0#" +:+ k)) in E.
    apply last_colon_inj in E as [_ E]; [|by apply hash_no_colon; lia..].
    change ("0#" +:+ ?a) with (String.String "0" (String.String "#" a)) in E. injection E as E.
    apply to_string_inj in E; lia.
  - intros E. symmetry in E. exfalso. revert E. apply Hne; lia.
  - intros E. exfalso. revert E. apply Hne; lia.
  - by apply endpointKey_inj.
Qed.

(** ** The grouping loop *)

Definition keyAt (devs : list DeviceDesc) (j : nat) : option string :=
  d ← devs !! j; Some (device_key j d).

(** The devices among the first [n] with a given key. *)
Definition members_of (devs : list DeviceDesc) (n : nat) (key : string) : list nat :=
  filter (fun j => keyAt devs j = Some key) (seq 0 n).

Definition ports_ok (devs : list DeviceDesc) : Prop := Forall (fun d => 0 <= d_devicePort d) devs.

(** The state of the loop after [n] devices: one group per key, holding the
    devices with that key in row order, and the index of the endpoint keys. *)
Record grouped (devs : list DeviceDesc) (n : nat) (groups : list GroupIx)
    (byIpPort : gmap string nat) : Prop := {
  gr_members : forall gi g, groups !! gi = Some g ->
    gx_members g = members_of devs n (gx_key g) /\ gx_members g <> [];
  gr_keys : forall gi gj g h, groups !! gi = Some g -> groups !! gj = Some h ->
    gx_key g = gx_key h -> gi = gj;
  gr_cover : forall j k, (j < n)%nat -> keyAt devs j = Some k ->
    exists gi g, groups !! gi = Some g /\ gx_key g = k;
  gr_index : forall k gi, byIpPort !! k = Some gi <->
    exists g j d, groups !! gi = Some g /\ gx_key g = k /\ j ∈ gx_members g /\
      devs !! j = Some d /\ d_devicePort d <> 0;
}.

Lemma members_of_elem devs n key j :
  j ∈ members_of devs n key <-> keyAt devs j = Some key /\ (j < n)%nat.
Proof. unfold members_of. rewrite list_elem_of_filter, elem_of_seq. intuition lia. Qed.

Lemma members_of_S devs n key :
  members_of devs (S n) key =
  members_of devs n key ++ (if decide (keyAt devs n = Some key) then [n] else []).
Proof.
  unfold members_of. rewrite seq_S, filter_app. f_equal.
Qed.

Lemma grouped_0 devs : grouped devs 0 [] ∅.
Proof.
  constructor; [done|done|lia|]. intros k gi. rewrite lookup_empty.
  split; [done|]. by intros (g & j & d & H & _).
Qed.

Section GroupStep.
Context (devs : list DeviceDesc) (Hports : ports_ok devs) (n : nat) (d : DeviceDesc)
  (Hd : devs !! n = Some d) (groups : list GroupIx) (byIpPort : gmap string nat)
  (Hg : grouped devs n groups byIpPort).

Lemma port_nonneg j e : devs !! j = Some e -> 0 <= d_devicePort e.
Proof. intros H. unfold ports_ok in Hports. rewrite Forall_lookup in Hports. eauto. Qed.

Lemma keyAt_n : keyAt devs n = Some (device_key n d).
Proof. unfold keyAt. by rewrite Hd. Qed.

(** An existing group with the new device's key is indexed under it. *)
Lemma existing_group gi g : groups !! gi = Some g -> gx_key g = device_key n d ->
  d_devicePort d <> 0 /\ byIpPort !! device_key n d = Some gi.
Proof.
  intros Hgi Hk. destruct (gr_members _ _ _ _ Hg gi g Hgi) as [Hm Hne].
  destruct (gx_members g) as [|j ms] eqn:Eg; [done|].
  assert (j ∈ members_of devs n (gx_key g)) as Hj by (rewrite <- Hm; left).
  apply members_of_elem in Hj as [Hj Hlt]. unfold keyAt in Hj.
  destruct (devs !! j) as [e|] eqn:He; [|done]. injection Hj as Hj. rewrite Hk in Hj.
  pose proof (device_key_eq _ _ _ _ (port_nonneg _ _ He) (port_nonneg _ _ Hd) Hj) as H.
  destruct (Z.eqb_spec (d_devicePort e) 0); [lia|]. destruct H as [_ Hp].
  split; [congruence|]. apply (gr_index _ _ _ _ Hg). exists g, j, e.
  split_and!; try done. rewrite Eg. left.
Qed.

(** The device joins group [gi]. *)
Lemma grouped_join gi g : groups !! gi = Some g -> gx_key g = device_key n d ->
  grouped devs (S n)
    (alter (fun g => mkGroupIx (gx_key g) (gx_members g ++ [n])) gi groups) byIpPort.
Proof.
  intros Hgi Hk. set (f := fun g => mkGroupIx (gx_key g) (gx_members g ++ [n])).
  assert (forall gj h, alter f gi groups !! gj = Some h -> exists h0,
    groups !! gj = Some h0 /\ gx_key h = gx_key h0 /\ h = if decide (gi = gj) then f h0 else h0) as Hl.
  { intros gj h. rewrite list_lookup_alter.
    destruct (decide (gi = gj)) as [->|]; [|eauto].
    destruct (groups !! gj) as [h0|]; [|done]. intros [= <-]. eauto. }
  constructor.
  - intros gj h Hh. destruct (Hl gj h Hh) as (h0 & H0 & Hk0 & ->).
    destruct (gr_members _ _ _ _ Hg gj h0 H0) as [Hm Hne]. rewrite Hk0, members_of_S, keyAt_n.
    destruct (decide (gi = gj)) as [<-|Hij].
    + rewrite Hgi in H0. injection H0 as <-. simpl. rewrite decide_True by congruence.
      rewrite Hm. split; [done|]. by destruct (members_of _ _ _).
    + rewrite decide_False, app_nil_r; [done|]. intros [= E]. apply Hij.
      apply (gr_keys _ _ _ _ Hg gi gj g h0 Hgi H0). congruence.
  - intros gj gk h1 h2 E1 E2 E. destruct (Hl _ _ E1) as (h3 & H3 & K3 & _).
    destruct (Hl _ _ E2) as (h4 & H4 & K4 & _).
    apply (gr_keys _ _ _ _ Hg gj gk h3 h4 H3 H4). congruence.
  - intros j k Hj Hkj.
    assert (exists gj h, groups !! gj = Some h /\ gx_key h = k) as (gj & h & Hh & Hkh).
    { destruct (decide (j = n)) as [->|]; [|apply (gr_cover _ _ _ _ Hg j); [lia|done]].
      exists gi, g. split; [done|]. rewrite keyAt_n in Hkj. congruence. }
    exists gj, (if decide (gi = gj) then f h else h). rewrite list_lookup_alter.
    destruct (decide (gi = gj)) as [<-|]; rewrite Hh; by split.
  - intros k gj. rewrite (gr_index _ _ _ _ Hg). split.
    + intros (h & j & e & Hh & Hkh & Hin & He & Hp).
      exists (if decide (gi = gj) then f h else h), j, e. rewrite list_lookup_alter.
      destruct (decide (gi = gj)) as [<-|]; rewrite Hh; split_and!; try done. simpl. apply elem_of_app. by left.
    + intros (h & j & e & Hh & Hkh & Hin & He & Hp). destruct (Hl _ _ Hh) as (h0 & H0 & K0 & ->).
      destruct (decide (gi = gj)) as [<-|]; [|by exists h0, j, e].
      destruct (existing_group gi g Hgi Hk) as [Hpd Hidx].
      apply (gr_index _ _ _ _ Hg) in Hidx as (g' & j' & e' & Hg' & _ & Hin' & He' & Hp').
      rewrite Hg' in H0. injection H0 as <-. by exists g', j', e'.
Qed.

(** The device opens a group of its own. *)
Lemma grouped_new byIpPort' :
  (forall gi g, groups !! gi = Some g -> gx_key g <> device_key n d) ->
  byIpPort' = (if negb (d_devicePort d =? 0) then <[device_key n d := length groups]> byIpPort else byIpPort) ->
  grouped devs (S n) (groups ++ [mkGroupIx (device_key n d) [n]]) byIpPort'.
Proof.
  intros Hnew ->. set (g0 := mkGroupIx (device_key n d) [n]).
  assert (forall gj h, (groups ++ [g0]) !! gj = Some h ->
    groups !! gj = Some h \/ (gj = length groups /\ h = g0)) as Hl.
  { intros gj h H. apply lookup_app_Some in H as [H|[Hle H]]; [by left|right].
    apply list_lookup_singleton_Some in H as [? <-]. split; [lia|done]. }
  assert ((groups ++ [g0]) !! length groups = Some g0) as Hlast.
  { by rewrite lookup_app_r, Nat.sub_diag by lia. }
  constructor.
  - intros gj h [H|[-> ->]]%Hl; rewrite members_of_S, keyAt_n.
    + destruct (gr_members _ _ _ _ Hg gj h H) as [Hm Hne]. specialize (Hnew gj h H).
      rewrite decide_False, app_nil_r by congruence. done.
    + simpl. rewrite decide_True by done. split; [|done].
      destruct (members_of devs n (device_key n d)) as [|j ms] eqn:E; [done|exfalso].
      assert (j ∈ members_of devs n (device_key n d)) as Hj by (rewrite E; left).
      apply members_of_elem in Hj as [Hj Hlt].
      destruct (gr_cover _ _ _ _ Hg j _ Hlt Hj) as (gi & g & Hgi & Hk). by apply (Hnew gi g).
  - intros gj gk h1 h2 [H1|[-> ->]]%Hl [H2|[-> ->]]%Hl E; [|exfalso..|done].
    + by apply (gr_keys _ _ _ _ Hg gj gk h1 h2).
    + by apply (Hnew gj h1).
    + by apply (Hnew gk h2).
  - intros j k Hj Hkj. destruct (decide (j = n)) as [->|].
    + rewrite keyAt_n in Hkj. injection Hkj as <-. by exists (length groups), g0.
    + destruct (gr_cover _ _ _ _ Hg j k ltac:(lia) Hkj) as (gi & g & Hgi & Hk).
      exists gi, g. split; [|done]. by apply lookup_app_l_Some.
  - intros k gj.
    assert (byIpPort !! k = Some gj -> k <> device_key n d) as Hold.
    { intros H ->. apply (gr_index _ _ _ _ Hg) in H as (g & _ & _ & Hgi & Hk & _).
      by apply (Hnew gj g). }
    transitivity ((k = device_key n d /\ d_devicePort d <> 0 /\ gj = length groups) \/
      (k <> device_key n d /\ byIpPort !! k = Some gj)).
    { destruct (Z.eqb_spec (d_devicePort d) 0); cbn [negb].
      - split; [|intros [(_ & ? & _)|[_ ?]]; done]. intros H. right. split; [by apply Hold|done].
      - destruct (decide (k = device_key n d)) as [->|Hne].
        + rewrite lookup_insert_eq. split; [intros [= <-]; by left|]. by intros [(_ & _ & ->)|[? _]].
        + rewrite lookup_insert_ne by congruence. split; [by right|]. by intros [(? & _)|[_ ?]]. }
    split.
    + intros [(-> & Hp & ->)|[Hne H]].
      * exists g0, n, d. split_and!; try done. left.
      * apply (gr_index _ _ _ _ Hg) in H as (h & j & e & Hh & ? & ? & ? & ?).
        exists h, j, e. split_and!; try done. by apply lookup_app_l_Some.
    + intros (h & j & e & [Hh|[-> ->]]%Hl & Hk & Hin & He & Hp).
      * right. split; [intros ->; by apply (Hnew gj h)|].
        apply (gr_index _ _ _ _ Hg). by exists h, j, e.
      * left. simpl in Hin, Hk. apply list_elem_of_singleton in Hin as ->.
        rewrite Hd in He. injection He as <-. done.
Qed.

(** One device. *)
Lemma groupDevice_grouped :
  grouped devs (S n) (fst (groupDevice d n groups byIpPort)) (snd (groupDevice d n groups byIpPort)).
Proof.
  assert (device_key n d = if negb (d_devicePort d =? 0) then endpointKey (d_ip d) (d_devicePort d)
    else d_ip d +:+ ":0#" +:+ to_string (Z.of_nat n)) as Ek by done.
  unfold groupDevice. destruct (Z.eqb_spec (d_devicePort d) 0) as [Hp|Hp]; cbn [negb] in *.
  - rewrite <- Ek. simpl. apply grouped_new; [|by rewrite Hp].
    intros gi g Hgi Hk. by destruct (existing_group gi g Hgi Hk).
  - rewrite <- Ek. destruct (byIpPort !! device_key n d) as [gi|] eqn:E; simpl.
    + pose proof E as E'. apply (gr_index _ _ _ _ Hg) in E' as (g & _ & _ & Hgi & Hk & _).
      by apply (grouped_join gi g).
    + apply grouped_new; [|by destruct (Z.eqb_spec (d_devicePort d) 0)].
      intros gi g Hgi Hk. destruct (existing_group gi g Hgi Hk) as [_ H]. congruence.
Qed.
End GroupStep.

(** The loop groups all devices. *)
Lemma groupLoop_grouped devs : ports_ok devs -> forall ds pre groups byIpPort,
  devs = pre ++ ds -> grouped devs (length pre) groups byIpPort ->
  grouped devs (length devs) (fst (groupLoop ds (length pre) groups byIpPort))
    (snd (groupLoop ds (length pre) groups byIpPort)).
Proof.
  intros Hp ds. induction ds as [|d ds IH]; intros pre groups byIpPort E Hg; simpl.
  - rewrite app_nil_r in E. by subst.
  - destruct (groupDevice d (length pre) groups byIpPort) as [g' b'] eqn:Ed.
    specialize (IH (pre ++ [d]) g' b').
    replace (length (pre ++ [d])) with (S (length pre)) in IH by (rewrite length_app; simpl; lia).
    apply IH; [by rewrite <- app_assoc|].
    assert (devs !! length pre = Some d) as Hd by (rewrite E; by apply list_lookup_middle).
    pose proof (groupDevice_grouped devs Hp (length pre) d Hd groups byIpPort Hg) as H.
    by rewrite Ed in H.
Qed.

(** ** Ranking the members *)

Lemma rankBefore_trans a b c : rankBefore b a = false -> rankBefore c b = false -> rankBefore c a = false.
Proof.
  unfold rankBefore. destruct a as [pa ia], b as [pb ib], c as [pc ic]; cbn [fst snd].
  destruct (Z.eqb_spec pb pa), (Z.eqb_spec pc pb), (Z.eqb_spec pc pa); cbn [negb]; subst; try lia;
    rewrite ?Z.ltb_ge; try lia.
  intros H1 H2. destruct (str_ltb ic ia) eqn:E; [|done].
  destruct (str_ltb ia ib) eqn:E2.
  - by rewrite (str_ltb_trans _ _ _ E E2) in H2.
  - pose proof (str_ltb_total _ _ E2 H1) as ->. congruence.
Qed.

Lemma rankBefore_asym a b : rankBefore a b = true -> rankBefore b a = false.
Proof.
  unfold rankBefore. rewrite (Z.eqb_sym (fst b)). destruct (Z.eqb_spec (fst a) (fst b)); cbn [negb].
  - apply str_ltb_asym.
  - rewrite Z.ltb_lt, Z.ltb_ge. lia.
Qed.

#[export] Instance rank_le_total ranks : Total (rank_le ranks).
Proof.
  intros i j. unfold rank_le. destruct (ranks !! i) as [a|], (ranks !! j) as [b|]; auto.
  destruct (rankBefore b a) eqn:E; [|by left]. right. by apply rankBefore_asym.
Qed.

#[export] Instance rank_le_trans ranks : Transitive (rank_le ranks).
Proof.
  intros i j k. unfold rank_le. destruct (ranks !! i), (ranks !! j), (ranks !! k); try done.
  apply rankBefore_trans.
Qed.

(** A sort there is: one that keeps the order of equal members. *)
#[refine] Definition stable_sort : StdSort := {| std_sort := fun ranks => merge_sort (rank_le ranks) |}.
Proof.
  - intros ranks ms. apply merge_sort_Permutation.
  - intros ranks ms. apply StronglySorted_merge_sort; apply _.
Defined.

Section Ranked.
Context {std : StdSort}.

Lemma sortMembers_perm devs ms : sortMembers devs ms ≡ₚ ms.
Proof. apply std_sort_perm. Qed.

Lemma sortMembers_sorted devs ms : StronglySorted (rank_le (map rankKey devs)) (sortMembers devs ms).
Proof. apply std_sort_sorted. Qed.

Lemma rankKey_route gi k base d : rankKey (routeDevice gi k base d) = rankKey d.
Proof. done. Qed.

Lemma routeMembers_ranks gi base ms : forall k devs,
  map rankKey (routeMembers gi k base ms devs) = map rankKey devs /\
  forall j, j ∉ ms -> routeMembers gi k base ms devs !! j = devs !! j.
Proof.
  induction ms as [|m ms IH]; intros k devs; simpl; [done|].
  destruct (IH (S k) (alter (routeDevice gi k base) m devs)) as [E1 E2]. split.
  - rewrite E1. clear. revert m. induction devs as [|d devs IH]; intros [|m]; simpl; [done..|].
    f_equal. apply IH.
  - intros j [Hne Hj]%not_elem_of_cons. rewrite E2 by done. by apply list_lookup_alter_ne.
Qed.

Lemma routeMembers_at gi base ms : forall k devs p j d,
  NoDup ms -> ms !! p = Some j -> devs !! j = Some d ->
  routeMembers gi k base ms devs !! j = Some (routeDevice gi (k + p) base d).
Proof.
  induction ms as [|m ms IH]; intros k devs p j d Hnd Hp Hd; [done|].
  apply NoDup_cons in Hnd as [Hm Hnd]. destruct p as [|p]; simpl in Hp |- *.
  - injection Hp as ->. destruct (routeMembers_ranks gi base ms (S k) (alter (routeDevice gi k base) j devs)) as [_ E].
    rewrite E by done. rewrite list_lookup_alter_eq, Hd, Nat.add_0_r. done.
  - rewrite (IH (S k) _ p j d); [by rewrite Nat.add_succ_r|done|done|].
    rewrite list_lookup_alter_ne; [done|]. intros ->. apply Hm. by eapply list_elem_of_lookup_2.
Qed.

(** The groups a ranking pass starts from. *)
Record rankable (devs : list DeviceDesc) (gs : list GroupIx) : Prop := {
  rk_nonempty : forall k g, gs !! k = Some g -> gx_members g <> [] /\ NoDup (gx_members g);
  rk_range : forall k g j, gs !! k = Some g -> j ∈ gx_members g -> is_Some (devs !! j);
  rk_disjoint : forall k1 k2 g1 g2 j, gs !! k1 = Some g1 -> gs !! k2 = Some g2 ->
    j ∈ gx_members g1 -> j ∈ gx_members g2 -> k1 = k2;
}.

Definition ranked (devs : list DeviceDesc) (g : GroupIx) : GroupIx :=
  mkGroupIx (gx_key g) (sortMembers devs (gx_members g)).

Lemma lookup_ranks devs devs' j :
  map rankKey devs' = map rankKey devs -> is_Some (devs !! j) -> is_Some (devs' !! j).
Proof.
  intros E H. apply lookup_lt_is_Some in H. apply lookup_lt_is_Some.
  rewrite <- (length_map rankKey), E, length_map. done.
Qed.

(** The pass sorts every group and routes every member, each device once. *)
Lemma rankLoop_spec gs : forall gi devs, rankable devs gs ->
  exists devs', rankLoop gi gs devs = Some (map (ranked devs) gs, devs') /\
    map rankKey devs' = map rankKey devs /\
    (forall j, (forall k g, gs !! k = Some g -> j ∉ gx_members g) -> devs' !! j = devs !! j) /\
    (forall k g p j d, gs !! k = Some g -> gx_members (ranked devs g) !! p = Some j -> devs !! j = Some d ->
      exists b bd, head (gx_members (ranked devs g)) = Some b /\ devs !! b = Some bd /\
        devs' !! j = Some (routeDevice (gi + k) p (d_dataProtoId bd) d)).
Proof.
  induction gs as [|g gs IH]; intros gi devs Hr; [by exists devs|].
  destruct (rk_nonempty _ _ Hr 0%nat g eq_refl) as [Hne Hnd].
  pose proof (sortMembers_perm devs (gx_members g)) as Hperm.
  destruct (sortMembers devs (gx_members g)) as [|b ms] eqn:Es.
  { apply Permutation_nil_l in Hperm. by symmetry in Hperm. }
  assert (NoDup (b :: ms)) as Hnd' by by rewrite Hperm.
  assert (forall j, j ∈ b :: ms <-> j ∈ gx_members g) as Hin by (intros; by rewrite Hperm).
  destruct (rk_range _ _ Hr 0%nat g b eq_refl) as [bd Hbd]; [apply Hin; left|].
  cbn [rankLoop]. unfold rankGroup. rewrite Es. cbn [head mbind option_bind]. rewrite Hbd. cbn [mbind option_bind].
  set (devs1 := routeMembers gi 0 (d_dataProtoId bd) (b :: ms) devs).
  destruct (routeMembers_ranks gi (d_dataProtoId bd) (b :: ms) 0 devs) as [Hrk1 Hother1].
  fold devs1 in Hrk1, Hother1.
  destruct (IH (S gi) devs1) as (devs' & E & Hrk & Hother & Hat).
  { constructor.
    - intros k h Hh. apply (rk_nonempty _ _ Hr (S k) h Hh).
    - intros k h j Hh Hj. apply (lookup_ranks devs); [done|]. by apply (rk_range _ _ Hr (S k) h j Hh).
    - intros k1 k2 g1 g2 j H1 H2 Hj1 Hj2.
      pose proof (rk_disjoint _ _ Hr (S k1) (S k2) g1 g2 j H1 H2 Hj1 Hj2). lia. }
  rewrite E. cbn [mbind option_bind]. exists devs'.
  assert (map (ranked devs1) gs = map (ranked devs) gs) as Hmap.
  { apply map_ext. intros h. unfold ranked, sortMembers. by rewrite Hrk1. }
  assert (ranked devs g = mkGroupIx (gx_key g) (b :: ms)) as Eg by (unfold ranked; by rewrite Es).
  split_and!.
  - cbn [map]. by rewrite Hmap, Eg.
  - congruence.
  - intros j Hj. rewrite Hother; [apply Hother1|].
    + rewrite Hin. apply (Hj 0%nat g eq_refl).
    + intros k h Hh. apply (Hj (S k) h Hh).
  - intros [|k] h p j d Hh Hp Hd; simpl in Hh.
    + injection Hh as <-. rewrite Eg in *. exists b, bd. split_and!; [done..|].
      rewrite Hother.
      * rewrite Nat.add_0_r. by apply (routeMembers_at gi (d_dataProtoId bd) (b :: ms) 0).
      * intros k h Hh Hj. assert (j ∈ gx_members g) as Hjg.
        { apply Hin. simpl in Hp. by eapply list_elem_of_lookup_2. }
        by pose proof (rk_disjoint _ _ Hr 0%nat (S k) g h j eq_refl Hh Hjg Hj).
    + assert (forall x, x ∈ gx_members h -> devs1 !! x = devs !! x) as Hsame.
      { intros x Hx. apply Hother1. rewrite Hin. intros Hx'.
        by pose proof (rk_disjoint _ _ Hr 0%nat (S k) g h x eq_refl Hh Hx' Hx). }
      assert (forall l, ranked devs1 l = ranked devs l) as Hrd.
      { intros l. unfold ranked, sortMembers. by rewrite Hrk1. }
      assert (forall q x, gx_members (ranked devs h) !! q = Some x -> x ∈ gx_members h) as Hmem.
      { intros q x Hx. rewrite <- (sortMembers_perm devs). by eapply list_elem_of_lookup_2. }
      destruct (Hat k h p j d Hh) as (b' & bd' & Hb' & Hbd' & Hj); [by rewrite Hrd| |].
      { rewrite Hsame; [done|]. by eapply Hmem. }
      rewrite Hrd in Hb'. exists b', bd'. split_and!; [done| |by rewrite Nat.add_succ_r].
      rewrite <- Hsame; [done|]. apply (Hmem 0%nat). by rewrite head_lookup in Hb'.
Qed.

(** ** The address fallback *)

Definition groups_at (ip : string) (gs : list GroupIx) : list GroupIx :=
  filter (fun g => keyIp (gx_key g) = ip) gs.

Lemma keyIp_device_key j d : no_colon (d_ip d) = true -> keyIp (device_key j d) = d_ip d.
Proof.
  intros H. unfold keyIp.
  assert (exists t, device_key j d = d_ip d +:+ String.String ":" t) as [t ->].
  { unfold device_key, endpointKey. destruct (negb _); by eexists. }
  rewrite str_find_app by done. apply str_take_app.
Qed.

Lemma countIps_spec gs : forall m ip,
  default 0 (countIps gs m !! ip) = default 0 (m !! ip) + lenZ (groups_at ip gs).
Proof.
  induction gs as [|g gs IH]; intros m ip; simpl; [unfold lenZ; simpl; lia|].
  rewrite IH. unfold groups_at. rewrite filter_cons.
  destruct (decide (keyIp (gx_key g) = ip)) as [->|Hne].
  - rewrite lookup_insert_eq, lenZ_cons. simpl. lia.
  - by rewrite lookup_insert_ne.
Qed.

Lemma uniqueIps_none gs : forall gi counts m ip,
  default 0 (counts !! ip) <> 1 \/ groups_at ip gs = [] ->
  uniqueIps gs gi counts m !! ip = m !! ip.
Proof.
  induction gs as [|g gs IH]; intros gi counts m ip H; simpl; [done|].
  unfold groups_at in H. rewrite filter_cons in H.
  destruct (decide (keyIp (gx_key g) = ip)) as [->|Hne].
  - destruct H as [H|H]; [|done]. rewrite (proj2 (Z.eqb_neq _ _) H). apply IH. by left.
  - rewrite IH by done. destruct (_ =? 1); [|done]. by rewrite lookup_insert_ne.
Qed.

Lemma uniqueIps_one gs : forall gi counts m ip k g,
  default 0 (counts !! ip) = 1 -> lenZ (groups_at ip gs) = 1 ->
  gs !! k = Some g -> keyIp (gx_key g) = ip ->
  uniqueIps gs gi counts m !! ip = Some (gi + k)%nat.
Proof.
  induction gs as [|h gs IH]; intros gi counts m ip k g Hc Hl Hk Hip; [done|].
  unfold groups_at in Hl. rewrite filter_cons in Hl. fold (groups_at ip gs) in Hl. simpl.
  destruct k as [|k]; simpl in Hk.
  - injection Hk as ->. rewrite decide_True, lenZ_cons in Hl by done.
    rewrite Hip, Hc. cbn [Z.eqb Pos.eqb]. rewrite uniqueIps_none.
    + by rewrite lookup_insert_eq, Nat.add_0_r.
    + right. destruct (groups_at ip gs); [done|]. rewrite lenZ_cons in Hl.
      pose proof (lenZ_nonneg l). lia.
  - destruct (decide (keyIp (gx_key h) = ip)) as [E|E].
    + rewrite lenZ_cons in Hl. assert (g ∈ groups_at ip gs) as Hin.
      { apply list_elem_of_filter. split; [done|]. by eapply list_elem_of_lookup_2. }
      destruct (groups_at ip gs); [by apply not_elem_of_nil in Hin|]. rewrite lenZ_cons in Hl.
      pose proof (lenZ_nonneg l). lia.
    + rewrite (IH (S gi) counts _ ip k g); try done. by rewrite Nat.add_succ_r.
Qed.

(** Exactly one element passes a test. *)
Lemma filter_one_index {A} (P : A -> Prop) `{forall x, Decision (P x)} (l : list A) : forall i j x y,
  length (filter P l) = 1%nat -> l !! i = Some x -> l !! j = Some y -> P x -> P y -> i = j.
Proof.
  induction l as [|a l IH]; intros i j x y Hl Hi Hj Hx Hy; [done|].
  assert (forall k z, length (filter P l) = 0%nat -> l !! k = Some z -> P z -> False) as Hnone.
  { intros k z H0 Hk Hz. apply length_zero_iff_nil in H0.
    assert (z ∈ filter P l) as Hin by (apply list_elem_of_filter; split; [done|by eapply list_elem_of_lookup_2]).
    rewrite H0 in Hin. by apply not_elem_of_nil in Hin. }
  rewrite filter_cons in Hl. destruct (decide (P a)) as [Ha|Ha]; simpl in Hl.
  - destruct i as [|i], j as [|j]; simpl in *; [done|exfalso; eapply Hnone; eauto; lia..].
  - destruct i as [|i], j as [|j]; simpl in *; try congruence. f_equal. by eapply IH.
Qed.

Lemma filter_unique_index {A} (P : A -> Prop) `{forall x, Decision (P x)} (l : list A) : forall k x,
  l !! k = Some x -> P x -> (forall j y, l !! j = Some y -> P y -> j = k) ->
  length (filter P l) = 1%nat.
Proof.
  induction l as [|a l IH]; intros k x Hk Hx Hu; [done|]. rewrite filter_cons.
  destruct (decide (P a)) as [Ha|Ha].
  - assert (k = 0%nat) as -> by (symmetry; by apply (Hu 0%nat a)). simpl. f_equal.
    apply length_zero_iff_nil. destruct (filter P l) as [|z zs] eqn:Ef; [done|exfalso].
    assert (z ∈ filter P l) as Hzin by (rewrite Ef; left).
    apply list_elem_of_filter in Hzin as [Hz Hin]. apply list_elem_of_lookup_1 in Hin as [j Hj].
    by specialize (Hu (S j) z Hj Hz).
  - destruct k as [|k]; simpl in Hk; [congruence|]. apply (IH k x Hk Hx).
    intros j y Hj Hy. specialize (Hu (S j) y Hj Hy). lia.
Qed.

(** ** The whole function *)

Lemma grouped_rankable devs groups byIpPort :
  grouped devs (length devs) groups byIpPort -> rankable devs groups.
Proof.
  intros Hg. constructor.
  - intros k g Hk. destruct (gr_members _ _ _ _ Hg k g Hk) as [-> Hne]. split; [done|].
    unfold members_of. apply NoDup_filter, NoDup_seq.
  - intros k g j Hk Hj. destruct (gr_members _ _ _ _ Hg k g Hk) as [Hm _]. rewrite Hm in Hj.
    apply members_of_elem in Hj as [_ Hlt]. by apply lookup_lt_is_Some.
  - intros k1 k2 g1 g2 j H1 H2 Hj1 Hj2. apply (gr_keys _ _ _ _ Hg k1 k2 g1 g2 H1 H2).
    destruct (gr_members _ _ _ _ Hg k1 g1 H1) as [Hm1 _].
    destruct (gr_members _ _ _ _ Hg k2 g2 H2) as [Hm2 _]. rewrite Hm1 in Hj1. rewrite Hm2 in Hj2.
    apply members_of_elem in Hj1 as [E1 _]. apply members_of_elem in Hj2 as [E2 _]. congruence.
Qed.

(** What [rebuildIndexes] leaves behind, in terms of the grouping loop. *)
Record rebuilt (db db' : ConfigDB) (groups : list GroupIx) : Prop := {
  rb_grouped : grouped (db_devices db) (length (db_devices db)) groups (db_groupByIpPort db');
  rb_groups : db_groups db' = map (ranked (db_devices db)) groups;
  rb_unique : db_groupByIpUnique db' = uniqueIps (db_groups db') 0 (countIps (db_groups db') ∅) ∅;
  rb_length : length (db_devices db') = length (db_devices db);
  rb_routed : forall gi g p j d, groups !! gi = Some g ->
    gx_members (ranked (db_devices db) g) !! p = Some j -> db_devices db !! j = Some d ->
    exists b bd, head (gx_members (ranked (db_devices db) g)) = Some b /\
      db_devices db !! b = Some bd /\
      db_devices db' !! j = Some (routeDevice gi p (d_dataProtoId bd) d);
}.

Lemma rebuildIndexes_rebuilt db : ports_ok (db_devices db) ->
  exists db' groups, rebuildIndexes db = Some db' /\ rebuilt db db' groups.
Proof.
  intros Hp. unfold rebuildIndexes.
  destruct (portLoop (db_devices db) 0 [] [] ∅) as [[ports http] byPort].
  pose proof (groupLoop_grouped (db_devices db) Hp (db_devices db) [] [] ∅ eq_refl (grouped_0 _)) as Hg.
  simpl length in Hg. destruct (groupLoop (db_devices db) 0 [] ∅) as [groups byIpPort]. simpl in Hg.
  destruct (rankLoop_spec groups 0 (db_devices db) (grouped_rankable _ _ _ Hg))
    as (devs' & E & Hrk & _ & Hat).
  rewrite E. cbn [mbind option_bind]. eexists _, groups. split; [done|]. constructor; try done.
  simpl. rewrite <- (length_map rankKey), Hrk, length_map. done.
Qed.

Section Rebuilt.
Context (db db' : ConfigDB) (groups : list GroupIx) (Hports : ports_ok (db_devices db))
  (Hrb : rebuilt db db' groups).
Let devs := db_devices db.
Let Hgr := rb_grouped _ _ _ Hrb.

(** Each device: its group, its rank there, and what routing did to it. *)
Lemma device_routed j d : devs !! j = Some d ->
  exists gi g p b bd, groups !! gi = Some g /\ gx_key g = device_key j d /\
    gx_members (ranked devs g) !! p = Some j /\
    head (gx_members (ranked devs g)) = Some b /\ devs !! b = Some bd /\
    db_devices db' !! j = Some (routeDevice gi p (d_dataProtoId bd) d).
Proof.
  intros Hd. pose proof (lookup_lt_Some _ _ _ Hd) as Hlt.
  assert (keyAt devs j = Some (device_key j d)) as Hk by (unfold keyAt; fold devs; by rewrite Hd).
  destruct (gr_cover _ _ _ _ Hgr j _ Hlt Hk) as (gi & g & Hgi & Hkey).
  destruct (gr_members _ _ _ _ Hgr gi g Hgi) as [Hm _].
  assert (j ∈ gx_members (ranked devs g)) as Hin.
  { simpl. rewrite sortMembers_perm, Hm. apply members_of_elem. by rewrite Hkey. }
  apply list_elem_of_lookup_1 in Hin as [p Hpj].
  destruct (rb_routed _ _ _ Hrb gi g p j d Hgi Hpj Hd) as (b & bd & Hb & Hbd & E).
  by exists gi, g, p, b, bd.
Qed.

Lemma routed_back j d' : db_devices db' !! j = Some d' -> exists d, devs !! j = Some d.
Proof.
  intros H. apply lookup_lt_Some in H. rewrite (rb_length _ _ _ Hrb) in H.
  by apply lookup_lt_is_Some in H.
Qed.

(** The group of a device holds exactly the devices with its key. *)
Lemma group_members gi g j : groups !! gi = Some g ->
  (j ∈ gx_members g <-> exists d', db_devices db' !! j = Some d' /\ d_group d' = Some gi).
Proof.
  intros Hgi. destruct (gr_members _ _ _ _ Hgr gi g Hgi) as [Hm _]. split.
  - intros Hj. rewrite Hm in Hj. apply members_of_elem in Hj as [Hk _]. unfold keyAt in Hk.
    destruct (db_devices db !! j) as [d|] eqn:Hd; [|done]. injection Hk as Hk.
    destruct (device_routed j d Hd) as (gj & h & p & b & bd & Hgj & Hkj & _ & _ & _ & E).
    eexists. split; [exact E|]. simpl. f_equal. apply (gr_keys _ _ _ _ Hgr gj gi h g); congruence.
  - intros (d' & Hd' & Hgrp). destruct (routed_back j d' Hd') as [d Hd].
    destruct (device_routed j d Hd) as (gj & h & p & b & bd & Hgj & Hkj & Hp & _ & _ & E).
    rewrite E in Hd'. injection Hd' as <-. simpl in Hgrp. injection Hgrp as ->.
    rewrite Hgi in Hgj. injection Hgj as <-. rewrite <- (sortMembers_perm devs).
    by eapply list_elem_of_lookup_2.
Qed.
End Rebuilt.

(** *** Lookups *)

Section Lookups.
Context (db db' : ConfigDB) (groups : list GroupIx) (Hports : ports_ok (db_devices db))
  (Hrb : rebuilt db db' groups).

(** A routed device, its original row and its group. *)
Lemma routed_group j d' : db_devices db' !! j = Some d' -> exists d gi g,
  db_devices db !! j = Some d /\ groups !! gi = Some g /\ gx_key g = device_key j d /\
  d_group d' = Some gi /\ d_ip d' = d_ip d /\ d_devicePort d' = d_devicePort d.
Proof.
  intros Hj. destruct (routed_back _ _ _ Hrb j d' Hj) as [d Hd].
  destruct (device_routed _ _ _ Hrb j d Hd) as (gi & g & p & b & bd & Hgi & Hk & _ & _ & _ & E).
  rewrite E in Hj. injection Hj as <-. by exists d, gi, g.
Qed.

Lemma index_exact j d' : db_devices db' !! j = Some d' -> d_devicePort d' <> 0 ->
  db_groupByIpPort db' !! endpointKey (d_ip d') (d_devicePort d') = d_group d'.
Proof.
  intros Hj Hp. destruct (routed_group j d' Hj) as (d & gi & g & Hd & Hgi & Hk & Hgrp & Eip & Ep).
  rewrite Hgrp. apply (gr_index _ _ _ _ (rb_grouped _ _ _ Hrb)). exists g, j, d.
  rewrite Ep in Hp. split_and!; try done.
  - rewrite Hk. unfold device_key. rewrite Eip, Ep. by destruct (Z.eqb_spec (d_devicePort d) 0).
  - apply (group_members _ _ _ Hrb gi g j Hgi). by exists d'.
Qed.

Lemma index_none ip p : 0 <= p ->
  (forall j d', db_devices db' !! j = Some d' -> d_devicePort d' <> 0 ->
     ~ (d_ip d' = ip /\ d_devicePort d' = p)) ->
  db_groupByIpPort db' !! endpointKey ip p = None.
Proof.
  intros Hp Hno. destruct (db_groupByIpPort db' !! endpointKey ip p) as [gi|] eqn:E; [exfalso|done].
  apply (gr_index _ _ _ _ (rb_grouped _ _ _ Hrb)) in E as (g & j & d & Hgi & Hk & Hin & Hd & Hpd).
  destruct (device_routed _ _ _ Hrb j d Hd) as (gi2 & g2 & q & b2 & bd & _ & _ & _ & _ & _ & Er).
  apply (Hno j _ Er); [done|]. simpl.
  destruct (gr_members _ _ _ _ (rb_grouped _ _ _ Hrb) gi g Hgi) as [Hm _].
  rewrite Hm in Hin. apply members_of_elem in Hin as [Hkey _]. unfold keyAt in Hkey. rewrite Hd in Hkey.
  injection Hkey as Hkey. rewrite Hk in Hkey. unfold device_key in Hkey.
  destruct (Z.eqb_spec (d_devicePort d) 0); [done|]. cbn [negb] in Hkey.
  apply endpointKey_inj in Hkey; [done| |done]. by eapply port_nonneg.
Qed.

Hypothesis Hips : Forall (fun d => no_colon (d_ip d) = true) (db_devices db').

Lemma group_keyIp j d' gi g : db_devices db' !! j = Some d' -> d_group d' = Some gi ->
  groups !! gi = Some g -> keyIp (gx_key g) = d_ip d'.
Proof.
  intros Hj Hgrp Hgi. destruct (routed_group j d' Hj) as (d & gj & h & Hd & Hgj & Hk & Hgrp' & Eip & _).
  rewrite Hgrp in Hgrp'. injection Hgrp' as <-. rewrite Hgi in Hgj. injection Hgj as <-.
  rewrite Hk, Eip. apply keyIp_device_key. rewrite <- Eip. rewrite Forall_lookup in Hips. eauto.
Qed.

(** A group at an address holds a device with that address. *)
Lemma group_at_device gi g ip : groups !! gi = Some g -> keyIp (gx_key g) = ip ->
  exists j d', db_devices db' !! j = Some d' /\ d_ip d' = ip /\ d_group d' = Some gi.
Proof.
  intros Hgi Hip. destruct (gr_members _ _ _ _ (rb_grouped _ _ _ Hrb) gi g Hgi) as [_ Hne].
  destruct (gx_members g) as [|j ms] eqn:Em; [done|].
  assert (j ∈ gx_members g) as Hj by (rewrite Em; left).
  apply (group_members _ _ _ Hrb gi g j Hgi) in Hj as (d' & Hd' & Hgrp).
  exists j, d'. split_and!; try done. rewrite <- Hip. symmetry. by eapply group_keyIp.
Qed.

Lemma ranked_keys k : groups_at k (db_groups db') = map (ranked (db_devices db)) (groups_at k groups).
Proof.
  rewrite (rb_groups _ _ _ Hrb). unfold groups_at. induction groups as [|g gs IH] in |- *; [done|].
  simpl. rewrite !filter_cons. simpl. destruct (decide (keyIp (gx_key g) = k)); simpl; by rewrite IH.
Qed.

(** The fallback finds a group exactly when it is the only one at the address. *)
Lemma unique_lookup ip gi :
  db_groupByIpUnique db' !! ip = Some gi <->
  (exists j d', db_devices db' !! j = Some d' /\ d_ip d' = ip /\ d_group d' = Some gi) /\
  (forall j d', db_devices db' !! j = Some d' -> d_ip d' = ip -> d_group d' = Some gi).
Proof.
  rewrite (rb_unique _ _ _ Hrb).
  pose proof (countIps_spec (db_groups db') ∅ ip) as Hc. rewrite lookup_empty in Hc. simpl in Hc.
  pose proof (ranked_keys ip) as Hrk.
  assert (forall k g, groups !! k = Some g ->
    db_groups db' !! k = Some (ranked (db_devices db) g)) as Hlk.
  { intros k g Hk. by rewrite (rb_groups _ _ _ Hrb), list_lookup_fmap, Hk. }
  destruct (decide (length (groups_at ip groups) = 1%nat)) as [H1|H1].
  - assert (lenZ (groups_at ip (db_groups db')) = 1) as HlZ by (rewrite Hrk; unfold lenZ; rewrite length_map; lia).
    destruct (groups_at ip groups) as [|g0 [|]] eqn:Eg; try done.
    assert (g0 ∈ groups_at ip groups) as Hin by (rewrite Eg; left).
    apply list_elem_of_filter in Hin as [Hip Hin]. apply list_elem_of_lookup_1 in Hin as [k Hk].
    rewrite (uniqueIps_one _ 0 _ _ ip k (ranked (db_devices db) g0)) by first [done|lia|by apply Hlk].
    simpl. destruct (group_at_device k g0 ip Hk Hip) as (j & d' & Hj & Hjip & Hjg). split.
    + intros [= <-]. split; [by exists j, d'|]. intros i e He Heip.
      destruct (routed_group i e He) as (e0 & gi & g & _ & Hgi & _ & Hgrp & _).
      rewrite Hgrp. f_equal.
      apply (filter_one_index (fun g => keyIp (gx_key g) = ip) groups gi k g g0); try done.
      * by fold (groups_at ip groups); rewrite Eg.
      * rewrite <- Heip. by eapply group_keyIp.
    + intros [_ Hall]. specialize (Hall j d' Hj Hjip). congruence.
  - rewrite uniqueIps_none, lookup_empty.
    2:{ left. rewrite Hc, Hrk. unfold lenZ. rewrite length_map. lia. }
    split; [done|]. intros [(j & d' & Hj & Hip & Hg) Hall]. exfalso. apply H1.
    destruct (routed_group j d' Hj) as (d & gi' & g & _ & Hgi & _ & Hgrp & _).
    rewrite Hg in Hgrp. injection Hgrp as <-.
    apply (filter_unique_index _ groups gi g Hgi).
    + rewrite <- Hip. by eapply group_keyIp.
    + intros k h Hk Hh. destruct (group_at_device k h ip Hk Hh) as (i & e & Hi & Heip & Heg).
      specialize (Hall i e Hi Heip). congruence.
Qed.
End Lookups.
End Ranked.
