(* ===== verification/ConfigDBProps.v ===== *)
(** * The configuration database reader: properties

    Loading establishes the well-formedness the codec relies on, grouping
    and lookups do what the configuration tables say, identifiers and protocol
    names are parsed as documented, and no stored integer overflows its column
    except the upper half of the unsigned 64-bit range. *)

From stdpp Require Import base list numbers gmap strings sorting pretty.
From Stdlib Require Import ZArith Lia Ascii.
From Stdlib Require String.
From S2P Require Import Prelude DeviceModel Floats CText FrameCodecLoads ConfigDB ConfigDBGroups.
Local Open Scope Z_scope.

(** ** Loading *)

Lemma readInt_range row i dflt v : readInt row i dflt = Some v -> - 2 ^ 31 <= v < 2 ^ 31.
Proof.
  unfold readInt. destruct (readInt64 row i dflt); [|done]. intros [= <-].
  apply (swrap_range 32). lia.
Qed.

Lemma readUInt32_range row i v : readUInt32 row i 0 = Some v -> 0 <= v < 2 ^ 32.
Proof.
  unfold readUInt32. destruct (column row i) as [z|b|s|s|].
  - intros [= <-]. by apply uwrap_range.
  - intros H%f64_to_range_bounds. lia.
  - destruct (strtoul 0 s); intros [= <-]; [by apply uwrap_range|lia].
  - intros [= <-]. lia.
  - intros [= <-]. lia.
Qed.

Definition specs_ok (m : gmap Z FrameSpec) : Prop := map_Forall (fun _ s => spec_ok s) m.

Ltac bind_inv H :=
  match type of H with (?m ≫= _) = _ =>
    let E := fresh "E" in destruct m eqn:E; [|discriminate H]; cbn [mbind option_bind] in H end.

Lemma headerRow_ok wm pid row s : headerRow wm pid row = Some s -> spec_ok s.
Proof.
  unfold headerRow. intros H. do 5 bind_inv H.
  match type of H with (?m ≫= _) = _ => destruct m as [[[[? ?] ?] ?]|]; [|discriminate H] end.
  cbn [mbind option_bind] in H. injection H as <-.
  apply readInt_range in E0. repeat split; simpl; try constructor; lia.
Qed.

Lemma headerRows_ok wm rows : forall specs m,
  specs_ok specs -> headerRows wm rows specs = Some m -> specs_ok m.
Proof.
  induction rows as [|row rows IH]; intros specs m Hs H; simpl in H; [by injection H as <-|].
  bind_inv H. destruct (z <=? 0); [by eapply IH|]. bind_inv H.
  eapply IH; [|exact H]. apply map_Forall_insert_2; [|done]. by eapply headerRow_ok.
Qed.

Lemma loadHeaders_ok q specs m :
  specs_ok specs -> loadHeaders q specs = Some (inr m) -> specs_ok m.
Proof.
  intros Hs H. unfold loadHeaders in H.
  destruct (q_headersNew q), (q_headersLegacy q), (q_headersMinimal q); try discriminate H;
    bind_inv H; injection H as <-; by eapply headerRows_ok.
Qed.

(** A field as loaded, before its materialization. *)
Definition raw_field_ok (f : FieldDesc) : Prop :=
  (exists c, mapFieldType c = Some (f_kind f, f_size f)) /\
  0 <= f_byteOffset f < 2 ^ 32 /\ 0 <= f_bitOffset f < 2 ^ 8 /\ 0 <= f_bitLen f < 2 ^ 8 /\
  (0 < f_bitLen f -> f_bitOffset f + f_bitLen f <= f_size f * 8).

Lemma fieldRow_ok ft row f : fieldRow ft row = Some (Some f) -> raw_field_ok f.
Proof.
  unfold fieldRow. intros H. bind_inv H. destruct (mapFieldType z) as [[k sz]|] eqn:Et; [|done].
  do 4 bind_inv H. injection H as <-. apply readUInt32_range in E0.
  pose proof (uwrap_range 8 z1 ltac:(lia)). pose proof (uwrap_range 8 z2 ltac:(lia)).
  split; [by exists z|]. simpl. destruct (_ && _) eqn:B; [lia|].
  rewrite andb_false_iff, !Z.ltb_ge in B. lia.
Qed.

Lemma materializeField_ok f i : raw_field_ok f -> field_ok (materializeField f i).
Proof.
  intros ((c & Hc) & Ho & Hbo & Hbl & Hbits). unfold materializeField, field_ok.
  destruct (materialization (f_kind f) (f_size f)) as [[[ad os] bt] ct] eqn:Em. simpl.
  unfold mapFieldType in Hc. unfold materialization in Em.
  repeat match type of Hc with (if ?b then _ else _) = _ => destruct b end; try done;
    injection Hc as Hk Hz; rewrite <- Hk, <- Hz in *; simpl in Em; injection Em as <- _ _ _;
    intuition (congruence || lia).
Qed.

Lemma materializeField_place f i :
  f_byteOffset (materializeField f i) = f_byteOffset f /\ f_size (materializeField f i) = f_size f.
Proof.
  unfold materializeField. by destruct (materialization _ _) as [[[ad os] bt] ct].
Qed.

Lemma addField_ok pid f specs : raw_field_ok f -> specs_ok specs -> specs_ok (addField pid f specs).
Proof.
  intros Hf Hs. unfold addField. apply map_Forall_insert_2; [|done].
  set (spec := default FrameSpec0 (specs !! pid)).
  assert (spec_ok spec) as (Hfs & Hpm & Hfl & Hcov).
  { unfold spec. destruct (specs !! pid) as [s|] eqn:E; [by apply (Hs pid)|].
    repeat split; simpl; try constructor; lia. }
  set (fend := u32 (f_byteOffset f + f_size f)).
  pose proof (uwrap_range 32 (f_byteOffset f + f_size f) ltac:(lia)) as Hend. fold fend in Hend.
  destruct (materializeField_place f (lenZ (s_fields spec))) as [Eo Es].
  split_and!; cbn [s_fields s_payloadMin s_frameLen].
  - apply Forall_app. split; [done|]. apply Forall_singleton. by apply materializeField_ok.
  - rewrite Z.gtb_ltb. destruct (Z.ltb_spec (s_payloadMin spec) fend); lia.
  - rewrite Z.gtb_ltb. destruct (Z.ltb_spec (s_payloadMin spec) fend); lia.
  - lia.
  - lia.
  - apply Forall_app. rewrite Z.gtb_ltb. split.
    + eapply Forall_impl; [exact Hcov|]. simpl. intros g Hg. destruct (Z.ltb_spec (s_payloadMin spec) fend); lia.
    + apply Forall_singleton. rewrite Eo, Es. change (u32 _) with fend.
      destruct (Z.ltb_spec (s_payloadMin spec) fend); lia.
Qed.

Lemma fieldRows_ok ft rows : forall specs m,
  specs_ok specs -> fieldRows ft rows specs = Some m -> specs_ok m.
Proof.
  induction rows as [|row rows IH]; intros specs m Hs H; simpl in H; [by injection H as <-|].
  bind_inv H. destruct (z <=? 0); [by eapply IH|]. bind_inv H. destruct o as [f|]; [|by eapply IH].
  eapply IH; [|exact H]. apply addField_ok; [|done]. by eapply fieldRow_ok.
Qed.

Lemma deviceRow_ok ft specs n row d :
  specs_ok specs -> deviceRow ft specs n row = Some (Some d) ->
  device_ok d /\ 0 <= d_devicePort d < 2 ^ 16 /\ 0 <= d_localServerPort d < 2 ^ 16.
Proof.
  intros Hs H. unfold deviceRow in H. destruct (_ || _); [done|]. do 4 bind_inv H.
  injection H as <-. split_and!; simpl; try apply (uwrap_range 16); try lia.
  unfold device_ok. simpl. destruct (specs !! z1) as [s|] eqn:E3; [by apply (Hs z1)|].
  repeat split; simpl; try constructor; lia.
Qed.

Definition devices_ok (devs : list DeviceDesc) : Prop :=
  Forall (fun d => device_ok d /\ 0 <= d_devicePort d < 2 ^ 16 /\ 0 <= d_localServerPort d < 2 ^ 16) devs.

Lemma deviceRows_ok ft specs rows : forall devs l,
  specs_ok specs -> devices_ok devs -> deviceRows ft specs rows devs = Some l -> devices_ok l.
Proof.
  induction rows as [|row rows IH]; intros devs l Hs Hd H; simpl in H; [by injection H as <-|].
  bind_inv H. destruct o as [d|]; [|by eapply IH]. eapply IH; [done| |exact H].
  apply Forall_app. split; [done|]. apply Forall_singleton. by eapply deviceRow_ok.
Qed.

Lemma devices_ok_ports devs : devices_ok devs -> ports_ok devs.
Proof. intros H. eapply Forall_impl; [exact H|]. simpl. lia. Qed.

Section Sorted.
Context {std : StdSort}.

(** Grouping only touches the routing fields. *)
Lemma rebuilt_devices_ok db db' groups :
  devices_ok (db_devices db) -> rebuilt db db' groups -> devices_ok (db_devices db').
Proof.
  intros Hd Hrb. apply Forall_lookup. intros j d' Hj.
  destruct (routed_back _ _ _ Hrb j d' Hj) as [d Hdj].
  destruct (device_routed _ _ _ Hrb j d Hdj) as (gi & g & p & b & bd & _ & _ & _ & _ & _ & E).
  rewrite E in Hj. injection Hj as <-. unfold devices_ok in Hd. rewrite Forall_lookup in Hd.
  exact (Hd j d Hdj).
Qed.

Lemma groupAt_ok db gi g : devices_ok (db_devices db) -> groupAt db gi = Some g -> group_ok g.
Proof.
  intros Hd H. unfold groupAt in H. bind_inv H. injection H as <-. apply Forall_forall. simpl.
  intros p Hp. apply list_elem_of_omap in Hp as (i & _ & Hi). unfold deviceAt in Hi. bind_inv Hi.
  injection Hi as <-. simpl. unfold devices_ok in Hd. rewrite Forall_lookup in Hd. by apply (Hd i).
Qed.

(** A configuration that loads is a rebuilt one. *)
Lemma loaded_rebuilt float_text q db db' :
  loadAll float_text q db = Some (inr db') ->
  exists db0 groups, devices_ok (db_devices db0) /\ rebuilt db0 db' groups.
Proof.
  unfold loadAll. intros H. bind_inv H. destruct s as [|specs]; [done|].
  bind_inv H. destruct s as [|specs2]; [done|]. bind_inv H. destruct s as [|devs]; [done|].
  bind_inv H. injection H as ->.
  assert (specs_ok specs2) as Hs.
  { unfold loadFields in E0. destruct (q_fields q); [|done]. bind_inv E0. injection E0 as ->.
    eapply fieldRows_ok; [|exact E3]. by eapply loadHeaders_ok; [|exact E]. }
  assert (devices_ok devs) as Hdev.
  { unfold loadDevices in E1. destruct (q_devices q); [|done]. bind_inv E1. injection E1 as ->.
    eapply deviceRows_ok; [exact Hs| |exact E3]. constructor. }
  destruct (rebuildIndexes_rebuilt _ (devices_ok_ports _ Hdev : ports_ok (db_devices
    (mkDB devs specs2 (db_listenPorts db) (db_httpListenPorts db) (db_groups db) (db_groupByIpPort db)
      (db_groupByIpUnique db) (db_httpByPort db))))) as (db2 & groups & Er & Hrb).
  assert (db2 = db') as ->.
  { rewrite E2 in Er. by injection Er. }
  eexists _, groups. split; [|exact Hrb]. exact Hdev.
Qed.

Lemma loaded_ok float_text q db db' :
  loadAll float_text q db = Some (inr db') -> devices_ok (db_devices db').
Proof. intros H. destruct (loaded_rebuilt _ _ _ _ H) as (db0 & groups & Hd & Hrb). by eapply rebuilt_devices_ok. Qed.

(** A device is in one group. *)
Lemma loaded_apart float_text q db db' gi gj g h d e :
  loadAll float_text q db = Some (inr db') -> groupAt db' gi = Some g -> groupAt db' gj = Some h ->
  d ∈ g_members g -> e ∈ g_members h -> p_addr d = p_addr e -> gi = gj.
Proof.
  intros H Hg Hh Hd He Ea. destruct (loaded_rebuilt _ _ _ _ H) as (db0 & groups & _ & Hrb).
  assert (forall gi g d, groupAt db' gi = Some g -> d ∈ g_members g ->
    exists x, db_devices db' !! p_addr d = Some x /\ d_group x = Some gi) as Hin.
  { clear - Hrb. intros gi g d Hg Hd. unfold groupAt in Hg. apply bind_Some in Hg as (gx & E & [= <-]). simpl in Hd.
    apply list_elem_of_omap in Hd as (i & Hi & Hd). unfold deviceAt in Hd. apply bind_Some in Hd as (x & _ & [= <-]). simpl.
    rewrite (rb_groups _ _ _ Hrb), list_lookup_fmap in E. destruct (groups !! gi) as [g0|] eqn:Hgi; [|done].
    injection E as <-. apply (group_members _ _ _ Hrb) with (g := g0); [done|]. simpl in Hi.
    by rewrite (sortMembers_perm (db_devices db0) (gx_members g0)) in Hi. }
  destruct (Hin _ _ _ Hg Hd) as (x & Hx & Ex). destruct (Hin _ _ _ Hh He) as (y & Hy & Ey).
  rewrite Ea, Hy in Hx. congruence.
Qed.

(** C10: whatever the tables hold, a configuration that loads is well formed:
    every device's fields are decodable where the layout puts them, and every
    peer group satisfies what the stream slicers need to be memory safe. *)
Theorem loadAll_well_formed float_text q db db' :
  loadAll float_text q db = Some (inr db') ->
  devices_ok (db_devices db') /\
  forall gi g, groupAt db' gi = Some g -> group_ok g.
Proof.
  intros H. pose proof (loaded_ok float_text q db db' H) as Hok. split; [done|].
  intros gi g. by apply groupAt_ok.
Qed.

(** ** Grouping *)

(** Two devices share a source endpoint. *)
Definition same_endpoint (a b : DeviceDesc) : Prop :=
  d_devicePort a <> 0 /\ d_ip a = d_ip b /\ d_devicePort a = d_devicePort b.

(** C11: [rebuildIndexes] partitions the devices into peer groups: every
    device is in exactly the group its [group] pointer names, once, no group is
    empty, and two rows are in one group exactly when they have the same address
    and the same (non-zero) source port; a row without source port is alone. *)
Theorem rebuildIndexes_partition db :
  ports_ok (db_devices db) ->
  exists db', rebuildIndexes db = Some db' /\
    length (db_devices db') = length (db_devices db) /\
    (forall i d, db_devices db' !! i = Some d ->
       exists gi g, d_group d = Some gi /\ db_groups db' !! gi = Some g) /\
    (forall gi g, db_groups db' !! gi = Some g -> NoDup (gx_members g) /\ gx_members g <> [] /\
       forall i, i ∈ gx_members g <-> exists d, db_devices db' !! i = Some d /\ d_group d = Some gi) /\
    (forall i j a b, db_devices db' !! i = Some a -> db_devices db' !! j = Some b ->
       (d_group a = d_group b <-> i = j \/ same_endpoint a b)).
Proof.
  intros Hp. destruct (rebuildIndexes_rebuilt db Hp) as (db' & groups & E & Hrb).
  pose proof (rb_grouped _ _ _ Hrb) as Hgr. pose proof (rb_groups _ _ _ Hrb) as Egs.
  assert (forall i d', db_devices db' !! i = Some d' -> exists d gi g,
    db_devices db !! i = Some d /\ groups !! gi = Some g /\ gx_key g = device_key i d /\
    d_group d' = Some gi /\ d_ip d' = d_ip d /\ d_devicePort d' = d_devicePort d) as Hdev.
  { intros i d' Hi. destruct (routed_back _ _ _ Hrb i d' Hi) as [d Hd].
    destruct (device_routed _ _ _ Hrb i d Hd) as (gi & g & p & b & bd & Hgi & Hk & _ & _ & _ & Er).
    rewrite Er in Hi. injection Hi as <-. exists d, gi, g. done. }
  exists db'. split_and!; [done|apply (rb_length _ _ _ Hrb)|..].
  - intros i d' Hi. destruct (Hdev i d' Hi) as (d & gi & g & _ & Hgi & _ & Hg & _).
    exists gi, (ranked (db_devices db) g). by rewrite Egs, list_lookup_fmap, Hgi.
  - intros gi g' Hg'. rewrite Egs, list_lookup_fmap in Hg'.
    destruct (groups !! gi) as [g|] eqn:Hgi; [|done]. injection Hg' as <-.
    destruct (rk_nonempty _ _ (grouped_rankable _ _ _ Hgr) gi g Hgi) as [Hne Hnd].
    pose proof (sortMembers_perm (db_devices db) (gx_members g)) as Hperm. simpl. split_and!.
    + by rewrite Hperm.
    + intros Hnil. rewrite Hnil in Hperm. by apply Permutation_nil_l in Hperm.
    + intros i. rewrite Hperm. by apply (group_members _ _ _ Hrb).
  - intros i j a b Ha Hb.
    destruct (Hdev i a Ha) as (d & gi & g & Hd & Hgi & Hk & -> & Ei & Ep).
    destruct (Hdev j b Hb) as (e & gj & h & He & Hgj & Hkj & -> & Ej & Eq).
    unfold same_endpoint. rewrite Ei, Ej, Ep, Eq. split.
    + intros [= ->]. rewrite Hgi in Hgj. injection Hgj as <-. rewrite Hk in Hkj.
      apply device_key_eq in Hkj; [|by eapply port_nonneg..].
      destruct (Z.eqb_spec (d_devicePort d) 0); [by left|]. right. by split.
    + intros [-> | (Hne & Eip & Epp)].
      * rewrite Hd in He. injection He as <-. f_equal.
        apply (gr_keys _ _ _ _ Hgr gi gj g h Hgi Hgj). congruence.
      * f_equal. apply (gr_keys _ _ _ _ Hgr gi gj g h Hgi Hgj). rewrite Hk, Hkj.
        unfold device_key. rewrite Eip, <- Epp. by destruct (Z.eqb_spec (d_devicePort d) 0).
Qed.

(** Within a group the first member is the status device: no member
    ranks before it by (data_proto_id, device_id), it alone is not an event
    device, it is flushed immediately exactly when it speaks custom_data, and
    every other member is an event whose type is its protocol distance to it. *)
Theorem rebuildIndexes_status db db' gi g s :
  ports_ok (db_devices db) -> rebuildIndexes db = Some db' ->
  db_groups db' !! gi = Some g -> head (gx_members g) = Some s ->
  exists sd, db_devices db' !! s = Some sd /\
    d_isEvent sd = false /\ d_eventType sd = 0 /\
    d_immediateFlush sd = (d_connProto sd =? CONN_CUSTOM_DATA) /\
    forall j d, j ∈ gx_members g -> j <> s -> db_devices db' !! j = Some d ->
      d_isEvent d = true /\ d_immediateFlush d = false /\
      rankBefore (rankKey d) (rankKey sd) = false /\
      d_eventType d = swrap 32 (d_dataProtoId d - d_dataProtoId sd).
Proof.
  intros Hp E Hg Hs. destruct (rebuildIndexes_rebuilt db Hp) as (db2 & groups & E2 & Hrb).
  rewrite E in E2. injection E2 as <-.
  rewrite (rb_groups _ _ _ Hrb), list_lookup_fmap in Hg.
  destruct (groups !! gi) as [g0|] eqn:Hgi; [|done]. injection Hg as <-.
  set (devs := db_devices db) in *.
  pose proof (sortMembers_sorted devs (gx_members g0)) as Hsort.
  destruct (gx_members (ranked devs g0)) as [|s' ms] eqn:Em; [done|]. injection Hs as ->.
  assert (sortMembers devs (gx_members g0) = s :: ms) as Es by done. rewrite Es in Hsort.
  assert (forall j, j ∈ s :: ms -> exists d, devs !! j = Some d) as Hin.
  { intros j Hj. rewrite <- Es, sortMembers_perm in Hj.
    by destruct (rk_range _ _ (grouped_rankable _ _ _ (rb_grouped _ _ _ Hrb)) gi g0 j Hgi Hj) as [d ?]; exists d. }
  destruct (Hin s) as [sd0 Hsd0]; [left|].
  destruct (rb_routed _ _ _ Hrb gi g0 0%nat s sd0 Hgi ltac:(by fold devs; rewrite Em) Hsd0)
    as (b & bd & Hb & Hbd & Es').
  fold devs in Hb, Hbd. rewrite Em in Hb. injection Hb as <-. rewrite Hsd0 in Hbd. injection Hbd as <-.
  eexists. split_and!; [exact Es'|done|done|done|].
  intros j d Hj Hne Hd. destruct (Hin j Hj) as [d0 Hd0].
  apply list_elem_of_lookup_1 in Hj as [p Hpj].
  destruct (rb_routed _ _ _ Hrb gi g0 p j d0 Hgi ltac:(by fold devs; rewrite Em) Hd0)
    as (b & bd & Hb & Hbd & Ej).
  fold devs in Hb, Hbd. rewrite Em in Hb. injection Hb as <-. rewrite Hsd0 in Hbd. injection Hbd as <-.
  rewrite Hd in Ej. injection Ej as ->. destruct p as [|p]; [simpl in Hpj; congruence|].
  split_and!; try done. simpl. apply StronglySorted_inv in Hsort as [_ Hall].
  rewrite Forall_forall in Hall. specialize (Hall j ltac:(by eapply list_elem_of_lookup_2)).
  unfold rank_le in Hall. by rewrite !list_lookup_fmap, Hsd0, Hd0 in Hall.
Qed.

(** ** Lookups *)

(** [matchGroup] finds a peer by its exact endpoint, and otherwise by its
    address alone, exactly when one single group is configured at that address
    (addresses without a colon). *)
Theorem matchGroup_correct db db' ip port :
  ports_ok (db_devices db) -> rebuildIndexes db = Some db' -> 0 <= port ->
  Forall (fun d => no_colon (d_ip d) = true) (db_devices db') ->
  (forall j d, db_devices db' !! j = Some d -> d_devicePort d <> 0 -> d_ip d = ip ->
     d_devicePort d = port -> matchGroup db' ip port = d_group d) /\
  ((forall j d, db_devices db' !! j = Some d -> d_devicePort d <> 0 ->
      ~ (d_ip d = ip /\ d_devicePort d = port)) ->
   forall gi, matchGroup db' ip port = Some gi <->
     (exists j d, db_devices db' !! j = Some d /\ d_ip d = ip /\ d_group d = Some gi) /\
     (forall j d, db_devices db' !! j = Some d -> d_ip d = ip -> d_group d = Some gi)).
Proof.
  intros Hp E Hport Hips. destruct (rebuildIndexes_rebuilt db Hp) as (db2 & groups & E2 & Hrb).
  rewrite E in E2. injection E2 as <-. unfold matchGroup. split.
  - intros j d Hj Hne <- <-. rewrite (index_exact _ _ _ Hrb j d Hj Hne).
    destruct (routed_group _ _ _ Hrb j d Hj) as (_ & gi & _ & _ & _ & _ & -> & _). done.
  - intros Hno gi. rewrite (index_none _ _ _ Hp Hrb ip port Hport Hno).
    by apply (unique_lookup _ _ _ Hrb Hips).
Qed.

End Sorted.

#[local] Existing Instance stable_sort.

(** An IPv6 peer: the address part of the group key ends at its first colon,
    so the address-only match never finds it. *)
Definition ipv6_device : DeviceDesc :=
  {| d_deviceId := "d1"; d_deviceName := "d1"; d_ip := "fe80::1"; d_devicePort := 502;
     d_connProto := 1; d_localServerPort := 9000; d_dataProtoId := 1; d_endian := 0;
     d_spec := FrameSpec0; d_group := None; d_isEvent := false; d_eventType := 0;
     d_immediateFlush := false |}.

Definition empty_db (devs : list DeviceDesc) : ConfigDB :=
  mkDB devs ∅ [] [] [] ∅ ∅ ∅.

Lemma matchGroup_ipv6_no_fallback :
  exists db', rebuildIndexes (empty_db [ipv6_device]) = Some db' /\
    matchGroup db' "fe80::1" 502 = Some 0%nat /\ matchGroup db' "fe80::1" 40000 = None /\
    matchGroup db' "fe80" 40000 = Some 0%nat.
Proof. eexists. split; [vm_compute; reflexivity|]. by vm_compute. Qed.

(** ** Columns *)

(** The integers a column of [outSize] bytes holds. *)
Definition column_holds (outSize v : Z) : Prop := swrap (8 * outSize) v = v.

(** The number of bits of an integer field. *)
Definition int_bits (f : FieldDesc) : Z := if 0 <? f_bitLen f then f_bitLen f else f_size f * 8.

(** The unsigned number the bits of a field stand for. *)
Definition unsigned_value (f : FieldDesc) (raw : Z) : Z :=
  if 0 <? f_bitLen f then (raw / 2 ^ f_bitOffset f) mod 2 ^ f_bitLen f else raw.

Lemma unsigned_value_range f raw : field_ok f -> 0 <= raw < 2 ^ (f_size f * 8) ->
  0 <= unsigned_value f raw < 2 ^ int_bits f /\ 1 <= int_bits f <= f_size f * 8.
Proof.
  intros Hf Hr. pose proof (field_size_bounds f Hf). unfold unsigned_value, int_bits.
  destruct Hf as (_ & _ & _ & _ & _ & Hbo & _ & Hb & _).
  destruct (Z.ltb_spec 0 (f_bitLen f)) as [Hpos|]; [|lia]. specialize (Hb Hpos).
  split; [apply Z.mod_pos_bound, Z.pow_pos_nonneg; lia|lia].
Qed.

Lemma field_value_unsigned f raw : f_kind f = IntUnsigned ->
  field_value f raw = swrap 64 (unsigned_value f raw).
Proof. intros K. unfold field_value, unsigned_value. rewrite K. by destruct (0 <? f_bitLen f). Qed.

(** The column chosen for an integer field holds every value the field
    can carry, and the stored value is the number on the wire, with one
    exception the column types force: an unsigned field using all of 64 bits is
    stored as its two's complement, so from 2^63 on it comes out negative. *)
Theorem materialized_column_fits f i raw :
  raw_field_ok f -> f_kind f = IntSigned \/ f_kind f = IntUnsigned ->
  0 <= raw < 2 ^ (f_size f * 8) ->
  let f' := materializeField f i in
  column_holds (f_outSize f') (field_value f' raw) /\
  (f_kind f = IntUnsigned ->
   field_value f' raw =
     if (int_bits f =? 64) && (2 ^ 63 <=? raw) then unsigned_value f raw - 2 ^ 64
     else unsigned_value f raw).
Proof.
  intros Hraw K Hr f'. pose proof (materializeField_ok f i Hraw) as Hf'. fold f' in Hf'.
  assert (f_kind f' = f_kind f /\ f_size f' = f_size f /\ f_bitLen f' = f_bitLen f /\
          f_bitOffset f' = f_bitOffset f /\
          f_outSize f' = snd (fst (fst (materialization (f_kind f) (f_size f))))) as (Ek & Es & El & Eo & Eout).
  { unfold f', materializeField. by destruct (materialization _ _) as [[[ad os] bt] ct]. }
  assert (unsigned_value f' raw = unsigned_value f raw /\ int_bits f' = int_bits f) as [Eu Eb].
  { unfold unsigned_value, int_bits. by rewrite Es, El, Eo. }
  rewrite <- Es in Hr. destruct (unsigned_value_range f' raw Hf' Hr) as [Hu Hb].
  rewrite Eu, Eb in Hu. rewrite Eb, Es in Hb. rewrite Es in Hr.
  assert (f_size f = 1 \/ f_size f = 2 \/ f_size f = 4 \/ f_size f = 8) as Hsize.
  { destruct Hf' as (H & _). by rewrite Es in H. }
  assert (2 ^ int_bits f <= 2 ^ (f_size f * 8)) as Hmono by (apply Z.pow_le_mono_r; lia).
  unfold column_holds. rewrite Eout. destruct K as [K|K].
  - split; [|congruence].
    assert (field_value f' raw = swrap (int_bits f) (unsigned_value f raw)) as ->.
    { unfold field_value, unsigned_value, int_bits. rewrite Ek, K, Es, El, Eo. by destruct (0 <? f_bitLen f). }
    pose proof (swrap_range (int_bits f) (unsigned_value f raw) ltac:(lia)) as Hs.
    assert (2 ^ (int_bits f - 1) <= 2 ^ (f_size f * 8 - 1)) by (apply Z.pow_le_mono_r; lia).
    rewrite K. unfold materialization.
    destruct_or! Hsize; rewrite Hsize in *; simpl; apply swrap_small; lia.
  - rewrite field_value_unsigned, Eu by congruence. rewrite K. unfold materialization.
    destruct (Z.eqb_spec (int_bits f) 64) as [H64|H64].
    + assert (f_size f = 8) as Hs8 by lia. rewrite Hs8 in *.
      assert (unsigned_value f raw = raw) as ->.
      { unfold unsigned_value, int_bits in *. destruct (Z.ltb_spec 0 (f_bitLen f)); [|done].
        destruct Hraw as (_ & _ & Hbo & _ & Hbits). rewrite Hs8 in Hbits.
        assert (f_bitOffset f = 0) as -> by (specialize (Hbits ltac:(lia)); lia). rewrite H64, Z.div_1_r. apply Z.mod_small. lia. }
      split; [simpl; apply swrap_small; [lia|]; apply (swrap_range 64); lia|]. intros _.
      cbn [andb]. unfold swrap. rewrite Z.mod_small by lia.
      change (2 ^ (64 - 1)) with (2 ^ 63).
      destruct (Z.leb_spec (2 ^ 63) raw), (Z.ltb_spec raw (2 ^ 63)); lia.
    + assert (unsigned_value f raw < 2 ^ 63) as H63.
      { assert (2 ^ int_bits f <= 2 ^ 63) by (apply Z.pow_le_mono_r; lia). lia. }
      rewrite (swrap_small 64) by lia. split; [|done].
      destruct_or! Hsize; rewrite Hsize in *; simpl; apply swrap_small; lia.
Qed.

(** ** Names *)

(** A valid column or table name. *)
Definition valid_identifier (s : string) : bool :=
  str_forall is_ident_char s && negb (str_empty s) && negb (starts_with is_digit s).

Lemma identChars_valid s : str_forall is_ident_char (identChars s) = true.
Proof.
  induction s as [|c s IH]; [done|]. cbn [identChars str_forall]. rewrite IH, andb_true_r.
  by destruct (is_ident_char c) eqn:E.
Qed.

Lemma identChars_id s : str_forall is_ident_char s = true -> identChars s = s.
Proof.
  induction s as [|c s IH]; [done|]. cbn [identChars str_forall]. intros H. bool_to_prop.
  rewrite H. by rewrite IH.
Qed.

(** [makeIdentifier] gives a name that is safe to splice into SQL text
    (letters, digits and underscores, not empty, no leading digit), leaves a
    valid name as it is, and is therefore idempotent. *)
Theorem makeIdentifier_valid raw fallback :
  valid_identifier fallback = true ->
  valid_identifier (makeIdentifier raw fallback) = true /\
  (valid_identifier raw = true -> makeIdentifier raw fallback = raw) /\
  makeIdentifier (makeIdentifier raw fallback) fallback = makeIdentifier raw fallback.
Proof.
  intros Hf.
  assert (forall s, valid_identifier s = true -> makeIdentifier s fallback = s) as Hid.
  { intros s Hs. unfold valid_identifier in Hs. bool_to_prop. unfold makeIdentifier.
    rewrite identChars_id by done. destruct s as [|c s]; [done|]. cbn [starts_with] in *.
    by destruct (is_digit c). }
  assert (valid_identifier (makeIdentifier raw fallback) = true) as Hv.
  { unfold makeIdentifier. pose proof (identChars_valid raw) as H.
    destruct (identChars raw) as [|c s]; [done|]. unfold valid_identifier.
    destruct (is_digit c) eqn:Ed; cbn [str_forall str_empty starts_with] in *; bool_to_prop.
    - by rewrite H, H0.
    - by rewrite H, H0, Ed. }
  split_and!; [done|by apply Hid|by apply Hid].
Qed.

(** The documented forms of [conn_proto] are read back: "name(n)" gives
    [n] (a positive [int]), a plain decimal gives itself, text with neither gives
    0, which [loadDevices] takes for custom_data. *)
Theorem parseConnProto_forms name n :
  str_forall (fun a => negb (Ascii.eqb a "("%char)) name = true -> 0 < n < 2 ^ 31 ->
  parseConnProto (name +:+ "(" +:+ to_string n +:+ ")") = n /\
  parseConnProto (to_string n) = n /\
  (starts_with is_digit name = false -> parseConnProto name = 0).
Proof.
  intros Hname Hn. destruct (to_string_digits n ltac:(lia)) as [Hd Hs].
  assert (forall c, is_digit c = false -> str_forall (fun a => negb (Ascii.eqb a c)) (to_string n) = true) as Hno.
  { intros c Hc. eapply str_forall_impl; [|exact Hd]. intros a Ha. apply negb_true_iff.
    destruct (Ascii.eqb_spec a c); [congruence|done]. }
  assert (forall c s, str_forall (fun a => negb (Ascii.eqb a c)) s = true -> str_find c s = None) as Hnone.
  { intros c s. induction s as [|a s IH]; [done|]. cbn [str_forall str_find]. intros H. bool_to_prop.
    by rewrite H, IH. }
  split_and!.
  - unfold parseConnProto.
    change (name +:+ "(" +:+ to_string n +:+ ")") with (name +:+ String.String "(" (to_string n +:+ ")")).
    rewrite (str_find_app "(" name _ Hname). unfold str_find_from. rewrite str_drop_app.
    change (String.String "(" (to_string n +:+ ")")) with (String.String "(" (to_string n +:+ String.String ")" "")).
    cbn [str_find Ascii.eqb Bool.eqb]. rewrite (str_find_app ")" (to_string n) "") by by apply Hno.
    cbn [option_map]. set (len := String.length (to_string n)).
    assert (0 < len)%nat as Hlen by (unfold len; destruct (to_string n); [done|simpl; lia]).
    destruct (Nat.ltb_spec (S (String.length name)) (String.length name + S len)); [|lia].
    replace (String.length name + S len - String.length name - 1)%nat with len by lia.
    rewrite str_app_cons.
    replace (String.length name + 1)%nat with (String.length (name +:+ String.String "(" ""))
      by (rewrite str_length_app; simpl; lia).
    rewrite str_drop_app. unfold len. rewrite str_take_app.
    pose proof (atoi_to_string n "" ltac:(lia) eq_refl) as Ha.
    replace (to_string n +:+ "") with (to_string n) in Ha.
    2:{ clear. induction (to_string n) as [|c s IH]; [done|]. rewrite str_cons_app. by rewrite <- IH. }
    rewrite Ha. destruct (Z.ltb_spec 0 n); [done|lia].
  - unfold parseConnProto. rewrite Hnone by by apply Hno.
    destruct (to_string n) as [|c s] eqn:E; [done|]. cbn [starts_with] in Hs. rewrite Hs, <- E.
    pose proof (atoi_to_string n "" ltac:(lia) eq_refl) as Ha.
    replace (to_string n +:+ "") with (to_string n) in Ha; [done|].
    clear. induction (to_string n) as [|x t IH]; [done|]. rewrite str_cons_app. by rewrite <- IH.
  - intros Hnd. unfold parseConnProto. rewrite Hnone by done. destruct name as [|c s]; [done|].
    cbn [starts_with] in Hnd. by rewrite Hnd.
Qed.

(** ** Instances *)

(** A configuration with a status row and an event row on one endpoint, an
    http row without source port, an annotation row, an unknown field type and a
    bit range outside its word. *)
Definition demo_tables : SqlDb :=
  {| q_headersNew := Some
       [[SqlInteger 1; SqlInteger 1; SqlInteger 4; SqlText "0x00"; SqlNull; SqlInteger 0;
         SqlInteger 1; SqlInteger 3; SqlInteger 0; SqlInteger 2];
        [SqlText "2"; SqlInteger 2; SqlInteger 2; SqlText "0xEE"; SqlText "238"; SqlInteger 1;
         SqlNull; SqlNull; SqlNull; SqlNull]];
     q_headersLegacy := None; q_headersMinimal := None;
     q_fields := Some
       [[SqlInteger 1; SqlText "temp (C)"; SqlText "C"; SqlInteger 1; SqlInteger 0; SqlInteger 0;
         SqlInteger 0; SqlInteger 1; SqlFloat 0x3FF0000000000000];
        [SqlInteger 1; SqlText "9lives"; SqlNull; SqlInteger 7; SqlFloat 0x4000000000000000; SqlInteger 12;
         SqlInteger 8; SqlNull; SqlNull];
        [SqlInteger 1; SqlText "odd"; SqlNull; SqlInteger 77; SqlInteger 0; SqlNull; SqlNull; SqlNull; SqlNull];
        [SqlInteger 2; SqlText "count"; SqlNull; SqlInteger 10; SqlInteger 0; SqlNull; SqlNull; SqlNull; SqlNull]];
     q_devices := Some
       [[SqlText "burst"; SqlNull; SqlText "10.0.0.1"; SqlInteger 502; SqlText "custom_data(1)";
         SqlInteger 9000; SqlInteger 2; SqlNull];
        [SqlText "pump 1"; SqlNull; SqlText "10.0.0.1"; SqlText "502"; SqlText "custom_data(1)";
         SqlInteger 9000; SqlInteger 1; SqlNull];
        [SqlNull; SqlText "note"; SqlNull; SqlNull; SqlNull; SqlNull; SqlNull; SqlNull];
        [SqlText "web"; SqlNull; SqlText "10.0.0.2"; SqlNull; SqlText "http (3)"; SqlInteger 8080;
         SqlInteger 1; SqlNull]];
     q_errmsg := "" |}.

Definition demo_loaded : ConfigDB :=
  match loadAll (fun _ => "") demo_tables (empty_db []) with
  | Some (inr db) => db
  | _ => empty_db []
  end.

Example demo_ids :
  map d_deviceId (db_devices demo_loaded) = ["burst"; "pump_1"; "web"] /\
  map d_isEvent (db_devices demo_loaded) = [true; false; false] /\
  map gx_members (db_groups demo_loaded) = [[1; 0]; [2]]%nat /\
  db_listenPorts demo_loaded = [9000] /\ db_httpListenPorts demo_loaded = [8080] /\
  map f_name (s_fields (default FrameSpec0 (specOf demo_loaded 1))) = ["temp__C_"; "_9lives"].
Proof. by vm_compute. Qed.

Lemma loadAll_well_formed_witness :
  devices_ok (db_devices demo_loaded) /\
  forall gi g, groupAt demo_loaded gi = Some g -> group_ok g.
Proof.
  apply (loadAll_well_formed (fun _ => "") demo_tables (empty_db [])). vm_compute. reflexivity.
Defined.

Definition demo_unindexed : ConfigDB :=
  mkDB (db_devices demo_loaded) (db_specs demo_loaded) [] [] [] ∅ ∅ ∅.

Ltac solve_ports := repeat (apply Forall_cons; split; [vm_compute; discriminate|]); apply Forall_nil; exact I.

Lemma rebuildIndexes_partition_witness :
  exists db', rebuildIndexes demo_unindexed = Some db' /\
    length (db_devices db') = length (db_devices demo_unindexed) /\
    (forall i d, db_devices db' !! i = Some d ->
       exists gi g, d_group d = Some gi /\ db_groups db' !! gi = Some g) /\
    (forall gi g, db_groups db' !! gi = Some g -> NoDup (gx_members g) /\ gx_members g <> [] /\
       forall i, i ∈ gx_members g <-> exists d, db_devices db' !! i = Some d /\ d_group d = Some gi) /\
    (forall i j a b, db_devices db' !! i = Some a -> db_devices db' !! j = Some b ->
       (d_group a = d_group b <-> i = j \/ same_endpoint a b)).
Proof.
  apply (rebuildIndexes_partition demo_unindexed). solve_ports.
Defined.

Definition demo_status_devices : list DeviceDesc :=
  [ipv6_device; {| d_deviceId := "d0"; d_deviceName := "d0"; d_ip := "fe80::1"; d_devicePort := 502;
     d_connProto := 1; d_localServerPort := 9000; d_dataProtoId := 0; d_endian := 0;
     d_spec := FrameSpec0; d_group := None; d_isEvent := false; d_eventType := 0;
     d_immediateFlush := false |}].

Definition demo_status_db : ConfigDB := default (empty_db []) (rebuildIndexes (empty_db demo_status_devices)).

Lemma rebuildIndexes_status_witness :
  exists sd, db_devices demo_status_db !! 1%nat = Some sd /\
    d_isEvent sd = false /\ d_eventType sd = 0 /\
    d_immediateFlush sd = (d_connProto sd =? CONN_CUSTOM_DATA) /\
    forall j d, j ∈ [1; 0]%nat -> j <> 1%nat -> db_devices demo_status_db !! j = Some d ->
      d_isEvent d = true /\ d_immediateFlush d = false /\
      rankBefore (rankKey d) (rankKey sd) = false /\
      d_eventType d = swrap 32 (d_dataProtoId d - d_dataProtoId sd).
Proof.
  apply (rebuildIndexes_status (empty_db demo_status_devices) demo_status_db 0
           (mkGroupIx "fe80::1:502" [1; 0]%nat) 1).
  - solve_ports.
  - vm_compute. reflexivity.
  - vm_compute. reflexivity.
  - reflexivity.
Defined.

Lemma matchGroup_correct_witness :
  (forall j d, db_devices demo_loaded !! j = Some d -> d_devicePort d <> 0 -> d_ip d = "10.0.0.1" ->
     d_devicePort d = 4000 -> matchGroup demo_loaded "10.0.0.1" 4000 = d_group d) /\
  ((forall j d, db_devices demo_loaded !! j = Some d -> d_devicePort d <> 0 ->
      ~ (d_ip d = "10.0.0.1" /\ d_devicePort d = 4000)) ->
   forall gi, matchGroup demo_loaded "10.0.0.1" 4000 = Some gi <->
     (exists j d, db_devices demo_loaded !! j = Some d /\ d_ip d = "10.0.0.1" /\ d_group d = Some gi) /\
     (forall j d, db_devices demo_loaded !! j = Some d -> d_ip d = "10.0.0.1" -> d_group d = Some gi)).
Proof.
  apply (matchGroup_correct demo_unindexed demo_loaded "10.0.0.1" 4000).
  - solve_ports.
  - vm_compute. reflexivity.
  - discriminate.
  - repeat (apply Forall_cons; split; [reflexivity|]); apply Forall_nil; exact I.
Defined.

Definition demo_u64 : FieldDesc :=
  {| f_name := "n"; f_unit := ""; f_kind := IntUnsigned; f_size := 8; f_byteOffset := 0;
     f_bitOffset := 0; f_bitLen := 0; f_precision := 0; f_outSize := 0; f_bindType := 0;
     f_colType := ""; f_asDouble := false |}.

Lemma materialized_column_fits_witness :
  column_holds 8 (field_value (materializeField demo_u64 0) (2 ^ 64 - 1)) /\
  (IntUnsigned = IntUnsigned -> field_value (materializeField demo_u64 0) (2 ^ 64 - 1) = -1).
Proof.
  apply (materialized_column_fits demo_u64 0 (2 ^ 64 - 1)).
  - split; [exists 10; reflexivity|simpl; lia].
  - right. reflexivity.
  - simpl. lia.
Defined.

Lemma makeIdentifier_valid_witness :
  valid_identifier (makeIdentifier "2nd pump" "device_1") = true /\
  (valid_identifier "2nd pump" = true -> makeIdentifier "2nd pump" "device_1" = "2nd pump") /\
  makeIdentifier "_2nd_pump" "device_1" = "_2nd_pump".
Proof. apply (makeIdentifier_valid "2nd pump" "device_1"). reflexivity. Defined.

Lemma parseConnProto_forms_witness :
  parseConnProto "modbus (2)" = 2 /\ parseConnProto "2" = 2 /\ parseConnProto "modbus " = 0.
Proof.
  destruct (parseConnProto_forms "modbus " 2 eq_refl ltac:(lia)) as (H1 & H2 & H3).
  split; [exact H1|split; [exact H2|exact (H3 eq_refl)]].
Defined.
