(* ===== verification/Pipeline.v ===== *)
(** * The pipeline and its parser thread: definitions

    [src/src/adapter/Pipeline.h] (statistics, chunks, row batches),
    [ParserWorker.{h,cpp}] and [PublishQueue.{h,cpp}].

    The concurrent queues are FIFO lists: the parser thread is the only
    consumer of the ingest queue, so its inputs are a sequence of dequeued
    chunks and timeouts ([ParserEvent]).  The order in which an
    [unordered_map] is traversed is a parameter. *)

From stdpp Require Import base list numbers gmap strings.
From Stdlib Require Import ZArith Lia.
From S2P Require Import Prelude DeviceModel FrameCodec.
Local Open Scope Z_scope.

(** ** Statistics *)

(** The counters of [struct AdapterStats]. *)
Inductive Stat :=
| ConnsOpened | Chunks | BytesIn | Unmatched | Frames | RowsParsed | RowsWritten | EventRows
| BatchesWritten | WriteErrors | PublishStub | ModbusRequests | HttpRequests | HttpRows
| HttpErrors.

#[export] Instance Stat_eq_dec : EqDecision Stat.
Proof. solve_decision. Defined.

Definition AdapterStats : Type := Stat -> Z.

Definition AdapterStats0 : AdapterStats := fun _ => 0.

(** [fetch_add(n)] *)
Definition fetch_add (f : Stat) (n : Z) (s : AdapterStats) : AdapterStats :=
  fun x => if decide (x = f) then u64 (s x + n) else s x.

(** ** Chunks and batches *)

(** [const DeviceGroup*] *)
Record GroupPtr := mkGroupPtr { gp_addr : nat; gp_group : DeviceGroup }.

(** [struct RawChunk] *)
Record RawChunk := mkChunk {
  ch_group : option GroupPtr;
  ch_recvMs : Z;
  ch_data : list Z;
}.

(** [struct RowBatch] *)
Record RowBatch := mkBatch {
  b_dev : option DevicePtr;
  b_ts : list Z;
  b_cells : list Cell;
}.

Definition RowBatch0 : RowBatch := mkBatch None [] [].

(** [RowBatch::rowCount], [empty], [clear] *)
Definition rowCount (b : RowBatch) : Z := swrap 32 (lenZ (b_ts b)).
Definition batchEmpty (b : RowBatch) : bool := match b_ts b with [] => true | _ :: _ => false end.
Definition batchClear (b : RowBatch) : RowBatch := mkBatch (b_dev b) [] [].

(** [RowBatch::pushRow]; the sink copies the device's [fieldCount] cells. *)
Definition pushRow (b : RowBatch) (t : Z) (cells : list Cell) : RowBatch :=
  mkBatch (b_dev b) (b_ts b ++ [t]) (b_cells b ++ cells).

(** ** The publish path *)

(** [class PublishQueue] *)
Record PublishQueue := mkPublish {
  pq_enabled : bool;
  pq_running : bool;
  pq_q : list RowBatch;
  pq_rowsDrained : Z;
}.

Definition publishStart (p : PublishQueue) : PublishQueue :=
  if pq_enabled p then mkPublish true true (pq_q p) (pq_rowsDrained p) else p.

Definition publishStop (p : PublishQueue) : PublishQueue :=
  mkPublish (pq_enabled p) false (pq_q p) (pq_rowsDrained p).

(** [PublishQueue::offer] *)
Definition offer (batch : RowBatch) (p : PublishQueue) : PublishQueue :=
  if negb (pq_enabled p) || negb (pq_running p) then p
  else mkPublish (pq_enabled p) (pq_running p) (pq_q p ++ [batch]) (pq_rowsDrained p).

(** One iteration of [PublishQueue::run]: a batch is drained and dropped. *)
Definition publishRun (p : PublishQueue) (stats : AdapterStats) : PublishQueue * AdapterStats :=
  match pq_q p with
  | [] => (p, stats)
  | b :: q =>
      (mkPublish (pq_enabled p) (pq_running p) q (u64 (pq_rowsDrained p + u64 (rowCount b))),
       fetch_add PublishStub (u64 (rowCount b)) stats)
  end.

(** ** The parser thread *)

(** [class ParserWorker].  A map keyed by pointers is keyed by the address; the
    key of [_batches] is kept with its pointee. *)
Record ParserWorker := mkWorker {
  pw_batchRows : Z;
  pw_streams : gmap nat DeviceStream;
  pw_batches : gmap nat (DevicePtr * RowBatch);
  pw_touched : list DevicePtr;
  pw_write : list RowBatch;           (* what was enqueued, oldest first *)
  pw_publish : option PublishQueue;
  pw_stats : AdapterStats;
}.

(** The constructor. *)
Definition newWorker (batchRows : Z) (publish : option PublishQueue) (stats : AdapterStats)
    : ParserWorker :=
  mkWorker (if 0 <? batchRows then batchRows else 1) ∅ ∅ [] [] publish stats.

Definition set_batches (m : gmap nat (DevicePtr * RowBatch)) (w : ParserWorker) : ParserWorker :=
  mkWorker (pw_batchRows w) (pw_streams w) m (pw_touched w) (pw_write w) (pw_publish w) (pw_stats w).
Definition set_touched (l : list DevicePtr) (w : ParserWorker) : ParserWorker :=
  mkWorker (pw_batchRows w) (pw_streams w) (pw_batches w) l (pw_write w) (pw_publish w) (pw_stats w).
Definition set_stats (s : AdapterStats) (w : ParserWorker) : ParserWorker :=
  mkWorker (pw_batchRows w) (pw_streams w) (pw_batches w) (pw_touched w) (pw_write w) (pw_publish w) s.
Definition set_streams (m : gmap nat DeviceStream) (w : ParserWorker) : ParserWorker :=
  mkWorker (pw_batchRows w) m (pw_batches w) (pw_touched w) (pw_write w) (pw_publish w) (pw_stats w).

(** [_batches[dev]] *)
Definition batchOf (w : ParserWorker) (dev : DevicePtr) : RowBatch :=
  match pw_batches w !! p_addr dev with Some (_, b) => b | None => RowBatch0 end.

(** [ParserWorker::appendRow] *)
Definition appendRow (w : ParserWorker) (r : Row) : ParserWorker :=
  let dev := r_dev r in
  let batch := batchOf w dev in
  let batch := match b_dev batch with Some _ => batch | None => mkBatch (Some dev) (b_ts batch) (b_cells batch) end in
  let w := set_batches (<[p_addr dev := (dev, pushRow batch (r_ts r) (r_cells r))]> (pw_batches w)) w in
  let w := if d_isEvent (p_desc dev) then set_stats (fetch_add EventRows 1 (pw_stats w)) w else w in
  let same := match last (pw_touched w) with Some d => Nat.eqb (p_addr d) (p_addr dev) | None => false end in
  if same then w else set_touched (pw_touched w ++ [dev]) w.

(** [ParserWorker::flushDevice]: the moved-from batch is left empty. *)
Definition flushDevice (w : ParserWorker) (dev : DevicePtr) : ParserWorker :=
  match pw_batches w !! p_addr dev with
  | None => w
  | Some (key, batch) =>
      if batchEmpty batch then w
      else
        mkWorker (pw_batchRows w) (pw_streams w)
          (<[p_addr dev := (key, mkBatch (Some dev) [] [])]> (pw_batches w)) (pw_touched w)
          (pw_write w ++ [batch]) (option_map (offer batch) (pw_publish w)) (pw_stats w)
  end.

(** The loop over [_touched] after a chunk. *)
Definition flushTouched (w : ParserWorker) (d : DevicePtr) : ParserWorker :=
  match pw_batches w !! p_addr d with
  | None => w
  | Some (_, batch) =>
      if batchEmpty batch then w
      else if d_immediateFlush (p_desc d) || (pw_batchRows w <=? rowCount batch)
           then flushDevice w d else w
  end.

(** What the loop of [run] gets from [wait_dequeue_timed]. *)
Inductive ParserEvent :=
| Dequeued (c : RawChunk)
| Timeout.

(** A chunk handed to the codec; the rows reach the sink in order. *)
Definition decodeChunk (gp : GroupPtr) (c : RawChunk) (st : DeviceStream)
    : option (DeviceStream * list Row) :=
  match primary (gp_group gp) with
  | Some first =>
      if d_connProto (p_desc first) =? CONN_MODBUS
      then feedModbus first (ch_recvMs c) st (ch_data c)
      else feed (gp_group gp) (ch_recvMs c) st (ch_data c)
  | None => feed (gp_group gp) (ch_recvMs c) st (ch_data c)
  end.

(** The unknown frame types of the endpoint are reported. *)
Definition logUnknown (st : DeviceStream) : DeviceStream :=
  if sl_unknownType (st_slicing st) =? st_unknownTypeLogged st then st
  else set_unknownTypeLogged (sl_unknownType (st_slicing st)) st.

(** The body of [run] for one dequeued chunk. *)
Definition parseChunk (w : ParserWorker) (c : RawChunk) : option ParserWorker :=
  match ch_group c with
  | None => Some w
  | Some gp =>
      match ch_data c with
      | [] => Some w
      | _ :: _ =>
          let st := default DeviceStream0 (pw_streams w !! gp_addr gp) in
          let w := set_touched [] w in
          '(st', rows) ← decodeChunk gp c st;
          let w := fold_left appendRow rows w in
          let n := swrap 32 (lenZ rows) in
          let w := if 0 <? n then
                     set_stats (fetch_add RowsParsed n (fetch_add Frames n (pw_stats w))) w
                   else w in
          let w := set_streams (<[gp_addr gp := logUnknown st']> (pw_streams w)) w in
          Some (fold_left flushTouched (pw_touched w) w)
      end
  end.

Section Worker.
(** The traversal order of [_batches]. *)
Variable batch_order : gmap nat (DevicePtr * RowBatch) -> list (nat * (DevicePtr * RowBatch)).

(** [ParserWorker::flushAll] *)
Definition flushAll (w : ParserWorker) : ParserWorker :=
  fold_left (fun w kv =>
    if batchEmpty (batchOf w (fst (snd kv))) then w else flushDevice w (fst (snd kv)))
    (batch_order (pw_batches w)) w.

(** One iteration of the loop of [run]. *)
Definition parserStep (w : ParserWorker) (e : ParserEvent) : option ParserWorker :=
  match e with
  | Dequeued c => parseChunk w c
  | Timeout => Some (flushAll w)
  end.

Fixpoint parserLoop (w : ParserWorker) (es : list ParserEvent) : option ParserWorker :=
  match es with
  | [] => Some w
  | e :: es' => w' ← parserStep w e; parserLoop w' es'
  end.

(** [ParserWorker::run] until it is stopped, the final flush included. *)
Definition parserRun (w : ParserWorker) (es : list ParserEvent) : option ParserWorker :=
  w' ← parserLoop w es; Some (flushAll w').
End Worker.
