(* ===== verification/ParserProps.v ===== *)
(** * The parser thread: properties

    Rows are neither lost, duplicated, reordered nor mixed between devices on
    their way from the codec to the write queue, and no row of a status device
    waits; [src/src/adapter/ParserWorker.cpp], [Pipeline.h], [PublishQueue.cpp]. *)

From stdpp Require Import base list numbers gmap strings.
From Stdlib Require Import ZArith Lia.
From S2P Require Import Prelude DeviceModel Floats FrameCodec FrameCodecLoads Slicer FrameCodecStream FrameCodecWire FrameCodecProps CText ConfigDB ConfigDBGroups ConfigDBProps Pipeline.
Local Open Scope Z_scope.

(** ** Batches as rows *)

(** The rows a batch of device [d] holds. *)
Fixpoint rows_of (d : DevicePtr) (ts : list Z) (cells : list Cell) : list Row :=
  match ts with
  | [] => []
  | t :: ts' => mkRow d t (takeZ (fieldCount (p_desc d)) cells) ::
                rows_of d ts' (dropZ (fieldCount (p_desc d)) cells)
  end.

Definition batch_rows (b : RowBatch) : list Row :=
  match b_dev b with Some d => rows_of d (b_ts b) (b_cells b) | None => [] end.

(** Row-major storage: [fieldCount] cells per row. *)
Definition batch_wf (b : RowBatch) : Prop :=
  match b_dev b with
  | Some d => lenZ (b_cells b) = lenZ (b_ts b) * fieldCount (p_desc d)
  | None => b_ts b = [] /\ b_cells b = []
  end.

Lemma rows_of_snoc d ts : forall cells t row,
  lenZ cells = lenZ ts * fieldCount (p_desc d) -> lenZ row = fieldCount (p_desc d) ->
  rows_of d (ts ++ [t]) (cells ++ row) = rows_of d ts cells ++ [mkRow d t row].
Proof.
  pose proof (fieldCount_nonneg (p_desc d)) as Hn.
  induction ts as [|t0 ts IH]; intros cells t row Hc Hr; simpl.
  - change (lenZ (@nil Z)) with 0 in Hc. assert (cells = []) as -> by (destruct cells; [done|rewrite lenZ_cons in Hc; pose proof (lenZ_nonneg cells); lia]).
    simpl. f_equal. f_equal. rewrite <- Hr. rewrite <- (app_nil_r row) at 2. by apply takeZ_app_length.
  - rewrite lenZ_cons in Hc. pose proof (lenZ_nonneg ts).
    rewrite takeZ_app_le, dropZ_app_le by nia. f_equal. apply IH; [|done].
    rewrite lenZ_dropZ. nia.
Qed.

(** The rows of one device among a list of batches, and among rows. *)
Definition device_rows (a : nat) (rows : list Row) : list Row :=
  filter (fun r => p_addr (r_dev r) = a) rows.

Definition written (a : nat) (bs : list RowBatch) : list Row := device_rows a (concat (map batch_rows bs)).

Lemma rows_of_device d ts : forall cells, Forall (fun r => r_dev r = d) (rows_of d ts cells).
Proof. induction ts as [|t ts IH]; intros cells; simpl; constructor; [done|apply IH]. Qed.

Lemma device_rows_of d rows : Forall (fun r => r_dev r = d) rows -> device_rows (p_addr d) rows = rows.
Proof.
  unfold device_rows. induction 1 as [|r rows Hr _ IH]; [done|].
  rewrite filter_cons, decide_True by (by rewrite Hr). by rewrite IH.
Qed.

Lemma device_rows_other d a rows : a <> p_addr d -> Forall (fun r => r_dev r = d) rows ->
  device_rows a rows = [].
Proof.
  unfold device_rows. intros Hne. induction 1 as [|r rows Hr _ IH]; [done|].
  rewrite filter_cons, decide_False; [done|]. rewrite Hr. congruence.
Qed.

(** ** What the codec decodes, without the batching *)

Fixpoint decodeLoop (streams : gmap nat DeviceStream) (es : list ParserEvent)
    : option (gmap nat DeviceStream * list Row) :=
  match es with
  | [] => Some (streams, [])
  | Timeout :: es' => decodeLoop streams es'
  | Dequeued c :: es' =>
      match ch_group c, ch_data c with
      | Some gp, _ :: _ =>
          '(st, rows) ← decodeChunk gp c (default DeviceStream0 (streams !! gp_addr gp));
          '(streams', rows') ← decodeLoop (<[gp_addr gp := logUnknown st]> streams) es';
          Some (streams', rows ++ rows')
      | _, _ => decodeLoop streams es'
      end
  end.

(** ** The configuration behind the pointers *)

Section Registry.
(** The devices and groups by address. *)
Context (deviceOf : nat -> option DeviceDesc) (groupOf : nat -> option DeviceGroup).

Definition known (d : DevicePtr) : Prop := deviceOf (p_addr d) = Some (p_desc d).

Record group_known (gp : GroupPtr) : Prop := {
  gk_group : groupOf (gp_addr gp) = Some (gp_group gp);
  gk_ok : group_ok (gp_group gp);
  gk_members : Forall known (g_members (gp_group gp));
}.

Lemma known_eq d e : known d -> known e -> p_addr d = p_addr e -> d = e.
Proof. unfold known. destruct d, e; simpl. intros H1 H2 ->. congruence. Qed.

(** A modbus group whose responses the codec cannot slice (see
    [feedModbus_unbounded]). *)
Definition oversize (g : DeviceGroup) : bool :=
  match primary g with
  | Some d =>
      (d_connProto (p_desc d) =? CONN_MODBUS) &&
      negb ((s_frameType (d_spec (p_desc d)) =? 7) || (s_frameType (d_spec (p_desc d)) =? 9)) &&
      (kMaxFrame <? s_frameType (d_spec (p_desc d)) + s_payloadMin (d_spec (p_desc d)))
  | None => false
  end.

Definition group_stream_ok (g : DeviceGroup) (st : DeviceStream) : Prop :=
  is_bytes (st_buf st) /\ slicing_ok (st_slicing st) /\
  (oversize g = false -> lenZ (st_buf st) < kMaxFrame).

Lemma group_stream0 g : group_stream_ok g DeviceStream0.
Proof. destruct stream0_ok as (? & ? & ?). by split_and!. Qed.

Lemma logUnknown_ok g st : group_stream_ok g st -> group_stream_ok g (logUnknown st).
Proof. unfold logUnknown. by destruct (_ =? _). Qed.

(** An oversize response gives no rows, whatever the rest of the layout. *)
Lemma modbus_no_rows d ts st data st' rows :
  negb ((s_frameType (d_spec (p_desc d)) =? 7) || (s_frameType (d_spec (p_desc d)) =? 9)) &&
    (kMaxFrame <? s_frameType (d_spec (p_desc d)) + s_payloadMin (d_spec (p_desc d))) = true ->
  feedModbus d ts st data = Some (st', rows) -> rows = [].
Proof.
  intros Hbig E. set (spec := d_spec (p_desc d)) in *.
  destruct (s_fields spec) as [|f0 fs0] eqn:Hf; [|destruct (isModbusHeaderLen spec) eqn:Hh;
    [destruct (Z.eqb_spec (s_payloadMin spec) 0) as [Hz|Hz]|]].
  4:{ unfold feedModbus in E. fold spec in E. rewrite Hf, Hh in E. by injection E. }
  - unfold feedModbus in E. fold spec in E. rewrite Hf in E. by injection E.
  - unfold feedModbus in E. fold spec in E. rewrite Hf, Hh, Hz in E. by injection E.
  - destruct (feedModbus_oversize d ts st data) as (sl & E2 & _); try done.
    { fold spec. by rewrite Hf. }
    rewrite E in E2. by injection E2.
Qed.

(** [feedModbus] on any configured device: it slices, or produces nothing. *)
Lemma feedModbus_any d ts st data :
  device_ok (p_desc d) -> is_bytes (st_buf st) -> slicing_ok (st_slicing st) -> is_bytes data ->
  exists st' rows, feedModbus d ts st data = Some (st', rows) /\
    is_bytes (st_buf st') /\ slicing_ok (st_slicing st') /\ Forall (dev_row d ts) rows /\
    (negb ((s_frameType (d_spec (p_desc d)) =? 7) || (s_frameType (d_spec (p_desc d)) =? 9)) &&
     (kMaxFrame <? s_frameType (d_spec (p_desc d)) + s_payloadMin (d_spec (p_desc d))) = false ->
     lenZ (st_buf st) < kMaxFrame -> lenZ (st_buf st') < kMaxFrame) /\
    (rows = [] \/ lenZ rows <= lenZ (st_buf st) + lenZ data).
Proof.
  intros Hd Hb Hs Hdata. set (spec := d_spec (p_desc d)).
  destruct (s_fields spec) as [|f0 fs0] eqn:Hf.
  { unfold feedModbus. fold spec. rewrite Hf. exists (add_bytesIn (lenZ data) st), [].
    split_and!; try done. by left. }
  destruct (isModbusHeaderLen spec) eqn:Hh.
  2:{ unfold feedModbus. fold spec. rewrite Hf, Hh. eexists _, []. split; [done|].
      split_and!; try done; [by apply inc_badFrames_ok|by left]. }
  destruct (Z.eqb_spec (s_payloadMin spec) 0) as [Hz|Hz].
  { unfold feedModbus. fold spec. rewrite Hf, Hh, Hz. eexists _, []. split; [done|].
    split_and!; try done; [by apply inc_badFrames_ok|by left]. }
  pose proof Hd as (_ & Hmin & _). fold spec in Hmin.
  destruct (negb ((s_frameType spec =? 7) || (s_frameType spec =? 9)) &&
    (kMaxFrame <? s_frameType spec + s_payloadMin spec)) eqn:Hbig.
  - destruct (feedModbus_oversize d ts st data) as (sl & E & Hsl); try done.
    { fold spec. by rewrite Hf. }
    rewrite E. eexists _, []. split; [done|]. split_and!; try done; [by apply Forall_app| |by left].
    by apply Hsl.
  - assert (ModbusReady (p_desc d)) as HR.
    { constructor; try done; fold spec; [by rewrite Hf|lia|].
      intros H79. rewrite H79 in Hbig. cbn [negb andb] in Hbig. by apply Z.ltb_ge in Hbig. }
    destruct (@feedLoop_total _ _ _ (modbus_slicer d ts) data
      (growScratch (fieldCount (p_desc d)) (st_slicing st)) (add_bytesIn (lenZ data) st))
      as (rest & sl & rows & E & _ & Hok & Hrest & Hlen & HP & Hcnt); [done|done|by apply modbus_ok_grow|].
    rewrite (feedModbus_ready d ts st data), E. eexists _, rows. split; [done|].
    split_and!; try done; [apply Hok|]. right. simpl in Hcnt. pose proof (lenZ_nonneg rest). lia.
Qed.
(** A chunk of a known group decodes; its rows belong to known devices. *)
Definition row_known (r : Row) : Prop := row_ok r /\ known (r_dev r).

Lemma decodeChunk_ok gp c st :
  group_known gp -> group_stream_ok (gp_group gp) st -> is_bytes (ch_data c) ->
  exists st' rows, decodeChunk gp c st = Some (st', rows) /\
    group_stream_ok (gp_group gp) st' /\ Forall row_known rows /\
    lenZ rows <= kMaxFrame + lenZ (ch_data c) /\ Forall (fun r => r_dev r ∈ g_members (gp_group gp)) rows.
Proof.
  intros Hgp (Hb & Hs & Hl) Hd. pose proof (lenZ_nonneg (ch_data c)) as Hdl.
  assert (forall d, d ∈ g_members (gp_group gp) -> known d /\ device_ok (p_desc d)) as Hmem.
  { intros d Hin. pose proof (gk_members _ Hgp) as Hk. pose proof (gk_ok _ Hgp) as Hok.
    unfold group_ok in Hok. rewrite Forall_forall in Hk, Hok. auto. }
  assert (oversize (gp_group gp) = false -> exists st' rows,
    feed (gp_group gp) (ch_recvMs c) st (ch_data c) = Some (st', rows) /\
    group_stream_ok (gp_group gp) st' /\ Forall row_known rows /\
    lenZ rows <= kMaxFrame + lenZ (ch_data c) /\ Forall (fun r => r_dev r ∈ g_members (gp_group gp)) rows) as Hfeed.
  { intros Hov. destruct (feed_total_rows (gp_group gp) (ch_recvMs c) st (ch_data c))
      as (st' & rows & E & (Hb' & Hl' & Hs') & HP & Hcnt); [apply Hgp|split_and!; auto|done|].
    exists st', rows. split_and!; try done.
    - eapply Forall_impl; [exact HP|]. intros r (Hr & Hin & _). split; [done|]. by apply Hmem.
    - specialize (Hl Hov). pose proof (lenZ_nonneg (st_buf st')). lia.
    - eapply Forall_impl; [exact HP|]. intros r (_ & Hin & _). exact Hin. }
  unfold decodeChunk. destruct (primary (gp_group gp)) as [first|] eqn:Hp.
  2:{ apply Hfeed. unfold oversize. by rewrite Hp. }
  destruct (d_connProto (p_desc first) =? CONN_MODBUS) eqn:Hm.
  2:{ apply Hfeed. unfold oversize. by rewrite Hp, Hm. }
  assert (first ∈ g_members (gp_group gp)) as Hin.
  { unfold primary in Hp. destruct (g_members (gp_group gp)); [done|]. injection Hp as ->. left. }
  destruct (Hmem first Hin) as [Hk Hdev].
  destruct (feedModbus_any first (ch_recvMs c) st (ch_data c) Hdev Hb Hs Hd)
    as (st' & rows & E & Hb' & Hs' & HP & Hl' & Hcnt).
  exists st', rows. unfold group_stream_ok, oversize in *. rewrite Hp, Hm in *. cbn [andb] in *.
  split_and!; try done.
  - intros Hov. apply Hl'; auto.
  - eapply Forall_impl; [exact HP|]. intros r (Hr & Er & _).
    split; [done|by rewrite Er].
  - destruct Hcnt as [->|Hcnt]; [rewrite lenZ_nil; unfold kMaxFrame; lia|].
    destruct (negb _ && _) eqn:Hov; [|specialize (Hl eq_refl); lia].
    rewrite (modbus_no_rows first (ch_recvMs c) st (ch_data c) st' rows Hov E).
    rewrite lenZ_nil. unfold kMaxFrame. lia.
  - eapply Forall_impl; [exact HP|]. intros r (_ & Er & _). by rewrite Er.
Qed.

(** ** The worker's invariant *)

Record worker_ok (w : ParserWorker) : Prop := {
  wo_streams : forall a st, pw_streams w !! a = Some st ->
    exists g, groupOf a = Some g /\ group_stream_ok g st;
  wo_batches : forall a key b, pw_batches w !! a = Some (key, b) ->
    p_addr key = a /\ known key /\ b_dev b = Some key /\ batch_wf b;
  wo_write : Forall (fun b => b_ts b <> [] /\ batch_wf b /\
    match b_dev b with Some d => known d | None => False end) (pw_write w);
  wo_touched : Forall known (pw_touched w);
  wo_batchRows : 1 <= pw_batchRows w;
}.

(** The rows of a device that left, or wait in its batch. *)
Definition pending (a : nat) (w : ParserWorker) : list Row :=
  match pw_batches w !! a with Some (_, b) => batch_rows b | None => [] end.

Definition out (a : nat) (w : ParserWorker) : list Row := written a (pw_write w) ++ pending a w.

Lemma new_worker_ok batchRows publish stats : worker_ok (newWorker batchRows publish stats).
Proof.
  constructor; [done|done|constructor|constructor|]. unfold newWorker, pw_batchRows.
  destruct (Z.ltb_spec 0 batchRows); lia.
Qed.

Lemma batchOf_ok w d : worker_ok w -> known d ->
  let b := batchOf w d in
  batch_wf b /\ batch_rows b = pending (p_addr d) w /\ (b_dev b = Some d \/ b = RowBatch0).
Proof.
  intros Hw Hd. unfold batchOf, pending.
  destruct (pw_batches w !! p_addr d) as [[key b]|] eqn:E;
    [|split_and!; [done|done|by right]].
  destruct (wo_batches _ Hw _ _ _ E) as (Ha & Hk & Hb & Hwf).
  rewrite (known_eq key d) in * by done. auto.
Qed.

(** Appending a row. *)
Lemma appendRow_ok w r : worker_ok w -> row_known r ->
  worker_ok (appendRow w r) /\
  (forall a, out a (appendRow w r) = out a w ++ device_rows a [r]) /\
  pw_write (appendRow w r) = pw_write w /\ pw_publish (appendRow w r) = pw_publish w.
Proof.
  intros Hw [[Hlen _] Hk]. destruct (batchOf_ok w (r_dev r) Hw Hk) as (Hwf & Hrows & Hdev).
  set (b := batchOf w (r_dev r)) in *.
  set (b1 := match b_dev b with Some _ => b | None => mkBatch (Some (r_dev r)) (b_ts b) (b_cells b) end).
  assert (b_dev b1 = Some (r_dev r) /\ batch_wf b1 /\ batch_rows b1 = batch_rows b) as (Hd1 & Hwf1 & Hr1).
  { unfold b1. destruct Hdev as [E|E]; [by rewrite E|].
    rewrite E. cbn. split_and!; [done|by rewrite lenZ_nil|done]. }
  assert (batch_rows (pushRow b1 (r_ts r) (r_cells r)) = batch_rows b ++ [r]) as Hpush.
  { unfold batch_rows at 1. simpl. rewrite Hd1, rows_of_snoc; [|unfold batch_wf in Hwf1; by rewrite Hd1 in Hwf1|done].
    rewrite <- Hr1. unfold batch_rows. rewrite Hd1. by destruct r. }
  assert (batch_wf (pushRow b1 (r_ts r) (r_cells r))) as Hwf2.
  { unfold batch_wf in *. simpl. rewrite Hd1 in *. rewrite !lenZ_app, Hwf1, Hlen, lenZ_cons, lenZ_nil. lia. }
  set (w1 := set_batches (<[p_addr (r_dev r) := (r_dev r, pushRow b1 (r_ts r) (r_cells r))]> (pw_batches w)) w).
  assert (worker_ok w1) as Hw1.
  { constructor; try apply Hw. intros a key b' Hl. simpl in Hl.
    apply lookup_insert_Some in Hl as [[<- [= <- <-]]|[_ Hl]]; [by split_and!|by apply (wo_batches _ Hw)]. }
  assert (forall a, out a w1 = out a w ++ device_rows a [r]) as Hout1.
  { intros a. unfold out, pending. simpl. rewrite <- app_assoc. f_equal.
    unfold device_rows. rewrite filter_cons. destruct (decide (p_addr (r_dev r) = a)) as [<-|Hne].
    - rewrite lookup_insert_eq, Hpush, Hrows. done.
    - rewrite lookup_insert_ne by done. by rewrite app_nil_r. }
  unfold appendRow. fold b. fold b1. fold w1.
  set (w2 := if d_isEvent (p_desc (r_dev r)) then _ else _).
  assert (worker_ok w2 /\ (forall a, out a w2 = out a w1) /\ pw_write w2 = pw_write w /\
    pw_publish w2 = pw_publish w) as (Hw2 & Hout2 & Hwr2 & Hp2).
  { unfold w2. destruct (d_isEvent _); split_and!; try done. constructor; apply Hw1. }
  destruct (match last (pw_touched w2) with Some _ => _ | None => _ end).
  - split_and!; try done. intros a. by rewrite Hout2.
  - split_and!; try done; [|intros a; by rewrite <- Hout1, <- Hout2].
    constructor; try apply Hw2. simpl. apply Forall_app. split; [apply Hw2|by repeat constructor].
Qed.

Lemma appendRows_ok rows : forall w, worker_ok w -> Forall row_known rows ->
  let w' := fold_left appendRow rows w in
  worker_ok w' /\ (forall a, out a w' = out a w ++ device_rows a rows) /\
  pw_write w' = pw_write w /\ pw_publish w' = pw_publish w.
Proof.
  induction rows as [|r rows IH]; intros w Hw Hr; simpl.
  - split_and!; try done. intros a. by rewrite app_nil_r.
  - apply Forall_cons in Hr as [Hr1 Hr]. destruct (appendRow_ok w r Hw Hr1) as (Hw1 & Ho1 & Hp1 & Hq1).
    destruct (IH (appendRow w r) Hw1 Hr) as (Hw2 & Ho2 & Hp2 & Hq2). split_and!; [done| |congruence..].
    intros a. rewrite Ho2, Ho1, <- app_assoc. f_equal. change (r :: rows) with ([r] ++ rows).
    unfold device_rows. by rewrite filter_app.
Qed.

(** Every row was handed to the publish path when it is on. *)
Definition published (p : option PublishQueue) (bs : list RowBatch) : option PublishQueue :=
  option_map (fun p => fold_left (fun p b => offer b p) bs p) p.

Lemma published_snoc p bs b : published p (bs ++ [b]) = option_map (offer b) (published p bs).
Proof. destruct p; simpl; [|done]. by rewrite fold_left_app. Qed.

(** Flushing a device moves its rows to the write queue and leaves the batch
    empty; the other devices are untouched. *)
Lemma flushDevice_ok w d : worker_ok w -> known d ->
  let w' := flushDevice w d in
  worker_ok w' /\ (forall a, out a w' = out a w) /\
  pending (p_addr d) w' = [] /\
  (forall a, a <> p_addr d -> pw_batches w' !! a = pw_batches w !! a) /\
  exists bs, pw_write w' = pw_write w ++ bs /\ pw_publish w' = published (pw_publish w) bs.
Proof.
  intros Hw Hd. unfold flushDevice.
  destruct (pw_batches w !! p_addr d) as [[key b]|] eqn:E.
  2:{ split_and!; try done; [unfold pending; by rewrite E|].
      exists []. rewrite app_nil_r. by destruct (pw_publish w). }
  destruct (wo_batches _ Hw _ _ _ E) as (Ha & Hk & Hb & Hwf).
  rewrite (known_eq key d) in * by done. unfold batchEmpty.
  destruct (b_ts b) as [|t ts] eqn:Ets.
  { split_and!; try done.
    - unfold pending, batch_rows. by rewrite E, Hb, Ets.
    - exists []. rewrite app_nil_r. by destruct (pw_publish w). }
  split_and!.
  - constructor; try apply Hw.
    + intros a key' b' Hl. simpl in Hl. apply lookup_insert_Some in Hl as [[<- [= <- <-]]|[_ Hl]].
      * by split_and!.
      * by apply (wo_batches _ Hw).
    + simpl. apply Forall_app. split; [apply Hw|]. apply Forall_singleton. rewrite Ets, Hb. done.
  - intros a. unfold out, written, pending. simpl.
    rewrite map_app, concat_app. unfold device_rows. rewrite filter_app, <- app_assoc. f_equal.
    destruct (decide (a = p_addr d)) as [->|Hne].
    + rewrite lookup_insert_eq, E. simpl. rewrite !app_nil_r.
      apply (device_rows_of d). unfold batch_rows. rewrite Hb. apply rows_of_device.
    + rewrite lookup_insert_ne by done. simpl. rewrite app_nil_r.
      assert (device_rows a (batch_rows b) = []) as H; [|unfold device_rows in H; by rewrite H].
      apply (device_rows_other d); [done|]. unfold batch_rows. rewrite Hb. apply rows_of_device.
  - unfold pending. simpl. by rewrite lookup_insert_eq.
  - intros a Hne. simpl. by rewrite lookup_insert_ne.
  - exists [b]. split; [done|]. simpl. by destruct (pw_publish w).
Qed.

(** Flushing a list of devices, whatever the test that selects them. *)
Lemma flush_fold (ds : list DevicePtr) (sel : ParserWorker -> DevicePtr -> bool) : forall w,
  worker_ok w -> Forall known ds ->
  let w' := fold_left (fun w d => if sel w d then flushDevice w d else w) ds w in
  worker_ok w' /\ (forall a, out a w' = out a w) /\
  exists bs, pw_write w' = pw_write w ++ bs /\ pw_publish w' = published (pw_publish w) bs.
Proof.
  induction ds as [|d ds IH]; intros w Hw Hds; simpl.
  - split_and!; try done. exists []. rewrite app_nil_r. by destruct (pw_publish w).
  - apply Forall_cons in Hds as [Hd Hds].
    set (w1 := if sel w d then flushDevice w d else w).
    assert (worker_ok w1 /\ (forall a, out a w1 = out a w) /\
      exists bs, pw_write w1 = pw_write w ++ bs /\ pw_publish w1 = published (pw_publish w) bs)
      as (Hw1 & Ho1 & bs1 & Hq1 & Hp1).
    { unfold w1. destruct (sel w d).
      - destruct (flushDevice_ok w d Hw Hd) as (? & ? & _ & _ & ?). done.
      - split_and!; try done. exists []. rewrite app_nil_r. by destruct (pw_publish w). }
    destruct (IH w1 Hw1 Hds) as (Hw2 & Ho2 & bs2 & Hq2 & Hp2). split_and!; [done|congruence|].
    exists (bs1 ++ bs2). split; [by rewrite Hq2, Hq1, <- app_assoc|].
    rewrite Hp2, Hp1. destruct (pw_publish w); simpl; [|done]. by rewrite fold_left_app.
Qed.

Lemma flush_fold_streams sel ds : forall w,
  pw_streams (fold_left (fun w d => if sel w d : bool then flushDevice w d else w) ds w) = pw_streams w.
Proof.
  induction ds as [|d ds IH]; intros w; simpl; [done|]. rewrite IH. destruct (sel w d); [|done].
  unfold flushDevice. destruct (pw_batches w !! p_addr d) as [[? ?]|]; [|done]. by destruct (batchEmpty _).
Qed.

Lemma appendRows_streams rows : forall w, pw_streams (fold_left appendRow rows w) = pw_streams w.
Proof.
  induction rows as [|r rows IH]; intros w; simpl; [done|]. rewrite IH. unfold appendRow.
  by destruct (d_isEvent _), (match last _ with Some _ => _ | None => _ end).
Qed.

Lemma flushTouched_sel w d : flushTouched w d =
  if match pw_batches w !! p_addr d with
     | Some (_, b) => negb (batchEmpty b) && (d_immediateFlush (p_desc d) || (pw_batchRows w <=? rowCount b))
     | None => false end then flushDevice w d else w.
Proof.
  unfold flushTouched. destruct (pw_batches w !! p_addr d) as [[key b]|]; [|done].
  by destruct (batchEmpty b).
Qed.

(** The events a running configuration can deliver. *)
Definition event_ok (e : ParserEvent) : Prop :=
  match e with
  | Timeout => True
  | Dequeued c => is_bytes (ch_data c) /\
      match ch_group c with Some gp => group_known gp | None => True end
  end.

(** One event: the worker state moves like the codec alone, and every device's
    output grows by its decoded rows. *)
Lemma parserStep_ok order w e : 
  (forall m, order m ≡ₚ map_to_list m) -> worker_ok w -> event_ok e ->
  exists w' streams' rows, parserStep order w e = Some w' /\ worker_ok w' /\
    decodeLoop (pw_streams w) [e] = Some (streams', rows) /\ pw_streams w' = streams' /\
    (forall a, out a w' = out a w ++ device_rows a rows) /\
    exists bs, pw_write w' = pw_write w ++ bs /\ pw_publish w' = published (pw_publish w) bs.
Proof.
  intros Ho Hw He. destruct e as [c|]; cbn [parserStep decodeLoop].
  2:{ unfold flushAll.
      set (ds := map (fun kv => fst (snd kv)) (order (pw_batches w))).
      assert (Forall known ds) as Hds.
      { unfold ds. apply Forall_map, Forall_forall. intros [a [key b]] Hin. rewrite Ho in Hin.
        apply elem_of_map_to_list in Hin. by destruct (wo_batches _ Hw _ _ _ Hin) as (_ & ? & _). }
      destruct (flush_fold ds (fun w d => negb (batchEmpty (batchOf w d))) w Hw Hds) as (Hw' & Ho' & Hbs).
      assert (forall l w0, fold_left (fun w (kv : nat * (DevicePtr * RowBatch)) =>
          if batchEmpty (batchOf w (fst (snd kv))) then w else flushDevice w (fst (snd kv))) l w0 =
        fold_left (fun w d => if negb (batchEmpty (batchOf w d)) then flushDevice w d else w)
          (map (fun kv => fst (snd kv)) l) w0) as Hfold.
      { induction l as [|kv l IH]; intros w0; simpl; [done|]. rewrite IH. by destruct (batchEmpty _). }
      rewrite Hfold. fold ds. eexists _, (pw_streams w), []. split; [done|]. split; [exact Hw'|].
      split; [done|]. split; [apply flush_fold_streams|].
      split; [intros a; by rewrite Ho', app_nil_r|exact Hbs]. }
  destruct He as [Hd Hg]. unfold parseChunk. destruct (ch_group c) as [gp|].
  2:{ exists w, (pw_streams w), []. split_and!; try done; [intros; by rewrite app_nil_r|].
      exists []. rewrite app_nil_r. by destruct (pw_publish w). }
  destruct (ch_data c) as [|x xs] eqn:Edata.
  { exists w, (pw_streams w), []. split_and!; try done; [intros; by rewrite app_nil_r|].
    exists []. rewrite app_nil_r. by destruct (pw_publish w). }
  rewrite <- Edata in Hd. clear Edata x xs.
  assert (group_stream_ok (gp_group gp) (default DeviceStream0 (pw_streams w !! gp_addr gp))) as Hst.
  { destruct (pw_streams w !! gp_addr gp) as [st|] eqn:E; [|apply group_stream0].
    destruct (wo_streams _ Hw _ _ E) as (g & Hgo & Hgs). rewrite (gk_group _ Hg) in Hgo. by injection Hgo as <-. }
  destruct (decodeChunk_ok gp c _ Hg Hst Hd) as (st' & rows & E & Hst' & Hrows & _).
  rewrite E. cbn [mbind option_bind]. rewrite app_nil_r.
  assert (worker_ok (set_touched [] w)) as Hw0 by (constructor; try apply Hw; constructor).
  destruct (appendRows_ok rows (set_touched [] w) Hw0 Hrows) as (Hw1 & Ho1 & Hq1 & Hp1).
  set (w1 := fold_left appendRow rows (set_touched [] w)) in *.
  assert (pw_streams w1 = pw_streams w) as Es1.
  { exact (appendRows_streams rows (set_touched [] w)). }
  set (w2 := if 0 <? swrap 32 (lenZ rows) then _ else w1).
  assert (worker_ok w2 /\ (forall a, out a w2 = out a w1) /\ pw_write w2 = pw_write w1 /\
    pw_publish w2 = pw_publish w1 /\ pw_streams w2 = pw_streams w1) as (Hw2 & Ho2 & Hq2 & Hp2 & Es2).
  { unfold w2. destruct (0 <? _); split_and!; try done. constructor; apply Hw1. }
  set (w3 := set_streams (<[gp_addr gp := logUnknown st']> (pw_streams w2)) w2).
  assert (worker_ok w3) as Hw3.
  { constructor; try apply Hw2. intros a st Hl. simpl in Hl.
    apply lookup_insert_Some in Hl as [[<- <-]|[_ Hl]]; [|by apply (wo_streams _ Hw2)].
    exists (gp_group gp). split; [apply Hg|by apply logUnknown_ok]. }
  set (sel := fun w d => match pw_batches w !! p_addr d with
     | Some (_, b) => negb (batchEmpty b) && (d_immediateFlush (p_desc d) || (pw_batchRows w <=? rowCount b))
     | None => false end).
  destruct (flush_fold (pw_touched w3) sel w3 Hw3) as (Hw4 & Ho4 & bs & Hq4 & Hp4); [apply Hw3|].
  assert (forall l w0, fold_left flushTouched l w0 =
    fold_left (fun w d => if sel w d then flushDevice w d else w) l w0) as Hfold.
  { induction l as [|d l IH]; intros w0; simpl; [done|]. by rewrite IH, flushTouched_sel. }
  rewrite Hfold. eexists _, (<[gp_addr gp := logUnknown st']> (pw_streams w)), rows.
  split; [done|]. split; [exact Hw4|]. split; [done|]. split; [|split].
  - rewrite flush_fold_streams. unfold w3. simpl. by rewrite Es2, Es1.
  - intros a. rewrite Ho4. change (out a w3) with (out a w2). rewrite Ho2, Ho1. done.
  - exists bs. rewrite Hq4, Hp4. change (pw_write w3) with (pw_write w2).
    change (pw_publish w3) with (pw_publish w2). by rewrite Hq2, Hp2, Hq1, Hp1.
Qed.

(** A run of the loop. *)
Lemma parserLoop_ok order es : forall w,
  (forall m, order m ≡ₚ map_to_list m) -> worker_ok w -> Forall event_ok es ->
  exists w' rows, parserLoop order w es = Some w' /\ worker_ok w' /\
    decodeLoop (pw_streams w) es = Some (pw_streams w', rows) /\
    (forall a, out a w' = out a w ++ device_rows a rows) /\
    exists bs, pw_write w' = pw_write w ++ bs /\ pw_publish w' = published (pw_publish w) bs.
Proof.
  induction es as [|e es IH]; intros w Ho Hw Hes.
  - exists w, []. split_and!; try done; [intros; by rewrite app_nil_r|].
    exists []. rewrite app_nil_r. by destruct (pw_publish w).
  - apply Forall_cons in Hes as [He Hes].
    destruct (parserStep_ok order w e Ho Hw He) as (w1 & s1 & r1 & E1 & Hw1 & D1 & Es & Ho1 & bs1 & Hq1 & Hp1).
    destruct (IH w1 Ho Hw1 Hes) as (w2 & r2 & E2 & Hw2 & D2 & Ho2 & bs2 & Hq2 & Hp2).
    exists w2, (r1 ++ r2). cbn [parserLoop]. rewrite E1. cbn [mbind option_bind]. split_and!; try done.
    + rewrite Es in D2. cbn [decodeLoop] in D1 |- *. destruct e as [c|].
      * destruct (ch_group c) as [gp|]; [destruct (ch_data c)|]; try (injection D1 as <- <-; exact D2).
        destruct (decodeChunk _ _ _) as [[st rs]|]; [|done]. cbn [mbind option_bind] in *.
        injection D1 as <- <-. rewrite D2. cbn [mbind option_bind]. by rewrite app_nil_r.
      * injection D1 as <- <-. exact D2.
    + intros a. rewrite Ho2, Ho1, <- app_assoc. unfold device_rows. by rewrite filter_app.
    + exists (bs1 ++ bs2). split; [by rewrite Hq2, Hq1, <- app_assoc|].
      rewrite Hp2, Hp1. destruct (pw_publish w); simpl; [|done]. by rewrite fold_left_app.
Qed.

(** The final flush leaves no row behind. *)
Lemma flushAll_empties order w : (forall m, order m ≡ₚ map_to_list m) -> worker_ok w ->
  worker_ok (flushAll order w) /\ (forall a, out a (flushAll order w) = out a w) /\
  (forall a, pending a (flushAll order w) = []) /\
  exists bs, pw_write (flushAll order w) = pw_write w ++ bs /\
    pw_publish (flushAll order w) = published (pw_publish w) bs.
Proof.
  intros Ho Hw. unfold flushAll. set (l := order (pw_batches w)).
  assert (forall a, pending a w = [] \/ a ∈ map (fun kv => p_addr (fst (snd kv))) l) as Hcover.
  { intros a. unfold pending. destruct (pw_batches w !! a) as [[key b]|] eqn:E; [right|by left].
    destruct (wo_batches _ Hw _ _ _ E) as (<- & _). apply list_elem_of_In, in_map_iff.
    exists (p_addr key, (key, b)). split; [done|]. apply list_elem_of_In. unfold l. rewrite Ho.
    by apply elem_of_map_to_list. }
  assert (Forall (fun kv => known (fst (snd kv))) l) as Hkn.
  { unfold l. apply Forall_forall. intros [a [key b]] Hin. rewrite Ho in Hin.
    apply elem_of_map_to_list in Hin. by destruct (wo_batches _ Hw _ _ _ Hin) as (_ & ? & _). }
  clearbody l. clear Ho. revert w Hw Hcover. induction Hkn as [|kv l Hk _ IH]; intros w Hw Hcover; simpl.
  - split_and!; try done.
    + intros a. destruct (Hcover a) as [?|H]; [done|]. by apply not_elem_of_nil in H.
    + exists []. rewrite app_nil_r. by destruct (pw_publish w).
  - set (w1 := if batchEmpty _ then w else flushDevice w (fst (snd kv))).
    assert (worker_ok w1 /\ (forall a, out a w1 = out a w) /\ pending (p_addr (fst (snd kv))) w1 = [] /\
      (forall a, a <> p_addr (fst (snd kv)) -> pw_batches w1 !! a = pw_batches w !! a) /\
      exists bs, pw_write w1 = pw_write w ++ bs /\ pw_publish w1 = published (pw_publish w) bs)
      as (Hw1 & Ho1 & He1 & Hs1 & bs1 & Hq1 & Hp1).
    { unfold w1. destruct (batchEmpty (batchOf w (fst (snd kv)))) eqn:Eb; [|by apply flushDevice_ok].
      destruct (batchOf_ok w (fst (snd kv)) Hw Hk) as (Hwf & Hr & Hdv). split_and!; try done.
      - rewrite <- Hr. unfold batch_rows, batchEmpty in *. destruct (b_ts _); [|done]. by destruct (b_dev _).
      - exists []. rewrite app_nil_r. by destruct (pw_publish w). }
    destruct (IH w1 Hw1) as (Hw2 & Ho2 & He2 & bs2 & Hq2 & Hp2).
    { intros a. destruct (decide (a = p_addr (fst (snd kv)))) as [->|Hne]; [by left|].
      destruct (Hcover a) as [Hpa|[|]%elem_of_cons]; [left|done|by right].
      unfold pending in *. by rewrite Hs1. }
    split_and!; [done|intros; by rewrite Ho2|done|].
    exists (bs1 ++ bs2). split; [by rewrite Hq2, Hq1, <- app_assoc|].
    rewrite Hp2, Hp1. destruct (pw_publish w); simpl; [|done]. by rewrite fold_left_app.
Qed.

(** ** How long rows wait *)

(** A batch that may stay behind after an event. *)
Definition may_wait (w : ParserWorker) (key : DevicePtr) (b : RowBatch) : Prop :=
  b_ts b = [] \/ (d_immediateFlush (p_desc key) = false /\ lenZ (b_ts b) < pw_batchRows w).

Definition quiet (w : ParserWorker) : Prop :=
  forall a key b, pw_batches w !! a = Some (key, b) -> may_wait w key b.

(** While the touched devices are being processed. *)
Definition settling (w : ParserWorker) (todo : list DevicePtr) (bound : Z) : Prop :=
  forall a key b, pw_batches w !! a = Some (key, b) ->
    lenZ (b_ts b) < bound /\ (may_wait w key b \/ exists d, d ∈ todo /\ p_addr d = a).

Lemma appendRow_batchRows w r : pw_batchRows (appendRow w r) = pw_batchRows w.
Proof.
  unfold appendRow. by destruct (d_isEvent _), (match last _ with Some _ => _ | None => _ end).
Qed.

Lemma appendRow_settling w r bound : worker_ok w -> row_known r -> 0 < bound ->
  settling w (pw_touched w) bound -> settling (appendRow w r) (pw_touched (appendRow w r)) (bound + 1).
Proof.
  intros Hw Hr Hb Hs a key b Hl.
  assert (exists d, d ∈ pw_touched (appendRow w r) /\ p_addr d = p_addr (r_dev r)) as Htouch.
  { unfold appendRow. set (w1 := if d_isEvent _ then _ else _).
    assert (pw_touched w1 = pw_touched w) as E by (unfold w1; by destruct (d_isEvent _)).
    rewrite E. destruct (last (pw_touched w)) as [d|] eqn:El.
    - destruct (Nat.eqb_spec (p_addr d) (p_addr (r_dev r))) as [Ea|_].
      + exists d. split; [|done]. rewrite E. apply last_Some in El as [l' ->]. apply elem_of_app. right. left.
      + exists (r_dev r). split; [|done]. simpl. apply elem_of_app. right. left.
    - exists (r_dev r). split; [|done]. simpl. apply elem_of_app. right. left. }
  assert (forall d, d ∈ pw_touched w -> d ∈ pw_touched (appendRow w r)) as Hsub.
  { intros d Hd. unfold appendRow. set (w1 := if d_isEvent _ then _ else _).
    assert (pw_touched w1 = pw_touched w) as E by (unfold w1; by destruct (d_isEvent _)).
    destruct (match last _ with Some _ => _ | None => _ end); [by rewrite E|]. simpl. rewrite E.
    apply elem_of_app. by left. }
  assert (pw_batches (appendRow w r) = <[p_addr (r_dev r) := (r_dev r,
    pushRow (match b_dev (batchOf w (r_dev r)) with Some _ => batchOf w (r_dev r)
             | None => mkBatch (Some (r_dev r)) (b_ts (batchOf w (r_dev r))) (b_cells (batchOf w (r_dev r))) end)
      (r_ts r) (r_cells r))]> (pw_batches w)) as Em.
  { unfold appendRow. by destruct (d_isEvent _), (match last _ with Some _ => _ | None => _ end). }
  rewrite Em in Hl. apply lookup_insert_Some in Hl as [[<- [= <- <-]]|[Hne Hl]].
  - split; [|by right]. simpl.
    assert (lenZ (b_ts (batchOf w (r_dev r))) < bound) as Hlen.
    { unfold batchOf. destruct (pw_batches w !! p_addr (r_dev r)) as [[k0 b0]|] eqn:E; [by apply (Hs _ _ _ E)|done]. }
    destruct (b_dev (batchOf w (r_dev r))); simpl; rewrite lenZ_app, lenZ_cons, lenZ_nil; lia.
  - destruct (Hs _ _ _ Hl) as [Hlen [Hm|(d & Hd & Ha)]].
    + split; [lia|left]. unfold may_wait in *. by rewrite appendRow_batchRows.
    + split; [lia|right]. exists d. auto.
Qed.

Lemma appendRows_settling rows : forall w bound, worker_ok w -> Forall row_known rows -> 0 < bound ->
  settling w (pw_touched w) bound ->
  let w' := fold_left appendRow rows w in
  settling w' (pw_touched w') (bound + lenZ rows) /\ pw_batchRows w' = pw_batchRows w.
Proof.
  induction rows as [|r rows IH]; intros w bound Hw Hr Hb Hs; simpl.
  - by rewrite lenZ_nil, Z.add_0_r.
  - apply Forall_cons in Hr as [Hr1 Hr]. pose proof (appendRow_settling w r bound Hw Hr1 Hb Hs) as Hs1.
    destruct (appendRow_ok w r Hw Hr1) as (Hw1 & _).
    destruct (IH _ (bound + 1) Hw1 Hr ltac:(lia) Hs1) as [H1 H2]. split.
    + rewrite lenZ_cons. replace (bound + (1 + lenZ rows)) with (bound + 1 + lenZ rows) by lia. exact H1.
    + by rewrite H2, appendRow_batchRows.
Qed.

Lemma flushTouched_settling d todo bound w : worker_ok w -> known d -> 0 < bound <= 2 ^ 31 ->
  settling w (d :: todo) bound ->
  settling (flushTouched w d) todo bound /\ worker_ok (flushTouched w d) /\
  pw_batchRows (flushTouched w d) = pw_batchRows w.
Proof.
  intros Hw Hd Hb Hs. rewrite flushTouched_sel.
  assert (forall w', pw_batchRows w' = pw_batchRows w ->
    (forall a, a <> p_addr d -> pw_batches w' !! a = pw_batches w !! a) ->
    (forall key b, pw_batches w' !! p_addr d = Some (key, b) -> lenZ (b_ts b) < bound /\ may_wait w' key b) ->
    settling w' todo bound) as Hset.
  { intros w' Hbr Hne Hat a key b Hl. destruct (decide (a = p_addr d)) as [->|Hn].
    - destruct (Hat _ _ Hl). split; [done|by left].
    - rewrite Hne in Hl by done. destruct (Hs _ _ _ Hl) as [Hlen [Hm|(e & [->|He]%elem_of_cons & Ha)]].
      + split; [done|left]. unfold may_wait in *. by rewrite Hbr.
      + congruence.
      + split; [done|right]. by exists e. }
  destruct (pw_batches w !! p_addr d) as [[key b]|] eqn:E.
  2:{ split_and!; try done. apply Hset; try done. intros key b Hl. congruence. }
  destruct (wo_batches _ Hw _ _ _ E) as (Ha & Hk & Hbd & Hwf).
  assert (key = d) as -> by by apply known_eq. clear Ha Hk.
  destruct (Hs _ _ _ E) as [Hlen _]. pose proof (lenZ_nonneg (b_ts b)) as Hnn.
  assert (rowCount b = lenZ (b_ts b)) as Hrc by (unfold rowCount; apply swrap_small; lia).
  destruct (negb (batchEmpty b) && (d_immediateFlush (p_desc d) || (pw_batchRows w <=? rowCount b))) eqn:Hsel.
  - destruct (flushDevice_ok w d Hw Hd) as (Hw' & _ & _ & Hne & _).
    assert (pw_batchRows (flushDevice w d) = pw_batchRows w /\
      pw_batches (flushDevice w d) !! p_addr d = Some (d, mkBatch (Some d) [] [])) as [Hbr Hat].
    { unfold flushDevice. rewrite E. destruct (batchEmpty b); [done|]. simpl.
      split; [done|]. apply lookup_insert_eq. }
    split_and!; try done. apply Hset; try done. intros key' b' Hl. rewrite Hat in Hl. injection Hl as <- <-.
    split; [simpl; rewrite lenZ_nil; lia|by left].
  - split_and!; try done. apply Hset; try done. intros key' b' Hl. rewrite E in Hl. injection Hl as <- <-.
    split; [done|]. unfold may_wait, batchEmpty in *. destruct (b_ts b) as [|t ts] eqn:Et; [by left|right].
    cbn [negb andb] in Hsel. apply orb_false_iff in Hsel as [H1 H2]. rewrite Hrc, <- Et in H2.
    rewrite <- Et. split; [done|]. by apply Z.leb_gt in H2.
Qed.

Lemma flushTouched_settled ds : forall bound w, worker_ok w -> Forall known ds -> 0 < bound <= 2 ^ 31 ->
  settling w ds bound -> quiet (fold_left flushTouched ds w) /\
  pw_batchRows (fold_left flushTouched ds w) = pw_batchRows w.
Proof.
  induction ds as [|d ds IH]; intros bound w Hw Hds Hb Hs; simpl.
  - split; [|done]. intros a key b Hl. destruct (Hs _ _ _ Hl) as [_ [?|(d & Hd & _)]]; [done|].
    by apply not_elem_of_nil in Hd.
  - apply Forall_cons in Hds as [Hd Hds].
    destruct (flushTouched_settling d ds bound w Hw Hd Hb Hs) as (Hs' & Hw' & Hbr).
    rewrite <- Hbr. by apply (IH bound).
Qed.
End Registry.

(** The batch size never changes. *)
Lemma flushDevice_batchRows w d : pw_batchRows (flushDevice w d) = pw_batchRows w.
Proof.
  unfold flushDevice. destruct (pw_batches w !! _) as [[? ?]|]; [|done]. by destruct (batchEmpty _).
Qed.

Lemma flushTouched_batchRows l : forall w, pw_batchRows (fold_left flushTouched l w) = pw_batchRows w.
Proof.
  induction l as [|d l IH]; intros w; simpl; [done|]. rewrite IH, flushTouched_sel.
  match goal with |- context [if ?b then _ else _] => destruct b end; [|done]. apply flushDevice_batchRows.
Qed.

Lemma appendRows_batchRows l : forall w, pw_batchRows (fold_left appendRow l w) = pw_batchRows w.
Proof. induction l as [|r l IH]; intros w; simpl; [done|]. by rewrite IH, appendRow_batchRows. Qed.

Lemma parserStep_batchRows order w e w' :
  parserStep order w e = Some w' -> pw_batchRows w' = pw_batchRows w.
Proof.
  destruct e as [c|]; cbn [parserStep].
  - unfold parseChunk. destruct (ch_group c) as [gp|]; [|by intros [= <-]].
    destruct (ch_data c); [by intros [= <-]|].
    destruct (decodeChunk _ _ _) as [[st rows]|]; [|done]. cbn [mbind option_bind]. intros [= <-].
    rewrite flushTouched_batchRows. simpl. destruct (0 <? _); simpl; by rewrite appendRows_batchRows.
  - intros [= <-]. unfold flushAll. generalize (order (pw_batches w)) as l. intros l. revert w.
    induction l as [|kv l IH]; intros w; simpl; [done|]. rewrite IH.
    destruct (batchEmpty _); [done|apply flushDevice_batchRows].
Qed.

Lemma parserLoop_batchRows order es : forall w w',
  parserLoop order w es = Some w' -> pw_batchRows w' = pw_batchRows w.
Proof.
  induction es as [|e es IH]; intros w w' E; cbn [parserLoop] in E; [by injection E as <-|].
  destruct (parserStep order w e) as [w1|] eqn:E1; [|done]. cbn [mbind option_bind] in E.
  rewrite (IH w1 w' E). by eapply parserStep_batchRows.
Qed.

(** ** Loaded configurations *)

(** A loaded configuration knows its own groups. *)
Lemma loaded_group_known db gi g :
  devices_ok (db_devices db) -> groupAt db gi = Some g ->
  group_known (fun a => db_devices db !! a) (groupAt db) (mkGroupPtr gi g).
Proof.
  intros Hd Hg. constructor; [done|by eapply groupAt_ok|]. simpl. unfold groupAt in Hg.
  destruct (db_groups db !! gi) as [gx|]; [|done]. injection Hg as <-. simpl.
  apply Forall_forall. intros p Hp. apply list_elem_of_omap in Hp as (i & _ & Hi).
  unfold deviceAt in Hi. destruct (db_devices db !! i) eqn:E; [|done]. injection Hi as <-. exact E.
Qed.

Section Policy.
Context (deviceOf : nat -> option DeviceDesc) (groupOf : nat -> option DeviceGroup)
  (order : gmap nat (DevicePtr * RowBatch) -> list (nat * (DevicePtr * RowBatch)))
  (Horder : forall m, order m ≡ₚ map_to_list m).

Definition event_small (e : ParserEvent) : Prop :=
  match e with Dequeued c => lenZ (ch_data c) <= 2 ^ 29 | Timeout => True end.

Lemma batch_rows_nil b d : b_dev b = Some d -> batch_rows b = [] -> b_ts b = [].
Proof. unfold batch_rows. intros ->. by destruct (b_ts b). Qed.

Lemma parserStep_quiet w e w' :
  worker_ok deviceOf groupOf w -> quiet w -> event_ok deviceOf groupOf e -> event_small e ->
  pw_batchRows w <= 2 ^ 30 -> parserStep order w e = Some w' -> quiet w'.
Proof.
  intros Hw Hq He Hsm Hbr E. destruct e as [c|]; cbn [parserStep] in E.
  2:{ injection E as <-. destruct (flushAll_empties deviceOf groupOf order w Horder Hw) as (Hw' & _ & Hp & _).
      intros a key b Hl. left. destruct (wo_batches _ _ _ Hw' _ _ _ Hl) as (_ & _ & Hd & _).
      apply (batch_rows_nil b key Hd). specialize (Hp a). unfold pending in Hp. by rewrite Hl in Hp. }
  destruct He as [Hd Hg]. unfold parseChunk in E. destruct (ch_group c) as [gp|]; [|by injection E as <-].
  destruct (ch_data c) as [|x xs] eqn:Edata; [by injection E as <-|]. rewrite <- Edata in Hd. 
  cbn [event_small] in Hsm. clear Edata x xs.
  assert (group_stream_ok (gp_group gp) (default DeviceStream0 (pw_streams w !! gp_addr gp))) as Hst.
  { destruct (pw_streams w !! gp_addr gp) as [st|] eqn:Es; [|apply group_stream0].
    destruct (wo_streams _ _ _ Hw _ _ Es) as (g & Hgo & Hgs). rewrite (gk_group _ _ _ Hg) in Hgo. by injection Hgo as <-. }
  destruct (decodeChunk_ok deviceOf groupOf gp c _ Hg Hst Hd) as (st' & rows & Ed & _ & Hrows & Hcnt & _).
  rewrite Ed in E. cbn [mbind option_bind] in E. injection E as <-.
  assert (worker_ok deviceOf groupOf (set_touched [] w)) as Hw0 by (constructor; try apply Hw; constructor).
  pose proof (wo_batchRows _ _ _ Hw) as Hpos.
  destruct (appendRows_settling deviceOf groupOf rows (set_touched [] w) (pw_batchRows w) Hw0 Hrows ltac:(lia)) as [Hs1 Hb1].
  { intros a key b Hl. pose proof (Hq a key b Hl) as Hm. split; [|by left].
    destruct Hm as [->|[_ ?]]; [rewrite lenZ_nil; lia|done]. }
  destruct (appendRows_ok deviceOf groupOf rows (set_touched [] w) Hw0 Hrows) as (Hw1 & _ & _ & _).
  set (w1 := fold_left appendRow rows (set_touched [] w)) in *.
  set (w2 := if 0 <? swrap 32 (lenZ rows) then _ else w1).
  set (w3 := set_streams (<[gp_addr gp := logUnknown st']> (pw_streams w2)) w2).
  assert (pw_batches w3 = pw_batches w1 /\ pw_touched w3 = pw_touched w1 /\ pw_batchRows w3 = pw_batchRows w1 /\
    pw_write w3 = pw_write w1) as (E1 & E2 & E3 & E4) by (unfold w3, w2; by destruct (0 <? _)).
  assert (settling w3 (pw_touched w3) (pw_batchRows w + lenZ rows)) as Hs3.
  { intros a key b Hl. rewrite E1 in Hl. rewrite E2. destruct (Hs1 _ _ _ Hl) as [H1 H2]. split; [done|].
    unfold may_wait in *. by rewrite E3. }
  destruct (decodeChunk_ok deviceOf groupOf gp c _ Hg Hst Hd) as (st2 & rows2 & Ed2 & Hst2 & _).
  rewrite Ed in Ed2. injection Ed2 as <- <-.
  assert (worker_ok deviceOf groupOf w3) as Hw3.
  { constructor; rewrite ?E1, ?E2, ?E3, ?E4; try apply Hw1. intros a st Hl. unfold w3 in Hl. simpl in Hl.
    apply lookup_insert_Some in Hl as [[<- <-]|[_ Hl]].
    - exists (gp_group gp). split; [apply Hg|by apply logUnknown_ok].
    - assert (pw_streams w2 = pw_streams w1) as Es by (unfold w2; by destruct (0 <? _)).
      rewrite Es in Hl. by apply (wo_streams _ _ _ Hw1). }
  pose proof (lenZ_nonneg rows). unfold kMaxFrame in Hcnt.
  apply (flushTouched_settled deviceOf groupOf (pw_touched w3) (pw_batchRows w + lenZ rows) w3 Hw3);
    [apply Hw3|lia|exact Hs3].
Qed.

Lemma parserLoop_quiet es : forall w w',
  worker_ok deviceOf groupOf w -> quiet w -> Forall (event_ok deviceOf groupOf) es ->
  Forall event_small es -> pw_batchRows w <= 2 ^ 30 -> parserLoop order w es = Some w' -> quiet w'.
Proof.
  induction es as [|e es IH]; intros w w' Hw Hq He Hs Hb E; cbn [parserLoop] in E; [by injection E as <-|].
  apply Forall_cons in He as [He Hes]. apply Forall_cons in Hs as [Hs Hss].
  destruct (parserStep_ok deviceOf groupOf order w e Horder Hw He) as (w1 & ? & ? & E1 & Hw1 & _).
  rewrite E1 in E. cbn [mbind option_bind] in E.
  pose proof (parserStep_quiet w e w1 Hw Hq He Hs Hb E1) as Hq1.
  apply (IH w1); try done. by rewrite (parserStep_batchRows _ _ _ _ E1).
Qed.
End Policy.

(** ** Properties *)

(** C12: the parser thread loses, duplicates, reorders and mixes no row: run on
    any sequence of chunks and timeouts and then stopped, it enqueues for every
    device exactly the rows the codec decoded for it, in order, in non-empty
    row-major batches; and it hands every batch to the publish path. *)
Theorem parserRun_conserves deviceOf groupOf order batchRows publish stats es :
  (forall m, order m ≡ₚ map_to_list m) -> Forall (event_ok deviceOf groupOf) es ->
  exists w' streams rows, parserRun order (newWorker batchRows publish stats) es = Some w' /\
    decodeLoop ∅ es = Some (streams, rows) /\
    (forall a, written a (pw_write w') = device_rows a rows) /\
    Forall (fun b => b_ts b <> [] /\ batch_wf b) (pw_write w') /\
    pw_publish w' = published publish (pw_write w').
Proof.
  intros Ho Hes. pose proof (new_worker_ok deviceOf groupOf batchRows publish stats) as Hw.
  destruct (parserLoop_ok deviceOf groupOf order es _ Ho Hw Hes)
    as (w1 & rows & E & Hw1 & D & Hout & bs1 & Hq1 & Hp1).
  destruct (flushAll_empties deviceOf groupOf order w1 Ho Hw1) as (Hw2 & Hout2 & Hempty & bs2 & Hq2 & Hp2).
  exists (flushAll order w1), (pw_streams w1), rows. unfold parserRun. rewrite E. cbn [mbind option_bind].
  split_and!; try done.
  - intros a. specialize (Hout a). specialize (Hout2 a). unfold out in Hout, Hout2.
    rewrite Hempty, app_nil_r in Hout2. rewrite Hout2, Hout. done.
  - eapply Forall_impl; [apply (wo_write _ _ _ Hw2)|]. by intros b (? & ? & _).
  - rewrite Hp2, Hp1, Hq2, Hq1. simpl. destruct publish; simpl; [|done]. by rewrite fold_left_app.
Qed.

(** No row of a device flushed immediately is left waiting after an
    event, and a waiting batch holds fewer than [batchRows] rows: what stays in
    memory is bounded and only event or modbus data is delayed (chunks up to
    512 MiB, batches up to 2^30 rows). *)
Theorem parserLoop_flush_policy deviceOf groupOf order batchRows publish stats es w' :
  (forall m, order m ≡ₚ map_to_list m) -> Forall (event_ok deviceOf groupOf) es ->
  Forall event_small es -> batchRows <= 2 ^ 30 ->
  parserLoop order (newWorker batchRows publish stats) es = Some w' ->
  forall a key b, pw_batches w' !! a = Some (key, b) ->
    b_ts b = [] \/ (d_immediateFlush (p_desc key) = false /\ lenZ (b_ts b) < Z.max 1 batchRows).
Proof.
  intros Ho Hes Hs Hb E a key b Hl.
  pose proof (new_worker_ok deviceOf groupOf batchRows publish stats) as Hw.
  assert (pw_batchRows (newWorker batchRows publish stats) = Z.max 1 batchRows) as Hbr.
  { unfold newWorker, pw_batchRows. destruct (Z.ltb_spec 0 batchRows); lia. }
  assert (pw_batchRows w' = Z.max 1 batchRows) as Hbr'.
  { rewrite <- Hbr. apply (parserLoop_batchRows order _ _ _ E). }
  assert (quiet w') as Hq.
  { apply (parserLoop_quiet deviceOf groupOf order Ho es _ w' Hw); try done. lia. }
  specialize (Hq a key b Hl). unfold may_wait in Hq. by rewrite Hbr' in Hq.
Qed.

(** ** Witnesses *)

Definition demo_deviceOf (a : nat) : option DeviceDesc :=
  match a with
  | 0%nat => Some (p_desc Demo.status)
  | 1%nat => Some (p_desc Demo.event)
  | _ => None
  end.
Definition demo_groupOf (a : nat) : option DeviceGroup :=
  match a with 0%nat => Some Demo.group | _ => None end.

(** A status frame split over two chunks, an unmatched chunk, an event frame
    and a timeout. *)
Definition demo_events : list ParserEvent :=
  [Dequeued (mkChunk (Some (mkGroupPtr 0 Demo.group)) 7 [1; 0; 7; 0; 9; 0; 0xFE; 0xFF]);
   Dequeued (mkChunk None 8 [1; 2]);
   Dequeued (mkChunk (Some (mkGroupPtr 0 Demo.group)) 9
     [0xA3; 0; 0; 0x80; 0x3F; 2; 0xEE; 6; 0; 10; 0; 0x34; 0x12; 1; 5; 0; 0; 0xEE]);
   Timeout].

Lemma demo_group_known : group_known demo_deviceOf demo_groupOf (mkGroupPtr 0 Demo.group).
Proof.
  constructor; [reflexivity|exact Demo.group_is_ok|].
  apply Forall_cons; split; [reflexivity|apply Forall_cons; split; [reflexivity|by apply Forall_nil]].
Qed.

Ltac solve_events :=
  unfold demo_events; repeat (apply Forall_cons; split; [|]);
  [split; [solve_bytes|exact demo_group_known]
  |split; [solve_bytes|exact I]
  |split; [solve_bytes|exact demo_group_known]
  |exact I
  |apply Forall_nil; exact I].

Lemma parserRun_conserves_witness :
  exists w' streams rows, parserRun map_to_list (newWorker 10 None AdapterStats0) demo_events = Some w' /\
    decodeLoop ∅ demo_events = Some (streams, rows) /\
    (forall a, written a (pw_write w') = device_rows a rows) /\
    Forall (fun b => b_ts b <> [] /\ batch_wf b) (pw_write w') /\
    pw_publish w' = published None (pw_write w').
Proof.
  apply (parserRun_conserves demo_deviceOf demo_groupOf map_to_list 10 None AdapterStats0 demo_events).
  - intros m. reflexivity.
  - solve_events.
Defined.

(** What that run enqueues: times and cell values per batch. *)
Lemma demo_parser_run :
  option_map (fun w => map (fun b => (option_map p_addr (b_dev b), b_ts b, map cell_i (b_cells b))) (pw_write w))
    (parserRun map_to_list (newWorker 10 None AdapterStats0) demo_events) =
  Some [(Some 1%nat, [9; 9], [0x1234; 1; 5; 0]); (Some 0%nat, [9], [-2; 10; 0x3FF0000000000000])].
Proof. vm_compute. reflexivity. Qed.

Lemma parserLoop_flush_policy_witness :
  exists w', parserLoop map_to_list (newWorker 2 None AdapterStats0) demo_events = Some w' /\
  forall a key b, pw_batches w' !! a = Some (key, b) ->
    b_ts b = [] \/ (d_immediateFlush (p_desc key) = false /\ lenZ (b_ts b) < Z.max 1 2).
Proof.
  assert (match parserLoop map_to_list (newWorker 2 None AdapterStats0) demo_events with
    Some _ => true | None => false end = true) as H by (vm_compute; reflexivity).
  destruct (parserLoop map_to_list (newWorker 2 None AdapterStats0) demo_events) as [w'|] eqn:E; [|discriminate].
  exists w'. split; [reflexivity|].
  apply (parserLoop_flush_policy demo_deviceOf demo_groupOf map_to_list 2 None AdapterStats0 demo_events w').
  - intros m. reflexivity.
  - solve_events.
  - repeat (apply Forall_cons; split; [simpl; unfold lenZ; simpl; first [lia|exact I]|]). apply Forall_nil. exact I.
  - lia.
  - exact E.
Defined.
