(* ===== verification/DoubleText.v ===== *)
(** * Decimal text of floating-point numbers

    [formatDouble] of [src/src/adapter/EtherDBWriter.cpp]: an output stream
    with precision 10 and default float field, i.e. the ["%.10g"] conversion of
    the C library: the exact value is rounded to ten significant digits (ties
    to even), printed in fixed notation when the decimal exponent is at least -4
    and below ten and in scientific notation otherwise, without trailing
    zeros.  Doubles are 64-bit patterns ([Floats]). *)

From stdpp Require Import base list numbers strings pretty.
From Stdlib Require Import ZArith Lia Ascii.
From S2P Require Import Prelude Floats CText.
Local Open Scope Z_scope.

(** The largest [k <= fuel] with [10^k * den <= num], for [den <= num]. *)
Fixpoint log10_up (fuel : nat) (num den : Z) : Z :=
  match fuel with
  | O => 0
  | S fuel' => if 10 * den <=? num then 1 + log10_up fuel' num (10 * den) else 0
  end.

(** The least [k <= fuel] with [den <= 10^k * num]. *)
Fixpoint log10_down (fuel : nat) (num den : Z) : Z :=
  match fuel with
  | O => 0
  | S fuel' => if den <=? num then 0 else 1 + log10_down fuel' (10 * num) den
  end.

(** The decimal exponent of [num / den]; doubles lie in [10^-324 .. 10^309]. *)
Definition log10_floor (num den : Z) : Z :=
  if den <=? num then log10_up 330 num den else - log10_down 330 num den.

(** [num / den] to the nearest integer, ties to even. *)
Definition div_rne (num den : Z) : Z :=
  let q := num / den in
  let r := num mod den in
  if 2 * r <? den then q else if den <? 2 * r then q + 1 else q + q mod 2.

(** [P] significant digits and the exponent of the first one. *)
Definition round_digits (P num den : Z) : Z * Z :=
  let X := log10_floor num den in
  let s := P - 1 - X in
  let D := if 0 <=? s then div_rne (num * 10 ^ s) den else div_rne num (den * 10 ^ (- s)) in
  if D =? 10 ^ P then (10 ^ (P - 1), X + 1) else (D, X).

(** Exactly [w] digits, zeros in front. *)
Fixpoint digits_pad (w : nat) (v : Z) : string :=
  match w with
  | O => EmptyString
  | S w' => digits_pad w' (v / 10) +:+ String.String (Ascii.ascii_of_N (Z.to_N (48 + v mod 10))) EmptyString
  end.

Fixpoint strip_zeros (fuel : nat) (w v : Z) : Z * Z :=
  match fuel with
  | O => (w, v)
  | S fuel' => if (0 <? w) && (v mod 10 =? 0) then strip_zeros fuel' (w - 1) (v / 10) else (w, v)
  end.

(** The fraction [v / 10^w] behind its point, without trailing zeros. *)
Definition fraction_text (w v : Z) : string :=
  let '(w', v') := strip_zeros (Z.to_nat w) w v in
  if w' =? 0 then EmptyString else String.String "."%char (digits_pad (Z.to_nat w') v').

(** ["%.<P>g"] of a positive rational *)
Definition format_positive (P num den : Z) : string :=
  let '(D, X) := round_digits P num den in
  if (-4 <=? X) && (X <? P) then
    let w := P - 1 - X in
    to_string (D / 10 ^ w) +:+ fraction_text w (D mod 10 ^ w)
  else
    to_string (D / 10 ^ (P - 1)) +:+ fraction_text (P - 1) (D mod 10 ^ (P - 1)) +:+ "e" +:+
    (if X <? 0 then "-" else "+") +:+
    (if Z.abs X <? 10 then "0" else "") +:+ to_string (Z.abs X).

(** [formatDouble] *)
Definition formatDouble (v : Z) : string :=
  let sign := if fp_sign 52 11 v =? 1 then "-" else "" in
  if fp_exp 52 11 v =? 2 ^ 11 - 1 then
    sign +:+ (if fp_man 52 v =? 0 then "inf" else "nan")
  else
    let '(M, E) := fp_finite 52 11 v in
    sign +:+ (if M =? 0 then "0"
              else if 0 <=? E then format_positive 10 (M * 2 ^ E) 1
              else format_positive 10 M (2 ^ (- E))).

Example format_1_5 : formatDouble 0x3FF8000000000000 = "1.5".
Proof. reflexivity. Qed.
Example format_tenth : formatDouble 0x3FB999999999999A = "0.1".
Proof. reflexivity. Qed.
Example format_minus_third : formatDouble 0xBFD5555555555555 = "-0.3333333333".
Proof. vm_compute. reflexivity. Qed.
Example format_big : formatDouble 0x4202A05F20000000 = "1e+10".
Proof. vm_compute. reflexivity. Qed.
Example format_carry : formatDouble (i64_to_f64 99999999999) = "1e+11".
Proof. vm_compute. reflexivity. Qed.
Example format_min : formatDouble 1 = "4.940656458e-324".
Proof. vm_compute. reflexivity. Qed.
Example format_small : formatDouble 0x3F1A36E2EB1C432D = "0.0001".
Proof. vm_compute. reflexivity. Qed.
Example format_zero : formatDouble 0x8000000000000000 = "-0".
Proof. reflexivity. Qed.

(** ** Integers of at most ten digits are printed exactly *)

Lemma log10_up_spec fuel : forall num den k, 0 < den -> 0 <= k < Z.of_nat fuel ->
  10 ^ k * den <= num < 10 ^ (k + 1) * den -> log10_up fuel num den = k.
Proof.
  induction fuel as [|fuel IH]; intros num den k Hd Hk H; [lia|]. cbn [log10_up].
  destruct (Z.leb_spec (10 * den) num) as [H1|H1].
  - assert (k <> 0) by (intros ->; change (10 ^ (0 + 1)) with 10 in H; lia).
    rewrite (IH num (10 * den) (k - 1)); [lia|lia|lia|].
    replace (10 ^ k) with (10 ^ (k - 1) * 10) in H by (rewrite Z.mul_comm, <- Z.pow_succ_r by lia; f_equal; lia).
    replace (10 ^ (k + 1)) with (10 ^ (k - 1 + 1) * 10) in H
      by (rewrite Z.mul_comm, <- Z.pow_succ_r by lia; f_equal; lia).
    lia.
  - destruct (decide (k = 0)) as [->|Hn]; [done|].
    assert (10 ^ 1 <= 10 ^ k) by (apply Z.pow_le_mono_r; lia). change (10 ^ 1) with 10 in *. nia.
Qed.

Lemma div_rne_exact q den : 0 < den -> div_rne (q * den) den = q.
Proof.
  intros Hd. unfold div_rne. rewrite Z.div_mul, Z.mod_mul by lia.
  destruct (Z.ltb_spec (2 * 0) den); lia.
Qed.

(** The exponent of the leading digit of an integer. *)
Lemma digits_of n : 0 < n < 10 ^ 10 -> exists X, 0 <= X < 10 /\ 10 ^ X <= n < 10 ^ (X + 1).
Proof.
  intros H. exists (Z.of_nat (length (filter (fun k => 10 ^ k <= n) [1; 2; 3; 4; 5; 6; 7; 8; 9]))).
  assert (n < 10 \/ 10 <= n < 10 ^ 2 \/ 10 ^ 2 <= n < 10 ^ 3 \/ 10 ^ 3 <= n < 10 ^ 4 \/
    10 ^ 4 <= n < 10 ^ 5 \/ 10 ^ 5 <= n < 10 ^ 6 \/ 10 ^ 6 <= n < 10 ^ 7 \/ 10 ^ 7 <= n < 10 ^ 8 \/
    10 ^ 8 <= n < 10 ^ 9 \/ 10 ^ 9 <= n) as Hc by lia.
  repeat destruct Hc as [Hc|Hc].
  all: repeat (rewrite filter_cons; first [rewrite decide_False by lia|rewrite decide_True by lia]).
  all: rewrite filter_nil; simpl; lia.
Qed.

Lemma format_positive_integer n den : 0 < n < 10 ^ 10 -> 0 < den ->
  format_positive 10 (n * den) den = to_string n.
Proof.
  intros Hn Hd. destruct (digits_of n Hn) as (X & HX & HXn).
  assert (0 < 10 ^ X) by (apply Z.pow_pos_nonneg; lia).
  assert (log10_floor (n * den) den = X) as HL.
  { unfold log10_floor. destruct (Z.leb_spec den (n * den)); [|nia].
    apply log10_up_spec; [done|lia|nia]. }
  unfold format_positive, round_digits. rewrite HL.
  destruct (Z.leb_spec 0 (10 - 1 - X)); [|lia].
  replace (n * den * 10 ^ (10 - 1 - X)) with (n * 10 ^ (10 - 1 - X) * den) by ring.
  rewrite div_rne_exact by done.
  assert (0 < 10 ^ (10 - 1 - X)) by (apply Z.pow_pos_nonneg; lia).
  assert (10 ^ (X + 1) * 10 ^ (10 - 1 - X) = 10 ^ 10) by (rewrite <- Z.pow_add_r by lia; f_equal; lia).
  destruct (Z.eqb_spec (n * 10 ^ (10 - 1 - X)) (10 ^ 10)); [nia|].
  destruct (Z.leb_spec (-4) X); [|lia]. destruct (Z.ltb_spec X 10); [|lia]. cbn [andb].
  rewrite Z.div_mul, Z.mod_mul by lia. unfold fraction_text.
  assert (forall fuel w, 0 <= w <= Z.of_nat fuel -> strip_zeros fuel w 0 = (0, 0)) as Hz.
  { induction fuel as [|f IH]; intros w Hw; cbn [strip_zeros]; [f_equal; lia|].
    destruct (Z.ltb_spec 0 w); [|simpl; f_equal; lia]. simpl. apply IH. lia. }
  rewrite Hz by lia. simpl. apply str_app_nil_r.
Qed.

(** A double that holds an integer of at most ten digits. *)
Lemma formatDouble_integer n : Z.abs n < 10 ^ 10 -> formatDouble (i64_to_f64 n) = to_string n.
Proof.
  intros Hn. destruct (decide (n = 0)) as [->|Hz]; [reflexivity|].
  assert (Z.log2 (Z.abs n) <= 33) as Hlog.
  { change 33 with (Z.log2 (2 ^ 34 - 1)). apply Z.log2_le_mono. lia. }
  pose proof (Z.log2_nonneg (Z.abs n)) as Hl0.
  unfold i64_to_f64. set (s := if n <? 0 then 1 else 0).
  destruct (fp_encode_exact 52 11 s (Z.abs n) 0) as (Hs & He & Hf); try lia.
  { subst s. destruct (n <? 0); lia. }
  { change (fp_bias 11) with 1023. lia. }
  unfold formatDouble. rewrite Hs, Hf. apply Z.eqb_neq in He. rewrite He.
  set (k := 52 - Z.log2 (Z.abs n)) in *. assert (0 < 2 ^ k) by (apply Z.pow_pos_nonneg; lia).
  destruct (Z.eqb_spec (Z.abs n * 2 ^ k) 0); [nia|].
  destruct (Z.leb_spec 0 (0 - k)); [lia|]. replace (- (0 - k)) with k by lia.
  rewrite format_positive_integer by lia. unfold to_string, s.
  destruct (Z.ltb_spec n 0).
  - destruct (Z.ltb_spec (Z.abs n) 0); [lia|]. cbn [Z.eqb Pos.eqb]. by rewrite Z.abs_neq by lia.
  - destruct (Z.ltb_spec (Z.abs n) 0); [lia|]. by rewrite Z.abs_eq by lia.
Qed.
