(* ===== verification/AdapterConfig.v ===== *)
(** * The adapter's configuration file

    [src/src/base/ConfigParser.h] (the INI reader) and
    [src/src/adapter/AdapterConfig.{h,cpp}] (the typed settings with their
    defaults and limits).  The contents of the file and the target of
    [/proc/self/exe] are inputs. *)

From stdpp Require Import base list numbers gmap strings.
From Stdlib Require Import ZArith Lia Ascii.
From S2P Require Import Prelude CText.
Local Open Scope Z_scope.

(** ** Strings *)

(** [std::getline] until the end of the input. *)
Fixpoint getlines (delim : ascii) (s : string) : list string :=
  match s with
  | EmptyString => []
  | String.String c s' =>
      if Ascii.eqb c delim then EmptyString :: getlines delim s'
      else match getlines delim s' with
           | [] => [String.String c EmptyString]
           | l :: ls => String.String c l :: ls
           end
  end.

Fixpoint ltrim (p : ascii -> bool) (s : string) : string :=
  match s with
  | String.String c s' => if p c then ltrim p s' else s
  | EmptyString => EmptyString
  end.

Fixpoint rtrim (p : ascii -> bool) (s : string) : string :=
  match s with
  | String.String c s' =>
      let t := rtrim p s' in
      if p c && str_empty t then EmptyString else String.String c t
  | EmptyString => EmptyString
  end.

(** [ConfigParser::trim] *)
Definition trim (s : string) : string := rtrim is_space (ltrim is_space s).

(** [s.back()] of a non-empty string *)
Fixpoint str_back (s : string) : option ascii :=
  match s with
  | EmptyString => None
  | String.String c EmptyString => Some c
  | String.String _ s' => str_back s'
  end.

Definition str_front (s : string) : option ascii :=
  match s with String.String c _ => Some c | EmptyString => None end.

(** [s.substr(1, s.size() - 2)] *)
Definition inner (s : string) : string := str_take (String.length s - 2) (str_drop 1 s).

Definition tolower (c : ascii) : ascii :=
  if is_upper c then Ascii.ascii_of_N (Z.to_N (code c + 32)) else c.

Fixpoint str_map (f : ascii -> ascii) (s : string) : string :=
  match s with
  | EmptyString => EmptyString
  | String.String c s' => String.String (f c) (str_map f s')
  end.

(** ** The INI reader *)

(** [_sections] *)
Definition Sections : Type := gmap string (gmap string string).

(** [_sections[section][key] = val] *)
Definition set_value (section key val : string) (m : Sections) : Sections :=
  <[section := <[key := val]> (default ∅ (m !! section))]> m.

Definition DQUOTE : ascii := ascii_of_nat 34.

Definition is_quote (a b : option ascii) : bool :=
  match a, b with
  | Some x, Some y => (Ascii.eqb x DQUOTE && Ascii.eqb y DQUOTE) ||
                      (Ascii.eqb x "'"%char && Ascii.eqb y "'"%char)
  | _, _ => false
  end.

Definition unquote (val : string) : string :=
  if (2 <=? Z.of_nat (String.length val)) && is_quote (str_front val) (str_back val)
  then inner val else val.

Definition has (c : ascii) (o : option ascii) : bool :=
  match o with Some x => Ascii.eqb x c | None => false end.

(** One line of the file. *)
Definition iniLine (st : string * Sections) (line : string) : string * Sections :=
  let '(currentSection, m) := st in
  let line := trim line in
  if str_empty line || has "#"%char (str_front line) || has ";"%char (str_front line) then st
  else if has "["%char (str_front line) && has "]"%char (str_back line) then (inner line, m)
  else
    match str_find "="%char line with
    | None => st
    | Some eqPos =>
        let key := trim (str_take eqPos line) in
        let val := trim (str_drop (S eqPos) line) in
        (currentSection, set_value currentSection key (unquote val) m)
    end.

Definition LF : ascii := ascii_of_nat 10.

(** [ConfigParser::load]; [None]: the file cannot be opened. *)
Definition iniLoad (file : option string) : option Sections :=
  text ← file; Some (snd (fold_left iniLine (getlines LF text) ("default", ∅))).

(** [ConfigParser::get] *)
Definition get (m : Sections) (section key defaultValue : string) : string :=
  match m !! section with
  | None => defaultValue
  | Some kv => default defaultValue (kv !! key)
  end.

(** [ConfigParser::getInt] *)
Definition getInt (m : Sections) (section key : string) (defaultValue : Z) : Z :=
  let v := get m section key "" in
  if str_empty v then defaultValue else atoi v.

(** [ConfigParser::getBool] *)
Definition getBool (m : Sections) (section key : string) (defaultValue : bool) : bool :=
  let v := get m section key "" in
  if str_empty v then defaultValue
  else
    let l := str_map tolower v in
    (l =? "true")%string || (l =? "1")%string || (l =? "yes")%string || (l =? "on")%string.

(** [ConfigParser::hasSection], [hasKey] *)
Definition hasSection (m : Sections) (section : string) : bool := bool_decide (is_Some (m !! section)).
Definition hasKey (m : Sections) (section key : string) : bool :=
  match m !! section with Some kv => bool_decide (is_Some (kv !! key)) | None => false end.

(** ** The settings *)

Record ServerConfig := mkServer { extraListenPorts : list Z; maxConnections : Z }.
Record SqliteConfig := mkSqlite { sq_path : string }.
Record EtherDBConfig := mkEtherDB {
  e_host : string; e_port : Z; e_user : string; e_password : string; e_db : string;
  createDatabase : bool; createTables : bool; batchRows : Z; flushIntervalMs : Z }.
Record HttpConfig := mkHttp { h_port : Z }.
Record ModbusConfig := mkModbus { pollIntervalMs : Z; connectTimeoutMs : Z }.
Record LogConfig := mkLog { l_dir : string; l_level : string }.
Record ZmqConfig := mkZmq { z_enabled : bool; pubEndpoint : string }.

Record AdapterConfig := mkConfig {
  cfg_server : ServerConfig; cfg_sqlite : SqliteConfig; cfg_etherdb : EtherDBConfig;
  cfg_http : HttpConfig; cfg_modbus : ModbusConfig; cfg_log : LogConfig; cfg_zmq : ZmqConfig;
  cfg_exeDir : string; cfg_configFile : string }.

(** The built-in defaults. *)
Definition AdapterConfig0 : AdapterConfig :=
  {| cfg_server := mkServer [] 1024;
     cfg_sqlite := mkSqlite "config/etherAdapter.db";
     cfg_etherdb := mkEtherDB "127.0.0.1" 7040 "root" "etherdbdata" "adapter" true true 4000 20;
     cfg_http := mkHttp 0;
     cfg_modbus := mkModbus 3000 1500;
     cfg_log := mkLog "log" "info";
     cfg_zmq := mkZmq false "tcp://*:5555";
     cfg_exeDir := ""; cfg_configFile := "" |}.

(** The path up to its last (back)slash; [None]: there is none. *)
Fixpoint dirname (p : string) : option string :=
  match p with
  | EmptyString => None
  | String.String c p' =>
      match dirname p' with
      | Some d => Some (String.String c d)
      | None => if Ascii.eqb c "/"%char || Ascii.eqb c "\"%char then Some EmptyString else None
      end
  end.

(** [getExeDir]; the argument is the link's target, [None] when it cannot be read. *)
Definition getExeDir (link : option string) : string :=
  match link with
  | None | Some EmptyString => EmptyString
  | Some p =>
      match dirname p with
      | None => EmptyString
      | Some EmptyString => "."
      | Some d => d
      end
  end.

Definition isAbsolutePath (p : string) : bool := has "/"%char (str_front p).

(** [AdapterConfig::resolvePath] *)
Definition resolvePath (cfg : AdapterConfig) (p : string) : string :=
  if str_empty p || isAbsolutePath p then p
  else if str_empty (cfg_exeDir cfg) then p
  else cfg_exeDir cfg +:+ "/" +:+ p.

Definition is_blank (c : ascii) : bool := (code c =? 32) || (code c =? 9).

(** [parsePortList] *)
Definition parsePortList (text : string) : list Z :=
  omap (fun item =>
    let item := rtrim is_blank (ltrim is_blank item) in
    if str_empty item then None
    else
      let v := atoi item in
      if (v >? 0) && (v <=? 65535) then Some v else None)
    (getlines ","%char text).

(** [AdapterConfig::load] *)
Definition loadConfig (link : option string) (cfgFile : string) (file : option string) : AdapterConfig :=
  let d := AdapterConfig0 in
  match iniLoad file with
  | None =>
      mkConfig (cfg_server d) (cfg_sqlite d) (cfg_etherdb d) (cfg_http d) (cfg_modbus d)
        (cfg_log d) (cfg_zmq d) (getExeDir link) cfgFile
  | Some ini =>
      let e := cfg_etherdb d in
      let batch := getInt ini "etherdb" "batchRows" (batchRows e) in
      let flush := getInt ini "etherdb" "flushIntervalMs" (flushIntervalMs e) in
      let poll := getInt ini "modbus" "pollIntervalMs" (pollIntervalMs (cfg_modbus d)) in
      let conn := getInt ini "modbus" "connectTimeoutMs" (connectTimeoutMs (cfg_modbus d)) in
      {| cfg_server :=
           mkServer (parsePortList (get ini "server" "extraListenPorts" ""))
             (getInt ini "server" "maxConnections" (maxConnections (cfg_server d)));
         cfg_sqlite := mkSqlite (get ini "sqlite" "path" (sq_path (cfg_sqlite d)));
         cfg_etherdb :=
           {| e_host := get ini "etherdb" "host" (e_host e);
              e_port := u16 (getInt ini "etherdb" "port" (e_port e));
              e_user := get ini "etherdb" "user" (e_user e);
              e_password := get ini "etherdb" "password" (e_password e);
              e_db := get ini "etherdb" "db" (e_db e);
              createDatabase := getBool ini "etherdb" "createDatabase" (createDatabase e);
              createTables := getBool ini "etherdb" "createTables" (createTables e);
              batchRows := if batch <? 1 then 1 else batch;
              flushIntervalMs := if flush <? 1 then 1 else flush |};
         cfg_http := mkHttp (u16 (getInt ini "http" "port" (h_port (cfg_http d))));
         cfg_modbus := mkModbus (if poll <? 50 then 50 else poll) (if conn <? 100 then 100 else conn);
         cfg_log := mkLog (get ini "log" "dir" (l_dir (cfg_log d)))
                          (get ini "log" "level" (l_level (cfg_log d)));
         cfg_zmq := mkZmq (getBool ini "zmq" "enabled" (z_enabled (cfg_zmq d)))
                          (get ini "zmq" "pubEndpoint" (pubEndpoint (cfg_zmq d)));
         cfg_exeDir := getExeDir link; cfg_configFile := cfgFile |}
  end.

(** ** Lemmas *)

Lemma ltrim_length p s : (String.length (ltrim p s) <= String.length s)%nat.
Proof. induction s as [|c s IH]; simpl; [lia|]. destruct (p c); simpl; lia. Qed.

Lemma ltrim_fixed p c s : ltrim p (String.String c s) = String.String c s -> p c = false.
Proof.
  simpl. destruct (p c); [|done]. intros E. pose proof (ltrim_length p s) as H. rewrite E in H. simpl in H. lia.
Qed.

Lemma ltrim_app p s t : s <> EmptyString -> ltrim p s = s -> ltrim p (s +:+ t) = s +:+ t.
Proof.
  destruct s as [|c s]; [done|]. intros _ H. rewrite str_cons_app. simpl. by rewrite (ltrim_fixed _ _ _ H).
Qed.

Lemma rtrim_app p s t : t <> EmptyString -> rtrim p t = t -> rtrim p (s +:+ t) = s +:+ t.
Proof.
  intros Hn Ht. induction s as [|c s IH]; [done|]. rewrite str_cons_app. cbn [rtrim]. rewrite IH.
  destruct s as [|d s]; [|by rewrite str_cons_app, andb_false_r]. rewrite str_nil_app.
  destruct t; [done|]. by rewrite andb_false_r.
Qed.

Lemma str_back_app s c : str_back (s +:+ String.String c EmptyString) = Some c.
Proof.
  induction s as [|a s IH]; [done|]. rewrite str_cons_app. cbn [str_back]. rewrite IH.
  by destruct s as [|b s].
Qed.

(** A text without line breaks. *)
Definition no_char (c : ascii) : string -> bool := str_forall (fun a => negb (Ascii.eqb a c)).

Lemma getlines_line d l s : no_char d l = true ->
  getlines d (l +:+ String.String d s) = l :: getlines d s.
Proof.
  unfold no_char. induction l as [|c l IH]; intros H.
  - rewrite str_nil_app. cbn [getlines]. by rewrite Ascii.eqb_refl.
  - cbn [str_forall] in H. apply andb_true_iff in H as [Hc H]. apply negb_true_iff in Hc.
    rewrite str_cons_app. cbn [getlines]. by rewrite Hc, IH.
Qed.

Lemma str_forall_app p s t : str_forall p (s +:+ t) = str_forall p s && str_forall p t.
Proof.
  induction s as [|c s IH]; [done|]. rewrite str_cons_app. cbn [str_forall]. by rewrite IH, andb_assoc.
Qed.

(** ** A printer for configuration files *)

Definition ini_entry (kv : string * string) : string := fst kv +:+ "=" +:+ snd kv.
Definition ini_header (section : string) : string := "[" +:+ section +:+ "]".
Definition ini_lines (secs : list (string * list (string * string))) : list string :=
  flat_map (fun sec => ini_header (fst sec) :: map ini_entry (snd sec)) secs.
Definition ini_text (secs : list (string * list (string * string))) : string :=
  fold_right (fun l s => l +:+ String.String LF s) EmptyString (ini_lines secs).

(** What a file with these sections means: the last value of a key counts. *)
Definition ini_values (secs : list (string * list (string * string))) : Sections :=
  fold_left (fun m sec => fold_left (fun m kv => set_value (fst sec) (fst kv) (snd kv) m) (snd sec) m) secs ∅.

Record key_ok (k : string) : Prop := {
  k_nonempty : k <> EmptyString;
  k_trim : ltrim is_space k = k /\ rtrim is_space k = k;
  k_line : no_char LF k = true /\ no_char "="%char k = true;
  k_front : has "#"%char (str_front k) = false /\ has ";"%char (str_front k) = false /\
            has "["%char (str_front k) = false;
}.

Record value_ok (v : string) : Prop := {
  v_trim : ltrim is_space v = v /\ rtrim is_space v = v;
  v_line : no_char LF v = true;
  v_quote : unquote v = v;
}.

Definition ini_ok (secs : list (string * list (string * string))) : Prop :=
  Forall (fun sec => no_char LF (fst sec) = true /\
                     Forall (fun kv => key_ok (fst kv) /\ value_ok (snd kv)) (snd sec)) secs.

Lemma iniLine_header cur m s : iniLine (cur, m) (ini_header s) = (s, m).
Proof.
  assert (trim (ini_header s) = ini_header s) as Et.
  { unfold trim, ini_header. rewrite ltrim_app by done.
    rewrite str_app_assoc. by rewrite rtrim_app. }
  unfold iniLine. rewrite Et. unfold ini_header.
  assert (str_back ("[" +:+ s +:+ "]") = Some "]"%char) as -> by (rewrite str_app_assoc; apply str_back_app).
  cbn [str_front]. simpl.
  f_equal. unfold inner. rewrite str_cons_app, str_nil_app. cbn [String.length str_drop].
  rewrite str_length_app. cbn [String.length].
  replace (S (String.length s + 1) - 2)%nat with (String.length s) by lia. apply str_take_app.
Qed.

Lemma iniLine_entry cur m k v : key_ok k -> value_ok v ->
  iniLine (cur, m) (ini_entry (k, v)) = (cur, set_value cur k v m).
Proof.
  intros [Hne [Hl Hr] [Hlf Heq] (F1 & F2 & F3)] [[Vl Vr] Vlf Vq].
  unfold ini_entry. cbn [fst snd].
  assert (rtrim is_space ("=" +:+ v) = "=" +:+ v) as Er
    by (rewrite str_cons_app, str_nil_app; cbn [rtrim]; by rewrite Vr).
  assert (trim (k +:+ "=" +:+ v) = k +:+ "=" +:+ v) as Et.
  { unfold trim. rewrite ltrim_app by done. by rewrite rtrim_app. }
  unfold iniLine. rewrite Et.
  assert (str_empty (k +:+ "=" +:+ v) = false /\ str_front (k +:+ "=" +:+ v) = str_front k) as [-> ->]
    by (by destruct k).
  rewrite F1, F2, F3. cbn [orb andb].
  rewrite str_cons_app, str_nil_app.
  rewrite str_find_app by exact Heq. rewrite str_take_app.
  assert (str_drop (S (String.length k)) (k +:+ String.String "=" v) = v) as Ed.
  { rewrite str_app_cons. replace (S (String.length k)) with (String.length (k +:+ "=")) by (rewrite str_length_app; simpl; lia).
    apply str_drop_app. }
  rewrite Ed. unfold trim. rewrite Hl, Hr, Vl, Vr. by rewrite Vq.
Qed.

Lemma iniLine_entries cur kvs : forall m,
  Forall (fun kv => key_ok (fst kv) /\ value_ok (snd kv)) kvs ->
  fold_left iniLine (map ini_entry kvs) (cur, m) =
  (cur, fold_left (fun m kv => set_value cur (fst kv) (snd kv) m) kvs m).
Proof.
  induction kvs as [|[k v] kvs IH]; intros m H; [done|].
  apply Forall_cons in H as [[Hk Hv] H]. cbn [map fold_left]. rewrite iniLine_entry by done. by apply IH.
Qed.

Lemma iniLine_sections secs : forall cur m, ini_ok secs ->
  snd (fold_left iniLine (ini_lines secs) (cur, m)) =
  fold_left (fun m sec => fold_left (fun m kv => set_value (fst sec) (fst kv) (snd kv) m) (snd sec) m) secs m.
Proof.
  induction secs as [|[s kvs] secs IH]; intros cur m H; [done|]. apply Forall_cons in H as [[_ Hk] H].
  unfold ini_lines. cbn [flat_map fst snd]. rewrite fold_left_app. cbn [fold_left].
  rewrite iniLine_header, iniLine_entries by done. by apply IH.
Qed.

Lemma ini_lines_plain secs : ini_ok secs -> Forall (fun l => no_char LF l = true) (ini_lines secs).
Proof.
  intros H. unfold ini_lines. apply Forall_flat_map. eapply Forall_impl; [exact H|].
  intros [s kvs] [Hs Hk]. cbn [fst snd] in *. apply Forall_cons. split.
  - unfold ini_header, no_char in *. rewrite !str_forall_app, Hs. reflexivity.
  - apply Forall_map. eapply Forall_impl; [exact Hk|]. intros [k v] [[_ _ [Hkl _] _] [_ Hvl _]].
    unfold ini_entry, no_char in *. cbn [fst snd] in *. by rewrite !str_forall_app, Hkl, Hvl.
Qed.

Lemma getlines_text ls : Forall (fun l => no_char LF l = true) ls ->
  getlines LF (fold_right (fun l s => l +:+ String.String LF s) EmptyString ls) = ls.
Proof.
  induction 1 as [|l ls Hl _ IH]; [done|]. cbn [fold_right]. by rewrite getlines_line, IH.
Qed.

Lemma parsePortList_range text : Forall (fun v => 0 < v <= 65535) (parsePortList text).
Proof.
  unfold parsePortList. apply Forall_forall. intros v H. apply list_elem_of_omap in H as (item & _ & E).
  destruct (str_empty _); [done|].
  destruct ((atoi _ >? 0) && (atoi _ <=? 65535)) eqn:Eb; [|done]. injection E as <-. bool_to_prop; lia.
Qed.

(** ** Properties *)


(** Whatever the configuration file holds, the loaded settings respect the
    limits the pipeline relies on: batches of at least one row, at least 1 ms
    idle flush, poll and connect intervals of at least 50 and 100 ms, and
    16-bit ports (the extra listen ports non-zero); without a file the built-in
    defaults are used. *)
Theorem loadConfig_limits link cfgFile file :
  let cfg := loadConfig link cfgFile file in
  1 <= batchRows (cfg_etherdb cfg) /\ 1 <= flushIntervalMs (cfg_etherdb cfg) /\
  50 <= pollIntervalMs (cfg_modbus cfg) /\ 100 <= connectTimeoutMs (cfg_modbus cfg) /\
  0 <= e_port (cfg_etherdb cfg) < 65536 /\ 0 <= h_port (cfg_http cfg) < 65536 /\
  Forall (fun p => 0 < p <= 65535) (extraListenPorts (cfg_server cfg)) /\
  (iniLoad file = None -> cfg_etherdb cfg = cfg_etherdb AdapterConfig0 /\
     cfg_modbus cfg = cfg_modbus AdapterConfig0 /\ cfg_http cfg = cfg_http AdapterConfig0 /\
     cfg_server cfg = cfg_server AdapterConfig0).
Proof.
  intros cfg. subst cfg. unfold loadConfig. destruct (iniLoad file) as [ini|].
  - cbn [cfg_etherdb cfg_modbus cfg_http cfg_server batchRows flushIntervalMs pollIntervalMs
      connectTimeoutMs e_port h_port extraListenPorts].
    split_and!; try (match goal with |- context [if ?a <? ?b then _ else _] => destruct (Z.ltb_spec a b) end; lia); try (by apply uwrap_range);
      try (apply uwrap_range; lia); try apply parsePortList_range; try done.
  - simpl. split_and!; try lia; try done.
Qed.

(** ** Witnesses *)

Definition demo_ini : list (string * list (string * string)) :=
  [("etherdb", [("batchRows", "250"); ("host", "db one"); ("batchRows", "0")]); ("zmq", [("enabled", "Yes")])].


Lemma demo_config :
  let cfg := loadConfig (Some "/opt/ea/etherAdapter") "a.cfg" (Some (ini_text demo_ini)) in
  batchRows (cfg_etherdb cfg) = 1 /\ e_host (cfg_etherdb cfg) = "db one" /\
  z_enabled (cfg_zmq cfg) = true /\ e_port (cfg_etherdb cfg) = 7040 /\
  resolvePath cfg "log" = "/opt/ea/log".
Proof. vm_compute. split_and!; reflexivity. Qed.

Lemma loadConfig_limits_witness :
  let cfg := loadConfig None "none.cfg" None in
  1 <= batchRows (cfg_etherdb cfg) /\ cfg_etherdb cfg = cfg_etherdb AdapterConfig0.
Proof.
  destruct (loadConfig_limits None "none.cfg" None) as (H & _ & _ & _ & _ & _ & _ & Hd).
  split; [exact H|]. exact (proj1 (Hd eq_refl)).
Defined.
