(* ===== verification/Writer.v ===== *)
(** * The EtherDB writer: definitions

    [src/src/adapter/EtherDBWriter.{h,cpp}].  The database client is a
    third-party SDK and appears as a record of operations on an abstract state
    [D] ([DbClient]); a bound buffer reaches it as the bytes it may read there
    ([BoundColumn]).  A step that would touch memory outside the staging
    buffer or a row batch yields [None]. *)

From stdpp Require Import base list numbers gmap strings.
From Stdlib Require Import ZArith Lia.
From S2P Require Import Prelude CText Floats DoubleText DeviceModel AdapterConfig FrameCodecLoads ConfigDB Pipeline.
Local Open Scope Z_scope.

(** [EtDBStmt::TYPE_TIMESTAMP], a constant of the SDK (see [kBindTimestamp]). *)
Definition TYPE_TIMESTAMP : Z := kBindTimestamp.

(** ** The client *)

(** What [EtDBStmt::MultiBind] lets the SDK read: [numRows * stride] bytes. *)
Record BoundColumn := mkColumn {
  col_type : Z;
  col_stride : Z;
  col_numRows : Z;
  col_bytes : list Z;
}.

Record DbClient (D : Type) := {
  db_connect : string -> Z -> string -> string -> D -> bool * D;
  db_query : string -> D -> string * D;                        (* the error text *)
  db_fetchTableMeta : string -> string -> D -> D;
  db_prepare : string -> D -> option nat * D;                  (* createStmt, prepare *)
  db_bindParamBatch : nat -> list BoundColumn -> D -> bool * D;
  db_execute : nat -> list BoundColumn -> D -> Z * D;
  db_errorRows : nat -> D -> Z;
  db_closeStmt : nat -> D -> D;
  db_close : D -> D;
}.
Arguments db_connect {D}. Arguments db_query {D}. Arguments db_fetchTableMeta {D}.
Arguments db_prepare {D}. Arguments db_bindParamBatch {D}. Arguments db_execute {D}.
Arguments db_errorRows {D}. Arguments db_closeStmt {D}. Arguments db_close {D}.

(** ** State *)

(** [struct EtherDBWriter::Sink]; [binds] is rewritten for every batch. *)
Record Sink := mkSink {
  sk_stmt : nat;
  sk_data : list Z;
  sk_colBase : list Z;
  sk_capacity : Z;
  sk_colCount : Z;
  sk_rowBytes : Z;
}.

Definition set_data (data : list Z) (s : Sink) : Sink :=
  mkSink (sk_stmt s) data (sk_colBase s) (sk_capacity s) (sk_colCount s) (sk_rowBytes s).

(** [class EtherDBWriter] with the client's state. *)
Record Writer (D : Type) := mkWriter {
  wr_cfg : EtherDBConfig;
  wr_dbName : string;
  wr_sinks : gmap nat Sink;
  wr_stats : AdapterStats;
  wr_running : bool;
  wr_db : D;
}.
Arguments mkWriter {D}. Arguments wr_cfg {D}. Arguments wr_dbName {D}. Arguments wr_sinks {D}.
Arguments wr_stats {D}. Arguments wr_running {D}. Arguments wr_db {D}.

(** ** The staging buffer *)

(** The width of one staged value and its bytes: the branches on [asDouble]
    and [outSize]. *)
Definition stageWidth (f : FieldDesc) : Z :=
  if f_asDouble f then (if f_outSize f =? 8 then 8 else 4)
  else if f_outSize f =? 1 then 1
  else if f_outSize f =? 2 then 2
  else if f_outSize f =? 4 then 4 else 8.

Definition stageBytes (f : FieldDesc) (c : Cell) : list Z :=
  if f_asDouble f then
    if f_outSize f =? 8 then le_bytes 8 (cell_d c) else le_bytes 4 (f64_to_f32 (cell_d c))
  else if f_outSize f =? 1 then le_bytes 1 (cell_i c)
  else if f_outSize f =? 2 then le_bytes 2 (cell_i c)
  else if f_outSize f =? 4 then le_bytes 4 (cell_i c)
  else le_bytes 8 (cell_i c).

(** The loop over the rows of one column, [r .. r + n - 1]. *)
Fixpoint stageRows (f : FieldDesc) (cells : list Cell) (fields k col : Z) (n : nat) (r : Z)
    (data : list Z) : option (list Z) :=
  match n with
  | O => Some data
  | S n' =>
      c ← rd cells (r * fields + k);
      data ← memcpy data (col + r * stageWidth f) (stageBytes f c);
      stageRows f cells fields k col n' (r + 1) data
  end.

(** The loop over the fields. *)
Fixpoint stageFields (fs : list FieldDesc) (cells : list Cell) (fields : Z) (colBase : list Z)
    (n : nat) (k : Z) (data : list Z) : option (list Z) :=
  match fs with
  | [] => Some data
  | f :: fs' =>
      col ← rd colBase (k + 1);
      data ← stageRows f cells fields k col n 0 data;
      stageFields fs' cells fields colBase n (k + 1) data
  end.

(** The bytes behind a bound buffer. *)
Definition boundColumn (data : list Z) (type base stride numRows : Z) : option BoundColumn :=
  if (0 <=? base) && (base + numRows * stride <=? lenZ data)
  then Some (mkColumn type stride numRows (takeZ (numRows * stride) (dropZ base data)))
  else None.

Fixpoint bindFields (fs : list FieldDesc) (data colBase : list Z) (numRows k : Z)
    : option (list BoundColumn) :=
  match fs with
  | [] => Some []
  | f :: fs' =>
      base ← rd colBase (k + 1);
      c ← boundColumn data (f_bindType f) base (f_outSize f) numRows;
      cs ← bindFields fs' data colBase numRows (k + 1);
      Some (c :: cs)
  end.

Definition bindColumns (fs : list FieldDesc) (data colBase : list Z) (numRows : Z)
    : option (list BoundColumn) :=
  base ← rd colBase 0;
  ts ← boundColumn data TYPE_TIMESTAMP base 8 numRows;
  cs ← bindFields fs data colBase numRows 0;
  Some (ts :: cs).

(** The timestamp column. *)
Definition stageTs (ts : list Z) (done n : Z) (colBase data : list Z) : option (list Z) :=
  base ← rd colBase 0;
  if done + n <=? lenZ ts
  then memcpy data base (concat (map (le_bytes 8) (takeZ n (dropZ done ts))))
  else None.

(** The layout lambda of [prepareSink]: one base per column, and the total. *)
Fixpoint layout (capacity off : Z) (sizes : list Z) : list Z * Z :=
  match sizes with
  | [] => ([], off)
  | size :: sizes' =>
      let '(bases, total) := layout capacity (u64 (off + u64 (size * capacity))) sizes' in
      (off :: bases, total)
  end.

(** ** SQL text *)

(** The separated list [x1, x2, ...]. *)
Definition sqlJoin (sep : string) (l : list string) : string :=
  match l with
  | [] => EmptyString
  | x :: l' => x +:+ foldr (fun y s => sep +:+ y +:+ s) EmptyString l'
  end.

(** [createTableSql] *)
Definition createTableSql (dev : DeviceDesc) : string :=
  "CREATE TABLE IF NOT EXISTS " +:+ d_deviceId dev +:+ " (ts TIMESTAMP" +:+
  foldr (fun f s => ", " +:+ f_name f +:+ " " +:+ f_colType f +:+ s) EmptyString (s_fields (d_spec dev)) +:+ ")".

(** The text of the prepared INSERT. *)
Definition insertSql (dev : DeviceDesc) (colCount : Z) : string :=
  "INSERT INTO " +:+ d_deviceId dev +:+ " VALUES(" +:+
  sqlJoin ", " (repeat "?" (Z.to_nat colCount)) +:+ ")".

(** One cell of [writeBatchSql]. *)
Definition cellSql (f : FieldDesc) (c : Cell) : string :=
  if negb (c_isNull c =? 0) then "NULL"
  else if f_asDouble f then formatDouble (cell_d c)
  else match f_kind f with
       | Bool => if negb (cell_i c =? 0) then "1" else "0"
       | _ => to_string (cell_i c)
       end.

(** One row: [k] walks over the fields. *)
Fixpoint cellsSql (fs : list FieldDesc) (cells : list Cell) (base : Z) : option string :=
  match fs with
  | [] => Some EmptyString
  | f :: fs' =>
      c ← rd cells base;
      s ← cellsSql fs' cells (base + 1);
      Some ("," +:+ cellSql f c +:+ s)
  end.

(** Rows [done + r .. done + n - 1] of a statement. *)
Fixpoint rowsSql (dev : DeviceDesc) (batch : RowBatch) (done : Z) (n : nat) (r : Z) : option string :=
  match n with
  | O => Some EmptyString
  | S n' =>
      t ← rd (b_ts batch) (done + r);
      cs ← cellsSql (s_fields (d_spec dev)) (b_cells batch) ((done + r) * fieldCount dev);
      s ← rowsSql dev batch done n' (r + 1);
      Some ((if r =? 0 then "" else ",") +:+ "(" +:+ to_string t +:+ cs +:+ ")" +:+ s)
  end.

Definition kMaxRowsPerStmt : Z := 200.

(** ** The writer *)

Section Operations.
Context {D : Type} (cl : DbClient D).

Definition set_db (d : D) (w : Writer D) : Writer D :=
  mkWriter (wr_cfg w) (wr_dbName w) (wr_sinks w) (wr_stats w) (wr_running w) d.
Definition set_wstats (s : AdapterStats) (w : Writer D) : Writer D :=
  mkWriter (wr_cfg w) (wr_dbName w) (wr_sinks w) s (wr_running w) (wr_db w).
Definition set_dbName (n : string) (w : Writer D) : Writer D :=
  mkWriter (wr_cfg w) n (wr_sinks w) (wr_stats w) (wr_running w) (wr_db w).
Definition set_sinks (m : gmap nat Sink) (w : Writer D) : Writer D :=
  mkWriter (wr_cfg w) (wr_dbName w) m (wr_stats w) (wr_running w) (wr_db w).
Definition set_running (b : bool) (w : Writer D) : Writer D :=
  mkWriter (wr_cfg w) (wr_dbName w) (wr_sinks w) (wr_stats w) b (wr_db w).

(** The constructor. *)
Definition newWriter (cfg : EtherDBConfig) (stats : AdapterStats) (d : D) : Writer D :=
  mkWriter cfg EmptyString ∅ stats false d.

(** [_client->query(sql)]: its error text. *)
Definition query (sql : string) (w : Writer D) : string * Writer D :=
  let '(e, d) := db_query cl sql (wr_db w) in (e, set_db d w).

(** The starting steps return the error text, [None] on success. *)
Definition connectClient (w : Writer D) : option string * Writer D :=
  let c := wr_cfg w in
  let '(ok, d) := db_connect cl (e_host c) (e_port c) (e_user c) (e_password c) (wr_db w) in
  (if ok then None
   else Some ("cannot connect to EtherDB at " +:+ e_host c +:+ ":" +:+ to_string (e_port c) +:+
              " (is the server running?)"), set_db d w).

Definition ensureDatabase (w : Writer D) : option string * Writer D :=
  let name := makeIdentifier (e_db (wr_cfg w)) "adapter" in
  let w := set_dbName name w in
  let use w :=
    let '(e, w) := query ("USE " +:+ name) w in
    (if str_empty e then None
     else Some ("USE " +:+ name +:+ " failed: " +:+ e +:+
                " (create the database first or set [etherdb].createDatabase = true)"), w) in
  if createDatabase (wr_cfg w) then
    let '(e, w) := query ("CREATE DATABASE IF NOT EXISTS " +:+ name +:+
                          " KEEP 3650 REPLICA 1 PRECISION us") w in
    if str_empty e then use w
    else (Some ("CREATE DATABASE " +:+ name +:+ " failed: " +:+ e), w)
  else use w.

Definition ensureTable (dev : DeviceDesc) (w : Writer D) : option string * Writer D :=
  let '(e, w) := query (createTableSql dev) w in
  if str_empty e then
    (None, set_db (db_fetchTableMeta cl (wr_dbName w) (d_deviceId dev) (wr_db w)) w)
  else (Some ("CREATE TABLE " +:+ d_deviceId dev +:+ " failed: " +:+ e), w).

Definition sinkCapacity (cfg : EtherDBConfig) : Z := if 0 <? batchRows cfg then batchRows cfg else 1.

(** [prepareSink] *)
Definition prepareSink (addr : nat) (dev : DeviceDesc) (w : Writer D) : option string * Writer D :=
  let capacity := sinkCapacity (wr_cfg w) in
  let colCount := u32 (u32 (fieldCount dev) + 1) in
  let '(colBase, off) := layout capacity 0 (8 :: map f_outSize (s_fields (d_spec dev))) in
  let '(stmt, d) := db_prepare cl (insertSql dev colCount) (wr_db w) in
  let w := set_db d w in
  match stmt with
  | None =>
      (Some ("prepare INSERT for " +:+ d_deviceId dev +:+
             " failed (table schema <-> field layout mismatch?)"), w)
  | Some s =>
      (None, set_sinks (<[addr := mkSink s (repeat 0 (Z.to_nat off)) colBase capacity colCount
                                    (off / capacity)]> (wr_sinks w)) w)
  end.

(** The devices the writer serves. *)
Definition served (dev : DeviceDesc) : bool :=
  match s_fields (d_spec dev) with
  | [] => false
  | _ :: _ => (d_connProto dev =? CONN_CUSTOM_DATA) || (d_connProto dev =? CONN_MODBUS) ||
              (d_connProto dev =? CONN_HTTP)
  end.

(** The loop of [start] over the devices. *)
Fixpoint startDevices (addr : nat) (devs : list DeviceDesc) (w : Writer D) : option string * Writer D :=
  match devs with
  | [] => (None, w)
  | dev :: devs' =>
      if negb (served dev) then startDevices (S addr) devs' w
      else
        let '(err, w) := if createTables (wr_cfg w) then ensureTable dev w else (None, w) in
        match err with
        | Some e => (Some e, w)
        | None =>
            if d_connProto dev =? CONN_HTTP then startDevices (S addr) devs' w
            else
              let '(err, w) := prepareSink addr dev w in
              match err with
              | Some e => (Some e, w)
              | None => startDevices (S addr) devs' w
              end
        end
  end.

(** [EtherDBWriter::start] *)
Definition writerStart (db : ConfigDB) (w : Writer D) : option string * Writer D :=
  let '(err, w) := connectClient w in
  match err with
  | Some e => (Some e, w)
  | None =>
      let '(err, w) := ensureDatabase w in
      match err with
      | Some e => (Some e, w)
      | None =>
          let '(err, w) := startDevices 0 (db_devices db) w in
          match err with
          | Some e => (Some e, w)
          | None => (None, set_running true w)
          end
      end
  end.

(** What follows [bindParamBatch]: execute and count. *)
Definition submitColumns (stmt : nat) (cols : list BoundColumn) (s : D * AdapterStats)
    : D * AdapterStats :=
  let '(d, stats) := s in
  let '(ok, d) := db_bindParamBatch cl stmt cols d in
  if negb ok then (d, fetch_add WriteErrors 1 stats)
  else
    let '(affected, d) := db_execute cl stmt cols d in
    if affected <? 0 then (d, fetch_add WriteErrors 1 stats)
    else
      let stats := fetch_add BatchesWritten 1 (fetch_add RowsWritten (u64 affected) stats) in
      let errs := db_errorRows cl stmt d in
      (d, if 0 <? errs then fetch_add WriteErrors (u64 errs) stats else stats).

(** One iteration of the loop of [writeBatch]: stage, bind, execute. *)
Definition writeRows (dev : DeviceDesc) (batch : RowBatch) (done n : Z) (sink : Sink)
    (s : D * AdapterStats) : option (Sink * (D * AdapterStats)) :=
  let fs := s_fields (d_spec dev) in
  data ← stageTs (b_ts batch) done n (sk_colBase sink) (sk_data sink);
  data ← stageFields fs (dropZ (done * fieldCount dev) (b_cells batch)) (fieldCount dev)
           (sk_colBase sink) (Z.to_nat n) 0 data;
  cols ← bindColumns fs data (sk_colBase sink) n;
  Some (set_data data sink, submitColumns (sk_stmt sink) cols s).

(** [while (done < rows)]; every iteration writes at least one row. *)
Fixpoint writeLoop (fuel : nat) (dev : DeviceDesc) (batch : RowBatch) (rows done : Z) (sink : Sink)
    (s : D * AdapterStats) : option (Sink * (D * AdapterStats)) :=
  if negb (done <? rows) then Some (sink, s)
  else
    match fuel with
    | O => None
    | S fuel' =>
        let n := Z.min (rows - done) (sk_capacity sink) in
        '(sink, s) ← writeRows dev batch done n sink s;
        writeLoop fuel' dev batch rows (done + n) sink s
    end.

(** The loop of [writeBatchSql]. *)
Fixpoint sqlLoop (fuel : nat) (dev : DeviceDesc) (batch : RowBatch) (rows done : Z)
    (s : D * AdapterStats) : option (D * AdapterStats) :=
  if negb (done <? rows) then Some s
  else
    match fuel with
    | O => None
    | S fuel' =>
        let n := Z.min (rows - done) kMaxRowsPerStmt in
        values ← rowsSql dev batch done (Z.to_nat n) 0;
        let '(e, d) := db_query cl ("INSERT INTO " +:+ d_deviceId dev +:+ " VALUES " +:+ values) (fst s) in
        let stats := if str_empty e
                     then fetch_add BatchesWritten 1 (fetch_add RowsWritten (u64 n) (snd s))
                     else fetch_add WriteErrors 1 (snd s) in
        sqlLoop fuel' dev batch rows (done + n) (d, stats)
    end.

(** [EtherDBWriter::writeBatchSql] *)
Definition writeBatchSql (dev : DeviceDesc) (batch : RowBatch) (w : Writer D) : option (Writer D) :=
  let rows := rowCount batch in
  if (fieldCount dev =? 0) || (rows =? 0) then Some w
  else
    '(d, stats) ← sqlLoop (Z.to_nat rows) dev batch rows 0 (wr_db w, wr_stats w);
    Some (set_wstats stats (set_db d w)).

(** [EtherDBWriter::writeBatch] *)
Definition writeBatch (batch : RowBatch) (w : Writer D) : option (Writer D) :=
  match b_dev batch with
  | None => Some w
  | Some dev =>
      if d_connProto (p_desc dev) =? CONN_HTTP then writeBatchSql (p_desc dev) batch w
      else
        match wr_sinks w !! p_addr dev with
        | None => Some w
        | Some sink =>
            let rows := rowCount batch in
            '(sink, (d, stats)) ←
              writeLoop (Z.to_nat rows) (p_desc dev) batch rows 0 sink (wr_db w, wr_stats w);
            Some (set_sinks (<[p_addr dev := sink]> (wr_sinks w)) (set_wstats stats (set_db d w)))
        end
  end.

(** [EtherDBWriter::run]: every dequeued batch, the drain after [stop] included. *)
Fixpoint writerRun (batches : list RowBatch) (w : Writer D) : option (Writer D) :=
  match batches with
  | [] => Some w
  | b :: bs =>
      w ← (match b_dev b with
           | Some _ => if batchEmpty b then Some w else writeBatch b w
           | None => Some w
           end);
      writerRun bs w
  end.

(** [EtherDBWriter::stop] after the thread has ended; the statements are closed
    in the order in which [_sinks] is traversed. *)
Definition writerStop (order : gmap nat Sink -> list (nat * Sink)) (w : Writer D) : Writer D :=
  let d := fold_left (fun d kv => db_closeStmt cl (sk_stmt (snd kv)) d) (order (wr_sinks w)) (wr_db w) in
  set_running false (set_sinks ∅ (set_db (db_close cl d) w)).
End Operations.
