(* ===== verification/WriterProps.v ===== *)
(** * The EtherDB writer: properties

    What the writer hands to the database, stated without staging buffers:
    columns taken directly from the rows ([columnsOf]) and SQL rows
    ([rowSql]), in statements of bounded size; [src/src/adapter/EtherDBWriter.cpp]
    refines it. *)

From stdpp Require Import base list numbers gmap strings.
From Stdlib Require Import ZArith Lia Ascii.
From S2P Require Import Prelude CText Floats DoubleText DeviceModel FrameCodec AdapterConfig FrameCodecLoads ConfigDB Pipeline FrameCodecProps ParserProps Writer.
Local Open Scope Z_scope.

(** ** The reference columns *)

(** The bytes of one value: cell [k] of a row. *)
Definition valueBytes (f : FieldDesc) (k : Z) (r : Row) : list Z :=
  match rd (r_cells r) k with Some c => stageBytes f c | None => [] end.

Fixpoint fieldColumns (fs : list FieldDesc) (rows : list Row) (k : Z) : list BoundColumn :=
  match fs with
  | [] => []
  | f :: fs' =>
      mkColumn (f_bindType f) (f_outSize f) (lenZ rows) (concat (map (valueBytes f k) rows)) ::
      fieldColumns fs' rows (k + 1)
  end.

Definition columnsOf (dev : DeviceDesc) (rows : list Row) : list BoundColumn :=
  mkColumn TYPE_TIMESTAMP 8 (lenZ rows) (concat (map (fun r => le_bytes 8 (r_ts r)) rows)) ::
  fieldColumns (s_fields (d_spec dev)) rows 0.

(** What [materializeField] chooses (and [loadAll_well_formed] establishes). *)
Definition column_ok (f : FieldDesc) : Prop :=
  stageWidth f = f_outSize f /\ 0 < f_outSize f <= 8.

Definition columns_ok (dev : DeviceDesc) : Prop := Forall column_ok (s_fields (d_spec dev)).

Lemma materialized_column_ok f i : column_ok (materializeField f i) \/
  (f_kind f = IntSigned /\ f_size f <> 1 /\ f_size f <> 2 /\ f_size f <> 4 /\ f_size f <> 8).
Proof.
  unfold materializeField, column_ok, stageWidth.
  destruct (f_kind f); simpl; try (left; split; [done|lia]).
  - destruct (Z.eqb_spec (f_size f) 1) as [->|]; [left; split; [done|simpl; lia]|].
    destruct (Z.eqb_spec (f_size f) 2) as [->|]; [left; split; [done|simpl; lia]|].
    destruct (Z.eqb_spec (f_size f) 4) as [->|]; [left; split; [done|simpl; lia]|].
    destruct (decide (f_size f = 8)) as [->|]; [left; split; [done|simpl; lia]|right; tauto].
  - destruct (f_size f =? 1); [left; split; [done|simpl; lia]|].
    destruct (f_size f =? 2); left; (split; [done|simpl; lia]).
Qed.

Lemma le_bytes_lenZ n v : lenZ (le_bytes n v) = Z.of_nat n.
Proof. unfold lenZ. by rewrite le_bytes_length. Qed.

Lemma stageBytes_length f c : lenZ (stageBytes f c) = stageWidth f.
Proof. unfold stageBytes, stageWidth. repeat destr_if; by rewrite le_bytes_lenZ. Qed.

Lemma concat_lenZ {A} (g : A -> list Z) w l : (forall x, x ∈ l -> lenZ (g x) = w) ->
  lenZ (concat (map g l)) = lenZ l * w.
Proof.
  induction l as [|x l IH]; intros H; [done|]. cbn [map concat].
  rewrite lenZ_app, lenZ_cons, IH by (intros; apply H; by apply elem_of_cons; right).
  rewrite H by by apply elem_of_cons; left. lia.
Qed.

(** ** Staging *)

(** One column: after the loop the buffer holds the rows' values at the
    column's place and is unchanged elsewhere. *)
Lemma stageRows_ok f cells fields k col rows : forall r data,
  (forall i row, rd rows i = Some row -> rd cells ((r + i) * fields + k) = rd (r_cells row) k) ->
  Forall (fun row => is_Some (rd (r_cells row) k)) rows ->
  0 <= col -> 0 <= r -> col + (r + lenZ rows) * stageWidth f <= lenZ data -> 0 < stageWidth f ->
  exists data', stageRows f cells fields k col (length rows) r data = Some data' /\
    lenZ data' = lenZ data /\
    subBytes (col + r * stageWidth f) (lenZ rows * stageWidth f) data' = concat (map (valueBytes f k) rows) /\
    (forall o n, 0 <= o -> 0 <= n ->
       o + n <= col + r * stageWidth f \/ col + (r + lenZ rows) * stageWidth f <= o ->
       subBytes o n data' = subBytes o n data).
Proof.
  induction rows as [|row rows IH]; intros r data Hc Hs Hcol Hr Hlen Hw.
  - exists data. split_and!; try done.
  - apply Forall_cons in Hs as [[c Hrow] Hs]. rewrite lenZ_cons in Hlen. pose proof (lenZ_nonneg rows).
    cbn [length stageRows].
    pose proof (Hc 0 row (rd_cons_0 _ _)) as H0. rewrite Z.add_0_r in H0. rewrite H0, Hrow. cbn [mbind option_bind].
    destruct (memcpy_spec data (col + r * stageWidth f) (stageBytes f c)) as (d1 & E1 & L1 & S1 & O1);
      [nia|rewrite stageBytes_length; nia|].
    rewrite E1. cbn [mbind option_bind]. rewrite stageBytes_length in *.
    destruct (IH (r + 1) d1) as (d2 & E2 & L2 & S2 & O2); try done; [|lia|nia|].
    { intros i row' Hi. rewrite <- (Hc (i + 1) row').
      - f_equal. lia.
      - rewrite rd_cons_S by (apply rd_Some_lt in Hi; lia). rewrite <- Hi. f_equal. lia. }
    exists d2. split_and!; try done; [lia| |].
    + rewrite lenZ_cons. replace ((1 + lenZ rows) * stageWidth f) with (stageWidth f + lenZ rows * stageWidth f) by lia.
      rewrite subBytes_split by nia. cbn [map concat]. f_equal.
      * rewrite O2 by nia. rewrite S1. unfold valueBytes. by rewrite Hrow.
      * rewrite <- S2. f_equal. lia.
    + intros o n Ho Hn Hd. rewrite lenZ_cons in Hd. rewrite O2 by nia. apply O1; nia.
Qed.

(** The field columns lie one behind the other from [off] on. *)
Fixpoint bases_ok (cap : Z) (fs : list FieldDesc) (k off : Z) (colBase : list Z) : Prop :=
  match fs with
  | [] => True
  | f :: fs' => rd colBase (k + 1) = Some off /\ bases_ok cap fs' (k + 1) (off + f_outSize f * cap) colBase
  end.

Definition sizes_sum (fs : list FieldDesc) : Z := foldr (fun f s => f_outSize f + s) 0 fs.

Lemma sizes_nonneg fs : Forall column_ok fs -> 0 <= sizes_sum fs <= 8 * lenZ fs.
Proof.
  induction 1 as [|f fs [_ Hf] _ IH]; [done|]. rewrite lenZ_cons. simpl. lia.
Qed.

Definition rows_cells (cells : list Cell) (fields k : Z) (rows : list Row) : Prop :=
  forall i row, rd rows i = Some row -> rd cells (i * fields + k) = rd (r_cells row) k.

Lemma boundColumn_sub data type base stride n : 0 <= base -> base + n * stride <= lenZ data ->
  boundColumn data type base stride n = Some (mkColumn type stride n (subBytes base (n * stride) data)).
Proof.
  intros H1 H2. unfold boundColumn.
  destruct (Z.leb_spec 0 base); [|lia]. by destruct (Z.leb_spec (base + n * stride) (lenZ data)); [|lia].
Qed.

(** All fields: what the bound columns show afterwards are the reference columns. *)
Lemma stageFields_ok cells fields cap colBase rows fs : forall k off data,
  Forall column_ok fs -> bases_ok cap fs k off colBase ->
  (forall j, k <= j < k + lenZ fs -> rows_cells cells fields j rows /\ Forall (fun row => is_Some (rd (r_cells row) j)) rows) ->
  0 <= off -> 0 <= k -> 0 < cap -> lenZ rows <= cap -> off + sizes_sum fs * cap <= lenZ data ->
  exists data', stageFields fs cells fields colBase (length rows) k data = Some data' /\
    lenZ data' = lenZ data /\ bindFields fs data' colBase (lenZ rows) k = Some (fieldColumns fs rows k) /\
    (forall o n, 0 <= o -> 0 <= n -> o + n <= off -> subBytes o n data' = subBytes o n data).
Proof.
  pose proof (lenZ_nonneg rows) as Hn.
  induction fs as [|f fs IH]; intros k off data Hfs Hb Hc Hoff Hk Hcap Hrows Hlen.
  - exists data. split_and!; done.
  - apply Forall_cons in Hfs as [[Hw Hsz] Hfs]. destruct Hb as [Hb0 Hb]. cbn [sizes_sum foldr] in Hlen.
    fold (sizes_sum fs) in Hlen. pose proof (sizes_nonneg fs Hfs) as Hss. pose proof (lenZ_nonneg fs).
    rewrite lenZ_cons in Hc. destruct (Hc k ltac:(lia)) as [Hck Hsk].
    cbn [stageFields]. rewrite Hb0. cbn [mbind option_bind].
    destruct (stageRows_ok f cells fields k off rows 0 data) as (d1 & E1 & L1 & S1 & O1); try done; try nia.
    rewrite E1. cbn [mbind option_bind].
    destruct (IH (k + 1) (off + f_outSize f * cap) d1) as (d2 & E2 & L2 & B2 & O2); try done; try nia.
    { intros j Hj. apply Hc. lia. }
    exists d2. split_and!; try done; [lia| |].
    + cbn [bindFields fieldColumns]. rewrite Hb0. cbn [mbind option_bind].
      rewrite boundColumn_sub by nia. cbn [mbind option_bind]. rewrite B2. cbn [mbind option_bind].
      rewrite O2 by nia. rewrite Hw in S1. replace (off + 0 * f_outSize f) with off in S1 by lia. by rewrite S1.
    + intros o n Ho Hn' Hd. rewrite O2 by nia. apply O1; nia.
Qed.

(** ** One statement *)

Record sink_ok (cap : Z) (dev : DeviceDesc) (sink : Sink) : Prop := {
  so_capacity : sk_capacity sink = cap /\ 0 < cap;
  so_ts : rd (sk_colBase sink) 0 = Some 0;
  so_bases : bases_ok cap (s_fields (d_spec dev)) 0 (8 * cap) (sk_colBase sink);
  so_data : lenZ (sk_data sink) = (8 + sizes_sum (s_fields (d_spec dev))) * cap;
}.

Lemma sink_ok_data cap dev sink data : sink_ok cap dev sink -> lenZ data = lenZ (sk_data sink) ->
  sink_ok cap dev (set_data data sink).
Proof. intros [Hc Ht Hb Hd] E. constructor; simpl; try done. congruence. Qed.

(** The rows of a well-formed batch, addressed inside its cells. *)
Lemma rd_takeZ {A} (l : list A) n i : 0 <= i < n -> rd (takeZ n l) i = rd l i.
Proof.
  intros H. unfold rd, takeZ. destruct (i <? 0); [done|]. apply lookup_take_lt. lia.
Qed.

Lemma rows_of_cells d k : forall ts cells, lenZ cells = lenZ ts * fieldCount (p_desc d) ->
  0 <= k < fieldCount (p_desc d) ->
  rows_cells cells (fieldCount (p_desc d)) k (rows_of d ts cells) /\
  Forall (fun row => is_Some (rd (r_cells row) k)) (rows_of d ts cells).
Proof.
  induction ts as [|t ts IH]; intros cells Hl Hk; cbn [rows_of].
  - split; [|by apply Forall_nil]. intros i row Hi. apply rd_Some_lt in Hi. change (lenZ (@nil Row)) with 0 in Hi. lia.
  - rewrite lenZ_cons in Hl. pose proof (lenZ_nonneg ts).
    destruct (IH (dropZ (fieldCount (p_desc d)) cells)) as [IH1 IH2]; [rewrite lenZ_dropZ; nia|done|].
    split.
    + intros i row Hi. pose proof (rd_Some_lt _ _ _ Hi) as Hlt. destruct (decide (i = 0)) as [->|Hn].
      * rewrite rd_cons_0 in Hi. injection Hi as <-. simpl. rewrite rd_takeZ by lia. done.
      * rewrite rd_cons_S in Hi by lia. apply IH1 in Hi. rewrite <- Hi, rd_dropZ by nia. f_equal. lia.
    + apply Forall_cons. split; [|done]. simpl. rewrite rd_takeZ by lia. apply rd_is_Some. nia.
Qed.

Lemma rows_of_app d ts1 ts2 : forall cells, lenZ cells = (lenZ ts1 + lenZ ts2) * fieldCount (p_desc d) ->
  rows_of d (ts1 ++ ts2) cells =
  rows_of d ts1 (takeZ (lenZ ts1 * fieldCount (p_desc d)) cells) ++
  rows_of d ts2 (dropZ (lenZ ts1 * fieldCount (p_desc d)) cells).
Proof.
  pose proof (fieldCount_nonneg (p_desc d)) as Hf. pose proof (lenZ_nonneg ts2).
  induction ts1 as [|t ts1 IH]; intros cells Hl; cbn [app rows_of]; [by rewrite dropZ_0|].
  rewrite lenZ_cons in *. pose proof (lenZ_nonneg ts1).
  assert (0 <= (lenZ ts1 + lenZ ts2) * fieldCount (p_desc d)) by nia.
  rewrite IH by (rewrite lenZ_dropZ; lia). rewrite takeZ_takeZ by lia.
  replace (Z.min (fieldCount (p_desc d)) ((1 + lenZ ts1) * fieldCount (p_desc d))) with (fieldCount (p_desc d)) by nia.
  rewrite dropZ_takeZ, dropZ_dropZ by nia.
  replace ((1 + lenZ ts1) * fieldCount (p_desc d) - fieldCount (p_desc d))
    with (lenZ ts1 * fieldCount (p_desc d)) by lia.
  by replace ((1 + lenZ ts1) * fieldCount (p_desc d))
    with (fieldCount (p_desc d) + lenZ ts1 * fieldCount (p_desc d)) by lia.
Qed.

Lemma rows_of_length d ts : forall cells, length (rows_of d ts cells) = length ts.
Proof. induction ts as [|t ts IH]; intros cells; simpl; [done|]. by rewrite IH. Qed.

Lemma rows_of_ts d ts : forall cells, map r_ts (rows_of d ts cells) = ts.
Proof. induction ts as [|t ts IH]; intros cells; simpl; [done|]. by rewrite IH. Qed.

Lemma rows_of_length_Z d ts cells : lenZ (rows_of d ts cells) = lenZ ts.
Proof. unfold lenZ. by rewrite rows_of_length. Qed.

(** The rows [done .. done + n - 1] of a batch. *)
Lemma rows_of_range d ts cells done n : lenZ cells = lenZ ts * fieldCount (p_desc d) ->
  0 <= done -> 0 <= n -> done + n <= lenZ ts ->
  takeZ n (dropZ done (rows_of d ts cells)) =
  rows_of d (takeZ n (dropZ done ts))
    (takeZ (n * fieldCount (p_desc d)) (dropZ (done * fieldCount (p_desc d)) cells)).
Proof.
  intros Hl H1 H2 H3. pose proof (fieldCount_nonneg (p_desc d)) as Hf.
  assert (lenZ (takeZ done ts) = done) as Ht1 by (rewrite lenZ_takeZ; lia).
  assert (lenZ (takeZ n (dropZ done ts)) = n) as Ht2 by (rewrite lenZ_takeZ, lenZ_dropZ; lia).
  rewrite <- (takeZ_dropZ done ts) at 1. rewrite rows_of_app by (rewrite Ht1, lenZ_dropZ; nia).
  rewrite Ht1, dropZ_app_length by by rewrite rows_of_length_Z.
  rewrite <- (takeZ_dropZ n (dropZ done ts)) at 1. rewrite rows_of_app.
  - rewrite Ht2. apply takeZ_app_length. by rewrite rows_of_length_Z.
  - rewrite Ht2, !lenZ_dropZ. nia.
Qed.

(** ** Groups of rows *)

(** [l] cut into pieces of [n] elements. *)
Fixpoint chunks {A} (fuel : nat) (n : Z) (l : list A) : list (list A) :=
  match fuel, l with
  | S fuel', _ :: _ => takeZ n l :: chunks fuel' n (dropZ n l)
  | _, _ => []
  end.

Lemma chunks_concat {A} n fuel : forall (l : list A), 0 < n -> (length l <= fuel)%nat ->
  concat (chunks fuel n l) = l.
Proof.
  induction fuel as [|fuel IH]; intros l Hn Hf; [by destruct l; [|simpl in Hf; lia]|].
  destruct l as [|x l]; [done|]. cbn [chunks concat]. rewrite IH; [apply takeZ_dropZ|done|].
  unfold dropZ. rewrite length_drop. simpl length in *. lia.
Qed.

Lemma chunks_size {A} n fuel : forall (l : list A), 0 < n ->
  Forall (fun c => 0 < lenZ c <= n) (chunks fuel n l).
Proof.
  induction fuel as [|fuel IH]; intros l Hn; [destruct l; by apply Forall_nil|].
  destruct l as [|x l]; [by apply Forall_nil|]. cbn [chunks]. apply Forall_cons. split; [|by apply IH].
  rewrite lenZ_takeZ, lenZ_cons. pose proof (lenZ_nonneg l). lia.
Qed.

Lemma chunk_min {A} n (l : list A) :
  takeZ n l = takeZ (Z.min (lenZ l) n) l /\ dropZ n l = dropZ (Z.min (lenZ l) n) l.
Proof.
  unfold takeZ, dropZ, lenZ. destruct (Z.leb_spec (Z.of_nat (length l)) n).
  - rewrite Z.min_l by lia. rewrite !take_ge, !drop_ge by lia. done.
  - by rewrite Z.min_r by lia.
Qed.

Section Inserts.
Context {D : Type} (cl : DbClient D).

(** ** Columnar inserts *)

Lemma stageTs_ok cap (dev : DevicePtr) sink ts done n data :
  sink_ok cap (p_desc dev) sink -> Forall column_ok (s_fields (d_spec (p_desc dev))) ->
  lenZ data = lenZ (sk_data sink) -> 0 <= done -> 0 < n <= cap -> done + n <= lenZ ts ->
  exists data', stageTs ts done n (sk_colBase sink) data = Some data' /\ lenZ data' = lenZ data /\
    subBytes 0 (n * 8) data' = concat (map (le_bytes 8) (takeZ n (dropZ done ts))).
Proof.
  intros [[_ Hc] Ht _ Hd] Hf Hdata Hdn Hn Hlen. pose proof (sizes_nonneg _ Hf) as Hs.
  unfold stageTs. rewrite Ht. cbn [mbind option_bind]. destruct (Z.leb_spec (done + n) (lenZ ts)); [|lia].
  assert (lenZ (concat (map (le_bytes 8) (takeZ n (dropZ done ts)))) = n * 8) as Hb.
  { rewrite (concat_lenZ (le_bytes 8) 8) by (intros; apply (le_bytes_lenZ 8)). rewrite lenZ_takeZ, lenZ_dropZ. lia. }
  destruct (memcpy_spec data 0 (concat (map (le_bytes 8) (takeZ n (dropZ done ts))))) as (d & E & L & S & _);
    [lia|rewrite Hb; nia|].
  rewrite Hb in S. exists d. done.
Qed.

(** One statement binds the reference columns of its rows. *)
Lemma writeRows_ok cap (dev : DevicePtr) batch sink s done n :
  columns_ok (p_desc dev) -> sink_ok cap (p_desc dev) sink -> b_dev batch = Some dev -> batch_wf batch ->
  0 <= done -> 0 < n <= cap -> done + n <= lenZ (b_ts batch) ->
  exists data', writeRows cl (p_desc dev) batch done n sink s =
      Some (set_data data' sink,
            submitColumns cl (sk_stmt sink) (columnsOf (p_desc dev) (takeZ n (dropZ done (batch_rows batch)))) s) /\
    sink_ok cap (p_desc dev) (set_data data' sink).
Proof.
  intros Hcol Hso Hdev Hwf Hdn Hn Hlen. unfold columns_ok in Hcol.
  destruct (stageTs_ok cap dev sink (b_ts batch) done n (sk_data sink)) as (d1 & E1 & L1 & S1); try done.
  unfold batch_wf in Hwf. unfold batch_rows. rewrite Hdev in *.
  pose proof (fieldCount_nonneg (p_desc dev)) as Hfc. destruct Hso as [[Hcap Hc0] Ht Hb Hd] eqn:Eso. clear Eso.
  set (F := fieldCount (p_desc dev)) in *. set (fs := s_fields (d_spec (p_desc dev))) in *.
  rewrite rows_of_range by (done || lia). fold F.
  set (ts' := takeZ n (dropZ done (b_ts batch))) in *.
  assert (lenZ ts' = n) as Hts by (unfold ts'; rewrite lenZ_takeZ, lenZ_dropZ; lia).
  set (cells := dropZ (done * F) (b_cells batch)) in *. set (rows := rows_of dev ts' (takeZ (n * F) cells)).
  assert (length rows = Z.to_nat n) as Hrl by (unfold rows; rewrite rows_of_length; unfold lenZ in Hts; lia).
  assert (lenZ rows = n) as Hrz by (unfold lenZ; lia).
  assert (lenZ (takeZ (n * F) cells) = n * F) as Hcl by (unfold cells; rewrite lenZ_takeZ, lenZ_dropZ; nia).
  pose proof (sizes_nonneg fs Hcol) as Hss.
  destruct (stageFields_ok cells F cap (sk_colBase sink) rows fs 0 (8 * cap) d1) as (d2 & E2 & L2 & B2 & O2);
    try done; try lia; try nia.
  { intros j Hj. destruct (rows_of_cells dev j ts' (takeZ (n * F) cells)) as [R1 R2]; [fold F; by rewrite Hts|unfold fieldCount; fold fs; lia|].
    split; [|exact R2]. intros i row Hi. pose proof (rd_Some_lt _ _ _ Hi) as Hlt. fold rows in R1. rewrite Hrz in Hlt.
    rewrite <- (R1 i row Hi). fold F. rewrite rd_takeZ; [done|]. unfold F in *. unfold fieldCount in *. fold fs in Hj |- *. nia. }
  exists d2. split; [|by apply sink_ok_data; [constructor|lia]].
  unfold writeRows. rewrite E1. cbn [mbind option_bind]. fold F fs cells. rewrite <- Hrl, E2. cbn [mbind option_bind].
  unfold bindColumns. rewrite Ht. cbn [mbind option_bind].
  rewrite boundColumn_sub by lia. cbn [mbind option_bind]. rewrite Hrz in B2. rewrite B2. cbn [mbind option_bind].
  rewrite O2 by lia. rewrite S1. unfold columnsOf. fold fs. do 6 f_equal; [by rewrite Hrz|].
  unfold rows. by rewrite <- (rows_of_ts dev ts' (takeZ (n * F) cells)) at 1; rewrite map_map.
Qed.

(** The abstract insertion of a group of rows. *)
Definition insertRows (dev : DeviceDesc) (stmt : nat) (s : D * AdapterStats) (rows : list Row) : D * AdapterStats :=
  submitColumns cl stmt (columnsOf dev rows) s.

Lemma writeLoop_ok cap (dev : DevicePtr) batch rows fuel : forall sink s done,
  columns_ok (p_desc dev) -> sink_ok cap (p_desc dev) sink -> b_dev batch = Some dev -> batch_wf batch ->
  rows = lenZ (b_ts batch) -> 0 <= done <= rows -> rows - done <= Z.of_nat fuel ->
  exists data', writeLoop cl fuel (p_desc dev) batch rows done sink s =
      Some (set_data data' sink,
            fold_left (insertRows (p_desc dev) (sk_stmt sink)) (chunks fuel cap (dropZ done (batch_rows batch))) s) /\
    sink_ok cap (p_desc dev) (set_data data' sink).
Proof.
  assert (b_dev batch = Some dev -> lenZ (batch_rows batch) = lenZ (b_ts batch)) as Hbl.
  { intros Hd. unfold batch_rows. rewrite Hd. apply rows_of_length_Z. }
  induction fuel as [|fuel IH]; intros sink s done Hcol Hso Hdev Hwf Hrows Hdone Hfuel; cbn [writeLoop].
  - destruct (Z.ltb_spec done rows); [lia|]. exists (sk_data sink). split; [|by apply sink_ok_data].
    cbn [negb]. by destruct sink; destruct (dropZ _ _).
  - destruct (Z.ltb_spec done rows) as [Hlt|Hge]; cbn [negb].
    + rewrite (proj1 (so_capacity _ _ _ Hso)). set (n := Z.min (rows - done) cap).
      pose proof (proj2 (so_capacity _ _ _ Hso)) as Hc.
      destruct (writeRows_ok cap dev batch sink s done n) as (d1 & E1 & Hso1); try done; try lia.
      rewrite E1. cbn [mbind option_bind].
      destruct (IH (set_data d1 sink) (submitColumns cl (sk_stmt sink)
        (columnsOf (p_desc dev) (takeZ n (dropZ done (batch_rows batch)))) s) (done + n)) as (d2 & E2 & Hso2);
        try done; try lia.
      rewrite E2. exists d2. split; [|exact Hso2]. f_equal. f_equal.
      assert (lenZ (dropZ done (batch_rows batch)) = rows - done) as Hdl by (rewrite lenZ_dropZ, Hbl by done; lia).
      destruct (dropZ done (batch_rows batch)) as [|r rs] eqn:Edrop; [rewrite lenZ_nil in Hdl; lia|].
      cbn [chunks fold_left]. rewrite <- Edrop in *. rewrite <- dropZ_dropZ by lia.
      unfold insertRows at 2. cbn [sk_stmt set_data].
      destruct (chunk_min cap (dropZ done (batch_rows batch))) as [-> ->]. by rewrite Hdl.
    + exists (sk_data sink). split; [|by apply sink_ok_data].
      assert (dropZ done (batch_rows batch) = []) as -> by (unfold dropZ; apply drop_ge; specialize (Hbl Hdev); unfold lenZ in Hbl, Hrows; lia).
      by destruct sink.
Qed.

(** ** SQL inserts *)

Fixpoint rowCellsSql (fs : list FieldDesc) (cells : list Cell) : string :=
  match fs, cells with
  | f :: fs', c :: cells' => "," +:+ cellSql f c +:+ rowCellsSql fs' cells'
  | _, _ => EmptyString
  end.

(** [(ts,c1,...,cn)] *)
Definition rowSql (dev : DeviceDesc) (r : Row) : string :=
  "(" +:+ to_string (r_ts r) +:+ rowCellsSql (s_fields (d_spec dev)) (r_cells r) +:+ ")".

Definition insertText (dev : DeviceDesc) (rows : list Row) : string :=
  "INSERT INTO " +:+ d_deviceId dev +:+ " VALUES " +:+ sqlJoin "," (map (rowSql dev) rows).

Definition insertSqlRows (dev : DeviceDesc) (s : D * AdapterStats) (rows : list Row) : D * AdapterStats :=
  let '(e, d) := db_query cl (insertText dev rows) (fst s) in
  (d, if str_empty e then fetch_add BatchesWritten 1 (fetch_add RowsWritten (u64 (lenZ rows)) (snd s))
      else fetch_add WriteErrors 1 (snd s)).

Lemma rd_dropZ_cons {A} (l : list A) i x : rd l i = Some x -> dropZ i l = x :: dropZ (i + 1) l.
Proof.
  intros H. pose proof (rd_Some_lt _ _ _ H). unfold rd in H. destruct (Z.ltb_spec i 0); [lia|].
  unfold dropZ. rewrite (drop_S _ _ _ H). do 2 f_equal. lia.
Qed.

Lemma takeZ_cons {A} n (x : A) l : 0 < n -> takeZ n (x :: l) = x :: takeZ (n - 1) l.
Proof. intros H. unfold takeZ. replace (Z.to_nat n) with (S (Z.to_nat (n - 1))) by lia. done. Qed.

Lemma cellsSql_ok fs cells : forall base, 0 <= base -> base + lenZ fs <= lenZ cells ->
  cellsSql fs cells base = Some (rowCellsSql fs (takeZ (lenZ fs) (dropZ base cells))).
Proof.
  induction fs as [|f fs IH]; intros base Hb Hl; [done|]. rewrite lenZ_cons in *. pose proof (lenZ_nonneg fs).
  cbn [cellsSql]. destruct (rd_is_Some cells base) as [c Hc]; [lia|]. rewrite Hc. cbn [mbind option_bind].
  rewrite IH by lia. cbn [mbind option_bind]. rewrite (rd_dropZ_cons _ _ _ Hc), takeZ_cons by lia.
  replace (1 + lenZ fs - 1) with (lenZ fs) by lia. done.
Qed.

Lemma rows_of_at d : forall ts cells i, 0 <= i < lenZ ts -> lenZ cells = lenZ ts * fieldCount (p_desc d) ->
  exists t, rd ts i = Some t /\ rd (rows_of d ts cells) i =
    Some (mkRow d t (takeZ (fieldCount (p_desc d)) (dropZ (i * fieldCount (p_desc d)) cells))).
Proof.
  pose proof (fieldCount_nonneg (p_desc d)) as Hf.
  induction ts as [|t ts IH]; intros cells i Hi Hl; [change (lenZ (@nil Z)) with 0 in Hi; lia|]. rewrite lenZ_cons in *.
  pose proof (lenZ_nonneg ts). cbn [rows_of]. destruct (decide (i = 0)) as [->|Hn].
  - exists t. by rewrite !rd_cons_0, Z.mul_0_l, dropZ_0.
  - destruct (IH (dropZ (fieldCount (p_desc d)) cells) (i - 1)) as (t' & E1 & E2);
      [lia|assert (0 <= lenZ ts * fieldCount (p_desc d)) by nia; rewrite lenZ_dropZ; lia|].
    exists t'. rewrite !rd_cons_S by lia. rewrite E1, E2, dropZ_dropZ by nia.
    by replace (fieldCount (p_desc d) + (i - 1) * fieldCount (p_desc d)) with (i * fieldCount (p_desc d)) by lia.
Qed.

(** The rows of a batch, for a statement that starts at [done]. *)
Lemma rowsSql_tail (dev : DevicePtr) batch done n : forall r,
  b_dev batch = Some dev -> batch_wf batch -> 0 <= done -> 0 < r -> done + r + Z.of_nat n <= lenZ (b_ts batch) ->
  rowsSql (p_desc dev) batch done n r =
  Some (foldr (fun y s => "," +:+ y +:+ s) EmptyString
          (map (rowSql (p_desc dev)) (takeZ (Z.of_nat n) (dropZ (done + r) (batch_rows batch))))).
Proof.
  induction n as [|n IH]; intros r Hd Hwf Hdn Hr Hl; [done|]. cbn [rowsSql].
  unfold batch_wf in Hwf. rewrite Hd in Hwf.
  destruct (rows_of_at dev (b_ts batch) (b_cells batch) (done + r)) as (t & E1 & E2); [lia|done|].
  rewrite E1. cbn [mbind option_bind]. rewrite cellsSql_ok.
  2-3: unfold fieldCount in *; pose proof (lenZ_nonneg (s_fields (d_spec (p_desc dev)))); nia.
  cbn [mbind option_bind]. rewrite IH by first [done|lia|unfold batch_wf; by rewrite Hd]. cbn [mbind option_bind].
  destruct (Z.eqb_spec r 0); [lia|].
  assert (rd (batch_rows batch) (done + r) = Some (mkRow dev t (takeZ (fieldCount (p_desc dev))
    (dropZ ((done + r) * fieldCount (p_desc dev)) (b_cells batch))))) as E3 by (unfold batch_rows; by rewrite Hd).
  rewrite (rd_dropZ_cons _ _ _ E3), takeZ_cons by lia. replace (Z.of_nat (S n) - 1) with (Z.of_nat n) by lia.
  replace (done + (r + 1)) with (done + r + 1) by lia. cbn [map foldr]. f_equal.
  unfold rowSql. cbn [r_ts r_cells]. by rewrite <- !str_app_assoc.
Qed.

Lemma rowsSql_ok (dev : DevicePtr) batch done n :
  b_dev batch = Some dev -> batch_wf batch -> 0 <= done -> 0 < n -> done + n <= lenZ (b_ts batch) ->
  rowsSql (p_desc dev) batch done (Z.to_nat n) 0 =
  Some (sqlJoin "," (map (rowSql (p_desc dev)) (takeZ n (dropZ done (batch_rows batch))))).
Proof.
  intros Hd Hwf Hdn Hn Hl. replace (Z.to_nat n) with (S (Z.to_nat (n - 1))) by lia. cbn [rowsSql].
  rewrite rowsSql_tail by (try done; lia). pose proof Hwf as Hwf'. unfold batch_wf in Hwf. rewrite Hd in Hwf.
  destruct (rows_of_at dev (b_ts batch) (b_cells batch) done) as (t & E1 & E2); [lia|done|].
  rewrite Z.add_0_r, E1. cbn [mbind option_bind]. rewrite cellsSql_ok.
  2-3: unfold fieldCount in *; pose proof (lenZ_nonneg (s_fields (d_spec (p_desc dev)))); nia.
  cbn [mbind option_bind Z.eqb].
  assert (rd (batch_rows batch) done = Some (mkRow dev t (takeZ (fieldCount (p_desc dev))
    (dropZ (done * fieldCount (p_desc dev)) (b_cells batch))))) as E3 by (unfold batch_rows; by rewrite Hd).
  rewrite (rd_dropZ_cons _ _ _ E3), takeZ_cons by lia. rewrite Z2Nat.id by lia. cbn [map sqlJoin]. f_equal.
  unfold rowSql. cbn [r_ts r_cells]. by rewrite <- !str_app_assoc.
Qed.

Lemma sqlLoop_ok (dev : DevicePtr) batch rows fuel : forall s done,
  b_dev batch = Some dev -> batch_wf batch ->
  rows = lenZ (b_ts batch) -> 0 <= done <= rows -> rows - done <= Z.of_nat fuel ->
  sqlLoop cl fuel (p_desc dev) batch rows done s =
  Some (fold_left (insertSqlRows (p_desc dev)) (chunks fuel kMaxRowsPerStmt (dropZ done (batch_rows batch))) s).
Proof.
  assert (b_dev batch = Some dev -> lenZ (batch_rows batch) = lenZ (b_ts batch)) as Hbl.
  { intros Hd. unfold batch_rows. rewrite Hd. apply rows_of_length_Z. }
  induction fuel as [|fuel IH]; intros s done Hdev Hwf Hrows Hdone Hfuel; cbn [sqlLoop].
  - destruct (Z.ltb_spec done rows); [lia|]. cbn [negb]. by destruct (dropZ _ _).
  - destruct (Z.ltb_spec done rows) as [Hlt|Hge]; cbn [negb].
    + set (n := Z.min (rows - done) kMaxRowsPerStmt). assert (kMaxRowsPerStmt = 200) by done.
      rewrite rowsSql_ok by (try done; lia). cbn [mbind option_bind].
      assert (lenZ (dropZ done (batch_rows batch)) = rows - done) as Hdl by (rewrite lenZ_dropZ, Hbl by done; lia).
      destruct (dropZ done (batch_rows batch)) as [|r rs] eqn:Edrop; [rewrite lenZ_nil in Hdl; lia|].
      cbn [chunks fold_left]. rewrite <- Edrop in *.
      destruct (chunk_min kMaxRowsPerStmt (dropZ done (batch_rows batch))) as [-> ->].
      rewrite Hdl. fold n.
      unfold insertSqlRows at 2. unfold insertText.
      assert (lenZ (takeZ n (dropZ done (batch_rows batch))) = n) as -> by (rewrite lenZ_takeZ; lia).
      destruct (db_query cl _ _) as [e d]. cbn [fst snd].
      rewrite IH by (try done; lia). by rewrite dropZ_dropZ by lia.
    + assert (dropZ done (batch_rows batch) = []) as -> by (unfold dropZ; apply drop_ge; specialize (Hbl Hdev); unfold lenZ in Hbl, Hrows; lia).
      done.
Qed.

(** ** Start-up *)

Lemma layout_ok cap fs : forall k off pre, Forall column_ok fs -> 0 <= off -> 0 < cap -> lenZ pre = k + 1 ->
  off + sizes_sum fs * cap < 2 ^ 64 ->
  let '(bases, total) := layout cap off (map f_outSize fs) in
  bases_ok cap fs k off (pre ++ bases) /\ total = off + sizes_sum fs * cap /\ True.
Proof.
  induction fs as [|f fs IH]; intros k off pre Hfs Ho Hc Hp Hb; cbn [map layout].
  - split_and!; try done. change (sizes_sum []) with 0. lia.
  - apply Forall_cons in Hfs as [[_ Hf] Hfs]. pose proof (sizes_nonneg _ Hfs) as Hs.
    change (sizes_sum (f :: fs)) with (f_outSize f + sizes_sum fs) in *.
    rewrite (uwrap_small 64 (f_outSize f * cap)) by nia. rewrite (uwrap_small 64) by nia.
    specialize (IH (k + 1) (off + f_outSize f * cap) (pre ++ [off]) Hfs).
    destruct (layout cap (off + f_outSize f * cap) (map f_outSize fs)) as [bases total].
    destruct IH as (IH1 & IH2 & _); [nia|done|rewrite lenZ_app, Hp; done|nia|].
    rewrite <- app_assoc in IH1. cbn [app] in IH1. cbn [bases_ok]. split_and!; try done; [|nia].
    rewrite rd_app_r by lia. replace (k + 1 - lenZ pre) with 0 by lia. apply rd_cons_0.
Qed.

(** The limits under which the sizes of a staging buffer do not wrap. *)
Record writable (dev : DeviceDesc) : Prop := {
  wd_columns : columns_ok dev;
  wd_fields : fieldCount dev < 2 ^ 28;
}.

Lemma prepareSink_ok addr dev w w' : writable dev -> batchRows (wr_cfg w) < 2 ^ 31 ->
  prepareSink cl addr dev w = (None, w') ->
  exists sink, wr_sinks w' = <[addr := sink]> (wr_sinks w) /\ wr_cfg w' = wr_cfg w /\
    sink_ok (sinkCapacity (wr_cfg w)) dev sink.
Proof.
  intros [Hcol Hf] Hb. unfold prepareSink. set (cap := sinkCapacity (wr_cfg w)).
  assert (0 < cap < 2 ^ 31) as Hcap by (unfold cap, sinkCapacity; destruct (Z.ltb_spec 0 (batchRows (wr_cfg w))); lia).
  pose proof (sizes_nonneg _ Hcol) as Hs. unfold fieldCount in Hf.
  cbn [map layout]. rewrite (uwrap_small 64 (8 * cap)) by lia. rewrite (uwrap_small 64) by lia.
  pose proof (layout_ok cap (s_fields (d_spec dev)) 0 (0 + 8 * cap) [0] Hcol) as HL.
  destruct (layout cap (0 + 8 * cap) (map f_outSize (s_fields (d_spec dev)))) as [bases total].
  destruct HL as (HL1 & HL2 & _); [lia|lia|done|nia|].
  destruct (db_prepare cl _ _) as [[s|] d]; [|done]. intros [= <-]. eexists. split_and!; [done|done|].
  constructor; simpl.
  - lia.
  - apply rd_cons_0.
  - exact HL1.
  - unfold lenZ. rewrite repeat_length. lia.
Qed.

(** The state of the running writer: a sink per served device. *)
Definition sinks_for (db : list DeviceDesc) (cap : Z) (sinks : gmap nat Sink) : Prop :=
  forall a sink, sinks !! a = Some sink -> exists d, db !! a = Some d /\ sink_ok cap d sink.

Definition sink_devices (d : DeviceDesc) : Prop := served d = true /\ d_connProto d <> CONN_HTTP.

Lemma ensureTable_same dev w e w' : ensureTable cl dev w = (e, w') ->
  wr_sinks w' = wr_sinks w /\ wr_cfg w' = wr_cfg w.
Proof.
  unfold ensureTable, query. destruct (db_query cl _ _) as [err d]. destruct (str_empty err); by intros [= <- <-].
Qed.

Lemma startDevices_ok db devs : forall addr w w',
  drop addr db = devs -> Forall writable devs -> batchRows (wr_cfg w) < 2 ^ 31 ->
  startDevices cl addr devs w = (None, w') -> sinks_for db (sinkCapacity (wr_cfg w)) (wr_sinks w) ->
  wr_cfg w' = wr_cfg w /\ sinks_for db (sinkCapacity (wr_cfg w)) (wr_sinks w') /\
  (forall a, is_Some (wr_sinks w !! a) -> is_Some (wr_sinks w' !! a)) /\
  (forall a d, (addr <= a)%nat -> db !! a = Some d -> sink_devices d -> is_Some (wr_sinks w' !! a)).
Proof.
  induction devs as [|dev devs IH]; intros addr w w' Hdb Hw Hb E Hs; cbn [startDevices] in E.
  - injection E as <-. split_and!; try done. intros a d Ha Hl _. apply lookup_lt_Some in Hl.
    assert (length (drop addr db) = 0%nat) as H0 by by rewrite Hdb. rewrite length_drop in H0. lia.
  - apply Forall_cons in Hw as [Hd Hw].
    assert (db !! addr = Some dev) as Haddr by (rewrite <- (Nat.add_0_r addr), <- lookup_drop, Hdb; done).
    assert (drop (S addr) db = devs) as Hdb' by (rewrite <- Nat.add_1_r, <- drop_drop, Hdb; done).
    assert (forall w2, wr_cfg w2 = wr_cfg w -> sinks_for db (sinkCapacity (wr_cfg w)) (wr_sinks w2) ->
      startDevices cl (S addr) devs w2 = (None, w') ->
      (forall a, is_Some (wr_sinks w !! a) -> is_Some (wr_sinks w2 !! a)) ->
      (sink_devices dev -> is_Some (wr_sinks w2 !! addr)) ->
      wr_cfg w' = wr_cfg w /\ sinks_for db (sinkCapacity (wr_cfg w)) (wr_sinks w') /\
      (forall a, is_Some (wr_sinks w !! a) -> is_Some (wr_sinks w' !! a)) /\
      (forall a d, (addr <= a)%nat -> db !! a = Some d -> sink_devices d -> is_Some (wr_sinks w' !! a))) as Hnext.
    { intros w2 Hc2 Hs2 E2 Hm2 Hn2. rewrite <- Hc2 in Hb, Hs2.
      destruct (IH (S addr) w2 w' Hdb' Hw Hb E2 Hs2) as (C & S1 & M & A). rewrite Hc2 in *. split_and!; try done.
      - intros a Ha. by apply M, Hm2.
      - intros a d Ha Hl Hd'. destruct (decide (a = addr)) as [->|Hne]; [|apply (A a d); [lia|done|done]].
        rewrite Haddr in Hl. injection Hl as ->. by apply M, Hn2. }
    destruct (served dev) eqn:Esrv; cbn [negb] in E.
    2:{ apply (Hnext w); try done. by intros [? _]; congruence. }
    destruct (if createTables (wr_cfg w) then ensureTable cl dev w else (None, w)) as [err w1] eqn:E1.
    assert (wr_sinks w1 = wr_sinks w /\ wr_cfg w1 = wr_cfg w) as [Hs1 Hc1].
    { destruct (createTables _); [by eapply ensureTable_same|by injection E1 as <- <-]. }
    destruct err; [done|]. destruct (Z.eqb_spec (d_connProto dev) CONN_HTTP) as [Eh|Eh].
    + apply (Hnext w1); try done; [by rewrite Hs1..|by intros [_ ?]].
    + destruct (prepareSink cl addr dev w1) as [err w2] eqn:E2. destruct err; [done|].
      destruct (prepareSink_ok addr dev w1 w2 Hd) as (sink & Hsk & Hc2 & Hso); [by rewrite Hc1|done|].
      apply (Hnext w2); try done; [congruence| | |].
      * intros a s Hl. rewrite Hsk in Hl. apply lookup_insert_Some in Hl as [[<- <-]|[_ Hl]].
        -- exists dev. by rewrite <- Hc1.
        -- apply Hs. by rewrite <- Hs1.
      * intros a Ha. rewrite Hsk, Hs1. destruct (decide (addr = a)) as [->|Hn];
          [by rewrite lookup_insert_eq|by rewrite lookup_insert_ne].
      * intros _. rewrite Hsk, lookup_insert_eq. done.
Qed.

Lemma writerStart_ok db w0 w : wr_sinks w0 = ∅ -> Forall writable (db_devices db) ->
  batchRows (wr_cfg w0) < 2 ^ 31 -> writerStart cl db w0 = (None, w) ->
  sinks_for (db_devices db) (sinkCapacity (wr_cfg w)) (wr_sinks w) /\
  (forall a d, db_devices db !! a = Some d -> sink_devices d -> is_Some (wr_sinks w !! a)).
Proof.
  intros Hs0 Hw Hb. unfold writerStart.
  destruct (connectClient cl w0) as [err w1] eqn:E1.
  assert (wr_sinks w1 = ∅ /\ wr_cfg w1 = wr_cfg w0) as [Hs1 Hc1].
  { unfold connectClient in E1. destruct (db_connect cl _ _ _ _ _) as [ok d]. by injection E1 as <- <-. }
  destruct err; [done|]. destruct (ensureDatabase cl w1) as [err w2] eqn:E2.
  assert (wr_sinks w2 = ∅ /\ wr_cfg w2 = wr_cfg w0) as [Hs2 Hc2].
  { unfold ensureDatabase, query in E2. rewrite <- Hs1, <- Hc1. destruct (createDatabase _).
    - simpl in E2. destruct (db_query cl _ _) as [e d]. destruct (str_empty e); [|by injection E2 as <- <-].
      destruct (db_query cl _ _) as [e2 d2]. by injection E2 as <- <-.
    - simpl in E2. destruct (db_query cl _ _) as [e d]. by injection E2 as <- <-. }
  destruct err; [done|]. destruct (startDevices cl 0 (db_devices db) w2) as [err w3] eqn:E3.
  destruct err; [done|]. intros [= <-].
  destruct (startDevices_ok (db_devices db) (db_devices db) 0 w2 w3) as (C & S3 & _ & A); try done.
  - by rewrite Hc2.
  - intros a s Hl. by rewrite Hs2 in Hl.
  - simpl. rewrite C. split; [exact S3|]. intros a d. apply A. lia.
Qed.

(** ** The whole writer *)

(** The abstract effect of one batch: rows of an HTTP device as SQL rows in
    statements of 200, the others as columns in statements of [cap] rows;
    nothing for a device without a prepared statement. *)
Definition insertBatch (cap : Z) (stmts : gmap nat nat) (s : D * AdapterStats) (b : RowBatch)
    : D * AdapterStats :=
  match b_dev b with
  | None => s
  | Some dev =>
      let rows := batch_rows b in
      if d_connProto (p_desc dev) =? CONN_HTTP then
        if fieldCount (p_desc dev) =? 0 then s
        else fold_left (insertSqlRows (p_desc dev)) (chunks (length rows) kMaxRowsPerStmt rows) s
      else
        match stmts !! p_addr dev with
        | None => s
        | Some stmt => fold_left (insertRows (p_desc dev) stmt) (chunks (length rows) cap rows) s
        end
  end.

(** The batches the writer receives: well-formed, of configured devices. *)
Definition batch_for (db : list DeviceDesc) (b : RowBatch) : Prop :=
  batch_wf b /\ lenZ (b_ts b) < 2 ^ 31 /\
  match b_dev b with Some dev => db !! p_addr dev = Some (p_desc dev) | None => True end.

Definition stmts (w : Writer D) : gmap nat nat := sk_stmt <$> wr_sinks w.

Lemma writeBatch_ok db cap w b : Forall writable db -> sinks_for db cap (wr_sinks w) -> batch_for db b ->
  exists w', writeBatch cl b w = Some w' /\ sinks_for db cap (wr_sinks w') /\ stmts w' = stmts w /\
    (wr_db w', wr_stats w') = insertBatch cap (stmts w) (wr_db w, wr_stats w) b.
Proof.
  intros Hwr Hs (Hwf & Hlen & Hdev). unfold writeBatch, insertBatch, stmts.
  destruct (b_dev b) as [dev|] eqn:Eb; [|by exists w].
  pose proof (lenZ_nonneg (b_ts b)).
  assert (rowCount b = lenZ (b_ts b)) as Hrc by (unfold rowCount; apply swrap_small; lia).
  assert (length (batch_rows b) = Z.to_nat (rowCount b)) as Hbl.
  { rewrite Hrc. unfold batch_rows. rewrite Eb, rows_of_length. unfold lenZ. lia. }
  destruct (d_connProto (p_desc dev) =? CONN_HTTP).
  - unfold writeBatchSql. destruct (fieldCount (p_desc dev) =? 0); [by exists w|].
    destruct (Z.eqb_spec (rowCount b) 0) as [H0|H0]; cbn [orb].
    { exists w. rewrite H0 in Hbl. by destruct (batch_rows b). }
    rewrite (sqlLoop_ok dev b) by (try done; lia). cbn [mbind option_bind]. rewrite dropZ_0, <- Hbl.
    destruct (fold_left _ _ _) as [d st]. by eexists.
  - destruct (wr_sinks w !! p_addr dev) as [sink|] eqn:Esk.
    2:{ exists w. by rewrite lookup_fmap, Esk. }
    destruct (Hs _ _ Esk) as (d & Hd & Hso). rewrite Hdev in Hd. injection Hd as <-.
    assert (columns_ok (p_desc dev)) as Hcol.
    { eapply wd_columns, Forall_lookup_1; [exact Hwr|exact Hdev]. }
    destruct (writeLoop_ok cap dev b (rowCount b) (Z.to_nat (rowCount b)) sink (wr_db w, wr_stats w) 0)
      as (data & E & Hso'); try done; try lia.
    rewrite E. cbn [mbind option_bind]. rewrite dropZ_0, <- Hbl.
    rewrite lookup_fmap, Esk. simpl. clear E.
    destruct (fold_left _ _ _) as [d st]. eexists. split_and!; [done| | |done].
    + intros a sk Hl. simpl in Hl. apply lookup_insert_Some in Hl as [[<- <-]|[_ Hl]]; [by exists (p_desc dev)|by apply Hs].
    + simpl. rewrite fmap_insert. simpl. apply insert_id. by rewrite lookup_fmap, Esk.
Qed.

Lemma writerRun_ok db cap bs : forall w, Forall writable db -> sinks_for db cap (wr_sinks w) ->
  Forall (batch_for db) bs ->
  exists w', writerRun cl bs w = Some w' /\ sinks_for db cap (wr_sinks w') /\ stmts w' = stmts w /\
    (wr_db w', wr_stats w') = fold_left (insertBatch cap (stmts w)) bs (wr_db w, wr_stats w).
Proof.
  induction bs as [|b bs IH]; intros w Hwr Hs Hbs; [by exists w|]. apply Forall_cons in Hbs as [Hb Hbs].
  cbn [writerRun fold_left].
  assert (exists w', (match b_dev b with
    | Some _ => if batchEmpty b then Some w else writeBatch cl b w | None => Some w end) = Some w' /\
    sinks_for db cap (wr_sinks w') /\ stmts w' = stmts w /\
    (wr_db w', wr_stats w') = insertBatch cap (stmts w) (wr_db w, wr_stats w) b) as (w1 & E1 & Hs1 & Ht1 & Hi1).
  { destruct (writeBatch_ok db cap w b Hwr Hs Hb) as (w1 & E1 & Hw1).
    destruct (b_dev b) as [dev|] eqn:Eb; [|exists w; split_and!; try done; unfold insertBatch; by rewrite Eb].
    destruct (batchEmpty b) eqn:Ee; [|by exists w1]. exists w. split_and!; try done.
    unfold insertBatch, batch_rows. rewrite Eb. unfold batchEmpty in Ee. destruct (b_ts b); [|done]. simpl.
    destruct (_ =? _); [by destruct (_ =? _)|]. by destruct (stmts w !! _). }
  rewrite E1. cbn [mbind option_bind]. destruct (IH w1 Hwr Hs1 Hbs) as (w2 & E2 & Hs2 & Ht2 & H2).
  exists w2. split_and!; [done|done|congruence|]. by rewrite H2, Ht1, Hi1.
Qed.
End Inserts.

(** ** Reading values back *)

(** What a column of [outSize] bytes holds, as the database reads it. *)
Definition columnValue (f : FieldDesc) (bytes : list Z) : Z :=
  if f_asDouble f then (if f_outSize f =? 8 then le_value bytes else f32_to_f64 (le_value bytes))
  else swrap (8 * f_outSize f) (le_value bytes).

Lemma stageBytes_value f c : column_ok f ->
  columnValue f (stageBytes f c) =
  if f_asDouble f then (if f_outSize f =? 8 then cell_d c else f32_to_f64 (f64_to_f32 (cell_d c)))
  else swrap (8 * f_outSize f) (cell_i c).
Proof.
  intros [Hw Hs]. pose proof (f64_to_f32_range (cell_d c)) as Hf. unfold columnValue, stageBytes. unfold stageWidth in Hw.
  assert (forall (n : nat) (v : Z), (0 < n)%nat -> swrap (8 * Z.of_nat n) (le_value (le_bytes n v)) = swrap (8 * Z.of_nat n) v) as Hsw.
  { intros n v Hn. rewrite le_value_bytes. by apply (swrap_uwrap (8 * Z.of_nat n)); lia. }
  destruct (f_asDouble f).
  - destruct (Z.eqb_spec (f_outSize f) 8); rewrite le_value_bytes.
    + apply (uwrap_uwrap 64). lia.
    + f_equal. by apply (uwrap_small 32).
  - destruct (Z.eqb_spec (f_outSize f) 1) as [->|]; [apply (Hsw 1%nat); lia|].
    destruct (Z.eqb_spec (f_outSize f) 2) as [->|]; [apply (Hsw 2%nat); lia|].
    destruct (Z.eqb_spec (f_outSize f) 4) as [->|]; [apply (Hsw 4%nat); lia|].
    rewrite <- Hw. apply (Hsw 8%nat); lia.
Qed.

(** ** SQL rows read back *)

(** A cell of an integer or Boolean field. *)
Definition cell_plain (f : FieldDesc) (c : Cell) : Prop :=
  f_asDouble f = false /\ (f_kind f = Bool -> cell_i c = 0 \/ cell_i c = 1).

Definition cellRead (c : Cell) : option Z := if c_isNull c =? 0 then Some (cell_i c) else None.

(** A reader for the text of a row: the pieces between the commas; [NULL] is
    no number. *)
Definition readRow (s : string) : list (option Z) := map (strtoll 10) (getlines ","%char (inner s)).

Lemma digits_no_comma s : str_forall is_digit s = true -> no_char ","%char s = true.
Proof.
  apply str_forall_impl. intros c Hc. destruct (Ascii.eqb_spec c ","%char) as [->|]; [discriminate|done].
Qed.

Lemma to_string_no_comma n : no_char ","%char (to_string n) = true.
Proof.
  assert (forall m, 0 <= m -> no_char ","%char (to_string m) = true) as Hp.
  { intros m Hm. by apply digits_no_comma, to_string_digits. }
  destruct (Z.leb_spec 0 n); [by apply Hp|].
  assert (to_string n = String.String "-" (to_string (- n))) as ->.
  { unfold to_string. destruct (Z.ltb_spec n 0); [|lia]. by destruct (Z.ltb_spec (- n) 0); [lia|]. }
  unfold no_char. cbn [str_forall]. apply (Hp (- n)). lia.
Qed.

Lemma cellSql_read f c : cell_plain f c ->
  no_char ","%char (cellSql f c) = true /\ cellSql f c <> EmptyString /\
  strtoll 10 (cellSql f c) = cellRead c.
Proof.
  intros [Hd Hb]. unfold cellSql, cellRead. rewrite Hd.
  destruct (c_isNull c =? 0); cbn [negb]; [|done].
  assert (- 2 ^ 63 <= cell_i c < 2 ^ 63) as Hr by (apply (swrap_range 64); lia).
  assert (no_char ","%char (to_string (cell_i c)) = true /\ to_string (cell_i c) <> EmptyString /\
    strtoll 10 (to_string (cell_i c)) = Some (cell_i c)) as Hi.
  { split_and!; [apply to_string_no_comma| |by apply strtoll_to_string].
    intros E. pose proof (strtoll_to_string _ Hr) as Ht. by rewrite E in Ht. }
  destruct (f_kind f); try exact Hi. destruct (Hb eq_refl) as [-> | ->]; done.
Qed.

Lemma getlines_last d l : no_char d l = true -> l <> EmptyString -> getlines d l = [l].
Proof.
  unfold no_char. induction l as [|c l IH]; intros H Hn; [done|]. cbn [str_forall] in H.
  apply andb_true_iff in H as [Hc H]. apply negb_true_iff in Hc. cbn [getlines]. rewrite Hc.
  destruct l as [|c' l]; [done|]. by rewrite IH.
Qed.

Lemma rowCells_read fs : forall cells t, lenZ cells = lenZ fs -> Forall2 cell_plain fs cells ->
  no_char ","%char t = true -> t <> EmptyString ->
  map (strtoll 10) (getlines ","%char (t +:+ rowCellsSql fs cells)) = strtoll 10 t :: map cellRead cells.
Proof.
  induction fs as [|f fs IH]; intros cells t Hl HF Ht Hn.
  - inversion HF; subst. cbn [rowCellsSql map]. rewrite str_app_nil_r. by rewrite getlines_last.
  - inversion HF as [|? c ? cells' Hc HF']; subst. cbn [rowCellsSql map].
    rewrite str_cons_app, str_nil_app. rewrite getlines_line by done. cbn [map].
    destruct (cellSql_read f c Hc) as (H1 & H2 & H3). rewrite IH; [by rewrite H3| |done..].
    rewrite !lenZ_cons in Hl. lia.
Qed.

(** ** Properties *)

(** C14: the writer thread refines plain insertion.  Once [start] has
    succeeded, every device with fields that is neither HTTP nor unserved has a
    prepared statement, and for every sequence of well-formed batches of
    configured devices the thread never leaves its staging buffers and ends:
    the database gets exactly the rows of every batch, in order, as columns in
    statements of [batchRows] rows (SQL rows in statements of 200 for HTTP
    devices), and the statistics count exactly what the database reported. *)
Theorem writerRun_inserts {D} (cl : DbClient D) db cfg stats d0 w batches :
  Forall writable (db_devices db) -> batchRows cfg < 2 ^ 31 ->
  writerStart cl db (newWriter cfg stats d0) = (None, w) ->
  Forall (batch_for (db_devices db)) batches ->
  (forall a d, db_devices db !! a = Some d -> sink_devices d -> is_Some (stmts w !! a)) /\
  exists w', writerRun cl batches w = Some w' /\
    (wr_db w', wr_stats w') =
    fold_left (insertBatch cl (sinkCapacity (wr_cfg w)) (stmts w)) batches (wr_db w, wr_stats w).
Proof.
  intros Hwr Hb E Hbs. destruct (writerStart_ok cl db (newWriter cfg stats d0) w eq_refl Hwr Hb E) as [Hs Ha]. split.
  - intros a d Hl Hd. unfold stmts. rewrite lookup_fmap. destruct (Ha a d Hl Hd) as [sk ->]. by eexists.
  - destruct (writerRun_ok cl (db_devices db) (sinkCapacity (wr_cfg w)) batches w Hwr Hs Hbs) as (w' & E' & _ & _ & H').
    by exists w'.
Qed.

(** What the database reads back from a staged value: an integer column
    holds the cell modulo its width - the cell itself when the column can hold
    it - and a float column holds the double, narrowed when it has four bytes. *)
Theorem staged_value f c : column_ok f ->
  columnValue f (stageBytes f c) =
    (if f_asDouble f then (if f_outSize f =? 8 then cell_d c else f32_to_f64 (f64_to_f32 (cell_d c)))
     else swrap (8 * f_outSize f) (cell_i c)) /\
  (f_asDouble f = false -> - 2 ^ (8 * f_outSize f - 1) <= cell_i c < 2 ^ (8 * f_outSize f - 1) ->
     columnValue f (stageBytes f c) = cell_i c).
Proof.
  intros Hf. rewrite stageBytes_value by done. split; [done|]. intros -> Hc.
  apply swrap_small; [|done]. destruct Hf; lia.
Qed.

(** The text of a row can be read back: a row of integer and Boolean
    fields, with its commas, parentheses and NULLs, yields its time and its
    cells. *)
Theorem rowSql_read dev r : lenZ (r_cells r) = fieldCount dev ->
  Forall2 cell_plain (s_fields (d_spec dev)) (r_cells r) -> - 2 ^ 63 <= r_ts r < 2 ^ 63 ->
  readRow (rowSql dev r) = Some (r_ts r) :: map cellRead (r_cells r).
Proof.
  intros Hl HF Ht. unfold readRow, rowSql.
  set (body := to_string (r_ts r) +:+ rowCellsSql (s_fields (d_spec dev)) (r_cells r)).
  assert (inner ("(" +:+ to_string (r_ts r) +:+ rowCellsSql (s_fields (d_spec dev)) (r_cells r) +:+ ")") = body) as ->.
  { rewrite (str_app_assoc (to_string _)). fold body. unfold inner. rewrite str_cons_app, str_nil_app.
    cbn [String.length str_drop]. rewrite str_length_app. cbn [String.length].
    replace (S (String.length body + 1) - 2)%nat with (String.length body) by lia. apply str_take_app. }
  unfold body. rewrite rowCells_read; [by rewrite strtoll_to_string|done..|apply to_string_no_comma|].
  intros E. pose proof (strtoll_to_string _ Ht) as H. by rewrite E in H.
Qed.

(** A double that holds an integer of at most ten digits is written
    exactly into the SQL text. *)
Theorem formatDouble_exact n : Z.abs n < 10 ^ 10 -> formatDouble (i64_to_f64 n) = to_string n.
Proof. apply formatDouble_integer. Qed.

(** ** Witnesses *)

(** A database that records what it gets and accepts everything. *)
Definition demo_client : DbClient (list (string + list BoundColumn)) :=
  {| db_connect := fun _ _ _ _ d => (true, d);
     db_query := fun q d => ("", d ++ [inl q]);
     db_fetchTableMeta := fun _ _ d => d;
     db_prepare := fun q d => (Some (length d), d ++ [inl q]);
     db_bindParamBatch := fun _ _ d => (true, d);
     db_execute := fun _ cols d => (match cols with c :: _ => col_numRows c | [] => 0 end, d ++ [inr cols]);
     db_errorRows := fun _ _ => 0;
     db_closeStmt := fun _ d => d;
     db_close := fun d => d |}.

Definition demo_db : ConfigDB := mkDB [p_desc Demo.status; p_desc Demo.event] ∅ [] [] [] ∅ ∅ ∅.

Definition demo_cfg : EtherDBConfig := mkEtherDB "h" 1 "u" "p" "plant" true true 2 20.

Definition demo_batches : list RowBatch :=
  [mkBatch (Some Demo.status) [9]
     [mkCell (2 ^ 64 - 2) 0; mkCell 10 0; mkCell 0x3FF0000000000000 0];
   mkBatch (Some Demo.event) [9; 9; 9]
     [mkCell 0x1234 0; mkCell 1 0; mkCell 5 0; mkCell 0 0; mkCell 6 0; mkCell 1 0]].

Lemma writerRun_inserts_witness :
  let start := writerStart demo_client demo_db (newWriter demo_cfg AdapterStats0 []) in
  fst start = None /\
  exists w', writerRun demo_client demo_batches (snd start) = Some w' /\
    (wr_db w', wr_stats w') =
    fold_left (insertBatch demo_client (sinkCapacity (wr_cfg (snd start))) (stmts (snd start))) demo_batches
      (wr_db (snd start), wr_stats (snd start)).
Proof.
  split; [vm_compute; reflexivity|].
  apply (writerRun_inserts demo_client demo_db demo_cfg AdapterStats0 []
           (snd (writerStart demo_client demo_db (newWriter demo_cfg AdapterStats0 [])))).
  - repeat (apply Forall_cons; split; [constructor; [|reflexivity]|]); try (apply Forall_nil; exact I);
      repeat (apply Forall_cons; split; [split; [reflexivity|simpl; lia]|]); apply Forall_nil; exact I.
  - reflexivity.
  - apply surjective_pairing.
  - repeat (apply Forall_cons; split; [split; [reflexivity|split; reflexivity]|]). apply Forall_nil; exact I.
Defined.

(** The event rows go out in two statements of two and one rows. *)
Lemma demo_writer_run :
  let start := writerStart demo_client demo_db (newWriter demo_cfg AdapterStats0 []) in
  option_map (fun w => map (fun e => match e with inl _ => 0 | inr cols => match cols with c :: _ => col_numRows c | [] => 0 end end) (wr_db w))
    (writerRun demo_client demo_batches (snd start)) = Some [0; 0; 0; 0; 0; 0; 1; 2; 1].
Proof. vm_compute. reflexivity. Qed.

Definition demo_column : FieldDesc := Demo.fld IntSigned 2 0 0 0 false.

Lemma staged_value_witness : columnValue demo_column (stageBytes demo_column (mkCell (2 ^ 64 - 2) 0)) = -2.
Proof.
  destruct (staged_value demo_column (mkCell (2 ^ 64 - 2) 0)) as [_ H]; [split; [reflexivity|simpl; lia]|].
  apply H; [reflexivity|]. vm_compute. split; [discriminate|reflexivity].
Defined.

Definition demo_row : Row := mkRow Demo.event (-5) [mkCell 7 0; mkCell 0 1].

Lemma rowSql_read_witness :
  rowSql (p_desc Demo.event) demo_row = "(-5,7,NULL)" /\
  readRow (rowSql (p_desc Demo.event) demo_row) = [Some (-5); Some 7; None].
Proof.
  split; [reflexivity|]. apply (rowSql_read (p_desc Demo.event) demo_row); [reflexivity| |simpl; lia].
  constructor; [split; [reflexivity|discriminate]|].
  constructor; [split; [reflexivity|left; reflexivity]|constructor].
Defined.

Lemma formatDouble_exact_witness : formatDouble (i64_to_f64 (-1234567890)) = "-1234567890".
Proof. apply (formatDouble_exact (-1234567890)). reflexivity. Defined.
