(* ===== verification/HttpModel.v ===== *)
(** * The HTTP parser: data

    [src/src/net/http/http_parser.h] and the tables, enumerations and character
    classes of [src/src/net/http/http_parser.c], as compiled by default
    ([HTTP_PARSER_STRICT] is 1).  Characters are bytes 0..255. *)

From stdpp Require Import base list numbers strings.
From Stdlib Require Import ZArith Lia.
From S2P Require Import Prelude CText.
Local Open Scope Z_scope.

Definition HTTP_MAX_HEADER_SIZE : Z := 80 * 1024.
Definition ULLONG_MAX : Z := 2 ^ 64 - 1.

(** ** Methods *)

Inductive http_method :=
| HTTP_DELETE | HTTP_GET | HTTP_HEAD | HTTP_POST | HTTP_PUT | HTTP_CONNECT | HTTP_OPTIONS
| HTTP_TRACE | HTTP_COPY | HTTP_LOCK | HTTP_MKCOL | HTTP_MOVE | HTTP_PROPFIND | HTTP_PROPPATCH
| HTTP_SEARCH | HTTP_UNLOCK | HTTP_BIND | HTTP_REBIND | HTTP_UNBIND | HTTP_ACL | HTTP_REPORT
| HTTP_MKACTIVITY | HTTP_CHECKOUT | HTTP_MERGE | HTTP_MSEARCH | HTTP_NOTIFY | HTTP_SUBSCRIBE
| HTTP_UNSUBSCRIBE | HTTP_PATCH | HTTP_PURGE | HTTP_MKCALENDAR | HTTP_LINK | HTTP_UNLINK
| HTTP_SOURCE.

#[export] Instance http_method_eq_dec : EqDecision http_method.
Proof. solve_decision. Defined.

(** [method_strings] and [http_method_str] *)
Definition http_method_str (m : http_method) : string :=
  match m with
  | HTTP_DELETE => "DELETE" | HTTP_GET => "GET" | HTTP_HEAD => "HEAD" | HTTP_POST => "POST"
  | HTTP_PUT => "PUT" | HTTP_CONNECT => "CONNECT" | HTTP_OPTIONS => "OPTIONS"
  | HTTP_TRACE => "TRACE" | HTTP_COPY => "COPY" | HTTP_LOCK => "LOCK" | HTTP_MKCOL => "MKCOL"
  | HTTP_MOVE => "MOVE" | HTTP_PROPFIND => "PROPFIND" | HTTP_PROPPATCH => "PROPPATCH"
  | HTTP_SEARCH => "SEARCH" | HTTP_UNLOCK => "UNLOCK" | HTTP_BIND => "BIND"
  | HTTP_REBIND => "REBIND" | HTTP_UNBIND => "UNBIND" | HTTP_ACL => "ACL"
  | HTTP_REPORT => "REPORT" | HTTP_MKACTIVITY => "MKACTIVITY" | HTTP_CHECKOUT => "CHECKOUT"
  | HTTP_MERGE => "MERGE" | HTTP_MSEARCH => "M-SEARCH" | HTTP_NOTIFY => "NOTIFY"
  | HTTP_SUBSCRIBE => "SUBSCRIBE" | HTTP_UNSUBSCRIBE => "UNSUBSCRIBE" | HTTP_PATCH => "PATCH"
  | HTTP_PURGE => "PURGE" | HTTP_MKCALENDAR => "MKCALENDAR" | HTTP_LINK => "LINK"
  | HTTP_UNLINK => "UNLINK" | HTTP_SOURCE => "SOURCE"
  end.

(** ** Errors *)

Inductive http_errno :=
| HPE_OK
| HPE_CB_message_begin | HPE_CB_url | HPE_CB_header_field | HPE_CB_header_value
| HPE_CB_headers_complete | HPE_CB_body | HPE_CB_message_complete | HPE_CB_status
| HPE_CB_chunk_header | HPE_CB_chunk_complete
| HPE_INVALID_EOF_STATE | HPE_HEADER_OVERFLOW | HPE_CLOSED_CONNECTION | HPE_INVALID_VERSION
| HPE_INVALID_STATUS | HPE_INVALID_METHOD | HPE_INVALID_URL | HPE_INVALID_HOST
| HPE_INVALID_PORT | HPE_INVALID_PATH | HPE_INVALID_QUERY_STRING | HPE_INVALID_FRAGMENT
| HPE_LF_EXPECTED | HPE_INVALID_HEADER_TOKEN | HPE_INVALID_CONTENT_LENGTH
| HPE_UNEXPECTED_CONTENT_LENGTH | HPE_INVALID_CHUNK_SIZE | HPE_INVALID_CONSTANT
| HPE_INVALID_INTERNAL_STATE | HPE_STRICT | HPE_PAUSED | HPE_UNKNOWN.

#[export] Instance http_errno_eq_dec : EqDecision http_errno.
Proof. solve_decision. Defined.

(** [http_strerror_tab], [http_errno_name] and [http_errno_description] *)
Definition http_strerror_tab (err : http_errno) : string * string :=
  match err with
  | HPE_OK => ("HPE_OK", "success")
  | HPE_CB_message_begin => ("HPE_CB_message_begin", "the on_message_begin callback failed")
  | HPE_CB_url => ("HPE_CB_url", "the on_url callback failed")
  | HPE_CB_header_field => ("HPE_CB_header_field", "the on_header_field callback failed")
  | HPE_CB_header_value => ("HPE_CB_header_value", "the on_header_value callback failed")
  | HPE_CB_headers_complete => ("HPE_CB_headers_complete", "the on_headers_complete callback failed")
  | HPE_CB_body => ("HPE_CB_body", "the on_body callback failed")
  | HPE_CB_message_complete => ("HPE_CB_message_complete", "the on_message_complete callback failed")
  | HPE_CB_status => ("HPE_CB_status", "the on_status callback failed")
  | HPE_CB_chunk_header => ("HPE_CB_chunk_header", "the on_chunk_header callback failed")
  | HPE_CB_chunk_complete => ("HPE_CB_chunk_complete", "the on_chunk_complete callback failed")
  | HPE_INVALID_EOF_STATE => ("HPE_INVALID_EOF_STATE", "stream ended at an unexpected time")
  | HPE_HEADER_OVERFLOW => ("HPE_HEADER_OVERFLOW", "too many header bytes seen; overflow detected")
  | HPE_CLOSED_CONNECTION => ("HPE_CLOSED_CONNECTION", "data received after completed connection: close message")
  | HPE_INVALID_VERSION => ("HPE_INVALID_VERSION", "invalid HTTP version")
  | HPE_INVALID_STATUS => ("HPE_INVALID_STATUS", "invalid HTTP status code")
  | HPE_INVALID_METHOD => ("HPE_INVALID_METHOD", "invalid HTTP method")
  | HPE_INVALID_URL => ("HPE_INVALID_URL", "invalid URL")
  | HPE_INVALID_HOST => ("HPE_INVALID_HOST", "invalid host")
  | HPE_INVALID_PORT => ("HPE_INVALID_PORT", "invalid port")
  | HPE_INVALID_PATH => ("HPE_INVALID_PATH", "invalid path")
  | HPE_INVALID_QUERY_STRING => ("HPE_INVALID_QUERY_STRING", "invalid query string")
  | HPE_INVALID_FRAGMENT => ("HPE_INVALID_FRAGMENT", "invalid fragment")
  | HPE_LF_EXPECTED => ("HPE_LF_EXPECTED", "LF character expected")
  | HPE_INVALID_HEADER_TOKEN => ("HPE_INVALID_HEADER_TOKEN", "invalid character in header")
  | HPE_INVALID_CONTENT_LENGTH => ("HPE_INVALID_CONTENT_LENGTH", "invalid character in content-length header")
  | HPE_UNEXPECTED_CONTENT_LENGTH => ("HPE_UNEXPECTED_CONTENT_LENGTH", "unexpected content-length header")
  | HPE_INVALID_CHUNK_SIZE => ("HPE_INVALID_CHUNK_SIZE", "invalid character in chunk size header")
  | HPE_INVALID_CONSTANT => ("HPE_INVALID_CONSTANT", "invalid constant string")
  | HPE_INVALID_INTERNAL_STATE => ("HPE_INVALID_INTERNAL_STATE", "encountered unexpected internal state")
  | HPE_STRICT => ("HPE_STRICT", "strict mode assertion failed")
  | HPE_PAUSED => ("HPE_PAUSED", "parser is paused")
  | HPE_UNKNOWN => ("HPE_UNKNOWN", "an unknown error occurred")
  end.
Definition http_errno_name (err : http_errno) : string := fst (http_strerror_tab err).
Definition http_errno_description (err : http_errno) : string := snd (http_strerror_tab err).

(** ** States *)

Inductive state :=
| s_dead
| s_start_req_or_res | s_res_or_resp_H | s_start_res | s_res_H | s_res_HT | s_res_HTT | s_res_HTTP
| s_res_http_major | s_res_http_dot | s_res_http_minor | s_res_http_end
| s_res_first_status_code | s_res_status_code | s_res_status_start | s_res_status
| s_res_line_almost_done
| s_start_req
| s_req_method | s_req_spaces_before_url | s_req_schema | s_req_schema_slash
| s_req_schema_slash_slash | s_req_server_start | s_req_server | s_req_server_with_at
| s_req_path | s_req_query_string_start | s_req_query_string | s_req_fragment_start
| s_req_fragment | s_req_http_start | s_req_http_H | s_req_http_HT | s_req_http_HTT
| s_req_http_HTTP | s_req_http_major | s_req_http_dot | s_req_http_minor | s_req_http_end
| s_req_line_almost_done
| s_header_field_start | s_header_field | s_header_value_discard_ws
| s_header_value_discard_ws_almost_done | s_header_value_discard_lws | s_header_value_start
| s_header_value | s_header_value_lws
| s_header_almost_done
| s_chunk_size_start | s_chunk_size | s_chunk_parameters | s_chunk_size_almost_done
| s_headers_almost_done | s_headers_done
| s_chunk_data | s_chunk_data_almost_done | s_chunk_data_done
| s_body_identity | s_body_identity_eof
| s_message_done.

#[export] Instance state_eq_dec : EqDecision state.
Proof. solve_decision. Defined.

(** [PARSING_HEADER]: everything up to [s_headers_done]. *)
Definition PARSING_HEADER (s : state) : bool :=
  match s with
  | s_chunk_data | s_chunk_data_almost_done | s_chunk_data_done
  | s_body_identity | s_body_identity_eof | s_message_done => false
  | _ => true
  end.

Inductive header_states :=
| h_general | h_C | h_CO | h_CON
| h_matching_connection | h_matching_proxy_connection | h_matching_content_length
| h_matching_transfer_encoding | h_matching_upgrade
| h_connection | h_content_length | h_content_length_num | h_content_length_ws
| h_transfer_encoding | h_upgrade
| h_matching_transfer_encoding_chunked | h_matching_connection_token_start
| h_matching_connection_keep_alive | h_matching_connection_close
| h_matching_connection_upgrade | h_matching_connection_token
| h_transfer_encoding_chunked | h_connection_keep_alive | h_connection_close
| h_connection_upgrade.

#[export] Instance header_states_eq_dec : EqDecision header_states.
Proof. solve_decision. Defined.

(** ** The parser *)

Inductive http_parser_type := HTTP_REQUEST | HTTP_RESPONSE | HTTP_BOTH.

#[export] Instance http_parser_type_eq_dec : EqDecision http_parser_type.
Proof. solve_decision. Defined.

Definition F_CHUNKED : Z := 1.
Definition F_CONNECTION_KEEP_ALIVE : Z := 2.
Definition F_CONNECTION_CLOSE : Z := 4.
Definition F_CONNECTION_UPGRADE : Z := 8.
Definition F_TRAILING : Z := 16.
Definition F_UPGRADE : Z := 32.
Definition F_SKIPBODY : Z := 64.
Definition F_CONTENTLENGTH : Z := 128.

(** [struct http_parser]; [data] is part of the application state. *)
Record http_parser := mkParser {
  hp_type : http_parser_type;
  hp_flags : Z;
  hp_state : state;
  hp_header_state : header_states;
  hp_index : Z;
  hp_lenient : bool;
  hp_nread : Z;
  hp_content_length : Z;
  hp_http_major : Z;
  hp_http_minor : Z;
  hp_status_code : Z;
  hp_method : http_method;
  hp_errno : http_errno;
  hp_upgrade : bool;
}.

(** [http_parser_init]; the zeroed fields are the first enumerators. *)
Definition http_parser_init (t : http_parser_type) : http_parser :=
  {| hp_type := t; hp_flags := 0;
     hp_state := match t with
                 | HTTP_REQUEST => s_start_req
                 | HTTP_RESPONSE => s_start_res
                 | HTTP_BOTH => s_start_req_or_res
                 end;
     hp_header_state := h_general; hp_index := 0; hp_lenient := false; hp_nread := 0;
     hp_content_length := 0; hp_http_major := 0; hp_http_minor := 0; hp_status_code := 0;
     hp_method := HTTP_DELETE; hp_errno := HPE_OK; hp_upgrade := false |}.

(** Field updates. *)
Definition set_type v (P : http_parser) : http_parser :=
  mkParser v (hp_flags P) (hp_state P) (hp_header_state P) (hp_index P) (hp_lenient P) (hp_nread P)
    (hp_content_length P) (hp_http_major P) (hp_http_minor P) (hp_status_code P)
    (hp_method P) (hp_errno P) (hp_upgrade P).
Definition set_flags v (P : http_parser) : http_parser :=
  mkParser (hp_type P) v (hp_state P) (hp_header_state P) (hp_index P) (hp_lenient P) (hp_nread P)
    (hp_content_length P) (hp_http_major P) (hp_http_minor P) (hp_status_code P)
    (hp_method P) (hp_errno P) (hp_upgrade P).
Definition set_state v (P : http_parser) : http_parser :=
  mkParser (hp_type P) (hp_flags P) v (hp_header_state P) (hp_index P) (hp_lenient P) (hp_nread P)
    (hp_content_length P) (hp_http_major P) (hp_http_minor P) (hp_status_code P)
    (hp_method P) (hp_errno P) (hp_upgrade P).
Definition set_header_state v (P : http_parser) : http_parser :=
  mkParser (hp_type P) (hp_flags P) (hp_state P) v (hp_index P) (hp_lenient P) (hp_nread P)
    (hp_content_length P) (hp_http_major P) (hp_http_minor P) (hp_status_code P)
    (hp_method P) (hp_errno P) (hp_upgrade P).
Definition set_index v (P : http_parser) : http_parser :=
  mkParser (hp_type P) (hp_flags P) (hp_state P) (hp_header_state P) v (hp_lenient P) (hp_nread P)
    (hp_content_length P) (hp_http_major P) (hp_http_minor P) (hp_status_code P)
    (hp_method P) (hp_errno P) (hp_upgrade P).
Definition set_nread v (P : http_parser) : http_parser :=
  mkParser (hp_type P) (hp_flags P) (hp_state P) (hp_header_state P) (hp_index P) (hp_lenient P) v
    (hp_content_length P) (hp_http_major P) (hp_http_minor P) (hp_status_code P)
    (hp_method P) (hp_errno P) (hp_upgrade P).
Definition set_content_length v (P : http_parser) : http_parser :=
  mkParser (hp_type P) (hp_flags P) (hp_state P) (hp_header_state P) (hp_index P) (hp_lenient P)
    (hp_nread P) v (hp_http_major P) (hp_http_minor P) (hp_status_code P) (hp_method P)
    (hp_errno P) (hp_upgrade P).
Definition set_http_major v (P : http_parser) : http_parser :=
  mkParser (hp_type P) (hp_flags P) (hp_state P) (hp_header_state P) (hp_index P) (hp_lenient P)
    (hp_nread P) (hp_content_length P) v (hp_http_minor P) (hp_status_code P) (hp_method P)
    (hp_errno P) (hp_upgrade P).
Definition set_http_minor v (P : http_parser) : http_parser :=
  mkParser (hp_type P) (hp_flags P) (hp_state P) (hp_header_state P) (hp_index P) (hp_lenient P)
    (hp_nread P) (hp_content_length P) (hp_http_major P) v (hp_status_code P) (hp_method P)
    (hp_errno P) (hp_upgrade P).
Definition set_status_code v (P : http_parser) : http_parser :=
  mkParser (hp_type P) (hp_flags P) (hp_state P) (hp_header_state P) (hp_index P) (hp_lenient P)
    (hp_nread P) (hp_content_length P) (hp_http_major P) (hp_http_minor P) v (hp_method P)
    (hp_errno P) (hp_upgrade P).
Definition set_method v (P : http_parser) : http_parser :=
  mkParser (hp_type P) (hp_flags P) (hp_state P) (hp_header_state P) (hp_index P) (hp_lenient P)
    (hp_nread P) (hp_content_length P) (hp_http_major P) (hp_http_minor P) (hp_status_code P)
    v (hp_errno P) (hp_upgrade P).
Definition set_errno v (P : http_parser) : http_parser :=
  mkParser (hp_type P) (hp_flags P) (hp_state P) (hp_header_state P) (hp_index P) (hp_lenient P)
    (hp_nread P) (hp_content_length P) (hp_http_major P) (hp_http_minor P) (hp_status_code P)
    (hp_method P) v (hp_upgrade P).
Definition set_upgrade v (P : http_parser) : http_parser :=
  mkParser (hp_type P) (hp_flags P) (hp_state P) (hp_header_state P) (hp_index P) (hp_lenient P)
    (hp_nread P) (hp_content_length P) (hp_http_major P) (hp_http_minor P) (hp_status_code P)
    (hp_method P) (hp_errno P) v.

(** [parser->flags |= f] and [parser->flags & f] *)
Definition add_flag (f : Z) (P : http_parser) : http_parser := set_flags (Z.lor (hp_flags P) f) P.
Definition has_flag (f : Z) (P : http_parser) : bool := negb (Z.land (hp_flags P) f =? 0).

(** [++parser->index], a seven-bit field *)
Definition inc_index (P : http_parser) : http_parser := set_index (uwrap 7 (hp_index P + 1)) P.

(** ** Character classes *)

Definition CR : Z := 13.
Definition LF : Z := 10.
Definition SP : Z := 32.
Definition HT : Z := 9.

(** The characters of a C string, and a character constant. *)
Definition chars (s : string) : list Z := map code (String.list_ascii_of_string s).
Definition chr (s : string) : Z := match s with String.String c _ => code c | String.EmptyString => 0 end.

#[global] Arguments chr : simpl never.

Definition LOWER (c : Z) : Z := Z.lor c 32.
Definition in_range (lo hi c : Z) : bool := (lo <=? c) && (c <=? hi).
Definition one_of (s : string) (c : Z) : bool := existsb (fun a => c =? a) (chars s).

Definition IS_ALPHA (c : Z) : bool := in_range (chr "a") (chr "z") (LOWER c).
Definition IS_NUM (c : Z) : bool := in_range (chr "0") (chr "9") c.
Definition IS_ALPHANUM (c : Z) : bool := IS_ALPHA c || IS_NUM c.
Definition IS_HEX (c : Z) : bool := IS_NUM c || in_range (chr "a") (chr "f") (LOWER c).
Definition IS_MARK (c : Z) : bool := one_of "-_.!~*'()" c.
Definition IS_USERINFO_CHAR (c : Z) : bool := IS_ALPHANUM c || IS_MARK c || one_of "%;:&=+$," c.

(** [tokens]: the lower-case token character, 0 for anything else. *)
Definition tokens (c : Z) : Z :=
  if in_range (chr "A") (chr "Z") c then c + 32
  else if in_range (chr "a") (chr "z") c || IS_NUM c || one_of "!#$%&'*+-.^_`|~" c then c
  else 0.

Definition TOKEN (c : Z) : Z := tokens c.
Definition STRICT_TOKEN (c : Z) : Z := tokens c.

(** [normal_url_char]: the bitmap in strict mode. *)
Definition IS_URL_CHAR (c : Z) : bool :=
  in_range 33 126 c && negb (c =? chr "#") && negb (c =? chr "?").
Definition IS_HOST_CHAR (c : Z) : bool := IS_ALPHANUM c || (c =? chr ".") || (c =? chr "-").

(** [IS_HEADER_CHAR] *)
Definition IS_HEADER_CHAR (ch : Z) : bool :=
  (ch =? CR) || (ch =? LF) || (ch =? 9) || ((ch >? 31) && negb (ch =? 127)).

(** [unhex]: the initializer covers the first 128 entries, the others are 0. *)
Definition unhex (c : Z) : Z :=
  if IS_NUM c then c - chr "0"
  else if in_range (chr "A") (chr "F") c then c - chr "A" + 10
  else if in_range (chr "a") (chr "f") c then c - chr "a" + 10
  else if c <? 128 then -1 else 0.

(** [s[i]] of a C string: its terminator included, [None] beyond it. *)
Definition c_at (s : string) (i : Z) : option Z :=
  if i =? Z.of_nat (String.length s) then Some 0
  else rd (chars s) i.
