(* ===== verification/HttpExec.v ===== *)
(** * The HTTP parser: [http_parser_execute]

    The state machine of [src/src/net/http/http_parser.c], one definition per
    group of states.  A context holds the parser, the local state, the
    position and the marks; a step yields what the loop does next.  [None] is
    a failed assertion or an access outside the input or a string constant.
    The callbacks are arguments and may change the parser. *)

From stdpp Require Import base list numbers strings.
From Stdlib Require Import ZArith Lia.
From S2P Require Import Prelude CText HttpModel.
Local Open Scope Z_scope.

(** ** Callbacks and contexts *)

(** [http_cb] and [http_data_cb] over an application state. *)
Definition http_cb (A : Type) : Type := http_parser -> A -> Z * http_parser * A.
Definition http_data_cb (A : Type) : Type := list Z -> http_parser -> A -> Z * http_parser * A.

(** [struct http_parser_settings]; [None] is a null pointer. *)
Record http_parser_settings (A : Type) := mkSettings {
  on_message_begin : option (http_cb A);
  on_url : option (http_data_cb A);
  on_status : option (http_data_cb A);
  on_header_field : option (http_data_cb A);
  on_header_value : option (http_data_cb A);
  on_headers_complete : option (http_cb A);
  on_body : option (http_data_cb A);
  on_message_complete : option (http_cb A);
  on_chunk_header : option (http_cb A);
  on_chunk_complete : option (http_cb A);
}.
Arguments mkSettings {A}. Arguments on_message_begin {A}. Arguments on_url {A}.
Arguments on_status {A}. Arguments on_header_field {A}. Arguments on_header_value {A}.
Arguments on_headers_complete {A}. Arguments on_body {A}. Arguments on_message_complete {A}.
Arguments on_chunk_header {A}. Arguments on_chunk_complete {A}.

(** The local variables of [http_parser_execute]. *)
Record Ctx (A : Type) := mkCtx {
  x_parser : http_parser;
  x_state : state;                  (* p_state *)
  x_pos : Z;                        (* p - data *)
  x_header_field : option Z;        (* the marks *)
  x_header_value : option Z;
  x_url : option Z;
  x_body : option Z;
  x_status : option Z;
  x_app : A;
}.
Arguments mkCtx {A}. Arguments x_parser {A}. Arguments x_state {A}. Arguments x_pos {A}.
Arguments x_header_field {A}. Arguments x_header_value {A}. Arguments x_url {A}.
Arguments x_body {A}. Arguments x_status {A}. Arguments x_app {A}.

(** What a step does: [break] to the next byte, [REEXECUTE], [return],
    [goto error]. *)
Inductive Res (A : Type) :=
| Next (x : Ctx A)
| Reexec (x : Ctx A)
| Ret (n : Z) (P : http_parser) (a : A)
| Err (x : Ctx A).
Arguments Next {A}. Arguments Reexec {A}. Arguments Ret {A}. Arguments Err {A}.

(** ** Decisions of the message *)

(** [http_message_needs_eof] *)
Definition http_message_needs_eof (P : http_parser) : bool :=
  if decide (hp_type P = HTTP_REQUEST) then false
  else if (hp_status_code P / 100 =? 1) || (hp_status_code P =? 204) || (hp_status_code P =? 304) ||
          has_flag F_SKIPBODY P then false
  else if has_flag F_CHUNKED P || negb (hp_content_length P =? ULLONG_MAX) then false
  else true.

(** [http_should_keep_alive] *)
Definition http_should_keep_alive (P : http_parser) : bool :=
  if (hp_http_major P >? 0) && (hp_http_minor P >? 0) then
    if has_flag F_CONNECTION_CLOSE P then false else negb (http_message_needs_eof P)
  else
    if negb (has_flag F_CONNECTION_KEEP_ALIVE P) then false else negb (http_message_needs_eof P).

Definition start_state (P : http_parser) : state :=
  if decide (hp_type P = HTTP_REQUEST) then s_start_req else s_start_res.

(** [NEW_MESSAGE], strict mode *)
Definition NEW_MESSAGE (P : http_parser) : state :=
  if http_should_keep_alive P then start_state P else s_dead.

(** ** The URL state machine *)

(** [parse_url_char] *)
Definition parse_url_char (s : state) (ch : Z) : state :=
  if (ch =? SP) || (ch =? CR) || (ch =? LF) then s_dead
  else if (ch =? HT) || (ch =? 12) then s_dead
  else
    let server :=
      if ch =? chr "/" then s_req_path
      else if ch =? chr "?" then s_req_query_string_start
      else if ch =? chr "@" then s_req_server_with_at
      else if IS_USERINFO_CHAR ch || (ch =? chr "[") || (ch =? chr "]") then s_req_server
      else s_dead in
    match s with
    | s_req_spaces_before_url =>
        if (ch =? chr "/") || (ch =? chr "*") then s_req_path
        else if IS_ALPHA ch then s_req_schema else s_dead
    | s_req_schema =>
        if IS_ALPHA ch then s else if ch =? chr ":" then s_req_schema_slash else s_dead
    | s_req_schema_slash => if ch =? chr "/" then s_req_schema_slash_slash else s_dead
    | s_req_schema_slash_slash => if ch =? chr "/" then s_req_server_start else s_dead
    | s_req_server_with_at => if ch =? chr "@" then s_dead else server
    | s_req_server_start | s_req_server => server
    | s_req_path =>
        if IS_URL_CHAR ch then s
        else if ch =? chr "?" then s_req_query_string_start
        else if ch =? chr "#" then s_req_fragment_start else s_dead
    | s_req_query_string_start | s_req_query_string =>
        if IS_URL_CHAR ch then s_req_query_string
        else if ch =? chr "?" then s_req_query_string
        else if ch =? chr "#" then s_req_fragment_start else s_dead
    | s_req_fragment_start =>
        if IS_URL_CHAR ch then s_req_fragment
        else if ch =? chr "?" then s_req_fragment
        else if ch =? chr "#" then s else s_dead
    | s_req_fragment =>
        if IS_URL_CHAR ch then s
        else if (ch =? chr "?") || (ch =? chr "#") then s else s_dead
    | _ => s_dead
    end.

(** ** Header names and values, one byte *)

(** The comparison with a header name or value: the next index must match. *)
Definition match_token (name : string) (hit miss : header_states) (h : header_states) (c : Z)
    (P : http_parser) : option (header_states * http_parser) :=
  let P := inc_index P in
  let n := Z.of_nat (String.length name) in
  if hp_index P >? n then Some (miss, P)
  else
    x ← c_at name (hp_index P);
    if negb (c =? x) then Some (miss, P)
    else if hp_index P =? n - 1 then Some (hit, P)
    else Some (h, P).

(** The switch of [s_header_field]. *)
Definition header_field_char (ch c : Z) (P : http_parser) : option http_parser :=
  let h := hp_header_state P in
  let matching name hit :=
    '(h', P') ← match_token name hit h_general h c P; Some (set_header_state h' P') in
  match h with
  | h_general => Some P
  | h_C => Some (set_header_state (if c =? chr "o" then h_CO else h_general) (inc_index P))
  | h_CO => Some (set_header_state (if c =? chr "n" then h_CON else h_general) (inc_index P))
  | h_CON =>
      Some (set_header_state (if c =? chr "n" then h_matching_connection
                              else if c =? chr "t" then h_matching_content_length
                              else h_general) (inc_index P))
  | h_matching_connection => matching "connection" h_connection
  | h_matching_proxy_connection => matching "proxy-connection" h_connection
  | h_matching_content_length => matching "content-length" h_content_length
  | h_matching_transfer_encoding => matching "transfer-encoding" h_transfer_encoding
  | h_matching_upgrade => matching "upgrade" h_upgrade
  | h_connection | h_content_length | h_transfer_encoding | h_upgrade =>
      Some (if ch =? SP then P else set_header_state h_general P)
  | _ => None
  end.

(** The outcome of a value byte: the new [h_state] or an error. *)
Inductive Value :=
| VOk (h : header_states) (P : http_parser)
| VErr (e : http_errno) (h : header_states) (P : http_parser).

(** The digits of a Content-Length value. *)
Definition content_length_char (ch : Z) (P : http_parser) : Value :=
  if ch =? SP then VOk h_content_length_ws P
  else if negb (IS_NUM ch) then VErr HPE_INVALID_CONTENT_LENGTH h_content_length_num P
  else
    let t := u64 (u64 (hp_content_length P * 10) + (ch - chr "0")) in
    if (ULLONG_MAX - 10) / 10 <? hp_content_length P
    then VErr HPE_INVALID_CONTENT_LENGTH h_content_length_num P
    else VOk h_content_length_num (set_content_length t P).

Definition add_connection_flag (h : header_states) (P : http_parser) : http_parser :=
  match h with
  | h_connection_keep_alive => add_flag F_CONNECTION_KEEP_ALIVE P
  | h_connection_close => add_flag F_CONNECTION_CLOSE P
  | h_connection_upgrade => add_flag F_CONNECTION_UPGRADE P
  | _ => P
  end.

(** The switch of [s_header_value] but for [h_general]. *)
Definition header_value_char (h : header_states) (ch c : Z) (P : http_parser) : option Value :=
  let matching name hit miss := '(h', P') ← match_token name hit miss h c P; Some (VOk h' P') in
  match h with
  | h_connection | h_transfer_encoding => None
  | h_content_length =>
      Some (if ch =? SP then VOk h P else content_length_char ch P)
  | h_content_length_num => Some (content_length_char ch P)
  | h_content_length_ws =>
      Some (if ch =? SP then VOk h P else VErr HPE_INVALID_CONTENT_LENGTH h P)
  | h_matching_transfer_encoding_chunked => matching "chunked" h_transfer_encoding_chunked h_general
  | h_matching_connection_token_start =>
      Some (VOk (if c =? chr "k" then h_matching_connection_keep_alive
                 else if c =? chr "c" then h_matching_connection_close
                 else if c =? chr "u" then h_matching_connection_upgrade
                 else if negb (STRICT_TOKEN c =? 0) then h_matching_connection_token
                 else if (c =? SP) || (c =? HT) then h
                 else h_general) P)
  | h_matching_connection_keep_alive =>
      matching "keep-alive" h_connection_keep_alive h_matching_connection_token
  | h_matching_connection_close => matching "close" h_connection_close h_matching_connection_token
  | h_matching_connection_upgrade =>
      matching "upgrade" h_connection_upgrade h_matching_connection_token
  | h_matching_connection_token =>
      Some (if ch =? chr "," then VOk h_matching_connection_token_start (set_index 0 P) else VOk h P)
  | h_transfer_encoding_chunked => Some (VOk (if ch =? SP then h else h_general) P)
  | h_connection_keep_alive | h_connection_close | h_connection_upgrade =>
      Some (if ch =? chr "," then
              VOk h_matching_connection_token_start (set_index 0 (add_connection_flag h P))
            else if ch =? SP then VOk h P
            else VOk h_matching_connection_token P)
  | _ => Some (VOk h_general P)
  end.

(** The flag a finished header value sets. *)
Definition header_flag (P : http_parser) : http_parser :=
  match hp_header_state P with
  | h_transfer_encoding_chunked => add_flag F_CHUNKED P
  | h => add_connection_flag h P
  end.

(** The switch of [s_header_value_start]. *)
Definition header_value_first (ch c : Z) (P : http_parser) : http_errno + http_parser :=
  match hp_header_state P with
  | h_upgrade => inr (set_header_state h_general (add_flag F_UPGRADE P))
  | h_transfer_encoding =>
      inr (set_header_state (if c =? chr "c" then h_matching_transfer_encoding_chunked else h_general) P)
  | h_content_length =>
      if negb (IS_NUM ch) then inl HPE_INVALID_CONTENT_LENGTH
      else if has_flag F_CONTENTLENGTH P then inl HPE_UNEXPECTED_CONTENT_LENGTH
      else inr (set_header_state h_content_length_num
                  (set_content_length (ch - chr "0") (add_flag F_CONTENTLENGTH P)))
  | h_connection =>
      inr (set_header_state (if c =? chr "k" then h_matching_connection_keep_alive
                             else if c =? chr "c" then h_matching_connection_close
                             else if c =? chr "u" then h_matching_connection_upgrade
                             else h_matching_connection_token) P)
  | h_matching_connection_token_start => inr P
  | _ => inr (set_header_state h_general P)
  end.

(** The transitions inside a method name: [XX(meth, pos, ch, new_meth)]. *)
Definition method_switch (m : http_method) (index ch : Z) : option http_method :=
  let at' i c new := if (index =? i) && (ch =? chr c) then Some new else None in
  let or a b := match a with Some x => Some x | None => b end in
  match m with
  | HTTP_POST => or (at' 1 "U" HTTP_PUT) (or (at' 1 "A" HTTP_PATCH) (at' 1 "R" HTTP_PROPFIND))
  | HTTP_PUT => at' 2 "R" HTTP_PURGE
  | HTTP_CONNECT => or (at' 1 "H" HTTP_CHECKOUT) (at' 2 "P" HTTP_COPY)
  | HTTP_MKCOL => or (at' 1 "O" HTTP_MOVE) (or (at' 1 "E" HTTP_MERGE) (or (at' 1 "-" HTTP_MSEARCH)
                    (or (at' 2 "A" HTTP_MKACTIVITY) (at' 3 "A" HTTP_MKCALENDAR))))
  | HTTP_SUBSCRIBE => or (at' 1 "E" HTTP_SEARCH) (at' 1 "O" HTTP_SOURCE)
  | HTTP_REPORT => at' 2 "B" HTTP_REBIND
  | HTTP_PROPFIND => at' 4 "P" HTTP_PROPPATCH
  | HTTP_LOCK => at' 1 "I" HTTP_LINK
  | HTTP_UNLOCK => or (at' 2 "S" HTTP_UNSUBSCRIBE) (or (at' 2 "B" HTTP_UNBIND) (at' 3 "I" HTTP_UNLINK))
  | _ => None
  end.

(** The first letter of a method. *)
Definition method_first (ch : Z) : option http_method :=
  if ch =? chr "A" then Some HTTP_ACL else if ch =? chr "B" then Some HTTP_BIND
  else if ch =? chr "C" then Some HTTP_CONNECT else if ch =? chr "D" then Some HTTP_DELETE
  else if ch =? chr "G" then Some HTTP_GET else if ch =? chr "H" then Some HTTP_HEAD
  else if ch =? chr "L" then Some HTTP_LOCK else if ch =? chr "M" then Some HTTP_MKCOL
  else if ch =? chr "N" then Some HTTP_NOTIFY else if ch =? chr "O" then Some HTTP_OPTIONS
  else if ch =? chr "P" then Some HTTP_POST else if ch =? chr "R" then Some HTTP_REPORT
  else if ch =? chr "S" then Some HTTP_SUBSCRIBE else if ch =? chr "T" then Some HTTP_TRACE
  else if ch =? chr "U" then Some HTTP_UNLOCK else None.

(** ** The state machine *)

Section Exec.
Context {A : Type} (settings : http_parser_settings A) (lenient : bool) (data : list Z).

Definition with_parser (f : http_parser -> http_parser) (x : Ctx A) : Ctx A :=
  mkCtx (f (x_parser x)) (x_state x) (x_pos x) (x_header_field x) (x_header_value x) (x_url x)
    (x_body x) (x_status x) (x_app x).
(** [UPDATE_STATE] *)
Definition goto (s : state) (x : Ctx A) : Ctx A :=
  mkCtx (x_parser x) s (x_pos x) (x_header_field x) (x_header_value x) (x_url x) (x_body x)
    (x_status x) (x_app x).
Definition at_pos (p : Z) (x : Ctx A) : Ctx A :=
  mkCtx (x_parser x) (x_state x) p (x_header_field x) (x_header_value x) (x_url x) (x_body x)
    (x_status x) (x_app x).
Definition with_app (a : A) (x : Ctx A) : Ctx A :=
  mkCtx (x_parser x) (x_state x) (x_pos x) (x_header_field x) (x_header_value x) (x_url x)
    (x_body x) (x_status x) a.

(** The five marks. *)
Inductive Mark := M_header_field | M_header_value | M_url | M_body | M_status.

Definition mark_of (m : Mark) (x : Ctx A) : option Z :=
  match m with
  | M_header_field => x_header_field x | M_header_value => x_header_value x | M_url => x_url x
  | M_body => x_body x | M_status => x_status x
  end.
Definition set_mark (m : Mark) (v : option Z) (x : Ctx A) : Ctx A :=
  let on m' old := match m, m' with
    | M_header_field, M_header_field | M_header_value, M_header_value | M_url, M_url
    | M_body, M_body | M_status, M_status => v
    | _, _ => old end in
  mkCtx (x_parser x) (x_state x) (x_pos x) (on M_header_field (x_header_field x))
    (on M_header_value (x_header_value x)) (on M_url (x_url x)) (on M_body (x_body x))
    (on M_status (x_status x)) (x_app x).

(** [MARK] *)
Definition MARK (m : Mark) (x : Ctx A) : Ctx A :=
  match mark_of m x with None => set_mark m (Some (x_pos x)) x | Some _ => x end.

Definition fail (e : http_errno) (x : Ctx A) : option (Res A) := Some (Err (with_parser (set_errno e) x)).

(** [CALLBACK_NOTIFY_(FOR, ER)] *)
Definition callback_notify (f : option (http_cb A)) (e : http_errno) (ret : Z) (x : Ctx A)
    (k : Ctx A -> option (Res A)) : option (Res A) :=
  if decide (hp_errno (x_parser x) = HPE_OK) then
    match f with
    | None => k x
    | Some f =>
        let '(r, P, a) := f (set_state (x_state x) (x_parser x)) (x_app x) in
        let P := if r =? 0 then P else set_errno e P in
        let x := goto (hp_state P) (with_app a (with_parser (fun _ => P) x)) in
        if decide (hp_errno P = HPE_OK) then k x else Some (Ret ret P a)
    end
  else None.

Definition data_cb (m : Mark) : option (http_data_cb A) :=
  match m with
  | M_header_field => on_header_field settings | M_header_value => on_header_value settings
  | M_url => on_url settings | M_body => on_body settings | M_status => on_status settings
  end.
Definition data_errno (m : Mark) : http_errno :=
  match m with
  | M_header_field => HPE_CB_header_field | M_header_value => HPE_CB_header_value
  | M_url => HPE_CB_url | M_body => HPE_CB_body | M_status => HPE_CB_status
  end.

(** The input bytes from one offset to another. *)
Definition between (a b : Z) : option (list Z) :=
  if (0 <=? a) && (a <=? b) && (b <=? lenZ data) then Some (takeZ (b - a) (dropZ a data)) else None.

(** [CALLBACK_DATA_(FOR, LEN, ER)] where [LEN] ends at [stop]. *)
Definition callback_data (m : Mark) (stop ret : Z) (x : Ctx A) (k : Ctx A -> option (Res A))
    : option (Res A) :=
  if decide (hp_errno (x_parser x) = HPE_OK) then
    match mark_of m x with
    | None => k x
    | Some start =>
        match data_cb m with
        | None => k (set_mark m None x)
        | Some f =>
            bytes ← between start stop;
            let '(r, P, a) := f bytes (set_state (x_state x) (x_parser x)) (x_app x) in
            let P := if r =? 0 then P else set_errno (data_errno m) P in
            let x := goto (hp_state P) (with_app a (with_parser (fun _ => P) x)) in
            if decide (hp_errno P = HPE_OK) then k (set_mark m None x) else Some (Ret ret P a)
        end
    end
  else None.

(** [COUNT_HEADER_SIZE] *)
Definition count_header_size (v : Z) (x : Ctx A) (k : Ctx A -> option (Res A)) : option (Res A) :=
  let x := with_parser (fun P => set_nread (u32 (hp_nread P + v)) P) x in
  if hp_nread (x_parser x) >? HTTP_MAX_HEADER_SIZE then fail HPE_HEADER_OVERFLOW x else k x.

Definition next (x : Ctx A) : option (Res A) := Some (Next x).
Definition reexecute (x : Ctx A) : option (Res A) := Some (Reexec x).
(** [STRICT_CHECK(ch != c)], then the next state. *)
Definition expect (c ch : Z) (s : state) (x : Ctx A) : option (Res A) :=
  if negb (ch =? c) then fail HPE_STRICT x else next (goto s x).

(** *** Start of a message *)

Definition step_dead (x : Ctx A) (ch : Z) : option (Res A) :=
  if (ch =? CR) || (ch =? LF) then next x else fail HPE_CLOSED_CONNECTION x.

Definition new_message (x : Ctx A) : Ctx A :=
  with_parser (fun P => set_content_length ULLONG_MAX (set_flags 0 P)) x.

Definition notify_begin (x : Ctx A) : option (Res A) :=
  callback_notify (on_message_begin settings) HPE_CB_message_begin (x_pos x + 1) x next.

Definition step_start_req_or_res (x : Ctx A) (ch : Z) : option (Res A) :=
  if (ch =? CR) || (ch =? LF) then next x
  else
    let x := new_message x in
    if ch =? chr "H" then notify_begin (goto s_res_or_resp_H x)
    else reexecute (goto s_start_req (with_parser (set_type HTTP_REQUEST) x)).

Definition step_res_or_resp_H (x : Ctx A) (ch : Z) : option (Res A) :=
  if ch =? chr "T" then next (goto s_res_HT (with_parser (set_type HTTP_RESPONSE) x))
  else if negb (ch =? chr "E") then fail HPE_INVALID_CONSTANT x
  else next (goto s_req_method
         (with_parser (fun P => set_index 2 (set_method HTTP_HEAD (set_type HTTP_REQUEST P))) x)).

Definition step_start_res (x : Ctx A) (ch : Z) : option (Res A) :=
  let x := new_message x in
  if ch =? chr "H" then notify_begin (goto s_res_H x)
  else if (ch =? CR) || (ch =? LF) then notify_begin x
  else fail HPE_INVALID_CONSTANT x.

(** *** Status line *)

(** A version digit. *)
Definition version_digit (set : Z -> http_parser -> http_parser) (s : state) (x : Ctx A) (ch : Z)
    : option (Res A) :=
  if negb (IS_NUM ch) then fail HPE_INVALID_VERSION x
  else next (goto s (with_parser (set (ch - chr "0")) x)).

Definition version_dot (s : state) (x : Ctx A) (ch : Z) : option (Res A) :=
  if negb (ch =? chr ".") then fail HPE_INVALID_VERSION x else next (goto s x).

Definition step_res_http_end (x : Ctx A) (ch : Z) : option (Res A) :=
  if negb (ch =? SP) then fail HPE_INVALID_VERSION x else next (goto s_res_first_status_code x).

Definition step_res_first_status_code (x : Ctx A) (ch : Z) : option (Res A) :=
  if negb (IS_NUM ch) then
    if ch =? SP then next x else fail HPE_INVALID_STATUS x
  else next (goto s_res_status_code (with_parser (set_status_code (ch - chr "0")) x)).

Definition step_res_status_code (x : Ctx A) (ch : Z) : option (Res A) :=
  if negb (IS_NUM ch) then
    if ch =? SP then next (goto s_res_status_start x)
    else if (ch =? CR) || (ch =? LF) then reexecute (goto s_res_status_start x)
    else fail HPE_INVALID_STATUS x
  else
    let x := with_parser (fun P => set_status_code
               (u16 (u16 (hp_status_code P * 10) + (ch - chr "0"))) P) x in
    if hp_status_code (x_parser x) >? 999 then fail HPE_INVALID_STATUS x else next x.

Definition step_res_status_start (x : Ctx A) (ch : Z) : option (Res A) :=
  let x := with_parser (set_index 0) (goto s_res_status (MARK M_status x)) in
  if (ch =? CR) || (ch =? LF) then reexecute x else next x.

Definition step_res_status (x : Ctx A) (ch : Z) : option (Res A) :=
  if ch =? CR then callback_data M_status (x_pos x) (x_pos x + 1) (goto s_res_line_almost_done x) next
  else if ch =? LF then callback_data M_status (x_pos x) (x_pos x + 1) (goto s_header_field_start x) next
  else next x.

(** *** Request line *)

Definition step_start_req (x : Ctx A) (ch : Z) : option (Res A) :=
  if (ch =? CR) || (ch =? LF) then next x
  else
    let x := new_message x in
    if negb (IS_ALPHA ch) then fail HPE_INVALID_METHOD x
    else
      let x := with_parser (fun P => set_index 1 (set_method HTTP_DELETE P)) x in
      match method_first ch with
      | None => fail HPE_INVALID_METHOD x
      | Some m => notify_begin (goto s_req_method (with_parser (set_method m) x))
      end.

Definition step_req_method (x : Ctx A) (ch : Z) : option (Res A) :=
  if ch =? 0 then fail HPE_INVALID_METHOD x
  else
    let P := x_parser x in
    m ← c_at (http_method_str (hp_method P)) (hp_index P);
    if (ch =? SP) && (m =? 0) then next (with_parser inc_index (goto s_req_spaces_before_url x))
    else if ch =? m then next (with_parser inc_index x)
    else if in_range (chr "A") (chr "Z") ch || (ch =? chr "-") then
      match method_switch (hp_method P) (hp_index P) ch with
      | Some m' => next (with_parser (fun P => inc_index (set_method m' P)) x)
      | None => fail HPE_INVALID_METHOD x
      end
    else fail HPE_INVALID_METHOD x.

(** One URL character. *)
Definition url_char (x : Ctx A) (ch : Z) : option (Res A) :=
  let x := goto (parse_url_char (x_state x) ch) x in
  if decide (x_state x = s_dead) then fail HPE_INVALID_URL x else next x.

Definition step_req_spaces_before_url (x : Ctx A) (ch : Z) : option (Res A) :=
  if ch =? SP then next x
  else
    let x := MARK M_url x in
    url_char (if decide (hp_method (x_parser x) = HTTP_CONNECT) then goto s_req_server_start x else x) ch.

Definition step_req_url_start (x : Ctx A) (ch : Z) : option (Res A) :=
  if (ch =? SP) || (ch =? CR) || (ch =? LF) then fail HPE_INVALID_URL x else url_char x ch.

Definition step_req_url (x : Ctx A) (ch : Z) : option (Res A) :=
  if ch =? SP then callback_data M_url (x_pos x) (x_pos x + 1) (goto s_req_http_start x) next
  else if (ch =? CR) || (ch =? LF) then
    let x := with_parser (fun P => set_http_minor 9 (set_http_major 0 P)) x in
    callback_data M_url (x_pos x) (x_pos x + 1)
      (goto (if ch =? CR then s_req_line_almost_done else s_header_field_start) x) next
  else url_char x ch.

Definition step_req_http_start (x : Ctx A) (ch : Z) : option (Res A) :=
  if ch =? chr "H" then next (goto s_req_http_H x)
  else if ch =? SP then next x
  else fail HPE_INVALID_CONSTANT x.

Definition step_req_http_end (x : Ctx A) (ch : Z) : option (Res A) :=
  if ch =? CR then next (goto s_req_line_almost_done x)
  else if ch =? LF then next (goto s_header_field_start x)
  else fail HPE_INVALID_VERSION x.

Definition step_req_line_almost_done (x : Ctx A) (ch : Z) : option (Res A) :=
  if negb (ch =? LF) then fail HPE_LF_EXPECTED x else next (goto s_header_field_start x).

(** *** Headers *)

Definition step_header_field_start (x : Ctx A) (ch : Z) : option (Res A) :=
  if ch =? CR then next (goto s_headers_almost_done x)
  else if ch =? LF then reexecute (goto s_headers_almost_done x)
  else
    let c := TOKEN ch in
    if c =? 0 then fail HPE_INVALID_HEADER_TOKEN x
    else
      let h := if c =? chr "c" then h_C
               else if c =? chr "p" then h_matching_proxy_connection
               else if c =? chr "t" then h_matching_transfer_encoding
               else if c =? chr "u" then h_matching_upgrade
               else h_general in
      next (with_parser (fun P => set_header_state h (set_index 0 P))
              (goto s_header_field (MARK M_header_field x))).

(** The loop of [s_header_field]: it stops at the first byte that is no token. *)
Fixpoint header_field_loop (rest : list Z) (P : http_parser) (p : Z) : option (http_parser * Z) :=
  match rest with
  | [] => Some (P, p)
  | ch :: rest' =>
      let c := TOKEN ch in
      if c =? 0 then Some (P, p)
      else P' ← header_field_char ch c P; header_field_loop rest' P' (p + 1)
  end.

Definition step_header_field (x : Ctx A) : option (Res A) :=
  let start := x_pos x in
  '(P, p) ← header_field_loop (dropZ start data) (x_parser x) start;
  count_header_size (p - start) (at_pos p (with_parser (fun _ => P) x)) (fun x =>
    if p =? lenZ data then next (at_pos (p - 1) x)
    else
      ch ← rd data p;
      if ch =? chr ":" then
        callback_data M_header_field p (p + 1) (goto s_header_value_discard_ws x) next
      else fail HPE_INVALID_HEADER_TOKEN x).

Definition step_header_value_start (x : Ctx A) (ch : Z) : option (Res A) :=
  let x := with_parser (set_index 0) (goto s_header_value (MARK M_header_value x)) in
  match header_value_first ch (LOWER ch) (x_parser x) with
  | inl e => fail e x
  | inr P => next (with_parser (fun _ => P) x)
  end.

Definition step_header_value_discard_ws (x : Ctx A) (ch : Z) : option (Res A) :=
  if (ch =? SP) || (ch =? HT) then next x
  else if ch =? CR then next (goto s_header_value_discard_ws_almost_done x)
  else if ch =? LF then next (goto s_header_value_discard_lws x)
  else step_header_value_start x ch.

(** [memchr(p, c, limit)]: the distance to the first occurrence. *)
Fixpoint memchr (c : Z) (l : list Z) : option Z :=
  match l with
  | [] => None
  | b :: l' => if b =? c then Some 0 else option_map Z.succ (memchr c l')
  end.

(** How far [h_general] skips from [p]. *)
Definition skip_general (rest : list Z) : Z :=
  let w := takeZ (Z.min (lenZ rest) HTTP_MAX_HEADER_SIZE) rest in
  match memchr CR w, memchr LF w with
  | Some p_cr, Some p_lf => if p_cr >=? p_lf then p_lf else p_cr
  | Some p_cr, None => p_cr
  | None, Some p_lf => p_lf
  | None, None => lenZ rest
  end.

(** How the loop of [s_header_value] ends. *)
Inductive ValueEnd :=
| VE_cr (h : header_states) (P : http_parser) (p : Z)
| VE_lf (h : header_states) (P : http_parser) (p : Z)
| VE_end (h : header_states) (P : http_parser) (p : Z)
| VE_err (e : http_errno) (P : http_parser) (p : Z).

Fixpoint header_value_loop (fuel : nat) (h : header_states) (P : http_parser) (p : Z) : option ValueEnd :=
  if p =? lenZ data then Some (VE_end h P p)
  else
    match fuel with
    | O => None
    | S fuel' =>
        ch ← rd data p;
        if ch =? CR then Some (VE_cr h P p)
        else if ch =? LF then Some (VE_lf h P p)
        else if negb lenient && negb (IS_HEADER_CHAR ch) then Some (VE_err HPE_INVALID_HEADER_TOKEN P p)
        else
          match h with
          | h_general => header_value_loop fuel' h P (p + skip_general (dropZ p data))
          | _ =>
              v ← header_value_char h ch (LOWER ch) P;
              match v with
              | VOk h' P' => header_value_loop fuel' h' P' (p + 1)
              | VErr e h' P' => Some (VE_err e (set_header_state h' P') p)
              end
          end
    end.

Definition step_header_value (x : Ctx A) : option (Res A) :=
  let start := x_pos x in
  let P := x_parser x in
  e ← header_value_loop (length data) (hp_header_state P) P start;
  match e with
  | VE_cr h P p =>
      let x := goto s_header_almost_done (at_pos p (with_parser (fun _ => set_header_state h P) x)) in
      callback_data M_header_value p (p + 1) x (fun x =>
        count_header_size (p - start) (with_parser (set_header_state h) x) next)
  | VE_lf h P p =>
      let x := goto s_header_almost_done (at_pos p (with_parser (fun _ => P) x)) in
      count_header_size (p - start) x (fun x =>
        callback_data M_header_value p p (with_parser (set_header_state h) x) reexecute)
  | VE_end h P p =>
      count_header_size (p - start) (at_pos p (with_parser (fun _ => set_header_state h P) x)) (fun x =>
        next (at_pos (p - 1) x))
  | VE_err e P p => fail e (at_pos p (with_parser (fun _ => P) x))
  end.

Definition step_header_almost_done (x : Ctx A) (ch : Z) : option (Res A) :=
  if negb (ch =? LF) then fail HPE_LF_EXPECTED x else next (goto s_header_value_lws x).

Definition step_header_value_lws (x : Ctx A) (ch : Z) : option (Res A) :=
  if (ch =? SP) || (ch =? HT) then reexecute (goto s_header_value_start x)
  else reexecute (goto s_header_field_start (with_parser header_flag x)).

Definition step_header_value_discard_lws (x : Ctx A) (ch : Z) : option (Res A) :=
  if (ch =? SP) || (ch =? HT) then next (goto s_header_value_discard_ws x)
  else
    let x := goto s_header_field_start (MARK M_header_value (with_parser header_flag x)) in
    callback_data M_header_value (x_pos x) (x_pos x) x reexecute.

(** *** End of the headers *)

Definition step_headers_almost_done (x : Ctx A) (ch : Z) : option (Res A) :=
  if negb (ch =? LF) then fail HPE_STRICT x
  else
    let P := x_parser x in
    if has_flag F_TRAILING P then
      callback_notify (on_chunk_complete settings) HPE_CB_chunk_complete (x_pos x)
        (goto s_message_done x) reexecute
    else if has_flag F_CHUNKED P && has_flag F_CONTENTLENGTH P then fail HPE_UNEXPECTED_CONTENT_LENGTH x
    else
      let x := goto s_headers_done x in
      let up := if has_flag F_UPGRADE P && has_flag F_CONNECTION_UPGRADE P
                then bool_decide (hp_type P = HTTP_REQUEST) || (hp_status_code P =? 101)
                else bool_decide (hp_method P = HTTP_CONNECT) in
      let x := with_parser (set_upgrade up) x in
      let return_ x := Some (Ret (x_pos x) (set_state (x_state x) (x_parser x)) (x_app x)) in
      let done x := if decide (hp_errno (x_parser x) = HPE_OK) then reexecute x else return_ x in
      match on_headers_complete settings with
      | None => done x
      | Some f =>
          let '(r, P, a) := f (x_parser x) (x_app x) in
          let x := with_app a (with_parser (fun _ => P) x) in
          if r =? 0 then done x
          else if r =? 2 then done (with_parser (fun P => add_flag F_SKIPBODY (set_upgrade true P)) x)
          else if r =? 1 then done (with_parser (add_flag F_SKIPBODY) x)
          else return_ (with_parser (set_errno HPE_CB_headers_complete) x)
      end.

(** The end of a message: the state of the next one and the callback. *)
Definition message_complete (x : Ctx A) (k : Ctx A -> option (Res A)) : option (Res A) :=
  callback_notify (on_message_complete settings) HPE_CB_message_complete (x_pos x + 1)
    (goto (NEW_MESSAGE (x_parser x)) x) k.

(** [RETURN((p - data) + 1)] *)
Definition return_next (x : Ctx A) : option (Res A) :=
  Some (Ret (x_pos x + 1) (set_state (x_state x) (x_parser x)) (x_app x)).

Definition step_headers_done (x : Ctx A) (ch : Z) : option (Res A) :=
  if negb (ch =? LF) then fail HPE_STRICT x
  else
    let x := with_parser (set_nread 0) x in
    let P := x_parser x in
    let hasBody := has_flag F_CHUNKED P ||
                   ((hp_content_length P >? 0) && negb (hp_content_length P =? ULLONG_MAX)) in
    if hp_upgrade P && (bool_decide (hp_method P = HTTP_CONNECT) || has_flag F_SKIPBODY P || negb hasBody)
    then message_complete x return_next
    else if has_flag F_SKIPBODY P then message_complete x next
    else if has_flag F_CHUNKED P then next (goto s_chunk_size_start x)
    else if hp_content_length P =? 0 then message_complete x next
    else if negb (hp_content_length P =? ULLONG_MAX) then next (goto s_body_identity x)
    else if negb (http_message_needs_eof P) then message_complete x next
    else next (goto s_body_identity_eof x).

(** *** Bodies *)

Definition assert_ (b : bool) (k : option (Res A)) : option (Res A) := if b then k else None.

(** What is read of the body in this input. *)
Definition to_read (x : Ctx A) : Z :=
  Z.min (hp_content_length (x_parser x)) (u64 (lenZ data - x_pos x)).

Definition consume_body (x : Ctx A) : Ctx A :=
  let n := to_read x in
  let x := MARK M_body x in
  at_pos (x_pos x + (n - 1))
    (with_parser (fun P => set_content_length (u64 (hp_content_length P - n)) P) x).

Definition body_pending (x : Ctx A) : bool :=
  negb (hp_content_length (x_parser x) =? 0) && negb (hp_content_length (x_parser x) =? ULLONG_MAX).

Definition step_body_identity (x : Ctx A) : option (Res A) :=
  assert_ (body_pending x)
    (let x := consume_body x in
     if hp_content_length (x_parser x) =? 0 then
       callback_data M_body (x_pos x + 1) (x_pos x) (goto s_message_done x) reexecute
     else next x).

Definition step_body_identity_eof (x : Ctx A) : option (Res A) :=
  next (at_pos (lenZ data - 1) (MARK M_body x)).

Definition step_message_done (x : Ctx A) : option (Res A) :=
  message_complete x (fun x => if hp_upgrade (x_parser x) then return_next x else next x).

(** *** Chunked bodies *)

Definition chunked (x : Ctx A) : bool := has_flag F_CHUNKED (x_parser x).

Definition step_chunk_size_start (x : Ctx A) (ch : Z) : option (Res A) :=
  assert_ ((hp_nread (x_parser x) =? 1) && chunked x)
    (let v := unhex ch in
     if v =? -1 then fail HPE_INVALID_CHUNK_SIZE x
     else next (goto s_chunk_size (with_parser (set_content_length v) x))).

Definition step_chunk_size (x : Ctx A) (ch : Z) : option (Res A) :=
  assert_ (chunked x)
    (if ch =? CR then next (goto s_chunk_size_almost_done x)
     else
       let v := unhex ch in
       if v =? -1 then
         if (ch =? chr ";") || (ch =? SP) then next (goto s_chunk_parameters x)
         else fail HPE_INVALID_CHUNK_SIZE x
       else
         let t := u64 (u64 (hp_content_length (x_parser x) * 16) + v) in
         if (ULLONG_MAX - 16) / 16 <? hp_content_length (x_parser x)
         then fail HPE_INVALID_CONTENT_LENGTH x
         else next (with_parser (set_content_length t) x)).

Definition step_chunk_parameters (x : Ctx A) (ch : Z) : option (Res A) :=
  assert_ (chunked x) (if ch =? CR then next (goto s_chunk_size_almost_done x) else next x).

Definition step_chunk_size_almost_done (x : Ctx A) (ch : Z) : option (Res A) :=
  assert_ (chunked x)
    (if negb (ch =? LF) then fail HPE_STRICT x
     else
       let x := with_parser (set_nread 0) x in
       let x := if hp_content_length (x_parser x) =? 0
                then goto s_header_field_start (with_parser (add_flag F_TRAILING) x)
                else goto s_chunk_data x in
       callback_notify (on_chunk_header settings) HPE_CB_chunk_header (x_pos x + 1) x next).

Definition step_chunk_data (x : Ctx A) : option (Res A) :=
  assert_ (chunked x && body_pending x)
    (let x := consume_body x in
     next (if hp_content_length (x_parser x) =? 0 then goto s_chunk_data_almost_done x else x)).

Definition step_chunk_data_almost_done (x : Ctx A) (ch : Z) : option (Res A) :=
  assert_ (chunked x && (hp_content_length (x_parser x) =? 0))
    (if negb (ch =? CR) then fail HPE_STRICT x
     else callback_data M_body (x_pos x) (x_pos x + 1) (goto s_chunk_data_done x) next).

Definition step_chunk_data_done (x : Ctx A) (ch : Z) : option (Res A) :=
  assert_ (chunked x)
    (if negb (ch =? LF) then fail HPE_STRICT x
     else callback_notify (on_chunk_complete settings) HPE_CB_chunk_complete (x_pos x + 1)
            (goto s_chunk_size_start (with_parser (set_nread 0) x)) next).

(** *** The loop *)

(** [switch (CURRENT_STATE())] *)
Definition step (x : Ctx A) (ch : Z) : option (Res A) :=
  match x_state x with
  | s_dead => step_dead x ch
  | s_start_req_or_res => step_start_req_or_res x ch
  | s_res_or_resp_H => step_res_or_resp_H x ch
  | s_start_res => step_start_res x ch
  | s_res_H => expect (chr "T") ch s_res_HT x
  | s_res_HT => expect (chr "T") ch s_res_HTT x
  | s_res_HTT => expect (chr "P") ch s_res_HTTP x
  | s_res_HTTP => expect (chr "/") ch s_res_http_major x
  | s_res_http_major => version_digit set_http_major s_res_http_dot x ch
  | s_res_http_dot => version_dot s_res_http_minor x ch
  | s_res_http_minor => version_digit set_http_minor s_res_http_end x ch
  | s_res_http_end => step_res_http_end x ch
  | s_res_first_status_code => step_res_first_status_code x ch
  | s_res_status_code => step_res_status_code x ch
  | s_res_status_start => step_res_status_start x ch
  | s_res_status => step_res_status x ch
  | s_res_line_almost_done => expect LF ch s_header_field_start x
  | s_start_req => step_start_req x ch
  | s_req_method => step_req_method x ch
  | s_req_spaces_before_url => step_req_spaces_before_url x ch
  | s_req_schema | s_req_schema_slash | s_req_schema_slash_slash | s_req_server_start =>
      step_req_url_start x ch
  | s_req_server | s_req_server_with_at | s_req_path | s_req_query_string_start
  | s_req_query_string | s_req_fragment_start | s_req_fragment => step_req_url x ch
  | s_req_http_start => step_req_http_start x ch
  | s_req_http_H => expect (chr "T") ch s_req_http_HT x
  | s_req_http_HT => expect (chr "T") ch s_req_http_HTT x
  | s_req_http_HTT => expect (chr "P") ch s_req_http_HTTP x
  | s_req_http_HTTP => expect (chr "/") ch s_req_http_major x
  | s_req_http_major => version_digit set_http_major s_req_http_dot x ch
  | s_req_http_dot => version_dot s_req_http_minor x ch
  | s_req_http_minor => version_digit set_http_minor s_req_http_end x ch
  | s_req_http_end => step_req_http_end x ch
  | s_req_line_almost_done => step_req_line_almost_done x ch
  | s_header_field_start => step_header_field_start x ch
  | s_header_field => step_header_field x
  | s_header_value_discard_ws => step_header_value_discard_ws x ch
  | s_header_value_discard_ws_almost_done => expect LF ch s_header_value_discard_lws x
  | s_header_value_discard_lws => step_header_value_discard_lws x ch
  | s_header_value_start => step_header_value_start x ch
  | s_header_value => step_header_value x
  | s_header_value_lws => step_header_value_lws x ch
  | s_header_almost_done => step_header_almost_done x ch
  | s_chunk_size_start => step_chunk_size_start x ch
  | s_chunk_size => step_chunk_size x ch
  | s_chunk_parameters => step_chunk_parameters x ch
  | s_chunk_size_almost_done => step_chunk_size_almost_done x ch
  | s_headers_almost_done => step_headers_almost_done x ch
  | s_headers_done => step_headers_done x ch
  | s_chunk_data => step_chunk_data x
  | s_chunk_data_almost_done => step_chunk_data_almost_done x ch
  | s_chunk_data_done => step_chunk_data_done x ch
  | s_body_identity => step_body_identity x
  | s_body_identity_eof => step_body_identity_eof x
  | s_message_done => step_message_done x
  end.

(** The current byte until it is consumed: [REEXECUTE] goes through at most
    [fuel] states. *)
Fixpoint exec_byte (fuel : nat) (x : Ctx A) : option (Res A) :=
  match fuel with
  | O => None
  | S fuel' =>
      ch ← rd data (x_pos x);
      r ← step x ch;
      match r with Reexec x' => exec_byte fuel' x' | _ => Some r end
  end.

(** One iteration of the [for] loop. *)
Definition exec_iter (x : Ctx A) : option (Res A) :=
  if PARSING_HEADER (x_state x) then count_header_size 1 x (exec_byte 8) else exec_byte 8 x.

Definition count_marks (x : Ctx A) : Z :=
  let one o := match o : option Z with Some _ => 1 | None => 0 end in
  one (x_header_field x) + one (x_header_value x) + one (x_url x) + one (x_body x) + one (x_status x).

(** What follows the loop: the data callbacks of the marks left. *)
Definition exec_end (x : Ctx A) : option (Res A) :=
  let p := x_pos x in
  if count_marks x <=? 1 then
    callback_data M_header_field p p x (fun x => callback_data M_header_value p p x (fun x =>
    callback_data M_url p p x (fun x => callback_data M_body p p x (fun x =>
    callback_data M_status p p x (fun x =>
      Some (Ret (lenZ data) (set_state (x_state x) (x_parser x)) (x_app x)))))))
  else None.

Definition outcome (r : Res A) : option (Z * http_parser * A) :=
  match r with
  | Ret n P a => Some (n, P, a)
  | Err x =>                                         (* error: *)
      let P := x_parser x in
      let P := if decide (hp_errno P = HPE_OK) then set_errno HPE_UNKNOWN P else P in
      Some (x_pos x, set_state (x_state x) P, x_app x)
  | Next _ | Reexec _ => None
  end.

(** [for (p=data; p != data + len; p++)]; every iteration consumes a byte. *)
Fixpoint exec_loop (fuel : nat) (x : Ctx A) : option (Z * http_parser * A) :=
  if x_pos x =? lenZ data then r ← exec_end x; outcome r
  else
    match fuel with
    | O => None
    | S fuel' =>
        r ← exec_iter x;
        match r with
        | Next x' => exec_loop fuel' (at_pos (x_pos x' + 1) x')
        | _ => outcome r
        end
    end.

(** The marks at the start of the input. *)
Definition initial_ctx (P : http_parser) (a : A) : Ctx A :=
  let s := hp_state P in
  let mark (b : bool) := if b then Some 0 else None in
  mkCtx P s 0
    (mark (bool_decide (s = s_header_field))) (mark (bool_decide (s = s_header_value)))
    (mark (match s with
           | s_req_path | s_req_schema | s_req_schema_slash | s_req_schema_slash_slash
           | s_req_server_start | s_req_server | s_req_server_with_at | s_req_query_string_start
           | s_req_query_string | s_req_fragment_start | s_req_fragment => true
           | _ => false
           end))
    None (mark (bool_decide (s = s_res_status))) a.
End Exec.

(** [http_parser_execute]: the bytes consumed, the parser and the application
    state. *)
Definition http_parser_execute {A} (settings : http_parser_settings A) (data : list Z)
    (P : http_parser) (a : A) : option (Z * http_parser * A) :=
  if decide (hp_errno P = HPE_OK) then
    match data with
    | [] =>
        match hp_state P with
        | s_body_identity_eof =>
            r ← callback_notify (on_message_complete settings) HPE_CB_message_complete 0
                  (initial_ctx P a) (fun x => Some (Ret 0 (x_parser x) (x_app x)));
            outcome r
        | s_dead | s_start_req_or_res | s_start_res | s_start_req => Some (0, P, a)
        | _ => Some (1, set_errno HPE_INVALID_EOF_STATE P, a)
        end
    | _ :: _ =>
        exec_loop settings (hp_lenient P) data (length data) (initial_ctx P a)
    end
  else Some (0, P, a).

(** [http_parser_pause] *)
Definition http_parser_pause (paused : bool) (P : http_parser) : option http_parser :=
  match hp_errno P with
  | HPE_OK | HPE_PAUSED => Some (set_errno (if paused then HPE_PAUSED else HPE_OK) P)
  | _ => None
  end.

(** [http_body_is_final] *)
Definition http_body_is_final (P : http_parser) : bool := bool_decide (hp_state P = s_message_done).
