(* ===== verification/HttpSafety.v ===== *)
(** * The HTTP parser: invariant and safety

    The invariant of [http_parser_execute] between bytes, and that every state
    of the machine preserves it without failing an assertion or leaving the
    input; callbacks may only pause the parser or fail. *)

From stdpp Require Import base list numbers strings.
From Stdlib Require Import ZArith Lia.
From S2P Require Import Prelude CText HttpModel HttpExec.
Local Open Scope Z_scope.

(** ** The invariant *)

(** The states in which a mark may be set at the end of the input. *)
Definition url_state (s : state) : bool :=
  match s with
  | s_req_schema | s_req_schema_slash | s_req_schema_slash_slash | s_req_server_start | s_req_server
  | s_req_server_with_at | s_req_path | s_req_query_string_start | s_req_query_string
  | s_req_fragment_start | s_req_fragment => true
  | _ => false
  end.

Definition body_state (s : state) : bool :=
  match s with s_body_identity | s_body_identity_eof | s_chunk_data => true | _ => false end.

(** The header states a header name goes through. *)
Definition name_state (h : header_states) : bool :=
  match h with
  | h_general | h_C | h_CO | h_CON | h_matching_connection | h_matching_proxy_connection
  | h_matching_content_length | h_matching_transfer_encoding | h_matching_upgrade | h_connection
  | h_content_length | h_transfer_encoding | h_upgrade => true
  | _ => false
  end.

(** The header states inside a value. *)
Definition value_state (h : header_states) : bool :=
  match h with h_connection | h_transfer_encoding => false | _ => true end.

Definition method_len (m : http_method) : Z := Z.of_nat (String.length (http_method_str m)).

(** What each state relies on; [k] is 1 once the current byte is counted. *)
Definition state_inv (k : Z) (P : http_parser) (s : state) : Prop :=
  match s with
  | s_req_method => hp_index P <= method_len (hp_method P)
  | s_header_field => name_state (hp_header_state P) = true
  | s_header_value => value_state (hp_header_state P) = true
  | s_chunk_size_start => has_flag F_CHUNKED P = true /\ hp_nread P = k
  | s_chunk_size | s_chunk_parameters | s_chunk_size_almost_done =>
      has_flag F_CHUNKED P = true /\ hp_content_length P <> ULLONG_MAX
  | s_chunk_data =>
      has_flag F_CHUNKED P = true /\ hp_content_length P <> 0 /\ hp_content_length P <> ULLONG_MAX
  | s_chunk_data_almost_done => has_flag F_CHUNKED P = true /\ hp_content_length P = 0
  | s_chunk_data_done => has_flag F_CHUNKED P = true
  | s_body_identity => hp_content_length P <> 0 /\ hp_content_length P <> ULLONG_MAX
  | _ => True
  end.

Record parser_inv (k : Z) (P : http_parser) (s : state) : Prop := {
  pi_index : 0 <= hp_index P < 128;
  pi_nread : 0 <= hp_nread P <= HTTP_MAX_HEADER_SIZE;
  pi_length : 0 <= hp_content_length P < 2 ^ 64;
  pi_status : 0 <= hp_status_code P <= 999;
  pi_state : state_inv k P s;
}.

(** A parser between two calls. *)
Definition parser_ok (P : http_parser) : Prop := parser_inv 0 P (hp_state P).

(** The callbacks may set the error code (pause the parser) and report failure. *)
Definition notify_ok {A} (f : http_cb A) : Prop :=
  forall P a, let '(_, P', _) := f P a in exists e, P' = set_errno e P.
Definition data_ok {A} (f : http_data_cb A) : Prop := forall bytes, notify_ok (f bytes).

Definition opt_ok {T} (ok : T -> Prop) (o : option T) : Prop := match o with Some f => ok f | None => True end.

Record settings_ok {A} (S : http_parser_settings A) : Prop := {
  ok_message_begin : opt_ok notify_ok (on_message_begin S);
  ok_url : opt_ok data_ok (on_url S);
  ok_status : opt_ok data_ok (on_status S);
  ok_header_field : opt_ok data_ok (on_header_field S);
  ok_header_value : opt_ok data_ok (on_header_value S);
  ok_headers_complete : opt_ok notify_ok (on_headers_complete S);
  ok_body : opt_ok data_ok (on_body S);
  ok_message_complete : opt_ok notify_ok (on_message_complete S);
  ok_chunk_header : opt_ok notify_ok (on_chunk_header S);
  ok_chunk_complete : opt_ok notify_ok (on_chunk_complete S);
}.

(** A parser that can go on is in order; an errored one stays errored. *)
Definition post (P : http_parser) : Prop :=
  hp_errno P = HPE_OK \/ hp_errno P = HPE_PAUSED -> parser_ok P.

(** How many [REEXECUTE]s a state can start. *)
Definition rank (s : state) : nat :=
  match s with
  | s_header_value_lws | s_header_value_discard_lws => 4
  | s_header_field_start => 3
  | s_headers_almost_done | s_res_status_code => 2
  | s_start_req_or_res | s_res_status_start | s_header_value | s_body_identity => 1
  | _ => 0
  end.

#[local] Arguments http_message_needs_eof : simpl never.

Section Safety.
Context {A : Type} (settings : http_parser_settings A) (lenient : bool) (data : list Z).
Context (Hset : settings_ok settings).

Definition mark_in (o : option Z) (p : Z) (here : Prop) : Prop :=
  match o with Some m => 0 <= m <= p /\ here | None => True end.

(** The invariant at a byte ([k = 1]) and before it is counted ([k = 0]). *)
Record linv (k : Z) (x : Ctx A) : Prop := {
  li_errno : hp_errno (x_parser x) = HPE_OK;
  li_pos : 0 <= x_pos x <= lenZ data;
  li_parser : parser_inv k (x_parser x) (x_state x);
  li_header_field : mark_in (x_header_field x) (x_pos x) (x_state x = s_header_field);
  li_header_value : mark_in (x_header_value x) (x_pos x) (x_state x = s_header_value);
  li_url : mark_in (x_url x) (x_pos x) (url_state (x_state x) = true);
  li_body : mark_in (x_body x) (x_pos x)
    (x_state x = s_chunk_data_almost_done \/ (x_pos x = lenZ data /\ body_state (x_state x) = true));
  li_status : mark_in (x_status x) (x_pos x) (x_state x = s_res_status);
}.

(** An outcome of a step started at [p0] with [rk] re-executions left. *)
Definition safe (p0 : Z) (rk : nat) (r : option (Res A)) : Prop :=
  match r with
  | Some (Next x) => linv 0 (at_pos (x_pos x + 1) x) /\ p0 <= x_pos x
  | Some (Reexec x) => linv 1 x /\ p0 <= x_pos x < lenZ data /\ (rank (x_state x) < rk)%nat
  | Some (Ret n P _) =>
      0 <= n <= lenZ data /\ post P /\
      (hp_errno P = HPE_OK -> n = lenZ data \/ hp_upgrade P = true)
  | Some (Err x) => hp_errno (x_parser x) <> HPE_OK /\ hp_errno (x_parser x) <> HPE_PAUSED /\
      0 <= x_pos x <= lenZ data
  | None => False
  end.

#[local] Arguments safe p0 rk !r /.

Lemma fail_safe p0 rk e x : 0 <= x_pos x <= lenZ data -> e <> HPE_OK -> e <> HPE_PAUSED ->
  safe p0 rk (fail e x).
Proof. intros H1 H2 H3. simpl. done. Qed.

(** Neither the invariant nor anything else depends on the state the parser
    itself records, or on the application state. *)
Definition sync (st : state) (a : A) (x : Ctx A) : Ctx A := with_app a (with_parser (set_state st) x).

Lemma parser_inv_errno k P s e : parser_inv k P s -> parser_inv k (set_errno e P) s.
Proof. intros [H1 H2 H3 H4 H5]. by constructor; try done; destruct s. Qed.

Lemma parser_inv_sync k P s st : parser_inv k P s -> parser_inv k (set_state st P) s.
Proof. intros [H1 H2 H3 H4 H5]. by constructor; try done; destruct s. Qed.

Lemma set_state_same P : set_state (hp_state P) P = P.
Proof. by destruct P. Qed.

Lemma sync_same x : sync (hp_state (x_parser x)) (x_app x) x = x.
Proof. destruct x as [P s p hf hv u b st a]. unfold sync, with_app, with_parser. simpl. by rewrite set_state_same. Qed.

(** A callback either lets the step go on with a synchronised context or ends
    the call. *)
Lemma callback_notify_safe p0 rk f e ret x k :
  hp_errno (x_parser x) = HPE_OK -> opt_ok notify_ok f -> 0 <= ret <= lenZ data ->
  parser_inv 0 (x_parser x) (x_state x) -> e <> HPE_OK ->
  (forall st a, safe p0 rk (k (sync st a x))) -> safe p0 rk (callback_notify f e ret x k).
Proof.
  intros He Hf Hret Hp Hne Hk. unfold callback_notify. rewrite decide_True by done.
  destruct f as [f|]; [|rewrite <- (sync_same x); apply Hk].
  specialize (Hf (set_state (x_state x) (x_parser x)) (x_app x)).
  destruct (f _ _) as [[r P'] a']. destruct Hf as [e' ->].
  destruct (Z.eqb_spec r 0) as [Hr|Hr].
  - destruct (decide _) as [Hd|Hd].
    + simpl in Hd. subst e'. specialize (Hk (x_state x) a').
      assert (goto (hp_state (set_errno HPE_OK (set_state (x_state x) (x_parser x))))
        (with_app a' (with_parser (fun _ => set_errno HPE_OK (set_state (x_state x) (x_parser x))) x)) =
        sync (x_state x) a' x) as ->; [|done].
      unfold sync, with_app, with_parser, goto. simpl. f_equal. destruct (x_parser x). simpl in *. by subst.
    + simpl in *. split_and!; try lia; [|done]. intros _. by apply parser_inv_errno, parser_inv_sync.
  - destruct (decide _) as [Hd|Hd]; [done|]. simpl in *. split_and!; try lia; [|done].
    intros _. by apply parser_inv_errno, parser_inv_errno, parser_inv_sync.
Qed.

Lemma data_cb_ok m : opt_ok data_ok (data_cb settings m).
Proof. destruct Hset. by destruct m. Qed.

Lemma callback_data_safe p0 rk m stop ret x k :
  hp_errno (x_parser x) = HPE_OK -> 0 <= ret <= lenZ data ->
  match mark_of m x with Some a => 0 <= a <= stop | None => True end -> stop <= lenZ data ->
  parser_inv 0 (x_parser x) (x_state x) ->
  (forall st a, safe p0 rk (k (sync st a (set_mark m None x)))) ->
  safe p0 rk (callback_data settings data m stop ret x k).
Proof.
  intros He Hret Hm Hs Hp Hk. unfold callback_data. rewrite decide_True by done.
  assert (mark_of m x = None -> set_mark m None x = x) as Hnone.
  { intros E. destruct x, m; simpl in *; by rewrite E. }
  destruct (mark_of m x) as [start|] eqn:Em.
  2:{ specialize (Hk (hp_state (x_parser x)) (x_app x)). rewrite Hnone in Hk by done. by rewrite sync_same in Hk. }
  destruct (data_cb settings m) as [f|] eqn:Ef.
  2:{ specialize (Hk (hp_state (x_parser (set_mark m None x))) (x_app (set_mark m None x))). by rewrite sync_same in Hk. }
  unfold between. destruct (Z.leb_spec 0 start); [|lia]. destruct (Z.leb_spec start stop); [|lia].
  destruct (Z.leb_spec stop (lenZ data)); [|lia]. cbn [andb mbind option_bind].
  pose proof (data_cb_ok m) as Hcb. rewrite Ef in Hcb.
  specialize (Hcb (takeZ (stop - start) (dropZ start data)) (set_state (x_state x) (x_parser x)) (x_app x)).
  destruct (f _ _ _) as [[r P'] a']. destruct Hcb as [e' ->].
  destruct (Z.eqb_spec r 0) as [Hr|Hr].
  - destruct (decide _) as [Hd|Hd].
    + simpl in Hd. subst e'. specialize (Hk (x_state x) a').
      assert (set_mark m None (goto (hp_state (set_errno HPE_OK (set_state (x_state x) (x_parser x))))
        (with_app a' (with_parser (fun _ => set_errno HPE_OK (set_state (x_state x) (x_parser x))) x))) =
        sync (x_state x) a' (set_mark m None x)) as ->; [|done].
      unfold sync, with_app, with_parser, goto, set_mark. simpl. f_equal. destruct (x_parser x). simpl in *. by subst.
    + simpl in *. split_and!; try lia; [|done]. intros _. by apply parser_inv_errno, parser_inv_sync.
  - destruct (decide _) as [Hd|Hd]; [by destruct m|]. simpl in *. split_and!; try lia; [|done].
    intros _. by apply parser_inv_errno, parser_inv_errno, parser_inv_sync.
Qed.

(** *** Tactics for a state *)

(** Open the invariant at a state: the marks that cannot be set are gone. *)
Ltac no_mark M :=
  match type of M with
  | mark_in ?o _ _ => destruct o; [try (exfalso; destruct M as [_ M]; first [discriminate M|destruct M as [M|[M _]]; [discriminate M|lia]])|]
  end.

Ltac open_state x Hinv Es :=
  let He := fresh "He" in let Hp := fresh "Hp" in
  destruct Hinv as [He Hp [Hindex Hnread Hlength Hstatus Hstate] M1 M2 M3 M4 M5];
  destruct x as [P s p hf hv u b st a]; simpl in *; subst s; simpl in *;
  no_mark M1; no_mark M2; no_mark M3; no_mark M4; no_mark M5; simpl in *.

(** The leaves: an error, or a context whose invariant is checked field by field. *)
Ltac fields := constructor; simpl; try done; try lia.
Ltac leaf :=
  first
  [ apply fail_safe; simpl; [lia|discriminate|discriminate]
  | simpl; split; [fields; fields|simpl; lia]
  | simpl; split; [fields; fields|split; simpl; lia] ].

Ltac notify := apply callback_notify_safe; simpl; [done|apply Hset|lia|fields|discriminate|intros st' a'].

Lemma safe_expect p0 rk c ch s x : linv 1 x -> x_pos x < lenZ data -> p0 <= x_pos x ->
  x_header_field x = None -> x_header_value x = None -> x_url x = None -> x_body x = None -> x_status x = None ->
  state_inv 0 (x_parser x) s -> safe p0 rk (expect c ch s x).
Proof.
  intros [He Hp [Hi Hn Hl Hs _] _ _ _ _ _] Hlt Hp0 M1 M2 M3 M4 M5 Hst. unfold expect.
  destruct (ch =? c); cbn [negb]; [|leaf].
  destruct x as [P s0 p hf hv u b st a]. simpl in *. subst. leaf.
Qed.

Lemma safe_start x ch : linv 1 x -> x_pos x < lenZ data ->
  match x_state x with s_dead | s_start_req_or_res | s_res_or_resp_H | s_start_res | s_start_req => True | _ => False end ->
  safe (x_pos x) (rank (x_state x)) (step settings lenient data x ch).
Proof.
  intros Hinv Hlt Hst. unfold step.
  destruct (x_state x) eqn:Es; try done; open_state x Hinv Es; clear Hst.
  - unfold step_dead. destruct (_ || _); leaf.
  - unfold step_start_req_or_res. destruct (_ || _); [leaf|]. destruct (ch =? chr "H").
    + notify. leaf.
    + leaf.
  - unfold step_res_or_resp_H. destruct (ch =? chr "T"); [leaf|]. destruct (ch =? chr "E"); leaf.
  - unfold step_start_res. destruct (ch =? chr "H");  [|destruct (_ || _)]; [..|leaf].
    all: notify; leaf.
  - unfold step_start_req. destruct (_ || _); [leaf|]. destruct (IS_ALPHA ch); cbn [negb]; [|leaf].
    destruct (method_first ch) as [m|] eqn:Em; [|leaf].
    assert (1 <= method_len m) by (by destruct m).
    notify. leaf.
Qed.

Ltac data_call := apply callback_data_safe; simpl; [done|lia|first [done|lia]|lia|fields|intros st' a'].

Lemma safe_status_line x ch : linv 1 x -> x_pos x < lenZ data -> is_byte ch ->
  match x_state x with
  | s_res_H | s_res_HT | s_res_HTT | s_res_HTTP | s_res_http_major | s_res_http_dot | s_res_http_minor
  | s_res_http_end | s_res_first_status_code | s_res_status_code | s_res_status_start | s_res_status
  | s_res_line_almost_done => True
  | _ => False end ->
  safe (x_pos x) (rank (x_state x)) (step settings lenient data x ch).
Proof.
  intros Hinv Hlt Hch Hst. unfold step.
  destruct (x_state x) eqn:Es; try done; clear Hst;
    try (open_state x Hinv Es; by apply safe_expect; [fields; fields|done..]).
  all: open_state x Hinv Es.
  - unfold version_digit. destruct (IS_NUM ch); leaf.
  - unfold version_dot. destruct (ch =? chr "."); leaf.
  - unfold version_digit. destruct (IS_NUM ch); leaf.
  - unfold step_res_http_end. destruct (ch =? SP); leaf.
  - unfold step_res_first_status_code. destruct (IS_NUM ch) eqn:En; cbn [negb]; [|destruct (ch =? SP); leaf].
    unfold IS_NUM, in_range in En. change (chr "0") with 48 in *. change (chr "9") with 57 in *. bool_to_prop. leaf.
  - unfold step_res_status_code. destruct (IS_NUM ch) eqn:En; cbn [negb].
    + unfold IS_NUM, in_range in En. change (chr "0") with 48 in *. change (chr "9") with 57 in *. bool_to_prop.
      simpl. change (chr "0") with 48. set (v := u16 (u16 (hp_status_code P * 10) + (ch - 48))). assert (0 <= v) by (apply uwrap_range; lia). simpl.
      destruct (Z.gtb_spec v 999); leaf.
    + destruct (ch =? SP); [leaf|]. destruct (_ || _); leaf.
  - unfold step_res_status_start. destruct (_ || _); leaf.
  - unfold step_res_status. destruct (ch =? CR); [data_call; leaf|]. destruct (ch =? LF); [data_call; leaf|leaf].
  - unfold step_res_status. destruct (ch =? CR); [data_call; leaf|]. destruct (ch =? LF); [data_call; leaf|leaf].
Qed.

Lemma parse_url_char_state s ch : url_state (parse_url_char s ch) = true \/ parse_url_char s ch = s_dead.
Proof. unfold parse_url_char. destruct s; simpl; repeat destr_if; auto. Qed.

Lemma url_state_inv k P s : url_state s = true -> state_inv k P s.
Proof. by destruct s. Qed.

Lemma safe_url_char p0 rk x ch :
  hp_errno (x_parser x) = HPE_OK -> 0 <= x_pos x < lenZ data -> p0 <= x_pos x ->
  parser_inv 1 (x_parser x) s_dead -> mark_in (x_url x) (x_pos x) True ->
  x_header_field x = None -> x_header_value x = None -> x_body x = None -> x_status x = None ->
  safe p0 rk (url_char x ch).
Proof.
  intros He Hp Hp0 [Hi Hn Hl Hs _] Hu M1 M2 M4 M5. unfold url_char.
  destruct (parse_url_char_state (x_state x) ch) as [Hst|Hst].
  - destruct (decide _) as [Hd|Hd]; [leaf|].
    destruct x as [P s p hf hv u b st a]. simpl in *. subst.
    simpl. split; [|lia]. constructor; simpl; try done; try lia.
    + constructor; simpl; try done. by apply url_state_inv.
    + destruct u; simpl in *; [split; [lia|done]|done].
  - rewrite decide_True by done. leaf.
Qed.

Lemma method_switch_len m i c m' : method_switch m i c = Some m' -> 0 <= i < method_len m'.
Proof.
  unfold method_switch. intros H.
  destruct m; cbv zeta beta iota in H; try done;
    repeat (match type of H with context [if ?b then _ else _] => destruct b eqn:? end; cbv beta iota in H);
    simplify_eq; bool_to_prop; unfold method_len; simpl; lia.
Qed.

Lemma method_len_bound m : 0 < method_len m < 20.
Proof. destruct m; unfold method_len; simpl; lia. Qed.

Lemma c_at_len s i : 0 <= i <= Z.of_nat (String.length s) -> exists c, c_at s i = Some c /\
  (i = Z.of_nat (String.length s) -> c = 0).
Proof.
  intros H. unfold c_at. destruct (Z.eqb_spec i (Z.of_nat (String.length s))); [by exists 0|].
  assert (forall t, lenZ (chars t) = Z.of_nat (String.length t)) as Hl.
  { intros t. unfold lenZ, chars. rewrite length_map. induction t as [|c t IH]; [done|]. simpl. lia. }
  destruct (rd_is_Some (chars s) i) as [c Hc]; [rewrite Hl; lia|].
  exists c. split; [done|lia].
Qed.

Lemma safe_request_line x ch : linv 1 x -> x_pos x < lenZ data ->
  match x_state x with
  | s_req_method | s_req_spaces_before_url | s_req_http_start | s_req_http_H | s_req_http_HT
  | s_req_http_HTT | s_req_http_HTTP | s_req_http_major | s_req_http_dot | s_req_http_minor
  | s_req_http_end | s_req_line_almost_done => True
  | s => url_state s = true end ->
  safe (x_pos x) (rank (x_state x)) (step settings lenient data x ch).
Proof.
  intros Hinv Hlt Hst. unfold step.
  destruct (x_state x) eqn:Es; try done; clear Hst;
    try (open_state x Hinv Es; by apply safe_expect; [fields; fields|done..]).
  all: open_state x Hinv Es.
  all: try (unfold step_req_url_start; destruct (_ || _); [leaf|];
            apply safe_url_char; simpl; first [done|lia|tauto|fields]).
  all: try (unfold step_req_url; destruct (ch =? SP); [data_call; leaf|]; destruct (_ || _);
            [destruct (ch =? CR); simpl; data_call; leaf|apply safe_url_char; simpl; first [done|lia|tauto|fields]]).
  - unfold step_req_method. destruct (Z.eqb_spec ch 0); [leaf|]. simpl.
    destruct (c_at_len (http_method_str (hp_method P)) (hp_index P)) as (c & Hc & Hc0); [by unfold method_len in Hstate; lia|].
    rewrite Hc. cbn [mbind option_bind]. pose proof (method_len_bound (hp_method P)).
    destruct ((ch =? SP) && (c =? 0)); [leaf; by apply uwrap_range|].
    destruct (Z.eqb_spec ch c).
    + assert (hp_index P <> method_len (hp_method P)) by (unfold method_len in *; intros E; specialize (Hc0 E); lia).
      pose proof (uwrap_small 7 (hp_index P + 1) ltac:(lia)). leaf.
    + destruct (_ || _); [|leaf]. destruct (method_switch _ _ ch) as [m'|] eqn:Em; [|leaf].
      apply method_switch_len in Em. pose proof (method_len_bound m').
      pose proof (uwrap_small 7 (hp_index P + 1) ltac:(lia)). leaf.
  - unfold step_req_spaces_before_url. destruct (ch =? SP); [leaf|].
    destruct (decide _); apply safe_url_char; simpl; try done; try lia; fields.
  - unfold step_req_http_start. destruct (ch =? chr "H"); [leaf|]. destruct (ch =? SP); leaf.
  - unfold version_digit. destruct (IS_NUM ch); leaf.
  - unfold version_dot. destruct (ch =? chr "."); leaf.
  - unfold version_digit. destruct (IS_NUM ch); leaf.
  - unfold step_req_http_end. destruct (ch =? CR); [leaf|]. destruct (ch =? LF); leaf.
  - unfold step_req_line_almost_done. destruct (ch =? LF); leaf.
Qed.

(** *** Headers *)

Lemma match_token_ok name hit miss h c P : 0 <= hp_index P < 128 -> Z.of_nat (String.length name) < 127 ->
  exists h' , match_token name hit miss h c P = Some (h', inc_index P) /\ (h' = hit \/ h' = miss \/ h' = h).
Proof.
  intros Hi Hn. unfold match_token. set (n := Z.of_nat (String.length name)).
  assert (0 <= hp_index (inc_index P)) as H0 by (apply (uwrap_range 7); lia).
  destruct (Z.gtb_spec (hp_index (inc_index P)) n); [eauto|].
  destruct (c_at_len name (hp_index (inc_index P))) as (x & -> & _); [lia|]. cbn [mbind option_bind].
  destruct (c =? x); cbn [negb]; [|eauto]. destruct (_ =? _); eauto 6.
Qed.

(** What the bytes of a name or a value change: the matching only. *)
Definition matching (P P' : http_parser) : Prop :=
  exists hs i cl fl, P' = set_flags fl (set_content_length cl (set_index i (set_header_state hs P))) /\
    0 <= i < 128 /\ 0 <= cl < 2 ^ 64.

Lemma matching_refl P : 0 <= hp_index P < 128 -> 0 <= hp_content_length P < 2 ^ 64 -> matching P P.
Proof.
  intros Hi Hc. exists (hp_header_state P), (hp_index P), (hp_content_length P), (hp_flags P).
  split_and!; try lia. by destruct P.
Qed.

Lemma matching_trans P Q R : matching P Q -> matching Q R -> matching P R.
Proof.
  intros (hs & i & cl & fl & -> & _ & _) (hs' & i' & cl' & fl' & -> & H1 & H2).
  by exists hs', i', cl', fl'.
Qed.

Lemma header_field_char_ok ch c P : name_state (hp_header_state P) = true ->
  0 <= hp_index P < 128 -> 0 <= hp_content_length P < 2 ^ 64 ->
  exists P', header_field_char ch c P = Some P' /\ matching P P' /\ name_state (hp_header_state P') = true.
Proof.
  intros Hn Hi Hl. unfold header_field_char.
  assert (0 <= uwrap 7 (hp_index P + 1) < 128) as Hi' by (apply (uwrap_range 7); lia).
  assert (forall h, matching P (set_header_state h (inc_index P))) as Hm.
  { intros h. exists h, (uwrap 7 (hp_index P + 1)), (hp_content_length P), (hp_flags P). split_and!; try lia. by destruct P. }
  assert (forall h, matching P (set_header_state h P)) as Hm0.
  { intros h. exists h, (hp_index P), (hp_content_length P), (hp_flags P). split_and!; try lia. by destruct P. }
  pose proof (matching_refl P Hi Hl) as Hr.
  destruct (hp_header_state P) eqn:Eh; try done;
    try (eexists; split; [reflexivity|]; split; [done|]; simpl; repeat destr_if; by rewrite ?Eh);
    try (match goal with |- context [match_token ?name ?hit ?miss ?h c P] =>
      destruct (match_token_ok name hit miss h c P Hi ltac:(simpl; lia)) as (h' & -> & Hh); cbn [mbind option_bind];
      eexists; split; [reflexivity|]; split; [done|]; simpl; destruct Hh as [-> | [-> | ->]]; done end).
  all: eexists; split; [reflexivity|]; destruct (ch =? SP); (split; [done|]); simpl; by rewrite ?Eh.
Qed.

Lemma header_field_loop_ok rest : forall P p, name_state (hp_header_state P) = true ->
  0 <= hp_index P < 128 -> 0 <= hp_content_length P < 2 ^ 64 ->
  exists P' p', header_field_loop rest P p = Some (P', p') /\ matching P P' /\
    name_state (hp_header_state P') = true /\ p <= p' <= p + lenZ rest /\
    (forall ch, rd rest 0 = Some ch -> TOKEN ch <> 0 -> p < p').
Proof.
  induction rest as [|ch rest IH]; intros P p Hn Hi Hl; cbn [header_field_loop].
  - exists P, p. rewrite lenZ_nil. split_and!; try done; try lia. by apply matching_refl.
  - rewrite lenZ_cons. pose proof (lenZ_nonneg rest). destruct (Z.eqb_spec (TOKEN ch) 0) as [E|E].
    + exists P, p. split_and!; try done; try lia; [by apply matching_refl|].
      intros c Hc Ht. rewrite rd_cons_0 in Hc. congruence.
    + destruct (header_field_char_ok ch (TOKEN ch) P Hn Hi Hl) as (P1 & -> & Hm & Hn1). cbn [mbind option_bind].
      destruct Hm as (hs & i & cl & fl & -> & Hi1 & Hl1).
      destruct (IH _ (p + 1) Hn1) as (P2 & p2 & E2 & Hm2 & Hn2 & Hp2 & _); [done..|].
      exists P2, p2. split_and!; try done; try lia.
Qed.

Lemma matching_inv k P P' s s' : parser_inv k P s -> matching P P' -> state_inv k P' s' -> parser_inv k P' s'.
Proof. intros [H1 H2 H3 H4 _] (hs & i & cl & fl & -> & Hi & Hc) Hs. by constructor. Qed.

Lemma matching_errno P P' : matching P P' -> hp_errno P' = hp_errno P.
Proof. by intros (hs & i & cl & fl & -> & _). Qed.

Lemma matching_nread P P' : matching P P' -> hp_nread P' = hp_nread P.
Proof. by intros (hs & i & cl & fl & -> & _). Qed.

Lemma count_header_size_safe p0 rk v x k : 0 <= x_pos x <= lenZ data -> 0 <= v < 2 ^ 31 ->
  0 <= hp_nread (x_parser x) <= HTTP_MAX_HEADER_SIZE ->
  (forall nr, 0 <= nr <= HTTP_MAX_HEADER_SIZE -> nr = hp_nread (x_parser x) + v ->
     safe p0 rk (k (with_parser (set_nread nr) x))) ->
  safe p0 rk (count_header_size v x k).
Proof.
  intros Hp Hv Hn Hk. unfold count_header_size.
  assert (HTTP_MAX_HEADER_SIZE = 81920) as Hm by done.
  replace (with_parser (fun P => set_nread (u32 (hp_nread P + v)) P) x)
    with (with_parser (set_nread (hp_nread (x_parser x) + v)) x).
  2:{ unfold with_parser. simpl. by rewrite uwrap_small by lia. }
  change (hp_nread (x_parser (with_parser (set_nread (hp_nread (x_parser x) + v)) x)))
    with (hp_nread (x_parser x) + v).
  destruct (Z.gtb_spec (hp_nread (x_parser x) + v) HTTP_MAX_HEADER_SIZE); [by apply fail_safe|].
  apply Hk; [lia|done].
Qed.

Context (Hsmall : lenZ data < 2 ^ 31).

Lemma rd_of_dropZ p ch : 0 <= p -> rd data p = Some ch -> rd (dropZ p data) 0 = Some ch.
Proof. intros Hp H. rewrite rd_dropZ by lia. by rewrite Z.add_0_r. Qed.

Lemma safe_header_field x ch : linv 1 x -> x_pos x < lenZ data -> rd data (x_pos x) = Some ch ->
  x_state x = s_header_field \/ x_state x = s_header_field_start ->
  safe (x_pos x) (rank (x_state x)) (step settings lenient data x ch).
Proof.
  intros Hinv Hlt Hch Hst. unfold step.
  destruct Hst as [Es|Es]; rewrite Es.
  2:{ open_state x Hinv Es. unfold step_header_field_start. destruct (ch =? CR); [leaf|].
      destruct (ch =? LF); [leaf|]. destruct (TOKEN ch =? 0); [leaf|]. repeat destr_if; leaf. }
  open_state x Hinv Es.
  all: destruct (header_field_loop_ok (dropZ p data) P p Hstate Hindex Hlength) as (P' & p' & E & Hm & Hn & Hp' & _).
  all: rewrite lenZ_dropZ in Hp'; unfold step_header_field; simpl; rewrite E; cbn [mbind option_bind].
  all: pose proof (matching_errno _ _ Hm) as He'; pose proof (matching_nread _ _ Hm) as Hnr.
  all: apply count_header_size_safe; simpl; [lia|lia|by rewrite Hnr|].
  all: intros nr Hnr1 _; pose proof (matching_inv 0 P P' s_header_field s_header_field
    ltac:(by constructor) Hm Hn) as [I1 I2 I3 I4 I5].
  all: destruct (Z.eqb_spec p' (lenZ data)) as [->|Hne].
  1,3: simpl; split; [constructor; simpl; first [done|lia|congruence|by constructor|split; [lia|done]]|simpl; lia].
  all: destruct (rd_is_Some data p') as [c Hc]; [lia|]; rewrite Hc; cbn [mbind option_bind].
  all: destruct (c =? chr ":"); [|apply fail_safe; simpl; [lia|done|done]].
  all: apply callback_data_safe; simpl; [congruence|lia|first [done|lia]|lia|by constructor|].
  all: intros st' a'; simpl; split; [constructor; simpl; first [done|lia|congruence|by constructor]|simpl; lia].
Qed.

(** Digits keep the content length below its maximum. *)
Lemma IS_NUM_range ch : IS_NUM ch = true -> 0 <= ch - chr "0" <= 9.
Proof.
  unfold IS_NUM, in_range. change (chr "0") with 48. change (chr "9") with 57. intros H. bool_to_prop. lia.
Qed.

Definition value_result (P : http_parser) (v : Value) : Prop :=
  match v with
  | VOk h P' => matching P P' /\ value_state h = true
  | VErr e h P' => matching P P' /\ e = HPE_INVALID_CONTENT_LENGTH
  end.

Lemma content_length_char_ok ch P : 0 <= hp_index P < 128 -> 0 <= hp_content_length P < 2 ^ 64 ->
  value_result P (content_length_char ch P).
Proof.
  intros Hi Hl. unfold content_length_char. pose proof (matching_refl P Hi Hl) as Hr.
  destruct (ch =? SP); [done|]. destruct (IS_NUM ch) eqn:En; cbn [negb]; [|done].
  destruct (_ <? _); [done|]. split; [|done].
  exists (hp_header_state P), (hp_index P), (u64 (u64 (hp_content_length P * 10) + (ch - chr "0"))), (hp_flags P).
  split_and!; try lia; [by destruct P|apply uwrap_range; lia..].
Qed.

Lemma header_value_char_ok h ch c P : value_state h = true -> h <> h_general ->
  0 <= hp_index P < 128 -> 0 <= hp_content_length P < 2 ^ 64 ->
  exists v, header_value_char h ch c P = Some v /\ value_result P v.
Proof.
  intros Hv Hg Hi Hl. pose proof (matching_refl P Hi Hl) as Hr.
  assert (matching P (inc_index P)) as Hinc.
  { exists (hp_header_state P), (uwrap 7 (hp_index P + 1)), (hp_content_length P), (hp_flags P).
    split_and!; try lia; [by destruct P|apply (uwrap_range 7); lia..]. }
  assert (forall Q, matching P Q -> matching P (set_index 0 Q)) as H0.
  { intros Q (hs & i & cl & fl & -> & _ & Hc). by exists hs, 0, cl, fl. }
  assert (forall g, matching P (add_connection_flag g P)) as Hf.
  { intros g. exists (hp_header_state P), (hp_index P), (hp_content_length P), (hp_flags (add_connection_flag g P)).
    split_and!; try lia. by destruct g, P. }
  unfold header_value_char.
  destruct h; try done; cbv zeta;
    try (eexists; split; [reflexivity|]; repeat destr_if;
         first [by apply content_length_char_ok|split; [by auto|reflexivity]]);
    match goal with |- context [match_token ?name ?hit ?miss ?h c P] =>
      destruct (match_token_ok name hit miss h c P Hi ltac:(simpl; lia)) as (h' & -> & Hh) end;
    cbn [mbind option_bind]; (eexists; split; [reflexivity|]); (split; [done|]);
    destruct Hh as [-> | [-> | ->]]; done.
Qed.

Lemma memchr_bound c l i : memchr c l = Some i -> 0 <= i < lenZ l /\ rd l i = Some c.
Proof.
  revert i. induction l as [|b l IH]; intros i H; cbn [memchr] in H; [done|].
  rewrite lenZ_cons. pose proof (lenZ_nonneg l). destruct (Z.eqb_spec b c) as [->|].
  - injection H as <-. split; [lia|by rewrite rd_cons_0].
  - destruct (memchr c l) as [j|]; [|done]. injection H as <-. destruct (IH j eq_refl). split; [lia|].
    rewrite rd_cons_S by lia. by replace (Z.succ j - 1) with j by lia.
Qed.

(** The skip of [h_general] makes progress and stays inside the input. *)
Lemma skip_general_bound rest ch : rd rest 0 = Some ch -> ch <> CR -> ch <> LF ->
  0 < skip_general rest <= lenZ rest.
Proof.
  intros Hch H1 H2. unfold skip_general. pose proof (rd_Some_lt _ _ _ Hch) as Hlt.
  set (w := takeZ (Z.min (lenZ rest) HTTP_MAX_HEADER_SIZE) rest).
  assert (HTTP_MAX_HEADER_SIZE = 81920) as Hm by done.
  assert (lenZ w = Z.min (lenZ rest) 81920) as Hw by (unfold w; rewrite lenZ_takeZ; lia).
  assert (rd w 0 = Some ch) as Hw0.
  { assert (rd (w ++ dropZ (Z.min (lenZ rest) HTTP_MAX_HEADER_SIZE) rest) 0 = Some ch) as H
      by (unfold w; by rewrite takeZ_dropZ).
    by rewrite rd_app_l in H by lia. }
  assert (forall c i, c = CR \/ c = LF -> memchr c w = Some i -> 0 < i < lenZ rest) as Hi.
  { intros c i Hc Hi. apply memchr_bound in Hi as [Hi Hr]. destruct (decide (i = 0)) as [->|]; [|lia].
    rewrite Hr in Hw0. injection Hw0 as ->. tauto. }
  destruct (memchr CR w) as [i|] eqn:E1, (memchr LF w) as [j|] eqn:E2;
    try pose proof (Hi CR _ (or_introl eq_refl) E1); try pose proof (Hi LF _ (or_intror eq_refl) E2); try lia.
  destruct (i >=? j); lia.
Qed.

Definition value_end_ok (P : http_parser) (p : Z) (e : ValueEnd) : Prop :=
  match e with
  | VE_cr h P' p' => matching P P' /\ value_state h = true /\ p <= p' < lenZ data
  | VE_lf h P' p' => matching P P' /\ value_state h = true /\ p <= p' < lenZ data /\ rd data p' = Some LF
  | VE_end h P' p' => matching P P' /\ value_state h = true /\ p' = lenZ data
  | VE_err e P' p' => (e = HPE_INVALID_HEADER_TOKEN \/ e = HPE_INVALID_CONTENT_LENGTH) /\ 0 <= p' <= lenZ data
  end.

Lemma header_value_loop_ok fuel : forall h P p, value_state h = true ->
  0 <= hp_index P < 128 -> 0 <= hp_content_length P < 2 ^ 64 -> 0 <= p <= lenZ data ->
  lenZ data - p <= Z.of_nat fuel ->
  exists e, header_value_loop lenient data fuel h P p = Some e /\ value_end_ok P p e.
Proof.
  induction fuel as [|fuel IH]; intros h P p Hh Hi Hl Hp Hf; cbn [header_value_loop];
    pose proof (matching_refl P Hi Hl) as Hr.
  - destruct (Z.eqb_spec p (lenZ data)); [|lia]. eexists. split; [done|]. done.
  - destruct (Z.eqb_spec p (lenZ data)) as [->|Hne]; [eexists; split; [done|]; done|].
    destruct (rd_is_Some data p) as [ch Hch]; [lia|]. rewrite Hch. cbn [mbind option_bind].
    destruct (Z.eqb_spec ch CR) as [->|Hcr]; [eexists; split; [done|]; simpl; split_and!; try done; lia|].
    destruct (Z.eqb_spec ch LF) as [->|Hlf]; [eexists; split; [done|]; simpl; split_and!; try done; lia|].
    destruct (negb lenient && _); [eexists; split; [done|]; simpl; split; [tauto|lia]|].
    destruct (decide (h = h_general)) as [->|Hg].
    + pose proof (skip_general_bound (dropZ p data) ch (rd_of_dropZ p ch ltac:(lia) Hch) Hcr Hlf) as Hs.
      rewrite lenZ_dropZ in Hs. destruct (IH h_general P (p + skip_general (dropZ p data))) as (e & E & He);
        try done; try lia. exists e. split; [exact E|]. destruct e; simpl in *; intuition lia.
    + destruct (header_value_char_ok h ch (LOWER ch) P Hh Hg Hi Hl) as (v & Ev & Hv).
      assert (exists e, (v ← header_value_char h ch (LOWER ch) P;
        match v with
        | VOk h' P' => header_value_loop lenient data fuel h' P' (p + 1)
        | VErr e h' P' => Some (VE_err e (set_header_state h' P') p)
        end) = Some e /\ value_end_ok P p e) as He; [|by destruct h].
      rewrite Ev. cbn [mbind option_bind]. destruct v as [h' P'|e h' P']; destruct Hv as [Hm Hv].
      * assert (0 <= hp_index P' < 128 /\ 0 <= hp_content_length P' < 2 ^ 64) as [Hi1 Hl1]
          by (destruct Hm as (hs & i & cl & fl & -> & Hi1 & Hl1); done).
        destruct (IH h' P' (p + 1) Hv) as (e & E & He); [done|done|lia|lia|]. exists e. split; [exact E|].
        destruct e; simpl in *; intuition (try lia; eauto using matching_trans).
      * eexists. split; [done|]. simpl. split; [auto|lia].
Qed.

Lemma matching_set_header_state P P' h : matching P P' -> matching P (set_header_state h P').
Proof. intros (hs & i & cl & fl & -> & H). by exists h, i, cl, fl. Qed.

Lemma safe_header_value x ch : linv 1 x -> x_pos x < lenZ data -> rd data (x_pos x) = Some ch ->
  x_state x = s_header_value -> safe (x_pos x) (rank (x_state x)) (step settings lenient data x ch).
Proof.
  intros Hinv Hlt Hch Es. unfold step. rewrite Es.
  open_state x Hinv Es.
  all: assert (lenZ data - p <= Z.of_nat (length data)) as Hf by (unfold lenZ in *; lia).
  all: destruct (header_value_loop_ok (length data) (hp_header_state P) P p Hstate Hindex Hlength ltac:(lia) Hf)
    as (e & E & Hok).
  all: unfold step_header_value; simpl; rewrite E; cbn [mbind option_bind].
  all: assert (forall h P' s', matching P P' -> (forall Q, hp_header_state Q = h -> state_inv 0 Q s') ->
         parser_inv 0 (set_header_state h P') s') as Hpi
         by (intros h' P' s' Hm Hs; apply (matching_inv 0 P _ s_header_value);
             [by constructor|by apply matching_set_header_state|by apply Hs]).
  all: assert (forall P', matching P P' -> hp_errno P' = HPE_OK /\ hp_nread P' = hp_nread P) as Hmm
         by (intros Q HQ; rewrite (matching_errno _ _ HQ), (matching_nread _ _ HQ); done).
  all: destruct e as [h P' p'|h P' p'|h P' p'|e P' p']; simpl in Hok.
  4,8: destruct Hok as [Hok ?]; apply fail_safe; simpl; [lia|by destruct Hok as [-> | ->]..].
  all: destruct Hok as (Hm & Hv & Hb); destruct (Hmm P' Hm) as [Hme Hmn];
    specialize (Hpi h P').
  3,6: subst p'; apply count_header_size_safe; simpl; [lia|lia|by rewrite Hmn|]; intros nr Hnr _;
    destruct (Hpi s_header_value Hm) as [J1 J2 J3 J4 J5]; [intros Q HQ; simpl; by rewrite HQ|]; simpl in *;
    (split; [constructor; simpl; first [done|lia|by constructor|split; [lia|done]]|lia]).
  all: destruct (Hpi s_header_almost_done Hm) as [J1 J2 J3 J4 J5]; [done|]; simpl in *.
  all: first
    [ apply callback_data_safe; simpl; [done|lia|first [done|lia]|lia|by constructor|]; intros st' a';
      apply count_header_size_safe; simpl; [lia|lia|by rewrite Hmn|]; intros nr Hnr _; leaf
    | apply count_header_size_safe; simpl; [lia|lia|by rewrite Hmn|]; intros nr Hnr _;
      apply callback_data_safe; simpl; [done|lia|first [done|lia]|lia|by constructor|]; intros st' a'; leaf ].
Qed.

Lemma header_value_first_ok ch c P P' : 0 <= hp_content_length P < 2 ^ 64 ->
  header_value_first ch c P = inr P' ->
  value_state (hp_header_state P') = true /\ hp_index P' = hp_index P /\ hp_nread P' = hp_nread P /\
  hp_errno P' = hp_errno P /\ hp_status_code P' = hp_status_code P /\ 0 <= hp_content_length P' < 2 ^ 64.
Proof.
  unfold header_value_first. intros Hc H.
  destruct (hp_header_state P) eqn:Eh;
    try (injection H as <-; simpl; repeat destr_if; by rewrite ?Eh).
  destruct (IS_NUM ch) eqn:En; cbn [negb] in H; [|done]. apply IS_NUM_range in En.
  destruct (has_flag _ _); [done|]. injection H as <-. simpl. split_and!; try done; lia.
Qed.

Lemma header_value_first_err ch c P e : header_value_first ch c P = inl e -> e <> HPE_OK /\ e <> HPE_PAUSED.
Proof. unfold header_value_first. intros H. destruct (hp_header_state P); repeat destr_if; by simplify_eq. Qed.

Lemma safe_header_value_start rk x ch : hp_errno (x_parser x) = HPE_OK -> 0 <= x_pos x < lenZ data ->
  parser_inv 0 (x_parser x) s_dead -> x_header_value x = None ->
  x_header_field x = None -> x_url x = None -> x_body x = None -> x_status x = None ->
  safe (x_pos x) rk (step_header_value_start x ch).
Proof.
  intros He Hp [I1 I2 I3 I4 _] Hv M1 M2 M3 M4. unfold step_header_value_start.
  destruct x as [P s p hf hv u b st a]. simpl in *. subst. simpl.
  destruct (header_value_first ch (LOWER ch) (set_index 0 P)) as [e|P'] eqn:E.
  - apply header_value_first_err in E. apply fail_safe; simpl; [lia|tauto..].
  - apply header_value_first_ok in E as (Hv & Ei & En & Ee & Es & Hc); [|done]. simpl in *.
    split; [constructor; simpl; first [done|congruence|lia|split; [lia|done]|idtac]; constructor; by rewrite ?Ei, ?En, ?Es|lia].
Qed.

Lemma header_flag_same P : hp_index (header_flag P) = hp_index P /\ hp_nread (header_flag P) = hp_nread P /\
  hp_content_length (header_flag P) = hp_content_length P /\ hp_status_code (header_flag P) = hp_status_code P /\
  hp_errno (header_flag P) = hp_errno P.
Proof. unfold header_flag, add_connection_flag. by destruct (hp_header_state P). Qed.

Lemma safe_headers x ch : linv 1 x -> x_pos x < lenZ data ->
  match x_state x with
  | s_header_value_discard_ws | s_header_value_discard_ws_almost_done | s_header_value_discard_lws
  | s_header_value_start | s_header_value_lws | s_header_almost_done => True
  | _ => False end ->
  safe (x_pos x) (rank (x_state x)) (step settings lenient data x ch).
Proof.
  intros Hinv Hlt Hst. unfold step.
  destruct (x_state x) eqn:Es; try done; clear Hst; open_state x Hinv Es.
  - unfold step_header_value_discard_ws. destruct (_ || _); [leaf|]. destruct (ch =? CR); [leaf|].
    destruct (ch =? LF); [leaf|].
    by apply safe_header_value_start; [done|simpl; lia|constructor|..].
  - by apply safe_expect; [fields; fields|done..].
  - unfold step_header_value_discard_lws. destruct (_ || _); [leaf|]. simpl.
    destruct (header_flag_same P) as (E1 & E2 & E3 & E4 & E5).
    apply callback_data_safe; simpl; [congruence|lia|lia|lia|constructor; simpl; rewrite ?E1, ?E2, ?E3, ?E4; done|].
    intros st' a'. simpl. split; [constructor; simpl; try done; [congruence|]|split; lia].
    constructor; simpl; rewrite ?E1, ?E2, ?E3, ?E4; done.
  - by apply safe_header_value_start; [done|simpl; lia|constructor|..].
  - unfold step_header_value_lws. destruct (_ || _); [leaf|]. simpl.
    destruct (header_flag_same P) as (E1 & E2 & E3 & E4 & E5).
    split; [constructor; simpl; try done; [congruence|]|split; lia].
    constructor; simpl; rewrite ?E1, ?E2, ?E3, ?E4; done.
  - unfold step_header_almost_done. destruct (negb _); leaf.
Qed.

(** *** The end of the headers *)

Lemma NEW_MESSAGE_inv k P Q : state_inv k Q (NEW_MESSAGE P).
Proof. unfold NEW_MESSAGE, start_state. repeat case_match; done. Qed.

(** The next message may start, or the call returns for an upgrade. *)
Lemma message_complete_safe p0 rk x k : hp_errno (x_parser x) = HPE_OK -> 0 <= x_pos x < lenZ data ->
  p0 <= x_pos x -> parser_inv 0 (x_parser x) s_dead ->
  x_header_field x = None -> x_header_value x = None -> x_url x = None -> x_body x = None -> x_status x = None ->
  (forall x', k x' = next x' \/ (k x' = return_next x' /\ (hp_upgrade (x_parser x) = true \/ hp_upgrade (x_parser x') = true))) ->
  safe p0 rk (message_complete settings x k).
Proof.
  intros He Hp Hp0 [I1 I2 I3 I4 _] M1 M2 M3 M4 M5 Hk. unfold message_complete.
  pose proof (NEW_MESSAGE_inv 0 (x_parser x)) as Hst.
  destruct x as [P s p hf hv u b st a]. simpl in *. subst.
  apply callback_notify_safe; simpl; [done|apply Hset|lia|by constructor|done|]. intros st' a'.
  match goal with |- context [k ?x'] => destruct (Hk x') as [-> | [-> Hu]] end; simpl in *.
  - split; [constructor; simpl; first [done|lia|by constructor]|lia].
  - split_and!; [lia..| |by intros _; right; destruct Hu]. intros _. by constructor.
Qed.

Lemma safe_headers_done x ch : linv 1 x -> x_pos x < lenZ data -> x_state x = s_headers_done ->
  safe (x_pos x) (rank (x_state x)) (step settings lenient data x ch).
Proof.
  intros Hinv Hlt Es. unfold step. rewrite Es. open_state x Hinv Es.
  unfold step_headers_done. destruct (negb _); [leaf|]. cbv zeta. simpl.
  destruct (_ && _) eqn:Eu.
  { apply andb_true_iff in Eu as [Eu _]. apply message_complete_safe; simpl; first [done|lia|by constructor|idtac].
    intros x'. right. auto. }
  destruct (has_flag F_SKIPBODY _).
  { apply message_complete_safe; simpl; first [done|lia|by constructor|by auto]. }
  destruct (has_flag F_CHUNKED _) eqn:Ec; [leaf|].
  destruct (Z.eqb_spec (hp_content_length P) 0).
  { apply message_complete_safe; simpl; first [done|lia|by constructor|by auto]. }
  destruct (Z.eqb_spec (hp_content_length P) ULLONG_MAX); cbn [negb]; [|leaf].
  destruct (http_message_needs_eof _); cbn [negb]; [leaf|].
  apply message_complete_safe; simpl; first [done|lia|by constructor|by auto].
Qed.

Lemma safe_headers_almost_done x ch : linv 1 x -> x_pos x < lenZ data -> x_state x = s_headers_almost_done ->
  safe (x_pos x) (rank (x_state x)) (step settings lenient data x ch).
Proof.
  intros Hinv Hlt Es. unfold step. rewrite Es. open_state x Hinv Es.
  unfold step_headers_almost_done. destruct (negb _); [leaf|]. cbv zeta. simpl.
  destruct (has_flag F_TRAILING P); [notify; leaf|]. destruct (_ && _); [leaf|].
  set (up := if _ && _ then _ else _). clearbody up.
  destruct (on_headers_complete settings) as [f|] eqn:Ef.
  2:{ rewrite decide_True by done. leaf. }
  pose proof (ok_headers_complete _ Hset) as Hf. rewrite Ef in Hf.
  specialize (Hf (set_upgrade up P) a). destruct (f _ a) as [[r P'] a']. destruct Hf as [e ->].
  assert (forall Q, parser_inv 0 Q s_headers_done -> hp_errno Q = e ->
    safe p 2 (if decide (hp_errno Q = HPE_OK)
      then reexecute (mkCtx Q s_headers_done p None None None None None a')
      else Some (Ret p (set_state s_headers_done Q) a'))) as Hgo.
  { intros Q [J1 J2 J3 J4 _] <-. destruct (decide _) as [Hd|Hd].
    - simpl. split; [constructor; simpl; try done; by constructor|simpl; lia].
    - simpl. split_and!; try lia; [intros _; by constructor|done]. }
  destruct (r =? 0); [apply Hgo; [by constructor|done]|].
  destruct (r =? 2); [apply (Hgo (add_flag F_SKIPBODY (set_upgrade true (set_errno e (set_upgrade up P))))); [by constructor|done]|].
  destruct (r =? 1); [apply (Hgo (add_flag F_SKIPBODY (set_errno e (set_upgrade up P)))); [by constructor|done]|].
  simpl. split_and!; try lia; [intros _; by constructor|done].
Qed.

(** *** Bodies *)

Lemma unhex_range c : is_byte c -> unhex c = -1 \/ 0 <= unhex c < 16.
Proof.
  unfold unhex, is_byte. intros Hc. unfold IS_NUM, in_range.
  change (chr "0") with 48. change (chr "9") with 57. change (chr "A") with 65. change (chr "F") with 70.
  change (chr "a") with 97. change (chr "f") with 102. repeat destr_if; bool_to_prop; lia.
Qed.

Lemma to_read_bound (x : Ctx A) : 0 <= x_pos x < lenZ data -> 0 < hp_content_length (x_parser x) ->
  0 < to_read data x <= lenZ data - x_pos x /\ to_read data x <= hp_content_length (x_parser x) /\
  (to_read data x < hp_content_length (x_parser x) -> to_read data x = lenZ data - x_pos x).
Proof. intros Hp Hc. unfold to_read. rewrite uwrap_small by lia. lia. Qed.

Lemma safe_body x ch : linv 1 x -> x_pos x < lenZ data ->
  match x_state x with s_body_identity | s_body_identity_eof | s_message_done => True | _ => False end ->
  safe (x_pos x) (rank (x_state x)) (step settings lenient data x ch).
Proof.
  intros Hinv Hlt Hst. unfold step. assert (ULLONG_MAX = 2 ^ 64 - 1) as Hmax by done.
  destruct (x_state x) eqn:Es; try done; clear Hst; open_state x Hinv Es.
  - destruct Hstate as [Hc0 Hc1]. unfold step_body_identity, body_pending. simpl.
    destruct (Z.eqb_spec (hp_content_length P) 0); [lia|].
    destruct (Z.eqb_spec (hp_content_length P) ULLONG_MAX); [lia|]. cbn [negb andb assert_].
    destruct (to_read_bound (mkCtx P s_body_identity p None None None None None a)) as (T1 & T2 & T3);
      simpl; [lia|lia|]. unfold consume_body. set (k := to_read _ _) in *. clearbody k. simpl in *.
    assert (u64 (hp_content_length P - k) = hp_content_length P - k) as Hu by (apply uwrap_small; lia).
    rewrite Hu.
    destruct (Z.eqb_spec (hp_content_length P - k) 0) as [E|E].
    + apply callback_data_safe; simpl; [done|lia|lia|lia|constructor; simpl; rewrite ?Hu; try done; lia|].
      intros st' a'. simpl. split; [|simpl; lia]. constructor; simpl; try done; [lia|]. constructor; simpl; rewrite ?Hu; try done; lia.
    + split; [|simpl; lia]. constructor; simpl; try done; [lia| |].
      * constructor; simpl; rewrite ?Hu; try done; [lia|]. split; lia.
      * split; [lia|]. right. split; [lia|done].
  - unfold step_body_identity_eof. simpl. split; [|simpl; lia]. constructor; simpl; try done; [lia|].
    split; [lia|]. right. split; [lia|done].
  - unfold step_message_done. apply message_complete_safe; simpl; first [done|lia|by constructor|idtac].
    intros x'. destruct (hp_upgrade (x_parser x')) eqn:Eu; auto.
Qed.

Lemma safe_chunks x ch : linv 1 x -> x_pos x < lenZ data -> is_byte ch ->
  match x_state x with
  | s_chunk_size_start | s_chunk_size | s_chunk_parameters | s_chunk_size_almost_done | s_chunk_data
  | s_chunk_data_almost_done | s_chunk_data_done => True
  | _ => False end ->
  safe (x_pos x) (rank (x_state x)) (step settings lenient data x ch).
Proof.
  intros Hinv Hlt Hch Hst. pose proof (unhex_range ch Hch) as Hx. unfold step.
  assert (ULLONG_MAX = 2 ^ 64 - 1) as Hmax by done.
  destruct (x_state x) eqn:Es; try done; clear Hst; open_state x Hinv Es.
  - destruct Hstate as [Hc Hn]. unfold step_chunk_size_start, chunked. simpl. rewrite Hc, Hn. simpl.
    destruct (Z.eqb_spec (unhex ch) (-1)); [leaf|]. simpl. split; [|simpl; lia]. fields.
    constructor; simpl; try done; [lia|]. split; [done|lia].
  - destruct Hstate as [Hc Hn]. unfold step_chunk_size, chunked. simpl. rewrite Hc. simpl.
    destruct (ch =? CR); [leaf|]. destruct (Z.eqb_spec (unhex ch) (-1)); [destruct (_ || _); leaf|].
    destruct (Z.ltb_spec ((ULLONG_MAX - 16) / 16) (hp_content_length P)) as [|Hle]; [leaf|].
    change ((ULLONG_MAX - 16) / 16) with (2 ^ 60 - 2) in Hle.
    rewrite (uwrap_small 64 (hp_content_length P * 16)) by lia. rewrite uwrap_small by lia.
    simpl. split; [|simpl; lia]. fields. constructor; simpl; try done; [lia|]. split; [done|lia].
  - destruct Hstate as [Hc Hn]. unfold step_chunk_parameters, chunked. simpl. rewrite Hc. simpl.
    destruct (ch =? CR); leaf.
  - destruct Hstate as [Hc Hn]. unfold step_chunk_size_almost_done, chunked. simpl. rewrite Hc. simpl.
    destruct (negb _); [leaf|]. simpl. destruct (Z.eqb_spec (hp_content_length P) 0).
    + notify. leaf.
    + apply callback_notify_safe; simpl; [done|apply Hset|lia|by constructor|done|]. intros st' a'. leaf.
  - destruct Hstate as (Hc & Hc0 & Hc1). unfold step_chunk_data, chunked, body_pending. simpl. rewrite Hc.
    destruct (Z.eqb_spec (hp_content_length P) 0); [lia|].
    destruct (Z.eqb_spec (hp_content_length P) ULLONG_MAX); [lia|]. cbn [negb andb assert_].
    destruct (to_read_bound (mkCtx P s_chunk_data p None None None None None a)) as (T1 & T2 & T3);
      simpl; [lia|lia|]. unfold consume_body. set (k := to_read _ _) in *. clearbody k. simpl in *.
    assert (u64 (hp_content_length P - k) = hp_content_length P - k) as Hu by (apply uwrap_small; lia).
    rewrite Hu.
    destruct (Z.eqb_spec (hp_content_length P - k) 0) as [E|E]; simpl; (split; [|simpl; lia]).
    + constructor; simpl; try done; [lia|constructor; simpl; rewrite ?Hu; try done; lia|]. split; [lia|]. by left.
    + constructor; simpl; try done; [lia| |].
      * constructor; simpl; rewrite ?Hu; try done; [lia|]. split_and!; [done|lia|lia].
      * split; [lia|]. right. split; [lia|done].
  - destruct Hstate as [Hc Hn]. unfold step_chunk_data_almost_done, chunked. simpl. rewrite Hc, Hn. simpl.
    destruct (negb _); [leaf|]. data_call. leaf.
  - destruct Hstate as [Hc Hn]. unfold step_chunk_data_almost_done, chunked. simpl. rewrite Hc, Hn. simpl.
    destruct (negb _); [leaf|]. data_call. leaf.
  - unfold step_chunk_data_done, chunked. simpl. rewrite Hstate. simpl.
    destruct (negb _); [leaf|]. notify. leaf.
Qed.

(** *** The loop *)

Lemma step_safe x ch : linv 1 x -> rd data (x_pos x) = Some ch -> is_byte ch ->
  safe (x_pos x) (rank (x_state x)) (step settings lenient data x ch).
Proof.
  intros Hinv Hrd Hch. pose proof (rd_Some_lt _ _ _ Hrd) as [_ Hlt].
  destruct (x_state x) eqn:Es; rewrite <- Es;
    first [ apply safe_start; [done|done|by rewrite Es]
          | apply safe_status_line; [done|done|done|by rewrite Es]
          | apply safe_request_line; [done|done|by rewrite Es]
          | apply safe_header_field; [done|done|done|by auto]
          | apply safe_header_value; done
          | apply safe_headers; [done|done|by rewrite Es]
          | apply safe_headers_almost_done; done
          | apply safe_headers_done; done
          | apply safe_body; [done|done|by rewrite Es]
          | apply safe_chunks; [done|done|done|by rewrite Es] ].
Qed.

Lemma safe_later p0 p rk r : p0 <= p -> safe p rk r -> safe p0 rk r.
Proof. intros Hp. destruct r as [[]|]; simpl; try done; intuition lia. Qed.

Context (Hbytes : is_bytes data).

(** With no re-execution left the step has moved on, returned or failed. *)
Lemma exec_byte_safe fuel : forall x, linv 1 x -> x_pos x < lenZ data -> (rank (x_state x) < fuel)%nat ->
  safe (x_pos x) 0 (exec_byte settings lenient data fuel x).
Proof.
  induction fuel as [|fuel IH]; intros x Hinv Hlt Hr; [lia|]. cbn [exec_byte].
  destruct (rd_is_Some data (x_pos x)) as [ch Hch]; [destruct Hinv; lia|]. rewrite Hch. cbn [mbind option_bind].
  pose proof (step_safe x ch Hinv Hch (rd_bytes _ _ _ Hbytes Hch)) as Hs.
  destruct (step _ _ _ x ch) as [[x'|x'|n P a|x']|]; cbn [mbind option_bind]; try done.
  destruct Hs as (Hinv' & [Hp Hlt'] & Hr'). eapply safe_later; [|apply (IH x')]; [done..|lia].
Qed.

Lemma linv_count x nr : linv 0 x -> PARSING_HEADER (x_state x) = true -> 0 <= nr <= HTTP_MAX_HEADER_SIZE ->
  nr = hp_nread (x_parser x) + 1 -> linv 1 (with_parser (set_nread nr) x).
Proof.
  intros [He Hp [I1 I2 I3 I4 I5] M1 M2 M3 M4 M5] Hh Hnr ->. constructor; try done.
  constructor; try done. simpl. destruct (x_state x); simpl in *; intuition lia.
Qed.

Lemma linv_body x : linv 0 x -> PARSING_HEADER (x_state x) = false -> linv 1 x.
Proof.
  intros [He Hp [I1 I2 I3 I4 I5] M1 M2 M3 M4 M5] Hh. constructor; try done.
  constructor; try done. by destruct (x_state x).
Qed.

Lemma rank_bound s : (rank s < 8)%nat.
Proof. destruct s; simpl; lia. Qed.

Lemma exec_iter_safe x : linv 0 x -> x_pos x < lenZ data ->
  safe (x_pos x) 0 (exec_iter settings lenient data x).
Proof.
  intros Hinv Hlt. unfold exec_iter. destruct (PARSING_HEADER _) eqn:Eh.
  2:{ apply exec_byte_safe; [by apply linv_body|done|apply rank_bound]. }
  pose proof (li_parser _ _ Hinv) as [_ Hn _ _ _].
  apply count_header_size_safe; [destruct Hinv; lia|lia|lia|]. intros nr H1 H2.
  apply (exec_byte_safe 8 (with_parser (set_nread nr) x)); [by apply linv_count|done|apply rank_bound].
Qed.

(** At most one mark is left at the end of the input. *)
Lemma count_marks_le x : linv 0 x -> count_marks x <= 1.
Proof.
  intros [_ _ _ M1 M2 M3 M4 M5]. unfold count_marks.
  destruct (x_header_field x), (x_header_value x), (x_url x), (x_body x), (x_status x);
    simpl in *; try lia; exfalso; intuition; destruct (x_state x); simpl in *; congruence.
Qed.

Lemma exec_end_safe x : linv 0 x -> x_pos x = lenZ data -> safe (x_pos x) 0 (exec_end settings data x).
Proof.
  intros Hinv Hp. pose proof (count_marks_le x Hinv) as Hc. unfold exec_end.
  destruct (Z.leb_spec (count_marks x) 1); [|lia]. clear Hc.
  assert (forall o here, mark_in o (x_pos x) here -> match o with Some a => 0 <= a <= x_pos x | None => True end)
    as Hm by (intros [m|] here Hin; [by destruct Hin|done]).
  pose proof (lenZ_nonneg data).
  destruct Hinv as [He _ Hpi M1 M2 M3 M4 M5]. apply Hm in M1, M2, M3, M4, M5.
  destruct x as [P s p hf hv u b st a]. simpl in *. subst p.
  do 5 (apply callback_data_safe; simpl;
    [done|lia|done|lia|repeat apply parser_inv_sync; done|intros ? ?; simpl]).
  split_and!; try lia. intros _. unfold parser_ok. simpl. by repeat apply parser_inv_sync.
Qed.

(** What a call promises. *)
Definition call_ok (r : option (Z * http_parser * A)) : Prop :=
  exists n P a, r = Some (n, P, a) /\ 0 <= n <= lenZ data /\ post P /\
    (hp_errno P = HPE_OK -> n = lenZ data \/ hp_upgrade P = true).

Lemma outcome_ok p r : safe p 0 r -> (forall x, r <> Some (Next x)) ->
  call_ok (r ← r; outcome r).
Proof.
  intros Hs Hn. destruct r as [[x|x|n P a|x]|]; simpl in *; try done.
  - by destruct (Hn x).
  - lia.
  - by exists n, P, a.
  - destruct Hs as (H1 & H2 & H3). unfold call_ok. rewrite decide_False by done.
    eexists _, _, _. split; [done|]. split; [done|]. simpl.
    split; [|done]. intros [H|H]; simpl in H; done.
Qed.

Lemma exec_loop_safe fuel : forall x, linv 0 x -> lenZ data - x_pos x <= Z.of_nat fuel ->
  call_ok (exec_loop settings lenient data fuel x).
Proof.
  induction fuel as [|fuel IH]; intros x Hinv Hf; cbn [exec_loop];
    (destruct (Z.eqb_spec (x_pos x) (lenZ data)) as [E|E];
      [|assert (x_pos x < lenZ data) as Hlt by (destruct Hinv; lia)]).
  1, 3: pose proof (exec_end_safe x Hinv E) as Hs; apply (outcome_ok (x_pos x)); [exact Hs|];
    intros y Hy; rewrite Hy in Hs; destruct Hs as [[_ Hy' _] Hs]; simpl in Hy'; lia.
  - lia.
  - pose proof (exec_iter_safe x Hinv Hlt) as Hs.
    destruct (exec_iter settings lenient data x) as [[y|y|n P a|y]|] eqn:Ei; cbn [mbind option_bind]; try done.
    + destruct Hs as [Hy Hp]. apply IH; [done|]. simpl. lia.
    + destruct Hs as (_ & _ & Hs). lia.
    + by apply (outcome_ok (x_pos x) (Some (Ret n P a))).
    + by apply (outcome_ok (x_pos x) (Some (Err y))).
Qed.

(** Every state but the ones a mark is pending in starts without marks. *)
Lemma initial_ctx_linv P a : parser_ok P -> hp_errno P = HPE_OK -> linv 0 (initial_ctx P a).
Proof.
  intros HP He. pose proof (lenZ_nonneg data). unfold initial_ctx.
  constructor; simpl; try done; try lia.
  - by destruct (hp_state P).
  - by destruct (hp_state P).
  - by destruct (hp_state P).
  - by destruct (hp_state P).
Qed.
End Safety.

Lemma http_parser_execute_empty {A} (settings : http_parser_settings A) P a :
  settings_ok settings -> parser_ok P -> hp_errno P = HPE_OK ->
  exists n P' a', http_parser_execute settings [] P a = Some (n, P', a') /\ 0 <= n <= 1 /\ post P' /\
    (hp_errno P' = HPE_OK -> n = 0).
Proof.
  intros Hset HP He. unfold http_parser_execute. rewrite decide_True by done.
  assert (forall n, n = 0 -> exists n' P' a', Some (n, P, a) = Some (n', P', a') /\ 0 <= n' <= 1 /\ post P' /\
    (hp_errno P' = HPE_OK -> n' = 0)) as Hstay by (intros n ->; exists 0, P, a; split_and!; [done..|lia|by intros _|done]).
  destruct (hp_state P) eqn:Es; try (by apply Hstay);
    try (eexists _, _, _; split; [reflexivity|]; split; [lia|]; split; [by intros [H|H]|done]).
  unfold callback_notify. cbn [x_parser initial_ctx]. rewrite decide_True by done.
  destruct (on_message_complete settings) as [f|] eqn:Ef; [|by apply Hstay].
  pose proof (ok_message_complete _ Hset) as Hf. rewrite Ef in Hf.
  specialize (Hf (set_state (x_state (initial_ctx P a)) P) a). simpl in *. destruct (f _ a) as [[r P'] a'].
  destruct Hf as [e ->].
  assert (parser_ok (set_errno e (set_state (hp_state P) P))) as Hok
    by (by apply parser_inv_errno, parser_inv_sync).
  destruct (r =? 0).
  - destruct (decide _); simpl; eexists _, _, _; (split; [reflexivity|]; split; [lia|]; split; [by intros _|done]).
  - rewrite decide_False by done. simpl. eexists _, _, _. split; [reflexivity|]. split; [lia|].
    split; [|done]. by intros [H|H].
Qed.

(** ** Recording callbacks

    Callbacks that never fail and list what they are told, newest first. *)
Inductive Event :=
| E_message_begin
| E_url (b : list Z)
| E_status (b : list Z)
| E_header_field (b : list Z)
| E_header_value (b : list Z)
| E_headers_complete (m : http_method) (version : Z * Z)
| E_body (b : list Z)
| E_message_complete
| E_chunk_header (len : Z)
| E_chunk_complete.

Definition record (e : Event) : option (http_cb (list Event)) := Some (fun P l => (0, P, e :: l)).
Definition record_data (e : list Z -> Event) : option (http_data_cb (list Event)) :=
  Some (fun b P l => (0, P, e b :: l)).

(** Whether the callbacks of the chunks are set. *)
Class Chunks := chunks_told : bool.

Definition recording {told : Chunks} : http_parser_settings (list Event) :=
  mkSettings (record E_message_begin) (record_data E_url) (record_data E_status)
    (record_data E_header_field) (record_data E_header_value)
    (Some (fun P l => (0, P, E_headers_complete (hp_method P) (hp_http_major P, hp_http_minor P) :: l)))
    (record_data E_body) (record E_message_complete)
    (if chunks_told then Some (fun P l => (0, P, E_chunk_header (hp_content_length P) :: l)) else None)
    (if chunks_told then record E_chunk_complete else None).

Definition sample_request : list Z :=
  Eval cbv in (chars "GET /a HTTP/1.1" ++ [13; 10; 72; 58; 32; 118; 13; 10; 13; 10]).

Lemma recording_ok {told : Chunks} : settings_ok recording.
Proof.
  assert (forall P, P = set_errno (hp_errno P) P) as HP by (by intros []).
  constructor; simpl; try (destruct chunks_told; [|done]); repeat intros ?; eexists; apply HP.
Qed.

(** ** The theorems *)

Lemma http_parser_init_ok t : parser_ok (http_parser_init t).
Proof. constructor; simpl; try (split; lia || done). by destruct t. Qed.

(** C15: for any input and any callbacks that may only pause the parser or
    report failure, [http_parser_execute] returns: no assertion of the source
    fails, no byte outside the input and no character beyond a matched string
    is read.  It consumes at most its input (one for a premature end), leaves
    the parser in a state from which it can go on (or with an error), and when
    it reports no error it has consumed everything or stopped for an upgrade. *)
Theorem http_parser_execute_safe {A} (settings : http_parser_settings A) data P a :
  settings_ok settings -> parser_ok P -> is_bytes data -> lenZ data < 2 ^ 31 ->
  exists n P' a', http_parser_execute settings data P a = Some (n, P', a') /\
    0 <= n <= Z.max 1 (lenZ data) /\ post P' /\
    (hp_errno P' = HPE_OK -> n = lenZ data \/ hp_upgrade P' = true).
Proof.
  intros Hset HP Hb Hl. destruct (decide (hp_errno P = HPE_OK)) as [He|He].
  2:{ unfold http_parser_execute. rewrite decide_False by done. exists 0, P, a.
      split_and!; [done|lia|lia|by intros _|done]. }
  destruct data as [|b data].
  - destruct (http_parser_execute_empty settings P a Hset HP He) as (n & P' & a' & E & Hn & Hp & H0).
    exists n, P', a'. change (lenZ []) with 0. split_and!; [done|lia|lia|done|auto].
  - unfold http_parser_execute. rewrite decide_True by done.
    destruct (exec_loop_safe settings (hp_lenient P) (b :: data) Hset Hl Hb (length (b :: data))
      (initial_ctx P a)) as (n & P' & a' & E & Hn & Hp & H0);
      [by apply initial_ctx_linv|unfold lenZ; simpl; lia|].
    exists n, P', a'. split_and!; try done; lia.
Qed.

Lemma http_parser_execute_safe_witness :
  exists n P' a',
    http_parser_execute (recording (told := true)) sample_request (http_parser_init HTTP_REQUEST) [] = Some (n, P', a') /\
    0 <= n <= Z.max 1 (lenZ sample_request) /\ post P' /\
    (hp_errno P' = HPE_OK -> n = lenZ sample_request \/ hp_upgrade P' = true).
Proof.
  apply (http_parser_execute_safe (recording (told := true)) sample_request (http_parser_init HTTP_REQUEST) [] recording_ok
    (http_parser_init_ok HTTP_REQUEST)); [|vm_compute; reflexivity].
  repeat (apply Forall_cons; split; [done|]). by apply Forall_nil.
Defined.
