(* ===== verification/HttpRuns.v ===== *)
(** * The HTTP parser: runs over known input

    Composable runs of the loop of [http_parser_execute] with the recording
    callbacks, the names of the header fields and the numbers of the message:
    what the matching states and the digit loops compute. *)

From stdpp Require Import base list numbers strings.
From Stdlib Require Import ZArith Lia.
From S2P Require Import Prelude CText HttpModel HttpExec HttpSafety.
Local Open Scope Z_scope.

(** ** Input at a position *)

Lemma dropZ_cons {B} p (l : list B) c rest : dropZ p l = c :: rest -> 0 <= p ->
  rd l p = Some c /\ dropZ (p + 1) l = rest /\ p < lenZ l.
Proof.
  intros H Hp. assert (rd (dropZ p l) 0 = Some c) as Hrd by (by rewrite H).
  rewrite rd_dropZ, Z.add_0_r in Hrd by lia. split_and!; [done| |apply rd_Some_lt in Hrd; lia].
  rewrite <- dropZ_dropZ by lia. by rewrite H.
Qed.

Lemma dropZ_app_at {B} p (l m rest : list B) : dropZ p l = m ++ rest -> 0 <= p ->
  dropZ (p + lenZ m) l = rest.
Proof. intros H Hp. rewrite <- dropZ_dropZ by (unfold lenZ; lia). rewrite H. by apply dropZ_app_length. Qed.

Section Runs.
Context {told : Chunks} (lenient : bool) (data : list Z).
Notation ctx := (Ctx (list Event)).
Notation loop := (exec_loop recording lenient data).

(** The loop continues from one context as from another. *)
Definition runs (x y : ctx) : Prop :=
  forall fuel, lenZ data - x_pos x <= Z.of_nat fuel ->
  exists fuel', lenZ data - x_pos y <= Z.of_nat fuel' /\ loop fuel x = loop fuel' y.

Lemma runs_refl x : runs x x.
Proof. intros fuel H. by exists fuel. Qed.

Lemma runs_trans x y z : runs x y -> runs y z -> runs x z.
Proof.
  intros H1 H2 f Hf. destruct (H1 f Hf) as (f1 & Hf1 & E1). destruct (H2 f1 Hf1) as (f2 & Hf2 & E2).
  exists f2. by rewrite E1.
Qed.

Lemma runs_iter x y : 0 <= x_pos x < lenZ data -> exec_iter recording lenient data x = Some (Next y) ->
  x_pos x <= x_pos y -> runs x (at_pos (x_pos y + 1) y).
Proof.
  intros Hp E Hy [|f] Hf; [lia|]. exists f. split; [simpl; lia|]. cbn [exec_loop].
  destruct (Z.eqb_spec (x_pos x) (lenZ data)); [lia|]. by rewrite E.
Qed.

Lemma exec_byte_next n x ch y : rd data (x_pos x) = Some ch ->
  step recording lenient data x ch = Some (Next y) ->
  exec_byte recording lenient data (S n) x = Some (Next y).
Proof. intros H E. cbn [exec_byte]. rewrite H. cbn [mbind option_bind]. by rewrite E. Qed.

Lemma exec_byte_reexec n x ch y : rd data (x_pos x) = Some ch ->
  step recording lenient data x ch = Some (Reexec y) ->
  exec_byte recording lenient data (S n) x = exec_byte recording lenient data n y.
Proof. intros H E. cbn [exec_byte]. rewrite H. cbn [mbind option_bind]. by rewrite E. Qed.

Lemma exec_iter_header x : PARSING_HEADER (x_state x) = true ->
  0 <= hp_nread (x_parser x) < HTTP_MAX_HEADER_SIZE ->
  exec_iter recording lenient data x =
  exec_byte recording lenient data 8 (with_parser (set_nread (hp_nread (x_parser x) + 1)) x).
Proof.
  intros Hh Hn. assert (HTTP_MAX_HEADER_SIZE = 81920) as Hm by done.
  unfold exec_iter. rewrite Hh. unfold count_header_size. unfold with_parser at 1. cbn [x_parser hp_nread set_nread].
  rewrite uwrap_small by lia. destruct (Z.gtb_spec (hp_nread (x_parser x) + 1) HTTP_MAX_HEADER_SIZE); [lia|].
  unfold with_parser. cbn [x_parser x_state x_pos x_header_field x_header_value x_url x_body x_status x_app].
  by rewrite uwrap_small by lia.
Qed.

(** One header byte that moves on. *)
Lemma runs_header x ch rest y : 0 <= x_pos x -> dropZ (x_pos x) data = ch :: rest ->
  PARSING_HEADER (x_state x) = true -> 0 <= hp_nread (x_parser x) < HTTP_MAX_HEADER_SIZE ->
  step recording lenient data (with_parser (set_nread (hp_nread (x_parser x) + 1)) x) ch = Some (Next y) ->
  x_pos x <= x_pos y -> runs x (at_pos (x_pos y + 1) y).
Proof.
  intros Hp Hd Hh Hn Hs Hy. apply dropZ_cons in Hd as (Hrd & _ & Hlt); [|done].
  apply runs_iter; [lia| |done]. rewrite exec_iter_header by done. by apply (exec_byte_next _ _ ch).
Qed.

(** A byte outside the header. *)
Lemma runs_body x ch rest y : 0 <= x_pos x -> dropZ (x_pos x) data = ch :: rest ->
  PARSING_HEADER (x_state x) = false ->
  step recording lenient data x ch = Some (Next y) ->
  x_pos x <= x_pos y -> runs x (at_pos (x_pos y + 1) y).
Proof.
  intros Hp Hd Hh Hs Hy. apply dropZ_cons in Hd as (Hrd & _ & Hlt); [|done].
  apply runs_iter; [lia| |done]. unfold exec_iter. rewrite Hh. by apply (exec_byte_next _ _ ch).
Qed.
End Runs.

(** ** Header names *)

(** The names that matter, in lower case. *)
Definition special_names : list (list Z * header_states) :=
  [(chars "connection", h_connection); (chars "proxy-connection", h_connection);
   (chars "content-length", h_content_length); (chars "transfer-encoding", h_transfer_encoding);
   (chars "upgrade", h_upgrade)].

(** Looking a word up in a list of words. *)
Definition word_of {K} (L : list (list Z * K)) (w : list Z) : option K :=
  option_map snd (find (fun e => bool_decide (fst e = w)) L).

(** What a name means: the states of the four kinds of values. *)
Definition name_kind (name : list Z) : option header_states := word_of special_names (map tokens name).

(** The words that remain after a first letter. *)
Definition after (c : Z) {K} (L : list (list Z * K)) : list (list Z * K) :=
  omap (fun e => match fst e with b :: w => if c =? b then Some (w, snd e) else None | [] => None end) L.

Lemma word_of_after {K} c (L : list (list Z * K)) w : word_of (after c L) w = word_of L (c :: w).
Proof.
  unfold word_of, after. induction L as [|[[|b v] k] L IH]; cbn [omap list_omap find fst snd].
  - done.
  - rewrite bool_decide_eq_false_2 by done. exact IH.
  - destruct (Z.eqb_spec c b) as [->|Hne]; cbn [find fst].
    + destruct (decide (v = w)) as [->|Hv].
      * by rewrite !bool_decide_eq_true_2.
      * rewrite !bool_decide_eq_false_2 by congruence. exact IH.
    + rewrite bool_decide_eq_false_2 by congruence. exact IH.
Qed.

(** What can still complete a name in a matching state. *)
Definition completions (h : header_states) (i : Z) : list (list Z * header_states) :=
  let rest name hit := [(dropZ (i + 1) (chars name), hit)] in
  match h with
  | h_C | h_CO | h_CON => rest "connection" h_connection ++ rest "content-length" h_content_length
  | h_matching_connection => rest "connection" h_connection
  | h_matching_proxy_connection => rest "proxy-connection" h_connection
  | h_matching_content_length => rest "content-length" h_content_length
  | h_matching_transfer_encoding => rest "transfer-encoding" h_transfer_encoding
  | h_matching_upgrade => rest "upgrade" h_upgrade
  | h_connection | h_content_length | h_transfer_encoding | h_upgrade => [([], h)]
  | _ => []
  end.

(** The index of a matching state is the number of letters matched less one. *)
Definition name_index (h : header_states) (i : Z) : Prop :=
  let within name := 0 <= i < lenZ (chars name) - 1 in
  match h with
  | h_C => i = 0
  | h_CO => i = 1
  | h_CON => i = 2
  | h_matching_connection => within "connection"
  | h_matching_proxy_connection => within "proxy-connection"
  | h_matching_content_length => within "content-length"
  | h_matching_transfer_encoding => within "transfer-encoding"
  | h_matching_upgrade => within "upgrade"
  | _ => True
  end.

Lemma chars_length s : lenZ (chars s) = Z.of_nat (String.length s).
Proof. unfold lenZ, chars. rewrite length_map. induction s as [|c s IH]; [done|]. simpl. lia. Qed.

Lemma match_token_eq name hit miss h c P : 0 <= hp_index P < lenZ (chars name) - 1 -> lenZ (chars name) < 127 ->
  exists b, rd (chars name) (hp_index P + 1) = Some b /\
    match_token name hit miss h c P =
      Some (if c =? b then (if hp_index P + 2 =? lenZ (chars name) then hit else h) else miss, inc_index P) /\
    hp_index (inc_index P) = hp_index P + 1.
Proof.
  intros Hi Hn. destruct (rd_is_Some (chars name) (hp_index P + 1)) as [b Hb]; [lia|].
  assert (hp_index (inc_index P) = hp_index P + 1) as Hinc by (apply (uwrap_small 7); lia).
  exists b. split; [done|]. split; [|done]. unfold match_token. rewrite Hinc, <- chars_length.
  destruct (Z.gtb_spec (hp_index P + 1) (lenZ (chars name))); [lia|].
  unfold c_at. rewrite <- chars_length. destruct (Z.eqb_spec (hp_index P + 1) (lenZ (chars name))); [lia|].
  rewrite Hb. cbn [mbind option_bind]. destruct (c =? b); cbn [negb]; [|done].
  destruct (Z.eqb_spec (hp_index P + 1) (lenZ (chars name) - 1)), (Z.eqb_spec (hp_index P + 2) (lenZ (chars name)));
    done || lia.
Qed.

Lemma after_rest name hit i c b : rd (chars name) (i + 1) = Some b -> 0 <= i ->
  after c [(dropZ (i + 1) (chars name), hit : header_states)] =
  if c =? b then [(dropZ (i + 2) (chars name), hit)] else [].
Proof.
  intros Hb Hi. unfold after. cbn [omap list_omap fst snd].
  assert (dropZ (i + 1) (chars name) = b :: dropZ (i + 2) (chars name)) as ->.
  { unfold rd in Hb. destruct (Z.ltb_spec (i + 1) 0); [done|]. unfold dropZ.
    replace (Z.to_nat (i + 2)) with (S (Z.to_nat (i + 1))) by lia. by apply drop_S. }
  by destruct (c =? b).
Qed.

(** One letter of a name. *)
Definition name_step (P P' : http_parser) : Prop := exists h i, P' = set_header_state h (set_index i P).

Lemma name_step_trans P Q R : name_step P Q -> name_step Q R -> name_step P R.
Proof. intros (h & i & ->) (h' & i' & ->). by exists h', i'. Qed.

Lemma after_app {K} c (L M : list (list Z * K)) : after c (L ++ M) = after c L ++ after c M.
Proof. apply omap_app. Qed.

(** The states before the second word is ruled out, at index [i]. *)
Ltac con_state i j b1 b2 :=
  match goal with Hi : hp_index ?P = i, Hst : forall h, name_step ?P _ |- _ =>
    assert (hp_index (inc_index P) = j) as Hinc by (unfold inc_index; simpl; rewrite Hi; reflexivity);
    eexists; (split; [reflexivity|]); (split; [apply Hst|]);
    cbn [hp_header_state set_header_state];
    change (hp_index (set_header_state ?x ?Q)) with (hp_index Q); rewrite Hinc, Hi;
    rewrite after_app, (after_rest "connection" _ i _ b1 eq_refl ltac:(lia)),
      (after_rest "content-length" _ i _ b2 eq_refl ltac:(lia));
    change (chr "o") with 111; change (chr "n") with 110; change (chr "t") with 116;
    repeat (match goal with |- context [?c =? ?k] => destruct (Z.eqb_spec c k) as [->|] end); try done
  end.

Lemma header_field_char_completions ch P : TOKEN ch <> 0 -> name_state (hp_header_state P) = true ->
  name_index (hp_header_state P) (hp_index P) ->
  exists P', header_field_char ch (TOKEN ch) P = Some P' /\ name_step P P' /\
    name_state (hp_header_state P') = true /\ name_index (hp_header_state P') (hp_index P') /\
    completions (hp_header_state P') (hp_index P') = after (TOKEN ch) (completions (hp_header_state P) (hp_index P)).
Proof.
  intros Ht Hs Hi. set (c := TOKEN ch) in *. unfold header_field_char.
  assert (ch =? SP = false) as Hsp.
  { apply Z.eqb_neq. intros ->. by apply Ht. }
  assert (forall h, name_step P (set_header_state h (inc_index P))) as Hst
    by (intros h; by exists h, (hp_index (inc_index P))).
  assert (forall h, name_step P (set_header_state h P)) as Hst0
    by (intros h; exists h, (hp_index P); by destruct P).
  clearbody c. destruct (hp_header_state P) eqn:Eh; try done; cbn [name_index completions] in *;
  try (match goal with |- context [match_token ?name ?hit ?miss ?h ?d ?Q] =>
    destruct (match_token_eq name hit miss h d Q Hi ltac:(vm_compute; reflexivity)) as (b & Hb & -> & Hinc);
    cbn [mbind option_bind]; eexists; (split; [reflexivity|]); (split; [apply Hst|]);
    cbn [hp_header_state set_header_state hp_index set_index];
    change (hp_index (set_header_state ?x ?Q)) with (hp_index Q); rewrite Hinc;
    rewrite (after_rest _ _ _ d b Hb (proj1 Hi));
    destruct (d =? b); [destruct (Z.eqb_spec (hp_index P + 2) (lenZ (chars name))) as [E|E]|];
    cbn [name_index completions];
    [ split; [done|]; split; [done|]; rewrite E; reflexivity
    | split; [done|]; split; [lia|]; by replace (hp_index P + 1 + 1) with (hp_index P + 2) by lia
    | done ] end);
  try (eexists; split; [reflexivity|]; rewrite ?Hsp; by rewrite ?Eh).
  - exists P. split; [done|]. split; [exists h_general, (hp_index P); by destruct P; simpl in *; subst|]. by rewrite Eh.
  - con_state 0 1 111 111. - con_state 1 2 110 110. - con_state 2 3 110 116.
  all: rewrite Hsp; eexists; (split; [reflexivity|]); by (split; [apply Hst0|]).
Qed.

Definition is_token (c : Z) : Prop := TOKEN c <> 0.

Lemma header_field_loop_name name : forall P p ch rest, Forall is_token name -> TOKEN ch = 0 ->
  name_state (hp_header_state P) = true -> name_index (hp_header_state P) (hp_index P) ->
  exists P', header_field_loop (name ++ ch :: rest) P p = Some (P', p + lenZ name) /\ name_step P P' /\
    name_state (hp_header_state P') = true /\ name_index (hp_header_state P') (hp_index P') /\
    forall w, word_of (completions (hp_header_state P') (hp_index P')) w =
              word_of (completions (hp_header_state P) (hp_index P)) (map tokens name ++ w).
Proof.
  induction name as [|c name IH]; intros P p ch rest Hf Hch Hs Hi; cbn [app header_field_loop].
  - rewrite (proj2 (Z.eqb_eq _ _) Hch). exists P. rewrite lenZ_nil, Z.add_0_r.
    split_and!; try done. exists (hp_header_state P), (hp_index P). by destruct P.
  - apply Forall_cons in Hf as [Hc Hf]. rewrite (proj2 (Z.eqb_neq _ _) Hc).
    destruct (header_field_char_completions c P Hc Hs Hi) as (P1 & -> & Hst & Hs1 & Hi1 & Hw).
    cbn [mbind option_bind].
    destruct (IH P1 (p + 1) ch rest Hf Hch Hs1 Hi1) as (P2 & -> & Hst2 & Hs2 & Hi2 & Hw2).
    exists P2. rewrite lenZ_cons. split_and!; try done; [f_equal; f_equal; lia|by eapply name_step_trans|].
    intros w. rewrite Hw2, Hw, word_of_after. done.
Qed.

(** The kind of value a finished name announces. *)
Definition value_kind (h : header_states) : option header_states :=
  match h with
  | h_connection | h_content_length | h_transfer_encoding | h_upgrade => Some h
  | _ => None
  end.

Lemma completions_nil h i : name_state h = true -> name_index h i ->
  word_of (completions h i) [] = value_kind h.
Proof.
  assert (forall name (k : header_states), 0 <= i < lenZ (chars name) - 1 ->
    word_of [(dropZ (i + 1) (chars name), k)] [] = None) as Hrest.
  { intros name k Hi. unfold word_of. cbn [find fst]. rewrite bool_decide_eq_false_2; [done|].
    intros E. assert (lenZ (dropZ (i + 1) (chars name)) = 0) as H0 by (by rewrite E).
    rewrite lenZ_dropZ in H0. lia. }
  intros Hs Hi. destruct h; try done; cbn [name_index completions value_kind] in *; try by apply Hrest.
  all: by subst i.
Qed.

(** The first letter. *)
Lemma first_letter c : is_token c ->
  exists h, (forall A (x : Ctx A), step_header_field_start x c =
      Some (Next (with_parser (fun P => set_header_state h (set_index 0 P))
                   (goto s_header_field (MARK M_header_field x))))) /\
    name_state h = true /\ name_index h 0 /\
    forall w, word_of (completions h 0) w = word_of special_names (tokens c :: w).
Proof.
  intros Hc. unfold step_header_field_start.
  assert (ch_cr : c =? CR = false) by (apply Z.eqb_neq; intros ->; by apply Hc).
  assert (ch_lf : c =? LF = false) by (apply Z.eqb_neq; intros ->; by apply Hc).
  rewrite ch_cr, ch_lf, (proj2 (Z.eqb_neq _ _) Hc). cbv zeta. unfold TOKEN. clear ch_cr ch_lf Hc.
  eexists. split; [intros A x; reflexivity|].
  change (chr "c") with 99. change (chr "p") with 112. change (chr "t") with 116. change (chr "u") with 117.
  assert (forall w, word_of special_names (tokens c :: w) = word_of (after (tokens c) special_names) w) as Hw
    by (intros w; by rewrite word_of_after).
  generalize dependent (tokens c). intros t Hw. setoid_rewrite Hw. clear Hw.
  destruct (Z.eqb_spec t 99) as [->|]; [done|]. destruct (Z.eqb_spec t 112) as [->|]; [done|].
  destruct (Z.eqb_spec t 116) as [->|]; [done|]. destruct (Z.eqb_spec t 117) as [->|]; [done|].
  split; [done|]. split; [done|]. intros w. f_equal.
  let L := eval vm_compute in special_names in change special_names with L.
  unfold after. cbn [completions omap list_omap fst snd].
  repeat (match goal with |- context [t =? ?k] => destruct (Z.eqb_spec t k); [done|] end). done.
Qed.

(** A name read from its first letter to the byte that ends it. *)
Lemma name_read c name ch rest : is_token c -> Forall is_token name -> TOKEN ch = 0 ->
  exists h, (forall A (x : Ctx A), step_header_field_start x c =
      Some (Next (with_parser (fun P => set_header_state h (set_index 0 P))
                   (goto s_header_field (MARK M_header_field x))))) /\
    forall Q p, exists P',
      header_field_loop (name ++ ch :: rest) (set_header_state h (set_index 0 Q)) p = Some (P', p + lenZ name) /\
      name_step Q P' /\ name_state (hp_header_state P') = true /\
      value_kind (hp_header_state P') = name_kind (c :: name).
Proof.
  intros Hc Hf Hch. destruct (first_letter c Hc) as (h & E & Hs & Hi & Hw). exists h. split; [done|]. intros Q p.
  destruct (header_field_loop_name name (set_header_state h (set_index 0 Q)) p ch rest Hf Hch Hs Hi)
    as (P' & E' & Hst & Hs' & Hi' & Hw').
  exists P'. split_and!; try done.
  rewrite <- (completions_nil _ _ Hs' Hi'), Hw', app_nil_r, Hw. done.
Qed.

(** ** Numbers *)

Definition is_num (c : Z) : Prop := IS_NUM c = true.

(** The value of a decimal number that continues [v]. *)
Definition dec_value (v : Z) (ds : list Z) : Z := fold_left (fun a d => a * 10 + (d - 48)) ds v.

(** The largest Content-Length the parser takes. *)
Definition content_length_max : Z := (ULLONG_MAX - 10) / 10 * 10 + 9.

Lemma dec_value_mono ds : forall v, Forall is_num ds -> 0 <= v -> v <= dec_value v ds.
Proof.
  induction ds as [|d ds IH]; intros v Hf Hv; cbn [dec_value fold_left]; [lia|].
  apply Forall_cons in Hf as [Hd Hf]. apply IS_NUM_range in Hd. change (chr "0") with 48 in Hd.
  specialize (IH (v * 10 + (d - 48)) Hf ltac:(lia)). unfold dec_value in *. lia.
Qed.

Lemma is_num_ends d : is_num d -> (d =? CR = false) /\ (d =? LF = false) /\ (d =? SP = false) /\ IS_HEADER_CHAR d = true.
Proof.
  intros Hd%IS_NUM_range. change (chr "0") with 48 in Hd. unfold IS_HEADER_CHAR, CR, LF, SP.
  repeat (rewrite (proj2 (Z.eqb_neq _ _)) by lia). split_and!; try done.
  destruct (Z.gtb_spec d 31); [done|lia].
Qed.

Lemma content_length_loop lenient data ds : forall fuel P p rest,
  0 <= p -> dropZ p data = ds ++ CR :: rest -> Forall is_num ds -> lenZ data - p <= Z.of_nat fuel ->
  0 <= hp_content_length P <= content_length_max ->
  (dec_value (hp_content_length P) ds <= content_length_max ->
   header_value_loop lenient data fuel h_content_length_num P p =
     Some (VE_cr h_content_length_num (set_content_length (dec_value (hp_content_length P) ds) P) (p + lenZ ds))) /\
  (content_length_max < dec_value (hp_content_length P) ds ->
   exists P' p', header_value_loop lenient data fuel h_content_length_num P p =
     Some (VE_err HPE_INVALID_CONTENT_LENGTH P' p') /\ p <= p' < p + lenZ ds).
Proof.
  change content_length_max with 18446744073709551609.
  induction ds as [|d ds IH]; intros fuel P p rest Hp Hd Hf Hfuel Hv.
  - apply dropZ_cons in Hd as (Hrd & _ & Hlt); [|done]. cbn [dec_value fold_left]. split; [|lia]. intros _.
    destruct fuel as [|fuel]; [lia|]. cbn [header_value_loop].
    destruct (Z.eqb_spec p (lenZ data)); [lia|]. rewrite Hrd. cbn [mbind option_bind].
    change (CR =? CR) with true. cbv iota. rewrite lenZ_nil, Z.add_0_r. by destruct P.
  - apply Forall_cons in Hf as [Hnum Hf]. apply dropZ_cons in Hd as (Hrd & Hd & Hlt); [|done].
    pose proof (is_num_ends d Hnum) as (E1 & E2 & E3 & E4).
    pose proof (IS_NUM_range d Hnum) as Hr. change (chr "0") with 48 in Hr.
    destruct fuel as [|fuel]; [lia|]. cbn [header_value_loop].
    destruct (Z.eqb_spec p (lenZ data)); [lia|]. rewrite Hrd. cbn [mbind option_bind].
    rewrite E1, E2, E4, andb_false_r. cbn [header_value_char]. unfold content_length_char.
    rewrite E3, Hnum. cbn [negb mbind option_bind]. change ((ULLONG_MAX - 10) / 10) with 1844674407370955160.
    change (chr "0") with 48. rewrite lenZ_cons. pose proof (lenZ_nonneg ds).
    change (dec_value ?v (d :: ds)) with (dec_value (v * 10 + (d - 48)) ds).
    pose proof (dec_value_mono ds (hp_content_length P * 10 + (d - 48)) Hf ltac:(lia)) as Hm.
    destruct (Z.ltb_spec 1844674407370955160 (hp_content_length P)) as [Hbig|Hsmall].
    + split; [intros Hle; lia|]. intros _. eexists _, _. split; [reflexivity|lia].
    + rewrite (uwrap_small 64 (hp_content_length P * 10)) by lia. rewrite uwrap_small by lia.
      destruct (IH fuel (set_content_length (hp_content_length P * 10 + (d - 48)) P) (p + 1) rest)
        as [I1 I2]; [lia|done|done|lia|simpl; lia|].
      simpl in I1, I2. split.
      * intros Hle. rewrite (I1 Hle). do 2 f_equal. lia.
      * intros Hgt. destruct (I2 Hgt) as (P' & p' & -> & Hp'). exists P', p'. split; [done|lia].
Qed.

(** ** Values nothing depends on *)

Lemma memchr_first c v rest : Forall (fun b => b <> c) v -> memchr c (v ++ c :: rest) = Some (lenZ v).
Proof.
  induction 1 as [|b v Hb _ IH]; cbn [app memchr].
  - by rewrite Z.eqb_refl.
  - rewrite (proj2 (Z.eqb_neq _ _)) by done. rewrite IH, lenZ_cons. cbn [option_map]. f_equal. lia.
Qed.

Lemma memchr_after c v rest i : Forall (fun b => b <> c) v -> memchr c (v ++ rest) = Some i -> lenZ v <= i.
Proof.
  intros Hv Hm. apply memchr_bound in Hm as [Hi Hr]. destruct (Z.le_gt_cases (lenZ v) i) as [|Hlt]; [done|].
  rewrite rd_app_l in Hr by done. exfalso. unfold rd in Hr. destruct (i <? 0); [done|].
  apply list_elem_of_lookup_2 in Hr. rewrite Forall_forall in Hv. by apply (Hv c).
Qed.

Lemma skip_general_value v rest : Forall (fun b => b <> CR /\ b <> LF) v -> lenZ v < HTTP_MAX_HEADER_SIZE ->
  skip_general (v ++ CR :: rest) = lenZ v.
Proof.
  intros Hv Hlen. unfold skip_general. set (n := Z.min _ _).
  assert (lenZ v + 1 <= n) as Hn.
  { unfold n. rewrite lenZ_app, lenZ_cons. pose proof (lenZ_nonneg rest). lia. }
  assert (takeZ n (v ++ CR :: rest) = v ++ CR :: takeZ (n - lenZ v - 1) rest) as ->.
  { unfold takeZ, lenZ in *. rewrite take_app_ge by lia. f_equal.
    replace (Z.to_nat n - length v)%nat with (S (Z.to_nat (n - Z.of_nat (length v) - 1))) by lia. done. }
  clear Hn. clearbody n.
  rewrite memchr_first by (eapply Forall_impl; [exact Hv|by intros b [? ?]]).
  destruct (memchr LF _) as [j|] eqn:Ej; [|done].
  apply memchr_after in Ej; [|eapply Forall_impl; [exact Hv|by intros b [? ?]]].
  destruct (Z.geb_spec (lenZ v) j); lia.
Qed.

(** The bytes of a value. *)
Definition value_byte (c : Z) : Prop := c <> CR /\ c <> LF /\ IS_HEADER_CHAR c = true.

Lemma general_loop lenient data fuel v P p rest : 0 <= p -> dropZ p data = v ++ CR :: rest ->
  Forall value_byte v -> lenZ v < HTTP_MAX_HEADER_SIZE -> (2 <= fuel)%nat ->
  header_value_loop lenient data fuel h_general P p = Some (VE_cr h_general P (p + lenZ v)).
Proof.
  intros Hp Hd Hv Hlen Hf.
  pose proof (dropZ_cons _ _ _ _ (dropZ_app_at _ _ _ _ Hd Hp) ltac:(unfold lenZ; lia)) as (Hcr & _ & Hlt).
  destruct fuel as [|[|fuel]]; [lia..|].
  assert (forall n, header_value_loop lenient data (S n) h_general P (p + lenZ v) =
    Some (VE_cr h_general P (p + lenZ v))) as Hend.
  { intros n. cbn [header_value_loop]. destruct (Z.eqb_spec (p + lenZ v) (lenZ data)); [lia|].
    rewrite Hcr. cbn [mbind option_bind]. by rewrite Z.eqb_refl. }
  destruct v as [|c v]; [change (lenZ []) with 0 in *; rewrite Z.add_0_r in *; apply Hend|].
  pose proof (dropZ_cons _ _ _ _ Hd Hp) as (Hrd & _ & Hlt').
  pose proof Hv as Hv'. apply Forall_cons in Hv' as [(Hc1 & Hc2 & Hc3) _].
  cbn [header_value_loop]. destruct (Z.eqb_spec p (lenZ data)); [lia|]. rewrite Hrd. cbn [mbind option_bind].
  rewrite !(proj2 (Z.eqb_neq c _)) by done. rewrite Hc3, andb_false_r.
  rewrite Hd, skip_general_value; [apply Hend| |done].
  eapply Forall_impl; [exact Hv|]. by intros b (? & ? & _).
Qed.

(** ** The theorems *)

(** The matching automaton recognises header names exactly: after the
    first letter and the rest of a name, the state announces a special value
    precisely when the name, in lower case, is one of [connection],
    [proxy-connection], [content-length], [transfer-encoding] and [upgrade],
    and nothing but the matching state of the parser has changed. *)
Theorem header_name_recognised c name ch rest :
  is_token c -> Forall is_token name -> TOKEN ch = 0 ->
  exists h, (forall A (x : Ctx A), step_header_field_start x c =
      Some (Next (with_parser (fun P => set_header_state h (set_index 0 P))
                   (goto s_header_field (MARK M_header_field x))))) /\
    forall P p, exists P',
      header_field_loop (name ++ ch :: rest) (set_header_state h (set_index 0 P)) p = Some (P', p + lenZ name) /\
      name_step P P' /\
      value_kind (hp_header_state P') =
        (let lower := map tokens (c :: name) in
         if decide (lower = chars "connection") then Some h_connection
         else if decide (lower = chars "proxy-connection") then Some h_connection
         else if decide (lower = chars "content-length") then Some h_content_length
         else if decide (lower = chars "transfer-encoding") then Some h_transfer_encoding
         else if decide (lower = chars "upgrade") then Some h_upgrade
         else None).
Proof.
  intros Hc Hf Hch. destruct (name_read c name ch rest Hc Hf Hch) as (h & Hs & Hr). exists h. split; [done|].
  intros P p. destruct (Hr P p) as (P' & E & Hst & _ & Hk). exists P'. split; [done|]. split; [done|].
  rewrite Hk. unfold name_kind, word_of, special_names. cbn zeta. generalize (map tokens (c :: name)).
  intros w. cbn [find fst]. repeat (case_bool_decide; case_decide; try congruence; try done).
Qed.

Lemma header_name_recognised_witness :
  let name := [111; 110; 84; 69; 110; 116; 45; 108; 101; 78; 71; 116; 104] in   (* onTEnt-leNGth *)
  exists h, (forall A (x : Ctx A), step_header_field_start x 67 =
      Some (Next (with_parser (fun P => set_header_state h (set_index 0 P))
                   (goto s_header_field (MARK M_header_field x))))) /\
    exists P', header_field_loop (name ++ [58]) (set_header_state h (set_index 0 (http_parser_init HTTP_REQUEST))) 1 =
      Some (P', 14) /\ value_kind (hp_header_state P') = Some h_content_length.
Proof.
  intros name. destruct (header_name_recognised 67 name 58 []) as (h & Hs & Hr);
    [done|repeat (apply Forall_cons; split; [done|]); by apply Forall_nil|done|].
  exists h. split; [exact Hs|]. destruct (Hr (http_parser_init HTTP_REQUEST) 1) as (P' & E & _ & Hk).
  exists P'. split; [exact E|]. rewrite Hk. vm_compute. reflexivity.
Defined.

(** A Content-Length is read exactly or refused: digits up to the end of
    the line give their decimal value, without wrapping around, up to
    18446744073709551609; any larger number, whatever its length, is an
    [HPE_INVALID_CONTENT_LENGTH] error; a second Content-Length field is
    refused at its first digit. *)
Theorem content_length_exact lenient data P p d ds rest :
  0 <= p -> hp_header_state P = h_content_length -> dropZ p data = d :: ds ++ CR :: rest ->
  Forall is_num (d :: ds) ->
  (has_flag F_CONTENTLENGTH P = true ->
   header_value_first d (LOWER d) P = inl HPE_UNEXPECTED_CONTENT_LENGTH) /\
  (has_flag F_CONTENTLENGTH P = false ->
   exists P1, header_value_first d (LOWER d) P = inr P1 /\ hp_header_state P1 = h_content_length_num /\
     (dec_value 0 (d :: ds) <= 18446744073709551609 ->
      header_value_loop lenient data (length data) h_content_length_num P1 (p + 1) =
        Some (VE_cr h_content_length_num (set_content_length (dec_value 0 (d :: ds)) P1) (p + 1 + lenZ ds))) /\
     (18446744073709551609 < dec_value 0 (d :: ds) -> exists P2 p2,
      header_value_loop lenient data (length data) h_content_length_num P1 (p + 1) =
        Some (VE_err HPE_INVALID_CONTENT_LENGTH P2 p2))).
Proof.
  intros Hp Hh Hd Hf. apply Forall_cons in Hf as [Hd0 Hds]. pose proof (IS_NUM_range d Hd0) as Hr.
  change (chr "0") with 48 in Hr. pose proof (dropZ_cons _ _ _ _ Hd Hp) as (_ & Hd1 & Hlt).
  unfold header_value_first. rewrite Hh, Hd0. cbn [negb]. split; intros Hfl; rewrite Hfl; [done|].
  eexists. split; [reflexivity|]. split; [reflexivity|]. change (chr "0") with 48.
  match goal with |- context [header_value_loop _ _ _ _ ?Q _] => set (P1 := Q) end.
  destruct (content_length_loop lenient data ds (length data) P1 (p + 1) rest) as [C1 C2];
    [lia|done|done|unfold lenZ in *; lia|simpl; change content_length_max with 18446744073709551609; lia|].
  change (hp_content_length P1) with (d - 48) in C1, C2.
  change (dec_value (d - 48) ds) with (dec_value 0 (d :: ds)) in C1, C2.
  split; [exact C1|]. intros Hgt. destruct (C2 Hgt) as (P2 & p2 & E & _). eauto.
Qed.

Lemma content_length_exact_witness :
  let P := set_header_state h_content_length (http_parser_init HTTP_REQUEST) in
  exists P1, header_value_first 52 (LOWER 52) P = inr P1 /\ hp_header_state P1 = h_content_length_num /\
    header_value_loop false [52; 50; 13; 10] 4 h_content_length_num P1 1 =
      Some (VE_cr h_content_length_num (set_content_length 42 P1) 2).
Proof.
  intros P. destruct (content_length_exact false [52; 50; 13; 10] P 0 52 [50] [10]) as [_ H];
    [lia|done|done|repeat (apply Forall_cons; split; [done|]); by apply Forall_nil|].
  destruct (H eq_refl) as (P1 & E & Hh & Hv & _). exists P1. split; [exact E|]. split; [exact Hh|].
  exact (Hv ltac:(vm_compute; discriminate)).
Defined.
