(* ===== verification/HttpRequest.v ===== *)
(** * The HTTP parser: requests

    A printed request, run through [http_parser_execute] with the recording
    callbacks: the events it reports are the request's parts, and a pipeline
    of requests reports them one after the other. *)

From stdpp Require Import base list numbers strings.
From Stdlib Require Import ZArith Lia.
From S2P Require Import Prelude CText HttpModel HttpExec HttpSafety HttpRuns.
Local Open Scope Z_scope.

(** ** Callbacks that record *)

Lemma notify_record e er ret x k : hp_errno (x_parser x) = HPE_OK ->
  callback_notify (record e) er ret x k = k (sync (x_state x) (e :: x_app x) x).
Proof.
  intros He. unfold callback_notify. rewrite decide_True by done. simpl. by rewrite decide_True.
Qed.

Definition data_event (m : Mark) : list Z -> Event :=
  match m with
  | M_header_field => E_header_field | M_header_value => E_header_value | M_url => E_url
  | M_body => E_body | M_status => E_status
  end.

Lemma data_record {told : Chunks} data m start stop ret bytes rest x k : hp_errno (x_parser x) = HPE_OK ->
  mark_of m x = Some start -> 0 <= start -> dropZ start data = bytes ++ rest -> stop = start + lenZ bytes ->
  stop <= lenZ data ->
  callback_data recording data m stop ret x k =
  k (set_mark m None (sync (x_state x) (data_event m bytes :: x_app x) x)).
Proof.
  intros He Hm H0 Hd -> Hle. unfold callback_data. rewrite decide_True by done. rewrite Hm.
  pose proof (lenZ_nonneg bytes).
  assert (between data start (start + lenZ bytes) = Some bytes) as Hb.
  { unfold between. destruct (Z.leb_spec 0 start); [|lia]. destruct (Z.leb_spec start (start + lenZ bytes)); [|lia].
    destruct (Z.leb_spec (start + lenZ bytes) (lenZ data)); [|lia]. cbn [andb]. f_equal.
    rewrite Hd. apply takeZ_app_length. lia. }
  destruct m; simpl in *; rewrite Hb; cbn [mbind option_bind]; rewrite decide_True by done; done.
Qed.

(** ** Methods *)

(** The matching of a method, one byte. *)
Definition method_next (mi : http_method * Z) (ch : Z) : option (http_method * Z) :=
  let '(m, i) := mi in
  if ch =? 0 then None
  else
    c ← c_at (http_method_str m) i;
    if (ch =? SP) && (c =? 0) then None
    else if ch =? c then Some (m, uwrap 7 (i + 1))
    else if in_range (chr "A") (chr "Z") ch || (ch =? chr "-")
         then m' ← method_switch m i ch; Some (m', uwrap 7 (i + 1))
         else None.

Fixpoint method_run (mi : http_method * Z) (l : list Z) : option (http_method * Z) :=
  match l with
  | [] => Some mi
  | ch :: l' => mi' ← method_next mi ch; method_run mi' l'
  end.

(** Every method is recognised from its name. *)
Definition method_recognised (m : http_method) : Prop :=
  match chars (http_method_str m) with
  | c :: l =>
      IS_ALPHA c = true /\
      match method_first c with
      | Some m0 => method_run (m0, 1) l = Some (m, method_len m)
      | None => False
      end
  | [] => False
  end.

Lemma methods_recognised m : method_recognised m.
Proof. destruct m; vm_compute; done. Qed.

(** *** URLs: a path with an optional query *)

Definition url_text (c : Z) : Prop := IS_URL_CHAR c = true \/ c = 63.
Definition origin_form (url : list Z) : Prop := exists tail, url = 47 :: tail /\ Forall url_text tail.

Definition path_state (s : state) : bool :=
  match s with s_req_path | s_req_query_string_start | s_req_query_string => true | _ => false end.

Lemma url_text_range c : url_text c -> 33 <= c <= 126.
Proof.
  intros [H| ->]; [|lia]. unfold IS_URL_CHAR, in_range in H. bool_to_prop. lia.
Qed.

Lemma path_next s c : path_state s = true -> url_text c -> path_state (parse_url_char s c) = true.
Proof.
  intros Hs Hc. pose proof (url_text_range c Hc) as Hr. unfold parse_url_char.
  rewrite !(proj2 (Z.eqb_neq c _)) by (unfold SP, CR, LF, HT; lia). cbn [orb].
  destruct Hc as [Hc| ->]; destruct s; try done; cbv zeta; by rewrite Hc.
Qed.

(** The parser inside a header that started at [base]. *)
Definition version (P : http_parser) : Z * Z := (hp_http_major P, hp_http_minor P).

Record in_header (ver : Z * Z -> Prop) (base p : Z) (m : http_method) (cl fl : Z) (P : http_parser) : Prop := {
  ih_type : hp_type P = HTTP_REQUEST;
  ih_errno : hp_errno P = HPE_OK;
  ih_nread : hp_nread P = p - base;
  ih_method : hp_method P = m;
  ih_length : hp_content_length P = cl;
  ih_flags : hp_flags P = fl;
  ih_version : ver (version P);
}.

Section Request.
Context {told : Chunks} (lenient : bool) (data : list Z).
Notation ctx := (Ctx (list Event)).
Notation go := (runs lenient data).
Notation step' := (step recording lenient data).

(** A context without marks. *)
Definition plain (P : http_parser) (s : state) (p : Z) (ev : list Event) : ctx :=
  mkCtx P s p None None None None None ev.

Context (base hend : Z) (Hbase : 0 <= base) (Hend : hend - base <= HTTP_MAX_HEADER_SIZE).

Lemma in_header_nread {ver} base' p m cl fl P : in_header ver base' p m cl fl P ->
  in_header ver base' (p + 1) m cl fl (set_nread (p - base' + 1) P).
Proof. intros [T1 T2 T3 T4 T5 T6 T7]. constructor; simpl; try done. lia. Qed.

(** A header byte at [p], the byte already counted. *)
Lemma header_byte {ver} m cl fl P s p hf hv u ev ch rest P1 s1 p1 hf1 hv1 u1 ev1 :
  0 <= p -> base <= p < hend -> dropZ p data = ch :: rest -> in_header ver base p m cl fl P ->
  PARSING_HEADER s = true ->
  step' (mkCtx (set_nread (p - base + 1) P) s p hf hv u None None ev) ch =
    Some (Next (mkCtx P1 s1 p1 hf1 hv1 u1 None None ev1)) ->
  p <= p1 ->
  go (mkCtx P s p hf hv u None None ev) (mkCtx P1 s1 (p1 + 1) hf1 hv1 u1 None None ev1).
Proof.
  intros Hp Hb Hd HP Hs Hy Hpos. assert (HTTP_MAX_HEADER_SIZE = 81920) as Hm by done.
  destruct HP as [T1 T2 T3 T4 T5 T6 T7].
  apply (runs_header lenient data _ ch rest (mkCtx P1 s1 p1 hf1 hv1 u1 None None ev1)); simpl; try done;
    rewrite ?T3; [lia|done].
Qed.

(** Bytes that only move the state on. *)
Definition same_message (f : Z * Z -> Z * Z) (P P' : http_parser) : Prop :=
  hp_type P' = hp_type P /\ hp_errno P' = hp_errno P /\ hp_nread P' = hp_nread P /\
  hp_method P' = hp_method P /\ hp_content_length P' = hp_content_length P /\ hp_flags P' = hp_flags P /\
  version P' = f (version P).

Definition moves (s : state) (ch : Z) (f : Z * Z -> Z * Z) (s' : state) : Prop :=
  PARSING_HEADER s = true /\
  forall P p ev, exists P', step' (plain P s p ev) ch = Some (Next (plain P' s' p ev)) /\ same_message f P P'.

Inductive moves_through : state -> list Z -> (Z * Z -> Z * Z) -> state -> Prop :=
| moves_nil s : moves_through s [] id s
| moves_cons s c f s' l g s'' : moves s c f s' -> moves_through s' l g s'' ->
    moves_through s (c :: l) (g ∘ f) s''.

Lemma moves_runs s l g s' : moves_through s l g s' -> forall P p ev rest m cl fl,
  0 <= p -> base <= p -> dropZ p data = l ++ rest -> p + lenZ l <= hend ->
  in_header (fun _ => True) base p m cl fl P ->
  exists P', go (plain P s p ev) (plain P' s' (p + lenZ l) ev) /\
    in_header (fun v => v = g (version P)) base (p + lenZ l) m cl fl P'.
Proof.
  induction 1 as [s|s c f s' l g s'' [Hs Hc] _ IH]; intros P p ev rest m cl fl Hp Hb Hd Hh HP.
  - exists P. rewrite lenZ_nil, Z.add_0_r. split; [apply runs_refl|]. by destruct HP; constructor.
  - rewrite lenZ_cons in *. pose proof (lenZ_nonneg l). cbn [app] in Hd.
    destruct (Hc (set_nread (p - base + 1) P) p ev) as (P1 & Es & Hsame).
    pose proof (dropZ_cons _ _ _ _ Hd Hp) as (_ & Hd' & _).
    assert (in_header (fun _ => True) base (p + 1) m cl fl P1) as H1.
    { destruct HP as [T1 T2 T3 T4 T5 T6 T7], Hsame as (E1 & E2 & E3 & E4 & E5 & E6 & E7).
      constructor; simpl in *; try congruence; by try lia. }
    destruct (IH P1 (p + 1) ev rest m cl fl) as (P' & G & HP'); [lia|lia|done|lia|done|].
    assert (version P1 = f (version P)) as Ev by apply Hsame. rewrite Ev in HP'.
    exists P'. replace (p + (1 + lenZ l)) with (p + 1 + lenZ l) by lia. split; [|done].
    eapply runs_trans; [|exact G].
    by eapply (header_byte m cl fl P s p None None None ev c); first [done|lia].
Qed.

Ltac advance f :=
  eapply (moves_cons _ _ f); [split; [done|intros P p ev; eexists; split; [reflexivity|by repeat split]]|].

Lemma version_moves : exists g, moves_through s_req_http_start (chars "HTTP/1.1" ++ [CR; LF]) g s_header_field_start /\
  forall v, g v = (1, 1).
Proof.
  eexists. split.
  - cbn. do 5 advance (@id (prod Z Z)). advance (fun v : prod Z Z => (1, snd v)). advance (@id (prod Z Z)).
    advance (fun v : prod Z Z => (fst v, 1)). do 2 advance (@id (prod Z Z)). constructor.
  - done.
Qed.

Context (ver : Z * Z -> Prop).
Notation in_hdr := (in_header ver).

Lemma same_in_header (ver' : Z * Z -> Prop) f b p m cl fl P P' : same_message f P P' ->
  (forall v, ver v -> ver' (f v)) -> in_hdr b p m cl fl P -> in_header ver' b p m cl fl P'.
Proof.
  intros (E1 & E2 & E3 & E4 & E5 & E6 & E7) Hv [T1 T2 T3 T4 T5 T6 T7].
  constructor; try congruence. rewrite E7. auto.
Qed.



Lemma method_loop l : forall P p ev rest m i m' i',
  0 <= p -> base <= p -> dropZ p data = l ++ rest -> p + lenZ l <= hend ->
  in_hdr base p m ULLONG_MAX 0 P -> hp_index P = i -> method_run (m, i) l = Some (m', i') ->
  exists P', go (plain P s_req_method p ev) (plain P' s_req_method (p + lenZ l) ev) /\
    in_hdr base (p + lenZ l) m' ULLONG_MAX 0 P' /\ hp_index P' = i'.
Proof.
  assert (HTTP_MAX_HEADER_SIZE = 81920) as Hm by done.
  induction l as [|ch l IH]; intros P p ev rest m i m' i' Hp Hb Hd Hh HP Hi Hr.
  - simpl in Hr. injection Hr as <- <-. exists P. rewrite lenZ_nil, Z.add_0_r.
    split; [apply runs_refl|done].
  - rewrite lenZ_cons in Hh. pose proof (lenZ_nonneg l).
    cbn [method_run] in Hr. destruct (method_next (m, i) ch) as [[m1 i1]|] eqn:En; [|done].
    cbn [mbind option_bind] in Hr. cbn [app] in Hd.
    destruct HP as [T1 T2 T3 T4 T5 T6 T7].
    assert (exists P1, step' (plain (set_nread (p - base + 1) P) s_req_method p ev) ch =
      Some (Next (plain P1 s_req_method p ev)) /\ in_hdr base (p + 1) m1 ULLONG_MAX 0 P1 /\ hp_index P1 = i1)
      as (P1 & Es & HP1 & Hi1).
    { unfold step, step_req_method. cbn [x_state plain x_parser].
      change (hp_method (set_nread (p - base + 1) P)) with (hp_method P).
      change (hp_index (set_nread (p - base + 1) P)) with (hp_index P).
      unfold method_next in En. rewrite T4, Hi. destruct (ch =? 0); [done|].
      destruct (c_at _ _) as [c|]; cbn [mbind option_bind] in *; [|done].
      destruct (_ && _); [done|]. destruct (ch =? c).
      - injection En as <- <-. eexists. split; [reflexivity|]. split; [|simpl; by rewrite Hi].
        constructor; simpl; try done; lia.
      - destruct (_ || _); [|done]. destruct (method_switch m i ch) as [m2|]; [|done]. injection En as <- <-.
        eexists. split; [reflexivity|]. split; [|simpl; by rewrite Hi].
        constructor; simpl; try done; lia. }
    pose proof (dropZ_cons _ _ _ _ Hd Hp) as (_ & Hd' & _).
    destruct (IH P1 (p + 1) ev rest m1 i1 m' i') as (P' & G & HP' & Hi'); [lia|lia|done|lia|done|done|done|].
    exists P'. rewrite lenZ_cons. replace (p + (1 + lenZ l)) with (p + 1 + lenZ l) by lia. split; [|done].
    eapply runs_trans; [|exact G].
    apply (runs_header lenient data (plain P s_req_method p ev) ch (l ++ rest) (plain P1 s_req_method p ev));
      simpl; try done; try lia. by rewrite T3.
Qed.

(** A context inside the URL. *)
Definition in_url (P : http_parser) (s : state) (u p : Z) (ev : list Event) : ctx :=
  mkCtx P s p None None (Some u) None None ev.

Lemma path_loop l : forall P s u p ev rest m, 0 <= p -> base <= p -> dropZ p data = l ++ rest ->
  p + lenZ l <= hend -> Forall url_text l -> path_state s = true -> in_hdr base p m ULLONG_MAX 0 P ->
  exists P' s', go (in_url P s u p ev) (in_url P' s' u (p + lenZ l) ev) /\ path_state s' = true /\
    in_hdr base (p + lenZ l) m ULLONG_MAX 0 P'.
Proof.
  induction l as [|c l IH]; intros P s u p ev rest m Hp Hb Hd Hh Hf Hs HP.
  - exists P, s. rewrite lenZ_nil, Z.add_0_r. split; [apply runs_refl|done].
  - rewrite lenZ_cons in *. pose proof (lenZ_nonneg l). apply Forall_cons in Hf as [Hc Hf]. cbn [app] in Hd.
    pose proof (path_next s c Hs Hc) as Hs'. pose proof (url_text_range c Hc) as Hr.
    assert (step' (in_url (set_nread (p - base + 1) P) s u p ev) c =
      Some (Next (in_url (set_nread (p - base + 1) P) (parse_url_char s c) u p ev))) as Es.
    { assert (step' (in_url (set_nread (p - base + 1) P) s u p ev) c =
        step_req_url recording data (in_url (set_nread (p - base + 1) P) s u p ev) c) as -> by (by destruct s).
      unfold step_req_url. rewrite !(proj2 (Z.eqb_neq c _)) by (unfold SP, CR, LF; lia). cbn [orb].
      unfold url_char. cbn [x_state in_url goto]. rewrite decide_False; [done|]. intros E. by rewrite E in Hs'. }
    pose proof (dropZ_cons _ _ _ _ Hd Hp) as (_ & Hd' & _).
    destruct (IH (set_nread (p - base + 1) P) (parse_url_char s c) u (p + 1) ev rest m) as (P' & s' & G & H1 & H2);
      [lia|lia|done|lia|done|done|by apply in_header_nread|].
    exists P', s'. replace (p + (1 + lenZ l)) with (p + 1 + lenZ l) by lia. split; [|done].
    eapply runs_trans; [|exact G]. eapply (header_byte m ULLONG_MAX 0 P s p None None (Some u) ev c); first [done|lia|by destruct s].
Qed.

(** The steps of the request line that change the message. *)
Lemma start_step P p ev c m0 : IS_ALPHA c = true -> method_first c = Some m0 -> hp_errno P = HPE_OK ->
  exists P1, step' (plain P s_start_req p ev) c = Some (Next (plain P1 s_req_method p (E_message_begin :: ev))) /\
    hp_type P1 = hp_type P /\ hp_errno P1 = HPE_OK /\ hp_nread P1 = hp_nread P /\ hp_method P1 = m0 /\
    hp_content_length P1 = ULLONG_MAX /\ hp_flags P1 = 0 /\ hp_index P1 = 1.
Proof.
  intros Ha Hf He. unfold step, step_start_req. cbn [x_state plain].
  destruct (_ || _) eqn:Ec.
  { exfalso. apply orb_true_iff in Ec as [Ec|Ec]; apply Z.eqb_eq in Ec as ->; done. }
  rewrite Ha. cbn [negb]. rewrite Hf. unfold notify_begin. rewrite (notify_record E_message_begin) by done.
  eexists. split; [reflexivity|]. by repeat split.
Qed.

Lemma method_end_step P p ev q m cl fl : in_hdr base q m cl fl P -> hp_index P = method_len m ->
  exists P1, step' (plain P s_req_method p ev) SP = Some (Next (plain P1 s_req_spaces_before_url p ev)) /\
    same_message id P P1.
Proof.
  intros [T1 T2 T3 T4 T5 T6 T7] Hi. unfold step, step_req_method. cbn [x_state plain x_parser].
  change (SP =? 0) with false. cbv iota. rewrite T4, Hi. unfold c_at, method_len. rewrite (Z.eqb_refl (Z.of_nat _)).
  cbn [mbind option_bind]. eexists. split; [reflexivity|]. by repeat split.
Qed.

Lemma url_start_step P p ev q m cl fl : in_hdr base q m cl fl P -> m <> HTTP_CONNECT ->
  step' (plain P s_req_spaces_before_url p ev) 47 = Some (Next (in_url P s_req_path p p ev)).
Proof.
  intros [T1 T2 T3 T4 T5 T6 T7] Hm. unfold step, step_req_spaces_before_url. cbn [x_state plain].
  change (47 =? SP) with false. cbv iota zeta. rewrite decide_False; [reflexivity|]. simpl. congruence.
Qed.

Lemma url_end_step P s u p ev url rest : hp_errno P = HPE_OK -> path_state s = true -> 0 <= u ->
  dropZ u data = url ++ rest -> p = u + lenZ url -> p <= lenZ data ->
  exists P1, step' (in_url P s u p ev) SP = Some (Next (plain P1 s_req_http_start p (E_url url :: ev))) /\
    same_message id P P1.
Proof.
  intros He Hs Hu Hd Hp Hle.
  assert (step' (in_url P s u p ev) SP = step_req_url recording data (in_url P s u p ev) SP) as -> by (by destruct s).
  unfold step_req_url. change (SP =? SP) with true. cbv iota.
  rewrite (data_record data M_url u p _ url rest) by done. eexists. split; [reflexivity|]. by repeat split.
Qed.

(** The request line. *)
Definition request_line (m : http_method) (url : list Z) : list Z :=
  chars (http_method_str m) ++ [SP] ++ url ++ [SP] ++ chars "HTTP/1.1" ++ [CR; LF].

Lemma request_line_runs m url P ev rest : dropZ base data = request_line m url ++ rest ->
  base + lenZ (request_line m url) <= hend -> m <> HTTP_CONNECT -> origin_form url ->
  (forall v, ver v) -> hp_type P = HTTP_REQUEST -> hp_errno P = HPE_OK -> hp_nread P = 0 ->
  exists P', go (plain P s_start_req base ev)
      (plain P' s_header_field_start (base + lenZ (request_line m url)) (E_url url :: E_message_begin :: ev)) /\
    in_header (eq (1, 1)) base (base + lenZ (request_line m url)) m ULLONG_MAX 0 P'.
Proof.
  unfold request_line. pose proof (methods_recognised m) as Hm. unfold method_recognised in Hm.
  pose proof (chars_length (http_method_str m)) as Hml. fold (method_len m) in Hml.
  destruct (chars (http_method_str m)) as [|c l] eqn:Em; [done|]. destruct Hm as [Ha Hm].
  destruct (method_first c) as [m0|] eqn:Ef; [|done].
  intros Hd Hlen Hne (tail & -> & Htail) Hv Ht He Hn.
  assert (HTTP_MAX_HEADER_SIZE = 81920) as Hmax by done.
  rewrite !lenZ_app, !lenZ_cons, !lenZ_nil in Hlen. pose proof (lenZ_nonneg l). pose proof (lenZ_nonneg tail).
  rewrite lenZ_cons in Hml.
  change (lenZ (chars "HTTP/1.1")) with 8 in Hlen.
  rewrite <- !app_assoc in Hd. cbn [app] in Hd.
  pose proof (dropZ_cons _ _ _ _ Hd Hbase) as (_ & Hd1 & _).
  pose proof (dropZ_app_at _ _ _ _ Hd1 ltac:(lia)) as Hd2.
  pose proof (dropZ_cons _ _ _ _ Hd2 ltac:(lia)) as (_ & Hd3 & _).
  pose proof (dropZ_cons _ _ _ _ Hd3 ltac:(lia)) as (_ & Hd4 & _).
  pose proof (dropZ_app_at _ _ _ _ Hd4 ltac:(lia)) as Hd5.
  pose proof (dropZ_cons _ _ _ _ Hd5 ltac:(lia)) as (_ & Hd6 & Hlt).
  set (p1 := base + 1 + lenZ l) in *. set (p2 := p1 + 1 + 1 + lenZ tail) in *.
  (* the method *)
  destruct (start_step (set_nread (base - base + 1) P) base ev c m0 Ha Ef He) as (P1 & S1 & A1 & A2 & A3 & A4 & A5 & A6 & A7).
  assert (in_hdr base base (hp_method P) (hp_content_length P) (hp_flags P) P) as HB by (constructor; first [done|lia|apply Hv]).
  assert (in_hdr base (base + 1) m0 ULLONG_MAX 0 P1) as H1 by (constructor; simpl in *; first [congruence|lia|apply Hv]).
  destruct (method_loop l P1 (base + 1) (E_message_begin :: ev) _ m0 1 m (method_len m)
    ltac:(lia) ltac:(lia) Hd1 ltac:(lia) H1 A7 Hm) as (P2 & G2 & H2 & I2). fold p1 in G2, H2.
  destruct (method_end_step (set_nread (p1 - base + 1) P2) p1 (E_message_begin :: ev) (p1 + 1) m ULLONG_MAX 0) as (P3 & S3 & E3);
    [exact (in_header_nread _ _ _ _ _ _ H2)|done|].
  pose proof (same_in_header ver id _ _ _ _ _ _ _ E3 (fun v H => H) (in_header_nread _ _ _ _ _ _ H2)) as H3.
  (* the URL *)
  pose proof (url_start_step (set_nread (p1 + 1 - base + 1) P3) (p1 + 1) (E_message_begin :: ev) _ m ULLONG_MAX 0
    (in_header_nread _ _ _ _ _ _ H3) Hne) as S4.
  pose proof (in_header_nread _ _ _ _ _ _ H3) as H4.
  destruct (path_loop tail _ s_req_path (p1 + 1) (p1 + 1 + 1) (E_message_begin :: ev) _ m
    ltac:(lia) ltac:(lia) Hd4 ltac:(lia) Htail eq_refl H4) as (P5 & s5 & G5 & Hs5 & H5). fold p2 in G5, H5.
  destruct (url_end_step (set_nread (p2 - base + 1) P5) s5 (p1 + 1) p2 (E_message_begin :: ev) (47 :: tail) _
    (ih_errno _ _ _ _ _ _ _ H5) Hs5 ltac:(lia) Hd3 ltac:(rewrite lenZ_cons; lia) ltac:(lia)) as (P6 & S6 & E6).
  pose proof (same_in_header (fun _ => True) id _ _ _ _ _ _ _ E6 (fun v _ => I) (in_header_nread _ _ _ _ _ _ H5)) as H6.
  (* the version *)
  destruct version_moves as (g & Hg & Eg).
  destruct (moves_runs _ _ _ _ Hg P6 (p2 + 1) (E_url (47 :: tail) :: E_message_begin :: ev) rest m ULLONG_MAX 0)
    as (P7 & G7 & H7); [lia|lia|done|change (lenZ (chars "HTTP/1.1" ++ [CR; LF])) with 10; lia|done|].
  change (lenZ (chars "HTTP/1.1" ++ [CR; LF])) with 10 in G7, H7.
  assert (in_header (eq (1, 1)) base (p2 + 1 + 10) m ULLONG_MAX 0 P7) as H8
    by (destruct H7; constructor; try done; congruence).
  exists P7. replace (base + lenZ _) with (p2 + 1 + 10);
    [|rewrite !lenZ_app, !lenZ_cons, !lenZ_nil; change (lenZ (chars "HTTP/1.1")) with 8; lia].
  split; [|done].
  eapply runs_trans; [eapply (header_byte _ _ _ P s_start_req base None None None ev c); first [exact HB|exact S1|exact Hd|done|lia]|].
  eapply runs_trans; [exact G2|].
  eapply runs_trans; [eapply (header_byte _ _ _ P2 s_req_method p1 None None None _ SP); first [exact H2|exact S3|exact Hd2|done|lia]|].
  eapply runs_trans; [eapply (header_byte _ _ _ P3 s_req_spaces_before_url (p1 + 1) None None None _ 47); first [exact H3|exact S4|exact Hd3|done|lia]|].
  eapply runs_trans; [exact G5|].
  eapply runs_trans; [eapply (header_byte _ _ _ P5 s5 p2 None None (Some (p1 + 1)) _ SP); first [exact H5|exact S6|exact Hd5|by destruct s5|done|lia]|].
  exact G7.
Qed.

(** *** Header fields *)

(** Where a field may start: after the request line or after a field whose
    value sets no flag. *)
Definition at_field (P : http_parser) (s : state) : Prop :=
  s = s_header_field_start \/ (s = s_header_value_lws /\ header_flag P = P).

Lemma field_byte P s p ev ch rest m cl fl P1 s1 hf :
  at_field P s -> 0 <= p -> base <= p < hend -> dropZ p data = ch :: rest -> in_hdr base p m cl fl P ->
  ch <> SP -> ch <> HT ->
  step_header_field_start (plain (set_nread (p - base + 1) P) s_header_field_start p ev) ch =
    Some (Next (mkCtx P1 s1 p hf None None None None ev)) ->
  go (plain P s p ev) (mkCtx P1 s1 (p + 1) hf None None None None ev).
Proof.
  intros Hs Hp Hb Hd HP Hsp Hht Hst. assert (HTTP_MAX_HEADER_SIZE = 81920) as Hm by done.
  destruct Hs as [-> | [-> Hfl]]; [by eapply (header_byte m cl fl P s_header_field_start p None None None ev ch); first [done|lia]|].
  destruct HP as [T1 T2 T3 T4 T5 T6 T7]. pose proof (dropZ_cons _ _ _ _ Hd Hp) as (Hrd & _ & Hlt).
  apply (runs_iter lenient data (plain P s_header_value_lws p ev) (mkCtx P1 s1 p hf None None None None ev));
    cbn [x_pos plain]; [lia| |lia].
  rewrite exec_iter_header by (cbn [x_parser x_state plain]; rewrite ?T3; done || lia).
  cbn [x_parser plain]. rewrite T3. 
  rewrite (exec_byte_reexec lenient data 7 _ ch (plain (set_nread (p - base + 1) P) s_header_field_start p ev)).
  - apply (exec_byte_next _ _ 6 _ ch); [|exact Hst]. exact Hrd.
  - exact Hrd.
  - unfold step, step_header_value_lws. cbn [x_state with_parser plain].
    rewrite !(proj2 (Z.eqb_neq ch _)) by done. cbn [orb]. unfold reexecute. do 2 f_equal.
    unfold goto, with_parser, plain. simpl. f_equal.
    assert (header_flag (set_nread (p - base + 1) P) = set_nread (p - base + 1) (header_flag P)) as ->; [|by rewrite Hfl].
    unfold header_flag, add_connection_flag. by destruct P as [? ? ? []].
Qed.

(** The rest of a name and the colon. *)
Lemma name_end P p q ev name rest m cl fl P' : 0 <= q -> base <= q -> in_hdr base p m cl fl P ->
  dropZ q data = name ++ chr ":" :: rest -> q + lenZ name < hend -> q < p <= q + lenZ name ->
  header_field_loop (dropZ p data) (set_nread (p - base + 1) P) p = Some (P', q + lenZ name) ->
  name_step (set_nread (p - base + 1) P) P' ->
  exists P1, go (mkCtx P s_header_field p (Some q) None None None None ev)
     (plain P1 s_header_value_discard_ws (q + lenZ name + 1) (E_header_field name :: ev)) /\
    in_hdr base (q + lenZ name + 1) m cl fl P1 /\ hp_header_state P1 = hp_header_state P'.
Proof.
  intros Hq Hb [T1 T2 T3 T4 T5 T6 T7] Hd Hh Hp E (h & i & ->).
  assert (HTTP_MAX_HEADER_SIZE = 81920) as Hm by done. set (e := q + lenZ name) in *.
  pose proof (dropZ_cons _ _ _ _ (dropZ_app_at _ _ _ _ Hd Hq) ltac:(unfold lenZ; lia)) as (Hrd & _ & Hlt). fold e in Hrd, Hlt.
  assert (rd data p = rd data p /\ exists ch, rd data p = Some ch) as [_ [ch Hch]].
  { split; [done|]. apply rd_is_Some. lia. }
  eexists. split.
  - eapply (runs_iter lenient data (mkCtx P s_header_field p (Some q) None None None None ev)
      (plain _ s_header_value_discard_ws e (E_header_field name :: ev))); cbn [x_pos plain]; [lia| |lia].
    rewrite exec_iter_header by (cbn [x_parser x_state]; rewrite ?T3; done || lia).
    apply (exec_byte_next _ _ 7 _ ch); [exact Hch|].
    unfold step, step_header_field. cbn [x_state with_parser x_pos x_parser]. rewrite T3, E.
    cbn [mbind option_bind]. unfold count_header_size.
    cbn [with_parser at_pos x_parser hp_nread set_header_state set_index set_nread].
    rewrite (uwrap_small 32) by lia.
    destruct (Z.gtb_spec (p - base + 1 + (e - p)) HTTP_MAX_HEADER_SIZE); [lia|].
    destruct (Z.eqb_spec e (lenZ data)); [lia|]. rewrite Hrd. cbn [mbind option_bind].
    rewrite Z.eqb_refl. rewrite (data_record data M_header_field q e _ name (chr ":" :: rest)); first [done|lia|reflexivity].
  - split; [|reflexivity]. constructor; simpl; try done. rewrite uwrap_small by lia. lia.
Qed.

(** A value from its second byte to the end of its line. *)
Lemma value_end P p q ev v rest m cl fl h cl1 : 0 <= q -> base <= q -> in_hdr base p m cl fl P ->
  dropZ q data = v ++ CR :: LF :: rest -> q + lenZ v + 2 <= hend -> q < p <= q + lenZ v ->
  (forall Q, hp_content_length Q = cl ->
   header_value_loop lenient data (length data) (hp_header_state P) Q p =
     Some (VE_cr h (set_content_length cl1 Q) (q + lenZ v))) ->
  exists P1, go (mkCtx P s_header_value p None (Some q) None None None ev)
     (plain P1 s_header_value_lws (q + lenZ v + 2) (E_header_value v :: ev)) /\
    in_hdr base (q + lenZ v + 2) m cl1 fl P1 /\ hp_header_state P1 = h.
Proof.
  intros Hq Hb [T1 T2 T3 T4 T5 T6 T7] Hd Hh Hp Hl.
  assert (HTTP_MAX_HEADER_SIZE = 81920) as Hm by done. set (e := q + lenZ v) in *.
  pose proof (dropZ_cons _ _ _ _ (dropZ_app_at _ _ _ _ Hd Hq) ltac:(unfold lenZ; lia)) as (Hrd & Hd1 & Hlt).
  fold e in Hrd, Hlt, Hd1.
  destruct (rd_is_Some data p) as [ch Hch]; [lia|].
  assert (exists P1, go (mkCtx P s_header_value p None (Some q) None None None ev)
     (plain P1 s_header_almost_done (e + 1) (E_header_value v :: ev)) /\
    in_hdr base (e + 1) m cl1 fl P1 /\ hp_header_state P1 = h) as (P1 & G1 & H1 & Hh1).
  { eexists. split.
    - eapply (runs_iter lenient data (mkCtx P s_header_value p None (Some q) None None None ev)
        (plain _ s_header_almost_done e (E_header_value v :: ev))); cbn [x_pos plain]; [lia| |lia].
      rewrite exec_iter_header by (cbn [x_parser x_state]; rewrite ?T3; done || lia).
      apply (exec_byte_next _ _ 7 _ ch); [exact Hch|].
      unfold step, step_header_value. cbn [x_state with_parser x_pos x_parser].
      change (hp_header_state (set_nread ?n P)) with (hp_header_state P). rewrite Hl by done.
      cbn [mbind option_bind]. rewrite (data_record data M_header_value q e _ v (CR :: LF :: rest)) by first [done|lia].
      unfold count_header_size. cbn. rewrite T3, (uwrap_small 32) by lia.
      destruct (Z.gtb_spec (p - base + 1 + (e - p)) HTTP_MAX_HEADER_SIZE); [lia|]. reflexivity.
    - split; [|reflexivity]. constructor; simpl; try done. rewrite ?T3, uwrap_small by lia. lia. }
  exists (set_nread (e + 1 - base + 1) P1). split; [|split].
  - eapply runs_trans; [exact G1|]. replace (e + 2) with (e + 1 + 1) by lia.
    by eapply (header_byte m cl1 fl P1 s_header_almost_done (e + 1) None None None _ LF rest); first [done|lia].
  - replace (e + 2) with (e + 1 + 1) by lia. by apply in_header_nread.
  - done.
Qed.

(** A value from the space before it. *)
Lemma value_runs P p ev v0 v rest m cl fl h0 cl0 fl0 h cl1 :
  0 <= p -> base <= p -> in_hdr base p m cl fl P ->
  dropZ p data = SP :: (v0 :: v) ++ CR :: LF :: rest -> p + 1 + lenZ (v0 :: v) + 2 <= hend ->
  v0 <> SP -> v0 <> HT -> v0 <> CR -> v0 <> LF ->
  (forall Q, hp_header_state Q = hp_header_state P -> hp_flags Q = hp_flags P -> hp_content_length Q = hp_content_length P ->
     header_value_first v0 (LOWER v0) Q = inr (set_header_state h0 (set_content_length cl0 (set_flags fl0 Q)))) ->
  (forall Q, hp_content_length Q = cl0 ->
     header_value_loop lenient data (length data) h0 Q (p + 2) =
       Some (VE_cr h (set_content_length cl1 Q) (p + 1 + lenZ (v0 :: v)))) ->
  exists P1, go (plain P s_header_value_discard_ws p ev)
     (plain P1 s_header_value_lws (p + 1 + lenZ (v0 :: v) + 2) (E_header_value (v0 :: v) :: ev)) /\
    in_hdr base (p + 1 + lenZ (v0 :: v) + 2) m cl1 fl0 P1 /\ hp_header_state P1 = h.
Proof.
  intros Hp Hb HP Hd Hh N1 N2 N3 N4 Hf Hl. rewrite lenZ_cons in *. pose proof (lenZ_nonneg v).
  assert (HTTP_MAX_HEADER_SIZE = 81920) as Hm by done.
  pose proof (dropZ_cons _ _ _ _ Hd Hp) as (_ & Hd1 & _). cbn [app] in Hd1.
  pose proof (in_header_nread _ _ _ _ _ _ HP) as HP1.
  set (P1 := set_nread (p - base + 1) P) in *.
  set (P2 := set_header_state h0 (set_content_length cl0 (set_flags fl0 (set_index 0 (set_nread (p + 1 - base + 1) P1))))).
  assert (in_hdr base (p + 2) m cl0 fl0 P2) as H2.
  { destruct HP1. constructor; simpl; try done. lia. }
  destruct (value_end P2 (p + 2) (p + 1) (ev) (v0 :: v) rest m cl0 fl0 h cl1) as (P3 & G3 & H3 & Hs3);
    [lia|lia|done|done|rewrite lenZ_cons; lia|rewrite lenZ_cons; lia|rewrite lenZ_cons; exact Hl|].
  rewrite lenZ_cons in G3, H3. exists P3. split; [|done].
  eapply runs_trans; [eapply (header_byte _ _ _ P s_header_value_discard_ws p None None None ev SP);
    first [exact HP|exact Hd|reflexivity|done|lia]|].
  eapply runs_trans; [|exact G3].
  assert (step' (plain (set_nread (p + 1 - base + 1) P1) s_header_value_discard_ws (p + 1) ev) v0 =
    Some (Next (mkCtx P2 s_header_value (p + 1) None (Some (p + 1)) None None None ev))) as S2.
  { unfold step, step_header_value_discard_ws. cbn [x_state plain]. rewrite !(proj2 (Z.eqb_neq v0 _)) by done.
    cbn [orb]. unfold step_header_value_start. cbn [MARK mark_of plain set_mark goto with_parser x_parser x_header_value].
    rewrite Hf by done. reflexivity. }
  replace (p + 2) with (p + 1 + 1) by lia.
  eapply (header_byte _ _ _ P1 s_header_value_discard_ws (p + 1) None None None ev v0);
    first [exact HP1|exact Hd1|exact S2|done|lia].
Qed.

(** The name of a field with its colon; [k] is the kind of value announced. *)
Lemma name_runs P s p ev c name rest m cl fl :
  at_field P s -> 0 <= p -> base <= p -> in_hdr base p m cl fl P -> is_token c -> Forall is_token name ->
  dropZ p data = (c :: name) ++ chr ":" :: rest -> p + lenZ (c :: name) < hend ->
  exists P1, go (plain P s p ev)
     (plain P1 s_header_value_discard_ws (p + lenZ (c :: name) + 1) (E_header_field (c :: name) :: ev)) /\
    in_hdr base (p + lenZ (c :: name) + 1) m cl fl P1 /\
    name_state (hp_header_state P1) = true /\ value_kind (hp_header_state P1) = name_kind (c :: name).
Proof.
  intros Hs Hp Hb HP Hc Hname Hd Hh. rewrite lenZ_cons in *. pose proof (lenZ_nonneg name).
  pose proof (dropZ_cons _ _ _ _ Hd Hp) as (_ & Hd1 & _).
  destruct (name_read c name (chr ":") rest Hc Hname eq_refl) as (h & S1 & Hread).
  set (P1 := set_header_state h (set_index 0 (set_nread (p - base + 1) P))).
  assert (in_hdr base (p + 1) m cl fl P1) as H1 by (destruct (in_header_nread _ _ _ _ _ _ HP); by constructor).
  destruct (Hread (set_nread (p + 1 - base + 1) P1) (p + 1)) as (P2 & E2 & Hst & Hns & Hk).
  destruct (name_end P1 (p + 1) p ev (c :: name) rest m cl fl P2) as (P3 & G3 & H3 & Hh3);
    [done|done|done|done|rewrite lenZ_cons; lia|rewrite lenZ_cons; lia| |done|].
  { rewrite Hd1, lenZ_cons. replace (p + (1 + lenZ name)) with (p + 1 + lenZ name) by lia. exact E2. }
  rewrite lenZ_cons in G3, H3. exists P3. rewrite Hh3. split; [|done].
  eapply runs_trans; [|exact G3].
  eapply (field_byte P s p ev c); first [done|lia|exact HP|by (intros ->; apply Hc)|by rewrite S1].
Qed.

Definition header_line (n v : list Z) : list Z := n ++ [chr ":"; SP] ++ v ++ [CR; LF].

(** A field without a meaning for the parser. *)
Record plain_field (n v : list Z) : Prop := {
  pf_name : n <> [] /\ Forall is_token n;
  pf_kind : name_kind n = None;
  pf_value : Forall value_byte v;
  pf_first : exists v0 v', v = v0 :: v' /\ v0 <> SP /\ v0 <> HT;
}.

Lemma header_line_split n v rest : header_line n v ++ rest = n ++ chr ":" :: SP :: v ++ CR :: LF :: rest.
Proof. unfold header_line. by rewrite <- !app_assoc. Qed.

Lemma header_line_len n v : lenZ (header_line n v) = lenZ n + lenZ v + 4.
Proof. unfold header_line. rewrite !lenZ_app, !lenZ_cons, !lenZ_nil. lia. Qed.

Lemma field_runs P s p ev n v rest m cl fl :
  at_field P s -> 0 <= p -> base <= p -> in_hdr base p m cl fl P -> plain_field n v ->
  dropZ p data = header_line n v ++ rest -> p + lenZ (header_line n v) <= hend ->
  exists P1, go (plain P s p ev)
      (plain P1 s_header_value_lws (p + lenZ (header_line n v)) (E_header_value v :: E_header_field n :: ev)) /\
    in_hdr base (p + lenZ (header_line n v)) m cl fl P1 /\ at_field P1 s_header_value_lws.
Proof.
  intros Hs Hp Hb HP [[Hne Hn] Hk Hv (v0 & v' & -> & Hsp & Hht)] Hd Hh.
  rewrite header_line_split in Hd. rewrite header_line_len in *.
  destruct n as [|c n]; [done|]. apply Forall_cons in Hn as [Hc Hn].
  pose proof (lenZ_nonneg (c :: n)). pose proof (lenZ_nonneg (v0 :: v')).
  assert (HTTP_MAX_HEADER_SIZE = 81920) as Hm by done.
  destruct (name_runs P s p ev c n _ m cl fl Hs Hp Hb HP Hc Hn Hd ltac:(lia)) as (P1 & G1 & H1 & Hns & Hvk).
  pose proof (dropZ_app_at _ _ _ _ Hd Hp) as Hd1.
  pose proof (dropZ_cons _ _ _ _ Hd1 ltac:(lia)) as (_ & Hd2 & _).
  set (q := p + lenZ (c :: n) + 1) in *.
  pose proof (dropZ_cons _ _ _ _ Hd2 ltac:(lia)) as (_ & Hd3 & _).
  pose proof (dropZ_cons _ _ _ _ Hd3 ltac:(lia)) as (_ & Hd4 & Hlt4).
  pose proof Hv as Hv2. apply Forall_cons in Hv2 as [(C1 & C2 & C3) Hv2].
  rewrite Hk in Hvk. rewrite (lenZ_cons v0 v') in *.
  destruct (value_runs P1 q (E_header_field (c :: n) :: ev) v0 v' rest m cl fl h_general cl fl h_general cl)
    as (P2 & G2 & H2 & Hh2); [lia|lia|done|done|rewrite (lenZ_cons v0 v'); lia|done|done|done|done| | |].
  - intros Q E1 E2 E3. unfold header_value_first. rewrite E1.
    destruct H1 as [_ _ _ _ <- <- _]. rewrite <- E2, <- E3.
    destruct (hp_header_state P1); try done; by destruct Q.
  - intros Q HQ. rewrite (lenZ_cons v0 v').
    replace (q + 1 + (1 + lenZ v')) with (q + 2 + lenZ v') by lia. rewrite <- HQ.
    replace (set_content_length (hp_content_length Q) Q) with Q by (by destruct Q).
    apply (general_loop lenient data (length data) v' Q (q + 2) (LF :: rest));
      [lia|by replace (q + 2) with (q + 1 + 1) by lia|done|lia|unfold lenZ in *; lia].
  - rewrite (lenZ_cons v0 v') in *. exists P2.
    replace (p + (lenZ (c :: n) + (1 + lenZ v') + 4)) with (q + 1 + (1 + lenZ v') + 2) by lia.
    split; [by eapply runs_trans|]. split; [done|]. right. split; [done|]. unfold header_flag. by rewrite Hh2.
Qed.
End Request.

(** ** Messages *)

Definition decimal (n : Z) : list Z := chars (to_string n).

Lemma dec_value_app v ds es : dec_value v (ds ++ es) = dec_value (dec_value v ds) es.
Proof. apply fold_left_app. Qed.

Lemma scan_dec_value s : forall v k, str_forall is_digit s = true ->
  scan_digits 10 v k s = (dec_value v (chars s), k + lenZ (chars s)) /\ Forall is_num (chars s).
Proof.
  unfold chars. induction s as [|c s IH]; intros v k H; cbn [scan_digits String.list_ascii_of_string map].
  - change (lenZ []) with 0. rewrite Z.add_0_r. split; [done|constructor].
  - cbn [str_forall] in H. apply andb_true_iff in H as [Hc Hs]. unfold is_digit in Hc. bool_to_prop.
    assert (digit_value 10 c = Some (code c - 48)) as ->.
    { unfold digit_value, is_digit. destruct (Z.leb_spec 48 (code c)); [|lia].
      destruct (Z.leb_spec (code c) 57); [|lia]. cbn [andb].
      destruct (Z.ltb_spec (code c - 48) 10); [done|lia]. }
    destruct (IH (v * 10 + (code c - 48)) (k + 1) Hs) as [-> Hf]. rewrite lenZ_cons.
    split; [unfold dec_value; cbn [fold_left]; f_equal; lia|]. constructor; [|done].
    unfold is_num, IS_NUM, in_range. change (chr "0") with 48. change (chr "9") with 57.
    destruct (Z.leb_spec 48 (code c)); [|lia]. by destruct (Z.leb_spec (code c) 57); [|lia].
Qed.

Lemma decimal_value n : 0 <= n -> exists d ds, decimal n = d :: ds /\ Forall is_num (d :: ds) /\
  dec_value 0 (d :: ds) = n.
Proof.
  intros Hn. destruct (to_string_digits n Hn) as [Hd _].
  destruct (scan_to_string n "" Hn eq_refl) as (k & Hk & E). rewrite str_app_nil_r in E.
  destruct (scan_dec_value (to_string n) 0 0 Hd) as [E' Hf]. rewrite E in E'. injection E' as Hv Hl.
  unfold decimal. destruct (chars (to_string n)) as [|d ds]; [change (lenZ []) with 0 in Hl; lia|]. eauto.
Qed.

Section Message.
Context {told : Chunks} (lenient : bool) (data : list Z).
Notation go := (runs lenient data).
Notation step' := (step recording lenient data).
Context (base hend : Z) (Hbase : 0 <= base) (Hend : hend - base <= HTTP_MAX_HEADER_SIZE).

Definition content_length_line (n : Z) : list Z := header_line (chars "Content-Length") (decimal n).

Lemma length_runs ver P s p ev n rest m cl :
  at_field P s -> 0 <= p -> base <= p -> in_header ver base p m cl 0 P -> 0 <= n <= content_length_max ->
  dropZ p data = content_length_line n ++ rest -> p + lenZ (content_length_line n) <= hend ->
  exists P1, go (plain P s p ev)
      (plain P1 s_header_value_lws (p + lenZ (content_length_line n))
         (E_header_value (decimal n) :: E_header_field (chars "Content-Length") :: ev)) /\
    in_header ver base (p + lenZ (content_length_line n)) m n F_CONTENTLENGTH P1 /\
    at_field P1 s_header_value_lws.
Proof.
  intros Hs Hp Hb HP Hn Hd Hh. unfold content_length_line in *.
  assert (content_length_max = 18446744073709551609) as Hmax by done.
  rewrite header_line_split in Hd. rewrite header_line_len in *.
  destruct (decimal_value n ltac:(lia)) as (d & ds & Ed & Hnum & Hv). rewrite Ed in *.
  change (lenZ (chars "Content-Length")) with 14 in *.
  rewrite (lenZ_cons d ds) in *. pose proof (lenZ_nonneg ds). pose proof Hnum as Hnum'.
  apply Forall_cons in Hnum' as [Hd0 Hds]. pose proof (IS_NUM_range d Hd0) as Hr. change (chr "0") with 48 in Hr.
  pose proof (is_num_ends d Hd0) as (B1 & B2 & B3 & _). bool_to_prop.
  set (q := p + 14 + 1) in *.
  assert (exists P1, go (plain P s p ev)
     (plain P1 s_header_value_discard_ws q (E_header_field (chars "Content-Length") :: ev)) /\
    in_header ver base q m cl 0 P1 /\
    name_state (hp_header_state P1) = true /\ value_kind (hp_header_state P1) = Some h_content_length)
    as (P1 & G1 & H1 & _ & Hk).
  { destruct (chars "Content-Length") as [|c0 name] eqn:En; [done|].
    assert (is_token c0 /\ Forall is_token name) as [Ht Hts].
    { apply Forall_cons. rewrite <- En. cbn. repeat (apply Forall_cons; split; [done|]). apply Forall_nil. exact I. }
    assert (name_kind (c0 :: name) = Some h_content_length) as <- by (rewrite <- En; vm_compute; done).
    assert (lenZ (c0 :: name) = 14) as Hlen by (by rewrite <- En). subst q. rewrite <- Hlen.
    eapply (name_runs lenient data base hend Hend ver P s p ev c0 name); first [done|lia]. }
  pose proof (dropZ_app_at _ _ _ _ Hd Hp) as Hd1. change (lenZ (chars "Content-Length")) with 14 in Hd1.
  pose proof (dropZ_cons _ _ _ _ Hd1 ltac:(lia)) as (_ & Hd2 & _). fold q in Hd2.
  pose proof (dropZ_cons _ _ _ _ Hd2 ltac:(lia)) as (_ & Hd3 & _). cbn [app] in Hd3.
  pose proof (dropZ_cons _ _ _ _ Hd3 ltac:(lia)) as (_ & Hd4 & Hlt4).
  destruct (value_runs lenient data base hend Hend ver P1 q (E_header_field (chars "Content-Length") :: ev) d ds rest m cl 0
    h_content_length_num (d - 48) F_CONTENTLENGTH h_content_length_num n) as (P2 & G2 & H2 & Hh2);
    [lia|lia|done|done|rewrite (lenZ_cons d ds); lia|done|by unfold HT; lia|done|done| | |].
  - intros Q E1 E2 E3. unfold header_value_first. rewrite E1.
    destruct H1 as [_ _ _ _ _ H0 _]. rewrite H0 in E2.
    destruct (hp_header_state P1); simpl in Hk; try done. rewrite Hd0. cbn [negb].
    unfold add_flag, has_flag. rewrite E2. reflexivity.
  - intros Q HQ. rewrite (lenZ_cons d ds).
    replace (q + 1 + (1 + lenZ ds)) with (q + 2 + lenZ ds) by lia.
    destruct (content_length_loop lenient data ds (length data) Q (q + 2) (LF :: rest)) as [C1 _];
      [lia|by replace (q + 2) with (q + 1 + 1) by lia|done|unfold lenZ in *; lia|rewrite HQ; lia|].
    rewrite HQ in C1. change (dec_value (d - 48) ds) with (dec_value 0 (d :: ds)) in C1. rewrite Hv in C1.
    apply C1. lia.
  - rewrite (lenZ_cons d ds) in *. exists P2.
    replace (p + (14 + (1 + lenZ ds) + 4)) with (q + 1 + (1 + lenZ ds) + 2) by lia.
    split; [by eapply runs_trans|]. split; [done|]. right. split; [done|]. unfold header_flag. by rewrite Hh2.
Qed.

(** *** Fields, the end of the header and the body *)

Definition field_lines (fs : list (list Z * list Z)) : list Z := concat (map (fun f => header_line (fst f) (snd f)) fs).
Definition field_events (fs : list (list Z * list Z)) : list Event :=
  concat (map (fun f => [E_header_field (fst f); E_header_value (snd f)]) fs).

Lemma fields_runs ver fs : forall P s p ev rest m cl fl,
  at_field P s -> 0 <= p -> base <= p -> in_header ver base p m cl fl P ->
  Forall (fun f => plain_field (fst f) (snd f)) fs ->
  dropZ p data = field_lines fs ++ rest -> p + lenZ (field_lines fs) <= hend ->
  exists P1 s1, go (plain P s p ev)
      (plain P1 s1 (p + lenZ (field_lines fs)) (rev (field_events fs) ++ ev)) /\
    in_header ver base (p + lenZ (field_lines fs)) m cl fl P1 /\ at_field P1 s1.
Proof.
  induction fs as [|[n v] fs IH]; intros P s p ev rest m cl fl Hs Hp Hb HP Hf Hd Hh.
  - exists P, s. change (lenZ (field_lines [])) with 0. rewrite Z.add_0_r. split; [apply runs_refl|done].
  - apply Forall_cons in Hf as [Hnv Hf]. change (field_lines ((n, v) :: fs)) with (header_line n v ++ field_lines fs) in *.
    rewrite lenZ_app in *. rewrite <- app_assoc in Hd. pose proof (lenZ_nonneg (field_lines fs)).
    pose proof (lenZ_nonneg (header_line n v)).
    destruct (field_runs lenient data base hend Hend ver P s p ev n v _ m cl fl Hs Hp Hb HP Hnv Hd ltac:(lia))
      as (P1 & G1 & H1 & A1).
    destruct (IH P1 s_header_value_lws (p + lenZ (header_line n v)) (E_header_value v :: E_header_field n :: ev) rest m cl fl)
      as (P2 & s2 & G2 & H2 & A2); [done|lia|lia|done|done|by apply dropZ_app_at|lia|].
    exists P2, s2. rewrite Z.add_assoc. split; [|done]. eapply runs_trans; [exact G1|].
    change (field_events ((n, v) :: fs)) with (E_header_field n :: E_header_value v :: field_events fs).
    cbn [rev]. rewrite <- !app_assoc. exact G2.
Qed.

(** Between two messages of a connection that is kept alive. *)
Record at_start (P : http_parser) : Prop := {
  as_type : hp_type P = HTTP_REQUEST;
  as_errno : hp_errno P = HPE_OK;
  as_nread : hp_nread P = 0;
}.

Lemma keep_alive P : hp_type P = HTTP_REQUEST -> version P = (1, 1) -> hp_flags P = F_CONTENTLENGTH ->
  NEW_MESSAGE P = s_start_req.
Proof.
  intros Ht Hv Hf. injection Hv as Hv1 Hv2.
  unfold NEW_MESSAGE, http_should_keep_alive, http_message_needs_eof, start_state, has_flag.
  by rewrite Hv1, Hv2, Hf, Ht.
Qed.

Lemma complete_record x k : hp_type (x_parser x) = HTTP_REQUEST -> hp_errno (x_parser x) = HPE_OK ->
  version (x_parser x) = (1, 1) -> hp_flags (x_parser x) = F_CONTENTLENGTH ->
  message_complete recording x k =
  k (goto s_start_req (sync s_start_req (E_message_complete :: x_app x) x)).
Proof.
  intros Ht He Hv Hf. unfold message_complete. rewrite (keep_alive _ Ht Hv Hf).
  by rewrite (notify_record E_message_complete).
Qed.

Lemma header_end_runs P s p ev m cl rest :
  at_field P s -> 0 <= p -> base <= p -> in_header (eq (1, 1)) base p m cl F_CONTENTLENGTH P ->
  m <> HTTP_CONNECT -> 0 <= cl < ULLONG_MAX -> dropZ p data = CR :: LF :: rest -> p + 2 <= hend ->
  exists P1, go (plain P s p ev)
    (plain P1 (if cl =? 0 then s_start_req else s_body_identity) (p + 2)
       ((if cl =? 0 then [E_message_complete; E_headers_complete m (1, 1)] else [E_headers_complete m (1, 1)]) ++ ev)) /\
    at_start P1 /\ version P1 = (1, 1) /\ hp_flags P1 = F_CONTENTLENGTH /\ hp_content_length P1 = cl /\
    hp_upgrade P1 = false.
Proof.
  intros Hs Hp Hb HP Hm Hcl Hd Hh. assert (HTTP_MAX_HEADER_SIZE = 81920) as Hmax by done.
  pose proof (dropZ_cons _ _ _ _ Hd Hp) as (_ & Hd1 & _).
  pose proof (dropZ_cons _ _ _ _ Hd1 ltac:(lia)) as (Hrd & _ & Hlt).
  pose proof (in_header_nread _ _ _ _ _ _ HP) as [T1 T2 T3 T4 T5 T6 T7].
  set (P0 := set_nread (p - base + 1) P) in *.
  assert (go (plain P s p ev) (plain P0 s_headers_almost_done (p + 1) ev)) as G0.
  { eapply (field_byte lenient data base hend Hend (eq (1, 1)) P s p ev CR (LF :: rest)); first [done|lia|exact HP]. }
  set (P2 := set_upgrade false (set_nread (p + 1 - base + 1) P0)).
  assert (step' (plain (set_nread (p + 1 - base + 1) P0) s_headers_almost_done (p + 1) ev) LF =
    Some (Reexec (plain P2 s_headers_done (p + 1) (E_headers_complete m (1, 1) :: ev)))) as S1.
  { unfold step, step_headers_almost_done. cbn [x_state plain x_parser]. change (LF =? LF) with true. cbn [negb].
    change (has_flag ?f (set_nread ?n P0)) with (has_flag f P0).
    assert (forall f, has_flag f P0 = negb (Z.land F_CONTENTLENGTH f =? 0)) as Hfl
      by (intros f; unfold has_flag; by rewrite T6).
    rewrite !Hfl. cbv zeta. change (hp_method (set_nread ?n P0)) with (hp_method P0). rewrite T4.
    rewrite (bool_decide_eq_false_2 (m = HTTP_CONNECT)) by done. cbn [negb Z.land F_TRAILING F_CONTENTLENGTH F_CHUNKED F_UPGRADE Z.eqb andb].
    simpl. rewrite decide_True by done. change (hp_method _) with (hp_method P0).
    pose proof T7 as T7'. injection T7' as V1 V2. rewrite T4, <- V1, <- V2. reflexivity. }
  set (P3 := set_nread 0 P2).
  assert (step' (plain P2 s_headers_done (p + 1) (E_headers_complete m (1, 1) :: ev)) LF =
    Some (Next (if cl =? 0
      then plain (set_state s_start_req P3) s_start_req (p + 1) (E_message_complete :: E_headers_complete m (1, 1) :: ev)
      else plain P3 s_body_identity (p + 1) (E_headers_complete m (1, 1) :: ev)))) as S2.
  { unfold step, step_headers_done. cbn [x_state plain x_parser]. change (LF =? LF) with true. cbn [negb].
    cbv zeta. cbn [with_parser x_parser plain].
    change (hp_upgrade (set_nread 0 P2)) with false. cbn [andb].
    assert (forall f, has_flag f (set_nread 0 P2) = negb (Z.land F_CONTENTLENGTH f =? 0)) as Hfl
      by (intros f; unfold has_flag; change (hp_flags (set_nread 0 P2)) with (hp_flags P0); by rewrite T6).
    rewrite !Hfl. change (negb (Z.land F_CONTENTLENGTH F_SKIPBODY =? 0)) with false.
    change (negb (Z.land F_CONTENTLENGTH F_CHUNKED =? 0)) with false. cbv iota.
    change (hp_content_length (set_nread 0 P2)) with (hp_content_length P0). rewrite T5.
    destruct (Z.eqb_spec cl 0) as [Hz|Hz].
    - rewrite complete_record; [reflexivity|done..].
    - destruct (Z.eqb_spec cl ULLONG_MAX); [lia|]. reflexivity. }
  exists (if cl =? 0 then set_state s_start_req P3 else P3). split.
  - eapply runs_trans; [exact G0|].
    pose proof (runs_iter lenient data (plain P0 s_headers_almost_done (p + 1) ev)
      (if cl =? 0 then plain (set_state s_start_req P3) s_start_req (p + 1) (E_message_complete :: E_headers_complete m (1, 1) :: ev)
       else plain P3 s_body_identity (p + 1) (E_headers_complete m (1, 1) :: ev))) as G1.
    cbn [x_pos plain] in G1. specialize (G1 ltac:(lia)).
    rewrite exec_iter_header in G1 by (cbn [x_parser x_state plain]; rewrite ?T3; done || lia).
    cbn [x_parser plain] in G1. rewrite T3 in G1.
    rewrite (exec_byte_reexec lenient data 7 _ LF (plain P2 s_headers_done (p + 1) (E_headers_complete m (1, 1) :: ev))) in G1
      by (first [exact Hrd|exact S1]).
    rewrite (exec_byte_next lenient data 6 (plain P2 s_headers_done (p + 1) (E_headers_complete m (1, 1) :: ev)) LF _ Hrd S2) in G1.
    replace (p + 2) with (p + 1 + 1) by lia. specialize (G1 eq_refl). destruct (cl =? 0); apply G1; cbn; lia.
  - destruct (cl =? 0); (split; [by constructor|]); (split; [symmetry; exact T7|]); done.
Qed.

Lemma body_runs P p ev body rest : 0 <= p -> lenZ data < 2 ^ 31 -> at_start P -> version P = (1, 1) ->
  hp_flags P = F_CONTENTLENGTH -> hp_upgrade P = false -> hp_content_length P = lenZ body -> body <> [] ->
  dropZ p data = body ++ rest ->
  exists P1, go (plain P s_body_identity p ev)
    (plain P1 s_start_req (p + lenZ body) (E_message_complete :: E_body body :: ev)) /\ at_start P1.
Proof.
  intros Hp Hsmall [T1 T2 T3] Hv Hf Hup Hcl Hne Hd. assert (ULLONG_MAX = 2 ^ 64 - 1) as Hmax by done.
  assert (0 < lenZ body) as Hpos by (destruct body; [done|rewrite lenZ_cons; pose proof (lenZ_nonneg body); lia]).
  assert (p + lenZ body <= lenZ data) as Hle.
  { assert (lenZ (dropZ p data) = lenZ body + lenZ rest) as E by (by rewrite Hd, lenZ_app).
    rewrite lenZ_dropZ in E. pose proof (lenZ_nonneg rest). lia. }
  set (e := p + lenZ body) in *.
  destruct (rd_is_Some data p) as [c0 Hc0]; [lia|]. destruct (rd_is_Some data (e - 1)) as [c1 Hc1]; [lia|].
  set (P1 := set_state s_message_done (set_content_length 0 P)).
  assert (step' (plain P s_body_identity p ev) c0 = Some (Reexec (plain P1 s_message_done (e - 1) (E_body body :: ev)))) as S1.
  { unfold step, step_body_identity, body_pending. cbn [x_state plain x_parser]. rewrite Hcl.
    destruct (Z.eqb_spec (lenZ body) 0); [lia|]. destruct (Z.eqb_spec (lenZ body) ULLONG_MAX); [lia|].
    cbn [negb andb assert_].
    assert (consume_body data (plain P s_body_identity p ev) =
      mkCtx (set_content_length 0 P) s_body_identity (e - 1) None None None (Some p) None ev) as ->.
    { unfold consume_body, to_read. cbn [x_parser plain x_pos]. rewrite Hcl, (uwrap_small 64 (lenZ data - p)) by lia.
      rewrite Z.min_l by lia. unfold MARK, at_pos, with_parser. simpl. rewrite Hcl, Z.sub_diag.
      replace (p + (lenZ body - 1)) with (e - 1) by lia. reflexivity. }
    cbv zeta. change (hp_content_length _ =? 0) with true. cbv iota.
    rewrite (data_record data M_body p (e - 1 + 1) _ body rest) by first [done|lia]. reflexivity. }
  set (P2 := set_state s_start_req P1).
  assert (step' (plain P1 s_message_done (e - 1) (E_body body :: ev)) c1 =
    Some (Next (plain P2 s_start_req (e - 1) (E_message_complete :: E_body body :: ev)))) as S2.
  { unfold step, step_message_done. cbn [x_state plain]. rewrite complete_record by done.
    cbn [x_parser goto sync with_app with_parser hp_upgrade set_state]. change (hp_upgrade _) with (hp_upgrade P).
    by rewrite Hup. }
  exists P2. split; [|by constructor].
  pose proof (runs_iter lenient data (plain P s_body_identity p ev)
    (plain P2 s_start_req (e - 1) (E_message_complete :: E_body body :: ev))) as G1.
  cbn [x_pos plain] in G1. specialize (G1 ltac:(lia)). unfold exec_iter in G1.
  cbn [PARSING_HEADER x_state plain] in G1.
  rewrite (exec_byte_reexec lenient data 7 (plain P s_body_identity p ev) c0 _ Hc0 S1) in G1.
  rewrite (exec_byte_next lenient data 6 (plain P1 s_message_done (e - 1) (E_body body :: ev)) c1 _ Hc1 S2) in G1.
  specialize (G1 eq_refl ltac:(lia)). replace e with (e - 1 + 1) by lia. exact G1.
Qed.
End Message.

(** ** Requests *)

Record request := mkRequest {
  rq_method : http_method;
  rq_url : list Z;
  rq_fields : list (list Z * list Z);
  rq_body : list Z;
}.

Definition request_header (r : request) : list Z :=
  request_line (rq_method r) (rq_url r) ++ field_lines (rq_fields r) ++
  content_length_line (lenZ (rq_body r)) ++ [CR; LF].

Definition print_request (r : request) : list Z := request_header r ++ rq_body r.

(** What the callbacks are told of a request. *)
Definition request_events (r : request) : list Event :=
  [E_message_begin; E_url (rq_url r)] ++ field_events (rq_fields r) ++
  [E_header_field (chars "Content-Length"); E_header_value (decimal (lenZ (rq_body r))); E_headers_complete (rq_method r) (1, 1)] ++
  match rq_body r with [] => [] | _ :: _ => [E_body (rq_body r)] end ++ [E_message_complete].

Record request_ok (r : request) : Prop := {
  ro_method : rq_method r <> HTTP_CONNECT;
  ro_url : origin_form (rq_url r);
  ro_fields : Forall (fun f => plain_field (fst f) (snd f)) (rq_fields r);
  ro_size : lenZ (request_header r) <= HTTP_MAX_HEADER_SIZE;
}.

Lemma request_runs {told : Chunks} lenient data base P ev r rest : 0 <= base -> lenZ data < 2 ^ 31 -> at_start P -> request_ok r ->
  dropZ base data = print_request r ++ rest ->
  exists P1, runs lenient data (plain P s_start_req base ev)
    (plain P1 s_start_req (base + lenZ (print_request r)) (rev (request_events r) ++ ev)) /\ at_start P1.
Proof.
  intros Hbase Hsmall [T1 T2 T3] [Hm Hu Hf Hsz] Hd. remember (base + lenZ (request_header r)) as hend eqn:Eh.
  assert (hend - base <= HTTP_MAX_HEADER_SIZE) as Hend by lia. clear Hsz.
  destruct r as [m url fs body]. unfold print_request, request_header in *. cbn [rq_method rq_url rq_fields rq_body] in *.
  set (n := lenZ body) in *. assert (0 <= n) as Hn by apply lenZ_nonneg.
  rewrite !lenZ_app in Eh. change (lenZ [CR; LF]) with 2 in Eh. rewrite <- !app_assoc in Hd.
  set (a := base + lenZ (request_line m url)) in *. pose proof (lenZ_nonneg (request_line m url)) as N1.
  pose proof (lenZ_nonneg (field_lines fs)) as N2. pose proof (lenZ_nonneg (content_length_line n)) as N3.
  destruct (request_line_runs lenient data base hend Hbase Hend (fun _ => True) m url P ev _ Hd ltac:(lia) Hm Hu
    (fun _ => I) T1 T2 T3) as (P1 & G1 & H1). fold a in G1, H1.
  pose proof (dropZ_app_at _ _ _ _ Hd Hbase) as Hd1. fold a in Hd1.
  destruct (fields_runs lenient data base hend Hend (eq (1, 1)) fs P1 s_header_field_start a (E_url url :: E_message_begin :: ev)
    _ m ULLONG_MAX 0 (or_introl eq_refl) ltac:(lia) ltac:(lia) H1 Hf Hd1 ltac:(lia)) as (P2 & s2 & G2 & H2 & A2).
  pose proof (dropZ_app_at _ _ _ _ Hd1 ltac:(lia)) as Hd2. set (b := a + lenZ (field_lines fs)) in *.
  set (ev2 := rev (field_events fs) ++ E_url url :: E_message_begin :: ev) in *.
  set (ev3 := E_header_value (decimal n) :: E_header_field (chars "Content-Length") :: ev2).
  assert (n < 2 ^ 31) as Hns.
  { assert (lenZ (dropZ b data) = lenZ (content_length_line n) + (2 + (n + lenZ rest))) as E
      by (rewrite Hd2, !lenZ_app; done).
    rewrite lenZ_dropZ in E. pose proof (lenZ_nonneg rest). lia. }
  destruct (length_runs lenient data base hend Hbase Hend (eq (1, 1)) P2 s2 b ev2 n _ m ULLONG_MAX A2 ltac:(lia) ltac:(lia) H2
    ltac:(change content_length_max with 18446744073709551609; lia) Hd2 ltac:(lia)) as (P3 & G3 & H3 & A3).
  pose proof (dropZ_app_at _ _ _ _ Hd2 ltac:(lia)) as Hd3. set (c := b + lenZ (content_length_line n)) in *.
  destruct (header_end_runs lenient data base hend Hend P3 s_header_value_lws c ev3 m n _ A3 ltac:(lia) ltac:(lia) H3 Hm
    ltac:(change ULLONG_MAX with (2 ^ 64 - 1); lia) Hd3 ltac:(lia)) as (P4 & G4 & H4 & V4 & F4 & C4 & U4).
  pose proof (dropZ_app_at _ _ _ _ Hd3 ltac:(lia)) as Hd4. change (lenZ [CR; LF]) with 2 in Hd4.
  assert (base + lenZ ((request_line m url ++ field_lines fs ++ content_length_line n ++ [CR; LF]) ++ body) = c + 2 + n) as ->.
  { rewrite !lenZ_app. change (lenZ [CR; LF]) with 2. unfold c, b, a. lia. }
  unfold request_events. cbn [rq_method rq_url rq_fields rq_body]. fold n.
  pose proof (runs_trans _ _ _ _ _ G1 (runs_trans _ _ _ _ _ G2 (runs_trans _ _ _ _ _ G3 G4))) as G.
  destruct body as [|c0 body].
  - change n with 0 in G, G4 |- *. cbn [Z.eqb] in G. rewrite Z.add_0_r. exists P4. split; [|done].
    rewrite !rev_app_distr, <- !app_assoc. exact G.
  - assert (0 < n) as Hpos by (unfold n; rewrite lenZ_cons; pose proof (lenZ_nonneg body); lia).
    destruct (Z.eqb_spec n 0) as [|_]; [lia|].
    destruct (body_runs lenient data P4 (c + 2) (E_headers_complete m (1, 1) :: ev3) (c0 :: body) rest ltac:(lia) Hsmall H4 V4 F4 U4 C4 ltac:(done) Hd4)
      as (P5 & G5 & H5).
    exists P5. split; [|done]. rewrite !rev_app_distr, <- !app_assoc. eapply runs_trans; [exact G|exact G5].
Qed.

Definition pipeline (rs : list request) : list Z := concat (map print_request rs).
Definition pipeline_events (rs : list request) : list Event := concat (map request_events rs).

Lemma pipeline_runs {told : Chunks} lenient data rs : forall base P ev rest, 0 <= base -> lenZ data < 2 ^ 31 -> at_start P ->
  Forall request_ok rs -> dropZ base data = pipeline rs ++ rest ->
  exists P1, runs lenient data (plain P s_start_req base ev)
    (plain P1 s_start_req (base + lenZ (pipeline rs)) (rev (pipeline_events rs) ++ ev)) /\ at_start P1.
Proof.
  induction rs as [|r rs IH]; intros base P ev rest Hb Hsmall HP Hf Hd.
  - exists P. change (lenZ (pipeline [])) with 0. rewrite Z.add_0_r. split; [apply runs_refl|done].
  - apply Forall_cons in Hf as [Hr Hf]. change (pipeline (r :: rs)) with (print_request r ++ pipeline rs) in *.
    rewrite <- app_assoc in Hd. pose proof (lenZ_nonneg (print_request r)).
    destruct (request_runs lenient data base P ev r _ Hb Hsmall HP Hr Hd) as (P1 & G1 & H1).
    destruct (IH (base + lenZ (print_request r)) P1 (rev (request_events r) ++ ev) rest ltac:(lia) Hsmall H1 Hf
      (dropZ_app_at _ _ _ _ Hd Hb)) as (P2 & G2 & H2).
    exists P2. rewrite lenZ_app, Z.add_assoc. split; [|done]. eapply runs_trans; [exact G1|].
    change (pipeline_events (r :: rs)) with (request_events r ++ pipeline_events rs).
    rewrite rev_app_distr, <- app_assoc. exact G2.
Qed.

(** The loop that has nothing left to read and no marks. *)
Lemma loop_end {told : Chunks} lenient data fuel P s ev : hp_errno P = HPE_OK ->
  exec_loop recording lenient data fuel (plain P s (lenZ data) ev) = Some (lenZ data, set_state s P, ev).
Proof.
  intros He.
  assert (exec_end recording data (plain P s (lenZ data) ev) = Some (Ret (lenZ data) (set_state s P) ev)) as E.
  { unfold exec_end. change (count_marks _ <=? 1) with true. cbv iota. unfold callback_data. cbn [mark_of plain x_parser
      x_header_field x_header_value x_url x_body x_status]. by rewrite !decide_True. }
  destruct fuel; cbn [exec_loop x_pos plain]; rewrite Z.eqb_refl, E; reflexivity.
Qed.

Lemma http_parser_execute_requests_run {told : Chunks} rs P ev :
  hp_state P = s_start_req -> at_start P -> Forall request_ok rs -> lenZ (pipeline rs) < 2 ^ 31 ->
  exists P', http_parser_execute recording (pipeline rs) P ev =
      Some (lenZ (pipeline rs), P', rev (pipeline_events rs) ++ ev) /\
    at_start P' /\ hp_state P' = s_start_req.
Proof.
  intros Hs HP Hrs Hlen. unfold http_parser_execute. rewrite decide_True by apply HP.
  set (data := pipeline rs) in *.
  assert (initial_ctx P ev = plain P s_start_req 0 ev) as Ei by (unfold initial_ctx; by rewrite Hs).
  destruct (pipeline_runs (hp_lenient P) data rs 0 P ev [] ltac:(lia) Hlen HP Hrs) as (P1 & G & H1);
    [by rewrite app_nil_r|].
  destruct (G (length data)) as (fuel & _ & E); [unfold lenZ; simpl; lia|].
  rewrite <- Ei in E. fold data in E. rewrite Z.add_0_l, loop_end in E by apply H1.
  destruct data as [|b data0] eqn:Ed.
  - rewrite Hs. destruct rs as [|r rs]; [by exists P|exfalso].
    assert (lenZ (pipeline (r :: rs)) = 0) as H0 by (unfold data in Ed; by rewrite Ed).
    change (pipeline (r :: rs)) with (print_request r ++ pipeline rs) in H0.
    unfold print_request, request_header, content_length_line in H0. rewrite !lenZ_app, header_line_len in H0.
    change (lenZ [CR; LF]) with 2 in H0.
    repeat match type of H0 with context [lenZ ?l] => lazymatch goal with
      | H : 0 <= lenZ l |- _ => fail | _ => pose proof (lenZ_nonneg l) end end. lia.
  - exists (set_state s_start_req P1). rewrite E. split; [done|]. split; [|done].
    destruct H1. by constructor.
Qed.

(** C16: requests written back to back on a kept-alive connection are read
    back exactly: for every request - any method but CONNECT, a path with an
    optional query, fields the parser attaches no meaning to, a Content-Length
    and that many bytes of body - the callbacks are told its URL, its fields in
    order, its method and version, its body and its end; every byte is consumed
    and the parser is ready for the next request. *)
Theorem http_parser_execute_requests {told : Chunks} rs P ev :
  hp_state P = s_start_req -> at_start P -> Forall request_ok rs -> lenZ (pipeline rs) < 2 ^ 31 ->
  exists P', http_parser_execute recording (pipeline rs) P ev =
      Some (lenZ (pipeline rs), P', rev (pipeline_events rs) ++ ev) /\
    at_start P' /\ hp_state P' = s_start_req.
Proof. apply http_parser_execute_requests_run. Qed.

(** A request with a field and a body, twice. *)
Definition sample_post : request :=
  mkRequest HTTP_POST (chars "/ingest?id=7") [(chars "Host", chars "adapter")] [123; 125].

Lemma sample_post_ok : request_ok sample_post.
Proof.
  constructor.
  - done.
  - exists (chars "ingest?id=7"). split; [done|]. repeat (apply Forall_cons; split; [first [by left|by right]|]).
    by apply Forall_nil.
  - apply Forall_cons. split; [|by apply Forall_nil]. constructor.
    + split; [done|]. repeat (apply Forall_cons; split; [done|]). by apply Forall_nil.
    + vm_compute. done.
    + repeat (apply Forall_cons; split; [done|]). by apply Forall_nil.
    + by eexists _, _.
  - vm_compute. done.
Qed.

Lemma http_parser_execute_requests_witness :
  exists P', http_parser_execute (recording (told := true)) (pipeline [sample_post; sample_post]) (http_parser_init HTTP_REQUEST) [] =
      Some (lenZ (pipeline [sample_post; sample_post]), P', rev (pipeline_events [sample_post; sample_post]) ++ []) /\
    at_start P' /\ hp_state P' = s_start_req.
Proof.
  apply (http_parser_execute_requests (told := true) [sample_post; sample_post] (http_parser_init HTTP_REQUEST) []);
    [done|by constructor|repeat (apply Forall_cons; split; [exact sample_post_ok|]); by apply Forall_nil|vm_compute; done].
Defined.
