(* ===== verification/HttpChunks.v ===== *)
(** * The HTTP parser: chunked bodies

    A chunked body resumed by [http_parser_execute] with the recording
    callbacks: chunk sizes are read exactly, in any spelling, and the data of
    every chunk is reported once. *)

From stdpp Require Import base list numbers strings.
From Stdlib Require Import ZArith Lia.
From S2P Require Import Prelude CText HttpModel HttpExec HttpSafety HttpRuns HttpRequest.
Local Open Scope Z_scope.

(** ** Sizes *)

(** Hexadecimal digits by their codes: [0]-[9], [A]-[F], [a]-[f]; and the value of a
    digit, and of a numeral read from [v] on. *)
Definition is_hex (c : Z) : Prop := 48 <= c <= 57 \/ 65 <= c <= 70 \/ 97 <= c <= 102.
Definition digit_value (c : Z) : Z := if c <=? 57 then c - 48 else if c <=? 70 then c - 55 else c - 87.
Definition hex_value (v : Z) (hs : list Z) : Z := fold_left (fun a h => a * 16 + digit_value h) hs v.

(** The table of the parser agrees. *)
Lemma hex_digit c : is_hex c -> unhex c = digit_value c /\ 0 <= digit_value c < 16 /\ c <> CR.
Proof.
  intros H. assert (exists k : nat, (k < 128)%nat /\ c = Z.of_nat k) as (k & Hk & ->) by (unfold is_hex in H; exists (Z.to_nat c); lia).
  split; [|unfold digit_value, is_hex, CR in *; repeat case_match; lia].
  unfold is_hex in H. do 103 (destruct k as [|k]; [first [lia|by vm_compute]|]). lia.
Qed.

Lemma hex_value_mono hs : forall v, Forall is_hex hs -> 0 <= v -> v <= hex_value v hs.
Proof.
  induction hs as [|h hs IH]; intros v Hf Hv; cbn [hex_value fold_left]; [lia|].
  apply Forall_cons in Hf as [Hh Hf]. apply hex_digit in Hh as (_ & Hh & _).
  specialize (IH (v * 16 + digit_value h) Hf ltac:(lia)). unfold hex_value in *. lia.
Qed.

Lemma has_flag_add f g P : has_flag f (add_flag g P) = has_flag f P || negb (Z.land g f =? 0).
Proof.
  unfold has_flag, add_flag. cbn [hp_flags set_flags]. rewrite Z.land_lor_distr_l, <- negb_andb. f_equal.
  destruct (Z.eqb_spec (Z.lor (Z.land (hp_flags P) f) (Z.land g f)) 0) as [E|E].
  - apply Z.lor_eq_0_iff in E as [-> ->]. done.
  - destruct (Z.eqb_spec (Z.land (hp_flags P) f) 0) as [E1|], (Z.eqb_spec (Z.land g f) 0) as [E2|]; try done.
    by rewrite E1, E2 in E.
Qed.

#[local] Instance chunks_set : Chunks := true.

Section Chunks.
Context (lenient : bool) (data : list Z) (Hsmall : lenZ data < 2 ^ 31).
Notation go := (runs lenient data).
Notation step' := (step recording lenient data).

(** Inside a chunked message, [n] bytes of the current framing counted. *)
Record in_chunks (n : Z) (P : http_parser) : Prop := {
  ic_errno : hp_errno P = HPE_OK;
  ic_chunked : has_flag F_CHUNKED P = true;
  ic_upgrade : hp_upgrade P = false;
  ic_nread : hp_nread P = n;
}.

Lemma in_chunks_set_nread n k P : in_chunks n P -> in_chunks k (set_nread k P).
Proof. intros [T1 T2 T3 T4]. by constructor. Qed.

(** A framing byte. *)
Lemma chunk_byte n P s p ev ch rest P1 s1 ev1 :
  0 <= p -> dropZ p data = ch :: rest -> in_chunks n P -> 0 <= n < HTTP_MAX_HEADER_SIZE ->
  PARSING_HEADER s = true ->
  step' (plain (set_nread (n + 1) P) s p ev) ch = Some (Next (plain P1 s1 p ev1)) ->
  go (plain P s p ev) (plain P1 s1 (p + 1) ev1).
Proof.
  intros Hp Hd HP Hn Hs Hy. apply (runs_header lenient data _ ch rest (plain P1 s1 p ev1)); simpl; try done;
    rewrite (ic_nread _ _ HP); done.
Qed.

Lemma size_loop hs : forall P p ev rest n, 0 <= p -> dropZ p data = hs ++ rest -> Forall is_hex hs ->
  in_chunks n P -> 0 <= n -> n + lenZ hs <= HTTP_MAX_HEADER_SIZE ->
  0 <= hp_content_length P -> hex_value (hp_content_length P) hs < 2 ^ 60 ->
  exists P1, go (plain P s_chunk_size p ev) (plain P1 s_chunk_size (p + lenZ hs) ev) /\
    in_chunks (n + lenZ hs) P1 /\ hp_content_length P1 = hex_value (hp_content_length P) hs.
Proof.
  induction hs as [|h hs IH]; intros P p ev rest n Hp Hd Hf HP Hn Hmax Hcl Hv.
  - exists P. rewrite lenZ_nil, !Z.add_0_r. split; [apply runs_refl|done].
  - apply Forall_cons in Hf as [Hh Hf]. pose proof (hex_digit h Hh) as (Eu & Hu & Hcr).
    rewrite lenZ_cons in *. pose proof (lenZ_nonneg hs). cbn [app] in Hd.
    change (hex_value ?v (h :: hs)) with (hex_value (v * 16 + digit_value h) hs) in *.
    pose proof (hex_value_mono hs (hp_content_length P * 16 + digit_value h) Hf ltac:(lia)) as Hm.
    set (P1 := set_content_length (hp_content_length P * 16 + digit_value h) (set_nread (n + 1) P)).
    assert (step' (plain (set_nread (n + 1) P) s_chunk_size p ev) h = Some (Next (plain P1 s_chunk_size p ev))) as Es.
    { unfold step, step_chunk_size, assert_, chunked. cbn [x_state plain x_parser].
      change (has_flag F_CHUNKED (set_nread (n + 1) P)) with (has_flag F_CHUNKED P). rewrite (ic_chunked _ _ HP).
      rewrite (proj2 (Z.eqb_neq h CR)) by done. rewrite Eu. destruct (Z.eqb_spec (digit_value h) (-1)); [lia|].
      change (hp_content_length (set_nread (n + 1) P)) with (hp_content_length P).
      rewrite (uwrap_small 64 (hp_content_length P * 16)), uwrap_small by lia.
      change ((ULLONG_MAX - 16) / 16) with (2 ^ 60 - 2).
      destruct (Z.ltb_spec (2 ^ 60 - 2) (hp_content_length P)); [lia|]. reflexivity. }
    pose proof (dropZ_cons _ _ _ _ Hd Hp) as (_ & Hd1 & _).
    destruct (IH P1 (p + 1) ev rest (n + 1)) as (P2 & G & H2 & C2);
      [lia|done|done|destruct HP; by constructor|lia|lia|simpl; lia|done|].
    exists P2. replace (p + (1 + lenZ hs)) with (p + 1 + lenZ hs) by lia.
    replace (n + (1 + lenZ hs)) with (n + 1 + lenZ hs) by lia. split; [|done].
    eapply runs_trans; [|exact G]. eapply (chunk_byte n P s_chunk_size p ev h); first [done|lia].
Qed.

(** The size line: the digits, CR and LF. *)
Definition size_line (hs : list Z) : list Z := hs ++ [CR; LF].

Lemma size_line_runs P p ev h hs rest : 0 <= p -> dropZ p data = size_line (h :: hs) ++ rest ->
  Forall is_hex (h :: hs) -> in_chunks 0 P -> lenZ (h :: hs) + 2 <= HTTP_MAX_HEADER_SIZE ->
  hex_value 0 (h :: hs) < 2 ^ 60 ->
  exists P1, go (plain P s_chunk_size_start p ev)
      (plain P1 (if hex_value 0 (h :: hs) =? 0 then s_header_field_start else s_chunk_data)
         (p + lenZ (size_line (h :: hs))) (E_chunk_header (hex_value 0 (h :: hs)) :: ev)) /\
    in_chunks 0 P1 /\ hp_content_length P1 = hex_value 0 (h :: hs) /\
    (hex_value 0 (h :: hs) = 0 -> has_flag F_TRAILING P1 = true).
Proof.
  intros Hp Hd Hf HP Hmax Hv. unfold size_line in *. rewrite lenZ_app. change (lenZ [CR; LF]) with 2.
  assert (HTTP_MAX_HEADER_SIZE = 81920) as Hm by done.
  pose proof Hf as Hf'. apply Forall_cons in Hf' as [Hh Hhs]. pose proof (hex_digit h Hh) as (Eu & Hu & Hcr).
  rewrite lenZ_cons in *. pose proof (lenZ_nonneg hs). rewrite <- app_assoc in Hd. cbn [app] in Hd.
  change (hex_value 0 (h :: hs)) with (hex_value (digit_value h) hs) in *. set (v := hex_value (digit_value h) hs) in *.
  pose proof (hex_value_mono hs (digit_value h) Hhs ltac:(lia)) as Hge. fold v in Hge.
  set (P1 := set_content_length (digit_value h) (set_nread 1 P)).
  assert (in_chunks 1 P1) as H1 by (destruct HP; by constructor).
  assert (step' (plain (set_nread (0 + 1) P) s_chunk_size_start p ev) h = Some (Next (plain P1 s_chunk_size p ev))) as S1.
  { unfold step, step_chunk_size_start, assert_, chunked. cbn [x_state plain x_parser].
    change (has_flag F_CHUNKED (set_nread (0 + 1) P)) with (has_flag F_CHUNKED P). rewrite (ic_chunked _ _ HP).
    cbn [hp_nread set_nread]. rewrite Eu. destruct (Z.eqb_spec (digit_value h) (-1)); [lia|]. reflexivity. }
  pose proof (dropZ_cons _ _ _ _ Hd Hp) as (_ & Hd1 & _).
  destruct (size_loop hs P1 (p + 1) ev _ 1 ltac:(lia) Hd1 Hhs H1 ltac:(lia) ltac:(lia) ltac:(simpl; lia) Hv) as (P2 & G2 & H2 & C2).
  change (hp_content_length P1) with (digit_value h) in C2. fold v in C2.
  pose proof (dropZ_app_at _ _ _ _ Hd1 ltac:(lia)) as Hd2. set (q := p + 1 + lenZ hs) in *. cbn [app] in Hd2.
  pose proof (dropZ_cons _ _ _ _ Hd2 ltac:(lia)) as (_ & Hd3 & _).
  set (P3 := set_nread (1 + lenZ hs + 1) P2).
  assert (in_chunks (1 + lenZ hs + 1) P3) as H3 by (by eapply in_chunks_set_nread).
  assert (step' (plain P3 s_chunk_size q ev) CR = Some (Next (plain P3 s_chunk_size_almost_done q ev))) as S3.
  { unfold step, step_chunk_size, assert_, chunked. cbn [x_state plain x_parser]. by rewrite (ic_chunked _ _ H3). }
  set (P4 := set_nread 0 (set_nread (1 + lenZ hs + 1 + 1) P3)).
  set (s4 := if v =? 0 then s_header_field_start else s_chunk_data).
  set (P5 := set_state s4 (if v =? 0 then add_flag F_TRAILING P4 else P4)).
  assert (step' (plain (set_nread (1 + lenZ hs + 1 + 1) P3) s_chunk_size_almost_done (q + 1) ev) LF =
    Some (Next (plain P5 s4 (q + 1) (E_chunk_header v :: ev)))) as S4.
  { unfold step, step_chunk_size_almost_done, assert_, chunked. cbn [x_state plain x_parser].
    change (has_flag F_CHUNKED (set_nread _ P3)) with (has_flag F_CHUNKED P3). rewrite (ic_chunked _ _ H3).
    change (LF =? LF) with true. cbn [negb]. cbv zeta. cbn [with_parser x_parser plain].
    change (hp_content_length (set_nread 0 _)) with (hp_content_length P2). rewrite C2.
    unfold P5, s4, P4. destruct (v =? 0) eqn:Ev; unfold callback_notify;
      (rewrite decide_True by (apply (ic_errno _ _ H2))); simpl; rewrite decide_True by (apply (ic_errno _ _ H2));
      unfold next; rewrite C2; reflexivity. }
  exists P5. split; [|].
  - replace (p + (1 + lenZ hs + 2)) with (q + 1 + 1) by lia.
    eapply runs_trans; [eapply (chunk_byte 0 P s_chunk_size_start p ev h); first [exact Hd|exact HP|exact S1|done|lia]|].
    eapply runs_trans; [exact G2|].
    eapply runs_trans; [eapply (chunk_byte _ P2 s_chunk_size q ev CR); first [exact Hd2|exact H2|exact S3|done|lia]|].
    eapply (chunk_byte _ P3 s_chunk_size_almost_done (q + 1) ev LF); first [exact Hd3|exact H3|exact S4|done|lia].
  - unfold P5, s4. destruct (Z.eqb_spec v 0) as [E|E]; (split; [destruct H2; constructor; try done|split; [exact C2|]]).
    + change (has_flag F_CHUNKED (set_state ?s ?Q)) with (has_flag F_CHUNKED Q). rewrite has_flag_add.
      by change (has_flag F_CHUNKED P4) with (has_flag F_CHUNKED P2); rewrite ic_chunked0.
    + intros _. change (has_flag F_TRAILING (set_state ?s ?Q)) with (has_flag F_TRAILING Q).
      rewrite has_flag_add. by rewrite orb_true_r.
    + done.
Qed.

Lemma data_runs P p ev d rest : 0 <= p -> dropZ p data = d ++ CR :: LF :: rest -> in_chunks 0 P ->
  d <> [] -> hp_content_length P = lenZ d ->
  exists P1, go (plain P s_chunk_data p ev)
      (plain P1 s_chunk_size_start (p + lenZ d + 2) (E_chunk_complete :: E_body d :: ev)) /\ in_chunks 0 P1.
Proof.
  intros Hp Hd HP Hne Hcl. assert (ULLONG_MAX = 2 ^ 64 - 1) as Hmax by done.
  assert (0 < lenZ d) as Hpos by (destruct d; [done|rewrite lenZ_cons; pose proof (lenZ_nonneg d); lia]).
  pose proof (dropZ_app_at _ _ _ _ Hd Hp) as Hd1. set (e := p + lenZ d) in *.
  pose proof (dropZ_cons _ _ _ _ Hd1 ltac:(lia)) as (_ & Hd2 & He).
  pose proof (dropZ_cons _ _ _ _ Hd2 ltac:(lia)) as (_ & _ & He1).
  destruct d as [|c0 d]; [done|].
  pose proof (dropZ_cons _ _ _ _ Hd Hp) as (Hc0 & _ & _).
  destruct HP as [T1 T2 T3 T4].
  set (P1 := set_content_length 0 P).
  assert (step' (plain P s_chunk_data p ev) c0 =
    Some (Next (mkCtx P1 s_chunk_data_almost_done (e - 1) None None None (Some p) None ev))) as S1.
  { unfold step, step_chunk_data, chunked, body_pending. cbn [x_state plain x_parser]. rewrite T2, Hcl.
    destruct (Z.eqb_spec (lenZ (c0 :: d)) 0); [lia|]. destruct (Z.eqb_spec (lenZ (c0 :: d)) ULLONG_MAX); [lia|].
    cbn [negb andb assert_].
    assert (consume_body data (plain P s_chunk_data p ev) =
      mkCtx P1 s_chunk_data (e - 1) None None None (Some p) None ev) as ->.
    { unfold consume_body, to_read. cbn [x_parser plain x_pos]. rewrite Hcl, (uwrap_small 64 (lenZ data - p)) by lia.
      rewrite Z.min_l by lia. unfold MARK, at_pos, with_parser. simpl. rewrite Hcl, Z.sub_diag.
      replace (p + (lenZ (c0 :: d) - 1)) with (e - 1) by lia. reflexivity. }
    reflexivity. }
  set (P2 := set_state s_chunk_data_done P1).
  assert (step' (mkCtx P1 s_chunk_data_almost_done e None None None (Some p) None ev) CR =
    Some (Next (plain P2 s_chunk_data_done e (E_body (c0 :: d) :: ev)))) as S2.
  { unfold step, step_chunk_data_almost_done, chunked. cbn [x_state x_parser].
    change (has_flag F_CHUNKED P1) with (has_flag F_CHUNKED P). rewrite T2.
    change (hp_content_length P1 =? 0) with true. cbn [andb assert_].
    change (CR =? CR) with true. cbn [negb]. cbn [x_pos].
    rewrite (data_record data M_body p e _ (c0 :: d) (CR :: LF :: rest)) by first [done|lia]. reflexivity. }
  set (P3 := set_state s_chunk_size_start (set_nread 0 P2)).
  assert (step' (plain P2 s_chunk_data_done (e + 1) (E_body (c0 :: d) :: ev)) LF =
    Some (Next (plain P3 s_chunk_size_start (e + 1) (E_chunk_complete :: E_body (c0 :: d) :: ev)))) as S3.
  { unfold step, step_chunk_data_done, chunked. cbn [x_state plain x_parser].
    change (has_flag F_CHUNKED P2) with (has_flag F_CHUNKED P). rewrite T2. cbn [assert_].
    change (LF =? LF) with true. cbn [negb]. by rewrite (notify_record E_chunk_complete). }
  exists P3. split; [|by constructor].
  pose proof (runs_body lenient data (plain P s_chunk_data p ev) c0 _ _ Hp Hd eq_refl S1 ltac:(cbn; lia)) as G1.
  cbn [x_pos] in G1. unfold at_pos in G1.
  cbn [x_parser x_state x_header_field x_header_value x_url x_body x_status x_app] in G1.
  replace (e - 1 + 1) with e in G1 by lia.
  pose proof (runs_body lenient data (mkCtx P1 s_chunk_data_almost_done e None None None (Some p) None ev) CR _ _
    ltac:(cbn; lia) Hd1 eq_refl S2 ltac:(cbn; lia)) as G2.
  pose proof (runs_body lenient data (plain P2 s_chunk_data_done (e + 1) (E_body (c0 :: d) :: ev)) LF _ _
    ltac:(cbn; lia) Hd2 eq_refl S3 ltac:(cbn; lia)) as G3.
  replace (e + 2) with (e + 1 + 1) by lia.
  eapply runs_trans; [exact G1|]. eapply runs_trans; [exact G2|exact G3].
Qed.

(** The empty line after the last chunk. *)
Lemma last_runs P p ev rest : 0 <= p -> dropZ p data = CR :: LF :: rest -> in_chunks 0 P ->
  has_flag F_TRAILING P = true ->
  exists P1, go (plain P s_header_field_start p ev)
      (plain P1 (NEW_MESSAGE P1) (p + 2) (E_message_complete :: E_chunk_complete :: ev)) /\ hp_errno P1 = HPE_OK.
Proof.
  intros Hp Hd HP Htr. assert (HTTP_MAX_HEADER_SIZE = 81920) as Hm by done.
  pose proof (dropZ_cons _ _ _ _ Hd Hp) as (_ & Hd1 & _).
  pose proof (dropZ_cons _ _ _ _ Hd1 ltac:(lia)) as (Hrd & _ & Hlt).
  set (P1 := set_nread 1 P). assert (in_chunks 1 P1) as [T1 T2 T3 T4] by (destruct HP; by constructor).
  assert (go (plain P s_header_field_start p ev) (plain P1 s_headers_almost_done (p + 1) ev)) as G0.
  { eapply (chunk_byte 0 P s_header_field_start p ev CR); first [exact Hd|exact HP|reflexivity|done|lia]. }
  set (P2 := set_state s_message_done (set_nread 2 P1)).
  assert (step' (plain (set_nread (1 + 1) P1) s_headers_almost_done (p + 1) ev) LF =
    Some (Reexec (plain P2 s_message_done (p + 1) (E_chunk_complete :: ev)))) as S1.
  { unfold step, step_headers_almost_done. cbn [x_state plain x_parser]. change (LF =? LF) with true. cbn [negb].
    cbv zeta. change (has_flag F_TRAILING (set_nread (1 + 1) P1)) with (has_flag F_TRAILING P). rewrite Htr.
    by rewrite (notify_record E_chunk_complete). }
  set (P3 := set_state (NEW_MESSAGE P2) P2).
  assert (step' (plain P2 s_message_done (p + 1) (E_chunk_complete :: ev)) LF =
    Some (Next (plain P3 (NEW_MESSAGE P3) (p + 1) (E_message_complete :: E_chunk_complete :: ev)))) as S2.
  { unfold step, step_message_done, message_complete. cbn [x_state plain].
    rewrite (notify_record E_message_complete) by done. change (hp_upgrade _) with (hp_upgrade P1). rewrite T3.
    reflexivity. }
  exists P3. split; [|done]. eapply runs_trans; [exact G0|].
  pose proof (runs_iter lenient data (plain P1 s_headers_almost_done (p + 1) ev)
    (plain P3 (NEW_MESSAGE P3) (p + 1) (E_message_complete :: E_chunk_complete :: ev))) as G1.
  cbn [x_pos plain] in G1. specialize (G1 ltac:(lia)).
  rewrite exec_iter_header in G1 by (cbn [x_parser x_state plain]; rewrite ?T4; done || lia).
  cbn [x_parser plain] in G1. rewrite T4 in G1.
  rewrite (exec_byte_reexec lenient data 7 _ LF (plain P2 s_message_done (p + 1) (E_chunk_complete :: ev))) in G1
    by (first [exact Hrd|exact S1]).
  rewrite (exec_byte_next lenient data 6 (plain P2 s_message_done (p + 1) (E_chunk_complete :: ev)) LF _ Hrd S2) in G1.
  replace (p + 2) with (p + 1 + 1) by lia. apply G1; [done|lia].
Qed.
End Chunks.

(** ** Chunked bodies *)

(** A chunk: the digits of its size and its data. *)
Definition print_chunk (c : list Z * list Z) : list Z := size_line (fst c) ++ snd c ++ [CR; LF].

Record chunk_ok (c : list Z * list Z) : Prop := {
  ck_digits : fst c <> [] /\ Forall is_hex (fst c);
  ck_short : lenZ (fst c) + 2 <= HTTP_MAX_HEADER_SIZE;
  ck_data : snd c <> [];
  ck_size : hex_value 0 (fst c) = lenZ (snd c);
}.

Definition chunk_events (c : list Z * list Z) : list Event :=
  [E_chunk_header (lenZ (snd c)); E_body (snd c); E_chunk_complete].

(** The chunks, the last one ([z] spells 0) and the empty line. *)
Definition print_chunks (cs : list (list Z * list Z)) (z : list Z) : list Z :=
  concat (map print_chunk cs) ++ size_line z ++ [CR; LF].

Definition chunks_events (cs : list (list Z * list Z)) : list Event :=
  concat (map chunk_events cs) ++ [E_chunk_header 0; E_chunk_complete; E_message_complete].

Lemma chunk_runs lenient data P p ev c rest : lenZ data < 2 ^ 31 -> 0 <= p ->
  dropZ p data = print_chunk c ++ rest -> chunk_ok c -> in_chunks 0 P ->
  exists P1, runs lenient data (plain P s_chunk_size_start p ev)
    (plain P1 s_chunk_size_start (p + lenZ (print_chunk c)) (rev (chunk_events c) ++ ev)) /\ in_chunks 0 P1.
Proof.
  intros Hsmall Hp Hd [[Hne Hf] Hs Hdne Hv] HP. destruct c as [[|h hs] d]; [done|].
  unfold print_chunk in *. cbn [fst snd] in *. rewrite <- app_assoc in Hd.
  pose proof (dropZ_app_at _ _ _ _ Hd Hp) as Hd1. set (q := p + lenZ (size_line (h :: hs))) in *.
  pose proof (lenZ_nonneg (size_line (h :: hs))).
  assert (0 < lenZ d) as Hpos by (destruct d; [done|rewrite lenZ_cons; pose proof (lenZ_nonneg d); lia]).
  rewrite <- app_assoc in Hd1. cbn [app] in Hd1.
  assert (lenZ d < 2 ^ 60) as Hsm.
  { assert (lenZ (dropZ q data) = lenZ d + lenZ (CR :: LF :: rest)) as E by (by rewrite Hd1, lenZ_app).
    rewrite lenZ_dropZ in E. pose proof (lenZ_nonneg (CR :: LF :: rest)). lia. }
  destruct (size_line_runs lenient data P p ev h hs _ Hp Hd Hf HP Hs ltac:(lia)) as (P1 & G1 & H1 & C1 & _).
  fold q in G1. rewrite Hv in G1, C1. destruct (Z.eqb_spec (lenZ d) 0); [lia|].
  destruct (data_runs lenient data Hsmall P1 q (E_chunk_header (lenZ d) :: ev) d rest ltac:(lia) Hd1 H1 Hdne C1) as (P2 & G2 & H2).
  exists P2. split; [|done]. rewrite !lenZ_app. change (lenZ [CR; LF]) with 2.
  replace (p + (lenZ (size_line (h :: hs)) + (lenZ d + 2))) with (q + lenZ d + 2) by lia.
  eapply runs_trans; [exact G1|exact G2].
Qed.

Lemma chunks_run lenient data cs : forall P p ev rest, lenZ data < 2 ^ 31 -> 0 <= p ->
  dropZ p data = concat (map print_chunk cs) ++ rest -> Forall chunk_ok cs -> in_chunks 0 P ->
  exists P1, runs lenient data (plain P s_chunk_size_start p ev)
    (plain P1 s_chunk_size_start (p + lenZ (concat (map print_chunk cs)))
       (rev (concat (map chunk_events cs)) ++ ev)) /\ in_chunks 0 P1.
Proof.
  induction cs as [|c cs IH]; intros P p ev rest Hsmall Hp Hd Hf HP; cbn [map concat] in *.
  - exists P. rewrite lenZ_nil, Z.add_0_r. split; [apply runs_refl|done].
  - apply Forall_cons in Hf as [Hc Hf]. rewrite <- app_assoc in Hd. pose proof (lenZ_nonneg (print_chunk c)).
    destruct (chunk_runs lenient data P p ev c _ Hsmall Hp Hd Hc HP) as (P1 & G1 & H1).
    destruct (IH P1 (p + lenZ (print_chunk c)) (rev (chunk_events c) ++ ev) rest Hsmall ltac:(lia)
      (dropZ_app_at _ _ _ _ Hd Hp) Hf H1) as (P2 & G2 & H2).
    exists P2. rewrite lenZ_app, Z.add_assoc. split; [|done]. eapply runs_trans; [exact G1|].
    rewrite rev_app_distr, <- app_assoc. exact G2.
Qed.

(** C17: a chunked body is read back exactly: whatever the spelling of the
    sizes (upper or lower case, leading zeros; [hex_value] gives the digits
    their values by their codes, apart from the parser's table), the callbacks are told the size
    and the data of every chunk in order, then the end of the message; every
    byte is consumed and the next message may start if the connection is kept
    alive. *)
Theorem http_parser_execute_chunks cs z P ev :
  hp_state P = s_chunk_size_start -> in_chunks 0 P -> Forall chunk_ok cs ->
  z <> [] -> Forall is_hex z -> hex_value 0 z = 0 -> lenZ z + 2 <= HTTP_MAX_HEADER_SIZE ->
  lenZ (print_chunks cs z) < 2 ^ 31 ->
  exists P', http_parser_execute recording (print_chunks cs z) P ev =
      Some (lenZ (print_chunks cs z), P', rev (chunks_events cs) ++ ev) /\
    hp_errno P' = HPE_OK /\ hp_state P' = NEW_MESSAGE P'.
Proof.
  intros Hs HP Hcs Hz Hzf Hz0 Hzs Hlen. set (data := print_chunks cs z) in *.
  assert (dropZ 0 data = concat (map print_chunk cs) ++ size_line z ++ [CR; LF]) as Hd by done.
  destruct (chunks_run (hp_lenient P) data cs P 0 ev _ Hlen ltac:(lia) Hd Hcs HP) as (P1 & G1 & H1).
  pose proof (dropZ_app_at _ _ _ _ Hd ltac:(lia)) as Hd1.
  set (q := 0 + lenZ (concat (map print_chunk cs))) in *. assert (0 <= q) as Hq by apply lenZ_nonneg.
  destruct z as [|h hs]; [done|]. assert (hex_value 0 (h :: hs) < 2 ^ 60) as Hz60 by (rewrite Hz0; lia).
  destruct (size_line_runs (hp_lenient P) data P1 q (rev (concat (map chunk_events cs)) ++ ev) h hs _ Hq Hd1 Hzf H1 Hzs
    ltac:(lia)) as (P2 & G2 & H2 & _ & Htr).
  rewrite Hz0 in G2. cbn [Z.eqb] in G2. pose proof (dropZ_app_at _ _ _ _ Hd1 Hq) as Hd2.
  pose proof (lenZ_nonneg (size_line (h :: hs))).
  destruct (last_runs (hp_lenient P) data P2 (q + lenZ (size_line (h :: hs)))
    (E_chunk_header 0 :: rev (concat (map chunk_events cs)) ++ ev) [] ltac:(lia) Hd2 H2 (Htr Hz0)) as (P3 & G3 & H3).
  assert (q + lenZ (size_line (h :: hs)) + 2 = lenZ data) as Ee.
  { unfold data, print_chunks. rewrite !lenZ_app. change (lenZ [CR; LF]) with 2. lia. }
  rewrite Ee in G3.
  assert (initial_ctx P ev = plain P s_chunk_size_start 0 ev) as Ei by (unfold initial_ctx; by rewrite Hs).
  destruct (runs_trans _ _ _ _ _ G1 (runs_trans _ _ _ _ _ G2 G3) (length data)) as (fuel & _ & E);
    [unfold lenZ; simpl; lia|].
  rewrite loop_end in E by done. rewrite <- Ei in E.
  exists (set_state (NEW_MESSAGE P3) P3). split; [|done].
  unfold http_parser_execute. rewrite decide_True by apply HP.
  destruct data as [|b data0] eqn:Ed; [change (lenZ []) with 0 in Ee; lia|].
  rewrite E. unfold chunks_events. by rewrite rev_app_distr, <- app_assoc.
Qed.

(** A request whose header announced a chunked body. *)
Definition sample_chunked : http_parser :=
  set_state s_chunk_size_start (add_flag F_CHUNKED (http_parser_init HTTP_REQUEST)).

Ltac hex_code := first [left; split; vm_compute; discriminate | right; left; split; vm_compute; discriminate
  | right; right; split; vm_compute; discriminate].

Lemma http_parser_execute_chunks_witness :
  exists P', http_parser_execute recording (print_chunks [(chars "0a", repeat 65 10); (chars "C", repeat 66 12)] (chars "0"))
      sample_chunked [] =
      Some (lenZ (print_chunks [(chars "0a", repeat 65 10); (chars "C", repeat 66 12)] (chars "0")), P',
        rev (chunks_events [(chars "0a", repeat 65 10); (chars "C", repeat 66 12)]) ++ []) /\
    hp_errno P' = HPE_OK /\ hp_state P' = NEW_MESSAGE P'.
Proof.
  apply (http_parser_execute_chunks _ (chars "0") sample_chunked []);
    [done|by constructor| |done| |done|vm_compute; done|vm_compute; done].
  - repeat apply Forall_cons_2; [| |by apply Forall_nil]; (constructor; [split; [done|]|vm_compute; done|done|vm_compute; done]);
      cbn; repeat (apply Forall_cons_2; [hex_code|]); by apply Forall_nil.
  - cbn. apply Forall_cons_2; [hex_code|by apply Forall_nil].
Defined.
