(* ===== verification/HttpUrl.v ===== *)
(** * The HTTP parser: URLs

    [http_parser_parse_url] of [src/src/net/http/http_parser.c] with its host
    parser.  Offsets and lengths are the 16-bit fields of
    [struct http_parser_url]; [None] is a failed assertion or a read outside
    the buffer. *)

From stdpp Require Import base list numbers strings.
From Stdlib Require Import ZArith Lia.
From S2P Require Import Prelude CText HttpModel HttpExec HttpSafety HttpRuns.
Local Open Scope Z_scope.

(** ** Data *)

(** [enum http_parser_url_fields]; [UF_MAX] is the absence of a field. *)
Inductive http_parser_url_fields :=
| UF_SCHEMA | UF_HOST | UF_PORT | UF_PATH | UF_QUERY | UF_FRAGMENT | UF_USERINFO.

#[export] Instance http_parser_url_fields_eq_dec : EqDecision http_parser_url_fields.
Proof. solve_decision. Defined.

Definition uf_index (f : http_parser_url_fields) : Z :=
  match f with
  | UF_SCHEMA => 0 | UF_HOST => 1 | UF_PORT => 2 | UF_PATH => 3 | UF_QUERY => 4
  | UF_FRAGMENT => 5 | UF_USERINFO => 6
  end.

(** [struct http_parser_url] *)
Record http_parser_url := mkUrl {
  url_field_set : Z;
  url_port : Z;
  url_field_data : http_parser_url_fields -> Z * Z;   (* off, len *)
}.

(** [http_parser_url_init] *)
Definition http_parser_url_init : http_parser_url := mkUrl 0 0 (fun _ => (0, 0)).

Definition url_off (f : http_parser_url_fields) (u : http_parser_url) : Z := fst (url_field_data u f).
Definition url_len (f : http_parser_url_fields) (u : http_parser_url) : Z := snd (url_field_data u f).

(** [u->field_data[f].off = off], [.len = len] *)
Definition set_field (f : http_parser_url_fields) (off len : Z) (u : http_parser_url) : http_parser_url :=
  mkUrl (url_field_set u) (url_port u)
    (fun g => if decide (g = f) then (u16 off, u16 len) else url_field_data u g).

(** [u->field_data[f].len++] *)
Definition inc_len (f : http_parser_url_fields) (u : http_parser_url) : http_parser_url :=
  set_field f (url_off f u) (url_len f u + 1) u.

(** [1 << f], [u->field_set |= (1 << f)] and the test of the bit *)
Definition uf_bit (f : http_parser_url_fields) : Z := Z.shiftl 1 (uf_index f).
Definition mark_field (f : http_parser_url_fields) (u : http_parser_url) : http_parser_url :=
  mkUrl (u16 (Z.lor (url_field_set u) (uf_bit f))) (url_port u) (url_field_data u).
Definition has_field (f : http_parser_url_fields) (u : http_parser_url) : bool :=
  negb (Z.land (url_field_set u) (uf_bit f) =? 0).

(** ** The host *)

(** [enum http_host_state] *)
Inductive http_host_state :=
| s_http_host_dead | s_http_userinfo_start | s_http_userinfo | s_http_host_start
| s_http_host_v6_start | s_http_host | s_http_host_v6 | s_http_host_v6_end
| s_http_host_v6_zone_start | s_http_host_v6_zone | s_http_host_port_start | s_http_host_port.

#[export] Instance http_host_state_eq_dec : EqDecision http_host_state.
Proof. solve_decision. Defined.

(** [http_parse_host_char] *)
Definition http_parse_host_char (s : http_host_state) (ch : Z) : http_host_state :=
  let colon := if ch =? chr ":" then s_http_host_port_start else s_http_host_dead in
  let v6 := if IS_HEX ch || (ch =? chr ":") || (ch =? chr ".") then s_http_host_v6
            else if decide (s = s_http_host_v6) then
              if ch =? chr "%" then s_http_host_v6_zone_start else s_http_host_dead
            else s_http_host_dead in
  let zone := if IS_ALPHANUM ch || one_of "%.-_~" ch then s_http_host_v6_zone else s_http_host_dead in
  match s with
  | s_http_userinfo | s_http_userinfo_start =>
      if ch =? chr "@" then s_http_host_start
      else if IS_USERINFO_CHAR ch then s_http_userinfo else s_http_host_dead
  | s_http_host_start =>
      if ch =? chr "[" then s_http_host_v6_start
      else if IS_HOST_CHAR ch then s_http_host else s_http_host_dead
  | s_http_host => if IS_HOST_CHAR ch then s_http_host else colon
  | s_http_host_v6_end => colon
  | s_http_host_v6 => if ch =? chr "]" then s_http_host_v6_end else v6
  | s_http_host_v6_start => v6
  | s_http_host_v6_zone => if ch =? chr "]" then s_http_host_v6_end else zone
  | s_http_host_v6_zone_start => zone
  | s_http_host_port | s_http_host_port_start =>
      if IS_NUM ch then s_http_host_port else s_http_host_dead
  | s_http_host_dead => s_http_host_dead
  end.

(** The effect of entering or staying in a state at offset [p]. *)
Definition host_field (s new_s : http_host_state) (p : Z) (u : http_parser_url) : http_parser_url :=
  let enter f u := mark_field f (set_field f p 0 u) in
  let move u := set_field UF_HOST p (url_len UF_HOST u) u in
  match new_s with
  | s_http_host | s_http_host_v6 => inc_len UF_HOST (if decide (s = new_s) then u else move u)
  | s_http_host_v6_zone_start | s_http_host_v6_zone => inc_len UF_HOST u
  | s_http_host_port => inc_len UF_PORT (if decide (s = new_s) then u else enter UF_PORT u)
  | s_http_userinfo => inc_len UF_USERINFO (if decide (s = new_s) then u else enter UF_USERINFO u)
  | _ => u
  end.

(** The loop of [http_parse_host] over the [n] bytes from [p]; [None] in the
    result is [return 1]. *)
Fixpoint host_loop (buf : list Z) (n : nat) (p : Z) (s : http_host_state) (u : http_parser_url)
    : option (option http_host_state * http_parser_url) :=
  match n with
  | O => Some (Some s, u)
  | S n' =>
      ch ← rd buf p;
      let new_s := http_parse_host_char s ch in
      if decide (new_s = s_http_host_dead) then Some (None, u)
      else host_loop buf n' (p + 1) new_s (host_field s new_s p u)
  end.

(** [http_parse_host] *)
Definition http_parse_host (buf : list Z) (found_at : bool) (u : http_parser_url)
    : option (Z * http_parser_url) :=
  if has_field UF_HOST u then
    let off := url_off UF_HOST u in
    let len := url_len UF_HOST u in
    let u := set_field UF_HOST off 0 u in
    '(s, u) ← host_loop buf (Z.to_nat len) off
                (if found_at then s_http_userinfo_start else s_http_host_start) u;
    Some (match s with
          | None => 1
          | Some (s_http_host_start | s_http_host_v6_start | s_http_host_v6 | s_http_host_v6_zone_start
                 | s_http_host_v6_zone | s_http_host_port_start | s_http_userinfo | s_http_userinfo_start) => 1
          | Some _ => 0
          end, u)
  else None.

(** ** The URL *)

(** What a state of [parse_url_char] belongs to. *)
Inductive UrlPart := U_dead | U_delimiter | U_field (f : http_parser_url_fields) | U_unexpected.

Definition url_part (s : state) : UrlPart :=
  match s with
  | s_dead => U_dead
  | s_req_schema_slash | s_req_schema_slash_slash | s_req_server_start | s_req_query_string_start
  | s_req_fragment_start => U_delimiter
  | s_req_schema => U_field UF_SCHEMA
  | s_req_server_with_at | s_req_server => U_field UF_HOST
  | s_req_path => U_field UF_PATH
  | s_req_query_string => U_field UF_QUERY
  | s_req_fragment => U_field UF_FRAGMENT
  | _ => U_unexpected
  end.

(** The loop over the characters; [inl] is [return 1]. *)
Fixpoint url_loop (rest : list Z) (p : Z) (s : state) (old_uf : option http_parser_url_fields)
    (found_at : bool) (u : http_parser_url) : option (http_parser_url + bool * http_parser_url) :=
  match rest with
  | [] => Some (inr (found_at, u))
  | ch :: rest' =>
      let s := parse_url_char s ch in
      match url_part s with
      | U_dead => Some (inl u)
      | U_unexpected => None
      | U_delimiter => url_loop rest' (p + 1) s old_uf found_at u
      | U_field uf =>
          let found_at := if decide (s = s_req_server_with_at) then true else found_at in
          if decide (old_uf = Some uf)
          then url_loop rest' (p + 1) s old_uf found_at (inc_len uf u)
          else url_loop rest' (p + 1) s (Some uf) found_at (mark_field uf (set_field uf p 1 u))
      end
  end.

(** The digits of the port; [None] in the result is [return 1]. *)
Fixpoint port_loop (digits : list Z) (v : Z) : option Z :=
  match digits with
  | [] => Some v
  | c :: digits' =>
      let v := u64 (u64 (v * 10) + (c - chr "0")) in
      if v >? 0xffff then None else port_loop digits' v
  end.

(** [http_parser_parse_url]: the result and the structure. *)
Definition http_parser_parse_url (buf : list Z) (is_connect : bool) (u : http_parser_url)
    : option (Z * http_parser_url) :=
  let buflen := lenZ buf in
  let u := mkUrl 0 0 (url_field_data u) in
  r ← url_loop buf 0 (if is_connect then s_req_server_start else s_req_spaces_before_url) None false u;
  match r with
  | inl u => Some (1, u)
  | inr (found_at, u) =>
      if has_field UF_SCHEMA u && negb (has_field UF_HOST u) then Some (1, u)
      else
        '(r, u) ← (if has_field UF_HOST u then http_parse_host buf found_at u else Some (0, u));
        if negb (r =? 0) then Some (1, u)
        else if is_connect && negb (url_field_set u =? Z.lor (uf_bit UF_HOST) (uf_bit UF_PORT)) then Some (1, u)
        else if has_field UF_PORT u then
          let off := url_off UF_PORT u in
          let len := url_len UF_PORT u in
          if off + len <=? buflen then
            Some (match port_loop (takeZ len (dropZ off buf)) 0 with
                  | None => (1, u)
                  | Some v => (0, mkUrl (url_field_set u) (u16 v) (url_field_data u))
                  end)
          else None
        else Some (0, u)
  end.

(** ** Fields *)

Lemma land_bit n k : 0 <= k -> negb (Z.land n (Z.shiftl 1 k) =? 0) = Z.testbit n k.
Proof.
  intros Hk. rewrite Z.shiftl_1_l. destruct (Z.testbit n k) eqn:Eb.
  - destruct (Z.eqb_spec (Z.land n (2 ^ k)) 0) as [E|]; [|done]. exfalso.
    assert (Z.testbit (Z.land n (2 ^ k)) k = false) as H by (rewrite E; apply Z.bits_0).
    rewrite Z.land_spec, Eb, Z.pow2_bits_true in H by done. done.
  - destruct (Z.eqb_spec (Z.land n (2 ^ k)) 0) as [|Hn]; [done|]. exfalso. apply Hn. apply Z.bits_inj_0. intros j.
    rewrite Z.land_spec. destruct (decide (j = k)) as [->|Hj]; [by rewrite Eb|].
    rewrite Z.pow2_bits_false by done. apply andb_false_r.
Qed.

Lemma has_mark f g u : has_field g (mark_field f u) = bool_decide (g = f) || has_field g u.
Proof.
  unfold has_field, uf_bit. rewrite !land_bit by (destruct g; simpl; lia). unfold mark_field, uf_bit.
  cbn [url_field_set]. unfold uwrap.
  rewrite Z.mod_pow2_bits_low by (destruct g; simpl; lia). rewrite Z.lor_spec, orb_comm. f_equal.
  rewrite Z.shiftl_1_l. destruct (decide (g = f)) as [->|Hne].
  - rewrite bool_decide_eq_true_2 by done. apply Z.pow2_bits_true. destruct f; simpl; lia.
  - rewrite bool_decide_eq_false_2 by done. apply Z.pow2_bits_false. destruct f, g; simpl; done || lia.
Qed.

Lemma has_set f g off len u : has_field g (set_field f off len u) = has_field g u.
Proof. done. Qed.

Lemma field_mark f u : url_field_data (mark_field f u) = url_field_data u.
Proof. done. Qed.

Lemma off_set f g off len u : 0 <= off < 65536 ->
  url_off g (set_field f off len u) = if decide (g = f) then off else url_off g u.
Proof. intros H. unfold url_off, set_field. cbn [url_field_data]. case_decide; [by apply uwrap_small|done]. Qed.

Lemma len_set f g off len u : 0 <= len < 65536 ->
  url_len g (set_field f off len u) = if decide (g = f) then len else url_len g u.
Proof. intros H. unfold url_len, set_field. cbn [url_field_data]. case_decide; [by apply uwrap_small|done]. Qed.

Lemma off_mark f g u : url_off g (mark_field f u) = url_off g u.
Proof. done. Qed.
Lemma len_mark f g u : url_len g (mark_field f u) = url_len g u.
Proof. done. Qed.

(** A non-empty field inside the first [q] bytes. *)
Definition within (q : Z) (f : http_parser_url_fields) (u : http_parser_url) : Prop :=
  0 <= url_off f u /\ 0 < url_len f u /\ url_off f u + url_len f u <= q.

Definition all_within (q : Z) (u : http_parser_url) : Prop := forall f, has_field f u = true -> within q f u.

Ltac url_fields := rewrite ?off_mark, ?len_mark, ?off_set, ?len_set, ?has_mark, ?has_set by lia.

Lemma within_inc q f u : within q f u -> q < 65535 -> within (q + 1) f (inc_len f u).
Proof.
  intros (H1 & H2 & H3) Hq. unfold within, inc_len. rewrite off_set, len_set by lia.
  rewrite !decide_True by done. lia.
Qed.

Lemma within_inc_other q f g u : g <> f -> within q f u -> 0 <= url_off g u < 65536 -> 0 <= url_len g u < 65535 ->
  within q f (inc_len g u).
Proof.
  intros Hne (H1 & H2 & H3) Hg1 Hg2. unfold within, inc_len. rewrite off_set, len_set by lia.
  by rewrite !decide_False by done.
Qed.

Lemma within_le q q' f u : q <= q' -> within q f u -> within q' f u.
Proof. unfold within. lia. Qed.

Record url_inv (p : Z) (old : option http_parser_url_fields) (u : http_parser_url) : Prop := {
  ui_within : all_within p u;
  ui_old : match old with Some f => has_field f u = true | None => True end;
  ui_host : has_field UF_PORT u = false /\ has_field UF_USERINFO u = false;
}.

Lemma url_loop_ok rest : forall p s old at_ u, 0 <= p -> p + lenZ rest < 65536 -> url_inv p old u ->
  exists r, url_loop rest p s old at_ u = Some r /\
    match r with inl _ => True | inr (_, u') => exists old', url_inv (p + lenZ rest) old' u' end.
Proof.
  induction rest as [|ch rest IH]; intros p s old at_ u Hp Hl Hu; cbn [url_loop].
  - eexists. split; [done|]. rewrite lenZ_nil, Z.add_0_r. by exists old.
  - rewrite lenZ_cons in *. pose proof (lenZ_nonneg rest).
    assert (url_inv (p + 1) old u) as Hu1.
    { destruct Hu as [H1 H2 H3]. constructor; try done. intros f Hf. apply (within_le p); [lia|by apply H1]. }
    replace (p + (1 + lenZ rest)) with (p + 1 + lenZ rest) by lia.
    set (s' := parse_url_char s ch). destruct (url_part s') as [| |f|] eqn:Ep.
    + by eexists.
    + apply IH; [lia|lia|done].
    + destruct Hu as [H1 H2 [H3 H4]].
      assert (f <> UF_PORT /\ f <> UF_USERINFO) as [Hf1 Hf2] by (clear -Ep; clearbody s'; destruct s'; simpl in Ep; by simplify_eq).
      case_decide as Hold.
      * subst old. apply IH; [lia|lia|]. specialize (H1 f H2) as Hw. constructor; [|done|done].
        intros g Hg. change (has_field g (inc_len f u)) with (has_field g u) in Hg.
        destruct (decide (g = f)) as [->|Hne]; [apply within_inc; [done|lia]|].
        destruct Hw as (W1 & W2 & W3). apply within_inc_other; [done|apply (within_le p); [lia|by apply H1]|lia..].
      * apply IH; [lia|lia|]. constructor.
        -- intros g Hg. rewrite has_mark, has_set in Hg. unfold within. url_fields. destruct (decide (g = f)) as [|Hgf]; [lia|].
           rewrite bool_decide_eq_false_2 in Hg by done. specialize (H1 g Hg) as (W1 & W2 & W3). lia.
        -- by rewrite has_mark, bool_decide_eq_true_2.
        -- rewrite !has_mark, !has_set, H3, H4, !bool_decide_eq_false_2 by congruence. done.
    + exfalso. destruct (parse_url_char_state s ch) as [E|E]; fold s' in E; destruct s'; done.
Qed.

(** ** The host loop *)

Definition host_pending (s : http_host_state) : bool :=
  match s with
  | s_http_userinfo_start | s_http_userinfo | s_http_host_start | s_http_host_v6_start => true
  | _ => false
  end.

Definition host_open (s : http_host_state) : bool :=
  match s with
  | s_http_host | s_http_host_v6 | s_http_host_v6_zone_start | s_http_host_v6_zone => true
  | _ => false
  end.

(** The digits of the port field. *)
Definition port_digits (buf : list Z) (u : http_parser_url) : list Z :=
  takeZ (url_len UF_PORT u) (dropZ (url_off UF_PORT u) buf).

(** What the fields are when [http_parse_host] is at [p] in state [s]. *)
Record host_inv (buf : list Z) (u0 : http_parser_url) (p : Z) (s : http_host_state) (u : http_parser_url) : Prop := {
  hi_alive : s <> s_http_host_dead;
  hi_other : forall f, f <> UF_HOST -> f <> UF_PORT -> f <> UF_USERINFO ->
    has_field f u = has_field f u0 /\ url_field_data u f = url_field_data u0 f;
  hi_set : has_field UF_HOST u = true;
  hi_pending : host_pending s = true -> url_len UF_HOST u = 0;
  hi_host : host_pending s = false -> within p UF_HOST u;
  hi_host_open : host_open s = true -> url_off UF_HOST u + url_len UF_HOST u = p;
  hi_port : has_field UF_PORT u = bool_decide (s = s_http_host_port);
  hi_port_open : s = s_http_host_port ->
    within p UF_PORT u /\ url_off UF_PORT u + url_len UF_PORT u = p /\ Forall is_num (port_digits buf u);
  hi_user : has_field UF_USERINFO u = true -> within p UF_USERINFO u;
  hi_user_open : s = s_http_userinfo ->
    has_field UF_USERINFO u = true /\ url_off UF_USERINFO u + url_len UF_USERINFO u = p;
}.

Lemma port_digits_grow (buf : list Z) p o l ch : 0 <= o -> 0 <= l -> o + l = p -> rd buf p = Some ch ->
  takeZ (l + 1) (dropZ o buf) = (takeZ l (dropZ o buf) ++ [ch])%list.
Proof.
  intros Ho Hl Hp Hr. assert (rd (dropZ o buf) l = Some ch) as H by (rewrite rd_dropZ by lia; by rewrite Hp).
  unfold rd in H. destruct (Z.ltb_spec l 0); [done|]. unfold takeZ.
  replace (Z.to_nat (l + 1)) with (S (Z.to_nat l)) by lia. by apply take_S_r.
Qed.

(** Field [f] becomes [o], [l]; the others stay. *)
Definition updates (f : http_parser_url_fields) (o l : Z) (u u' : http_parser_url) : Prop :=
  url_off f u' = o /\ url_len f u' = l /\ has_field f u' = true /\
  forall g, g <> f -> has_field g u' = has_field g u /\ url_field_data u' g = url_field_data u g.

Lemma updates_grow f u : has_field f u = true -> 0 <= url_off f u -> 0 <= url_len f u -> url_off f u + url_len f u < 65535 ->
  updates f (url_off f u) (url_len f u + 1) u (inc_len f u).
Proof.
  intros Hs Ho Hl Hb. unfold updates, inc_len. rewrite off_set, len_set, !decide_True by (done || lia).
  split_and!; try done. intros g Hg. split; [done|]. cbn [set_field url_field_data]. by rewrite decide_False.
Qed.

Lemma updates_enter f p u : 0 <= p < 65535 ->
  updates f p 1 u (inc_len f (mark_field f (set_field f p 0 u))).
Proof.
  intros Hp. set (v := mark_field f (set_field f p 0 u)).
  assert (url_off f v = p /\ url_len f v = 0 /\ has_field f v = true) as (Eo & El & Eh).
  { unfold v. url_fields. by rewrite !decide_True, bool_decide_eq_true_2. }
  destruct (updates_grow f v Eh ltac:(lia) ltac:(lia) ltac:(lia)) as (H1 & H2 & H3 & H4). rewrite Eo, El in *.
  split_and!; try done. intros g Hg. destruct (H4 g Hg) as [-> ->]. unfold v. rewrite has_mark, has_set.
  rewrite bool_decide_eq_false_2 by done. split; [done|]. cbn [mark_field set_field url_field_data]. by rewrite decide_False.
Qed.

Lemma updates_move p u : 0 <= p < 65535 -> has_field UF_HOST u = true -> url_len UF_HOST u = 0 ->
  updates UF_HOST p 1 u (inc_len UF_HOST (set_field UF_HOST p (url_len UF_HOST u) u)).
Proof.
  intros Hp Hh Hl. rewrite Hl. set (v := set_field UF_HOST p 0 u).
  assert (url_off UF_HOST v = p /\ url_len UF_HOST v = 0) as (Eo & El) by (unfold v; url_fields; by rewrite !decide_True).
  destruct (updates_grow UF_HOST v Hh ltac:(lia) ltac:(lia) ltac:(lia)) as (H1 & H2 & H3 & H4). rewrite Eo, El in *.
  split_and!; try done. intros g Hg. destruct (H4 g Hg) as [-> ->]. unfold v.
  split; [done|]. cbn [set_field url_field_data]. by rewrite decide_False.
Qed.

(** The states that may follow. *)
Definition host_succ (s s' : http_host_state) : bool :=
  match s' with
  | s_http_userinfo | s_http_host_start => bool_decide (s = s_http_userinfo_start \/ s = s_http_userinfo)
  | s_http_host_v6_start => bool_decide (s = s_http_host_start)
  | s_http_host => bool_decide (s = s_http_host_start \/ s = s_http_host)
  | s_http_host_v6 => bool_decide (s = s_http_host_v6_start \/ s = s_http_host_v6)
  | s_http_host_v6_end => bool_decide (s = s_http_host_v6 \/ s = s_http_host_v6_zone)
  | s_http_host_v6_zone_start => bool_decide (s = s_http_host_v6)
  | s_http_host_v6_zone => bool_decide (s = s_http_host_v6_zone_start \/ s = s_http_host_v6_zone)
  | s_http_host_port_start => bool_decide (s = s_http_host \/ s = s_http_host_v6_end)
  | s_http_host_port => bool_decide (s = s_http_host_port_start \/ s = s_http_host_port)
  | s_http_userinfo_start | s_http_host_dead => false
  end.

Lemma host_char_succ s ch s' : http_parse_host_char s ch = s' -> s' <> s_http_host_dead ->
  host_succ s s' = true /\ (s' = s_http_host_port -> is_num ch).
Proof.
  intros <- Hd. unfold http_parse_host_char, is_num in *. destruct s; cbn [decide] in *;
    repeat match goal with |- context [if ?b then _ else _] => destruct b eqn:? end; done.
Qed.

(** What a step does to the fields. *)
Lemma host_field_updates buf u0 p s u s' : 0 <= p < 65535 -> host_inv buf u0 p s u -> host_succ s s' = true ->
  match s' with
  | s_http_host | s_http_host_v6 =>
      if decide (s = s') then updates UF_HOST (url_off UF_HOST u) (url_len UF_HOST u + 1) u (host_field s s' p u)
      else updates UF_HOST p 1 u (host_field s s' p u)
  | s_http_host_v6_zone_start | s_http_host_v6_zone =>
      updates UF_HOST (url_off UF_HOST u) (url_len UF_HOST u + 1) u (host_field s s' p u)
  | s_http_host_port =>
      if decide (s = s') then updates UF_PORT (url_off UF_PORT u) (url_len UF_PORT u + 1) u (host_field s s' p u)
      else updates UF_PORT p 1 u (host_field s s' p u)
  | s_http_userinfo =>
      if decide (s = s') then updates UF_USERINFO (url_off UF_USERINFO u) (url_len UF_USERINFO u + 1) u (host_field s s' p u)
      else updates UF_USERINFO p 1 u (host_field s s' p u)
  | _ => host_field s s' p u = u
  end.
Proof.
  intros Hp [_ _ Hset Hpend Hhost Hho Hport Hpo Hu Huo] Hs.
  destruct (decide (s = s')) as [->|Hss]; destruct s'; try done; unfold host_field;
    rewrite ?(decide_False (P := s = _)) by done; rewrite ?decide_True by done;
    try (apply updates_enter; lia).
  - destruct (Huo eq_refl) as (H1 & H2). destruct (Hu H1) as (W1 & W2 & W3). apply updates_grow; done || lia.
  - destruct (Hhost eq_refl) as (W1 & W2 & W3). apply updates_grow; done || lia.
  - destruct (Hhost eq_refl) as (W1 & W2 & W3). apply updates_grow; done || lia.
  - destruct (Hhost eq_refl) as (W1 & W2 & W3). apply updates_grow; done || lia.
  - destruct (Hpo eq_refl) as ((W1 & W2 & W3) & H1 & _). apply updates_grow; done || lia.
  - apply updates_move; [done..|]. apply Hpend. destruct s; done.
  - apply updates_move; [done..|]. apply Hpend. destruct s; done.
  - destruct s; try done. destruct (Hhost eq_refl) as (W1 & W2 & W3). apply updates_grow; done || lia.
  - destruct s; try done; destruct (Hhost eq_refl) as (W1 & W2 & W3); apply updates_grow; done || lia.
Qed.

Lemma updates_other f o l u u' g : updates f o l u u' -> g <> f ->
  has_field g u' = has_field g u /\ url_off g u' = url_off g u /\ url_len g u' = url_len g u.
Proof. intros (_ & _ & _ & H) Hg. destruct (H g Hg) as [-> E]. unfold url_off, url_len. by rewrite E. Qed.

(** The facts about the three fields a host step may change. *)
Ltac host_facts Hup :=
  let go g := (try (destruct (updates_other _ _ _ _ _ g Hup ltac:(discriminate)) as (?Eh & ?Eo & ?El))) in
  go UF_HOST; go UF_PORT; go UF_USERINFO; destruct Hup as (?Eo & ?El & ?Eh & ?Eoth).

Ltac host_rewrite u' :=
  repeat match goal with
  | H : has_field _ u' = _ |- _ => rewrite H in *; clear H
  | H : url_off _ u' = _ |- _ => rewrite H in *; clear H
  | H : url_len _ u' = _ |- _ => rewrite H in *; clear H
  end.

Ltac host_use H := try (let T := type of H in match T with ?a = ?a -> _ => specialize (H eq_refl) end).

(** One byte keeps the invariant. *)
Lemma host_step buf u0 p s u ch s' : 0 <= p < 65535 -> rd buf p = Some ch -> host_inv buf u0 p s u ->
  http_parse_host_char s ch = s' -> s' <> s_http_host_dead -> host_inv buf u0 (p + 1) s' (host_field s s' p u).
Proof.
  intros Hp Hr Hi Hs Hd. destruct (host_char_succ _ _ _ Hs Hd) as [Hsucc Hnum]. clear Hs.
  pose proof (host_field_updates buf u0 p s u s' Hp Hi Hsucc) as Hup.
  set (u' := host_field s s' p u) in *. clearbody u'.
  destruct Hi as [_ Hoth Hset Hpend Hhost Hho Hport Hpo Hu Huo].
  destruct s' eqn:Es'; try done.
  all: destruct s; try done; cbn in Hup, Hpend, Hhost, Hho;
    rewrite ?bool_decide_eq_false_2 in Hport by done; rewrite ?bool_decide_eq_true_2 in Hport by done.
  all: first [subst u' | host_facts Hup].
  all: constructor; unfold within in *; cbn [host_pending host_open];
    rewrite ?bool_decide_eq_false_2 by done; rewrite ?bool_decide_eq_true_2 by done;
    [done | intros g ? ? ?; try (destruct (Eoth g ltac:(done)) as [-> ->]); by apply Hoth | ..].
  all: host_use Hpend; host_use Hhost; host_use Hho; host_use Hpo; host_use Huo.
  all: unfold within in *; try (intros; host_rewrite u'; first [done | congruence | intuition congruence | intuition lia]).
  all: try (host_rewrite u'; intros Hg; specialize (Hu Hg); lia).
  all: intros _; specialize (Hnum eq_refl); unfold port_digits in *; host_rewrite u'; split_and!; try lia.
  - change 1 with (0 + 1). rewrite (port_digits_grow _ p _ _ ch) by (done || lia). by apply Forall_singleton.
  - rewrite (port_digits_grow _ p _ _ ch) by (done || lia). apply Forall_app. split; [apply Hpo|by apply Forall_singleton].
Qed.

Lemma host_loop_ok buf u0 n : forall p s u, 0 <= p -> p + Z.of_nat n <= lenZ buf -> lenZ buf < 65536 ->
  host_inv buf u0 p s u -> exists r u', host_loop buf n p s u = Some (r, u') /\
    match r with Some s' => host_inv buf u0 (p + Z.of_nat n) s' u' | None => True end.
Proof.
  induction n as [|n IH]; intros p s u Hp Hl Hb Hi; cbn [host_loop].
  - exists (Some s), u. by rewrite Z.add_0_r.
  - destruct (rd_is_Some buf p ltac:(lia)) as [ch Hr]. rewrite Hr. cbn [mbind option_bind].
    case_decide as Hd; [by exists None, u|].
    replace (p + Z.of_nat (S n)) with (p + 1 + Z.of_nat n) by lia.
    apply IH; [lia..|done|]. apply (host_step _ _ _ _ _ ch); done || lia.
Qed.

(** [http_parse_host] on what the URL loop leaves. *)
Lemma http_parse_host_ok buf old at_ u : lenZ buf < 65536 -> url_inv (lenZ buf) old u -> has_field UF_HOST u = true ->
  exists r u', http_parse_host buf at_ u = Some (r, u') /\ (r = 0 \/ r = 1) /\
    (r = 0 -> exists p s', p <= lenZ buf /\ host_pending s' = false /\ host_inv buf u p s' u').
Proof.
  intros Hb [Hw Hold [Hp Hui]] Hh. unfold http_parse_host. rewrite Hh. destruct (Hw _ Hh) as (W1 & W2 & W3).
  set (off := url_off UF_HOST u) in *. set (len := url_len UF_HOST u) in *.
  set (s := if at_ then s_http_userinfo_start else s_http_host_start).
  assert (host_inv buf u off s (set_field UF_HOST off 0 u)) as Hi.
  { assert (host_pending s = true /\ host_open s = false /\ s <> s_http_host_dead /\ s <> s_http_host_port /\ s <> s_http_userinfo)
      as (S1 & S2 & S3 & S4 & S5) by (unfold s; by destruct at_).
    constructor; rewrite ?has_set, ?S1, ?S2; try done.
    - intros f H1 H2 H3. cbn [set_field url_field_data]. by rewrite decide_False.
    - by rewrite bool_decide_eq_false_2, Hp.
    - by rewrite Hui. }
  destruct (host_loop_ok buf u (Z.to_nat len) off s _ W1 ltac:(lia) Hb Hi) as (r & u' & E & Hr).
  rewrite E. cbn [mbind option_bind]. destruct r as [s'|]; [|eexists _, _; split; [done|]; split; [by right|done]].
  replace (off + Z.of_nat (Z.to_nat len)) with (off + len) in Hr by lia.
  eexists _, _. split; [done|]. split; [destruct s'; auto|].
  intros H0. exists (off + len), s'. split; [lia|]. split; [by destruct s'|done].
Qed.

(** ** The port *)

Lemma port_loop_value ds : forall v, Forall is_num ds -> 0 <= v <= 65535 ->
  port_loop ds v = (if dec_value v ds <=? 65535 then Some (dec_value v ds) else None).
Proof.
  induction ds as [|d ds IH]; intros v Hf Hv; cbn [port_loop dec_value fold_left].
  - by rewrite (proj2 (Z.leb_le _ _)) by lia.
  - apply Forall_cons in Hf as [Hd Hf]. pose proof (IS_NUM_range _ Hd) as Hr. change (chr "0") with 48 in *.
    rewrite !uwrap_small by (rewrite ?uwrap_small; lia). rewrite Z.gtb_ltb.
    fold (dec_value (v * 10 + (d - 48)) ds). destruct (Z.ltb_spec 65535 (v * 10 + (d - 48))).
    + pose proof (dec_value_mono ds (v * 10 + (d - 48)) Hf ltac:(lia)). by rewrite (proj2 (Z.leb_gt _ _)) by lia.
    + apply IH; [done|lia].
Qed.

(** ** The claim *)

(** What a successful parse promises about the buffer: every field present is
    a non-empty part of it, a scheme comes with a host, a port is the value of
    its digits. *)
Record url_result (buf : list Z) (is_connect : bool) (u : http_parser_url) : Prop := {
  ur_within : forall f, has_field f u = true -> within (lenZ buf) f u;
  ur_schema : has_field UF_SCHEMA u = true -> has_field UF_HOST u = true;
  ur_connect : is_connect = true -> forall f, has_field f u = bool_decide (f = UF_HOST \/ f = UF_PORT);
  ur_port : has_field UF_PORT u = true ->
    Forall is_num (port_digits buf u) /\ url_port u = dec_value 0 (port_digits buf u) /\ url_port u <= 65535;
}.

Lemma connect_fields u : url_field_set u = Z.lor (uf_bit UF_HOST) (uf_bit UF_PORT) ->
  forall f, has_field f u = bool_decide (f = UF_HOST \/ f = UF_PORT).
Proof. intros E f. unfold has_field. rewrite E. by destruct f. Qed.

(** The checks after the host. *)
Lemma url_finish_ok buf is_connect w : all_within (lenZ buf) w ->
  (has_field UF_SCHEMA w = true -> has_field UF_HOST w = true) ->
  (has_field UF_PORT w = true -> Forall is_num (port_digits buf w)) ->
  exists r u',
    (if is_connect && negb (url_field_set w =? Z.lor (uf_bit UF_HOST) (uf_bit UF_PORT)) then Some (1, w)
     else if has_field UF_PORT w then
       if url_off UF_PORT w + url_len UF_PORT w <=? lenZ buf then
         Some (match port_loop (port_digits buf w) 0 with
               | None => (1, w)
               | Some v => (0, mkUrl (url_field_set w) (u16 v) (url_field_data w))
               end)
       else None
     else Some (0, w)) = Some (r, u') /\ (r = 0 \/ r = 1) /\ (r = 0 -> url_result buf is_connect u').
Proof.
  intros Hw Hs Hp. destruct (is_connect && _) eqn:Ec; [exists 1, w; split_and!; [done|by right|done]|].
  assert (is_connect = true -> forall f, has_field f w = bool_decide (f = UF_HOST \/ f = UF_PORT)) as Hc.
  { intros ->. apply connect_fields. by apply andb_false_iff in Ec as [|Ec%negb_false_iff%Z.eqb_eq]. }
  destruct (has_field UF_PORT w) eqn:Eport.
  - destruct (Hw _ Eport) as (W1 & W2 & W3). rewrite (proj2 (Z.leb_le _ _)) by lia. specialize (Hp eq_refl).
    rewrite port_loop_value by (done || lia). pose proof (dec_value_mono _ 0 Hp ltac:(lia)).
    destruct (Z.leb_spec (dec_value 0 (port_digits buf w)) 65535); [|exists 1, w; split_and!; [done|by right|done]].
    eexists 0, _. split_and!; [done|by left|]. intros _. constructor; [done..|].
    intros _. cbn [url_port]. rewrite uwrap_small by lia. done.
  - exists 0, w. split_and!; [done|by left|]. intros _. constructor; [done..|]. congruence.
Qed.

(** C18: on any buffer shorter than 64 KiB, [http_parser_parse_url] never fails
    an assertion and never reads outside the buffer, it returns 0 or 1, and
    after a 0 every field it marks is a non-empty range of the buffer, a URL
    with a scheme has a host, a CONNECT target has exactly a host and a port,
    and the port is the value of its digits and fits in 16 bits. *)
Theorem http_parser_parse_url_ok buf is_connect u (Hlen : lenZ buf < 65536) :
  exists r u', http_parser_parse_url buf is_connect u = Some (r, u') /\
    (r = 0 \/ r = 1) /\ (r = 0 -> url_result buf is_connect u').
Proof.
  unfold http_parser_parse_url. set (v := mkUrl 0 0 (url_field_data u)).
  assert (url_inv 0 None v) as Hv by (constructor; done).
  destruct (url_loop_ok buf 0 (if is_connect then s_req_server_start else s_req_spaces_before_url) None false v
    ltac:(lia) ltac:(lia) Hv) as (r & E & Hr). rewrite E. cbn [mbind option_bind]. clear E Hv.
  assert (forall w, exists r' u', Some (1, w) = Some (r', u') /\ (r' = 0 \/ r' = 1) /\ (r' = 0 -> url_result buf is_connect u'))
    as Hone by (intros w; exists 1, w; split_and!; [done|by right|done]).
  destruct r as [w|[at_ w]]; [apply Hone|]. destruct Hr as [old Hw]. rewrite Z.add_0_l in Hw.
  destruct (has_field UF_SCHEMA w && negb (has_field UF_HOST w)) eqn:Esch; [apply Hone|].
  destruct (has_field UF_HOST w) eqn:Eh.
  - destruct (http_parse_host_ok buf old at_ w Hlen Hw Eh) as (r & w' & E & Hr & Hi). rewrite E. cbn [mbind option_bind].
    destruct Hr as [->| ->]; cbn [Z.eqb negb]; [|apply Hone]. destruct (Hi eq_refl) as (p & s' & Hp & Hpend & Hinv). clear Hi.
    destruct Hinv as [_ Hoth Hset _ Hhost _ Hport Hpo Hu _]. apply url_finish_ok.
    + intros f Hf. destruct (decide (f = UF_HOST)) as [->|H1]; [apply (within_le p); auto|].
      destruct (decide (f = UF_PORT)) as [->|H2].
      { apply (within_le p); [done|]. apply Hpo. rewrite Hport in Hf. by apply bool_decide_eq_true in Hf. }
      destruct (decide (f = UF_USERINFO)) as [->|H3]; [apply (within_le p); auto|].
      destruct (Hoth f H1 H2 H3) as [Ef Ed]. rewrite Ef in Hf. destruct Hw as [Hw _ _].
      specialize (Hw f Hf). unfold within, url_off, url_len in *. by rewrite Ed.
    + by rewrite Hset.
    + rewrite Hport, bool_decide_eq_true. intros E'. by apply Hpo.
  - cbn [mbind option_bind]. apply url_finish_ok; [apply Hw| |].
    + rewrite Eh. by destruct (has_field UF_SCHEMA w).
    + destruct Hw as [_ _ [-> _]]. done.
Qed.

Lemma http_parser_parse_url_ok_witness :
  lenZ (chars "http://user@[fe80::1%eth0]:8080/data?key=1#top") < 65536 /\
  exists u', http_parser_parse_url (chars "http://user@[fe80::1%eth0]:8080/data?key=1#top") false http_parser_url_init = Some (0, u') /\
    url_result (chars "http://user@[fe80::1%eth0]:8080/data?key=1#top") false u' /\ url_port u' = 8080.
Proof.
  split; [done|].
  destruct (http_parser_parse_url_ok (chars "http://user@[fe80::1%eth0]:8080/data?key=1#top") false http_parser_url_init eq_refl)
    as (r & u' & E & _ & Hr).
  assert (r = 0 /\ url_port u' = 8080) as [-> Hport] by (vm_compute in E; by simplify_eq/=).
  exists u'. auto.
Defined.
