(* ===== verification/HttpObserve.v ===== *)
(** * The HTTP parser: callbacks that only observe

    [http_parser_execute] treats the application's state as opaque: two sets of
    callbacks that answer alike from related states drive it alike.  So what
    callbacks that never fail do to their state is what the events of the
    recording callbacks tell them, in order. *)

From stdpp Require Import base list numbers strings.
From Stdlib Require Import ZArith Lia.
From S2P Require Import Prelude CText HttpModel HttpExec HttpSafety.
Local Open Scope Z_scope.

Section Related.
Context {A B : Type} (S : http_parser_settings A) (T : http_parser_settings B) (R : A -> B -> Prop).
Context (lenient : bool) (data : list Z).

(** ** Related callbacks and contexts *)

Definition rel_cb (f : http_cb A) (g : http_cb B) : Prop := forall P a b, R a b ->
  exists r P' a' b', f P a = (r, P', a') /\ g P b = (r, P', b') /\ R a' b'.
Definition rel_data_cb (f : http_data_cb A) (g : http_data_cb B) : Prop := forall bytes, rel_cb (f bytes) (g bytes).
Definition rel_opt {X Y} (rel : X -> Y -> Prop) (o : option X) (o' : option Y) : Prop :=
  match o, o' with Some x, Some y => rel x y | None, None => True | _, _ => False end.

Record rel_settings : Prop := {
  rs_message_begin : rel_opt rel_cb (on_message_begin S) (on_message_begin T);
  rs_url : rel_opt rel_data_cb (on_url S) (on_url T);
  rs_status : rel_opt rel_data_cb (on_status S) (on_status T);
  rs_header_field : rel_opt rel_data_cb (on_header_field S) (on_header_field T);
  rs_header_value : rel_opt rel_data_cb (on_header_value S) (on_header_value T);
  rs_headers_complete : rel_opt rel_cb (on_headers_complete S) (on_headers_complete T);
  rs_body : rel_opt rel_data_cb (on_body S) (on_body T);
  rs_message_complete : rel_opt rel_cb (on_message_complete S) (on_message_complete T);
  rs_chunk_header : rel_opt rel_cb (on_chunk_header S) (on_chunk_header T);
  rs_chunk_complete : rel_opt rel_cb (on_chunk_complete S) (on_chunk_complete T);
}.
Context (Hset : rel_settings).

(** Contexts that differ in the application's state only. *)
Inductive rel_ctx : Ctx A -> Ctx B -> Prop :=
| rel_mkCtx P s p hf hv u bd st a b : R a b -> rel_ctx (mkCtx P s p hf hv u bd st a) (mkCtx P s p hf hv u bd st b).

Inductive rel_res : option (Res A) -> option (Res B) -> Prop :=
| rel_none : rel_res None None
| rel_next x y : rel_ctx x y -> rel_res (Some (Next x)) (Some (Next y))
| rel_reexec x y : rel_ctx x y -> rel_res (Some (Reexec x)) (Some (Reexec y))
| rel_ret n P a b : R a b -> rel_res (Some (Ret n P a)) (Some (Ret n P b))
| rel_err x y : rel_ctx x y -> rel_res (Some (Err x)) (Some (Err y)).

Definition rel_k (k : Ctx A -> option (Res A)) (k' : Ctx B -> option (Res B)) : Prop :=
  forall x y, rel_ctx x y -> rel_res (k x) (k' y).

(** ** The combinators *)

Lemma next_rel : rel_k next next.
Proof. intros x y H. by constructor. Qed.
Lemma reexecute_rel : rel_k reexecute reexecute.
Proof. intros x y H. by constructor. Qed.
Lemma return_next_rel : rel_k return_next return_next.
Proof. intros x y []. by constructor. Qed.
Lemma fail_rel e : rel_k (fail e) (fail e).
Proof. intros x y []. by repeat constructor. Qed.

Lemma callback_notify_rel f g e ret x y k k' : rel_opt rel_cb f g -> rel_ctx x y -> rel_k k k' ->
  rel_res (callback_notify f e ret x k) (callback_notify g e ret y k').
Proof.
  intros Hf [P s p hf hv u bd st a b Hab] Hk. unfold callback_notify. cbn [x_parser]. destruct (decide _); [|constructor].
  destruct f as [f|], g as [g|]; try done; [|by apply Hk]. cbn [x_state x_app].
  destruct (Hf (set_state s P) a b Hab) as (r & P' & a' & b' & -> & -> & Hab').
  destruct (decide _); [apply Hk; by constructor|by constructor].
Qed.

Lemma data_cb_rel m : rel_opt rel_data_cb (data_cb S m) (data_cb T m).
Proof. destruct m; apply Hset. Qed.

Lemma mark_of_rel m x y : rel_ctx x y -> mark_of m x = mark_of m y.
Proof. intros []. by destruct m. Qed.
Lemma set_mark_rel m v x y : rel_ctx x y -> rel_ctx (set_mark m v x) (set_mark m v y).
Proof. intros []. destruct m; by constructor. Qed.
Lemma MARK_rel m x y : rel_ctx x y -> rel_ctx (MARK m x) (MARK m y).
Proof.
  intros H. unfold MARK. rewrite (mark_of_rel m x y H). destruct (mark_of m y); [done|].
  replace (x_pos x) with (x_pos y) by (by destruct H). by apply set_mark_rel.
Qed.

Lemma MARK_pos {X} m (x : Ctx X) : x_pos (MARK m x) = x_pos x.
Proof. unfold MARK. by destruct (mark_of m x), m. Qed.

Lemma callback_data_rel m stop ret x y k k' : rel_ctx x y -> rel_k k k' ->
  rel_res (callback_data S data m stop ret x k) (callback_data T data m stop ret y k').
Proof.
  intros H Hk. unfold callback_data. rewrite (mark_of_rel m x y H). replace (x_parser y) with (x_parser x) by (by destruct H).
  destruct (decide _); [|constructor]. destruct (mark_of m y) as [start|]; [|by apply Hk].
  pose proof (data_cb_rel m) as Hf. destruct (data_cb S m) as [f|], (data_cb T m) as [g|]; try done; [|by apply Hk, set_mark_rel].
  destruct (between data start stop) as [bytes|]; [|constructor]. cbn [mbind option_bind]. destruct H as [P s p hf hv u bd st a b Hab].
  cbn [x_state x_parser x_app]. destruct (Hf bytes (set_state s P) a b Hab) as (r & P' & a' & b' & -> & -> & Hab').
  destruct (decide _); [apply Hk, set_mark_rel; by constructor|by constructor].
Qed.

Lemma with_parser_rel f x y : rel_ctx x y -> rel_ctx (with_parser f x) (with_parser f y).
Proof. intros []. by constructor. Qed.
Lemma goto_rel s x y : rel_ctx x y -> rel_ctx (goto s x) (goto s y).
Proof. intros []. by constructor. Qed.
Lemma at_pos_rel p x y : rel_ctx x y -> rel_ctx (at_pos p x) (at_pos p y).
Proof. intros []. by constructor. Qed.
Lemma with_app_rel a b x y : R a b -> rel_ctx x y -> rel_ctx (with_app a x) (with_app b y).
Proof. intros H []. by constructor. Qed.

Lemma new_message_rel x y : rel_ctx x y -> rel_ctx (new_message x) (new_message y).
Proof. apply with_parser_rel. Qed.

Lemma count_header_size_rel v x y k k' : rel_ctx x y -> rel_k k k' ->
  rel_res (count_header_size v x k) (count_header_size v y k').
Proof.
  intros [] Hk. unfold count_header_size. cbn [with_parser x_parser]. destruct (_ >? _); [by apply fail_rel; constructor|].
  apply Hk. by constructor.
Qed.

Lemma assert_rel b r r' : rel_res r r' -> rel_res (assert_ b r) (assert_ b r').
Proof. intros H. destruct b; [done|constructor]. Qed.

Lemma message_complete_rel x y k k' : rel_ctx x y -> rel_k k k' -> rel_res (message_complete S x k) (message_complete T y k').
Proof.
  intros H Hk. unfold message_complete. replace (x_pos y) with (x_pos x) by (by destruct H).
  replace (x_parser y) with (x_parser x) by (by destruct H). apply callback_notify_rel; [apply Hset|by apply goto_rel|done].
Qed.

(** ** The states *)

#[local] Hint Resolve with_parser_rel goto_rel at_pos_rel with_app_rel MARK_rel set_mark_rel new_message_rel next_rel reexecute_rel return_next_rel fail_rel : http_rel.
#[local] Hint Constructors rel_ctx rel_res : http_rel.

Ltac rel_simpl := cbn [x_parser x_state x_pos x_header_field x_header_value x_url x_body x_status x_app
  with_parser goto at_pos with_app MARK mark_of set_mark new_message mbind option_bind] in *.

(** Both sides decide alike. *)
Ltac rel_split :=
  match goal with
  | |- rel_res (match ?c with _ => _ end) (match ?c with _ => _ end) => destruct c
  | |- rel_res (?o ≫= _) (?o ≫= _) => destruct o
  end.

Ltac rel_leaf := first [apply fail_rel|apply next_rel|apply reexecute_rel|apply return_next_rel|idtac]; eauto 12 with http_rel.

Ltac rel_call :=
  match goal with
  | |- rel_res (callback_notify _ _ _ _ _) _ => apply callback_notify_rel; [apply Hset| |]
  | |- rel_res (callback_data _ _ _ _ _ _ _) _ => apply callback_data_rel
  | |- rel_res (message_complete _ _ _) _ => apply message_complete_rel
  | |- rel_res (count_header_size _ _ _) _ => apply count_header_size_rel
  | |- rel_res (assert_ _ _) _ => apply assert_rel
  end.

Ltac rel_step := repeat first [progress cbv zeta|progress rel_simpl|rel_split|rel_call|solve [rel_leaf]].

Lemma start_rel x y ch : rel_ctx x y ->
  rel_res (step_dead x ch) (step_dead y ch) /\ rel_res (step_start_req_or_res S x ch) (step_start_req_or_res T y ch) /\
  rel_res (step_res_or_resp_H x ch) (step_res_or_resp_H y ch) /\ rel_res (step_start_res S x ch) (step_start_res T y ch) /\
  rel_res (step_start_req S x ch) (step_start_req T y ch) /\ rel_res (step_req_method x ch) (step_req_method y ch).
Proof.
  intros []. unfold step_dead, step_start_req_or_res, step_res_or_resp_H, step_start_res, step_start_req, step_req_method, notify_begin.
  split_and!; rel_step.
Qed.

Lemma expect_rel c ch s x y : rel_ctx x y -> rel_res (expect c ch s x) (expect c ch s y).
Proof. intros []. unfold expect. rel_step. Qed.

Lemma version_rel set s x y ch : rel_ctx x y ->
  rel_res (version_digit set s x ch) (version_digit set s y ch) /\ rel_res (version_dot s x ch) (version_dot s y ch).
Proof. intros []. unfold version_digit, version_dot. split; rel_step. Qed.

Lemma status_rel x y ch : rel_ctx x y ->
  rel_res (step_res_http_end x ch) (step_res_http_end y ch) /\
  rel_res (step_res_first_status_code x ch) (step_res_first_status_code y ch) /\
  rel_res (step_res_status_code x ch) (step_res_status_code y ch) /\
  rel_res (step_res_status_start x ch) (step_res_status_start y ch) /\
  rel_res (step_res_status S data x ch) (step_res_status T data y ch).
Proof.
  intros []. unfold step_res_http_end, step_res_first_status_code, step_res_status_code, step_res_status_start, step_res_status.
  split_and!; rel_step.
Qed.

Lemma url_char_rel x y ch : rel_ctx x y -> rel_res (url_char x ch) (url_char y ch).
Proof. intros []. unfold url_char. rel_step. Qed.

Lemma url_rel x y ch : rel_ctx x y ->
  rel_res (step_req_spaces_before_url x ch) (step_req_spaces_before_url y ch) /\
  rel_res (step_req_url_start x ch) (step_req_url_start y ch) /\
  rel_res (step_req_url S data x ch) (step_req_url T data y ch) /\
  rel_res (step_req_http_start x ch) (step_req_http_start y ch) /\ rel_res (step_req_http_end x ch) (step_req_http_end y ch) /\
  rel_res (step_req_line_almost_done x ch) (step_req_line_almost_done y ch).
Proof.
  intros [P s p hf hv u bd st a b Hab]. unfold step_req_spaces_before_url, step_req_url_start, step_req_url, step_req_http_start,
    step_req_http_end, step_req_line_almost_done. destruct u, (decide (hp_method P = HTTP_CONNECT)) eqn:E.
  all: split_and!; rel_step; try (apply url_char_rel; rewrite ?E; eauto 12 with http_rel).
Qed.

Lemma field_rel x y ch : rel_ctx x y ->
  rel_res (step_header_field_start x ch) (step_header_field_start y ch) /\
  rel_res (step_header_field S data x) (step_header_field T data y).
Proof.
  intros []. unfold step_header_field_start, step_header_field. split; rel_step.
  intros x' y' []. rel_step.
Qed.

Lemma value_start_rel x y ch : rel_ctx x y -> rel_res (step_header_value_start x ch) (step_header_value_start y ch).
Proof. intros [P s p hf hv u bd st a b Hab]. unfold step_header_value_start. destruct hv; rel_step. Qed.

Lemma value_rel x y ch : rel_ctx x y ->
  rel_res (step_header_value_discard_ws x ch) (step_header_value_discard_ws y ch) /\
  rel_res (step_header_value_discard_lws S data x ch) (step_header_value_discard_lws T data y ch) /\
  rel_res (step_header_almost_done x ch) (step_header_almost_done y ch) /\
  rel_res (step_header_value_lws x ch) (step_header_value_lws y ch).
Proof.
  intros [P s p hf hv u bd st a b Hab].
  unfold step_header_value_discard_ws, step_header_value_discard_lws, step_header_almost_done, step_header_value_lws.
  split_and!; rel_step.
  - apply value_start_rel. by constructor.
  - rewrite !MARK_pos. apply callback_data_rel; rel_leaf.
Qed.

Lemma header_value_rel x y : rel_ctx x y -> rel_res (step_header_value S lenient data x) (step_header_value T lenient data y).
Proof.
  intros []. unfold step_header_value. cbn [x_pos x_parser]. destruct (header_value_loop _ _ _ _ _) as [e|]; [|constructor].
  cbn [mbind option_bind]. destruct e; rel_step; intros x' y' H'; rel_step.
Qed.

Lemma headers_end_rel x y ch : rel_ctx x y ->
  rel_res (step_headers_almost_done S x ch) (step_headers_almost_done T y ch) /\
  rel_res (step_headers_done S x ch) (step_headers_done T y ch).
Proof.
  intros [P s p hf hv u bd st a b Hab]. unfold step_headers_done, step_headers_almost_done. split; [|rel_step].
  destruct (negb _); [rel_step|]. cbn [x_parser]. destruct (has_flag F_TRAILING P); [rel_step|]. destruct (_ && _); [rel_step|]. cbv zeta.
  set (up := if has_flag F_UPGRADE P && _ then _ else _). clearbody up. rel_simpl.
  pose proof (rs_headers_complete Hset) as Hf. destruct (on_headers_complete S) as [f|], (on_headers_complete T) as [g|]; try done; [|rel_step].
  destruct (Hf (set_upgrade up P) a b Hab) as (r & P' & a' & b' & -> & -> & Hab'). rel_step.
Qed.

Lemma consume_body_rel x y : rel_ctx x y -> rel_ctx (consume_body data x) (consume_body data y).
Proof. intros [P s p hf hv u bd st a b Hab]. unfold consume_body, to_read. destruct bd; rel_simpl; eauto 12 with http_rel. Qed.

Lemma body_rel x y : rel_ctx x y ->
  rel_res (step_body_identity S data x) (step_body_identity T data y) /\
  rel_res (step_body_identity_eof data x) (step_body_identity_eof data y) /\ rel_res (step_message_done S x) (step_message_done T y).
Proof.
  intros H. unfold step_body_identity, step_body_identity_eof, step_message_done.
  replace (body_pending y) with (body_pending x) by (by destruct H). pose proof (consume_body_rel x y H) as Hc. split_and!.
  - apply assert_rel. cbv zeta. destruct Hc. rel_step.
  - rel_leaf.
  - apply message_complete_rel; [done|]. intros x' y' []. rel_step.
Qed.

Lemma chunk_rel x y ch : rel_ctx x y ->
  rel_res (step_chunk_size_start x ch) (step_chunk_size_start y ch) /\ rel_res (step_chunk_size x ch) (step_chunk_size y ch) /\
  rel_res (step_chunk_parameters x ch) (step_chunk_parameters y ch) /\
  rel_res (step_chunk_size_almost_done S x ch) (step_chunk_size_almost_done T y ch) /\
  rel_res (step_chunk_data data x) (step_chunk_data data y) /\
  rel_res (step_chunk_data_almost_done S data x ch) (step_chunk_data_almost_done T data y ch) /\
  rel_res (step_chunk_data_done S x ch) (step_chunk_data_done T y ch).
Proof.
  intros H. pose proof (consume_body_rel x y H) as Hc. 
  unfold step_chunk_size_start, step_chunk_size, step_chunk_parameters, step_chunk_size_almost_done, step_chunk_data,
    step_chunk_data_almost_done, step_chunk_data_done. replace (body_pending y) with (body_pending x) by (by destruct H).
  replace (chunked y) with (chunked x) by (by destruct H). destruct H, Hc. split_and!; rel_step.
  all: destruct (_ =? 0); rel_step.
Qed.

(** ** The loop *)

Lemma step_rel x y ch : rel_ctx x y -> rel_res (step S lenient data x ch) (step T lenient data y ch).
Proof.
  intros H. unfold step. replace (x_state y) with (x_state x) by (by destruct H).
  destruct (x_state x); first [by apply (start_rel x y ch)|by apply expect_rel|by apply version_rel|by apply (status_rel x y ch)
    |by apply (url_rel x y ch)|by apply (field_rel x y ch)|by apply (value_rel x y ch)|by apply value_start_rel|by apply header_value_rel
    |by apply (headers_end_rel x y ch)|by apply (body_rel x y)|by apply (chunk_rel x y ch)].
Qed.

Lemma exec_byte_rel fuel : rel_k (exec_byte S lenient data fuel) (exec_byte T lenient data fuel).
Proof.
  induction fuel as [|fuel IH]; intros x y H; [constructor|]. cbn [exec_byte]. replace (x_pos y) with (x_pos x) by (by destruct H).
  destruct (rd data (x_pos x)) as [ch|]; [|constructor]. cbn [mbind option_bind].
  destruct (step_rel x y ch H); cbn [mbind option_bind]; try by constructor. by apply IH.
Qed.

Lemma exec_iter_rel : rel_k (exec_iter S lenient data) (exec_iter T lenient data).
Proof.
  intros x y H. unfold exec_iter. replace (x_state y) with (x_state x) by (by destruct H).
  destruct (PARSING_HEADER _); [by apply count_header_size_rel, exec_byte_rel|by apply exec_byte_rel].
Qed.

Lemma exec_end_rel : rel_k (exec_end S data) (exec_end T data).
Proof.
  intros x y H. unfold exec_end. replace (count_marks y) with (count_marks x) by (by destruct H).
  replace (x_pos y) with (x_pos x) by (by destruct H). destruct (_ <=? 1); [|constructor]. generalize (x_pos x) as p. intros p.
  do 5 (apply callback_data_rel; [done|]; clear x y H; intros x y H). destruct H. by constructor.
Qed.

(** What the calls return. *)
Definition rel_out (o : option (Z * http_parser * A)) (o' : option (Z * http_parser * B)) : Prop :=
  match o, o' with
  | Some (n, P, a), Some (n', P', b) => n = n' /\ P = P' /\ R a b
  | None, None => True
  | _, _ => False
  end.

Lemma outcome_rel r r' : rel_res r r' -> rel_out (r ≫= outcome) (r' ≫= outcome).
Proof. intros [|x y H|x y H|n P a b H|x y H]; cbn; try done. by destruct H. Qed.

Lemma exec_loop_rel fuel : forall x y, rel_ctx x y -> rel_out (exec_loop S lenient data fuel x) (exec_loop T lenient data fuel y).
Proof.
  induction fuel as [|fuel IH]; intros x y H; cbn [exec_loop]; replace (x_pos y) with (x_pos x) by (by destruct H);
    (destruct (_ =? _); [apply outcome_rel, exec_end_rel; done|]); [done|].
  destruct (exec_iter_rel x y H) as [|x' y' H'|x' y' H'|n P a b H'|x' y' H']; cbn [mbind option_bind]; try done; [|by destruct H'].
  apply IH. replace (x_pos y') with (x_pos x') by (by destruct H'). by apply at_pos_rel.
Qed.

Lemma http_parser_execute_rel P a b : lenient = hp_lenient P -> R a b ->
  rel_out (http_parser_execute S data P a) (http_parser_execute T data P b).
Proof.
  intros El H. unfold http_parser_execute. destruct (decide _); [|done].
  assert (rel_ctx (initial_ctx P a) (initial_ctx P b)) as Hi by (by constructor).
  destruct data as [|c data'] eqn:Ed; [|rewrite <- El, <- Ed; by apply exec_loop_rel].
  destruct (hp_state P); try done. apply outcome_rel, callback_notify_rel; [apply Hset|done|]. intros x y []. by constructor.
Qed.
End Related.

(** ** Callbacks given by what they do with an event

    They return 0 and leave the parser alone; [told] says whether they hear of
    chunks. *)

Section Observe.
Context {told : Chunks} {A : Type} (observe : Event -> A -> A).

Definition hears (f : option (http_cb A)) (e : http_parser -> Event) : Prop :=
  exists g, f = Some g /\ forall P a, g P a = (0, P, observe (e P) a).
Definition hears_data (f : option (http_data_cb A)) (e : list Z -> Event) : Prop :=
  exists g, f = Some g /\ forall bytes P a, g bytes P a = (0, P, observe (e bytes) a).

Record observes (S : http_parser_settings A) : Prop := {
  ob_message_begin : hears (on_message_begin S) (fun _ => E_message_begin);
  ob_url : hears_data (on_url S) E_url;
  ob_status : hears_data (on_status S) E_status;
  ob_header_field : hears_data (on_header_field S) E_header_field;
  ob_header_value : hears_data (on_header_value S) E_header_value;
  ob_headers_complete : hears (on_headers_complete S) (fun P => E_headers_complete (hp_method P) (hp_http_major P, hp_http_minor P));
  ob_body : hears_data (on_body S) E_body;
  ob_message_complete : hears (on_message_complete S) (fun _ => E_message_complete);
  ob_chunk_header : if chunks_told then hears (on_chunk_header S) (fun P => E_chunk_header (hp_content_length P)) else on_chunk_header S = None;
  ob_chunk_complete : if chunks_told then hears (on_chunk_complete S) (fun _ => E_chunk_complete) else on_chunk_complete S = None;
}.

(** What the events did to [a], the newest first. *)
Definition observed (a : A) (events : list Event) : A := fold_right observe a events.

Context (S : http_parser_settings A) (Hobs : observes S).

Lemma hears_rel a f e g : hears f e -> (forall P ev, g P ev = (0, P, e P :: ev)) ->
  rel_opt (rel_cb (fun a' ev => a' = observed a ev)) f (Some g).
Proof. intros (f' & -> & Hf) Hg P a' ev ->. rewrite Hf, Hg. eexists 0, P, _, _. by split_and!. Qed.

Lemma hears_data_rel a f e g : hears_data f e -> (forall bytes P ev, g bytes P ev = (0, P, e bytes :: ev)) ->
  rel_opt (rel_data_cb (fun a' ev => a' = observed a ev)) f (Some g).
Proof. intros (f' & -> & Hf) Hg bytes P a' ev ->. rewrite Hf, Hg. eexists 0, P, _, _. by split_and!. Qed.

Lemma observes_rel a : rel_settings S recording (fun a' ev => a' = observed a ev).
Proof.
  pose proof Hobs as [H1 H2 H3 H4 H5 H6 H7 H8 H9 H10]. constructor; cbn;
    first [eapply hears_rel; [eassumption|done]|eapply hears_data_rel; [eassumption|done]|idtac];
    destruct chunks_told; first [by rewrite H9|by rewrite H10|eapply hears_rel; [eassumption|done]].
Qed.

(** The run of [S] is the run of the recording callbacks. *)
Lemma execute_observed data P a :
  http_parser_execute S data P a =
  option_map (fun '(n, P', ev) => (n, P', observed a ev)) (http_parser_execute recording data P []).
Proof.
  pose proof (http_parser_execute_rel S recording _ (hp_lenient P) data (observes_rel a) P a [] eq_refl eq_refl) as H.
  unfold rel_out in H. destruct (http_parser_execute S data P a) as [[[n P1] a1]|], (http_parser_execute recording data P []) as [[[n' P2] ev]|]; try done.
  by destruct H as (-> & -> & ->).
Qed.
End Observe.
