(* ===== verification/HttpForm.v ===== *)
(** * Text of the HTTP server classes

    [src/src/base/Ascii.cpp] (the character table and what is asked of it),
    [trim], [toLower], [isubstr] and [split] of [src/src/base/String.h], and
    [UrlEncode] and [UrlDecode] of [src/src/net/http/HttpParser.cpp].  A
    [std::string] is its bytes; [char] is signed. *)

From stdpp Require Import base list numbers strings.
From Stdlib Require Import ZArith Lia.
From S2P Require Import Prelude HttpModel.
Local Open Scope Z_scope.

(** ** Ascii *)

Definition ACP_CONTROL : Z := 0x0001.
Definition ACP_SPACE : Z := 0x0002.
Definition ACP_PUNCT : Z := 0x0004.
Definition ACP_DIGIT : Z := 0x0008.
Definition ACP_HEXDIGIT : Z := 0x0010.
Definition ACP_ALPHA : Z := 0x0020.
Definition ACP_LOWER : Z := 0x0040.
Definition ACP_UPPER : Z := 0x0080.
Definition ACP_GRAPH : Z := 0x0100.
Definition ACP_PRINT : Z := 0x0200.

(** Combined properties. *)
Definition acp (ps : list Z) : Z := fold_right Z.lor 0 ps.

Definition CHARACTER_PROPERTIES : list Z :=
  let control := acp [ACP_CONTROL] in
  let punct := acp [ACP_PUNCT; ACP_GRAPH; ACP_PRINT] in
  let letter ps := acp (ps ++ [ACP_ALPHA; ACP_GRAPH; ACP_PRINT]) in
  replicate 9 control ++                                             (* 00 - 08 *)
  replicate 5 (acp [ACP_CONTROL; ACP_SPACE]) ++                      (* 09 - 0d *)
  replicate 18 control ++                                            (* 0e - 1f *)
  [acp [ACP_SPACE; ACP_PRINT]] ++                                    (* 20 *)
  replicate 15 punct ++                                              (* 21 - 2f *)
  replicate 10 (acp [ACP_DIGIT; ACP_HEXDIGIT; ACP_GRAPH; ACP_PRINT]) ++  (* 30 - 39 *)
  replicate 7 punct ++                                               (* 3a - 40 *)
  replicate 6 (letter [ACP_HEXDIGIT; ACP_UPPER]) ++                  (* 41 - 46 *)
  replicate 20 (letter [ACP_UPPER]) ++                               (* 47 - 5a *)
  replicate 6 punct ++                                               (* 5b - 60 *)
  replicate 6 (letter [ACP_HEXDIGIT; ACP_LOWER]) ++                  (* 61 - 66 *)
  replicate 20 (letter [ACP_LOWER]) ++                               (* 67 - 7a *)
  replicate 4 punct ++                                               (* 7b - 7e *)
  [control].                                                         (* 7f *)

Definition isAscii (ch : Z) : bool := Z.land (u32 ch) 0xFFFFFF80 =? 0.
Definition properties (ch : Z) : Z := if isAscii ch then default 0 (rd CHARACTER_PROPERTIES ch) else 0.
Definition hasProperties (ch props : Z) : bool := Z.land (properties ch) props =? props.
Definition hasSomeProperties (ch props : Z) : bool := negb (Z.land (properties ch) props =? 0).
Definition isSpace (ch : Z) : bool := hasProperties ch ACP_SPACE.
Definition isDigit (ch : Z) : bool := hasProperties ch ACP_DIGIT.
Definition isHexDigit (ch : Z) : bool := hasProperties ch ACP_HEXDIGIT.
Definition isPunct (ch : Z) : bool := hasProperties ch ACP_PUNCT.
Definition isAlpha (ch : Z) : bool := hasProperties ch ACP_ALPHA.
Definition isAlphaNumeric (ch : Z) : bool := hasSomeProperties ch (Z.lor ACP_ALPHA ACP_DIGIT).
Definition isLower (ch : Z) : bool := hasProperties ch ACP_LOWER.
Definition isUpper (ch : Z) : bool := hasProperties ch ACP_UPPER.
Definition charToLower (ch : Z) : Z := if isUpper ch then ch + 32 else ch.
Definition charToUpper (ch : Z) : Z := if isLower ch then ch - 32 else ch.

(** A [char] passed as an [int], and an [int] stored in a [char]. *)
Definition from_char (c : Z) : Z := swrap 8 c.
Definition to_char (i : Z) : Z := u8 i.

(** ** Strings *)

(** The loops of [trim] from the front and from the back. *)
Fixpoint skipSpaces (s : list Z) : list Z :=
  match s with c :: s' => if isSpace (from_char c) then skipSpaces s' else s | [] => [] end.
Definition trim (s : list Z) : list Z := rev (skipSpaces (rev (skipSpaces s))).

Definition toLower (s : list Z) : list Z := map (fun c => to_char (charToLower (from_char c))) s.

(** [i_char_traits::eq] *)
Definition ieq (a b : Z) : bool := charToLower (from_char a) =? charToLower (from_char b).

(** [sought] at the start of [str]. *)
Fixpoint istarts (str sought : list Z) {struct sought} : bool :=
  match sought, str with
  | [], _ => true
  | _, [] => false
  | d :: sought', c :: str' => ieq c d && istarts str' sought'
  end.

(** [isubstr]: [None] is [npos], which is also the answer at the very end. *)
Fixpoint isubstr (str sought : list Z) : option nat :=
  match str with
  | [] => None
  | _ :: str' => if istarts str sought then Some O else option_map S (isubstr str' sought)
  end.

(** [split]; [None] is a loop that does not end. *)
Fixpoint splitLoop (fuel : nat) (empty : bool) (delim str : list Z) : option (list (list Z)) :=
  match fuel with
  | O => None
  | S fuel' =>
      let add value ret := if bool_decide (value <> []) || empty then value :: ret else ret in
      match isubstr str delim with
      | Some pos => option_map (add (firstn pos str)) (splitLoop fuel' empty delim (skipn (pos + length delim) str))
      | None => Some (add str [])
      end
  end.
Definition split (s delim : list Z) (empty : bool) : option (list (list Z)) := splitLoop (S (length s)) empty delim s.

(** ** URL encoding *)

(** [isalnum] in the C locale *)
Definition isalnum (c : Z) : bool :=
  in_range (chr "0") (chr "9") c || in_range (chr "A") (chr "Z") c || in_range (chr "a") (chr "z") c.

Definition ToHex (x : Z) : Z := u8 (if x >? 9 then x + 55 else x + 48).

(** [None] is [assert(0)]. *)
Definition FromHex (x : Z) : option Z :=
  if in_range (chr "A") (chr "Z") x then Some (u8 (x - chr "A" + 10))
  else if in_range (chr "a") (chr "z") x then Some (u8 (x - chr "a" + 10))
  else if in_range (chr "0") (chr "9") x then Some (u8 (x - chr "0"))
  else None.

Fixpoint UrlEncode (str : list Z) : list Z :=
  match str with
  | [] => []
  | c :: str' =>
      (if isalnum c || (c =? chr "-") || (c =? chr "_") || (c =? chr ".") || (c =? chr "~") then [c]
       else if c =? chr " " then [chr "+"]
       else [chr "%"; ToHex (Z.shiftr c 4); ToHex (c mod 16)]) ++ UrlEncode str'
  end.

(** The [assert] after [%] fails when fewer than two characters follow. *)
Fixpoint UrlDecode (str : list Z) : option (list Z) :=
  match str with
  | [] => Some []
  | c :: str' =>
      if c =? chr "+" then r ← UrlDecode str'; Some (chr " " :: r)
      else if c =? chr "%" then
        match str' with
        | h :: l :: str'' =>
            high ← FromHex h;
            low ← FromHex l;
            r ← UrlDecode str''; Some (to_char (high * 16 + low) :: r)
        | _ => None
        end
      else r ← UrlDecode str'; Some (c :: r)
  end.

(** ** The table *)

Lemma CHARACTER_PROPERTIES_len : lenZ CHARACTER_PROPERTIES = 128.
Proof. done. Qed.

(** A statement about every byte, by computation. *)
Definition all_bytes (p : Z -> bool) : bool := forallb p (map Z.of_nat (seq 0 256)).
Lemma all_bytes_ok p : all_bytes p = true -> forall c, is_byte c -> p c = true.
Proof.
  intros H c [H0 H1]. unfold all_bytes in H. rewrite forallb_forall in H. apply H, in_map_iff. exists (Z.to_nat c).
  split; [lia|]. apply in_seq. lia.
Qed.

(** What the characters are. *)
Lemma isSpace_chars c : is_byte c -> isSpace (from_char c) = in_range 9 13 c || (c =? 32).
Proof.
  intros Hc. apply eqb_prop, (all_bytes_ok (fun c => Bool.eqb (isSpace (from_char c)) (in_range 9 13 c || (c =? 32)))); [by vm_compute|done].
Qed.

Lemma toLower_char c : is_byte c ->
  to_char (charToLower (from_char c)) = if in_range (chr "A") (chr "Z") c then c + 32 else c.
Proof.
  intros Hc. apply Z.eqb_eq, (all_bytes_ok (fun c => to_char (charToLower (from_char c)) =? if in_range (chr "A") (chr "Z") c then c + 32 else c));
    [by vm_compute|done].
Qed.

(** A delimiter is found where it stands. *)
Definition delimiter (d : Z) : Prop := d = chr "?" \/ d = chr "&" \/ d = chr "=" \/ d = chr ";".
Lemma ieq_delimiter c d : is_byte c -> delimiter d -> ieq c d = (c =? d).
Proof.
  intros Hc Hd. apply eqb_prop.
  destruct Hd as [-> | [-> | [-> | ->]]]; apply (all_bytes_ok (fun c => Bool.eqb (ieq c _) (c =? _))); first [by vm_compute|done].
Qed.

(** ** Splitting *)

(** Every turn of the loop drops a delimiter: it ends. *)
Lemma isubstr_bound str sought pos : isubstr str sought = Some pos -> (pos < length str)%nat.
Proof.
  revert pos. induction str as [|c str IH]; intros pos; [done|]. cbn [isubstr length]. destruct (istarts _ _); [intros [= <-]; lia|].
  destruct (isubstr str sought) as [n|]; [|done]. intros [= <-]. specialize (IH n eq_refl). lia.
Qed.

Lemma splitLoop_ends fuel empty delim : delim <> [] -> forall str, (length str < fuel)%nat -> is_Some (splitLoop fuel empty delim str).
Proof.
  intros Hd. assert (0 < length delim)%nat as Hl by (destruct delim; [done|cbn; lia]).
  induction fuel as [|fuel IH]; intros str Hf; [lia|]. cbn [splitLoop]. destruct (isubstr str delim) as [pos|] eqn:E; [|done].
  apply isubstr_bound in E. destruct (IH (skipn (pos + length delim) str)) as [r ->]; [rewrite length_skipn; lia|done].
Qed.

Lemma isubstr_delimiter d x y : delimiter d -> is_bytes x -> d ∉ x -> isubstr (x ++ d :: y) [d] = Some (length x).
Proof.
  intros Hd Hb Hn. assert (is_byte d) as Hdb by (destruct Hd as [-> | [-> | [-> | ->]]]; split; vm_compute; congruence).
  induction x as [|c x IH]; cbn [isubstr app length].
  - cbn [istarts]. rewrite ieq_delimiter by done. by rewrite Z.eqb_refl.
  - apply Forall_cons in Hb as [Hc Hb]. apply not_elem_of_cons in Hn as [Hne Hn]. cbn [istarts]. rewrite ieq_delimiter by done.
    destruct (Z.eqb_spec c d); [congruence|]. cbn [andb]. by rewrite IH.
Qed.

Lemma isubstr_none d x : delimiter d -> is_bytes x -> d ∉ x -> isubstr x [d] = None.
Proof.
  intros Hd Hb Hn. induction x as [|c x IH]; [done|]. apply Forall_cons in Hb as [Hc Hb]. apply not_elem_of_cons in Hn as [Hne Hn].
  cbn [isubstr istarts]. rewrite ieq_delimiter by done. destruct (Z.eqb_spec c d); [congruence|]. cbn [andb]. by rewrite IH.
Qed.

Lemma splitLoop_cons fuel d x y : delimiter d -> is_bytes x -> d ∉ x -> x <> [] ->
  splitLoop (S fuel) false [d] (x ++ d :: y) = option_map (cons x) (splitLoop fuel false [d] y).
Proof.
  intros Hd Hb Hn Hne. cbn [splitLoop]. rewrite isubstr_delimiter by done. rewrite (firstn_app (length x)), Nat.sub_diag, firstn_all, app_nil_r.
  assert (skipn (length x + length [d]) (x ++ d :: y) = y) as ->.
  { change (d :: y) with ([d] ++ y). by rewrite app_assoc, <- length_app, drop_app_length. }
  destruct (splitLoop fuel false [d] y); [|done]. cbn [option_map]. by rewrite bool_decide_true.
Qed.

Lemma splitLoop_last fuel d x : delimiter d -> is_bytes x -> d ∉ x ->
  splitLoop (S fuel) false [d] x = Some (match x with [] => [] | _ => [x] end).
Proof. intros Hd Hb Hn. cbn [splitLoop]. rewrite isubstr_none by done. by destruct x. Qed.

Lemma split_one d x : delimiter d -> is_bytes x -> d ∉ x -> x <> [] -> split x [d] false = Some [x].
Proof. intros. unfold split. rewrite splitLoop_last by done. by destruct x. Qed.

Lemma split_two d x y : delimiter d -> is_bytes x -> is_bytes y -> d ∉ x -> d ∉ y -> x <> [] ->
  split (x ++ d :: y) [d] false = Some (match y with [] => [x] | _ => [x; y] end).
Proof.
  intros Hd Hx Hy Hnx Hny Hne. unfold split. rewrite splitLoop_cons by done. rewrite length_app. cbn [length].
  rewrite Nat.add_succ_r, splitLoop_last by done. by destruct y.
Qed.

(** Pieces with a delimiter between them. *)
Fixpoint join (d : Z) (xs : list (list Z)) : list Z :=
  match xs with [] => [] | [x] => x | x :: xs' => x ++ d :: join d xs' end.

Lemma split_join d xs : delimiter d -> Forall (fun x => is_bytes x /\ d ∉ x /\ x <> []) xs -> split (join d xs) [d] false = Some xs.
Proof.
  intros Hd Hxs. unfold split. assert (forall fuel, (length (join d xs) < fuel)%nat -> splitLoop fuel false [d] (join d xs) = Some xs) as H; [|apply H; lia].
  induction Hxs as [|x xs (Hb & Hn & Hne) Hxs IH]; intros [|fuel] Hf; try lia; [done|].
  destruct xs as [|y xs]; [cbn [join]; rewrite splitLoop_last by done; by destruct x|].
  change (join d (x :: y :: xs)) with (x ++ d :: join d (y :: xs)) in *. rewrite length_app in Hf. cbn [length] in Hf.
  rewrite splitLoop_cons, IH by (done || lia). done.
Qed.

(** ** Encoding *)

(** The characters of an encoded text. *)
Definition encoded_char (c : Z) : bool :=
  isalnum c || (c =? chr "-") || (c =? chr "_") || (c =? chr ".") || (c =? chr "~") || (c =? chr "+") || (c =? chr "%").

Definition escape (c : Z) : list Z := [chr "%"; ToHex (Z.shiftr c 4); ToHex (c mod 16)].

(** What an escaped byte decodes to, for every byte. *)
Lemma escape_ok c : is_byte c -> forallb encoded_char (escape c) = true /\
  exists high low, FromHex (ToHex (Z.shiftr c 4)) = Some high /\ FromHex (ToHex (c mod 16)) = Some low /\ to_char (high * 16 + low) = c.
Proof.
  intros Hc. assert (forallb encoded_char (escape c) && match FromHex (ToHex (Z.shiftr c 4)), FromHex (ToHex (c mod 16)) with
    | Some high, Some low => to_char (high * 16 + low) =? c | _, _ => false end = true) as H.
  { apply (all_bytes_ok (fun c => forallb encoded_char (escape c) && match FromHex (ToHex (Z.shiftr c 4)), FromHex (ToHex (c mod 16)) with
      | Some high, Some low => to_char (high * 16 + low) =? c | _, _ => false end)); [by vm_compute|done]. }
  apply andb_true_iff in H as [H1 H2]. split; [done|].
  destruct (FromHex (ToHex (Z.shiftr c 4))) as [h|]; [|done]. destruct (FromHex (ToHex (c mod 16))) as [l|]; [|done].
  exists h, l. split_and!; [done|done|by apply Z.eqb_eq].
Qed.

Lemma UrlEncode_chars s : is_bytes s -> forallb encoded_char (UrlEncode s) = true.
Proof.
  induction 1 as [|c s Hc Hs IH]; [done|]. cbn [UrlEncode]. rewrite forallb_app, IH, andb_true_r.
  destruct (isalnum c || _ || _ || _ || _) eqn:E; [cbn [forallb]; unfold encoded_char; by rewrite E|].
  destruct (Z.eqb_spec c (chr " ")) as [->|]; [done|]. by apply escape_ok.
Qed.

Lemma UrlDecode_encode_app s t : is_bytes s -> UrlDecode (UrlEncode s ++ t) = option_map (app s) (UrlDecode t).
Proof.
  induction 1 as [|c s Hc Hs IH]; [cbn; by destruct (UrlDecode t)|]. cbn [UrlEncode]. rewrite <- app_assoc.
  destruct (isalnum c || _ || _ || _ || _) eqn:E.
  - cbn [app UrlDecode]. destruct (Z.eqb_spec c (chr "+")) as [->|]; [done|]. destruct (Z.eqb_spec c (chr "%")) as [->|]; [done|].
    rewrite IH. by destruct (UrlDecode t).
  - destruct (Z.eqb_spec c (chr " ")) as [->|].
    + cbn [app UrlDecode]. rewrite Z.eqb_refl, IH. by destruct (UrlDecode t).
    + destruct (escape_ok c Hc) as (_ & h & l & Eh & El & Ec). cbn [app UrlDecode]. change (chr "%" =? chr "+") with false. cbv iota.
      rewrite Z.eqb_refl, Eh, El. cbn [mbind option_bind]. rewrite IH, Ec. by destruct (UrlDecode t).
Qed.

Lemma UrlDecode_encode s : is_bytes s -> UrlDecode (UrlEncode s) = Some s.
Proof. intros Hs. rewrite <- (app_nil_r (UrlEncode s)), UrlDecode_encode_app by done. cbn. by rewrite app_nil_r. Qed.

(** ** Decoding *)

(** Texts are taken a character or an escape at a time. *)
Lemma text_ind (Q : list Z -> Prop) : Q [] ->
  (forall c s, c <> chr "%" -> Q s -> Q (c :: s)) ->
  Q [chr "%"] -> (forall h, Q [chr "%"; h]) -> (forall h l s, Q s -> Q (chr "%" :: h :: l :: s)) -> forall s, Q s.
Proof.
  intros Q0 Qc Q1 Q2 Qe s. remember (length s) as n eqn:En. revert s En.
  induction (lt_wf n) as [n _ IH]. intros [|c s] ->; [done|]. destruct (Z.eq_dec c (chr "%")) as [->|Hc].
  - destruct s as [|h [|l s]]; [done|done|]. apply Qe. eapply IH; [|done]. cbn. lia.
  - apply Qc; [done|]. eapply IH; [|done]. cbn. lia.
Qed.

Lemma UrlDecode_char c s : c <> chr "%" ->
  UrlDecode (c :: s) = option_map (cons (if c =? chr "+" then chr " " else c)) (UrlDecode s).
Proof.
  intros Hc. cbn [UrlDecode]. destruct (c =? chr "+"); [by destruct (UrlDecode s)|]. destruct (Z.eqb_spec c (chr "%")); [done|].
  by destruct (UrlDecode s).
Qed.

Lemma UrlDecode_escape h l s : UrlDecode (chr "%" :: h :: l :: s) =
  match FromHex h, FromHex l with
  | Some high, Some low => option_map (cons (to_char (high * 16 + low))) (UrlDecode s)
  | _, _ => None
  end.
Proof. cbn. destruct (FromHex h), (FromHex l), (UrlDecode s); done. Qed.

Lemma UrlDecode_app x v t : UrlDecode x = Some v -> UrlDecode (x ++ t) = option_map (app v) (UrlDecode t).
Proof.
  revert v. induction x as [|c x Hc IH| |h|h l x IH] using text_ind; intros v; [intros [= <-]; cbn; by destruct (UrlDecode t)| |done|done|].
  - cbn [app]. rewrite !UrlDecode_char by done. destruct (UrlDecode x) as [w|]; [|done]. intros [= <-]. rewrite (IH w eq_refl).
    by destruct (UrlDecode t).
  - cbn [app]. rewrite !UrlDecode_escape. destruct (FromHex h), (FromHex l); try done. destruct (UrlDecode x) as [w|]; [|done].
    intros [= <-]. rewrite (IH w eq_refl). by destruct (UrlDecode t).
Qed.

Lemma FromHex_alnum x : is_Some (FromHex x) <-> isalnum x = true.
Proof.
  unfold FromHex, isalnum. destruct (in_range (chr "A") _ x), (in_range (chr "a") _ x), (in_range (chr "0") _ x); cbn; split; intros H; try done; by destruct H.
Qed.

(** A percent sign that is not followed by two letters or digits. *)
Definition bad_escape (y : list Z) : Prop := match y with h :: l :: _ => isalnum h && isalnum l = false | _ => True end.

Lemma bad_escape_fails y : bad_escape y -> UrlDecode (chr "%" :: y) = None.
Proof.
  destruct y as [|h [|l s]]; [done|done|]. cbn [bad_escape]. intros H. rewrite UrlDecode_escape.
  destruct (FromHex h) eqn:Eh, (FromHex l) eqn:El; try done. exfalso.
  rewrite (proj1 (FromHex_alnum h)), (proj1 (FromHex_alnum l)) in H by (by eexists). done.
Qed.

Lemma UrlDecode_fails s : UrlDecode s = None <->
  exists x y, s = x ++ chr "%" :: y /\ is_Some (UrlDecode x) /\ bad_escape y.
Proof.
  split.
  - induction s as [|c s Hc IH| |h|h l s IH] using text_ind; [done| | | |].
    + rewrite UrlDecode_char by done. intros H. destruct IH as (x & y & -> & [v Hv] & Hy); [by destruct (UrlDecode s)|].
      exists (c :: x), y. split_and!; [done|rewrite UrlDecode_char, Hv by done; done|done].
    + intros _. exists [], []. by split_and!.
    + intros _. exists [], [h]. by split_and!.
    + rewrite UrlDecode_escape. destruct (FromHex h) as [hi|] eqn:Eh; cycle 1.
      { intros _. exists [], (h :: l :: s). split_and!; [done|done|]. cbn [bad_escape].
        destruct (isalnum h) eqn:E; [|done]. apply FromHex_alnum in E. rewrite Eh in E. by destruct E. }
      destruct (FromHex l) as [lo|] eqn:El; cycle 1.
      { intros _. exists [], (h :: l :: s). split_and!; [done|done|]. cbn [bad_escape]. rewrite andb_comm.
        destruct (isalnum l) eqn:E; [|done]. apply FromHex_alnum in E. rewrite El in E. by destruct E. }
      intros H. destruct IH as (x & y & -> & [v Hv] & Hy); [by destruct (UrlDecode s)|].
      exists (chr "%" :: h :: l :: x), y. split_and!; [done|rewrite UrlDecode_escape, Eh, El, Hv; done|done].
  - intros (x & y & -> & [v Hv] & Hy). by rewrite (UrlDecode_app x v), bad_escape_fails.
Qed.
