(* ===== verification/Ingest.v ===== *)
(** * Device data ingest

    [src/src/adapter/IngestServer.{h,cpp}]: the TCP servers that bind each
    connection to a peer group and push what they receive to the parser's queue.

    The network library is the environment: it reports that a connection was
    opened or closed and that bytes arrived ([NetEvent]).  Arriving bytes are
    appended to the connection's input buffer, which the message callback
    empties. *)

From stdpp Require Import base list numbers gmap strings sorting.
From Stdlib Require Import ZArith Lia Sorted.
From S2P Require Import Prelude CText DeviceModel ConfigDB AdapterConfig FrameCodec FrameCodecProps Pipeline.
Local Open Scope Z_scope.

(** ** Connections *)

(** What a callback sees of [const TcpConnectionPtr& conn]: its address as a
    key, [peerAddress().toIp()] and [peerAddress().toPort()]. *)
Record TcpConn := mkConn { cn_addr : nat; cn_ip : string; cn_port : Z }.

Inductive NetEvent :=
| Opened (c : TcpConn)
| Closed (c : TcpConn)
| Received (c : TcpConn) (data : list Z) (t : Z).   (* t in microseconds *)

(** [t.microSecondsSinceEpoch() / 1000] *)
Definition toMs (t : Z) : Z := Z.quot t 1000.

(** The group a peer matches: the pointer [matchGroup] returns. *)
Definition peerGroup (db : ConfigDB) (ip : string) (port : Z) : option GroupPtr :=
  gi ← matchGroup db ip port;
  g ← groupAt db gi;
  Some (mkGroupPtr gi g).

(** ** The server *)

(** [class IngestServer]: the ports listened on, the bindings, the queue (what
    was enqueued, oldest first) and the statistics. *)
Record IngestServer := mkIngest {
  is_servers : list (Z * string);
  is_groupByConn : gmap nat (option GroupPtr);
  is_queue : list RawChunk;
  is_stats : AdapterStats;
}.

Definition newIngest (stats : AdapterStats) : IngestServer := mkIngest [] ∅ [] stats.

Definition is_set_groups (m : gmap nat (option GroupPtr)) (s : IngestServer) : IngestServer :=
  mkIngest (is_servers s) m (is_queue s) (is_stats s).
Definition is_count (f : Stat) (n : Z) (s : IngestServer) : IngestServer :=
  mkIngest (is_servers s) (is_groupByConn s) (is_queue s) (fetch_add f n (is_stats s)).
Definition is_enqueue (c : RawChunk) (s : IngestServer) : IngestServer :=
  mkIngest (is_servers s) (is_groupByConn s) (is_queue s ++ [c]) (is_stats s).

(** The ports of [start]. *)
Definition ingestPorts (db : ConfigDB) (cfg : ServerConfig) : list Z :=
  sort_unique (db_listenPorts db ++ extraListenPorts cfg).

(** [IngestServer::start]: the error text, or the server listening. *)
Definition ingestStart (db : ConfigDB) (cfg : ServerConfig) (s : IngestServer)
    : string + IngestServer :=
  match ingestPorts db cfg with
  | [] => inl ("no listen ports: device_table.local_server_port is empty and " +:+
               "[server].extraListenPorts is not configured")
  | ports =>
      inr (mkIngest (is_servers s ++ map (fun p => (p, "ingest:" +:+ to_string p)) ports)
             (is_groupByConn s) (is_queue s) (is_stats s))
  end.

(** [IngestServer::stop] *)
Definition ingestStop (s : IngestServer) : IngestServer := mkIngest [] ∅ (is_queue s) (is_stats s).

(** [IngestServer::onConnection] *)
Definition ingestConnection (db : ConfigDB) (c : TcpConn) (connected : bool) (s : IngestServer)
    : IngestServer :=
  if connected then
    let group := peerGroup db (cn_ip c) (cn_port c) in
    is_count ConnsOpened 1 (is_set_groups (<[cn_addr c := group]> (is_groupByConn s)) s)
  else is_set_groups (delete (cn_addr c) (is_groupByConn s)) s.

(** [ingestable]: a custom_data or modbus primary with a field layout. *)
Definition ingestable (g : DeviceGroup) : bool :=
  match primary g with
  | Some dev =>
      ((d_connProto (p_desc dev) =? CONN_CUSTOM_DATA) || (d_connProto (p_desc dev) =? CONN_MODBUS)) &&
      match s_fields (d_spec (p_desc dev)) with [] => false | _ :: _ => true end
  | None => false
  end.

(** [IngestServer::onMessage] on the input buffer [buf]: the server and what
    is left in the buffer. *)
Definition ingestMessage (db : ConfigDB) (c : TcpConn) (buf : list Z) (t : Z) (s : IngestServer)
    : IngestServer * list Z :=
  match buf with
  | [] => (s, buf)
  | _ :: _ =>
      let s := is_count BytesIn (lenZ buf) s in
      let group := match is_groupByConn s !! cn_addr c with Some g => g | None => None end in
      let '(group, s) :=
        match group with
        | Some _ => (group, s)
        | None =>
            match peerGroup db (cn_ip c) (cn_port c) with
            | Some g => (Some g, is_set_groups (<[cn_addr c := Some g]> (is_groupByConn s)) s)
            | None => (None, s)
            end
        end in
      if match group with Some g => ingestable (gp_group g) | None => false end
      then (is_count Chunks 1 (is_enqueue (mkChunk group (toMs t) buf) s), [])
      else (is_count Unmatched 1 s, [])
  end.

(** ** Runs *)

(** One event of the loop; [bufs] holds the connections' input buffers. *)
Definition ingestStep (db : ConfigDB) (st : IngestServer * gmap nat (list Z)) (e : NetEvent)
    : IngestServer * gmap nat (list Z) :=
  let '(s, bufs) := st in
  match e with
  | Opened c => (ingestConnection db c true s, <[cn_addr c := []]> bufs)
  | Closed c => (ingestConnection db c false s, delete (cn_addr c) bufs)
  | Received c data t =>
      let '(s, rest) := ingestMessage db c (default [] (bufs !! cn_addr c) ++ data) t s in
      (s, <[cn_addr c := rest]> bufs)
  end.

Definition ingestRun (db : ConfigDB) (s : IngestServer) (es : list NetEvent)
    : IngestServer * gmap nat (list Z) := fold_left (ingestStep db) es (s, ∅).

(** ** The contract

    Every non-empty message is judged on its own, by the peer it came from. *)

Definition wanted (db : ConfigDB) (e : NetEvent) : option RawChunk :=
  match e with
  | Received c (b :: data) t =>
      g ← peerGroup db (cn_ip c) (cn_port c);
      if ingestable (gp_group g) then Some (mkChunk (Some g) (toMs t) (b :: data)) else None
  | _ => None
  end.

Definition received (e : NetEvent) : Z := match e with Received _ data _ => lenZ data | _ => 0 end.
Definition arrived (e : NetEvent) : bool := match e with Received _ (_ :: _) _ => true | _ => false end.
Definition opened (e : NetEvent) : bool := match e with Opened _ => true | _ => false end.

(** A trace the network may produce: between [Opened] and [Closed] an address
    stands for one peer, and only open connections receive. *)
Fixpoint trace_ok (live : gmap nat TcpConn) (es : list NetEvent) : Prop :=
  match es with
  | [] => True
  | Opened c :: es' => live !! cn_addr c = None /\ trace_ok (<[cn_addr c := c]> live) es'
  | Closed c :: es' => live !! cn_addr c = Some c /\ trace_ok (delete (cn_addr c) live) es'
  | Received c _ _ :: es' => live !! cn_addr c = Some c /\ trace_ok live es'
  end.

(** What a trace adds to each counter. *)
Definition eventCount (db : ConfigDB) (e : NetEvent) (f : Stat) : Z :=
  match f with
  | ConnsOpened => if opened e then 1 else 0
  | BytesIn => received e
  | Chunks => match wanted db e with Some _ => 1 | None => 0 end
  | Unmatched => if arrived e then match wanted db e with Some _ => 0 | None => 1 end else 0
  | _ => 0
  end.

Definition traceCount (db : ConfigDB) (es : list NetEvent) (f : Stat) : Z :=
  foldr (fun e n => eventCount db e f + n) 0 es.

Lemma traceCount_cons db e es f : traceCount db (e :: es) f = eventCount db e f + traceCount db es f.
Proof. done. Qed.

(** ** The cache is transparent *)

Lemma u64_fetch_add f n s x : u64 (fetch_add f n s x) = u64 (s x + (if decide (x = f) then n else 0)).
Proof. unfold fetch_add. case_decide; [by rewrite uwrap_uwrap by lia|by rewrite Z.add_0_r]. Qed.

(** The binding of a live connection is a match of its peer, or is missing. *)
Definition bound (db : ConfigDB) (live : gmap nat TcpConn) (m : gmap nat (option GroupPtr)) : Prop :=
  forall c, live !! cn_addr c = Some c ->
    match m !! cn_addr c with Some (Some g) => peerGroup db (cn_ip c) (cn_port c) = Some g | _ => True end.

(** What one event may do, seen from outside. *)
Record ingest_effect (db : ConfigDB) (e : NetEvent) (s s' : IngestServer) : Prop := {
  ie_servers : is_servers s' = is_servers s;
  ie_queue : is_queue s' = is_queue s ++ match wanted db e with Some c => [c] | None => [] end;
  ie_stats : forall f, u64 (is_stats s' f) = u64 (is_stats s f + eventCount db e f);
}.

(** The lookup of the handler, cached or fresh, is a fresh match. *)
Lemma group_lookup db c (m : gmap nat (option GroupPtr)) :
  match m !! cn_addr c with Some (Some g) => peerGroup db (cn_ip c) (cn_port c) = Some g | _ => True end ->
  match (match m !! cn_addr c with Some g => g | None => None end) with
  | Some g => peerGroup db (cn_ip c) (cn_port c) = Some g
  | None => True
  end.
Proof. by destruct (m !! cn_addr c) as [[g|]|]. Qed.

Lemma ingestMessage_effect db live c data t s :
  live !! cn_addr c = Some c -> bound db live (is_groupByConn s) ->
  exists s', ingestMessage db c data t s = (s', []) /\
    ingest_effect db (Received c data t) s s' /\ bound db live (is_groupByConn s').
Proof.
  intros Hc Hb. destruct data as [|b data].
  { exists s. split; [done|]. split; [|done]. constructor; [done|by rewrite app_nil_r|].
    intros f. by destruct f; rewrite Z.add_0_r. }
  pose proof (group_lookup db c _ (Hb c Hc)) as Hg. unfold ingestMessage. cbn [is_groupByConn is_count].
  set (cached := match is_groupByConn s !! cn_addr c with Some g => g | None => None end) in *.
  assert (forall g s1, peerGroup db (cn_ip c) (cn_port c) = Some g -> is_servers s1 = is_servers s ->
    is_queue s1 = is_queue s -> is_stats s1 = fetch_add BytesIn (lenZ (b :: data)) (is_stats s) ->
    ingest_effect db (Received c (b :: data) t) s
      (if ingestable (gp_group g) then is_count Chunks 1 (is_enqueue (mkChunk (Some g) (toMs t) (b :: data)) s1)
       else is_count Unmatched 1 s1)) as Hknown.
  { intros g s1 E E1 E2 E3.
    assert (wanted db (Received c (b :: data) t) =
      if ingestable (gp_group g) then Some (mkChunk (Some g) (toMs t) (b :: data)) else None) as Ew
      by (unfold wanted; by rewrite E).
    constructor; rewrite ?Ew; destruct (ingestable (gp_group g)); cbn [is_servers is_queue is_count is_enqueue is_stats];
      rewrite ?E1, ?E2, ?E3, ?app_nil_r; try done; intros f;
      rewrite u64_fetch_add, <- uwrap_add_l, u64_fetch_add, uwrap_add_l, <- Z.add_assoc;
      do 2 f_equal; unfold eventCount, arrived, received; rewrite Ew; by destruct f. }
  destruct cached as [g|].
  - exists (if ingestable (gp_group g)
      then is_count Chunks 1 (is_enqueue (mkChunk (Some g) (toMs t) (b :: data)) (is_count BytesIn (lenZ (b :: data)) s))
      else is_count Unmatched 1 (is_count BytesIn (lenZ (b :: data)) s)).
    split; [by destruct (ingestable (gp_group g))|]. split; [by apply Hknown|].
    by destruct (ingestable (gp_group g)).
  - destruct (peerGroup db (cn_ip c) (cn_port c)) as [g|] eqn:Eg.
    + set (s1 := is_set_groups (<[cn_addr c := Some g]> (is_groupByConn s)) (is_count BytesIn (lenZ (b :: data)) s)).
      exists (if ingestable (gp_group g)
        then is_count Chunks 1 (is_enqueue (mkChunk (Some g) (toMs t) (b :: data)) s1) else is_count Unmatched 1 s1).
      split; [by destruct (ingestable (gp_group g))|]. split; [by apply Hknown|].
      assert (bound db live (is_groupByConn s1)) as Hb1.
      { intros c' Hc'. cbn [s1 is_groupByConn is_set_groups]. destruct (decide (cn_addr c = cn_addr c')) as [E|E].
        - rewrite E in Hc. assert (c = c') as -> by congruence. by rewrite lookup_insert_eq.
        - rewrite lookup_insert_ne by done. by apply Hb. }
      by destruct (ingestable (gp_group g)).
    + eexists. split; [done|]. split; [|done]. assert (wanted db (Received c (b :: data) t) = None) as Ew
        by (unfold wanted; by rewrite Eg).
      constructor; rewrite ?Ew; cbn [is_servers is_queue is_count is_stats]; rewrite ?app_nil_r; try done.
      intros f. rewrite u64_fetch_add, <- uwrap_add_l, u64_fetch_add, uwrap_add_l, <- Z.add_assoc.
      do 2 f_equal. unfold eventCount, arrived, received. rewrite Ew. by destruct f.
Qed.

Lemma bound_open db live c m : bound db live m -> live !! cn_addr c = None ->
  bound db (<[cn_addr c := c]> live) (<[cn_addr c := peerGroup db (cn_ip c) (cn_port c)]> m).
Proof.
  intros Hb Hn c' Hc'. destruct (decide (cn_addr c = cn_addr c')) as [E|E].
  - rewrite E, lookup_insert_eq in Hc'. injection Hc' as ->. rewrite lookup_insert_eq.
    by destruct (peerGroup db (cn_ip c') (cn_port c')).
  - rewrite lookup_insert_ne in Hc' by done. rewrite lookup_insert_ne by done. by apply Hb.
Qed.

Lemma bound_close db live c m : bound db live m -> bound db (delete (cn_addr c) live) (delete (cn_addr c) m).
Proof.
  intros Hb c' Hc'. apply lookup_delete_Some in Hc' as [Hne Hc']. rewrite lookup_delete_ne by done. by apply Hb.
Qed.

Lemma ingestStep_effect db live s bufs e : trace_ok live [e] -> bound db live (is_groupByConn s) ->
  (forall a, default [] (bufs !! a) = []) ->
  exists s' bufs' live', ingestStep db (s, bufs) e = (s', bufs') /\ ingest_effect db e s s' /\
    bound db live' (is_groupByConn s') /\ (forall a, default [] (bufs' !! a) = []) /\
    forall es, trace_ok live (e :: es) -> trace_ok live' es.
Proof.
  intros Ht Hb Hbufs. destruct e as [c|c|c data t]; destruct Ht as [Hl _].
  - eexists _, _, (<[cn_addr c := c]> live). split; [done|]. split_and!.
    + constructor; cbn; [done|by rewrite app_nil_r|]. intros f. rewrite u64_fetch_add. by destruct f.
    + by apply bound_open.
    + intros a. destruct (decide (a = cn_addr c)) as [->|]; [by rewrite lookup_insert_eq|by rewrite lookup_insert_ne].
    + by intros es [_ H].
  - eexists _, _, (delete (cn_addr c) live). split; [done|]. split_and!.
    + constructor; cbn; [done|by rewrite app_nil_r|]. intros f. by destruct f; rewrite Z.add_0_r.
    + by apply bound_close.
    + intros a. destruct (decide (a = cn_addr c)) as [->|]; [by rewrite lookup_delete_eq|by rewrite lookup_delete_ne].
    + by intros es [_ H].
  - destruct (ingestMessage_effect db live c data t s Hl Hb) as (s' & E & He & Hb').
    exists s', (<[cn_addr c := []]> bufs), live. cbn [ingestStep]. rewrite Hbufs. cbn [app]. rewrite E.
    split; [done|]. split_and!; [done|done| |by intros es [_ H]].
    intros a. destruct (decide (a = cn_addr c)) as [->|]; [by rewrite lookup_insert_eq|by rewrite lookup_insert_ne].
Qed.

Lemma trace_ok_head live e es : trace_ok live (e :: es) -> trace_ok live [e].
Proof. destruct e; simpl; tauto. Qed.

Lemma ingestRun_effect db es : forall live s bufs, trace_ok live es -> bound db live (is_groupByConn s) ->
  (forall a, default [] (bufs !! a) = []) ->
  exists s' bufs', fold_left (ingestStep db) es (s, bufs) = (s', bufs') /\
    is_servers s' = is_servers s /\ is_queue s' = is_queue s ++ omap (wanted db) es /\
    (forall f, u64 (is_stats s' f) = u64 (is_stats s f + traceCount db es f)) /\
    forall a, default [] (bufs' !! a) = [].
Proof.
  induction es as [|e es IH]; intros live s bufs Ht Hb Hbufs.
  - exists s, bufs. cbn. split_and!; [done|done|by rewrite app_nil_r| |done]. intros f. by rewrite Z.add_0_r.
  - destruct (ingestStep_effect db live s bufs e (trace_ok_head _ _ _ Ht) Hb Hbufs)
      as (s1 & b1 & live1 & E & [E1 E2 E3] & Hb1 & Hbufs1 & Ht1).
    destruct (IH live1 s1 b1 (Ht1 es Ht) Hb1 Hbufs1) as (s2 & b2 & F & F1 & F2 & F3 & F4).
    exists s2, b2. change (fold_left (ingestStep db) (e :: es) (s, bufs)) with
      (fold_left (ingestStep db) es (ingestStep db (s, bufs) e)). rewrite E. split_and!; [done|congruence| | |done].
    + rewrite F2, E2, <- app_assoc. f_equal. simpl. by destruct (wanted db e).
    + intros f. rewrite F3, <- uwrap_add_l, E3, uwrap_add_l, traceCount_cons. f_equal. lia.
Qed.

(** The ingest server refines a memoryless filter.  On any trace the
    network can produce - connections opening, closing and reusing addresses,
    messages interleaved in any order - the queue receives exactly the messages
    that match a decodable peer group when they arrive, whole, once, in order
    and with their group and receive time, although the bindings are cached;
    every byte is taken from the input buffers, and the counters add up (modulo
    2^64): each non-empty message counts as a chunk or as unmatched. *)
Theorem ingestRun_filters db s es :
  trace_ok ∅ es ->
  exists s' bufs, ingestRun db s es = (s', bufs) /\
    is_queue s' = is_queue s ++ omap (wanted db) es /\
    (forall f, u64 (is_stats s' f) = u64 (is_stats s f + traceCount db es f)) /\
    traceCount db es Chunks = lenZ (omap (wanted db) es) /\
    traceCount db es Chunks + traceCount db es Unmatched = lenZ (filter (fun e => arrived e = true) es) /\
    forall a, default [] (bufs !! a) = [].
Proof.
  intros Ht. destruct (ingestRun_effect db es ∅ s ∅ Ht) as (s' & bufs & E & _ & Hq & Hs & Hb); [done|done|].
  exists s', bufs. split_and!; try done; clear.
  - induction es as [|e es IH]; [done|]. rewrite traceCount_cons, IH. simpl. destruct (wanted db e); [by rewrite lenZ_cons|done].
  - induction es as [|e es IH]; [done|]. rewrite !traceCount_cons, filter_cons. cbn [eventCount].
    assert (arrived e = false -> wanted db e = None) as Hw by (by destruct e as [| |? [|??] ?]).
    destruct (arrived e); [rewrite decide_True by done; rewrite lenZ_cons|rewrite decide_False by done; rewrite Hw by done];
      [destruct (wanted db e); lia|lia].
Qed.

(** ** Ports *)

Lemma unique_adj_elem x l : x ∈ unique_adj l <-> x ∈ l.
Proof.
  induction l as [|y [|z l] IH]; [by cbn|by cbn|]. change (unique_adj (y :: z :: l)) with
    (if y =? z then unique_adj (z :: l) else y :: unique_adj (z :: l)).
  destruct (Z.eqb_spec y z) as [->|].
  - rewrite IH. rewrite !elem_of_cons. tauto.
  - rewrite (elem_of_cons (unique_adj (z :: l))), (elem_of_cons (z :: l)), IH. done.
Qed.

Lemma unique_adj_sorted l : StronglySorted Z.le l -> StronglySorted Z.lt (unique_adj l).
Proof.
  induction l as [|y [|z l] IH]; [intros _; constructor| |].
  - intros _. by repeat constructor.
  - intros H. inversion H as [|? ? Hs Hf]; subst. change (unique_adj (y :: z :: l)) with
      (if y =? z then unique_adj (z :: l) else y :: unique_adj (z :: l)).
    destruct (Z.eqb_spec y z); [by apply IH|]. constructor; [by apply IH|].
    apply Forall_forall. intros x Hx. rewrite unique_adj_elem in Hx. inversion Hs as [|? ? _ Hz]; subst.
    rewrite Forall_forall in Hf, Hz. specialize (Hf z ltac:(by left)).
    apply elem_of_cons in Hx as [->|Hx]; [lia|]. specialize (Hz x Hx). lia.
Qed.

Lemma sort_unique_spec l : StronglySorted Z.lt (sort_unique l) /\ forall x, x ∈ sort_unique l <-> x ∈ l.
Proof.
  unfold sort_unique. split.
  - apply unique_adj_sorted. apply (StronglySorted_merge_sort Z.le).
  - intros x. rewrite unique_adj_elem. by rewrite (merge_sort_Permutation Z.le l).
Qed.

(** [start] listens on every port of the configuration exactly once, in
    increasing order, whatever duplicates the device table and the extra ports
    hold; it fails, leaving nothing listening, exactly when there is no port at
    all - in particular for a device table of http devices only. *)
Theorem ingestStart_ports db cfg s :
  match ingestStart db cfg s with
  | inl _ => forall p, p ∉ db_listenPorts db /\ p ∉ extraListenPorts cfg
  | inr s' => exists ports, is_servers s' = is_servers s ++ map (fun p => (p, "ingest:" +:+ to_string p)) ports /\
      ports <> [] /\ StronglySorted Z.lt ports /\
      (forall p, p ∈ ports <-> p ∈ db_listenPorts db \/ p ∈ extraListenPorts cfg) /\
      is_groupByConn s' = is_groupByConn s /\ is_queue s' = is_queue s /\ is_stats s' = is_stats s
  end.
Proof.
  unfold ingestStart, ingestPorts. destruct (sort_unique_spec (db_listenPorts db ++ extraListenPorts cfg)) as [Hs Hin].
  destruct (sort_unique _) as [|p ps] eqn:E.
  - intros p. split; intros Hp; specialize (proj2 (Hin p) ltac:(apply elem_of_app; tauto)); apply not_elem_of_nil.
  - exists (p :: ps). split_and!; try done. intros q. by rewrite Hin, elem_of_app.
Qed.

(** ** A run *)

Definition ingest_db : ConfigDB :=
  mkDB [p_desc Demo.status; p_desc Demo.event] ∅ [4000] [] [mkGroupIx "10.0.0.1:502" [0%nat; 1%nat]]
    {["10.0.0.1:502" := 0%nat]} {["10.0.0.1" := 0%nat]} ∅.

Definition ingest_trace : list NetEvent :=
  [Opened (mkConn 7 "10.0.0.1" 999); Received (mkConn 7 "10.0.0.1" 999) [1; 2] 1500;
   Opened (mkConn 8 "10.0.0.9" 1); Received (mkConn 8 "10.0.0.9" 1) [3] 2500;
   Received (mkConn 7 "10.0.0.1" 999) [] 3500; Closed (mkConn 7 "10.0.0.1" 999);
   Opened (mkConn 7 "10.0.0.9" 2); Received (mkConn 7 "10.0.0.9" 2) [4] 4500].

Lemma ingestRun_filters_witness :
  trace_ok ∅ ingest_trace /\
  exists s' bufs, ingestRun ingest_db (newIngest AdapterStats0) ingest_trace = (s', bufs) /\
    is_queue s' = [mkChunk (Some (mkGroupPtr 0 Demo.group)) 1 [1; 2]] /\
    u64 (is_stats s' Unmatched) = 2 /\ u64 (is_stats s' ConnsOpened) = 3.
Proof.
  assert (trace_ok ∅ ingest_trace) as Ht by (repeat split).
  split; [exact Ht|].
  destruct (ingestRun_filters ingest_db (newIngest AdapterStats0) ingest_trace Ht) as (s' & bufs & E & Hq & Hs & _).
  exists s', bufs. rewrite E, Hq, !Hs. split_and!; vm_compute; reflexivity.
Defined.
