(* ===== verification/Strtod.v ===== *)
(** * Reading floating-point numbers

    [strtod] and [llround] of the C library, as far as
    [src/src/adapter/HttpIngest.cpp] uses them: the subject sequences of the C
    locale (decimal, hexadecimal, infinities and NaNs), the value rounded to
    nearest with ties to even, and rounding half away from zero.  Doubles are
    64-bit patterns ([Floats]). *)

From stdpp Require Import base list numbers strings pretty.
From Stdlib Require Import ZArith Lia Ascii.
From S2P Require Import Prelude Floats CText DoubleText.
Local Open Scope Z_scope.

(** ** The double nearest to a quotient *)

(** The binary exponent of [num / den]: [2^x <= num / den < 2^(x+1)]. *)
Definition log2_ratio (num den : Z) : Z :=
  let l := Z.log2 num - Z.log2 den in
  if (if 0 <=? l then den * 2 ^ l <=? num else den <=? num * 2 ^ (- l)) then l else l - 1.

(** The pattern nearest to [(-1)^s * num / den]. *)
Definition f64_of_ratio (s num den : Z) : Z :=
  let inf := 2047 * 2 ^ 52 in
  let mag :=
    if num =? 0 then 0
    else
      let x := log2_ratio num den in
      let q := Z.max (x - 52) (-1074) in
      let n := if 0 <=? q then div_rne num (den * 2 ^ q) else div_rne (num * 2 ^ (- q)) den in
      let bits := if -1022 <=? x then (x + 1022) * 2 ^ 52 + n else n in
      Z.min bits inf
  in s * 2 ^ 63 + mag.

(** [m * base^e] *)
Definition f64_of_scaled (s m base e : Z) : Z :=
  if 0 <=? e then f64_of_ratio s (m * base ^ e) 1 else f64_of_ratio s m (base ^ (- e)).

(** ** Scanning *)

(** Digits from the front: the value they continue, how many there were, and
    the rest. *)
Fixpoint take_digits (base acc n : Z) (s : string) : Z * Z * string :=
  match s with
  | String.String c s' =>
      match digit_value base c with
      | Some v => take_digits base (acc * base + v) (n + 1) s'
      | None => (acc, n, s)
      end
  | String.EmptyString => (acc, n, s)
  end.

(** A character, in either case. *)
Definition is_letter (l : ascii) (c : ascii) : bool :=
  Ascii.eqb c l || (code c =? code l - 32).

(** A word in any case at the front: the rest. *)
Fixpoint take_word (w s : string) : option string :=
  match w, s with
  | String.EmptyString, _ => Some s
  | String.String l w', String.String c s' => if is_letter l c then take_word w' s' else None
  | String.String _ _, String.EmptyString => None
  end.

(** The exponent part, when it is complete. *)
Definition take_exponent (l : ascii) (s : string) : Z * string :=
  match s with
  | String.String c s1 =>
      if is_letter l c then
        let '(neg, s2) := scan_sign s1 in
        let '(e, n, s3) := take_digits 10 0 0 s2 in
        if 0 <? n then (if neg then - e else e, s3) else (0, s)
      else (0, s)
  | String.EmptyString => (0, s)
  end.

(** Digits with an optional point: mantissa, digits behind the point and the
    rest, or nothing. *)
Definition take_mantissa (base : Z) (s : string) : option (Z * Z * string) :=
  let '(m, n, s1) := take_digits base 0 0 s in
  match s1 with
  | String.String "."%char s2 =>
      let '(m2, k, s3) := take_digits base m 0 s2 in
      if 0 <? n + k then Some (m2, k, s3) else None
  | _ => if 0 <? n then Some (m, 0, s1) else None
  end.

(** [0x] and its hexadecimal number. *)
Definition take_hex (sg : Z) (s : string) : option (Z * string) :=
  match s with
  | String.String "0"%char (String.String x s1) =>
      if is_letter "x"%char x then
        '(m, k, s2) ← take_mantissa 16 s1;
        let '(e, s3) := take_exponent "p"%char s2 in
        Some (f64_of_scaled sg m 2 (e - 4 * k), s3)
      else None
  | _ => None
  end.

Definition take_decimal (sg : Z) (s : string) : option (Z * string) :=
  '(m, k, s1) ← take_mantissa 10 s;
  let '(e, s2) := take_exponent "e"%char s1 in
  Some (f64_of_scaled sg m 10 (e - k), s2).

Definition take_infinity (sg : Z) (s : string) : option (Z * string) :=
  s1 ← take_word "inf" s;
  Some (sg * 2 ^ 63 + 2047 * 2 ^ 52, default s1 (take_word "inity" s1)).

Definition is_nchar (c : ascii) : bool := is_digit c || is_lower c || is_upper c || Ascii.eqb c "_"%char.

(** The characters before the first that fails the test, and the rest. *)
Fixpoint str_span (p : ascii -> bool) (s : string) : string * string :=
  match s with
  | String.String c s' => if p c then let '(a, b) := str_span p s' in (String.String c a, b) else (String.EmptyString, s)
  | String.EmptyString => (s, s)
  end.

(** The payload of [nan(...)] in the GNU library: the sequence read as an
    integer when it is one. *)
Definition nan_bits (seq : string) : Z :=
  let '(b, s1) := scan_base seq in
  let '(v, n, s2) := take_digits b 0 0 s1 in
  if (0 <? n) && str_empty s2 then Z.min v (2 ^ 64 - 1) mod 2 ^ 51 else 0.

Definition take_nan (sg : Z) (s : string) : option (Z * string) :=
  s1 ← take_word "nan" s;
  let quiet := sg * 2 ^ 63 + 2047 * 2 ^ 52 + 2 ^ 51 in
  Some (match s1 with
        | String.String "("%char s2 =>
            let '(seq, s3) := str_span is_nchar s2 in
            match s3 with
            | String.String ")"%char s4 => (quiet + nan_bits seq, s4)
            | _ => (quiet, s1)
            end
        | _ => (quiet, s1)
        end).

(** [strtod(s, &end)]: the value and the rest, [None] when [end == s]. *)
Definition strtod (s : string) : option (Z * string) :=
  let '(neg, s1) := scan_sign (skip_space s) in
  let sg := if neg then 1 else 0 in
  match take_hex sg s1 with
  | Some r => Some r
  | None =>
      match take_decimal sg s1 with
      | Some r => Some r
      | None => match take_infinity sg s1 with Some r => Some r | None => take_nan sg s1 end
      end
  end.

(** [llround(d)]: half away from zero; [None] outside [long long], where the
    result is unspecified. *)
Definition llround (b : Z) : option Z :=
  if fp_exp 52 11 b =? 2047 then None
  else
    let '(M, E) := fp_finite 52 11 b in
    let m := if 0 <=? E then M * 2 ^ E else (M + 2 ^ (- E - 1)) / 2 ^ (- E) in
    let v := if fp_sign 52 11 b =? 1 then - m else m in
    if (- 2 ^ 63 <=? v) && (v <? 2 ^ 63) then Some v else None.

(** [d == 0.0] *)
Definition f64_is_zero (b : Z) : bool := b mod 2 ^ 63 =? 0.

(** ** Sanity *)

Example strtod_tenth : strtod " 0.1}" = Some (0x3FB999999999999A, "}").
Proof. vm_compute. reflexivity. Qed.
Example strtod_e : strtod "-12.5e-1," = Some (0xBFF4000000000000, ",").
Proof. vm_compute. reflexivity. Qed.
Example strtod_no_exp : strtod "5.e+" = Some (0x4014000000000000, "e+").
Proof. vm_compute. reflexivity. Qed.
Example strtod_hex : strtod "0x1.8p1z" = Some (0x4008000000000000, "z").
Proof. vm_compute. reflexivity. Qed.
Example strtod_bad_hex : strtod "0xg" = Some (0, "xg").
Proof. vm_compute. reflexivity. Qed.
Example strtod_max : strtod "1.7976931348623159e308" = Some (0x7FF0000000000000, "").
Proof. vm_compute. reflexivity. Qed.
Example strtod_min : strtod "4.9e-324" = Some (1, "").
Proof. vm_compute. reflexivity. Qed.
Example strtod_underflow : strtod "2.4703282292062327e-324" = Some (0, "").
Proof. vm_compute. reflexivity. Qed.
Example strtod_tie : strtod "9007199254740993" = Some (0x4340000000000000, "").
Proof. vm_compute. reflexivity. Qed.
Example strtod_inf : strtod "-InfinitY" = Some (0xFFF0000000000000, "").
Proof. vm_compute. reflexivity. Qed.
Example strtod_nan : strtod "nan(12)," = Some (0x7FF800000000000C, ",").
Proof. vm_compute. reflexivity. Qed.
Example strtod_none : strtod " +." = None.
Proof. vm_compute. reflexivity. Qed.
Example llround_half : llround 0xC004000000000000 = Some (-3).
Proof. vm_compute. reflexivity. Qed.
Example llround_tiny : llround 0x3FDFFFFFFFFFFFFF = Some 0.
Proof. vm_compute. reflexivity. Qed.

(** ** Integers are read exactly *)

Lemma take_digits_scan t : forall acc n s, str_forall is_digit t = true -> starts_with is_digit s = false ->
  take_digits 10 acc n (t +:+ s) =
    (fst (scan_digits 10 acc n (t +:+ s)), snd (scan_digits 10 acc n (t +:+ s)), s).
Proof.
  assert (forall c, is_digit c = false -> digit_value 10 c = None) as Hd.
  { intros c Hc. unfold digit_value. rewrite Hc. unfold is_digit, is_lower, is_upper in *.
    repeat destr_if; bool_to_prop; try done; lia. }
  induction t as [|c t IH]; intros acc n s Ht Hs.
  - rewrite str_nil_app. destruct s as [|c s]; [done|]. cbn [starts_with] in Hs. cbn [take_digits scan_digits].
    by rewrite (Hd c Hs).
  - cbn [str_forall] in Ht. bool_to_prop. rewrite str_cons_app. cbn [take_digits scan_digits].
    unfold digit_value. match goal with H : is_digit c = true |- _ => rewrite H end.
    destruct (code c - 48 <? 10) eqn:E; [by apply IH|]. unfold is_digit in *. bool_to_prop. lia.
Qed.

Lemma take_digits_to_string n s : 0 <= n -> starts_with is_digit s = false ->
  exists k, 0 < k /\ take_digits 10 0 0 (to_string n +:+ s) = (n, k, s).
Proof.
  intros Hn Hs. destruct (scan_to_string n s Hn Hs) as (k & Hk & E). exists k. split; [done|].
  rewrite take_digits_scan by (done || apply to_string_digits; done). by rewrite E.
Qed.

Lemma rne_shift_div n s : 0 < s -> rne_shift n s = div_rne n (2 ^ s).
Proof.
  intros Hs. unfold rne_shift, div_rne. destruct (Z.leb_spec s 0); [lia|].
  assert (2 ^ s = 2 * 2 ^ (s - 1)) as Hp by (rewrite <- Z.pow_succ_r by lia; f_equal; lia).
  assert ((n mod 2 ^ s <? 2 ^ (s - 1)) = (2 * (n mod 2 ^ s) <? 2 ^ s)) as ->
    by (apply Bool.eq_iff_eq_true; rewrite !Z.ltb_lt; lia).
  assert ((2 ^ (s - 1) <? n mod 2 ^ s) = (2 ^ s <? 2 * (n mod 2 ^ s))) as ->
    by (apply Bool.eq_iff_eq_true; rewrite !Z.ltb_lt; lia).
  done.
Qed.

(** An integer is rounded as a conversion rounds it. *)
Lemma f64_of_ratio_integer sg n : 0 <= n -> f64_of_ratio sg n 1 = fp_encode 52 11 sg n 0.
Proof.
  intros Hn. unfold f64_of_ratio, fp_encode. change (fp_bias 11) with 1023.
  change (52 + 11) with 63. change ((2 ^ 11 - 1) * 2 ^ 52) with (2047 * 2 ^ 52).
  destruct (Z.eqb_spec n 0); [done|]. pose proof (Z.log2_nonneg n). pose proof (Z.log2_spec n ltac:(lia)) as [Hl _].
  assert (log2_ratio n 1 = Z.log2 n) as ->.
  { unfold log2_ratio. change (Z.log2 1) with 0. rewrite Z.sub_0_r.
    destruct (Z.leb_spec 0 (Z.log2 n)); [|lia]. rewrite Z.mul_1_l. by rewrite (proj2 (Z.leb_le _ _)) by lia. }
  rewrite Z.add_0_r. change (1 - 1023) with (-1022). change (-1022 - 52) with (-1074).
  rewrite Z.max_l by lia. rewrite Z.sub_0_r.
  assert ((if 0 <=? Z.log2 n - 52 then div_rne n (1 * 2 ^ (Z.log2 n - 52)) else div_rne (n * 2 ^ (- (Z.log2 n - 52))) 1) =
    rne_shift n (Z.log2 n - 52)) as ->.
  { destruct (Z.leb_spec 0 (Z.log2 n - 52)).
    - rewrite Z.mul_1_l. destruct (decide (Z.log2 n - 52 = 0)) as [->|].
      + rewrite rne_shift_nonpos by lia. change (- 0) with 0. rewrite <- (div_rne_exact n (2 ^ 0)) at 2 by done.
        by rewrite !Z.mul_1_r.
      + by rewrite rne_shift_div by lia.
    - rewrite rne_shift_nonpos by lia. rewrite <- (div_rne_exact (n * _) 1) at 2 by done. by rewrite Z.mul_1_r. }
  replace (Z.log2 n + 1023 - 1) with (Z.log2 n + 1022) by lia. done.
Qed.

Lemma scan_sign_to_string n s : scan_sign (skip_space (to_string n +:+ s)) = (n <? 0, to_string (Z.abs n) +:+ s).
Proof.
  destruct (Z.ltb_spec n 0).
  - assert (to_string n = String.String "-" (to_string (Z.abs n))) as ->.
    { unfold to_string. destruct (Z.ltb_spec n 0); [|lia]. destruct (Z.ltb_spec (Z.abs n) 0); [lia|].
      by replace (Z.abs n) with (- n) by lia. }
    by rewrite str_cons_app.
  - rewrite Z.abs_eq by done. destruct (to_string_digits n) as [_ Hd]; [done|]. apply scan_sign_digit.
    by destruct (to_string n).
Qed.

(** What may follow a number without being read as part of it. *)
Definition ends_number (s : string) : bool :=
  negb (starts_with (fun c => is_digit c || Ascii.eqb c "." || is_letter "e" c || is_letter "x" c) s).

Lemma ends_number_cases s : ends_number s = true ->
  starts_with is_digit s = false /\ starts_with (fun c => Ascii.eqb c ".") s = false /\
  starts_with (is_letter "e") s = false /\ starts_with (is_letter "x") s = false.
Proof. unfold ends_number. destruct s as [|c s]; [done|]. cbn [starts_with]. intros H. by bool_to_prop. Qed.

Lemma digit_not_letter c : is_digit c = true -> is_letter "x" c = false.
Proof.
  unfold is_digit, is_letter. intros H. bool_to_prop. change (code "x" - 32) with 88.
  destruct (Ascii.eqb_spec c "x") as [->|]; [by change (code "x") with 120 in *|]. by rewrite (proj2 (Z.eqb_neq _ _)) by lia.
Qed.

Lemma take_hex_decimal sg t s : str_forall is_digit t = true -> starts_with is_digit t = true ->
  ends_number s = true -> take_hex sg (t +:+ s) = None.
Proof.
  intros Ht Hs Hend. destruct (ends_number_cases s Hend) as (_ & _ & _ & Hx).
  destruct t as [|c t]; [done|]. rewrite str_cons_app. cbn [str_forall] in Ht. bool_to_prop.
  unfold take_hex. destruct (ascii_dec c "0") as [->|Hc].
  - destruct t as [|x t].
    + rewrite str_nil_app. destruct s as [|x s]; [done|]. cbn [starts_with] in Hx. by rewrite Hx.
    + rewrite str_cons_app. cbn [str_forall] in *. bool_to_prop. by rewrite digit_not_letter.
  - destruct c as [[] [] [] [] [] [] [] []]; done.
Qed.

(** [strtod] reads an integer as a conversion would round it. *)
Lemma strtod_integer n s : ends_number s = true ->
  strtod (to_string n +:+ s) = Some (fp_encode 52 11 (if n <? 0 then 1 else 0) (Z.abs n) 0, s).
Proof.
  intros Hs. destruct (ends_number_cases s Hs) as (Hd & Hp & He & Hx). unfold strtod. rewrite scan_sign_to_string.
  destruct (to_string_digits (Z.abs n)) as [Hf Hf1]; [lia|]. rewrite take_hex_decimal by done.
  destruct (take_digits_to_string (Z.abs n) s) as (k & Hk & E); [lia|done|].
  assert (take_mantissa 10 (to_string (Z.abs n) +:+ s) = Some (Z.abs n, 0, s)) as Em.
  { unfold take_mantissa. rewrite E. destruct (Z.ltb_spec 0 k); [|lia]. destruct s as [|c s]; [done|].
    cbn [starts_with] in Hp. destruct c as [[] [] [] [] [] [] [] []]; done. }
  assert (take_exponent "e" s = (0, s)) as Ee.
  { unfold take_exponent. destruct s as [|c s]; [done|]. cbn [starts_with] in He. by rewrite He. }
  unfold take_decimal. rewrite Em. cbn [mbind option_bind]. rewrite Ee. unfold f64_of_scaled.
  change (0 - 0) with 0. cbn [Z.leb Z.compare]. rewrite Z.mul_1_r. by rewrite f64_of_ratio_integer by lia.
Qed.

(** [llround] of a double that holds an integer below 2^53. *)
Lemma llround_integer n : Z.abs n < 2 ^ 53 ->
  llround (fp_encode 52 11 (if n <? 0 then 1 else 0) (Z.abs n) 0) = Some n.
Proof.
  intros Hn. destruct (decide (n = 0)) as [->|Hz]; [reflexivity|]. set (sg := if n <? 0 then 1 else 0).
  assert (Z.log2 (Z.abs n) <= 52) as Hlog.
  { change 52 with (Z.log2 (2 ^ 53 - 1)). apply Z.log2_le_mono. lia. }
  pose proof (Z.log2_nonneg (Z.abs n)).
  destruct (fp_encode_exact 52 11 sg (Z.abs n) 0) as (Hs & He & Hf); try lia.
  { subst sg. destruct (n <? 0); lia. }
  { change (fp_bias 11) with 1023. lia. }
  unfold llround. rewrite Hf, Hs. apply Z.eqb_neq in He. change (2 ^ 11 - 1) with 2047 in He. rewrite He.
  set (k := 52 - Z.log2 (Z.abs n)) in *. assert (0 <= k) by lia.
  assert ((if 0 <=? 0 - k then Z.abs n * 2 ^ k * 2 ^ (0 - k) else (Z.abs n * 2 ^ k + 2 ^ (- (0 - k) - 1)) / 2 ^ (- (0 - k)))
    = Z.abs n) as ->.
  { destruct (Z.leb_spec 0 (0 - k)).
    - assert (k = 0) as -> by lia. lia.
    - replace (- (0 - k)) with k by lia. rewrite Z.add_comm, Z.div_add by lia.
      rewrite (Z.div_small (2 ^ (k - 1))); [lia|]. split; [lia|]. apply Z.pow_lt_mono_r; lia. }
  unfold sg. destruct (Z.ltb_spec n 0).
  - cbn [Z.eqb Pos.eqb]. replace (- Z.abs n) with n by lia. by rewrite (proj2 (Z.leb_le _ _)), (proj2 (Z.ltb_lt _ _)) by lia.
  - cbn [Z.eqb]. replace (Z.abs n) with n by lia. by rewrite (proj2 (Z.leb_le _ _)), (proj2 (Z.ltb_lt _ _)) by lia.
Qed.

(** Only 0 is read as zero. *)
Lemma f64_is_zero_integer n : Z.abs n < 2 ^ 53 ->
  f64_is_zero (fp_encode 52 11 (if n <? 0 then 1 else 0) (Z.abs n) 0) = (n =? 0).
Proof.
  intros Hn. destruct (decide (n = 0)) as [->|Hz]; [reflexivity|]. set (sg := if n <? 0 then 1 else 0).
  rewrite (proj2 (Z.eqb_neq n 0)) by done.
  assert (Z.log2 (Z.abs n) <= 52) as Hlog.
  { change 52 with (Z.log2 (2 ^ 53 - 1)). apply Z.log2_le_mono. lia. }
  pose proof (Z.log2_nonneg (Z.abs n)).
  destruct (fp_encode_exact 52 11 sg (Z.abs n) 0) as (_ & _ & Hf); try lia.
  { subst sg. destruct (n <? 0); lia. }
  { change (fp_bias 11) with 1023. lia. }
  set (b := fp_encode 52 11 sg (Z.abs n) 0) in *. unfold f64_is_zero. apply Z.eqb_neq. intros E.
  assert (fp_exp 52 11 b = 0 /\ fp_man 52 b = 0) as [E1 E2].
  { unfold fp_exp, fp_man. rewrite (Z.div_mod b (2 ^ 63)) by lia. rewrite E, Z.add_0_r.
    replace (2 ^ 63 * (b / 2 ^ 63)) with (2 ^ 11 * (b / 2 ^ 63) * 2 ^ 52) by lia.
    rewrite Z.div_mul, Z.mod_mul by lia. split; [|done]. rewrite Z.mul_comm. by rewrite Z.mod_mul by lia. }
  unfold fp_finite in Hf. rewrite E1, E2 in Hf. injection Hf as Hm _.
  assert (0 < 2 ^ (52 - Z.log2 (Z.abs n))) by (apply Z.pow_pos_nonneg; lia). nia.
Qed.
