(* ===== verification/DoubleNearest.v ===== *)
(** * The nearest double

    What correct rounding means, apart from any algorithm: among all finite
    doubles none is nearer to the number, and of two equally near the one with
    an even pattern is taken.  [f64_of_ratio], by which [strtod] is modelled,
    rounds so ([f64_of_ratio_nearest]); and what [llround] makes of a double. *)

From stdpp Require Import base list numbers strings.
From Stdlib Require Import ZArith Lia.
From S2P Require Import Prelude Floats CText DoubleText Strtod.
Local Open Scope Z_scope.

(** ** Doubles on one scale *)

(** Every finite double is a whole number of units of [2^-1074]. *)
Definition f64_unit : Z := 2 ^ 1074.
Definition f64_fixed (b : Z) : Z := let '(M, E) := fp_finite 52 11 b in M * 2 ^ (E + 1074).
Definition f64_finite (b : Z) : Prop := 0 <= b < 2 ^ 64 /\ fp_exp 52 11 b <> 2047.
Definition f64_sign (b : Z) : Z := fp_sign 52 11 b.

(** How far a double is from [num / den], in units of [1 / den]. *)
Definition distance (num den b : Z) : Z := Z.abs (num * f64_unit - den * f64_fixed b).

(** [b] is [(-1)^s * num / den] rounded to nearest, ties to even. *)
Record nearest_f64 (s num den b : Z) : Prop := {
  nf_finite : f64_finite b;
  nf_sign : f64_sign b = s;
  nf_near : forall c, f64_finite c -> distance num den b <= distance num den c;
  nf_even : forall c, f64_finite c -> f64_fixed c <> f64_fixed b -> distance num den c = distance num den b -> Z.even b = true;
}.

(** The largest magnitude a double holds. *)
Definition f64_max : Z := (2 ^ 53 - 1) * 2 ^ 971.

Lemma f64_unit_pos : 0 < f64_unit. Proof. done. Qed.
Lemma f64_unit_split k : 0 <= k <= 1074 -> f64_unit = 2 ^ (1074 - k) * 2 ^ k.
Proof. intros H. unfold f64_unit. rewrite <- Z.pow_add_r by lia. f_equal. lia. Qed.
#[global] Opaque f64_unit f64_max.

(** ** Division to nearest *)

Lemma div_rne_cases a b : 0 < b -> exists r, a = b * div_rne a b + r /\ 2 * Z.abs r <= b /\
  (2 * Z.abs r = b -> Z.even (div_rne a b) = true).
Proof.
  intros Hb. exists (a - b * div_rne a b). split; [lia|]. unfold div_rne.
  pose proof (Z.div_mod a b ltac:(lia)) as Hd. pose proof (Z.mod_pos_bound a b Hb) as Hm.
  set (q := a / b) in *. set (r := a mod b) in *. clearbody q r. subst a.
  destruct (Z.ltb_spec (2 * r) b); [split; nia|]. destruct (Z.ltb_spec b (2 * r)); [split; nia|].
  assert (q mod 2 = if Z.even q then 0 else 1) as Hq by apply Zmod_even.
  split; [destruct (Z.even q); nia|]. intros _. rewrite Hq. rewrite Z.even_add. by destruct (Z.even q).
Qed.

Lemma div_rne_near a b j : 0 < b -> Z.abs (a - b * div_rne a b) <= Z.abs (a - b * j).
Proof.
  intros Hb. destruct (div_rne_cases a b Hb) as (r & E & Hr & _). set (n := div_rne a b) in *. clearbody n. subst a.
  destruct (decide (j = n)) as [->|Hj]; [lia|]. replace (b * n + r - b * n) with r by ring.
  replace (b * n + r - b * j) with (r + b * (n - j)) by ring. assert (b <= Z.abs (b * (n - j))) by nia. lia.
Qed.

Lemma div_rne_tie a b j : 0 < b -> j <> div_rne a b ->
  Z.abs (a - b * j) = Z.abs (a - b * div_rne a b) -> Z.even (div_rne a b) = true.
Proof.
  intros Hb Hj He. destruct (div_rne_cases a b Hb) as (r & E & Hr & Heven). apply Heven. clear Heven.
  set (n := div_rne a b) in *. clearbody n. subst a. revert He. replace (b * n + r - b * n) with r by ring.
  replace (b * n + r - b * j) with (r + b * (n - j)) by ring. assert (b <= Z.abs (b * (n - j))) by nia. lia.
Qed.

Lemma div_rne_scale a b k : 0 < b -> 0 < k -> div_rne (a * k) (b * k) = div_rne a b.
Proof.
  intros Hb Hk. unfold div_rne. rewrite Z.div_mul_cancel_r, Z.mul_mod_distr_r by lia.
  assert ((2 * (a mod b * k) <? b * k) = (2 * (a mod b) <? b)) as -> by (apply Bool.eq_iff_eq_true; rewrite !Z.ltb_lt; nia).
  assert ((b * k <? 2 * (a mod b * k)) = (b <? 2 * (a mod b))) as -> by (apply Bool.eq_iff_eq_true; rewrite !Z.ltb_lt; nia).
  done.
Qed.

(** Between two integers the quotient stays between them. *)
Lemma div_rne_between a b lo hi : 0 < b -> b * lo <= a <= b * hi -> lo <= div_rne a b <= hi.
Proof.
  intros Hb Ha. destruct (div_rne_cases a b Hb) as (r & E & Hr & _). set (n := div_rne a b) in *. clearbody n. subst a. nia.
Qed.

(** ** The binary exponent of a quotient *)

Lemma log2_ratio_bounds num den B : 0 < num -> 0 < den -> 0 <= B -> 0 <= log2_ratio num den + B ->
  den * 2 ^ (log2_ratio num den + B) <= num * 2 ^ B < den * 2 ^ (log2_ratio num den + B + 1).
Proof.
  intros Hn Hd HB Hx. pose proof (Z.log2_spec num Hn) as [Na Nb]. pose proof (Z.log2_spec den Hd) as [Da Db].
  pose proof (Z.log2_nonneg num). pose proof (Z.log2_nonneg den).
  rewrite Z.pow_succ_r in Nb, Db by lia. unfold log2_ratio in *. set (l := Z.log2 num - Z.log2 den) in *.
  assert (0 <= l + B) as Hl by (destruct (if 0 <=? l then _ else _); lia).
  assert ((if 0 <=? l then den * 2 ^ l <=? num else den <=? num * 2 ^ (- l)) = (den * 2 ^ (l + B) <=? num * 2 ^ B)) as Ec.
  { apply Bool.eq_iff_eq_true. destruct (Z.leb_spec 0 l); rewrite !Z.leb_le.
    - rewrite Z.pow_add_r by lia. assert (0 < 2 ^ B) by lia. nia.
    - replace B with (l + B + (- l)) at 2 by lia. rewrite (Z.pow_add_r 2 (l + B)) by lia. assert (0 < 2 ^ (l + B)) by lia. nia. }
  rewrite Ec in *. clear Ec.
  assert (2 ^ Z.log2 num * 2 ^ B = 2 ^ Z.log2 den * 2 ^ (l + B)) as Hp.
  { rewrite <- !Z.pow_add_r by lia. f_equal. lia. }
  assert (0 < 2 ^ B) by lia. assert (0 < 2 ^ (l + B)) by lia.
  destruct (Z.leb_spec (den * 2 ^ (l + B)) (num * 2 ^ B)) as [Hc|Hc].
  - split; [done|]. rewrite Z.pow_add_r by lia. change (2 ^ 1) with 2. nia.
  - replace (l - 1 + B + 1) with (l + B) by lia. split; [|done].
    replace (l + B) with (Z.succ (l - 1 + B)) in Hp, Hc by lia. rewrite Z.pow_succ_r in Hp, Hc by lia.
    assert (0 < 2 ^ (l - 1 + B)) by lia. nia.
Qed.

(** ** Patterns *)

Lemma f64_split b : f64_finite b -> exists s e m, b = s * 2 ^ 63 + e * 2 ^ 52 + m /\ (s = 0 \/ s = 1) /\
  0 <= e <= 2046 /\ 0 <= m < 2 ^ 52 /\ f64_sign b = s /\ f64_fixed b = if e =? 0 then m else (m + 2 ^ 52) * 2 ^ (e - 1).
Proof.
  intros [Hb He]. exists (fp_sign 52 11 b), (fp_exp 52 11 b), (fp_man 52 b).
  pose proof (fp_reassemble 52 11 b ltac:(lia) ltac:(lia) ltac:(lia)) as Hr. change (52 + 11) with 63 in Hr.
  pose proof (Z.mod_pos_bound (b / 2 ^ (52 + 11)) 2 ltac:(lia)) as Hs. fold (fp_sign 52 11 b) in Hs.
  pose proof (Z.mod_pos_bound (b / 2 ^ 52) (2 ^ 11) ltac:(lia)) as He2. fold (fp_exp 52 11 b) in He2.
  pose proof (Z.mod_pos_bound b (2 ^ 52) ltac:(lia)) as Hm. fold (fp_man 52 b) in Hm.
  split_and!; try done; try lia. unfold f64_fixed, fp_finite. change (fp_bias 11) with 1023.
  destruct (Z.eqb_spec (fp_exp 52 11 b) 0); [by rewrite Z.mul_1_r|]. do 2 f_equal. lia.
Qed.

(** A mantissa [n] in units of [2^K]; [n = 2^53] carries into the exponent. *)
Lemma f64_pattern s K n : (s = 0 \/ s = 1) -> 0 <= K -> 0 <= n <= 2 ^ 53 -> (K = 0 \/ 2 ^ 52 <= n) ->
  K * 2 ^ 52 + n < 2047 * 2 ^ 52 ->
  let b := s * 2 ^ 63 + (K * 2 ^ 52 + n) in f64_finite b /\ f64_sign b = s /\ f64_fixed b = n * 2 ^ K.
Proof.
  intros Hs HK Hn HKn Hlt b.
  assert (exists e m, K * 2 ^ 52 + n = e * 2 ^ 52 + m /\ 0 <= e <= 2046 /\ 0 <= m < 2 ^ 52 /\
    (if e =? 0 then m else (m + 2 ^ 52) * 2 ^ (e - 1)) = n * 2 ^ K) as (e & m & Eb & He & Hm & Hv).
  { destruct (Z.ltb_spec n (2 ^ 52)).
    - exists 0, n. assert (K = 0) as -> by lia. split_and!; try lia. cbn [Z.eqb]. lia.
    - destruct (Z.ltb_spec n (2 ^ 53)).
      + exists (K + 1), (n - 2 ^ 52). rewrite (proj2 (Z.eqb_neq (K + 1) 0)) by lia. replace (K + 1 - 1) with K by lia.
        split_and!; try lia.
      + assert (n = 2 ^ 53) as -> by lia. exists (K + 2), 0. rewrite (proj2 (Z.eqb_neq (K + 2) 0)) by lia.
        replace (K + 2 - 1) with (Z.succ K) by lia. rewrite Z.pow_succ_r by lia. split_and!; try lia. }
  destruct (fp_parts 52 11 s e m) as (P1 & P2 & P3); try lia. change (52 + 11) with 63 in *.
  assert (b = s * 2 ^ 63 + e * 2 ^ 52 + m) as Hb by (unfold b; lia). rewrite <- Hb in P1, P2, P3.
  split; [split; [lia|by rewrite P2; lia]|]. split; [done|]. unfold f64_fixed, fp_finite. rewrite P2, P3. change (fp_bias 11) with 1023.
  rewrite <- Hv. destruct (Z.eqb_spec e 0); [by rewrite Z.mul_1_r|]. do 2 f_equal. lia.
Qed.

(** Against the grid of [2^K]: a double lies on it, or below all that have a
    full mantissa there. *)
Lemma f64_grid b K : f64_finite b -> 0 <= K -> (exists j, f64_fixed b = j * 2 ^ K) \/ (0 < K /\ f64_fixed b < 2 ^ 52 * 2 ^ K).
Proof.
  intros Hb HK. destruct (f64_split b Hb) as (s & e & m & _ & _ & He & Hm & _ & ->).
  assert (exists k M, (if e =? 0 then m else (m + 2 ^ 52) * 2 ^ (e - 1)) = M * 2 ^ k /\ 0 <= k /\ M < 2 ^ 53)
    as (k & M & -> & Hk & HM).
  { destruct (Z.eqb_spec e 0); [exists 0, m; split_and!; lia|exists (e - 1), (m + 2 ^ 52); split_and!; lia]. }
  destruct (Z.leb_spec K k).
  - left. exists (M * 2 ^ (k - K)). rewrite <- Z.mul_assoc, <- Z.pow_add_r by lia. do 2 f_equal. lia.
  - right. split; [lia|]. replace K with (Z.succ (k + (K - k - 1))) by lia. rewrite Z.pow_succ_r, Z.pow_add_r by lia.
    assert (0 < 2 ^ k) by lia. assert (1 <= 2 ^ (K - k - 1)) by (pose proof (Z.pow_pos_nonneg 2 (K - k - 1)); lia). nia.
Qed.

(** ** Correct rounding *)

(** The grid and the mantissa chosen for [num / den]. *)
Lemma f64_of_ratio_grid s num den : 0 < num -> 0 < den -> num <= den * f64_max ->
  exists K n, f64_of_ratio s num den = s * 2 ^ 63 + (K * 2 ^ 52 + n) /\ 0 <= K /\ 0 <= n <= 2 ^ 53 /\
    n = div_rne (num * f64_unit) (den * 2 ^ K) /\ (0 < K -> den * 2 ^ K * 2 ^ 52 <= num * f64_unit) /\
    (K = 0 \/ 2 ^ 52 <= n) /\ K * 2 ^ 52 + n < 2047 * 2 ^ 52.
Proof.
  intros Hn Hd Hmax. set (x := log2_ratio num den). set (q := Z.max (x - 52) (-1074)). set (K := q + 1074).
  assert (0 <= K) as HK by lia. set (n := div_rne (num * f64_unit) (den * 2 ^ K)).
  assert (0 < 2 ^ K) as HpK by lia. assert (0 < den * 2 ^ K) as HdK by nia. pose proof f64_unit_pos as HU.
  assert (x < 1024) as Hx.
  { destruct (Z.ltb_spec x 1024); [done|]. destruct (log2_ratio_bounds num den 0 Hn Hd) as [Hlo _]; [lia|fold x; lia|].
    fold x in Hlo. rewrite Z.add_0_r, Z.mul_1_r in Hlo. assert (2 ^ 1024 <= 2 ^ x) by (apply Z.pow_le_mono_r; lia).
    assert (f64_max < 2 ^ 1024) by (by vm_compute). nia. }
  assert (den * 2 ^ K * 0 <= num * f64_unit <= den * 2 ^ K * 2 ^ 53 /\ (0 < K \/ -1022 <= x -> den * 2 ^ K * 2 ^ 52 <= num * f64_unit) /\
    (x < -1022 -> num * f64_unit <= den * 2 ^ K * 2 ^ 52)) as (Hb & Hlow & Hsub).
  { destruct (Z.ltb_spec x (-1022)) as [Hs|Hs].
    - assert (K = 0) as -> by lia. rewrite Z.mul_1_r. assert (num * f64_unit <= den * 2 ^ 52) as H52; [|split_and!; lia].
      destruct (log2_ratio_bounds num den (- x) Hn Hd) as [_ Hup]; [lia|fold x; lia|]. fold x in Hup.
      replace (x + - x + 1) with 1 in Hup by lia. change (2 ^ 1) with 2 in Hup.
      destruct (Z.leb_spec 1074 (- x)).
      + replace (- x) with (1074 + (- x - 1074)) in Hup by lia. rewrite Z.pow_add_r in Hup by lia. change (2 ^ 1074) with f64_unit in Hup.
        pose proof (Z.pow_pos_nonneg 2 (- x - 1074)). nia.
      + rewrite (f64_unit_split (1074 + x)) by lia. replace (1074 - (1074 + x)) with (- x) by lia.
        rewrite Z.mul_assoc. assert (2 ^ (1074 + x) <= 2 ^ 51) by (apply Z.pow_le_mono_r; lia).
        assert (0 < 2 ^ (1074 + x)) by lia. change (2 ^ 52) with (2 * 2 ^ 51). nia.
    - assert (K = x + 1022) as EK by lia. destruct (log2_ratio_bounds num den 1074 Hn Hd) as [Hlo Hup]; [lia|fold x; lia|].
      fold x in Hlo, Hup. change (2 ^ 1074) with f64_unit in Hlo, Hup. replace (x + 1074) with (K + 52) in * by lia.
      replace (K + 52 + 1) with (K + 53) in Hup by lia. rewrite Z.pow_add_r in Hlo, Hup by lia. rewrite <- !Z.mul_assoc.
      split_and!; nia. }
  assert (0 <= n <= 2 ^ 53) as Hn53 by (by apply div_rne_between).
  assert (0 < K \/ -1022 <= x -> 2 ^ 52 <= n) as Hn52.
  { intros H. apply (div_rne_between (num * f64_unit) (den * 2 ^ K) (2 ^ 52) (2 ^ 53)); [done|]. specialize (Hlow H). lia. }
  assert (K * 2 ^ 52 + n < 2047 * 2 ^ 52) as Hfit.
  { destruct (Z.leb_spec K 2044); [lia|]. assert (K = 2045) as EK by lia.
    assert (n <= 2 ^ 53 - 1); [|lia]. apply (div_rne_between (num * f64_unit) (den * 2 ^ K) 0 (2 ^ 53 - 1)); [done|].
    split; [lia|]. assert (f64_max * f64_unit = 2 ^ K * (2 ^ 53 - 1)) as E by (rewrite EK; by vm_compute). nia. }
  exists K, n. split_and!; try done; try lia.
  - unfold f64_of_ratio. rewrite (proj2 (Z.eqb_neq num 0)) by lia. fold x. fold q. cbv zeta. f_equal.
    assert ((if 0 <=? q then div_rne num (den * 2 ^ q) else div_rne (num * 2 ^ (- q)) den) = n) as ->.
    { unfold n. destruct (Z.leb_spec 0 q).
      - rewrite <- (div_rne_scale num (den * 2 ^ q) f64_unit) by (done || nia). f_equal. unfold K.
        rewrite Z.pow_add_r by lia. change (2 ^ 1074) with f64_unit. ring.
      - rewrite <- (div_rne_scale (num * 2 ^ (- q)) den (2 ^ K)) by lia. f_equal.
        rewrite (f64_unit_split K) by lia. replace (1074 - K) with (- q) by lia. ring. }
    destruct (Z.leb_spec (-1022) x).
    + replace (x + 1022) with K by lia. rewrite Z.min_l; [done|lia].
    + assert (K = 0) as -> by lia. rewrite Z.mul_0_l, Z.add_0_l. rewrite Z.min_l; [done|lia].
Qed.

Lemma f64_of_ratio_nearest s num den : (s = 0 \/ s = 1) -> 0 <= num -> 0 < den -> num <= den * f64_max ->
  nearest_f64 s num den (f64_of_ratio s num den).
Proof.
  intros Hs Hn Hd Hmax. destruct (decide (num = 0)) as [->|Hz].
  { destruct (f64_pattern s 0 0 Hs) as (F & S & V); [lia..|]. cbn zeta in *.
    assert (f64_of_ratio s 0 den = s * 2 ^ 63 + (0 * 2 ^ 52 + 0)) as -> by (unfold f64_of_ratio; cbn; lia).
    constructor; try done; unfold distance; rewrite V; [lia|]. intros c _ Hne. nia. }
  destruct (f64_of_ratio_grid s num den) as (K & n & Eb & HK & Hnr & En & Hlow & HKn & Hfit); [lia..|].
  destruct (f64_pattern s K n Hs HK Hnr HKn Hfit) as (F & S & V). cbn zeta in *. rewrite <- Eb in F, S, V.
  assert (0 < den * 2 ^ K) as HdK by (pose proof (Z.pow_pos_nonneg 2 K); nia).
  assert (forall j, num * f64_unit - den * (j * 2 ^ K) = num * f64_unit - den * 2 ^ K * j) as Ej by (intros; ring).
  constructor; [done|done| |].
  - intros c Hc. unfold distance. rewrite V, Ej, En. destruct (f64_grid c K Hc HK) as [[j ->]|[HK0 Hlt]].
    + rewrite Ej. by apply div_rne_near.
    + pose proof (div_rne_near (num * f64_unit) (den * 2 ^ K) (2 ^ 52) HdK). specialize (Hlow HK0). nia.
  - intros c Hc Hne Hdist. unfold distance in Hdist. rewrite V, Ej in Hdist. rewrite V in Hne.
    assert (Z.even n = true) as He.
    { destruct (f64_grid c K Hc HK) as [[j Hj]|[HK0 Hlt]].
      - rewrite Hj, Ej in Hdist. rewrite En in *. apply (div_rne_tie _ _ j HdK); [|done]. intros ->. by rewrite Hj in Hne.
      - pose proof (div_rne_near (num * f64_unit) (den * 2 ^ K) (2 ^ 52) HdK) as Hne2. rewrite <- En in Hne2. specialize (Hlow HK0). nia. }
    rewrite Eb, !Z.even_add, !Z.even_mul, He. change (Z.even (2 ^ 63)) with true. change (Z.even (2 ^ 52)) with true.
    by rewrite !orb_true_r.
Qed.

(** A scaled decimal: [m * 10^e]. *)
Lemma f64_of_scaled_nearest s m e : (s = 0 \/ s = 1) -> 0 <= m ->
  m * 10 ^ Z.max e 0 <= 10 ^ Z.max (- e) 0 * f64_max ->
  nearest_f64 s (m * 10 ^ Z.max e 0) (10 ^ Z.max (- e) 0) (f64_of_scaled s m 10 e).
Proof.
  intros Hs Hm Hmax.
  assert (f64_of_scaled s m 10 e = f64_of_ratio s (m * 10 ^ Z.max e 0) (10 ^ Z.max (- e) 0)) as ->.
  { unfold f64_of_scaled. destruct (Z.leb_spec 0 e).
    - rewrite Z.max_l, (Z.max_r (- e)) by lia. done.
    - rewrite Z.max_r, (Z.max_l (- e)) by lia. by rewrite Z.mul_1_r. }
  apply f64_of_ratio_nearest; try done; [|lia]. apply Z.mul_nonneg_nonneg; lia.
Qed.

(** ** Rounding a double to an integer *)

(** [v] is [b] rounded to nearest, halves away from zero. *)
Definition rounded_f64 (b v : Z) : Prop :=
  2 * Z.abs v * f64_unit <= 2 * f64_fixed b + f64_unit < 2 * (Z.abs v + 1) * f64_unit /\
  (v < 0 -> f64_sign b = 1) /\ (0 < v -> f64_sign b = 0).

Lemma llround_rounds b v : f64_finite b -> rounded_f64 b v -> - 2 ^ 63 <= v < 2 ^ 63 -> llround b = Some v.
Proof.
  intros [Hb He] (Hr & Hneg & Hpos) Hv. unfold llround. rewrite (proj2 (Z.eqb_neq _ _) He).
  pose proof (fp_finite_bounds 52 11 b) as Hf. unfold f64_fixed in Hr. destruct (fp_finite 52 11 b) as [M E] eqn:EF.
  assert (-1074 <= E) as HE.
  { unfold fp_finite in EF. change (fp_bias 11) with 1023 in EF. pose proof (Z.mod_pos_bound (b / 2 ^ 52) (2 ^ 11) ltac:(lia)) as H0.
    fold (fp_exp 52 11 b) in H0. destruct (Z.eqb_spec (fp_exp 52 11 b) 0); injection EF as _ <-; lia. }
  assert (0 <= M) as HM by (apply Hf; [lia|lia|done]). clear Hf EF.
  set (m := if 0 <=? E then M * 2 ^ E else (M + 2 ^ (- E - 1)) / 2 ^ (- E)).
  pose proof f64_unit_pos as HU.
  assert (0 <= m /\ 2 * m * f64_unit <= 2 * (M * 2 ^ (E + 1074)) + f64_unit < 2 * (m + 1) * f64_unit) as [Hm0 Hm].
  { unfold m. destruct (Z.leb_spec 0 E).
    - rewrite Z.pow_add_r by lia. change (2 ^ 1074) with f64_unit. assert (0 <= 2 ^ E) by lia. split; [nia|]. split; nia.
    - set (h := 2 ^ (- E - 1)). assert (2 ^ (- E) = 2 * h) as Eh by (unfold h; rewrite <- Z.pow_succ_r by lia; f_equal; lia).
      assert (f64_unit = 2 * h * 2 ^ (E + 1074)) as EU.
      { rewrite (f64_unit_split (E + 1074)) by lia. replace (1074 - (E + 1074)) with (- E) by lia. by rewrite Eh. }
      assert (0 < h) as Hh by (unfold h; lia). assert (0 < 2 ^ (E + 1074)) as HP by lia. rewrite Eh.
      pose proof (Z.div_mod (M + h) (2 * h) ltac:(lia)) as Hd. pose proof (Z.mod_pos_bound (M + h) (2 * h) ltac:(lia)) as Hmod.
      set (d := (M + h) / (2 * h)) in *. set (r := (M + h) mod (2 * h)) in *. clearbody d r h.
      assert (0 <= d) by nia. split; [done|]. rewrite EU. set (P := 2 ^ (E + 1074)) in *. clearbody P. assert (M = 2 * h * d + r - h) as -> by lia. split; nia. }
  assert (m = Z.abs v) as -> by nia. clear Hm.
  assert ((if fp_sign 52 11 b =? 1 then - Z.abs v else Z.abs v) = v) as ->.
  { unfold f64_sign in *. destruct (decide (v < 0)) as [Hc|Hc]; [rewrite (Hneg Hc); cbn; lia|].
    destruct (decide (v = 0)) as [->|]; [by destruct (_ =? _)|]. rewrite Hpos by lia. cbn. lia. }
  by rewrite (proj2 (Z.leb_le _ _)), (proj2 (Z.ltb_lt _ _)) by lia.
Qed.

Lemma f64_is_zero_fixed b : f64_finite b -> f64_is_zero b = (f64_fixed b =? 0).
Proof.
  intros Hb. destruct (f64_split b Hb) as (s & e & m & -> & Hs & He & Hm & _ & ->). unfold f64_is_zero.
  assert ((s * 2 ^ 63 + e * 2 ^ 52 + m) mod 2 ^ 63 = e * 2 ^ 52 + m) as ->.
  { rewrite <- Z.add_assoc, Z.add_comm, Z.mod_add by lia. apply Z.mod_small. lia. }
  apply Bool.eq_iff_eq_true. rewrite !Z.eqb_eq. destruct (Z.eqb_spec e 0); [lia|]. pose proof (Z.pow_pos_nonneg 2 (e - 1)). nia.
Qed.
