(* ===== verification/HttpIngest.v ===== *)
(** * HTTP ingest

    [src/src/adapter/HttpIngest.{h,cpp}]: the HTTP server that turns a POSTed
    flat JSON object into one row for the write queue.

    A [std::string] is a [string]; an index into the body is the rest of the
    body from there.  Responses are recorded in the order they are sent. *)

From stdpp Require Import base list numbers gmap strings.
From Stdlib Require Import ZArith Lia Ascii.
From S2P Require Import Prelude CText DeviceModel ConfigDB AdapterConfig FrameCodec Pipeline Ingest Strtod.
Local Open Scope Z_scope.

(** ** Text *)

Definition kMaxRequest : Z := 1024 * 1024.

Definition str_len (s : string) : Z := Z.of_nat (String.length s).

(** The bytes of a buffer as a [std::string]. *)
Fixpoint text_of (l : list Z) : string :=
  match l with
  | [] => EmptyString
  | b :: l' => String.String (Ascii.ascii_of_N (Z.to_N b)) (text_of l')
  end.

Definition CRLF : string := String.String "013"%char (String.String "010"%char EmptyString).
Definition dq : string := String.String "034"%char EmptyString.

(** The rest behind the prefix [p]: [s.compare(0, p.size(), p) == 0]. *)
Fixpoint after_prefix (p s : string) : option string :=
  match p, s with
  | String.EmptyString, _ => Some s
  | String.String a p', String.String b s' => if Ascii.eqb a b then after_prefix p' s' else None
  | String.String _ _, String.EmptyString => None
  end.

(** [s.find(pat)] *)
Fixpoint str_search (pat s : string) : option nat :=
  match after_prefix pat s with
  | Some _ => Some O
  | None => match s with String.String _ s' => option_map S (str_search pat s') | String.EmptyString => None end
  end.

(** ** The JSON object parser *)

Definition is_ws (c : ascii) : bool := (code c =? 32) || (code c =? 9) || (code c =? 13) || (code c =? 10).

Fixpoint skipWs (s : string) : string :=
  match s with
  | String.String c s' => if is_ws c then skipWs s' else s
  | String.EmptyString => s
  end.

(** The characters of a string up to its closing quote, and the rest. *)
Fixpoint string_chars (s : string) : option (string * string) :=
  match s with
  | String.String c s' =>
      if code c =? 92 then
        match s' with
        | String.String e s'' =>
            '(out, r) ← string_chars s'';
            let c' := if Ascii.eqb e "n" then "010"%char else if Ascii.eqb e "t" then "009"%char
                      else if Ascii.eqb e "r" then "013"%char else e in
            Some (String.String c' out, r)
        | String.EmptyString => None
        end
      else if code c =? 34 then Some (EmptyString, s')
      else '(out, r) ← string_chars s'; Some (String.String c out, r)
  | String.EmptyString => None
  end.

Definition is_quote_char (c : ascii) : bool := code c =? 34.

(** [parseString] *)
Definition parseString (s : string) : option (string * string) :=
  match s with
  | String.String c s' => if is_quote_char c then string_chars s' else None
  | String.EmptyString => None
  end.

(** A value: a number, [null] or an ignored string. *)
Inductive JsonValue := JNum (bits : Z) | JNull | JText.

Definition parseValue (s : string) : option (JsonValue * string) :=
  if starts_with is_quote_char s then
    '(_, r) ← parseString s; Some (JText, r)
  else
    match after_prefix "null" s with
    | Some r => Some (JNull, r)
    | None =>
        match after_prefix "true" s with
        | Some r => Some (JNum 0x3FF0000000000000, r)
        | None =>
            match after_prefix "false" s with
            | Some r => Some (JNum 0, r)
            | None => '(num, r) ← strtod s; Some (JNum num, r)
            end
        end
    end.

(** The field a key names. *)
Fixpoint fieldIndex (fields : list FieldDesc) (key : string) : option nat :=
  match fields with
  | [] => None
  | f :: fs => if String.eqb (f_name f) key then Some O else option_map S (fieldIndex fs key)
  end.

(** What [parseJsonFields] returns: the cells and the number of matched keys,
    or -1; [JFuel] is an exhausted model. *)
Inductive JsonResult := JOk (matched : Z) (cells : list Cell) | JError (cells : list Cell) | JFuel.

Section Json.
(** [llround] of a value no [long long] can hold. *)
Variable llround_invalid : Z -> Z.

(** The value stored in a matched cell. *)
Definition storeValue (f : FieldDesc) (v : JsonValue) (c : Cell) : Cell :=
  match v with
  | JNum num =>
      mkCell (if f_asDouble f then num
              else match f_kind f with
                   | Bool => if f64_is_zero num then 0 else 1
                   | _ => u64 (default (llround_invalid num) (llround num))
                   end) 0
  | JNull | JText => mkCell (c_v c) 1
  end.

(** One [key : value] pair: the cells, the count and the rest. *)
Definition jsonPair (fields : list FieldDesc) (s : string) (matched : Z) (cells : list Cell)
    : option (Z * list Cell * string) :=
  '(key, r) ← parseString (skipWs s);
  match skipWs r with
  | String.String ":"%char r =>
      '(v, r) ← parseValue (skipWs r);
      Some (match fieldIndex fields key with
            | Some k =>
                (matched + 1,
                 match fields !! k with Some f => alter (storeValue f v) k cells | None => cells end, r)
            | None => (matched, cells, r)
            end)
  | _ => None
  end.

(** The loop over the pairs. *)
Fixpoint jsonLoop (fuel : nat) (fields : list FieldDesc) (s : string) (matched : Z) (cells : list Cell)
    : JsonResult :=
  match fuel with
  | O => JFuel
  | S fuel' =>
      match jsonPair fields s matched cells with
      | None => JError cells
      | Some (matched, cells, r) =>
          match skipWs r with
          | String.String ","%char r => jsonLoop fuel' fields r matched cells
          | String.String "}"%char _ => JOk matched cells
          | _ => JError cells
          end
      end
  end.

(** [parseJsonFields] *)
Definition parseJsonFields (body : string) (spec : FrameSpec) (cells : list Cell) : JsonResult :=
  match skipWs body with
  | String.String "{"%char r =>
      match skipWs r with
      | String.String "}"%char _ => JOk 0 cells
      | r => jsonLoop (S (String.length r)) (s_fields spec) r 0 cells
      end
  | _ => JError cells
  end.
End Json.

(** ** The header block *)

(** [tolower] of a byte in the C locale *)
Definition lower_char (c : ascii) : ascii :=
  if is_upper c then Ascii.ascii_of_N (N_of_ascii c + 32) else c.

(** A prefix in any case: the rest. *)
Fixpoint after_prefix_ci (p s : string) : option string :=
  match p, s with
  | String.EmptyString, _ => Some s
  | String.String a p', String.String b s' => if Ascii.eqb (lower_char b) a then after_prefix_ci p' s' else None
  | String.String _ _, String.EmptyString => None
  end.

(** One header line. *)
Definition headerLine (h : string) (contentLen : Z) : Z :=
  match after_prefix_ci "content-length:" h with
  | Some v => default 0 (strtoul 10 v)
  | None => contentLen
  end.

(** The loop over the lines; [None] is an exhausted model. *)
Fixpoint headerLines (fuel : nat) (s : string) (contentLen : Z) : option Z :=
  match fuel with
  | O => None
  | S fuel' =>
      match s with
      | String.EmptyString => Some contentLen
      | _ =>
          let e := default (String.length s) (str_search CRLF s) in
          headerLines fuel' (str_drop (e + 2) s) (headerLine (str_take e s) contentLen)
      end
  end.

(** [parseHeaderBlock]: [Some None] is [false]. *)
Definition parseHeaderBlock (head : string) : option (option (Z * string)) :=
  match str_search CRLF head with
  | None => Some None
  | Some lineEnd =>
      let line := str_take lineEnd head in
      let method := match str_find " " line with Some sp => str_take sp line | None => line end in
      len ← headerLines (S (String.length head)) (str_drop (lineEnd + 2) head) 0;
      Some (Some (len, method))
  end.

(** [statusText] *)
Definition statusText (code : Z) : string :=
  if code =? 200 then "200 OK"
  else if code =? 400 then "400 Bad Request"
  else if code =? 404 then "404 Not Found"
  else if code =? 405 then "405 Method Not Allowed"
  else if code =? 413 then "413 Payload Too Large"
  else "500 Internal Server Error".

(** The text [sendResponse] sends. *)
Definition responseText (code : Z) (body : string) : string :=
  "HTTP/1.1 " +:+ statusText code +:+ CRLF +:+ "Content-Type: application/json" +:+ CRLF +:+
  "Content-Length: " +:+ to_string (str_len body) +:+ CRLF +:+ "Connection: close" +:+ CRLF +:+ CRLF +:+ body.

Definition quoted (s : string) : string := dq +:+ s +:+ dq.
Definition bodyError : string := "{" +:+ quoted "ok" +:+ ":false}".
Definition bodyErrorText (e : string) : string :=
  "{" +:+ quoted "ok" +:+ ":false," +:+ quoted "error" +:+ ":" +:+ quoted e +:+ "}".
Definition bodyOk (deviceId : string) (matched : Z) : string :=
  "{" +:+ quoted "ok" +:+ ":true," +:+ quoted "device" +:+ ":" +:+ quoted deviceId +:+ "," +:+
  quoted "matched" +:+ ":" +:+ to_string matched +:+ "}".

(** ** The server *)

(** [struct ConnState] *)
Record ConnState := mkState { cs_buf : string; cs_headerParsed : bool; cs_contentLen : Z }.
Definition ConnState0 : ConnState := mkState EmptyString false 0.

(** [class HttpIngest]; [hi_sent] are the responses sent, each followed by a
    shutdown of the connection, oldest first. *)
Record HttpIngest := mkHttpIngest {
  hi_server : option Z;
  hi_port : Z;
  hi_conns : gmap nat ConnState;
  hi_write : list RowBatch;
  hi_sent : list (nat * string);
  hi_stats : AdapterStats;
}.

Definition newHttpIngest (stats : AdapterStats) : HttpIngest := mkHttpIngest None 0 ∅ [] [] stats.

Definition set_conns (m : gmap nat ConnState) (s : HttpIngest) : HttpIngest :=
  mkHttpIngest (hi_server s) (hi_port s) m (hi_write s) (hi_sent s) (hi_stats s).
Definition hi_count (f : Stat) (n : Z) (s : HttpIngest) : HttpIngest :=
  mkHttpIngest (hi_server s) (hi_port s) (hi_conns s) (hi_write s) (hi_sent s) (fetch_add f n (hi_stats s)).
Definition hi_enqueue (b : RowBatch) (s : HttpIngest) : HttpIngest :=
  mkHttpIngest (hi_server s) (hi_port s) (hi_conns s) (hi_write s ++ [b]) (hi_sent s) (hi_stats s).

(** [HttpIngest::sendResponse] *)
Definition sendResponse (c : TcpConn) (code : Z) (body : string) (s : HttpIngest) : HttpIngest :=
  mkHttpIngest (hi_server s) (hi_port s) (hi_conns s) (hi_write s)
    (hi_sent s ++ [(cn_addr c, responseText code body)]) (hi_stats s).

(** A rejected request. *)
Definition reject (c : TcpConn) (code : Z) (body : string) (s : HttpIngest) : HttpIngest :=
  sendResponse c code body (hi_count HttpErrors 1 s).

(** [HttpIngest::start] *)
Definition httpStart (db : ConfigDB) (cfg : HttpConfig) (s : HttpIngest) : HttpIngest :=
  let listen p := mkHttpIngest (Some p) p (hi_conns s) (hi_write s) (hi_sent s) (hi_stats s) in
  if h_port cfg =? 0 then
    match db_httpListenPorts db with
    | [] => s
    | p :: _ => listen p
    end
  else listen (h_port cfg).

(** [HttpIngest::stop] *)
Definition httpStop (s : HttpIngest) : HttpIngest :=
  mkHttpIngest None (hi_port s) ∅ (hi_write s) (hi_sent s) (hi_stats s).

(** [HttpIngest::onConnection] *)
Definition httpConnection (c : TcpConn) (connected : bool) (s : HttpIngest) : HttpIngest :=
  if connected then set_conns (<[cn_addr c := ConnState0]> (hi_conns s)) s
  else set_conns (delete (cn_addr c) (hi_conns s)) s.

Section Server.
Variable llround_invalid : Z -> Z.

(** [HttpIngest::handleRequest]; [None] is an exhausted model. *)
Definition handleRequest (db : ConfigDB) (c : TcpConn) (body : string) (t : Z) (s : HttpIngest)
    : option HttpIngest :=
  match matchHttpDevice db (cn_ip c) (cn_port c) (hi_port s) with
  | None => Some (reject c 404 (bodyErrorText "unknown device") s)
  | Some dev =>
      match s_fields (d_spec (p_desc dev)) with
      | [] => Some (reject c 400 (bodyErrorText "no field layout") s)
      | _ :: _ =>
          let cells := replicate (Z.to_nat (fieldCount (p_desc dev))) (mkCell 0 1) in
          match parseJsonFields llround_invalid body (d_spec (p_desc dev)) cells with
          | JFuel => None
          | JError _ => Some (reject c 400 (bodyErrorText "json") s)
          | JOk matched cells =>
              let s := hi_enqueue (mkBatch (Some dev) [toMs t] cells) s in
              let s := hi_count HttpRows 1 (hi_count HttpRequests 1 s) in
              Some (sendResponse c 200 (bodyOk (d_deviceId (p_desc dev)) matched) s)
          end
      end
  end.

(** What the header of a buffered request decides. *)
Inductive HeaderStage :=
| Waiting
| Refused (code : Z) (body : string)
| Ready (st : ConnState).

Definition headerStage (st : ConnState) : option HeaderStage :=
  if cs_headerParsed st then Some (Ready st)
  else
    match str_search (CRLF +:+ CRLF) (cs_buf st) with
    | None => Some Waiting
    | Some hdrEnd =>
        r ← parseHeaderBlock (str_take hdrEnd (cs_buf st));
        Some (match r with
              | None => Refused 400 (bodyErrorText "header")
              | Some (contentLen, method) =>
                  if negb (String.eqb method "POST") then Refused 405 (bodyErrorText "only POST")
                  else Ready (mkState (str_drop (hdrEnd + 4) (cs_buf st)) true contentLen)
              end)
    end.

(** [HttpIngest::onMessage] on the input buffer [buf]: the server and what is
    left in the buffer. *)
Definition httpMessage (db : ConfigDB) (c : TcpConn) (buf : list Z) (t : Z) (s : HttpIngest)
    : option (HttpIngest * list Z) :=
  match buf with
  | [] => Some (s, buf)
  | _ :: _ =>
      let s := hi_count BytesIn (lenZ buf) s in
      let st := default ConnState0 (hi_conns s !! cn_addr c) in
      let st := mkState (cs_buf st +:+ text_of buf) (cs_headerParsed st) (cs_contentLen st) in
      let keep st := set_conns (<[cn_addr c := st]> (hi_conns s)) s in
      if kMaxRequest <? str_len (cs_buf st) then Some (reject c 413 bodyError (keep st), [])
      else
        stage ← headerStage st;
        match stage with
        | Waiting => Some (keep st, [])
        | Refused code body => Some (reject c code body (keep st), [])
        | Ready st =>
            if str_len (cs_buf st) <? cs_contentLen st then Some (keep st, [])
            else
              s' ← handleRequest db c (str_take (Z.to_nat (cs_contentLen st)) (cs_buf st)) t (keep st);
              Some (s', [])
        end
  end.

(** One event of the loop and a run, as for [ingestStep]. *)
Definition httpStep (db : ConfigDB) (s : HttpIngest) (e : NetEvent) : option HttpIngest :=
  match e with
  | Opened c => Some (httpConnection c true s)
  | Closed c => Some (httpConnection c false s)
  | Received c data t => '(s', _) ← httpMessage db c data t s; Some s'
  end.

Fixpoint httpRun (db : ConfigDB) (s : HttpIngest) (es : list NetEvent) : option HttpIngest :=
  match es with
  | [] => Some s
  | e :: es' => s' ← httpStep db s e; httpRun db s' es'
  end.
End Server.

(** ** Sanity *)

Definition json_sample : string :=
  "{ " +:+ quoted "temp" +:+ " : -12.5, " +:+ quoted "x" +:+ ":" +:+ quoted "a" +:+ "," +:+ quoted "on" +:+ ":true }".

Definition http_field (name : string) (k : FieldKind) (d : bool) : FieldDesc :=
  {| f_name := name; f_unit := ""; f_kind := k; f_size := 8; f_byteOffset := 0; f_bitOffset := 0; f_bitLen := 0;
     f_precision := 0; f_outSize := 8; f_bindType := 0; f_colType := ""; f_asDouble := d |}.

Example json_run :
  jsonLoop (fun _ => 0) 99 [http_field "temp" Float64 true; http_field "on" Bool false]
    (match json_sample with String.String _ r => r | _ => "" end) 0 [mkCell 0 1; mkCell 0 1] =
  JOk 2 [mkCell 0xC029000000000000 0; mkCell 1 0].
Proof. vm_compute. reflexivity. Qed.
