(* ===== verification/JsonText.v ===== *)
(** * JSON texts a client may write

    A printer of flat objects - any whitespace in every gap, keys and strings
    with their escapes, integers, decimals with fractions and exponents, [true],
    [false] and [null] - and what each pair means for the cells of a row, apart
    from how [src/src/adapter/HttpIngest.cpp] reads it; then the lemmas that
    [parseJsonFields] of [HttpIngest.v] reads every such text with that
    meaning. *)

From stdpp Require Import base list numbers gmap strings pretty.
From Stdlib Require Import ZArith Lia Ascii.
From S2P Require Import Prelude Floats CText DeviceModel ConfigDB AdapterConfig FrameCodec Pipeline Ingest DoubleText Strtod DoubleNearest HttpIngest.
Local Open Scope Z_scope.

(** ** Texts *)

(** A character of a string: itself, or escaped by a letter. *)
Inductive JsonChar := Plain (c : ascii) | Escaped (e c : ascii).

(** The escapes the reader decodes; [\b], [\f] and [\u] are not among them. *)
Definition escapes : list (ascii * ascii) :=
  [("n", "010"); ("t", "009"); ("r", "013"); ("034", "034"); ("\", "\"); ("/", "/")]%char.

Definition char_ok (x : JsonChar) : Prop :=
  match x with Plain c => c <> "034"%char /\ c <> "\"%char | Escaped e c => (e, c) ∈ escapes end.

Fixpoint spelled (l : list JsonChar) : string :=
  match l with
  | [] => EmptyString
  | Plain c :: l' => String.String c (spelled l')
  | Escaped e _ :: l' => String.String "\" (String.String e (spelled l'))
  end.
Fixpoint spelling_of (l : list JsonChar) : string :=
  match l with [] => EmptyString | (Plain c | Escaped _ c) :: l' => String.String c (spelling_of l') end.

(** A decimal: digits, perhaps a fraction, perhaps an exponent. *)
Record Decimal := mkDecimal {
  dc_neg : bool;
  dc_int : list Z;
  dc_frac : option (list Z);
  dc_exp : option (ascii * option bool * list Z);   (* the letter, the sign ([true] is minus), the digits *)
}.

Inductive JsonText := JInt (n : Z) | JDec (d : Decimal) | JBool (b : bool) | JNone | JStr (l : list JsonChar).

(** A pair with the whitespace before the key, behind it, before the value and
    behind it. *)
Record JsonPair := mkPair { jp_ws1 : string; jp_key : list JsonChar; jp_ws2 : string; jp_ws3 : string; jp_value : JsonText; jp_ws4 : string }.

Definition jp_name (p : JsonPair) : string := spelling_of (jp_key p).

(** ** Printing *)

Fixpoint digits_text (ds : list Z) : string :=
  match ds with [] => EmptyString | d :: ds' => String.String (Ascii.ascii_of_N (Z.to_N (48 + d))) (digits_text ds') end.

Definition exp_text (x : ascii * option bool * list Z) : string :=
  let '(l, sg, ds) := x in
  String.String l (match sg with None => "" | Some false => "+" | Some true => "-" end +:+ digits_text ds).

Definition print_decimal (d : Decimal) : string :=
  (if dc_neg d then "-" else "") +:+ digits_text (dc_int d) +:+
  match dc_frac d with Some ds => "." +:+ digits_text ds | None => "" end +:+
  match dc_exp d with Some x => exp_text x | None => "" end.

Definition print_string (l : list JsonChar) : string := dq +:+ spelled l +:+ dq.

Definition print_value (v : JsonText) : string :=
  match v with
  | JInt n => to_string n
  | JDec d => print_decimal d
  | JBool b => if b then "true" else "false"
  | JNone => "null"
  | JStr l => print_string l
  end.

Definition print_pair (p : JsonPair) : string :=
  jp_ws1 p +:+ print_string (jp_key p) +:+ jp_ws2 p +:+ ":" +:+ jp_ws3 p +:+ print_value (jp_value p) +:+ jp_ws4 p.

(** The pairs behind the opening brace. *)
Fixpoint print_pairs (p : JsonPair) (ps : list JsonPair) : string :=
  match ps with
  | [] => print_pair p +:+ "}"
  | p' :: ps' => print_pair p +:+ "," +:+ print_pairs p' ps'
  end.

(** [ws] comes before the object, [ws'] fills an empty one. *)
Definition print_object (ws ws' : string) (ps : list JsonPair) : string :=
  ws +:+ "{" +:+ match ps with [] => ws' +:+ "}" | p :: ps' => print_pairs p ps' end.

(** ** Well-formed texts *)

Definition blank (c : ascii) : bool := bool_decide (c ∈ [" "; "009"; "010"; "013"]%char).
Definition blanks (ws : string) : Prop := str_forall blank ws = true.

Definition digits_ok (ds : list Z) : Prop := ds <> [] /\ Forall (fun d => 0 <= d <= 9) ds.

Fixpoint digits_value (acc : Z) (ds : list Z) : Z :=
  match ds with [] => acc | d :: ds' => digits_value (10 * acc + d) ds' end.

(** A decimal stands for [mantissa * 10^exponent]. *)
Definition dc_fraction (d : Decimal) : list Z := default [] (dc_frac d).
Definition dc_mantissa (d : Decimal) : Z := digits_value 0 (dc_int d ++ dc_fraction d).
Definition dc_exponent (d : Decimal) : Z :=
  match dc_exp d with Some (_, Some true, ds) => - digits_value 0 ds | Some (_, _, ds) => digits_value 0 ds | None => 0 end
  - lenZ (dc_fraction d).
Definition dc_num (d : Decimal) : Z := dc_mantissa d * 10 ^ Z.max (dc_exponent d) 0.
Definition dc_den (d : Decimal) : Z := 10 ^ Z.max (- dc_exponent d) 0.
Definition dc_sign (d : Decimal) : Z := if dc_neg d then 1 else 0.

(** In range: no more than the largest double. *)
Record decimal_ok (d : Decimal) : Prop := {
  dk_int : digits_ok (dc_int d);
  dk_frac : forall ds, dc_frac d = Some ds -> digits_ok ds;
  dk_exp : forall l sg ds, dc_exp d = Some (l, sg, ds) -> (l = "e" \/ l = "E")%char /\ digits_ok ds;
  dk_range : dc_num d <= dc_den d * f64_max;
}.

Definition text_ok (v : JsonText) : Prop :=
  match v with
  | JInt n => Z.abs n < 2 ^ 53
  | JDec d => decimal_ok d
  | JStr l => Forall char_ok l
  | _ => True
  end.

Record pair_ok (p : JsonPair) : Prop := {
  pk_blanks : blanks (jp_ws1 p) /\ blanks (jp_ws2 p) /\ blanks (jp_ws3 p) /\ blanks (jp_ws4 p);
  pk_key : Forall char_ok (jp_key p);
  pk_value : text_ok (jp_value p);
}.

(** ** Meaning *)

(** The cell a double is stored in, as the field demands: the double, whether it
    is 0, or the nearest integer (outside 64 bits anything). *)
Definition double_cell (f : FieldDesc) (b : Z) (c' : Cell) : Prop :=
  c_isNull c' = 0 /\
  if f_asDouble f then c_v c' = b
  else match f_kind f with
       | Bool => c_v c' = if f64_fixed b =? 0 then 0 else 1
       | _ => forall v, rounded_f64 b v -> - 2 ^ 63 <= v < 2 ^ 63 -> c_v c' = u64 v
       end.

(** What a value makes of the cell of its field. *)
Definition value_cell (f : FieldDesc) (v : JsonText) (c c' : Cell) : Prop :=
  match v with
  | JInt n => exists b, f64_finite b /\ f64_sign b = (if n <? 0 then 1 else 0) /\ f64_fixed b = Z.abs n * f64_unit /\
      double_cell f b c' /\ (f_asDouble f = false -> f_kind f <> Bool -> c_v c' = u64 n)
  | JDec d => exists b, nearest_f64 (dc_sign d) (dc_num d) (dc_den d) b /\ double_cell f b c'
  | JBool b => c_isNull c' = 0 /\ c_v c' = if b then (if f_asDouble f then 0x3FF0000000000000 else 1) else 0
  | JNone | JStr _ => c_isNull c' = 1 /\ c_v c' = c_v c
  end.

(** The first field of a name. *)
Definition field_named (fields : list FieldDesc) (key : string) : option (nat * FieldDesc) :=
  list_find (fun f => f_name f = key) fields.

(** A pair changes the cell of the field it names and no other. *)
Definition pair_sets (fields : list FieldDesc) (p : JsonPair) (cells cells' : list Cell) : Prop :=
  match field_named fields (jp_name p) with
  | None => cells' = cells
  | Some (k, f) =>
      length cells' = length cells /\ (forall j, j <> k -> cells' !! j = cells !! j) /\
      forall c, cells !! k = Some c -> exists c', cells' !! k = Some c' /\ value_cell f (jp_value p) c c'
  end.

Fixpoint pairs_set (fields : list FieldDesc) (ps : list JsonPair) (cells cells' : list Cell) : Prop :=
  match ps with
  | [] => cells' = cells
  | p :: ps' => exists mid, pair_sets fields p cells mid /\ pairs_set fields ps' mid cells'
  end.

Definition names_field (fields : list FieldDesc) (p : JsonPair) : Prop := jp_name p ∈ map f_name fields.
#[export] Instance names_field_dec fields p : Decision (names_field fields p).
Proof. unfold names_field. apply _. Defined.

(** ** Characters and digits *)

Lemma blank_ws c : blank c = true -> is_ws c = true.
Proof.
  unfold blank. rewrite bool_decide_eq_true, !elem_of_cons. intros [-> |[-> |[-> |[-> |H]]]]; try done. by apply elem_of_nil in H.
Qed.

Lemma skipWs_app ws s : blanks ws -> skipWs (ws +:+ s) = skipWs s.
Proof.
  unfold blanks. induction ws as [|c ws IH]; intros H; [done|]. cbn [str_forall] in H. bool_to_prop.
  rewrite str_cons_app. cbn [skipWs]. rewrite (blank_ws c) by done. by apply IH.
Qed.

Lemma string_chars_spelled l r : Forall char_ok l -> string_chars (spelled l +:+ dq +:+ r) = Some (spelling_of l, r).
Proof.
  induction 1 as [|x l Hx Hl IH]; [done|]. destruct x as [c|e c]; cbn [spelled spelling_of]; rewrite !str_cons_app; cbn [string_chars].
  - destruct Hx as [H1 H2].
    assert (code c =? 92 = false) as -> by (apply Z.eqb_neq; intros E; apply H2; by destruct c as [[] [] [] [] [] [] [] []]).
    assert (code c =? 34 = false) as -> by (apply Z.eqb_neq; intros E; apply H1; by destruct c as [[] [] [] [] [] [] [] []]).
    by rewrite IH.
  - change (code "\" =? 92) with true. cbv iota. rewrite IH. cbn [mbind option_bind].
    cbn [char_ok] in Hx. unfold escapes in Hx. rewrite !elem_of_cons in Hx.
    destruct Hx as [H|[H|[H|[H|[H|[H|H]]]]]]; [..|by apply elem_of_nil in H]; by injection H as -> ->.
Qed.

Lemma parseString_print l r : Forall char_ok l -> parseString (print_string l +:+ r) = Some (spelling_of l, r).
Proof.
  intros Hl. unfold print_string. rewrite <- !str_app_assoc. change (dq +:+ ?x) with (String.String "034"%char x) at 1.
  cbn [parseString]. by apply string_chars_spelled.
Qed.

Lemma json_digit_char d : 0 <= d <= 9 -> let c := Ascii.ascii_of_N (Z.to_N (48 + d)) in
  is_digit c = true /\ digit_value 10 c = Some d.
Proof.
  intros Hd. assert (d = 0 \/ d = 1 \/ d = 2 \/ d = 3 \/ d = 4 \/ d = 5 \/ d = 6 \/ d = 7 \/ d = 8 \/ d = 9) as H by lia.
  repeat destruct H as [-> |H]; try done. by subst.
Qed.

Lemma digits_text_digits ds : Forall (fun d => 0 <= d <= 9) ds -> str_forall is_digit (digits_text ds) = true.
Proof.
  induction 1 as [|d ds Hd _ IH]; [done|]. cbn [digits_text str_forall]. destruct (json_digit_char d Hd) as [-> _]. done.
Qed.

Lemma digits_text_start ds s : digits_ok ds -> starts_with is_digit (digits_text ds +:+ s) = true.
Proof.
  intros [Hne Hf]. destruct ds as [|d ds]; [done|]. apply Forall_cons in Hf as [Hd _]. cbn [digits_text]. rewrite str_cons_app.
  cbn [starts_with]. by destruct (json_digit_char d Hd) as [-> _].
Qed.

Lemma not_digit_value c : is_digit c = false -> digit_value 10 c = None.
Proof.
  intros Hc. unfold digit_value. rewrite Hc. unfold is_digit, is_lower, is_upper in *. repeat destr_if; bool_to_prop; try done; lia.
Qed.

Lemma take_digits_text ds s : starts_with is_digit s = false -> forall acc n, Forall (fun d => 0 <= d <= 9) ds ->
  take_digits 10 acc n (digits_text ds +:+ s) = (digits_value acc ds, n + lenZ ds, s).
Proof.
  intros Hs. induction ds as [|d ds IH]; intros acc n Hf; cbn [digits_text digits_value].
  - rewrite str_nil_app, lenZ_nil, Z.add_0_r. destruct s as [|c s]; [done|]. cbn [starts_with] in Hs. cbn [take_digits].
    by rewrite not_digit_value.
  - apply Forall_cons in Hf as [Hd Hf]. rewrite str_cons_app. cbn [take_digits]. destruct (json_digit_char d Hd) as [_ ->].
    rewrite IH by done. rewrite lenZ_cons, Z.add_assoc. f_equal. f_equal. f_equal. lia.
Qed.

Lemma digits_value_nonneg ds : forall acc, 0 <= acc -> Forall (fun d => 0 <= d <= 9) ds -> 0 <= digits_value acc ds.
Proof.
  induction ds as [|d ds IH]; intros acc Ha Hf; [done|]. apply Forall_cons in Hf as [Hd Hf]. cbn [digits_value]. apply IH; [lia|done].
Qed.

Lemma digits_value_app ds ds' : forall acc, digits_value acc (ds ++ ds') = digits_value (digits_value acc ds) ds'.
Proof. induction ds as [|d ds IH]; intros acc; [done|]. cbn [digits_value app]. apply IH. Qed.

(** ** Decimals *)

(** What follows the digits of a number. *)
Definition tail_ok (s : string) : Prop :=
  starts_with is_digit s = false /\ starts_with (fun c => Ascii.eqb c ".") s = false /\ starts_with (is_letter "x") s = false.

Lemma take_exponent_text x s : ends_number s = true ->
  (forall l sg ds, x = Some (l, sg, ds) -> (l = "e" \/ l = "E")%char /\ digits_ok ds) ->
  let t := match x with Some y => exp_text y | None => "" end +:+ s in
  tail_ok t /\ take_exponent "e" t =
    (match x with Some (_, Some true, ds) => - digits_value 0 ds | Some (_, _, ds) => digits_value 0 ds | None => 0 end, s).
Proof.
  intros Hs Hx. destruct (ends_number_cases s Hs) as (Hd & Hp & He & Hxl). destruct x as [[[l sg] ds]|]; cbn zeta.
  - destruct (Hx l sg ds eq_refl) as [Hl Hds]. pose proof Hds as [Hne Hf]. unfold exp_text. rewrite str_cons_app. split.
    { unfold tail_ok. cbn [starts_with]. by destruct Hl as [-> | ->]. }
    cbn [take_exponent]. assert (is_letter "e" l = true) as -> by (by destruct Hl as [-> | ->]).
    rewrite <- str_app_assoc. pose proof (lenZ_nonneg ds). assert (0 < lenZ ds) by (destruct ds; [done|rewrite lenZ_cons; pose proof (lenZ_nonneg ds); lia]).
    assert (forall sgn : bool, (let '(e, n, s3) := take_digits 10 0 0 (digits_text ds +:+ s) in
      if 0 <? n then (if sgn then - e else e, s3) else (0, String.String l (match sg with None => "" | Some false => "+" | Some true => "-" end +:+ digits_text ds +:+ s)))
      = (if sgn then - digits_value 0 ds else digits_value 0 ds, s)) as Hd'.
    { intros sgn. rewrite take_digits_text by done. destruct (Z.ltb_spec 0 (0 + lenZ ds)); [done|lia]. }
    assert (scan_sign (match sg with None => "" | Some false => "+" | Some true => "-" end +:+ digits_text ds +:+ s) =
      (match sg with Some true => true | _ => false end, digits_text ds +:+ s)) as ->.
    { destruct sg as [[]|]; [done|done|]. rewrite str_nil_app. pose proof (digits_text_start ds s Hds) as H1.
      destruct (digits_text ds +:+ s) as [|c r]; [done|]. cbn [starts_with] in H1. unfold is_digit in H1. bool_to_prop.
      cbn [scan_sign]. by rewrite !(proj2 (Z.eqb_neq _ _)) by lia. }
    rewrite Hd'. by destruct sg as [[]|].
  - rewrite str_nil_app. split; [done|]. unfold take_exponent. destruct s as [|c s]; [done|]. cbn [starts_with] in He. by rewrite He.
Qed.

Lemma take_mantissa_text ds fr t : tail_ok t -> digits_ok ds -> (forall fs, fr = Some fs -> digits_ok fs) ->
  take_mantissa 10 (digits_text ds +:+ match fr with Some fs => "." +:+ digits_text fs | None => "" end +:+ t) =
    Some (digits_value 0 (ds ++ default [] fr), lenZ (default [] fr), t).
Proof.
  intros (Hd & Hp & _) [Hne Hf] Hfr. unfold take_mantissa. assert (0 < lenZ ds) by (destruct ds as [|d ds]; [done|rewrite lenZ_cons; pose proof (lenZ_nonneg ds); lia]).
  destruct fr as [fs|]; cbn [default].
  - destruct (Hfr fs eq_refl) as [_ Hfs]. rewrite <- str_app_assoc. rewrite take_digits_text by done.
    change ("." +:+ digits_text fs +:+ t) with (String.String "." (digits_text fs +:+ t)). cbv beta iota. unfold id.
    rewrite take_digits_text by done. pose proof (lenZ_nonneg fs). destruct (Z.ltb_spec 0 (0 + lenZ ds + (0 + lenZ fs))); [|lia].
    by rewrite digits_value_app.
  - rewrite str_nil_app, take_digits_text by done. rewrite app_nil_r. destruct (Z.ltb_spec 0 (0 + lenZ ds)); [|lia].
    destruct t as [|c t]; [done|]. cbn [starts_with] in Hp. destruct c as [[] [] [] [] [] [] [] []]; done.
Qed.

(** No decimal looks like a hexadecimal number. *)
Lemma take_hex_text sg ds t : digits_ok ds -> starts_with (is_letter "x") t = false -> take_hex sg (digits_text ds +:+ t) = None.
Proof.
  intros [Hne Hf] Ht. destruct ds as [|d ds]; [done|]. apply Forall_cons in Hf as [Hd Hf]. cbn [digits_text]. rewrite str_cons_app.
  unfold take_hex. destruct (ascii_dec (Ascii.ascii_of_N (Z.to_N (48 + d))) "0") as [->|Hc].
  - destruct ds as [|d1 ds]; cbn [digits_text].
    + rewrite str_nil_app. destruct t as [|x t]; [done|]. cbn [starts_with] in Ht. by rewrite Ht.
    + apply Forall_cons in Hf as [Hd1 _]. rewrite str_cons_app. by rewrite digit_not_letter by (by apply json_digit_char).
  - destruct (Ascii.ascii_of_N (Z.to_N (48 + d))) as [[] [] [] [] [] [] [] []]; done.
Qed.

Lemma strtod_decimal d s : decimal_ok d -> ends_number s = true ->
  strtod (print_decimal d +:+ s) = Some (f64_of_scaled (dc_sign d) (dc_mantissa d) 10 (dc_exponent d), s).
Proof.
  intros [H1 H2 H3 _] Hs. unfold print_decimal. rewrite <- !str_app_assoc.
  destruct (take_exponent_text (dc_exp d) s Hs H3) as [Ht Ee]. cbn zeta in *. set (t := match dc_exp d with Some x => exp_text x | None => "" end +:+ s) in *.
  set (u := digits_text (dc_int d) +:+ match dc_frac d with Some ds => "." +:+ digits_text ds | None => "" end +:+ t).
  assert (scan_sign (skip_space ((if dc_neg d then "-" else "") +:+ u)) = (dc_neg d, u)) as Es.
  { destruct (dc_neg d); [done|]. rewrite str_nil_app. apply scan_sign_digit. by apply digits_text_start. }
  unfold strtod. rewrite Es. unfold u. rewrite take_hex_text.
  - unfold take_decimal. rewrite (take_mantissa_text _ _ _ Ht H1 H2). cbn [mbind option_bind]. rewrite Ee. done.
  - done.
  - destruct (dc_frac d) as [fs|]; [done|]. apply Ht.
Qed.

(** ** Values *)

(** What may follow a value: whitespace, then a comma or the closing brace. *)
Definition is_sep (c : ascii) : bool := Ascii.eqb c "," || Ascii.eqb c "}".

Lemma ends_number_gap ws s : blanks ws -> starts_with is_sep s = true -> ends_number (ws +:+ s) = true.
Proof.
  unfold blanks. intros Hw Hs. destruct ws as [|c ws].
  - rewrite str_nil_app. destruct s as [|c s]; [done|]. cbn [starts_with] in Hs.
    destruct c as [[] [] [] [] [] [] [] []]; done.
  - cbn [str_forall] in Hw. apply andb_true_iff in Hw as [Hw _]. rewrite str_cons_app.
    destruct c as [[] [] [] [] [] [] [] []]; done.
Qed.

(** What [parseValue] reads. *)
Definition meaning (v : JsonText) : JsonValue :=
  match v with
  | JInt n => JNum (i64_to_f64 n)
  | JDec d => JNum (f64_of_scaled (dc_sign d) (dc_mantissa d) 10 (dc_exponent d))
  | JBool b => JNum (if b then 0x3FF0000000000000 else 0)
  | JNone => JNull
  | JStr _ => JText
  end.

Definition starts_number (s : string) : bool := starts_with (fun c => is_digit c || Ascii.eqb c "-") s.

Lemma integer_start n s : starts_number (to_string n +:+ s) = true.
Proof.
  unfold to_string at 1. destruct (Z.ltb_spec n 0); [done|].
  destruct (to_string_digits n) as [_ Hd]; [done|]. unfold to_string in Hd.
  destruct (Z.ltb_spec n 0); [lia|]. destruct (pretty (Z.to_N n)) as [|c t]; [done|]. cbn [starts_with] in Hd.
  rewrite str_cons_app. unfold starts_number. cbn [starts_with]. by rewrite Hd.
Qed.

Lemma decimal_start d s : decimal_ok d -> starts_number (print_decimal d +:+ s) = true.
Proof.
  intros [H _ _ _]. unfold print_decimal. destruct (dc_neg d); [done|]. rewrite str_nil_app, <- str_app_assoc.
  match goal with |- starts_number (_ +:+ ?r) = _ => pose proof (digits_text_start (dc_int d) r H) as H1 end.
  destruct (digits_text (dc_int d) +:+ _) as [|c r]; [done|]. cbn [starts_with] in H1. unfold starts_number. cbn [starts_with]. by rewrite H1.
Qed.

Lemma number_value s v r : starts_number s = true -> strtod s = Some (v, r) -> parseValue s = Some (JNum v, r) /\ skipWs s = s.
Proof.
  intros Hn E. unfold parseValue. rewrite E. destruct s as [|c s]; [done|]. unfold starts_number in Hn. cbn [starts_with] in Hn.
  destruct c as [[] [] [] [] [] [] [] []]; done.
Qed.

Lemma parseValue_print v ws s : text_ok v -> blanks ws -> starts_with is_sep s = true ->
  parseValue (print_value v +:+ ws +:+ s) = Some (meaning v, ws +:+ s) /\
  skipWs (print_value v +:+ ws +:+ s) = print_value v +:+ ws +:+ s.
Proof.
  intros Hv Hw Hs. pose proof (ends_number_gap ws s Hw Hs) as He. destruct v as [n|d|[]| |l]; cbn [print_value meaning]; try done.
  - apply number_value; [apply integer_start|]. by apply strtod_integer.
  - apply number_value; [by apply decimal_start|]. by apply strtod_decimal.
  - split; [|done]. unfold parseValue. pose proof (parseString_print l (ws +:+ s) Hv) as E.
    assert (starts_with is_quote_char (print_string l +:+ ws +:+ s) = true) as -> by done. by rewrite E.
Qed.

(** The double of an integer holds it. *)
Lemma i64_to_f64_fixed n : Z.abs n < 2 ^ 53 ->
  f64_finite (i64_to_f64 n) /\ f64_sign (i64_to_f64 n) = (if n <? 0 then 1 else 0) /\ f64_fixed (i64_to_f64 n) = Z.abs n * f64_unit.
Proof.
  intros Hn. set (s := if n <? 0 then 1 else 0). assert (s = 0 \/ s = 1) as Hs by (subst s; destruct (n <? 0); auto).
  unfold i64_to_f64. fold s. destruct (decide (n = 0)) as [->|Hz]; [by vm_compute|].
  assert (Z.log2 (Z.abs n) <= 52) as Hlog.
  { change 52 with (Z.log2 (2 ^ 53 - 1)). apply Z.log2_le_mono. lia. }
  pose proof (Z.log2_nonneg (Z.abs n)).
  destruct (fp_encode_exact 52 11 s (Z.abs n) 0) as (H1 & H2 & H3); try lia.
  { change (fp_bias 11) with 1023. lia. }
  split; [split; [|exact H2]; apply (fp_encode_range 52 11); lia|]. split; [exact H1|].
  unfold f64_fixed. rewrite H3. rewrite <- Z.mul_assoc, <- Z.pow_add_r by lia. f_equal.
  transitivity (2 ^ 1074); [f_equal; lia|done].
Qed.

Section Store.
Variable llround_invalid : Z -> Z.

Lemma store_double f b c : f64_finite b -> double_cell f b (storeValue llround_invalid f (JNum b) c).
Proof.
  intros Hb. unfold double_cell, storeValue. split; [done|]. cbn [c_v]. destruct (f_asDouble f); [done|].
  assert (forall v, rounded_f64 b v -> - 2 ^ 63 <= v < 2 ^ 63 -> u64 (default (llround_invalid b) (llround b)) = u64 v) as Hr.
  { intros v H1 H2. by rewrite (llround_rounds b v). }
  destruct (f_kind f); try done. by rewrite f64_is_zero_fixed.
Qed.

Lemma rounded_integer n : rounded_f64 (i64_to_f64 n) n \/ 2 ^ 53 <= Z.abs n.
Proof.
  destruct (Z.ltb_spec (Z.abs n) (2 ^ 53)) as [Hn|]; [left|by right]. destruct (i64_to_f64_fixed n Hn) as (_ & Hs & Hf).
  pose proof f64_unit_pos. split; [rewrite Hf; nia|]. rewrite Hs. split; intros H1; destruct (Z.ltb_spec n 0); lia || done.
Qed.

Lemma store_meaning f v c : text_ok v -> value_cell f v c (storeValue llround_invalid f (meaning v) c).
Proof.
  destruct v as [n|d|b| |l]; intros Hv; cbn [meaning value_cell]; try done.
  - destruct (i64_to_f64_fixed n Hv) as (Hb & Hs & Hf). exists (i64_to_f64 n). split_and!; try done; [by apply store_double|].
    intros Ha Hk. cbn [storeValue c_v]. rewrite Ha. rewrite (llround_rounds (i64_to_f64 n) n); [by destruct (f_kind f)|done| |cbn [text_ok] in Hv; lia].
    destruct (rounded_integer n); [done|]. cbn [text_ok] in Hv. lia.
  - pose proof Hv as [[_ H1] H2 H3 H4]. exists (f64_of_scaled (dc_sign d) (dc_mantissa d) 10 (dc_exponent d)).
    assert (nearest_f64 (dc_sign d) (dc_num d) (dc_den d) (f64_of_scaled (dc_sign d) (dc_mantissa d) 10 (dc_exponent d))) as Hn.
    { apply f64_of_scaled_nearest; [unfold dc_sign; destruct (dc_neg d); auto| |done].
      apply digits_value_nonneg; [done|]. apply Forall_app. split; [done|]. unfold dc_fraction.
      destruct (dc_frac d) as [fs|]; [by apply (H2 fs)|by apply Forall_nil]. }
    split; [done|]. apply store_double, Hn.
  - split; [done|]. cbn [storeValue c_v]. destruct (f_asDouble f), b; try done; by destruct (f_kind f).
Qed.
End Store.

(** ** Pairs *)

Lemma fieldIndex_named fields key : match field_named fields key with
  | Some (k, f) => fieldIndex fields key = Some k /\ fields !! k = Some f /\ key ∈ map f_name fields
  | None => fieldIndex fields key = None /\ key ∉ map f_name fields
  end.
Proof.
  unfold field_named. induction fields as [|f fields IH]; [split; [done|by intros ?%elem_of_nil]|]. cbn [fieldIndex list_find map].
  destruct (decide (f_name f = key)) as [E|E].
  - destruct (String.eqb_spec (f_name f) key); [|done]. split_and!; try done. rewrite E. by left.
  - destruct (String.eqb_spec (f_name f) key); [done|]. destruct (list_find _ fields) as [[k g]|]; cbn [fmap option_fmap option_map].
    + destruct IH as (-> & H2 & H3). cbn. split_and!; try done. by right.
    + destruct IH as (-> & H2). split; [done|]. by intros [?|?]%elem_of_cons.
Qed.

Section RoundTrip.
Variable llround_invalid : Z -> Z.

Lemma jsonPair_print fields p s m cells : pair_ok p -> starts_with is_sep s = true ->
  exists cells', jsonPair llround_invalid fields (print_pair p +:+ s) m cells =
    Some (m + lenZ (filter (names_field fields) [p]), cells', jp_ws4 p +:+ s) /\ pair_sets fields p cells cells'.
Proof.
  intros [(W1 & W2 & W3 & W4) Hk Hv] Hs. unfold jsonPair, print_pair. rewrite <- !str_app_assoc. rewrite skipWs_app by done.
  change (skipWs (print_string ?l +:+ ?r)) with (print_string l +:+ r). rewrite parseString_print by done.
  cbn [mbind option_bind]. rewrite skipWs_app by done.
  change (":" +:+ ?x) with (String.String ":"%char x). cbn [skipWs]. change (is_ws ":") with false. cbv iota.
  destruct (parseValue_print (jp_value p) (jp_ws4 p) s Hv W4 Hs) as [Ev Es]. rewrite skipWs_app, Es, Ev by done.
  cbn [mbind option_bind]. rewrite filter_cons, filter_nil. unfold pair_sets. fold (jp_name p).
  pose proof (fieldIndex_named fields (jp_name p)) as Hf. destruct (field_named fields (jp_name p)) as [[k f]|].
  - destruct Hf as (-> & -> & Hin). rewrite decide_True by done. change (lenZ [p]) with 1. eexists. split; [done|].
    split_and!; [apply length_alter|intros j Hj; by apply list_lookup_alter_ne|].
    intros c Hc. rewrite list_lookup_alter_eq, Hc. eexists. split; [done|]. by apply store_meaning.
  - destruct Hf as (-> & Hin). rewrite decide_False by done. eexists. rewrite Z.add_0_r. split; done.
Qed.

Lemma jsonLoop_print fields ps : forall fuel p m cells rest, Forall pair_ok (p :: ps) -> (length ps < fuel)%nat ->
  exists cells', jsonLoop llround_invalid fuel fields (print_pairs p ps +:+ rest) m cells =
      JOk (m + lenZ (filter (names_field fields) (p :: ps))) cells' /\ pairs_set fields (p :: ps) cells cells'.
Proof.
  induction ps as [|p' ps IH]; intros fuel p m cells rest Hf Hn; (destruct fuel as [|fuel]; [simpl in Hn; lia|]);
    apply Forall_cons in Hf as [Hp Hf]; pose proof (proj2 (proj2 (proj2 (pk_blanks _ Hp)))) as Hw;
    cbn [jsonLoop print_pairs]; rewrite <- !str_app_assoc.
  - destruct (jsonPair_print fields p ("}" +:+ rest) m cells Hp) as (cells' & -> & H); [done|]. rewrite skipWs_app by done.
    exists cells'. split; [done|]. by exists cells'.
  - destruct (jsonPair_print fields p ("," +:+ print_pairs p' ps +:+ rest) m cells Hp) as (mid & -> & H); [done|]. rewrite skipWs_app by done.
    change ("," +:+ ?x) with (String.String ","%char x). cbn [skipWs]. change (is_ws ",") with false. cbv iota.
    destruct (IH fuel p' (m + lenZ (filter (names_field fields) [p])) mid rest Hf) as (cells' & -> & H'); [simpl in *; lia|].
    exists cells'. split; [|by exists mid]. f_equal. rewrite <- Z.add_assoc. f_equal.
    change (p :: p' :: ps) with ([p] ++ p' :: ps). by rewrite (filter_app (names_field fields) [p]), lenZ_app.
Qed.

Lemma print_pairs_start ps : forall p, exists x, print_pairs p ps = jp_ws1 p +:+ x /\
  starts_with is_quote_char x = true /\ (length ps < String.length x)%nat.
Proof.
  induction ps as [|p' ps IH]; intros p; cbn [print_pairs]; unfold print_pair; rewrite <- !str_app_assoc.
  - eexists. split; [done|]. split; [done|]. unfold print_string. rewrite <- !str_app_assoc. simpl. lia.
  - eexists. split; [done|]. split; [done|]. destruct (IH p') as (x & -> & _ & Hl).
    rewrite !str_length_app. simpl length. change (String.length ",") with 1%nat. lia.
Qed.

Lemma skipWs_idem s : skipWs (skipWs s) = skipWs s.
Proof. induction s as [|c s IH]; cbn [skipWs]; [done|]. destruct (is_ws c) eqn:E; [done|]. cbn [skipWs]. by rewrite E. Qed.

Lemma jsonLoop_skip fuel fields s m cells :
  jsonLoop llround_invalid (S fuel) fields (skipWs s) m cells = jsonLoop llround_invalid (S fuel) fields s m cells.
Proof. cbn [jsonLoop]. unfold jsonPair. by rewrite skipWs_idem. Qed.

Lemma parseJsonFields_print spec ws ws' ps rest cells : blanks ws -> blanks ws' -> Forall pair_ok ps ->
  exists cells', parseJsonFields llround_invalid (print_object ws ws' ps +:+ rest) spec cells =
      JOk (lenZ (filter (names_field (s_fields spec)) ps)) cells' /\ pairs_set (s_fields spec) ps cells cells'.
Proof.
  intros Hw Hw' Hf. unfold parseJsonFields, print_object. rewrite <- !str_app_assoc, skipWs_app by done.
  change ("{" +:+ ?x) with (String.String "{"%char x). cbn [skipWs]. change (is_ws "{") with false. cbv iota.
  destruct ps as [|p ps]; [rewrite <- str_app_assoc, skipWs_app by done; by exists cells|].
  destruct (print_pairs_start ps p) as (x & Ex & Hq & Hl). pose proof Hf as Hf'. apply Forall_cons in Hf' as [Hp _].
  assert (skipWs (print_pairs p ps +:+ rest) = x +:+ rest) as Er.
  { rewrite Ex, <- str_app_assoc, skipWs_app by apply (pk_blanks _ Hp). destruct x as [|c x]; [done|]. cbn [starts_with] in Hq.
    rewrite str_cons_app. cbn [skipWs]. destruct c as [[] [] [] [] [] [] [] []]; done. }
  destruct (jsonLoop_print (s_fields spec) ps (S (String.length (x +:+ rest))) p 0 cells rest Hf) as (cells' & E & H).
  { rewrite str_length_app. lia. }
  exists cells'. split; [|done]. rewrite <- jsonLoop_skip, Er, Z.add_0_l in E. rewrite Er.
  destruct x as [|c x]; [done|]. cbn [starts_with] in Hq. rewrite str_cons_app in *.
  destruct c as [[] [] [] [] [] [] [] []]; try done; exact E.
Qed.
End RoundTrip.
