(* ===== verification/HttpIngestProps.v ===== *)
(** * HTTP ingest: properties

    The parsers end on every input, what a client writes is what a row holds,
    requests may arrive in any segments, and what happens to bytes behind a
    request; [src/src/adapter/HttpIngest.cpp]. *)

From stdpp Require Import base list numbers gmap strings pretty.
From Stdlib Require Import ZArith Lia Ascii.
From S2P Require Import Prelude Floats CText DeviceModel ConfigDB AdapterConfig FrameCodec FrameCodecProps Pipeline ParserProps Ingest Strtod DoubleNearest HttpIngest JsonText.
Local Open Scope Z_scope.

(** ** Consumption

    Every scanner returns a suffix no longer than what it was given. *)

Notation slen := String.length.

Ltac consume := repeat match goal with
  | H : mbind _ _ = Some _ |- _ => apply bind_Some in H as (? & ? & H)
  | H : (let '(_, _) := ?x in _) = _ |- _ => destruct x eqn:?
  | H : Some _ = Some _ |- _ => injection H as H
  | H : (_, _) = (_, _) |- _ => injection H as H
  end; subst; cbn [String.length] in *.

Lemma skipWs_len s : (slen (skipWs s) <= slen s)%nat.
Proof. induction s as [|c s IH]; cbn [skipWs]; [done|]. destruct (is_ws c); cbn [String.length]; lia. Qed.

Lemma skip_space_len s : (slen (skip_space s) <= slen s)%nat.
Proof. induction s as [|c s IH]; cbn [skip_space]; [done|]. destruct (is_space c); cbn [String.length]; lia. Qed.

Lemma scan_sign_len s b r : scan_sign s = (b, r) -> (slen r <= slen s)%nat.
Proof.
  destruct s as [|c s]; cbn [scan_sign]; [by intros [= <- <-]|].
  repeat case_match; intros [= <- <-]; cbn [String.length]; lia.
Qed.

Lemma take_digits_len base s : forall acc n v k r, take_digits base acc n s = (v, k, r) -> (slen r <= slen s)%nat.
Proof.
  induction s as [|c s IH]; intros acc n v k r; cbn [take_digits]; [by intros [= <- <- <-]|].
  destruct (digit_value base c); [intros H%IH; cbn [String.length]; lia|by intros [= <- <- <-]].
Qed.

Lemma take_word_len w : forall s r, take_word w s = Some r -> (slen r <= slen s)%nat.
Proof.
  induction w as [|a w IH]; intros [|c s] r; cbn [take_word]; try done; try (by intros [= <-]).
  destruct (is_letter a c); [|done]. intros H%IH. cbn [String.length]. lia.
Qed.

Lemma take_exponent_len l s e r : take_exponent l s = (e, r) -> (slen r <= slen s)%nat.
Proof.
  destruct s as [|c s]; cbn [take_exponent]; [by intros [= <- <-]|]. destruct (is_letter l c); [|by intros [= <- <-]].
  destruct (scan_sign s) as [neg s2] eqn:E1. destruct (take_digits 10 0 0 s2) as [[v n] s3] eqn:E2.
  apply scan_sign_len in E1. apply take_digits_len in E2.
  destruct (0 <? n); intros [= <- <-]; cbn [String.length]; lia.
Qed.

Lemma take_mantissa_len base s m k r : take_mantissa base s = Some (m, k, r) -> (slen r <= slen s)%nat.
Proof.
  unfold take_mantissa. destruct (take_digits base 0 0 s) as [[v n] s1] eqn:E1. apply take_digits_len in E1.
  assert ((if 0 <? n then Some (v, 0, s1) else None) = Some (m, k, r) -> (slen r <= slen s)%nat) as Hint.
  { destruct (0 <? n); [|done]. by intros [= <- <- <-]. }
  destruct s1 as [|[[] [] [] [] [] [] [] []] s2]; try exact Hint.
  destruct (take_digits base v 0 s2) as [[v2 k2] s3] eqn:E2. apply take_digits_len in E2.
  destruct (0 <? n + k2); [|done]. intros [= <- <- <-]. cbn [String.length] in *. lia.
Qed.

Lemma take_hex_len sg s v r : take_hex sg s = Some (v, r) -> (slen r <= slen s)%nat.
Proof.
  unfold take_hex. destruct s as [|[[] [] [] [] [] [] [] []] [|x s1]]; try done. destruct (is_letter "x" x); [|done].
  intros H. apply bind_Some in H as ([[m k] s2] & E1 & H). destruct (take_exponent "p" s2) as [e s3] eqn:E2.
  injection H as <- <-. apply take_mantissa_len in E1. apply take_exponent_len in E2. cbn [String.length]. lia.
Qed.

Lemma take_decimal_len sg s v r : take_decimal sg s = Some (v, r) -> (slen r <= slen s)%nat.
Proof.
  unfold take_decimal. intros H. apply bind_Some in H as ([[m k] s2] & E1 & H).
  destruct (take_exponent "e" s2) as [e s3] eqn:E2. injection H as <- <-.
  apply take_mantissa_len in E1. apply take_exponent_len in E2. lia.
Qed.

Lemma take_infinity_len sg s v r : take_infinity sg s = Some (v, r) -> (slen r <= slen s)%nat.
Proof.
  unfold take_infinity. intros H. apply bind_Some in H as (s1 & E1 & H). apply take_word_len in E1.
  remember (take_word "inity" s1) as w eqn:E2. injection H as <- <-. destruct w as [s2|]; [|exact E1].
  symmetry in E2. apply take_word_len in E2. etransitivity; [exact E2|exact E1].
Qed.

Lemma str_span_len p s : forall a b, str_span p s = (a, b) -> (slen b <= slen s)%nat.
Proof.
  induction s as [|c s IH]; intros a b; cbn [str_span]; [by intros [= <- <-]|]. destruct (p c); [|by intros [= <- <-]].
  destruct (str_span p s) as [a' b'] eqn:E. intros [= <- <-]. specialize (IH _ _ eq_refl). cbn [String.length]. lia.
Qed.

Lemma take_nan_len sg s v r : take_nan sg s = Some (v, r) -> (slen r <= slen s)%nat.
Proof.
  unfold take_nan. intros H. apply bind_Some in H as (s1 & E1 & H). apply take_word_len in E1.
  injection H as H.
  destruct s1 as [|[[] [] [] [] [] [] [] []] s2]; try (injection H as <- <-; exact E1).
  destruct (str_span is_nchar s2) as [a b] eqn:E2. apply str_span_len in E2. cbn [String.length] in *.
  destruct b as [|[[] [] [] [] [] [] [] []] s4]; injection H as <- <-; cbn [String.length] in *; lia.
Qed.

Lemma strtod_len s v r : strtod s = Some (v, r) -> (slen r <= slen s)%nat.
Proof.
  unfold strtod. pose proof (skip_space_len s). destruct (scan_sign (skip_space s)) as [neg s1] eqn:E1.
  apply scan_sign_len in E1. set (sg := if neg then 1 else 0).
  destruct (take_hex sg s1) as [[v1 r1]|] eqn:E2; [intros [= <- <-]; apply take_hex_len in E2; lia|].
  destruct (take_decimal sg s1) as [[v2 r2]|] eqn:E3; [intros [= <- <-]; apply take_decimal_len in E3; lia|].
  destruct (take_infinity sg s1) as [[v3 r3]|] eqn:E4; [intros [= <- <-]; apply take_infinity_len in E4; lia|].
  intros E5%take_nan_len. lia.
Qed.

Lemma string_chars_len s : forall out r, string_chars s = Some (out, r) -> (slen r < slen s)%nat.
Proof.
  enough (forall n s, (slen s <= n)%nat -> forall out r, string_chars s = Some (out, r) -> (slen r < slen s)%nat) as H by eauto.
  clear s. induction n as [|n IH]; intros [|c s] Hn out r; cbn [string_chars String.length] in *; try done; [lia|].
  destruct (code c =? 92).
  - destruct s as [|e s]; [done|]. cbn [String.length] in *. intros H. apply bind_Some in H as ([o r'] & E & H).
    injection H as <- <-. apply IH in E; lia.
  - destruct (code c =? 34); [intros [= <- <-]; lia|]. intros H. apply bind_Some in H as ([o r'] & E & H).
    injection H as <- <-. apply IH in E; lia.
Qed.

Lemma parseString_len s out r : parseString s = Some (out, r) -> (slen r < slen s)%nat.
Proof.
  destruct s as [|c s]; cbn [parseString]; [done|]. destruct (is_quote_char c); [|done].
  intros H%string_chars_len. cbn [String.length]. lia.
Qed.

Lemma after_prefix_len p : forall s r, after_prefix p s = Some r -> slen s = (slen p + slen r)%nat.
Proof.
  induction p as [|a p IH]; intros [|b s] r; cbn [after_prefix]; try done; try (by intros [= <-]).
  destruct (Ascii.eqb a b); [|done]. intros H%IH. cbn [String.length]. lia.
Qed.

Lemma parseValue_len s v r : parseValue s = Some (v, r) -> (slen r <= slen s)%nat.
Proof.
  unfold parseValue. destruct (starts_with is_quote_char s).
  { intros H. apply bind_Some in H as ([o r'] & E & H). injection H as <- <-. apply parseString_len in E. lia. }
  destruct (after_prefix "null" s) eqn:E1; [intros [= <- <-]; apply after_prefix_len in E1; lia|].
  destruct (after_prefix "true" s) eqn:E2; [intros [= <- <-]; apply after_prefix_len in E2; lia|].
  destruct (after_prefix "false" s) eqn:E3; [intros [= <- <-]; apply after_prefix_len in E3; lia|].
  intros H. apply bind_Some in H as ([o r'] & E & H). injection H as <- <-. by apply strtod_len in E.
Qed.

(** ** The parsers end *)

Section Total.
Variable llround_invalid : Z -> Z.

Lemma jsonPair_len fields s m cells m' cells' r :
  jsonPair llround_invalid fields s m cells = Some (m', cells', r) ->
  (slen r < slen s)%nat /\ length cells' = length cells.
Proof.
  unfold jsonPair. intros H. apply bind_Some in H as ([key r1] & E1 & H). apply parseString_len in E1.
  pose proof (skipWs_len s). pose proof (skipWs_len r1).
  destruct (skipWs r1) as [|[[] [] [] [] [] [] [] []] r2]; try done. cbn [String.length] in *.
  apply bind_Some in H as ([v r3] & E2 & H). apply parseValue_len in E2. pose proof (skipWs_len r2).
  destruct (fieldIndex fields key) as [k|]; [|injection H as <- <- <-; split; [lia|done]].
  injection H as <- <- <-. split; [lia|]. destruct (fields !! k); [by rewrite length_alter|done].
Qed.

(** The loop ends with its fuel unused, and keeps the number of cells. *)
Lemma jsonLoop_ends fields fuel : forall s m cells, (slen s < fuel)%nat ->
  match jsonLoop llround_invalid fuel fields s m cells with
  | JFuel => False
  | JOk _ cells' | JError cells' => length cells' = length cells
  end.
Proof.
  induction fuel as [|fuel IH]; intros s m cells Hf; [lia|]. cbn [jsonLoop].
  destruct (jsonPair llround_invalid fields s m cells) as [[[m1 cells1] r]|] eqn:E; [|done].
  apply jsonPair_len in E as [Hr Hc]. pose proof (skipWs_len r).
  destruct (skipWs r) as [|[[] [] [] [] [] [] [] []] r2]; try done. cbn [String.length] in *.
  specialize (IH r2 m1 cells1 ltac:(lia)). destruct (jsonLoop _ _ _ _ _ _); congruence.
Qed.

Lemma parseJsonFields_ends body spec cells :
  match parseJsonFields llround_invalid body spec cells with
  | JFuel => False
  | JOk _ cells' | JError cells' => length cells' = length cells
  end.
Proof.
  unfold parseJsonFields. destruct (skipWs body) as [|[[] [] [] [] [] [] [] []] r]; try done.
  assert (match jsonLoop llround_invalid (S (slen (skipWs r))) (s_fields spec) (skipWs r) 0 cells with
    | JFuel => False | JOk _ cells' | JError cells' => length cells' = length cells end) as H by (apply jsonLoop_ends; lia).
  destruct (skipWs r) as [|[[] [] [] [] [] [] [] []] r2]; done.
Qed.
End Total.

Lemma str_drop_len n : forall s, slen (str_drop n s) = (slen s - n)%nat.
Proof. induction n as [|n IH]; intros [|c s]; cbn [str_drop String.length]; first [done|lia|by rewrite IH]. Qed.

Lemma headerLines_ends fuel : forall s len, (slen s < fuel)%nat -> is_Some (headerLines fuel s len).
Proof.
  induction fuel as [|fuel IH]; intros s len Hf; [lia|]. cbn [headerLines].
  destruct s as [|c s]; [by eexists|]. apply IH. rewrite str_drop_len. cbn [String.length] in *. lia.
Qed.

Lemma parseHeaderBlock_ends head : is_Some (parseHeaderBlock head).
Proof.
  unfold parseHeaderBlock. destruct (str_search CRLF head) as [n|]; [|by eexists].
  destruct (headerLines_ends (S (slen head)) (str_drop (n + 2) head) 0) as [len ->]; [rewrite str_drop_len; lia|].
  by eexists.
Qed.

(** ** What events may do *)

(** What becomes of a message: nothing yet, a row and its confirmation, or an
    error. *)
Inductive Refusal := TooLarge | BadHeader | OnlyPost | UnknownDevice | NoLayout | BadJson.
Inductive Outcome :=
| Silent
| Accepted (c : TcpConn) (t : Z) (dev : DevicePtr) (matched : Z) (cells : list Cell)
| Rejected (c : TcpConn) (r : Refusal).

(** The reply as bytes on the wire: status line, headers, body. *)
Definition reply (status body : string) : string :=
  "HTTP/1.1 " +:+ status +:+ CRLF +:+ "Content-Type: application/json" +:+ CRLF +:+
  "Content-Length: " +:+ to_string (str_len body) +:+ CRLF +:+ "Connection: close" +:+ CRLF +:+ CRLF +:+ body.

Definition refusal_reply (r : Refusal) : string :=
  let failed e := "{" +:+ quoted "ok" +:+ ":false," +:+ quoted "error" +:+ ":" +:+ quoted e +:+ "}" in
  match r with
  | TooLarge => reply "413 Payload Too Large" ("{" +:+ quoted "ok" +:+ ":false}")
  | BadHeader => reply "400 Bad Request" (failed "header")
  | OnlyPost => reply "405 Method Not Allowed" (failed "only POST")
  | UnknownDevice => reply "404 Not Found" (failed "unknown device")
  | NoLayout => reply "400 Bad Request" (failed "no field layout")
  | BadJson => reply "400 Bad Request" (failed "json")
  end.

Definition outcome_rows (o : Outcome) : list RowBatch :=
  match o with Accepted _ t dev _ cells => [mkBatch (Some dev) [toMs t] cells] | _ => [] end.
Definition outcome_sent (o : Outcome) : list (nat * string) :=
  match o with
  | Silent => []
  | Accepted c _ dev matched _ =>
      [(cn_addr c, reply "200 OK" ("{" +:+ quoted "ok" +:+ ":true," +:+ quoted "device" +:+ ":" +:+
          quoted (d_deviceId (p_desc dev)) +:+ "," +:+ quoted "matched" +:+ ":" +:+ to_string matched +:+ "}"))]
  | Rejected c r => [(cn_addr c, refusal_reply r)]
  end.
Definition outcome_counts (o : Outcome) (f : Stat) : Z :=
  match o, f with Accepted _ _ _ _ _, (HttpRequests | HttpRows) | Rejected _ _, HttpErrors => 1 | _, _ => 0 end.

(** A connection whose request is not complete: no blank line yet, or the body
    too short.  A connection whose request is: the body. *)
Definition request_waits (st : ConnState) : Prop :=
  (cs_headerParsed st = false /\ str_search (CRLF +:+ CRLF) (cs_buf st) = None) \/
  (cs_headerParsed st = true /\ str_len (cs_buf st) < cs_contentLen st).
Definition request_body (st : ConnState) (body : string) : Prop :=
  cs_headerParsed st = true /\ cs_contentLen st <= str_len (cs_buf st) /\
  body = str_take (Z.to_nat (cs_contentLen st)) (cs_buf st).

(** The first line of a complete header block and its first word. *)
Definition header_head (st : ConnState) (head : string) : Prop :=
  exists n, str_search (CRLF +:+ CRLF) (cs_buf st) = Some n /\ head = str_take n (cs_buf st).
Definition first_line (head line : string) : Prop :=
  exists k, str_search CRLF head = Some k /\ line = str_take k head.
Definition first_word (line w : string) : Prop :=
  str_forall (fun c => negb (Ascii.eqb c " ")) w = true /\ (line = w \/ exists rest, line = w +:+ " " +:+ rest).

(** The state of a connection with the bytes of a message, and behind the header
    block of a POST. *)
Definition appended (s : HttpIngest) (c : TcpConn) (data : list Z) : ConnState :=
  let st := default ConnState0 (hi_conns s !! cn_addr c) in
  mkState (cs_buf st +:+ text_of data) (cs_headerParsed st) (cs_contentLen st).
Definition posted (st x : ConnState) : Prop :=
  cs_headerParsed st = false /\ cs_headerParsed x = true /\
  exists head line, header_head st head /\ first_line head line /\ first_word line "POST" /\
    cs_buf st = head +:+ CRLF +:+ CRLF +:+ cs_buf x.

(** What an event makes of the connections. *)
Definition conns_ok (s : HttpIngest) (e : NetEvent) (s' : HttpIngest) : Prop :=
  match e with
  | Opened c => hi_conns s' = <[cn_addr c := ConnState0]> (hi_conns s)
  | Closed c => hi_conns s' = delete (cn_addr c) (hi_conns s)
  | Received c [] _ => hi_conns s' = hi_conns s
  | Received c data _ => exists x, hi_conns s' = <[cn_addr c := x]> (hi_conns s) /\
      (x = appended s c data \/ posted (appended s c data) x)
  end.

Section Effects.
Variable llround_invalid : Z -> Z.
Variable db : ConfigDB.

Definition blank_row (dev : DevicePtr) : list Cell := replicate (Z.to_nat (fieldCount (p_desc dev))) (mkCell 0 1).
Definition json_of (body : string) (dev : DevicePtr) : JsonResult :=
  parseJsonFields llround_invalid body (d_spec (p_desc dev)) (blank_row dev).

(** When a message may have an outcome, given what its connection has sent so
    far ([st]) and the server's port. *)
Definition rejects (port : Z) (c : TcpConn) (st : ConnState) (r : Refusal) : Prop :=
  match r with
  | TooLarge => kMaxRequest < str_len (cs_buf st)
  | BadHeader => cs_headerParsed st = false /\ exists head, header_head st head /\ str_search CRLF head = None
  | OnlyPost => cs_headerParsed st = false /\ exists head line w, header_head st head /\ first_line head line /\
      first_word line w /\ w <> "POST"
  | UnknownDevice => (exists body, request_body st body) /\ matchHttpDevice db (cn_ip c) (cn_port c) port = None
  | NoLayout => (exists body, request_body st body) /\
      exists dev, matchHttpDevice db (cn_ip c) (cn_port c) port = Some dev /\ s_fields (d_spec (p_desc dev)) = []
  | BadJson => exists body dev cells, request_body st body /\ matchHttpDevice db (cn_ip c) (cn_port c) port = Some dev /\
      s_fields (d_spec (p_desc dev)) <> [] /\ json_of body dev = JError cells
  end.

Definition outcome_ok (port : Z) (e : NetEvent) (st : option ConnState) (o : Outcome) : Prop :=
  match o with
  | Silent => match e with Received _ (_ :: _) _ => exists x, st = Some x /\ request_waits x | _ => True end
  | Accepted c t dev matched cells => exists data x body, e = Received c data t /\ data <> [] /\ st = Some x /\
      request_body x body /\ matchHttpDevice db (cn_ip c) (cn_port c) port = Some dev /\
      s_fields (d_spec (p_desc dev)) <> [] /\ json_of body dev = JOk matched cells /\ lenZ cells = fieldCount (p_desc dev)
  | Rejected c r => exists data t x, e = Received c data t /\ data <> [] /\ st = Some x /\ rejects port c x r
  end.

Definition event_peer (e : NetEvent) : TcpConn := match e with Opened c | Closed c | Received c _ _ => c end.

(** One event: its outcome decides the rows, the responses and the counters. *)
Record http_effect (s : HttpIngest) (e : NetEvent) (o : Outcome) (s' : HttpIngest) : Prop := {
  he_port : hi_port s' = hi_port s;
  he_conns : conns_ok s e s';
  he_outcome : outcome_ok (hi_port s) e (hi_conns s' !! cn_addr (event_peer e)) o;
  he_cap : forall c data t, e = Received c data t -> data <> [] ->
    (o = Rejected c TooLarge <-> kMaxRequest < str_len (cs_buf (appended s c data)));
  he_write : hi_write s' = hi_write s ++ outcome_rows o;
  he_sent : hi_sent s' = hi_sent s ++ outcome_sent o;
  he_stats : forall f, u64 (hi_stats s' f) =
    u64 (hi_stats s f + (match f with BytesIn => received e | _ => 0 end + outcome_counts o f));
}.

(** A run, event by event. *)
Inductive http_effects : HttpIngest -> list NetEvent -> list Outcome -> HttpIngest -> Prop :=
| effects_nil s : http_effects s [] [] s
| effects_cons s e o s1 es os s' : httpStep llround_invalid db s e = Some s1 -> http_effect s e o s1 ->
    http_effects s1 es os s' -> http_effects s (e :: es) (o :: os) s'.

(** The whole of it. *)
Record http_totals (s : HttpIngest) (es : list NetEvent) (os : list Outcome) (s' : HttpIngest) : Prop := {
  ht_port : hi_port s' = hi_port s;
  ht_write : hi_write s' = hi_write s ++ flat_map outcome_rows os;
  ht_rows : Forall (fun b => batch_wf b /\ length (b_ts b) = 1%nat) (flat_map outcome_rows os);
  ht_sent : hi_sent s' = hi_sent s ++ flat_map outcome_sent os;
  ht_stats : forall f, u64 (hi_stats s' f) = u64 (hi_stats s f +
    match f with
    | BytesIn => foldr (fun e n => received e + n) 0 es
    | HttpRequests | HttpRows => lenZ (flat_map outcome_rows os)
    | HttpErrors => lenZ (flat_map outcome_sent os) - lenZ (flat_map outcome_rows os)
    | _ => 0
    end);
}.

(** The bytes are counted first, and the connection's state is stored. *)
Record counted (s : HttpIngest) (c : TcpConn) (data : list Z) (st : ConnState) (s0 : HttpIngest) : Prop := {
  cd_port : hi_port s0 = hi_port s;
  cd_conn : hi_conns s0 = <[cn_addr c := st]> (hi_conns s);
  cd_write : hi_write s0 = hi_write s;
  cd_sent : hi_sent s0 = hi_sent s;
  cd_stats : forall f, u64 (hi_stats s0 f) = u64 (hi_stats s f + match f with BytesIn => lenZ data | _ => 0 end);
}.

Lemma counted_start s c data st :
  counted s c data st (set_conns (<[cn_addr c := st]> (hi_conns s)) (hi_count BytesIn (lenZ data) s)).
Proof.
  constructor; try done. intros f. cbn [set_conns hi_stats hi_count].
  rewrite u64_fetch_add. by destruct f.
Qed.

Lemma effect_idle s e s' : match e with Received _ (_ :: _) _ => False | _ => True end -> hi_port s' = hi_port s ->
  conns_ok s e s' -> hi_write s' = hi_write s -> hi_sent s' = hi_sent s -> hi_stats s' = hi_stats s -> http_effect s e Silent s'.
Proof.
  intros He Hp Hc Hw Hs Hst. constructor; rewrite ?app_nil_r; try done; [by destruct e as [| |? [|]]|by intros c [|] t -> Hd|].
  intros f. rewrite Hst. f_equal. destruct e as [| |? [|]?]; try done; destruct f; cbn [received outcome_counts]; unfold lenZ; cbn [length]; lia.
Qed.

Section Message.
Context (s : HttpIngest) (c : TcpConn) (data : list Z) (t : Z) (Hd : data <> []) (st : ConnState) (s0 : HttpIngest)
  (Hs : counted s c data st s0) (Hx : st = appended s c data \/ posted (appended s c data) st).
Notation large := (kMaxRequest < str_len (cs_buf (appended s c data))).

Lemma conns_received s' : hi_conns s' = hi_conns s0 -> conns_ok s (Received c data t) s' /\ hi_conns s' !! cn_addr c = Some st.
Proof.
  intros E. rewrite E, (cd_conn _ _ _ _ _ Hs), lookup_insert_eq. split; [|done]. cbn [conns_ok]. rewrite E, (cd_conn _ _ _ _ _ Hs).
  destruct data; [done|]. by exists st.
Qed.

Lemma cap_received o : (o = Rejected c TooLarge <-> large) -> forall c' d' t', Received c data t = Received c' d' t' -> d' <> [] ->
  (o = Rejected c' TooLarge <-> kMaxRequest < str_len (cs_buf (appended s c' d'))).
Proof. intros H c' d' t' [= <- <- <-] _. exact H. Qed.

Lemma effect_wait : ~ large -> request_waits st -> http_effect s (Received c data t) Silent s0.
Proof.
  destruct Hs as [H1 H2 H3 H4 H5]. destruct (conns_received s0 eq_refl) as [C1 C2]. intros Hl Hw.
  constructor; rewrite ?app_nil_r; try done.
  - cbn [outcome_ok event_peer]. rewrite C2. destruct data; [done|]. by exists st.
  - apply cap_received. done.
  - intros f. rewrite H5. f_equal. destruct f; cbn [received outcome_counts]; lia.
Qed.

Lemma effect_reject code body r : (r = TooLarge <-> large) -> rejects (hi_port s) c st r -> responseText code body = refusal_reply r ->
  http_effect s (Received c data t) (Rejected c r) (reject c code body s0).
Proof.
  destruct Hs as [H1 H2 H3 H4 H5]. intros Hl Hr Ht. destruct (conns_received (reject c code body s0) eq_refl) as [C1 C2].
  constructor; cbn [reject hi_port hi_write hi_sent hi_stats sendResponse hi_count outcome_rows outcome_sent]; rewrite ?app_nil_r; try done.
  - refine (eq_rect_r (fun x => outcome_ok _ _ x _) _ C2). by exists data, t, st.
  - apply cap_received. rewrite <- Hl. split; [by intros [= ->]|by intros ->].
  - by rewrite H4, Ht.
  - intros f. rewrite u64_fetch_add, <- uwrap_add_l, H5, uwrap_add_l, <- Z.add_assoc. f_equal. destruct f; cbn [received outcome_counts]; case_decide; try done; lia.
Qed.

Lemma handleRequest_effect body : ~ large -> request_body st body ->
  exists s' o, handleRequest llround_invalid db c body t s0 = Some s' /\ http_effect s (Received c data t) o s'.
Proof.
  intros Hl Hb. pose proof Hs as [H1 H2 H3 H4 H5]. unfold handleRequest. rewrite H1.
  assert (forall code text r, r <> TooLarge -> rejects (hi_port s) c st r -> responseText code text = refusal_reply r ->
    exists s' o, Some (reject c code text s0) = Some s' /\ http_effect s (Received c data t) o s') as Hrej.
  { intros code text r Hn Hr Ht. eexists _, _. split; [done|]. by eapply effect_reject. }
  destruct (matchHttpDevice db (cn_ip c) (cn_port c) (hi_port s)) as [dev|] eqn:Em.
  2: { apply (Hrej _ _ UnknownDevice); [done| |done]. split; [by exists body|done]. }
  destruct (s_fields (d_spec (p_desc dev))) as [|f0 fs] eqn:Ef.
  { apply (Hrej _ _ NoLayout); [done| |done]. split; [by exists body|by exists dev]. }
  fold (blank_row dev). fold (json_of body dev).
  pose proof (parseJsonFields_ends llround_invalid body (d_spec (p_desc dev)) (blank_row dev)) as Hj. fold (json_of body dev) in Hj.
  destruct (json_of body dev) as [m cells'|cells'|] eqn:Ej; [| |done].
  2: { apply (Hrej _ _ BadJson); [done| |done]. exists body, dev, cells'. by rewrite Ef. }
  eexists _, (Accepted c t dev m cells'). split; [done|]. pose proof (fieldCount_nonneg (p_desc dev)).
  match goal with |- http_effect _ _ _ ?s' => destruct (conns_received s' eq_refl) as [C1 C2] end.
  constructor; cbn [hi_port hi_write hi_sent hi_stats sendResponse hi_count hi_enqueue event_peer]; try done.
  - refine (eq_rect_r (fun x => outcome_ok _ _ x _) _ C2). exists data, st, body. rewrite Ef. split_and!; try done. unfold lenZ. rewrite Hj. unfold blank_row. rewrite length_replicate. lia.
  - by apply cap_received.
  - by rewrite H3.
  - by rewrite H4.
  - intros f. rewrite u64_fetch_add, <- uwrap_add_l, u64_fetch_add, uwrap_add_l.
    rewrite <- Z.add_assoc, <- uwrap_add_l, H5, uwrap_add_l, <- !Z.add_assoc. f_equal. destruct f; cbn [received outcome_counts]; repeat case_decide; try done; lia.
Qed.
End Message.

Lemma after_prefix_eq p : forall s r, after_prefix p s = Some r -> s = p +:+ r.
Proof.
  induction p as [|a p IH]; intros [|b s] r; cbn [after_prefix]; try done; try (by intros [= <-]).
  destruct (Ascii.eqb_spec a b) as [->|]; [|done]. intros H%IH. by rewrite str_cons_app, H.
Qed.

Lemma str_search_split p s : forall n, str_search p s = Some n -> s = str_take n s +:+ p +:+ str_drop (n + slen p) s.
Proof.
  assert (forall s r, after_prefix p s = Some r -> s = p +:+ str_drop (0 + slen p) s) as H0.
  { clear. intros s r ->%after_prefix_eq. by rewrite Nat.add_0_l, str_drop_app. }
  induction s as [|a s IH]; intros n; cbn [str_search]; destruct (after_prefix p _) as [r|] eqn:E.
  - intros [= <-]. by apply (H0 _ r).
  - done.
  - intros [= <-]. by apply (H0 _ r).
  - destruct (str_search p s) as [m|]; [|done]. intros [= <-]. cbn [str_take str_drop Nat.add]. rewrite str_cons_app. f_equal. by apply IH.
Qed.

Lemma parseHeaderBlock_none head : parseHeaderBlock head = Some None -> str_search CRLF head = None.
Proof.
  unfold parseHeaderBlock. destruct (str_search CRLF head) as [k|]; [|done].
  intros H. by apply bind_Some in H as (len & _ & [=]).
Qed.

Lemma word_of line : first_word line (match str_find " " line with Some sp => str_take sp line | None => line end).
Proof.
  unfold first_word. destruct (str_find " " line) as [n|] eqn:E; [|split; [by apply str_find_None|by left]].
  cut (str_forall (fun c => negb (Ascii.eqb c " ")) (str_take n line) = true /\
    line = str_take n line +:+ " " +:+ str_drop (S n) line); [intros [H1 H2]; split; [done|]; right; by eexists|].
  revert n E. induction line as [|a s IH]; intros n; cbn [str_find]; [done|].
  destruct (Ascii.eqb_spec a " ") as [->|Ha]; [by intros [= <-]|]. destruct (str_find " " s) as [m|]; [|done]. intros [= <-].
  destruct (IH m eq_refl) as [H1 H2]. cbn [str_take str_drop str_forall]. apply Ascii.eqb_neq in Ha. rewrite Ha, H1. split; [done|].
  rewrite str_cons_app. f_equal. exact H2.
Qed.

Lemma parseHeaderBlock_word head len m : parseHeaderBlock head = Some (Some (len, m)) ->
  exists line, first_line head line /\ first_word line m.
Proof.
  unfold parseHeaderBlock. destruct (str_search CRLF head) as [k|] eqn:E; [|done].
  intros H. apply bind_Some in H as (n & _ & [= _ <-]). exists (str_take k head). split; [by exists k|apply word_of].
Qed.

Lemma headerStage_cases st : exists stage, headerStage st = Some stage /\
  match stage with
  | Waiting => cs_headerParsed st = false /\ str_search (CRLF +:+ CRLF) (cs_buf st) = None
  | Refused code body => exists r, r <> TooLarge /\ (forall port c, rejects port c st r) /\ responseText code body = refusal_reply r
  | Ready st' => cs_headerParsed st' = true /\ (st' = st \/ posted st st')
  end.
Proof.
  unfold headerStage. destruct (cs_headerParsed st) eqn:Ep; [eexists; split; [done|]; split; [done|by left]|].
  destruct (str_search (CRLF +:+ CRLF) (cs_buf st)) as [h|] eqn:Es; [|eexists; split; [done|]; by split].
  set (head := str_take h (cs_buf st)). assert (header_head st head) as Hh by by exists h.
  destruct (parseHeaderBlock_ends head) as [[[len m]|] E]; rewrite E; cbn [mbind option_bind].
  - destruct (parseHeaderBlock_word _ _ _ E) as (line & Hl & Hw).
    destruct (String.eqb_spec m "POST") as [->|Hm]; cbn [negb]; (eexists; split; [done|]).
    + split; [done|]. right. split; [done|]. split; [done|]. exists head, line. split_and!; try done. cbn [cs_buf].
      apply str_search_split in Es. etransitivity; [exact Es|]. by rewrite (str_app_assoc CRLF CRLF).
    + exists OnlyPost. split; [done|]. split; [|done]. intros port c. split; [done|]. by exists head, line, m.
  - eexists. split; [done|]. exists BadHeader. split; [done|]. split; [|done]. intros port c. split; [done|].
    exists head. split; [done|]. by apply parseHeaderBlock_none.
Qed.

Lemma httpMessage_effect c data t s :
  exists s' o, httpMessage llround_invalid db c data t s = Some (s', []) /\ http_effect s (Received c data t) o s'.
Proof.
  destruct data as [|b data].
  { exists s, Silent. split; [done|]. by apply effect_idle. }
  unfold httpMessage. set (d := b :: data). cbn [hi_conns hi_count]. assert (d <> []) as Hd by done.
  fold (appended s c d). set (st := appended s c d). pose proof (counted_start s c d) as Hc.
  destruct (Z.ltb_spec kMaxRequest (str_len (cs_buf st))) as [Hl|Hl].
  { eexists _, _. split; [done|]. by apply (effect_reject s c d t Hd st _ (Hc st) (or_introl eq_refl) _ _ TooLarge). }
  apply Z.le_ngt in Hl.
  destruct (headerStage_cases st) as (stage & -> & Hst). cbn [mbind option_bind].
  destruct stage as [|code body|st1].
  - eexists _, _. split; [done|]. apply (effect_wait s c d t Hd st _ (Hc st)); [by left|done|by left].
  - destruct Hst as (r & Hn & Hr & Ht). eexists _, _. split; [done|].
    by apply (effect_reject s c d t Hd st _ (Hc st) (or_introl eq_refl) _ _ r).
  - destruct Hst as [Hp Hx]. destruct (Z.ltb_spec (str_len (cs_buf st1)) (cs_contentLen st1)).
    + eexists _, _. split; [done|]. apply (effect_wait s c d t Hd st1 _ (Hc st1) Hx); [done|by right].
    + destruct (handleRequest_effect s c d t Hd st1 _ (Hc st1) Hx (str_take (Z.to_nat (cs_contentLen st1)) (cs_buf st1)))
        as (s' & o & E & He); [done|by split_and!|]. rewrite E. by exists s', o.
Qed.

Lemma httpStep_effect s e : exists s' o, httpStep llround_invalid db s e = Some s' /\ http_effect s e o s'.
Proof.
  destruct e as [c|c|c data t]; cbn [httpStep]; [eexists _, _; split; [done|by apply effect_idle]..|].
  destruct (httpMessage_effect c data t s) as (s' & o & -> & H). by exists s', o.
Qed.

Lemma httpRun_effects es : forall s, exists s' os, httpRun llround_invalid db s es = Some s' /\ http_effects s es os s'.
Proof.
  induction es as [|e es IH]; intros s; cbn [httpRun].
  - exists s, []. split; [done|constructor].
  - destruct (httpStep_effect s e) as (s1 & o & E & H1). rewrite E. cbn [mbind option_bind].
    destruct (IH s1) as (s2 & os & E2 & H2). exists s2, (o :: os). split; [done|]. by econstructor.
Qed.

Lemma outcome_rows_wf port e st o : outcome_ok port e st o ->
  Forall (fun b => batch_wf b /\ length (b_ts b) = 1%nat) (outcome_rows o).
Proof.
  destruct o as [|c t dev m cells|]; intros H; [by apply Forall_nil| |by apply Forall_nil].
  destruct H as (d & x & body & _ & _ & _ & _ & _ & _ & _ & Hl). apply Forall_singleton. split; [|done].
  unfold batch_wf. cbn. change (lenZ [toMs t]) with 1. lia.
Qed.

Lemma http_effects_totals s es os s' : http_effects s es os s' -> http_totals s es os s'.
Proof.
  induction 1 as [s|s e o s1 es os s' _ [A1 _ A2 _ A3 A4 A5] _ [B1 B2 B3 B4 B5]].
  - constructor; cbn; rewrite ?app_nil_r; try done. intros f. by destruct f; rewrite Z.add_0_r.
  - constructor; cbn [flat_map foldr].
    + congruence.
    + by rewrite B2, A3, app_assoc.
    + apply Forall_app. split; [by eapply outcome_rows_wf|done].
    + by rewrite B4, A4, app_assoc.
    + intros f. rewrite B5, <- uwrap_add_l, A5, uwrap_add_l, <- Z.add_assoc. f_equal. f_equal. rewrite !lenZ_app.
      destruct f, o; unfold lenZ; cbn [outcome_counts outcome_rows outcome_sent length]; lia.
Qed.
End Effects.

(** ** Segments *)

Lemma text_of_app a b : text_of (a ++ b) = text_of a +:+ text_of b.
Proof. induction a as [|x a IH]; [done|]. cbn [text_of app]. by rewrite str_cons_app, IH. Qed.

Lemma text_of_len l : str_len (text_of l) = lenZ l.
Proof. unfold str_len, lenZ. f_equal. induction l as [|x l IH]; [done|]. cbn [text_of String.length length]. by rewrite IH. Qed.

Lemma str_len_app a b : str_len (a +:+ b) = str_len a + str_len b.
Proof. unfold str_len. rewrite str_length_app. lia. Qed.

Lemma after_prefix_app p : forall s q r, after_prefix p s = Some r -> after_prefix p (s +:+ q) = Some (r +:+ q).
Proof.
  induction p as [|a p IH]; intros [|b s] q r; cbn [after_prefix]; try done.
  - by intros [= <-].
  - intros [= <-]. destruct (String.String b s +:+ q); done.
  - rewrite str_cons_app. cbn [after_prefix]. destruct (Ascii.eqb a b); [apply IH|done].
Qed.

Lemma after_prefix_none_app p : forall s q, after_prefix p s = None -> (slen p <= slen s)%nat -> after_prefix p (s +:+ q) = None.
Proof.
  induction p as [|a p IH]; intros [|b s] q; cbn [after_prefix String.length]; try done; try lia.
  rewrite str_cons_app. cbn [after_prefix]. destruct (Ascii.eqb a b); [|done]. intros H Hl. apply IH; [done|lia].
Qed.

Lemma str_search_bound p s : forall k, str_search p s = Some k -> (slen p + k <= slen s)%nat.
Proof.
  induction s as [|c s IH]; intros k; cbn [str_search].
  - destruct (after_prefix p EmptyString) eqn:E; [|done]. intros [= <-]. apply after_prefix_len in E. lia.
  - destruct (after_prefix p (String.String c s)) eqn:E; [intros [= <-]; apply after_prefix_len in E; lia|].
    destruct (str_search p s) as [j|]; [|done]. intros [= <-]. specialize (IH j eq_refl). cbn [String.length]. lia.
Qed.

(** The first occurrence stays the first when text is appended. *)
Lemma str_search_app p s q : forall k, str_search p s = Some k -> str_search p (s +:+ q) = Some k.
Proof.
  induction s as [|c s IH]; intros k H.
  - cbn [str_search] in H. destruct (after_prefix p EmptyString) eqn:E; [|done]. injection H as <-.
    apply (after_prefix_app _ _ q) in E. rewrite str_nil_app in *. by destruct q; cbn [str_search]; rewrite E.
  - pose proof (str_search_bound _ _ _ H) as Hb. cbn [str_search] in H. rewrite str_cons_app. cbn [str_search].
    destruct (after_prefix p (String.String c s)) eqn:E.
    + injection H as <-. apply (after_prefix_app _ _ q) in E. rewrite str_cons_app in E. by rewrite E.
    + pose proof (after_prefix_none_app _ _ q E ltac:(cbn [String.length] in *; lia)) as E'. rewrite str_cons_app in E'.
      rewrite E'. destruct (str_search p s) as [j|]; [|done]. by rewrite (IH j).
Qed.

Lemma str_take_app_le n : forall s q, (n <= slen s)%nat -> str_take n (s +:+ q) = str_take n s.
Proof.
  induction n as [|n IH]; intros [|c s] q H; cbn [String.length] in H.
  - by destruct (EmptyString +:+ q).
  - done.
  - lia.
  - rewrite str_cons_app. cbn [str_take]. by rewrite IH by lia.
Qed.

Lemma str_drop_app_le n : forall s q, (n <= slen s)%nat -> str_drop n (s +:+ q) = str_drop n s +:+ q.
Proof.
  induction n as [|n IH]; intros [|c s] q H; cbn [String.length] in H; try lia; [done|done|].
  rewrite str_cons_app. cbn [str_drop]. by apply IH; lia.
Qed.

(** A whole request: its head, its Content-Length and its body. *)
Record request_text (req head body : string) : Prop := {
  rq_text : req = head +:+ (CRLF +:+ CRLF) +:+ body;
  rq_end : str_search (CRLF +:+ CRLF) req = Some (slen head);
  rq_head : parseHeaderBlock head = Some (Some (str_len body, "POST"));
  rq_size : str_len req <= kMaxRequest;
}.

(** The connection's state while [req] is on its way. *)
Definition partial (head body p : string) : ConnState :=
  match str_search (CRLF +:+ CRLF) p with
  | None => mkState p false 0
  | Some _ => mkState (str_drop (slen head + 4) p) true (str_len body)
  end.

(** The stage after some more text. *)
Lemma headerStage_partial req head body p q x : request_text req head body -> req = (p +:+ q) +:+ x ->
  headerStage (mkState (cs_buf (partial head body p) +:+ q) (cs_headerParsed (partial head body p))
    (cs_contentLen (partial head body p))) =
  Some (match str_search (CRLF +:+ CRLF) (p +:+ q) with
        | None => Waiting
        | Some _ => Ready (mkState (str_drop (slen head + 4) (p +:+ q)) true (str_len body))
        end).
Proof.
  intros [Ht He Hh Hs] Hx. unfold partial, headerStage.
  destruct (str_search (CRLF +:+ CRLF) p) as [k|] eqn:E; cbn [cs_buf cs_headerParsed cs_contentLen].
  - rewrite (str_search_app _ _ q _ E). pose proof (str_search_bound _ _ _ E) as Hb. change (slen (CRLF +:+ CRLF)) with 4%nat in Hb.
    rewrite Hx in He. pose proof (str_search_app _ _ (q +:+ x) _ E) as E'. rewrite str_app_assoc, He in E'. injection E' as <-.
    by rewrite str_drop_app_le by lia.
  - destruct (str_search (CRLF +:+ CRLF) (p +:+ q)) as [k|] eqn:E2; [|done].
    pose proof (str_search_app _ _ x _ E2) as E'. rewrite <- Hx, He in E'. injection E' as <-.
    pose proof (str_search_bound _ _ _ E2) as Hb. change (slen (CRLF +:+ CRLF)) with 4%nat in Hb.
    assert (str_take (slen head) (p +:+ q) = head) as ->.
    { rewrite <- (str_take_app_le _ _ x) by lia. rewrite <- Hx, Ht. apply str_take_app. }
    by rewrite Hh.
Qed.

Section Segments.
Variable llround_invalid : Z -> Z.

(** What handling a request adds, whatever was there before. *)
Record answers (s s' : HttpIngest) (rows : list RowBatch) (texts : list (nat * string)) (adds : Stat -> Z) : Prop := {
  an_port : hi_port s' = hi_port s;
  an_conns : hi_conns s' = hi_conns s;
  an_write : hi_write s' = hi_write s ++ rows;
  an_sent : hi_sent s' = hi_sent s ++ texts;
  an_stats : forall f, u64 (hi_stats s' f) = u64 (hi_stats s f + adds f);
}.

Definition stat_is (g f : Stat) : Z := if decide (f = g) then 1 else 0.

Lemma reject_answers c code body s :
  answers s (reject c code body s) [] [(cn_addr c, responseText code body)] (stat_is HttpErrors).
Proof.
  constructor; cbn [reject sendResponse hi_count hi_port hi_conns hi_write hi_sent hi_stats]; try done; [by rewrite app_nil_r|].
  intros f. apply u64_fetch_add.
Qed.

Lemma handleRequest_answers db c body t port : exists rows texts adds, forall s, hi_port s = port ->
  exists s', handleRequest llround_invalid db c body t s = Some s' /\ answers s s' rows texts adds.
Proof.
  unfold handleRequest. 
  assert (forall code text, exists rows texts adds, forall s : HttpIngest, hi_port s = port ->
    exists s', Some (reject c code text s) = Some s' /\ answers s s' rows texts adds) as Hrej.
  { intros code text. eexists _, _, _. intros s _. eexists. split; [done|]. apply reject_answers. }
  destruct (matchHttpDevice db (cn_ip c) (cn_port c) port) as [dev|] eqn:Em.
  2:{ destruct (Hrej 404 (bodyErrorText "unknown device")) as (r & x & a & H). exists r, x, a. intros s Hp. rewrite Hp, Em. by apply H. }
  destruct (s_fields (d_spec (p_desc dev))) as [|f0 fs] eqn:Ef.
  { destruct (Hrej 400 (bodyErrorText "no field layout")) as (r & x & a & H). exists r, x, a. intros s Hp. rewrite Hp, Em, Ef. by apply H. }
  set (cells := replicate (Z.to_nat (fieldCount (p_desc dev))) (mkCell 0 1)).
  pose proof (parseJsonFields_ends llround_invalid body (d_spec (p_desc dev)) cells) as Hj.
  destruct (parseJsonFields llround_invalid body (d_spec (p_desc dev)) cells) as [m cells'|cells'|] eqn:Ej; [| |done].
  2:{ destruct (Hrej 400 (bodyErrorText "json")) as (r & x & a & H). exists r, x, a. intros s Hp.
      rewrite Hp, Em, Ef. fold cells. rewrite Ej. by apply H. }
  exists [mkBatch (Some dev) [toMs t] cells'], [(cn_addr c, responseText 200 (bodyOk (d_deviceId (p_desc dev)) m))],
    (fun f => stat_is HttpRequests f + stat_is HttpRows f). intros s Hp. rewrite Hp, Em, Ef. fold cells. rewrite Ej.
  eexists. split; [done|]. constructor; cbn [sendResponse hi_count hi_enqueue hi_port hi_conns hi_write hi_sent hi_stats]; try done.
  intros f. rewrite u64_fetch_add, <- uwrap_add_l, u64_fetch_add, uwrap_add_l, Z.add_assoc. done.
Qed.

Lemma partial_len head body p : str_len (cs_buf (partial head body p)) <= str_len p.
Proof.
  unfold partial, str_len. destruct (str_search _ p); cbn [cs_buf]; [|lia]. rewrite str_drop_len. lia.
Qed.

(** A message that brings some more of a request. *)
Lemma httpMessage_step db c data t s req head body p x : request_text req head body -> data <> [] ->
  hi_conns s !! cn_addr c = Some (partial head body p) -> req = (p +:+ text_of data) +:+ x ->
  let st := partial head body (p +:+ text_of data) in
  let s1 := set_conns (<[cn_addr c := st]> (hi_conns s)) (hi_count BytesIn (lenZ data) s) in
  httpMessage llround_invalid db c data t s =
    if cs_headerParsed st && (str_len body <=? str_len (cs_buf st))
    then s' ← handleRequest llround_invalid db c (str_take (Z.to_nat (str_len body)) (cs_buf st)) t s1; Some (s', [])
    else Some (s1, []).
Proof.
  intros Hreq Hd Hc Hx st s1. unfold httpMessage. destruct data as [|b data]; [done|]. set (d := b :: data) in *.
  cbn [hi_conns hi_count]. rewrite Hc. cbn [default]. pose proof (headerStage_partial _ _ _ _ _ _ Hreq Hx) as Hst.
  pose proof (partial_len head body p) as Hl. unfold id.
  set (st0 := mkState _ _ _) in *.
  assert (str_len (cs_buf st0) <= kMaxRequest) as Hsz.
  { transitivity (str_len req); [|apply Hreq]. rewrite Hx. unfold st0. cbn [cs_buf]. rewrite !str_len_app.
    unfold str_len at 5. lia. }
  destruct (Z.ltb_spec kMaxRequest (str_len (cs_buf st0))); [lia|]. rewrite Hst. cbn [mbind option_bind].
  unfold s1, st. unfold partial at 1 2 3 4 5. destruct (str_search (CRLF +:+ CRLF) (p +:+ text_of d)) as [k|] eqn:E;
    cbn [cs_headerParsed cs_buf cs_contentLen andb].
  - rewrite Z.leb_antisym. by destruct (str_len (str_drop (slen head + 4) (p +:+ text_of d)) <? str_len body).
  - assert (st0 = mkState (p +:+ text_of d) false 0) as ->; [|done]. unfold st0, partial.
    destruct (str_search (CRLF +:+ CRLF) p) as [k|] eqn:E'; [|done]. by rewrite (str_search_app _ _ _ _ E') in E.
Qed.

(** Only the whole request is complete. *)
Lemma partial_incomplete req head body p x : request_text req head body -> req = p +:+ x -> x <> EmptyString ->
  cs_headerParsed (partial head body p) && (str_len body <=? str_len (cs_buf (partial head body p))) = false.
Proof.
  intros [Ht He Hh Hs] Hx Hne. unfold partial. destruct (str_search _ p) as [k|] eqn:E; cbn [cs_headerParsed cs_buf andb]; [|done].
  pose proof (str_search_app _ _ x _ E) as E'. rewrite <- Hx, He in E'. injection E' as <-.
  pose proof (str_search_bound _ _ _ E) as Hb. change (slen (CRLF +:+ CRLF)) with 4%nat in Hb.
  apply Z.leb_gt. rewrite Hx in Ht. apply (f_equal slen) in Ht. rewrite !str_length_app in Ht.
  change (slen CRLF) with 2%nat in Ht. unfold str_len. rewrite str_drop_len. destruct x; [done|]. cbn [String.length] in Ht. lia.
Qed.

Lemma partial_whole req head body : request_text req head body -> partial head body req = mkState body true (str_len body).
Proof.
  intros [Ht He Hh Hs]. unfold partial. rewrite He. f_equal. rewrite Ht, str_app_assoc.
  replace (slen head + 4)%nat with (slen (head +:+ (CRLF +:+ CRLF))) by (rewrite str_length_app; done). apply str_drop_app.
Qed.

(** Any number of messages short of the whole request. *)
Lemma httpRun_waits db c req head body segs : forall s p x, request_text req head body ->
  Forall (fun dt => fst dt <> []) segs ->
  hi_conns s !! cn_addr c = Some (partial head body p) -> req = (p +:+ text_of (concat (map fst segs))) +:+ x -> x <> EmptyString ->
  exists s', httpRun llround_invalid db s (map (fun dt => Received c (fst dt) (snd dt)) segs) = Some s' /\
    hi_conns s' !! cn_addr c = Some (partial head body (p +:+ text_of (concat (map fst segs)))) /\
    hi_port s' = hi_port s /\ hi_write s' = hi_write s /\ hi_sent s' = hi_sent s /\
    forall f, u64 (hi_stats s' f) = u64 (hi_stats s f + lenZ (concat (map fst segs)) * stat_is BytesIn f).
Proof.
  induction segs as [|[d t] segs IH]; intros s p x Hreq Hf Hc Hx Hne; cbn [map concat fst snd httpRun] in *.
  - exists s. change (text_of []) with EmptyString. rewrite str_app_nil_r. split_and!; try done. intros f. by rewrite Z.add_0_r.
  - apply Forall_cons in Hf as [Hd Hf]. rewrite text_of_app in *.
    assert (req = (p +:+ text_of d) +:+ (text_of (concat (map fst segs)) +:+ x)) as Hx1 by (rewrite Hx; by rewrite !str_app_assoc).
    assert (text_of (concat (map fst segs)) +:+ x <> EmptyString) as Hne1.
    { intros E. apply (f_equal slen) in E. rewrite str_length_app in E. destruct x; [done|]. cbn [String.length] in E. lia. }
    cbn [httpStep]. rewrite (httpMessage_step db c d t s req head body p _ Hreq Hd Hc Hx1).
    rewrite (partial_incomplete req head body _ _ Hreq Hx1 Hne1). cbn [mbind option_bind].
    destruct (IH (set_conns (<[cn_addr c := partial head body (p +:+ text_of d)]> (hi_conns s)) (hi_count BytesIn (lenZ d) s))
      (p +:+ text_of d) x Hreq Hf) as (s' & E & H1 & H2 & H3 & H4 & H5);
      [by cbn; rewrite lookup_insert_eq|rewrite Hx; by rewrite !str_app_assoc|done|].
    exists s'. split; [done|]. split_and!; try done; [by rewrite H1, str_app_assoc|].
    intros f. rewrite H5. cbn [set_conns hi_stats hi_count]. rewrite <- uwrap_add_l, u64_fetch_add, uwrap_add_l, <- Z.add_assoc.
    rewrite lenZ_app. unfold stat_is. do 2 f_equal. case_decide; lia.
Qed.
End Segments.

(** ** Properties *)


(** C33: a flat JSON object a client writes is read as it means, with any
    whitespace in each gap and anything behind the closing brace.  Keys and
    strings may hold any characters, escaped ones as a line feed, a tab, a
    carriage return, a quote, a backslash or a slash (the other escapes of JSON
    are not decoded, see [json_escapes_kept]).  An integer below 2^53 in
    magnitude reaches the cell of the first field of its name exactly, as a
    double or as a 64-bit integer; a decimal, with or without fraction and
    exponent, up to the largest double, as the nearest double, ties to even -
    judged against all doubles, not by how it is computed - or as that double
    rounded to an integer, halves away from zero, or whether it is 0 for a
    Boolean field; [true] and [false] as 1 and 0; [null] and strings make the
    cell NULL.  Pairs count in order, so that the last of several equal keys
    remains; other keys change nothing; and the result counts the keys that
    name a field. *)
Theorem parseJsonFields_reads llround_invalid spec ws ws' ps rest cells :
  blanks ws -> blanks ws' -> Forall pair_ok ps ->
  exists cells', parseJsonFields llround_invalid (print_object ws ws' ps +:+ rest) spec cells =
      JOk (lenZ (filter (names_field (s_fields spec)) ps)) cells' /\
    pairs_set (s_fields spec) ps cells cells'.
Proof. apply parseJsonFields_print. Qed.

(** Two fields and a client that spells its keys and numbers in its own way. *)
Definition json_fields : list FieldDesc :=
  [http_field "temp" Float64 true; http_field "on" Bool false; http_field "n/1" IntSigned false; http_field "z" IntSigned false].

Definition plain (s : string) : list JsonChar := map Plain (String.list_ascii_of_string s).

Definition json_pairs : list JsonPair :=
  [mkPair " " (plain "n" ++ [Escaped "/" "/"; Plain "1"]) "" "  " (JDec (mkDecimal true [0; 2; 5] (Some [0; 5; 1]) (Some ("E"%char, Some true, [1])))) CRLF;
   mkPair "" [Escaped "n" "010"; Plain "t"] " " "" (JStr [Escaped "034" "034"; Escaped "t" "009"; Plain "}"]%char) "";
   mkPair "" (plain "temp") "" " " (JDec (mkDecimal false [0] (Some [1]) None)) " ";
   mkPair "" (plain "on") "" "" (JDec (mkDecimal false [5] None (Some ("e"%char, Some false, [2; 0])))) "";
   mkPair "" (plain "z") "" "" (JInt (-7)) "";
   mkPair "" (plain "z") "" "" JNone ""].

Ltac spelling := cbn [jp_key plain map app String.list_ascii_of_string];
  repeat (apply Forall_cons_2; cbn [char_ok]; [first [by split | apply (bool_decide_unpack _); by vm_compute]|]); by apply Forall_nil.
Ltac digits := split; [discriminate|repeat (apply Forall_cons_2; [lia|]); by apply Forall_nil].
Ltac number := constructor; cbn [dc_int dc_frac dc_exp];
  [digits|first [discriminate|intros ? [=]; subst; digits]|first [discriminate|intros ? ? ? [=]; subst; split; [auto|digits]]|
   vm_compute; discriminate].

Lemma parseJsonFields_reads_witness :
  parseJsonFields (fun _ => 0) (print_object CRLF "" json_pairs +:+ "x") (Demo.spec 0 0 0 0 0 json_fields) (replicate 4 (mkCell 0 1)) =
    JOk 5 [mkCell 0x3FB999999999999A 0; mkCell 1 0; mkCell (u64 (-3)) 0; mkCell (u64 (-7)) 1] /\
  exists cells', parseJsonFields (fun _ => 0) (print_object CRLF "" json_pairs +:+ "x") (Demo.spec 0 0 0 0 0 json_fields) (replicate 4 (mkCell 0 1)) =
      JOk (lenZ (filter (names_field json_fields) json_pairs)) cells' /\
    pairs_set json_fields json_pairs (replicate 4 (mkCell 0 1)) cells'.
Proof.
  split; [by vm_compute|]. apply (parseJsonFields_reads (fun _ => 0) (Demo.spec 0 0 0 0 0 json_fields)); [by vm_compute..|].
  repeat (apply Forall_cons_2; [constructor; [vm_compute; by split_and!|spelling|cbn [jp_value text_ok]]|]); [..|by apply Forall_nil].
  - number.
  - spelling.
  - number.
  - number.
  - by vm_compute.
  - exact I.
Defined.

(** What happens to the escapes that are not decoded: [\b] reads as the letter,
    and [\u0041] as five characters. *)
Lemma json_escapes_kept :
  parseString (dq +:+ "a\b\f\u0041" +:+ dq) = Some ("abfu0041", EmptyString).
Proof. by vm_compute. Qed.

(** C34: a request may arrive in any segments: after a connection opens, the
    messages of a POST whose header ends where it says and whose body has the
    announced length do nothing but count bytes until the last one, and that
    one has exactly the effect of handling the body once, with the receive time
    of the last segment. *)
Theorem httpRun_segments llround_invalid db c s req head body segs last t :
  request_text req head body -> Forall (fun dt => fst dt <> []) segs -> last <> [] ->
  req = text_of (concat (map fst segs) ++ last) ->
  exists s1 s2,
    httpRun llround_invalid db s (Opened c :: map (fun dt => Received c (fst dt) (snd dt)) segs ++ [Received c last t]) = Some s1 /\
    handleRequest llround_invalid db c body t s = Some s2 /\
    hi_write s1 = hi_write s2 /\ hi_sent s1 = hi_sent s2 /\
    forall f, u64 (hi_stats s1 f) = u64 (hi_stats s2 f + str_len req * stat_is BytesIn f).
Proof.
  intros Hreq Hf Hl Hx. cbn [httpRun httpStep mbind option_bind].
  set (s0 := httpConnection c true s). rewrite text_of_app in Hx.
  assert (text_of last <> EmptyString) as Hne by (by destruct last).
  destruct (httpRun_waits llround_invalid db c req head body segs s0 EmptyString (text_of last) Hreq Hf)
    as (s' & E & Hc & Hp & Hw & Hs & Hst); [by cbn; rewrite lookup_insert_eq|done|done|].
  rewrite str_nil_app in Hc.
  assert (forall es s1, httpRun llround_invalid db s1 (es ++ [Received c last t]) =
    s2 ← httpRun llround_invalid db s1 es; httpStep llround_invalid db s2 (Received c last t)) as Happ.
  { induction es as [|e es IH]; intros s1; cbn [app httpRun].
    - cbn [mbind option_bind]. by destruct (httpStep llround_invalid db s1 (Received c last t)).
    - destruct (httpStep llround_invalid db s1 e); [apply IH|done]. }
  rewrite Happ, E. cbn [mbind option_bind httpStep].
  rewrite (httpMessage_step _ db c last t s' req head body _ EmptyString Hreq Hl Hc) by (by rewrite str_app_nil_r).
  rewrite <- Hx, (partial_whole _ _ _ Hreq). cbn [cs_headerParsed cs_buf andb].
  rewrite (proj2 (Z.leb_le _ _)) by lia.
  assert (str_take (Z.to_nat (str_len body)) body = body) as ->.
  { unfold str_len. rewrite Nat2Z.id. rewrite <- (str_app_nil_r body) at 2. apply str_take_app. }
  destruct (handleRequest_answers llround_invalid db c body t (hi_port s)) as (rows & texts & adds & Han).
  destruct (Han s eq_refl) as (s2 & E2 & [_ _ A1 A2 A3]).
  destruct (Han (set_conns (<[cn_addr c := mkState body true (str_len body)]> (hi_conns s')) (hi_count BytesIn (lenZ last) s')))
    as (s1 & E1 & [_ _ B1 B2 B3]); [by cbn; rewrite Hp|].
  rewrite E1. exists s1, s2. split_and!; try done.
  - rewrite B1, A1. cbn. by rewrite Hw.
  - rewrite B2, A2. cbn. by rewrite Hs.
  - intros f. rewrite B3. cbn [set_conns hi_stats hi_count]. rewrite <- uwrap_add_l, u64_fetch_add, uwrap_add_l.
    rewrite <- Z.add_assoc, <- uwrap_add_l, Hst, uwrap_add_l. rewrite <- (uwrap_add_l 64 (hi_stats s2 f)), A3, uwrap_add_l.
    change (hi_stats s0) with (hi_stats s). f_equal. rewrite Hx, str_len_app, !text_of_len. unfold stat_is. case_decide; lia.
Qed.

(** A completed request is never cleared: whatever arrives on the
    connection after it - the rest of a longer body, a second request, a stray
    byte - handles the first body again, so every further message enqueues the
    same row once more and sends another response, until the buffer reaches its
    cap. *)
Theorem httpMessage_repeats llround_invalid db c s st data t s2 :
  hi_conns s !! cn_addr c = Some st -> cs_headerParsed st = true -> 0 <= cs_contentLen st <= str_len (cs_buf st) ->
  data <> [] -> str_len (cs_buf st) + lenZ data <= kMaxRequest ->
  handleRequest llround_invalid db c (str_take (Z.to_nat (cs_contentLen st)) (cs_buf st)) t s = Some s2 ->
  exists s1, httpMessage llround_invalid db c data t s = Some (s1, []) /\
    hi_write s1 = hi_write s2 /\ hi_sent s1 = hi_sent s2 /\
    hi_conns s1 !! cn_addr c = Some (mkState (cs_buf st +:+ text_of data) true (cs_contentLen st)).
Proof.
  intros Hc Hh Hl Hd Hs E. destruct data as [|b data]; [done|]. unfold httpMessage. set (d := b :: data) in *.
  cbn [hi_conns hi_count]. rewrite Hc. cbn [default]. unfold id. cbn [cs_buf].
  rewrite str_len_app, text_of_len. destruct (Z.ltb_spec kMaxRequest (str_len (cs_buf st) + lenZ d)); [lia|].
  unfold headerStage. cbn [cs_headerParsed]. rewrite Hh. cbn [mbind option_bind cs_buf cs_contentLen].
  pose proof (lenZ_nonneg d). rewrite str_len_app, text_of_len. destruct (Z.ltb_spec (str_len (cs_buf st) + lenZ d) (cs_contentLen st)); [lia|].
  rewrite str_take_app_le by (unfold str_len in *; lia).
  destruct (handleRequest_answers llround_invalid db c (str_take (Z.to_nat (cs_contentLen st)) (cs_buf st)) t (hi_port s))
    as (rows & texts & adds & Han).
  destruct (Han s eq_refl) as (s2' & E2 & [_ _ A1 A2 _]). rewrite E in E2. injection E2 as <-.
  match goal with |- context [handleRequest _ _ _ _ _ ?q] => destruct (Han q eq_refl) as (s1 & E1 & [_ B0 B1 B2 _]) end.
  rewrite E1. cbn [mbind option_bind]. exists s1. split_and!; [done|by rewrite A1|by rewrite A2|].
  rewrite B0. cbn [set_conns hi_conns]. by rewrite lookup_insert_eq.
Qed.

(** ** A server and a request *)

Fixpoint bytes_of (s : string) : list Z :=
  match s with String.String c s' => code c :: bytes_of s' | String.EmptyString => [] end.

Definition http_db : ConfigDB :=
  mkDB [Demo.dev "web" CONN_HTTP (Demo.spec 0 0 0 0 0 [http_field "n" IntSigned false; http_field "x" Float64 true]) false]
    ∅ [] [8080] [] ∅ ∅ {[8080 := 0%nat]}.

Definition http_server : HttpIngest := httpStart http_db (mkHttp 0) (newHttpIngest AdapterStats0).

Definition web_client : TcpConn := mkConn 3 "10.0.0.7" 50123.

Definition web_head : string :=
  "POST / HTTP/1.1" +:+ CRLF +:+ "Host: adapter" +:+ CRLF +:+ "content-LENGTH: 8".
Definition web_body : string := "{" +:+ quoted "n" +:+ ":-5}".
Definition web_request : string := web_head +:+ (CRLF +:+ CRLF) +:+ web_body.

Definition web_device : DevicePtr :=
  mkPtr 0 (Demo.dev "web" CONN_HTTP (Demo.spec 0 0 0 0 0 [http_field "n" IntSigned false; http_field "x" Float64 true]) false).

Definition web_segments : list (list Z * Z) :=
  [(bytes_of "POST / HTTP/1.1", 1000); (bytes_of (CRLF +:+ "Host: adapter" +:+ CRLF +:+ "content-LENGTH: 8" +:+ CRLF), 2000)].

Lemma httpRun_segments_witness :
  exists s1 s2,
    httpRun (fun _ => 0) http_db http_server
      (Opened web_client :: map (fun dt => Received web_client (fst dt) (snd dt)) web_segments ++
       [Received web_client (bytes_of (CRLF +:+ web_body)) 3000]) = Some s1 /\
    handleRequest (fun _ => 0) http_db web_client web_body 3000 http_server = Some s2 /\
    hi_write s1 = [mkBatch (Some web_device) [3] [mkCell (2 ^ 64 - 5) 0; mkCell 0 1]] /\ hi_sent s1 = hi_sent s2.
Proof.
  destruct (httpRun_segments (fun _ => 0) http_db web_client http_server web_request web_head web_body web_segments
    (bytes_of (CRLF +:+ web_body)) 3000) as (s1 & s2 & E1 & E2 & Hw & Hs & _).
  - constructor; vm_compute; first [reflexivity|discriminate].
  - repeat (apply Forall_cons; split; [vm_compute; discriminate|]). apply Forall_nil. exact I.
  - vm_compute. discriminate.
  - vm_compute. reflexivity.
  - exists s1, s2. split_and!; [exact E1|exact E2| |exact Hs]. rewrite Hw.
    assert (option_map hi_write (handleRequest (fun _ => 0) http_db web_client web_body 3000 http_server) =
      Some [mkBatch (Some web_device) [3] [mkCell (2 ^ 64 - 5) 0; mkCell 0 1]]) as H by (vm_compute; reflexivity).
    rewrite E2 in H. injection H as H. exact H.
Defined.

(** One stray byte after the request: the row is enqueued again. *)
Lemma httpMessage_repeats_witness :
  let done := set_conns {[3%nat := mkState web_body true 8]} http_server in
  exists s1, httpMessage (fun _ => 0) http_db web_client [10] 9000 done = Some (s1, []) /\
    hi_write s1 = [mkBatch (Some web_device) [9] [mkCell (2 ^ 64 - 5) 0; mkCell 0 1]] /\
    hi_conns s1 !! 3%nat = Some (mkState (web_body +:+ text_of [10]) true 8).
Proof.
  intros done_.
  assert (option_map hi_write (handleRequest (fun _ => 0) http_db web_client web_body 9000 done_) =
    Some [mkBatch (Some web_device) [9] [mkCell (2 ^ 64 - 5) 0; mkCell 0 1]]) as H by (vm_compute; reflexivity).
  destruct (handleRequest (fun _ => 0) http_db web_client web_body 9000 done_) as [s2|] eqn:E; [|discriminate].
  destruct (httpMessage_repeats (fun _ => 0) http_db web_client done_ (mkState web_body true 8) [10] 9000 s2)
    as (s1 & E1 & Hw & _ & Hc).
  - vm_compute. reflexivity.
  - reflexivity.
  - vm_compute. split; discriminate.
  - discriminate.
  - vm_compute. discriminate.
  - exact E.
  - exists s1. split_and!; [exact E1| |exact Hc]. rewrite Hw. injection H as H. exact H.
Defined.
