(* ===== verification/ModbusPoller.v ===== *)
(** * The modbus poller

    [src/src/adapter/ModbusPoller.{h,cpp}]: one thread per modbus device that
    keeps a link to it and sends a register-read request every interval.

    What a thread learns from its surroundings in one turn of its loop - the
    result of the connect, of [sendAll] and of the [recv] calls, whether it was
    stopped and for how long it slept - is an input ([PollEnv]); what it does is
    a list of actions. *)

From stdpp Require Import base list numbers strings.
From Stdlib Require Import ZArith Lia.
From S2P Require Import Prelude DeviceModel ConfigDB AdapterConfig FrameCodec FrameCodecProps Pipeline.
Local Open Scope Z_scope.

(** ** Requests *)

(** [buildRequest]: the 12 bytes and the next transaction id. *)
Definition buildRequest (tid : Z) (spec : FrameSpec) : list Z * Z :=
  let tid := if tid =? 0xFF then 1 else tid in
  let t := tid in
  ([u8 (Z.shiftr t 8); u8 (Z.land t 0xFF); 0; 0; 0; 6;
    u8 (Z.land (s_slaveAddr spec) 0xFF); u8 (Z.land (s_funCode spec) 0xFF);
    u8 (Z.land (Z.shiftr (s_startAddr spec) 8) 0xFF); u8 (Z.land (s_startAddr spec) 0xFF);
    u8 (Z.land (Z.shiftr (s_addrNum spec) 8) 0xFF); u8 (Z.land (s_addrNum spec) 0xFF)], u16 (tid + 1)).

(** ** Sessions *)

(** [struct ModbusPoller::Session]; the statistics of the adapter are kept
    beside it. *)
Record Session := mkSession {
  ss_dev : DevicePtr;
  ss_fd : option Z;
  ss_tid : Z;
  ss_failStreak : Z;
  ss_sent : Z;
  ss_conns : Z;
  ss_errors : Z;
  ss_pushedBack : Z;
}.

Definition newSession (dev : DevicePtr) : Session := mkSession dev None 1 0 0 0 0 0.

(** [ModbusPoller::start]: the devices that get a session. *)
Definition polled (d : DeviceDesc) : bool :=
  (d_connProto d =? CONN_MODBUS) && hasModbusRequest (d_spec d) &&
  match s_fields (d_spec d) with [] => false | _ :: _ => true end && isModbusHeaderLen (d_spec d).

Fixpoint pollerSessions (i : nat) (devices : list DeviceDesc) : list Session :=
  match devices with
  | [] => []
  | d :: ds =>
      if polled d then newSession (mkPtr i d) :: pollerSessions (S i) ds else pollerSessions (S i) ds
  end.

Definition pollerStart (db : ConfigDB) : list Session := pollerSessions 0 (db_devices db).

(** [ModbusPoller::stop], once the threads have ended: no session is left; the
    totals are what it reports. *)
Definition pollerStop (sessions : list Session) : list Session * (Z * Z) :=
  ([], (foldr (fun s n => u64 (ss_sent s + n)) 0 sessions, foldr (fun s n => u64 (ss_errors s + n)) 0 sessions)).

(** [closeSession] *)
Definition closeSession (s : Session) : Session :=
  mkSession (ss_dev s) None (ss_tid s) (ss_failStreak s) (ss_sent s) (ss_conns s) (ss_errors s) (ss_pushedBack s).

(** [++s->errors] *)
Definition inc_errors (s : Session) : Session :=
  mkSession (ss_dev s) (ss_fd s) (ss_tid s) (ss_failStreak s) (ss_sent s) (ss_conns s) (u64 (ss_errors s + 1)) (ss_pushedBack s).

(** A failed connect.  (Overflow of an [int], undefined in C++, is taken to
    wrap around.) *)
Definition connect_failed (s : Session) : Session :=
  mkSession (ss_dev s) (ss_fd s) (ss_tid s) (swrap 32 (ss_failStreak s + 1)) (ss_sent s) (ss_conns s) (u64 (ss_errors s + 1)) (ss_pushedBack s).

(** A new link. *)
Definition connect_done (fd : Z) (s : Session) : Session :=
  mkSession (ss_dev s) (Some fd) (ss_tid s) 0 (ss_sent s) (u64 (ss_conns s + 1)) (ss_errors s) (ss_pushedBack s).

Definition set_tid (tid : Z) (s : Session) : Session :=
  mkSession (ss_dev s) (ss_fd s) tid (ss_failStreak s) (ss_sent s) (ss_conns s) (ss_errors s) (ss_pushedBack s).

Definition inc_sent (s : Session) : Session :=
  mkSession (ss_dev s) (ss_fd s) (ss_tid s) (ss_failStreak s) (u64 (ss_sent s + 1)) (ss_conns s) (ss_errors s) (ss_pushedBack s).

Definition add_pushedBack (n : Z) (s : Session) : Session :=
  mkSession (ss_dev s) (ss_fd s) (ss_tid s) (ss_failStreak s) (ss_sent s) (ss_conns s) (ss_errors s) (u64 (ss_pushedBack s + n)).

(** [sleepMs]: the milliseconds slept, when [_running] is seen true [ticks]
    times. *)
Fixpoint sleepMs (ticks : nat) (ms : Z) : Z :=
  match ticks with
  | O => 0
  | S ticks' =>
      if 0 <? ms then
        let step := if ms >? 100 then 100 else ms in
        step + sleepMs ticks' (ms - step)
      else 0
  end.

(** [drainIncoming]: [reads] are the results of [recv] while [select] reports
    something readable. *)
Fixpoint drainIncoming (reads : list Z) (s : Session) : Session :=
  match ss_fd s, reads with
  | Some _, n :: reads' => if n <=? 0 then closeSession s else drainIncoming reads' (add_pushedBack n s)
  | _, _ => s
  end.

(** ** One turn of the loop of [runDevice] *)

Record PollEnv := mkPoll {
  pe_connect : option Z;    (* the socket [nonBlockingConnect] returns *)
  pe_running : bool;        (* [_running] when it is loaded again *)
  pe_shut : bool;           (* [stop] closed the link before the send *)
  pe_sent : Z;              (* the result of [sendAll] *)
  pe_drain : list Z;        (* the results of [recv] *)
  pe_ticks : nat;           (* how often [sleepMs] sees [_running] true *)
}.

Inductive PollAction :=
| DidConnect (ip : string) (port timeoutMs : Z)
| DidSend (bytes : list Z) (sent : Z)
| DidSleep (ms slept : Z).

(** The session, the statistics, the actions, and whether the loop goes on. *)
Definition pollOnce (cfg : ModbusConfig) (s : Session) (stats : AdapterStats) (e : PollEnv)
    : Session * AdapterStats * list PollAction * bool :=
  let dev := p_desc (ss_dev s) in
  let sleep ms := DidSleep ms (sleepMs (pe_ticks e) ms) in
  let connect := DidConnect (d_ip dev) (d_devicePort dev) (connectTimeoutMs cfg) in
  let send (s : Session) (acts : list PollAction) :=
    if negb (pe_running e) then (s, stats, acts, false)
    else
      let '(req, tid) := buildRequest (ss_tid s) (d_spec dev) in
      let s := set_tid tid s in
      let s := if pe_shut e then closeSession s else s in
      let '(sentLen, acts) := match ss_fd s with Some _ => (pe_sent e, acts ++ [DidSend req (pe_sent e)]) | None => (0, acts) end in
      if negb (sentLen =? 12) then (closeSession (inc_errors s), stats, acts ++ [sleep 500], true)
      else
        let s := drainIncoming (pe_drain e) (inc_sent s) in
        (s, fetch_add ModbusRequests 1 stats, acts ++ [sleep (pollIntervalMs cfg)], true) in
  match ss_fd s with
  | Some _ => send s []
  | None =>
      match pe_connect e with
      | None =>
          let s := connect_failed s in
          let backoff := Z.min (swrap 32 (ss_failStreak s * 2)) 8 in
          (s, stats, [connect; sleep (swrap 32 (pollIntervalMs cfg * backoff))], true)
      | Some fd => send (connect_done fd s) [connect]
      end
  end.

(** [runDevice] while [_running] is true at the head of the loop for the given
    turns, then stopped. *)
Fixpoint pollLoop (cfg : ModbusConfig) (s : Session) (stats : AdapterStats) (es : list PollEnv)
    : Session * AdapterStats * list PollAction :=
  match es with
  | [] => (s, stats, [])
  | e :: es' =>
      let '(s, stats, acts, go) := pollOnce cfg s stats e in
      if go then let '(s, stats, acts') := pollLoop cfg s stats es' in (s, stats, acts ++ acts')
      else (s, stats, acts)
  end.

Definition runDevice (cfg : ModbusConfig) (s : Session) (stats : AdapterStats) (es : list PollEnv)
    : Session * AdapterStats * list PollAction :=
  let '(s, stats, acts) := pollLoop cfg s stats es in (closeSession s, stats, acts).

(** ** What a device sees *)

Record ModbusRequest := mkRead { mr_tid : Z; mr_unit : Z; mr_function : Z; mr_address : Z; mr_count : Z }.

(** A Modbus/TCP read request: transaction, protocol 0, length, unit, function,
    address and count, big endian. *)
Definition decodeRequest (bytes : list Z) : option ModbusRequest :=
  match bytes with
  | [t1; t0; p1; p0; l1; l0; u; f; a1; a0; n1; n0] =>
      if (p1 * 256 + p0 =? 0) && (l1 * 256 + l0 =? lenZ [u; f; a1; a0; n1; n0])
      then Some (mkRead (t1 * 256 + t0) u f (a1 * 256 + a0) (n1 * 256 + n0)) else None
  | _ => None
  end.

(** The requests sent, whole or not. *)
Definition sends (acts : list PollAction) : list (list Z * Z) :=
  omap (fun a => match a with DidSend b n => Some (b, n) | _ => None end) acts.

(** The requests sent whole. *)
Definition full_sends (acts : list PollAction) : list (list Z) :=
  omap (fun a => match a with DidSend b n => if n =? 12 then Some b else None | _ => None end) acts.

(** ** Transaction ids *)

Lemma bytes_of_16 v : u8 (Z.land (Z.shiftr v 8) 0xFF) * 256 + u8 (Z.land v 0xFF) = v mod 2 ^ 16.
Proof.
  change 0xFF with (Z.ones 8). rewrite !Z.land_ones, Z.shiftr_div_pow2 by lia. unfold uwrap. rewrite !Z.mod_mod by lia.
  pose proof (Z.div_mod v 256 ltac:(lia)). pose proof (Z.div_mod (v / 256) 256 ltac:(lia)).
  pose proof (Z.mod_pos_bound v 256 ltac:(lia)). pose proof (Z.mod_pos_bound (v / 256) 256 ltac:(lia)).
  change (2 ^ 8) with 256. apply (Z.mod_unique _ _ (v / 256 / 256)); lia.
Qed.

(** A built request read back. *)
Lemma buildRequest_decodes tid spec : 1 <= tid <= 255 ->
  let id := if tid =? 255 then 1 else tid in
  decodeRequest (fst (buildRequest tid spec)) =
    Some (mkRead id (s_slaveAddr spec mod 256) (s_funCode spec mod 256) (s_startAddr spec mod 2 ^ 16) (s_addrNum spec mod 2 ^ 16)) /\
  snd (buildRequest tid spec) = id + 1.
Proof.
  intros Ht id. unfold buildRequest. fold id. assert (1 <= id <= 254) as Hid by (unfold id; destruct (Z.eqb_spec tid 255); lia).
  cbn [fst snd]. split; [|apply uwrap_small; lia]. unfold decodeRequest.
  change ((0 * 256 + 0 =? 0) && (0 * 256 + 6 =? lenZ _)) with true. cbv iota.
  rewrite <- !bytes_of_16. assert (u8 (Z.shiftr id 8) * 256 + u8 (Z.land id 255) = id) as ->.
  { change 255 with (Z.ones 8). rewrite Z.land_ones, Z.shiftr_div_pow2 by lia. rewrite (Z.div_small id (2 ^ 8)) by lia.
    rewrite Z.mod_small by lia. rewrite !uwrap_small by lia. lia. }
  assert (forall v, u8 (Z.land v 255) = v mod 256) as Hb.
  { intros v. change 255 with (Z.ones 8). rewrite Z.land_ones by lia. unfold uwrap. by rewrite Z.mod_mod. }
  by rewrite !Hb.
Qed.

(** The session's counter after [k] requests. *)
Definition tid_after (k : Z) : Z := if k =? 0 then 1 else (k - 1) mod 254 + 2.

Lemma tid_after_next k : 0 <= k -> 1 <= tid_after k <= 255 /\
  (if tid_after k =? 255 then 1 else tid_after k) = k mod 254 + 1 /\ tid_after (k + 1) = k mod 254 + 2.
Proof.
  intros Hk. unfold tid_after. rewrite (proj2 (Z.eqb_neq (k + 1) 0)) by lia. replace (k + 1 - 1) with k by lia.
  destruct (Z.eqb_spec k 0) as [->|]; [done|]. pose proof (Z.mod_pos_bound (k - 1) 254 ltac:(lia)).
  pose proof (Z.div_mod (k - 1) 254 ltac:(lia)). split; [lia|]. split; [|done].
  destruct (Z.eqb_spec ((k - 1) mod 254 + 2) 255).
  - rewrite <- (Z.mod_unique k 254 ((k - 1) / 254 + 1) 0); lia.
  - rewrite <- (Z.mod_unique k 254 ((k - 1) / 254) ((k - 1) mod 254 + 1)); lia.
Qed.

(** The [k]-th request of a device. *)
Definition request_at (spec : FrameSpec) (k : nat) : ModbusRequest :=
  mkRead (Z.of_nat k mod 254 + 1) (s_slaveAddr spec mod 256) (s_funCode spec mod 256)
    (s_startAddr spec mod 2 ^ 16) (s_addrNum spec mod 2 ^ 16).

Lemma drain_keeps reads : forall s, ss_dev (drainIncoming reads s) = ss_dev s /\ ss_tid (drainIncoming reads s) = ss_tid s /\
  ss_failStreak (drainIncoming reads s) = ss_failStreak s.
Proof.
  induction reads as [|n reads IH]; intros s; cbn [drainIncoming]; destruct (ss_fd s); try done.
  destruct (n <=? 0); [done|]. apply (IH (add_pushedBack n s)).
Qed.

Definition calm (s s2 : Session) : Prop := ss_failStreak s2 = ss_failStreak s \/ ss_failStreak s2 = 0.

(** A link, the old one or a new one. *)
Definition linked (s : Session) (e : PollEnv) (s1 : Session) (pre : list PollAction) : Prop :=
  is_Some (ss_fd s1) /\ (ss_dev s1 = ss_dev s /\ ss_tid s1 = ss_tid s /\ calm s s1) /\ sends pre = [] /\ full_sends pre = [] /\
  Forall (fun a => match a with DidSleep _ _ => False | _ => True end) pre /\ (is_Some (ss_fd s) \/ is_Some (pe_connect e)).

(** The five ways a turn may go. *)
Inductive Turn (cfg : ModbusConfig) (s : Session) (stats : AdapterStats) (e : PollEnv) :
    Session * AdapterStats * list PollAction * bool -> Prop :=
| T_unreachable a ms : ss_fd s = None -> pe_connect e = None ->
    ms = swrap 32 (pollIntervalMs cfg * Z.min (swrap 32 (swrap 32 (ss_failStreak s + 1) * 2)) 8) ->
    sends [a] = [] -> full_sends [a] = [] -> match a with DidSleep _ _ => False | _ => True end ->
    Turn cfg s stats e (connect_failed s, stats, [a; DidSleep ms (sleepMs (pe_ticks e) ms)], true)
| T_stopped s1 pre : linked s e s1 pre -> pe_running e = false -> Turn cfg s stats e (s1, stats, pre, false)
| T_shut s1 pre s2 : linked s e s1 pre -> pe_running e = true -> pe_shut e = true ->
    ss_dev s2 = ss_dev s -> calm s s2 -> ss_tid s2 = snd (buildRequest (ss_tid s) (d_spec (p_desc (ss_dev s)))) ->
    Turn cfg s stats e (s2, stats, pre ++ [DidSleep 500 (sleepMs (pe_ticks e) 500)], true)
| T_failed s1 pre s2 : linked s e s1 pre -> pe_running e = true -> pe_shut e = false -> pe_sent e <> 12 ->
    ss_dev s2 = ss_dev s -> calm s s2 -> ss_tid s2 = snd (buildRequest (ss_tid s) (d_spec (p_desc (ss_dev s)))) ->
    Turn cfg s stats e (s2, stats,
      (pre ++ [DidSend (fst (buildRequest (ss_tid s) (d_spec (p_desc (ss_dev s))))) (pe_sent e)]) ++
      [DidSleep 500 (sleepMs (pe_ticks e) 500)], true)
| T_sent s1 pre s2 : linked s e s1 pre -> pe_running e = true -> pe_shut e = false -> pe_sent e = 12 ->
    ss_dev s2 = ss_dev s -> calm s s2 -> ss_tid s2 = snd (buildRequest (ss_tid s) (d_spec (p_desc (ss_dev s)))) ->
    Turn cfg s stats e (s2, fetch_add ModbusRequests 1 stats,
      (pre ++ [DidSend (fst (buildRequest (ss_tid s) (d_spec (p_desc (ss_dev s))))) 12]) ++
      [DidSleep (pollIntervalMs cfg) (sleepMs (pe_ticks e) (pollIntervalMs cfg))], true).

Lemma pollOnce_turn cfg s stats e : Turn cfg s stats e (pollOnce cfg s stats e).
Proof.
  unfold pollOnce. set (dev := p_desc (ss_dev s)).
  assert (forall s1 pre, linked s e s1 pre -> Turn cfg s stats e
    (if negb (pe_running e) then (s1, stats, pre, false)
     else
       let '(req, tid) := buildRequest (ss_tid s1) (d_spec dev) in
       let s := set_tid tid s1 in
       let s := if pe_shut e then closeSession s else s in
       let '(sentLen, acts) := match ss_fd s with Some _ => (pe_sent e, pre ++ [DidSend req (pe_sent e)]) | None => (0, pre) end in
       if negb (sentLen =? 12) then (closeSession (inc_errors s), stats, acts ++ [DidSleep 500 (sleepMs (pe_ticks e) 500)], true)
       else
         let s := drainIncoming (pe_drain e) (inc_sent s) in
         (s, fetch_add ModbusRequests 1 stats,
           acts ++ [DidSleep (pollIntervalMs cfg) (sleepMs (pe_ticks e) (pollIntervalMs cfg))], true))) as Hsend.
  { intros s1 pre Hl. destruct (pe_running e) eqn:Er; cbn [negb]; [|by eapply T_stopped].
    pose proof Hl as ([fd Hfd] & (Hd & Ht & Hcalm) & _). rewrite Ht. destruct (buildRequest (ss_tid s) (d_spec dev)) as [req tid] eqn:Eb.
    assert (req = fst (buildRequest (ss_tid s) (d_spec dev)) /\ tid = snd (buildRequest (ss_tid s) (d_spec dev))) as [E1 E2]
      by (by rewrite Eb).
    destruct (pe_shut e) eqn:Es; cbn [closeSession set_tid ss_fd].
    - cbn [Z.eqb negb]. by eapply T_shut.
    - rewrite Hfd. destruct (Z.eqb_spec (pe_sent e) 12) as [E12|E12]; cbn [negb].
      + rewrite E12. subst req. destruct (drain_keeps (pe_drain e) (inc_sent (set_tid tid s1))) as (D1 & D2 & D3).
        eapply T_sent; try done; [by rewrite D1|unfold calm; by rewrite D3|by rewrite D2].
      + subst req. by eapply T_failed. }
  destruct (ss_fd s) as [fd|] eqn:Ef.
  - apply Hsend. unfold linked. rewrite Ef. split_and!; try done; left; [done|by eexists].
  - destruct (pe_connect e) as [fd|] eqn:Ec.
    + apply Hsend. unfold linked. rewrite Ec. split_and!; try done; [by right|by repeat constructor|right; by eexists].
    + by eapply T_unreachable.
Qed.

Lemma sends_app a b : sends (a ++ b) = sends a ++ sends b.
Proof. apply omap_app. Qed.
Lemma full_sends_app a b : full_sends (a ++ b) = full_sends a ++ full_sends b.
Proof. apply omap_app. Qed.

(** ** Runs *)

(** The requests of a run, numbered from [k]. *)
Lemma pollLoop_requests cfg es : forall s stats k, ss_tid s = tid_after (Z.of_nat k) ->
  Forall (fun e => pe_shut e = false) es ->
  map (fun bn => decodeRequest (fst bn)) (sends (snd (pollLoop cfg s stats es))) =
    map (fun i => Some (request_at (d_spec (p_desc (ss_dev s))) i)) (seq k (length (sends (snd (pollLoop cfg s stats es))))).
Proof.
  induction es as [|e es IH]; intros s stats k Hk Hs; cbn [pollLoop]; [done|].
  apply Forall_cons in Hs as [Hse Hs].
  destruct (tid_after_next (Z.of_nat k) ltac:(lia)) as (Hr & Hid & Hn).
  assert (decodeRequest (fst (buildRequest (ss_tid s) (d_spec (p_desc (ss_dev s))))) = Some (request_at (d_spec (p_desc (ss_dev s))) k) /\
    snd (buildRequest (ss_tid s) (d_spec (p_desc (ss_dev s)))) = tid_after (Z.of_nat (S k))) as [Hdec Htid].
  { destruct (buildRequest_decodes (ss_tid s) (d_spec (p_desc (ss_dev s)))) as [D1 D2]; [by rewrite Hk|].
    rewrite D1, D2, Hk, Hid. split; [done|]. rewrite Nat2Z.inj_succ. rewrite <- Z.add_1_r, Hn. lia. }
  pose proof (pollOnce_turn cfg s stats e) as Ht. destruct (pollOnce cfg s stats e) as [[[s1 st1] acts] go].
  (* the rest of the run, from request [k'] on *)
  assert (forall k', ss_tid s1 = tid_after (Z.of_nat k') -> ss_dev s1 = ss_dev s ->
    map (fun bn => decodeRequest (fst bn)) (sends acts) = map (fun i => Some (request_at (d_spec (p_desc (ss_dev s))) i)) (seq k (k' - k)) ->
    length (sends acts) = (k' - k)%nat -> (k <= k')%nat ->
    let r := (let '(s, stats, acts') := pollLoop cfg s1 st1 es in (s, stats, acts ++ acts')) in
    map (fun bn => decodeRequest (fst bn)) (sends (snd r)) =
      map (fun i => Some (request_at (d_spec (p_desc (ss_dev s))) i)) (seq k (length (sends (snd r))))) as Hgo.
  { intros k' Ht' Hd Ha Hl Hle. specialize (IH s1 st1 k' Ht' Hs). rewrite Hd in IH.
    destruct (pollLoop cfg s1 st1 es) as [[s3 st3] acts3]. cbn [snd] in *. rewrite sends_app, map_app, length_app, Ha, IH, Hl.
    rewrite seq_app, map_app. do 2 f_equal. f_equal. lia. }
  inversion Ht as [? ? ? ? ? E1 E2 ?|? ? (?&?&Hp&?)|? ? ? (?&?&Hp&?) ? Hsh|? ? ? (?&?&Hp&?) ? ? ? ? ? Hti|? ? ? (?&?&Hp&?) ? ? ? ? ? Hti];
    subst; try congruence.
  - apply (Hgo k); try done; rewrite Nat.sub_diag; change ([a; ?x]) with ([a] ++ [x]); rewrite sends_app, E1; done.
  - cbn [snd]. by rewrite Hp.
  - apply (Hgo (S k)); [congruence|done| | |lia]; replace (S k - k)%nat with 1%nat by lia;
      rewrite !sends_app, Hp; [exact (f_equal (fun x => [x]) Hdec)|done].
  - apply (Hgo (S k)); [congruence|done| | |lia]; replace (S k - k)%nat with 1%nat by lia;
      rewrite !sends_app, Hp; [exact (f_equal (fun x => [x]) Hdec)|done].
Qed.

(** A turn whose connect and send succeed, and during which nobody stops. *)
Definition cooperative (e : PollEnv) : bool :=
  match pe_connect e with Some _ => true | None => false end && pe_running e && negb (pe_shut e) && (pe_sent e =? 12).

Definition short_sleep (cfg : ModbusConfig) (a : PollAction) : Prop :=
  match a with DidSleep _ slept => 0 <= slept <= Z.max 500 (8 * pollIntervalMs cfg) | _ => True end.

Lemma sleepMs_bound ticks : forall ms, 0 <= sleepMs ticks ms <= Z.max 0 ms.
Proof.
  induction ticks as [|ticks IH]; intros ms; cbn [sleepMs]; [lia|]. destruct (Z.ltb_spec 0 ms); [|lia].
  rewrite Z.gtb_ltb. destruct (Z.ltb_spec 100 ms); [specialize (IH (ms - 100))|specialize (IH (ms - ms))]; lia.
Qed.

(** With enough ticks the whole time is slept. *)
Lemma sleepMs_full ticks : forall ms, ms <= 100 * Z.of_nat ticks -> sleepMs ticks ms = Z.max 0 ms.
Proof.
  induction ticks as [|ticks IH]; intros ms H; cbn [sleepMs]; [lia|]. destruct (Z.ltb_spec 0 ms); [|lia].
  rewrite Z.gtb_ltb. destruct (Z.ltb_spec 100 ms); rewrite IH by lia; lia.
Qed.

(** What a turn adds to the requests, the counter and the sleeps. *)
Lemma pollOnce_adds cfg s stats e :
  let '(s', stats', acts, go) := pollOnce cfg s stats e in
  (pe_running e = true -> go = true) /\
  (cooperative e = true -> length (full_sends acts) = 1%nat) /\
  u64 (stats' ModbusRequests) = u64 (stats ModbusRequests + lenZ (full_sends acts)) /\
  (0 < pollIntervalMs cfg < 2 ^ 28 -> 0 <= ss_failStreak s < 2 ^ 30 - 1 ->
   Forall (short_sleep cfg) acts /\ 0 <= ss_failStreak s' <= ss_failStreak s + 1).
Proof.
  pose proof (pollOnce_turn cfg s stats e) as Ht.
  destruct (pollOnce cfg s stats e) as [[[s1 st1] acts] go].
  assert (forall pre, Forall (fun a => match a with DidSleep _ _ => False | _ => True end) pre -> Forall (short_sleep cfg) pre) as Hpre.
  { intros pre H. eapply Forall_impl; [exact H|]. by intros []. }
  assert (forall ms, ms <= Z.max 500 (8 * pollIntervalMs cfg) -> Forall (short_sleep cfg) [DidSleep ms (sleepMs (pe_ticks e) ms)]) as Hsl.
  { intros ms Hms. apply Forall_singleton. cbn. pose proof (sleepMs_bound (pe_ticks e) ms). lia. }
  unfold cooperative.
  inversion Ht as [a ms E1 E2 Ems E3 E4 E5|s2 pre (?&(?&?&Hc)&?&Hf&Hns&?) Er|s2 pre s3 (?&?&?&Hf&Hns&?) Er Es ? Hc ?
    |s2 pre s3 (?&?&?&Hf&Hns&?) Er Es E12 ? Hc ?|s2 pre s3 (?&?&?&Hf&Hns&?) Er Es E12 ? Hc ?]; subst.
  - rewrite E2. split_and!; [done|done| |intros Hi Hs; split].
    + change ([a; ?x]) with ([a] ++ [x]). rewrite full_sends_app, E4. cbn. by rewrite Z.add_0_r.
    + apply Forall_cons. split; [by destruct a|]. apply Hsl.
      rewrite !(swrap_small 32 (ss_failStreak s + 1)) by lia.
      destruct (decide ((ss_failStreak s + 1) * 2 < 2 ^ 31)); rewrite (swrap_small 32 ((ss_failStreak s + 1) * 2)) by lia;
        rewrite swrap_small by nia; nia.
    + cbn [connect_failed ss_failStreak]. rewrite swrap_small; lia.
  - rewrite Er. split_and!; [done|by rewrite andb_false_r|by rewrite Hf, Z.add_0_r|].
    intros Hi Hs. split; [by apply Hpre|destruct Hc; lia].
  - rewrite Es. split_and!; [done|by rewrite !andb_false_r|rewrite full_sends_app, Hf; cbn; by rewrite Z.add_0_r|].
    intros Hi Hs. split; [|destruct Hc; lia]. apply Forall_app. split; [by apply Hpre|apply Hsl; lia].
  - apply Z.eqb_neq in E12. split_and!; [done|by rewrite E12, andb_false_r| |].
    + rewrite !full_sends_app, Hf. cbn. rewrite E12. cbn. by rewrite Z.add_0_r.
    + intros Hi Hs. split; [|destruct Hc; lia]. apply Forall_app. split; [|apply Hsl; lia].
      apply Forall_app. split; [by apply Hpre|by apply Forall_singleton].
  - split_and!; [done| | |].
    + intros _. by rewrite !full_sends_app, Hf.
    + rewrite !full_sends_app, Hf. unfold fetch_add. rewrite decide_True by done. by rewrite uwrap_uwrap by lia.
    + intros Hi Hs. split; [|destruct Hc; lia]. apply Forall_app. split; [|apply Hsl; lia].
      apply Forall_app. split; [by apply Hpre|by apply Forall_singleton].
Qed.

Lemma pollLoop_adds cfg es : forall s stats, Forall (fun e => pe_running e = true) es ->
  let '(s', stats', acts) := pollLoop cfg s stats es in
  (length (filter (fun e => cooperative e = true) es) <= length (full_sends acts))%nat /\
  u64 (stats' ModbusRequests) = u64 (stats ModbusRequests + lenZ (full_sends acts)) /\
  (0 < pollIntervalMs cfg < 2 ^ 28 -> 0 <= ss_failStreak s -> ss_failStreak s + lenZ es < 2 ^ 30 ->
   Forall (short_sleep cfg) acts).
Proof.
  induction es as [|e es IH]; intros s stats Hr; cbn [pollLoop].
  { split_and!; [done|by rewrite Z.add_0_r|]. intros. by apply Forall_nil. }
  apply Forall_cons in Hr as [Hre Hr]. pose proof (pollOnce_adds cfg s stats e) as H.
  destruct (pollOnce cfg s stats e) as [[[s1 st1] acts1] go]. destruct H as (Hgo & Hco & Hst & Hsl).
  rewrite (Hgo Hre). specialize (IH s1 st1 Hr). destruct (pollLoop cfg s1 st1 es) as [[s2 st2] acts2].
  destruct IH as (I1 & I2 & I3). rewrite full_sends_app. split_and!.
  - rewrite filter_cons, length_app. destruct (decide (cooperative e = true)) as [E|E].
    + rewrite (Hco E). cbn [length]. lia.
    + lia.
  - rewrite I2, <- uwrap_add_l, Hst, uwrap_add_l, lenZ_app. f_equal. lia.
  - rewrite lenZ_cons. pose proof (lenZ_nonneg es). intros Hi H0 Hb. destruct (Hsl Hi ltac:(lia)) as [H1 H2].
    apply Forall_app. split; [done|]. apply I3; [done|lia|lia].
Qed.

(** The first [n] turns of an endless sequence. *)
Definition first (env : nat -> PollEnv) (n : nat) : list PollEnv := map env (seq 0 n).

Lemma cooperative_often env : (forall i, exists j, (i <= j)%nat /\ cooperative (env j) = true) ->
  forall n, exists k, (n <= length (filter (fun e => cooperative e = true) (first env k)))%nat.
Proof.
  intros H n. induction n as [|n [k IH]]; [exists 0%nat; lia|].
  destruct (H k) as (j & Hj & Hc). exists (S j). unfold first in *.
  replace (S j) with (k + (j - k) + 1)%nat by lia. rewrite !seq_app, !map_app, !filter_app, !length_app.
  replace (0 + (k + (j - k)))%nat with j by lia. cbn [seq map]. rewrite filter_cons, decide_True by done. cbn [length]. lia.
Qed.

(** ** Properties *)


(** C40: the poller never gets stuck: if the device can be reached and takes a
    request again and again - however rarely, and whatever fails otherwise -
    and nobody stops the poller, then any number of requests is sent in the
    end; the counter counts them (modulo 2^64), and no pause is longer than
    eight intervals or half a second. *)
Theorem runDevice_live cfg dev stats env :
  (forall i, pe_running (env i) = true) ->
  (forall i, exists j, (i <= j)%nat /\ cooperative (env j) = true) ->
  forall n, exists k,
    let '(_, stats', acts) := runDevice cfg (newSession dev) stats (first env k) in
    (n <= length (full_sends acts))%nat /\
    u64 (stats' ModbusRequests) = u64 (stats ModbusRequests + lenZ (full_sends acts)) /\
    (0 < pollIntervalMs cfg < 2 ^ 28 -> Z.of_nat k < 2 ^ 30 -> Forall (short_sleep cfg) acts).
Proof.
  intros Hr Hc n. destruct (cooperative_often env Hc n) as [k Hk]. exists k. unfold runDevice.
  assert (Forall (fun e => pe_running e = true) (first env k)) as Hrun.
  { apply Forall_forall. intros e He. unfold first in He. apply list_elem_of_fmap in He as (i & -> & _). apply Hr. }
  pose proof (pollLoop_adds cfg (first env k) (newSession dev) stats Hrun) as H.
  destruct (pollLoop cfg (newSession dev) stats (first env k)) as [[s' st'] acts]. destruct H as (H1 & H2 & H3).
  split_and!; [lia|done|]. intros Hi Hb. apply H3; [done|done|]. cbn [newSession ss_failStreak]. unfold lenZ, first.
  rewrite length_map, length_seq. lia.
Qed.

(** ** A device and its surroundings *)

Definition poll_cfg : ModbusConfig := mkModbus 3000 1000.

(** Unreachable, reached, a short send, reached again and read from. *)
Definition poll_turns : list PollEnv :=
  [mkPoll None true false 0 [] 99; mkPoll (Some 5) true false 12 [] 99; mkPoll None true false 7 [] 99;
   mkPoll (Some 6) true false 12 [100; 0] 99; mkPoll (Some 7) true false 12 [] 99].


(** Reachable every third turn only. *)
Definition poll_env (i : nat) : PollEnv :=
  if (i mod 3 =? 0)%nat then mkPoll (Some 5) true false 12 [0] 99 else mkPoll None true false 0 [] 99.

Lemma runDevice_live_witness :
  exists k, (1000 <= length (full_sends (snd (runDevice poll_cfg (newSession Demo.meter) AdapterStats0 (first poll_env k)))))%nat.
Proof.
  destruct (runDevice_live poll_cfg Demo.meter AdapterStats0 poll_env) with (n := 1000%nat) as [k H].
  - intros i. unfold poll_env. destruct (i mod 3 =? 0)%nat; reflexivity.
  - intros i. exists (3 * i)%nat. split; [lia|]. unfold poll_env. rewrite Nat.mul_comm, Nat.Div0.mod_mul. reflexivity.
  - exists k. destruct (runDevice poll_cfg (newSession Demo.meter) AdapterStats0 (first poll_env k)) as [[s' st'] acts].
    exact (proj1 H).
Defined.
