(* ===== verification/Buffer.v ===== *)
(** * The network buffer

    [src/src/net/Buffer.h] and the conversions of [src/src/base/ByteOrder.cpp]:
    a byte vector with a reader and a writer index, which the connections use
    for input and output.  A failed [assert] or an access outside the vector is
    [None]. *)

From stdpp Require Import base list numbers gmap strings.
From Stdlib Require Import ZArith Lia.
From S2P Require Import Prelude DeviceModel FrameCodec FrameCodecLoads.
Local Open Scope Z_scope.

(** ** Byte order *)

(** [ByteOrder::flipBytes]: the signed versions convert to unsigned and back. *)
Definition flip16 (v : Z) : Z :=
  u16 (Z.lor (Z.land (Z.shiftr v 8) 0x00FF) (Z.land (Z.shiftl v 8) 0xFF00)).
Definition flip32 (v : Z) : Z :=
  Z.lor (Z.lor (Z.land (Z.shiftr v 24) 0x000000FF) (Z.land (Z.shiftr v 8) 0x0000FF00))
        (Z.lor (Z.land (u32 (Z.shiftl v 8)) 0x00FF0000) (Z.land (u32 (Z.shiftl v 24)) 0xFF000000)).
Definition flip64 (v : Z) : Z :=
  let hi := u32 (Z.shiftr v 32) in
  let lo := u32 (Z.land v 0xFFFFFFFF) in
  Z.lor (flip32 hi) (u64 (Z.shiftl (flip32 lo) 32)).

(** [toNetwork] and [fromNetwork] on [n] bytes, on a little-endian host. *)
Definition flipBytes (n : nat) (v : Z) : Z :=
  match n with
  | 1%nat => v
  | 2%nat => flip16 v
  | 4%nat => flip32 v
  | _ => flip64 v
  end.

(** ** State *)

(** [class Buffer]; the capacity of the vector is not modelled. *)
Record Buffer := mkBuffer { bf_buffer : list Z; bf_reader : Z; bf_writer : Z }.

Definition kCheapPrepend : Z := 8.
Definition kInitialSize : Z := 2048.

Definition newBuffer (initialSize : Z) : Buffer :=
  mkBuffer (repeat 0 (Z.to_nat (kCheapPrepend + initialSize))) kCheapPrepend kCheapPrepend.

(** ** Accessors *)

Definition readableBytes (b : Buffer) : Z := bf_writer b - bf_reader b.
Definition writableBytes (b : Buffer) : Z := lenZ (bf_buffer b) - bf_writer b.
Definition prependableBytes (b : Buffer) : Z := bf_reader b.

(** The bytes from [peek()] to [beginWrite()]. *)
Definition readable (b : Buffer) : list Z := subBytes (bf_reader b) (readableBytes b) (bf_buffer b).

(** [std::search] for CR LF and [memchr] for LF: the offset from the start. *)
Fixpoint searchCRLF (l : list Z) : option Z :=
  match l with
  | c :: ((d :: _) as t) => if (c =? 13) && (d =? 10) then Some 0 else option_map Z.succ (searchCRLF t)
  | _ => None
  end.
Fixpoint searchEOL (l : list Z) : option Z :=
  match l with
  | c :: t => if c =? 10 then Some 0 else option_map Z.succ (searchEOL t)
  | [] => None
  end.
Definition findCRLF (b : Buffer) : option Z := searchCRLF (readable b).
Definition findEOL (b : Buffer) : option Z := searchEOL (readable b).

(** The searches from [peek() + n]; an outer [None] is a failed [assert]. *)
Definition findCRLFFrom (n : Z) (b : Buffer) : option (option Z) :=
  if (0 <=? n) && (n <=? readableBytes b) then Some (option_map (Z.add n) (searchCRLF (dropZ n (readable b)))) else None.
Definition findEOLFrom (n : Z) (b : Buffer) : option (option Z) :=
  if (0 <=? n) && (n <=? readableBytes b) then Some (option_map (Z.add n) (searchEOL (dropZ n (readable b)))) else None.

(** [toStringPiece]: the length passes through an [int]; a negative one makes the string's constructor throw. *)
Definition toStringPiece (b : Buffer) : option (list Z) :=
  let n := u64 (swrap 32 (readableBytes b)) in
  if n <=? readableBytes b then Some (subBytes (bf_reader b) n (bf_buffer b)) else None.

(** ** Retrieving *)

Definition retrieveAll (b : Buffer) : Buffer := mkBuffer (bf_buffer b) kCheapPrepend kCheapPrepend.

Definition retrieve (len : Z) (b : Buffer) : option Buffer :=
  if negb (len <=? readableBytes b) then None
  else if len <? readableBytes b then Some (mkBuffer (bf_buffer b) (bf_reader b + len) (bf_writer b))
  else Some (retrieveAll b).

(** [retrieveUntil(peek() + n)] *)
Definition retrieveUntil (n : Z) (b : Buffer) : option Buffer :=
  if (0 <=? n) && (n <=? readableBytes b) then retrieve n b else None.

Definition retrieveAsString (len : Z) (b : Buffer) : option (list Z * Buffer) :=
  if negb (len <=? readableBytes b) then None
  else b' ← retrieve len b; Some (subBytes (bf_reader b) len (bf_buffer b), b').

Definition retrieveAllAsString (b : Buffer) : option (list Z * Buffer) := retrieveAsString (readableBytes b) b.

(** ** Writing *)

Definition makeSpace (len : Z) (b : Buffer) : option Buffer :=
  let n := readableBytes b in
  if u64 (writableBytes b + prependableBytes b) <? u64 (len + kCheapPrepend) then
    buffer ← memcpy (repeat 0 (Z.to_nat (u64 (u64 (len + n) + kCheapPrepend)))) kCheapPrepend (readable b);
    Some (mkBuffer buffer kCheapPrepend (kCheapPrepend + n))
  else if negb (kCheapPrepend <? bf_reader b) then None
  else
    buffer ← memcpy (bf_buffer b) kCheapPrepend (readable b);
    Some (mkBuffer buffer kCheapPrepend (kCheapPrepend + n)).

Definition ensureWritableBytes (len : Z) (b : Buffer) : option Buffer :=
  b ← (if writableBytes b <? len then makeSpace len b else Some b);
  if len <=? writableBytes b then Some b else None.

Definition hasWritten (len : Z) (b : Buffer) : option Buffer :=
  if len <=? writableBytes b then Some (mkBuffer (bf_buffer b) (bf_reader b) (bf_writer b + len)) else None.

Definition unwrite (len : Z) (b : Buffer) : option Buffer :=
  if len <=? readableBytes b then Some (mkBuffer (bf_buffer b) (bf_reader b) (bf_writer b - len)) else None.

(** Bytes put at [beginWrite()], by [std::copy] or by a read. *)
Definition writeAt (data : list Z) (b : Buffer) : option Buffer :=
  buffer ← memcpy (bf_buffer b) (bf_writer b) data;
  Some (mkBuffer buffer (bf_reader b) (bf_writer b)).

Definition append (data : list Z) (b : Buffer) : option Buffer :=
  b ← ensureWritableBytes (lenZ data) b;
  b ← writeAt data b;
  hasWritten (lenZ data) b.

Definition prepend (data : list Z) (b : Buffer) : option Buffer :=
  if negb (lenZ data <=? prependableBytes b) then None
  else
    let r := bf_reader b - lenZ data in
    buffer ← memcpy (bf_buffer b) r data;
    Some (mkBuffer buffer r (bf_writer b)).

(** [shrink]: a new buffer with the same contents. *)
Definition shrink (reserve : Z) (b : Buffer) : option Buffer :=
  other ← ensureWritableBytes (u64 (readableBytes b + reserve)) (newBuffer kInitialSize);
  piece ← toStringPiece b;
  append piece other.

(** ** Integers in network order, [n] = 1, 2, 4 or 8 bytes wide *)

Definition appendIntN (n : nat) (x : Z) (b : Buffer) : option Buffer :=
  append (le_bytes n (flipBytes n (uwrap (8 * Z.of_nat n) x))) b.
Definition prependIntN (n : nat) (x : Z) (b : Buffer) : option Buffer :=
  prepend (le_bytes n (flipBytes n (uwrap (8 * Z.of_nat n) x))) b.
Definition peekIntN (n : nat) (b : Buffer) : option Z :=
  if negb (Z.of_nat n <=? readableBytes b) then None
  else Some (swrap (8 * Z.of_nat n) (flipBytes n (le_value (subBytes (bf_reader b) (Z.of_nat n) (bf_buffer b))))).
Definition readIntN (n : nat) (b : Buffer) : option (Z * Buffer) :=
  x ← peekIntN n b; b' ← retrieve (Z.of_nat n) b; Some (x, b').

(** ** The abstract buffer

    A buffer is the list of its readable bytes. *)

Record buffer_ok (b : Buffer) : Prop := {
  bo_reader : 0 <= bf_reader b <= bf_writer b;
  bo_writer : bf_writer b <= lenZ (bf_buffer b);
  bo_prepend : kCheapPrepend <= lenZ (bf_buffer b);
}.

(** [len] more bytes can be addressed. *)
Definition addressable (len : Z) (b : Buffer) : Prop := 0 <= len /\ lenZ (bf_buffer b) + len + kCheapPrepend < 2 ^ 64.

(** The operations as data: what they need and what they do to the contents. *)
Inductive BufferOp :=
| OpAppend (data : list Z)
| OpFill (data : list Z)        (* read into [beginWrite()], then [hasWritten] *)
| OpPrepend (data : list Z)
| OpRetrieve (len : Z)
| OpRetrieveAll
| OpUnwrite (len : Z)
| OpEnsure (len : Z)
| OpShrink (reserve : Z).

Definition applyOp (op : BufferOp) (b : Buffer) : option Buffer :=
  match op with
  | OpAppend data => append data b
  | OpFill data => b ← writeAt data b; hasWritten (lenZ data) b
  | OpPrepend data => prepend data b
  | OpRetrieve len => retrieve len b
  | OpRetrieveAll => Some (retrieveAll b)
  | OpUnwrite len => unwrite len b
  | OpEnsure len => ensureWritableBytes len b
  | OpShrink reserve => shrink reserve b
  end.

Definition op_pre (b : Buffer) (op : BufferOp) : Prop :=
  match op with
  | OpAppend data => addressable (lenZ data) b
  | OpFill data => lenZ data <= writableBytes b
  | OpPrepend data => lenZ data <= prependableBytes b
  | OpRetrieve len | OpUnwrite len => 0 <= len <= readableBytes b
  | OpRetrieveAll => True
  | OpEnsure len => addressable len b
  | OpShrink reserve => 0 <= reserve < 2 ^ 62 /\ readableBytes b < 2 ^ 31
  end.

Definition opContents (op : BufferOp) (l : list Z) : list Z :=
  match op with
  | OpAppend data | OpFill data => l ++ data
  | OpPrepend data => data ++ l
  | OpRetrieve len => dropZ len l
  | OpRetrieveAll => []
  | OpUnwrite len => takeZ (lenZ l - len) l
  | OpEnsure _ | OpShrink _ => l
  end.

Lemma readable_length b : buffer_ok b -> lenZ (readable b) = readableBytes b.
Proof. intros [H1 H2 H3]. unfold readable, readableBytes. apply subBytes_length; lia. Qed.

(** The contents of a buffer whose indexes delimit [l]. *)
Lemma readable_of buf r w l : subBytes r (lenZ l) buf = l -> w = r + lenZ l -> readable (mkBuffer buf r w) = l.
Proof. intros H ->. unfold readable, readableBytes. cbn [bf_buffer bf_reader bf_writer]. by replace (r + lenZ l - r) with (lenZ l) by lia. Qed.

Lemma repeat_lenZ (x : Z) n : 0 <= n -> lenZ (repeat x (Z.to_nat n)) = n.
Proof. intros H. unfold lenZ. rewrite repeat_length. lia. Qed.

Lemma newBuffer_ok n : 0 <= n -> buffer_ok (newBuffer n) /\ readable (newBuffer n) = [] /\
  writableBytes (newBuffer n) = n /\ lenZ (bf_buffer (newBuffer n)) = kCheapPrepend + n.
Proof.
  intros H. assert (kCheapPrepend = 8) as Hk by done. assert (lenZ (bf_buffer (newBuffer n)) = kCheapPrepend + n) as Hl.
  { unfold newBuffer. cbn [bf_buffer]. apply repeat_lenZ. lia. }
  split_and!; [|by apply readable_of|unfold writableBytes; cbn in *; lia|done].
  constructor; rewrite ?Hl; cbn; lia.
Qed.

Lemma retrieveAll_ok b : buffer_ok b -> buffer_ok (retrieveAll b) /\ readable (retrieveAll b) = [].
Proof.
  intros [H1 H2 H3]. assert (kCheapPrepend = 8) as Hk by done. split; [constructor; cbn in *; lia|by apply readable_of].
Qed.

Lemma retrieve_ok n b : buffer_ok b -> 0 <= n <= readableBytes b ->
  exists b', retrieve n b = Some b' /\ buffer_ok b' /\ readable b' = dropZ n (readable b) /\
    bf_buffer b' = bf_buffer b.
Proof.
  intros Hb Hn. unfold retrieve. destruct (Z.leb_spec n (readableBytes b)); [|lia]. cbn [negb].
  pose proof (readable_length b Hb) as Hl. destruct Hb as [H1 H2 H3].
  destruct (Z.ltb_spec n (readableBytes b)).
  - eexists. split; [done|]. unfold readableBytes in *. split_and!; [constructor; cbn; lia| |done].
    unfold readable, readableBytes, subBytes. cbn [bf_buffer bf_reader bf_writer].
    rewrite dropZ_takeZ, dropZ_dropZ by lia. f_equal. lia.
  - exists (retrieveAll b). destruct (retrieveAll_ok b) as [Hok Hr]; [by constructor|]. split_and!; [done|done| |done].
    rewrite Hr. replace n with (lenZ (readable b)) by lia. symmetry. rewrite <- (app_nil_r (readable b)) at 2.
    by apply dropZ_app_length.
Qed.

Lemma writeAt_ok data b : buffer_ok b -> lenZ data <= writableBytes b ->
  exists b1 b2, writeAt data b = Some b1 /\ hasWritten (lenZ data) b1 = Some b2 /\ buffer_ok b2 /\
    readable b2 = readable b ++ data /\ lenZ (bf_buffer b2) = lenZ (bf_buffer b) /\ bf_reader b2 = bf_reader b.
Proof.
  intros Hb Hd. pose proof (readable_length b Hb) as Hl. destruct Hb as [H1 H2 H3]. unfold writableBytes in Hd.
  pose proof (lenZ_nonneg data) as Hn.
  destruct (memcpy_spec (bf_buffer b) (bf_writer b) data) as (buf & E & L & S & O); [lia|lia|].
  unfold writeAt. rewrite E. cbn [mbind option_bind]. eexists _, _. split; [done|]. unfold hasWritten, writableBytes.
  cbn [bf_buffer bf_reader bf_writer]. destruct (Z.leb_spec (lenZ data) (lenZ buf - bf_writer b)); [|lia].
  split; [done|]. split_and!; [constructor; cbn; lia| |done|done].
  apply readable_of; [|rewrite lenZ_app, Hl; unfold readableBytes; lia].
  rewrite lenZ_app, Hl. rewrite subBytes_split by (unfold readableBytes; lia). unfold readableBytes in *.
  rewrite O by lia. replace (bf_reader b + (bf_writer b - bf_reader b)) with (bf_writer b) by lia. by rewrite S.
Qed.

Lemma makeSpace_ok len b : buffer_ok b -> addressable len b -> writableBytes b < len ->
  exists b', makeSpace len b = Some b' /\ buffer_ok b' /\ readable b' = readable b /\ len <= writableBytes b' /\
    lenZ (bf_buffer b') <= Z.max (lenZ (bf_buffer b)) (len + readableBytes b + kCheapPrepend).
Proof.
  intros Hb [Hlen Hfit] Hlt. pose proof (readable_length b Hb) as Hl. destruct Hb as [H1 H2 H3].
  assert (kCheapPrepend = 8) as Hk by done. unfold makeSpace. unfold writableBytes, prependableBytes in *.
  rewrite (uwrap_small 64 (len + kCheapPrepend)) by lia. rewrite (uwrap_small 64 (_ - _ + _)) by lia.
  assert (readableBytes b = bf_writer b - bf_reader b) as Hr by done.
  destruct (Z.ltb_spec (lenZ (bf_buffer b) - bf_writer b + bf_reader b) (len + kCheapPrepend)).
  - rewrite (uwrap_small 64 (len + readableBytes b)) by lia. rewrite uwrap_small by lia.
    set (fresh := repeat 0 (Z.to_nat (len + readableBytes b + kCheapPrepend))).
    assert (lenZ fresh = len + readableBytes b + kCheapPrepend) as Hf by (apply repeat_lenZ; lia).
    destruct (memcpy_spec fresh kCheapPrepend (readable b)) as (buf & E & L & S & _); [lia|lia|].
    rewrite E. cbn [mbind option_bind]. eexists. split; [done|]. unfold writableBytes. cbn [bf_buffer bf_reader bf_writer].
    split_and!; [constructor; cbn; lia|apply readable_of; [exact S|lia]|lia|lia].
  - destruct (Z.ltb_spec kCheapPrepend (bf_reader b)); [|lia]. cbn [negb].
    destruct (memcpy_spec (bf_buffer b) kCheapPrepend (readable b)) as (buf & E & L & S & _); [lia|lia|].
    rewrite E. cbn [mbind option_bind]. eexists. split; [done|]. unfold writableBytes. cbn [bf_buffer bf_reader bf_writer].
    split_and!; [constructor; cbn; lia|apply readable_of; [exact S|lia]|lia|lia].
Qed.

Lemma ensureWritableBytes_ok len b : buffer_ok b -> addressable len b ->
  exists b', ensureWritableBytes len b = Some b' /\ buffer_ok b' /\ readable b' = readable b /\ len <= writableBytes b' /\
    lenZ (bf_buffer b') <= Z.max (lenZ (bf_buffer b)) (len + readableBytes b + kCheapPrepend).
Proof.
  intros Hb Ha. unfold ensureWritableBytes. destruct (Z.ltb_spec (writableBytes b) len) as [Hlt|Hge].
  - destruct (makeSpace_ok len b Hb Ha Hlt) as (b' & E & Hok & Hr & Hw & Hs). rewrite E. cbn [mbind option_bind].
    destruct (Z.leb_spec len (writableBytes b')); [|lia]. by exists b'.
  - cbn [mbind option_bind]. destruct (Z.leb_spec len (writableBytes b)); [|lia]. exists b. split_and!; try done. lia.
Qed.

Lemma append_ok data b : buffer_ok b -> addressable (lenZ data) b ->
  exists b', append data b = Some b' /\ buffer_ok b' /\ readable b' = readable b ++ data /\
    lenZ (bf_buffer b') <= Z.max (lenZ (bf_buffer b)) (lenZ data + readableBytes b + kCheapPrepend).
Proof.
  intros Hb Ha. destruct (ensureWritableBytes_ok (lenZ data) b Hb Ha) as (b1 & E & Hok & Hr & Hw & Hs).
  destruct (writeAt_ok data b1 Hok Hw) as (b2 & b3 & E2 & E3 & Hok3 & Hr3 & Hs3 & _).
  unfold append. rewrite E. cbn [mbind option_bind]. rewrite E2. cbn [mbind option_bind]. rewrite E3.
  exists b3. split_and!; [done|done|by rewrite Hr3, Hr|lia].
Qed.

Lemma prepend_ok data b : buffer_ok b -> lenZ data <= prependableBytes b ->
  exists b', prepend data b = Some b' /\ buffer_ok b' /\ readable b' = data ++ readable b.
Proof.
  intros Hb Hd. pose proof (readable_length b Hb) as Hl. destruct Hb as [H1 H2 H3]. unfold prepend, prependableBytes in *.
  pose proof (lenZ_nonneg data) as Hn. destruct (Z.leb_spec (lenZ data) (bf_reader b)); [|lia]. cbn [negb].
  destruct (memcpy_spec (bf_buffer b) (bf_reader b - lenZ data) data) as (buf & E & L & S & O); [lia|lia|].
  rewrite E. cbn [mbind option_bind]. eexists. split; [done|]. split; [constructor; cbn; lia|].
  apply readable_of; [|rewrite lenZ_app, Hl; unfold readableBytes; lia].
  unfold readableBytes in *. rewrite lenZ_app, Hl, subBytes_split, S by lia. f_equal.
  replace (bf_reader b - lenZ data + lenZ data) with (bf_reader b) by lia. apply O; lia.
Qed.

Lemma unwrite_ok n b : buffer_ok b -> 0 <= n <= readableBytes b ->
  exists b', unwrite n b = Some b' /\ buffer_ok b' /\ readable b' = takeZ (lenZ (readable b) - n) (readable b).
Proof.
  intros Hb Hn. pose proof (readable_length b Hb) as Hl. destruct Hb as [H1 H2 H3]. unfold unwrite, readableBytes in *.
  destruct (Z.leb_spec n (bf_writer b - bf_reader b)); [|lia]. eexists. split; [done|].
  split; [constructor; cbn; lia|]. rewrite Hl. unfold readable, readableBytes, subBytes.
  cbn [bf_buffer bf_reader bf_writer]. rewrite takeZ_takeZ by lia. f_equal. lia.
Qed.

Lemma toStringPiece_ok b : buffer_ok b -> readableBytes b < 2 ^ 31 -> toStringPiece b = Some (readable b).
Proof.
  intros [H1 H2 H3] Hr. assert (0 <= readableBytes b) by (unfold readableBytes; lia). unfold toStringPiece.
  rewrite swrap_small, uwrap_small by lia. by rewrite Z.leb_refl.
Qed.

Lemma shrink_ok reserve b : buffer_ok b -> op_pre b (OpShrink reserve) ->
  exists b', shrink reserve b = Some b' /\ buffer_ok b' /\ readable b' = readable b.
Proof.
  intros Hb [Hr Hbig]. pose proof (readable_length b Hb) as Hl.
  assert (0 <= readableBytes b) as Hnn by (destruct Hb; unfold readableBytes; lia).
  assert (kCheapPrepend = 8 /\ kInitialSize = 2048) as [Hk Hi] by done.
  destruct (newBuffer_ok kInitialSize) as (Hn & Hrn & _ & Hln); [lia|].
  assert (readableBytes (newBuffer kInitialSize) = 0) as H0 by done.
  unfold shrink. rewrite uwrap_small by lia.
  destruct (ensureWritableBytes_ok (readableBytes b + reserve) (newBuffer kInitialSize) Hn)
    as (b1 & E1 & Hb1 & Hr1 & Hw1 & Hs1); [unfold addressable; lia|].
  rewrite E1. cbn [mbind option_bind]. rewrite toStringPiece_ok by done. cbn [mbind option_bind].
  destruct (append_ok (readable b) b1 Hb1) as (b2 & E2 & Hb2 & Hr2 & _); [unfold addressable; lia|].
  exists b2. split_and!; [done|done|]. by rewrite Hr2, Hr1, Hrn.
Qed.

(** ** Byte order *)

Ltac div_lia := Z.to_euclidean_division_equations; lia.
Ltac powers := change (2 ^ 0) with 1 in *; change (2 ^ 8) with 256 in *; change (2 ^ 16) with 65536 in *;
  change (2 ^ 24) with 16777216 in *; change (2 ^ 32) with 4294967296 in *.

Lemma flip16_reverse a b : is_bytes [a; b] -> flip16 (le_value [a; b]) = le_value [b; a].
Proof.
  intros H. unfold is_bytes in H. rewrite !Forall_cons in H. destruct H as (Ha & Hb & _). unfold is_byte in *.
  unfold flip16. change 0x00FF with (Z.shiftl 255 0). change 0xFF00 with (Z.shiftl 255 8). rewrite !land_byte by lia.
  rewrite Z.shiftr_div_pow2, Z.shiftl_mul_pow2 by lia. simpl le_value. powers.
  replace ((a + 256 * (b + 256 * 0)) / 256 / 1 mod 256 * 1) with b by div_lia.
  replace ((a + 256 * (b + 256 * 0)) * 256 / 256 mod 256 * 256) with (a * 256) by div_lia.
  rewrite Z.lor_comm, (lor_add (a * 256) a 8) by lia. rewrite uwrap_small by lia. lia.
Qed.

Lemma flip32_reverse a b c d : is_bytes [a; b; c; d] -> flip32 (le_value [a; b; c; d]) = le_value [d; c; b; a].
Proof.
  intros H. unfold is_bytes in H. rewrite !Forall_cons in H. destruct H as (Ha & Hb & Hc & Hd & _). unfold is_byte in *.
  unfold flip32, uwrap. change 0x000000FF with (Z.shiftl 255 0). change 0x0000FF00 with (Z.shiftl 255 8).
  change 0x00FF0000 with (Z.shiftl 255 16). change 0xFF000000 with (Z.shiftl 255 24). rewrite !land_byte by lia.
  rewrite !Z.shiftr_div_pow2, !Z.shiftl_mul_pow2 by lia. simpl le_value. powers.
  set (v := a + 256 * (b + 256 * (c + 256 * (d + 256 * 0)))).
  replace (v / 16777216 / 1 mod 256 * 1) with d by (subst v; div_lia).
  replace (v / 256 / 256 mod 256 * 256) with (c * 256) by (subst v; div_lia).
  replace (v * 256 mod 4294967296 / 65536 mod 256 * 65536) with (b * 65536) by (subst v; div_lia).
  replace (v * 16777216 mod 4294967296 / 16777216 mod 256 * 16777216) with (a * 16777216) by (subst v; div_lia).
  rewrite (Z.lor_comm d), (Z.lor_comm (b * 65536)).
  rewrite (lor_add (c * 256) c 8), (lor_add (a * 16777216) a 24) by lia.
  rewrite Z.lor_comm, (lor_add _ (a * 256 + b) 16) by lia. lia.
Qed.

Lemma flip64_reverse a b c d e f g h : is_bytes [a; b; c; d; e; f; g; h] ->
  flip64 (le_value [a; b; c; d; e; f; g; h]) = le_value [h; g; f; e; d; c; b; a].
Proof.
  intros H. assert (is_bytes [a; b; c; d] /\ is_bytes [e; f; g; h]) as [Hlo Hhi].
  { unfold is_bytes in *. rewrite !Forall_cons in *. tauto. }
  pose proof (le_value_bounds _ Hlo) as Bl. pose proof (le_value_bounds _ Hhi) as Bh.
  assert (is_bytes [d; c; b; a]) as Hlo' by (unfold is_bytes in *; rewrite !Forall_cons in *; tauto).
  assert (is_bytes [h; g; f; e]) as Hhi' by (unfold is_bytes in *; rewrite !Forall_cons in *; tauto).
  pose proof (le_value_bounds _ Hlo') as Bl'. pose proof (le_value_bounds _ Hhi') as Bh'.
  change (2 ^ (8 * lenZ _)) with 4294967296 in Bl, Bh, Bl', Bh'.
  assert (le_value [a; b; c; d; e; f; g; h] = le_value [a; b; c; d] + 2 ^ 32 * le_value [e; f; g; h]) as ->
    by (simpl le_value; lia).
  assert (le_value [h; g; f; e; d; c; b; a] = le_value [h; g; f; e] + 2 ^ 32 * le_value [d; c; b; a]) as ->
    by (simpl le_value; lia).
  set (lo := le_value [a; b; c; d]) in *. set (hi := le_value [e; f; g; h]) in *. powers.
  unfold flip64, uwrap. change 0xFFFFFFFF with (Z.ones 32). rewrite Z.land_ones by lia.
  rewrite Z.shiftr_div_pow2 by lia. powers.
  replace ((lo + 4294967296 * hi) / 4294967296 mod 4294967296) with hi by div_lia.
  replace ((lo + 4294967296 * hi) mod 4294967296 mod 4294967296) with lo by div_lia.
  subst lo hi. rewrite !flip32_reverse by done. rewrite Z.shiftl_mul_pow2 by lia. powers.
  set (lo := le_value [d; c; b; a]) in *. set (hi := le_value [h; g; f; e]) in *.
  rewrite Z.mod_small by lia. rewrite Z.lor_comm, (lor_add _ lo 32) by lia. lia.
Qed.

(** The widths the class offers; the network representation of an integer is [int_bytes true]. *)
Definition int_width (n : nat) : Prop := n = 1%nat \/ n = 2%nat \/ n = 4%nat \/ n = 8%nat.

Lemma flipBytes_reverse n l : int_width n -> is_bytes l -> length l = n ->
  flipBytes n (le_value l) = le_value (reverse l).
Proof.
  intros [-> | [-> | [-> | ->]]] Hb Hl; do 9 (try destruct l as [|? l]; try discriminate Hl).
  - done.
  - cbn [flipBytes]. by rewrite (flip16_reverse _ _ Hb).
  - cbn [flipBytes]. by rewrite (flip32_reverse _ _ _ _ Hb).
  - cbn [flipBytes]. by rewrite (flip64_reverse _ _ _ _ _ _ _ _ Hb).
Qed.

Lemma le_bytes_value l : is_bytes l -> le_bytes (length l) (le_value l) = l.
Proof.
  induction l as [|c l IH]; intros H; [done|]. apply Forall_cons in H as [Hc Hl]. unfold is_byte in Hc.
  cbn [length le_bytes le_value]. f_equal; [div_lia|]. etransitivity; [|exact (IH Hl)]. f_equal. div_lia.
Qed.

Lemma be_bytes_length n x : lenZ (int_bytes true n x) = Z.of_nat n.
Proof. unfold lenZ. by rewrite int_bytes_length. Qed.

(** What [appendIntN] writes and what [peekIntN] makes of it. *)
Lemma toNetwork_bytes n x : int_width n -> le_bytes n (flipBytes n (uwrap (8 * Z.of_nat n) x)) = int_bytes true n x.
Proof.
  intros Hn. assert (uwrap (8 * Z.of_nat n) x = le_value (le_bytes n x)) as -> by (by rewrite le_value_bytes).
  rewrite flipBytes_reverse; [|done|apply le_bytes_is_bytes|apply le_bytes_length].
  rewrite <- (int_bytes_length true n x) at 1. apply le_bytes_value, (int_bytes_is_bytes true).
Qed.

Lemma fromNetwork_value n x : int_width n -> - 2 ^ (8 * Z.of_nat n - 1) <= x < 2 ^ (8 * Z.of_nat n - 1) ->
  swrap (8 * Z.of_nat n) (flipBytes n (le_value (int_bytes true n x))) = x.
Proof.
  intros Hn Hx. rewrite flipBytes_reverse by eauto using int_bytes_is_bytes, int_bytes_length.
  unfold int_bytes. rewrite reverse_involutive, le_value_bytes. fold (uwrap (8 * Z.of_nat n) x).
  assert (0 < 8 * Z.of_nat n) by (destruct Hn as [-> | [-> | [-> | ->]]]; lia).
  rewrite swrap_uwrap by lia. by apply swrap_small.
Qed.

(** The first bytes of the readable region. *)
Lemma readable_prefix b p rest : buffer_ok b -> readable b = p ++ rest ->
  lenZ p <= readableBytes b /\ subBytes (bf_reader b) (lenZ p) (bf_buffer b) = p.
Proof.
  intros Hb Hr. pose proof (readable_length b Hb) as Hl. rewrite Hr, lenZ_app in Hl.
  pose proof (lenZ_nonneg rest). split; [lia|]. unfold readable, subBytes in *.
  rewrite <- (takeZ_app_length (lenZ p) p rest) at 2 by done. rewrite <- Hr, takeZ_takeZ by apply lenZ_nonneg.
  f_equal. lia.
Qed.

Lemma readInt_ok n x b rest : buffer_ok b -> int_width n ->
  - 2 ^ (8 * Z.of_nat n - 1) <= x < 2 ^ (8 * Z.of_nat n - 1) -> readable b = int_bytes true n x ++ rest ->
  peekIntN n b = Some x /\ exists b', readIntN n b = Some (x, b') /\ buffer_ok b' /\ readable b' = rest.
Proof.
  intros Hb Hn Hx Hr. destruct (readable_prefix b _ _ Hb Hr) as [Hle Hp]. rewrite be_bytes_length in Hle, Hp.
  assert (peekIntN n b = Some x) as Hpeek.
  { unfold peekIntN. destruct (Z.leb_spec (Z.of_nat n) (readableBytes b)); [|lia]. cbn [negb].
    by rewrite Hp, fromNetwork_value. }
  split; [done|]. destruct (retrieve_ok (Z.of_nat n) b Hb) as (b' & E & Hok & Hr' & _); [lia|].
  exists b'. unfold readIntN. rewrite Hpeek. cbn [mbind option_bind]. rewrite E. split_and!; [done|done|].
  rewrite Hr', Hr. apply dropZ_app_length. by rewrite be_bytes_length.
Qed.

(** ** Messages of integers *)

(** A sequence of integers with their widths, written and read back. *)
Fixpoint appendInts (xs : list (nat * Z)) (b : Buffer) : option Buffer :=
  match xs with [] => Some b | (n, x) :: xs' => b ← appendIntN n x b; appendInts xs' b end.
Fixpoint readInts (ns : list nat) (b : Buffer) : option (list Z * Buffer) :=
  match ns with
  | [] => Some ([], b)
  | n :: ns' => '(x, b) ← readIntN n b; '(xs, b) ← readInts ns' b; Some (x :: xs, b)
  end.

Definition fits_width (p : nat * Z) : Prop :=
  int_width (fst p) /\ - 2 ^ (8 * Z.of_nat (fst p) - 1) <= snd p < 2 ^ (8 * Z.of_nat (fst p) - 1).

Definition ints_bytes (xs : list (nat * Z)) : list Z := flat_map (fun p => int_bytes true (fst p) (snd p)) xs.

Lemma appendInts_ok xs : forall b, buffer_ok b -> Forall fits_width xs ->
  lenZ (bf_buffer b) + lenZ (ints_bytes xs) + 2 * kCheapPrepend < 2 ^ 64 ->
  exists b', appendInts xs b = Some b' /\ buffer_ok b' /\ readable b' = readable b ++ ints_bytes xs.
Proof.
  assert (kCheapPrepend = 8) as Hk by done.
  enough (forall b m, buffer_ok b -> Forall fits_width xs -> lenZ (bf_buffer b) <= m -> readableBytes b + kCheapPrepend <= m ->
    m + lenZ (ints_bytes xs) + kCheapPrepend < 2 ^ 64 ->
    exists b', appendInts xs b = Some b' /\ buffer_ok b' /\ readable b' = readable b ++ ints_bytes xs) as H.
  { intros b Hb Hxs Hfit. apply (H b (lenZ (bf_buffer b) + kCheapPrepend)); [done|done|lia| |lia].
    destruct Hb. unfold readableBytes. lia. }
  induction xs as [|[n x] xs IH]; intros b m Hb Hxs Hm Hrm Hfit.
  - exists b. split_and!; [done|done|by rewrite app_nil_r].
  - apply Forall_cons in Hxs as [[Hn Hx] Hxs]. cbn [fst snd] in *.
    assert (ints_bytes ((n, x) :: xs) = int_bytes true n x ++ ints_bytes xs) as Ei by done.
    rewrite Ei, lenZ_app, be_bytes_length in Hfit. pose proof (lenZ_nonneg (ints_bytes xs)) as Hnn.
    destruct (append_ok (int_bytes true n x) b Hb) as (b1 & E & Hok & Hr & Hs); [unfold addressable; rewrite be_bytes_length; lia|].
    rewrite be_bytes_length in Hs.
    destruct (IH b1 (m + Z.of_nat n) Hok Hxs) as (b2 & E2 & Hok2 & Hr2); [lia| |lia|].
    { pose proof (readable_length b1 Hok) as L1. pose proof (readable_length b Hb) as L0.
      rewrite Hr, lenZ_app, be_bytes_length in L1. lia. }
    exists b2. cbn [appendInts]. unfold appendIntN. rewrite toNetwork_bytes by done. rewrite E. cbn [mbind option_bind].
    split_and!; [done|done|]. by rewrite Hr2, Hr, Ei, app_assoc.
Qed.

Lemma readInts_ok xs : forall b rest, buffer_ok b -> Forall fits_width xs -> readable b = ints_bytes xs ++ rest ->
  exists b', readInts (map fst xs) b = Some (map snd xs, b') /\ buffer_ok b' /\ readable b' = rest.
Proof.
  induction xs as [|[n x] xs IH]; intros b rest Hb Hxs Hr.
  - by exists b.
  - apply Forall_cons in Hxs as [[Hn Hx] Hxs]. cbn [fst snd] in *.
    assert (ints_bytes ((n, x) :: xs) = int_bytes true n x ++ ints_bytes xs) as Ei by done. rewrite Ei, <- app_assoc in Hr.
    destruct (readInt_ok n x b _ Hb Hn Hx Hr) as (_ & b1 & E & Hok & Hr1).
    destruct (IH b1 rest Hok Hxs Hr1) as (b2 & E2 & Hok2 & Hr2).
    exists b2. cbn [readInts map fst snd]. rewrite E. cbn [mbind option_bind]. rewrite E2. done.
Qed.

(** ** Properties *)

(** C38: the buffer is well typed: every operation whose asserted condition holds succeeds, keeps the reader and
    writer indexes inside the vector, and acts on the readable bytes as the corresponding list operation does
    (compaction and growth included); [ensureWritableBytes] makes the room it promises. *)
Theorem applyOp_ok op b : buffer_ok b -> op_pre b op ->
  exists b', applyOp op b = Some b' /\ buffer_ok b' /\ readable b' = opContents op (readable b) /\
    (forall n, op = OpEnsure n -> n <= writableBytes b').
Proof.
  intros Hb Hp. destruct op; cbn [applyOp op_pre opContents] in *.
  - destruct (append_ok _ _ Hb Hp) as (b' & ? & ? & ? & _). by exists b'.
  - destruct (writeAt_ok _ _ Hb Hp) as (b1 & b' & E & E2 & ? & ? & _). exists b'. rewrite E. by cbn [mbind option_bind].
  - destruct (prepend_ok _ _ Hb Hp) as (b' & ? & ? & ?). by exists b'.
  - destruct (retrieve_ok _ _ Hb Hp) as (b' & ? & ? & ? & _). by exists b'.
  - destruct (retrieveAll_ok _ Hb) as [? ?]. by exists (retrieveAll b).
  - destruct (unwrite_ok _ _ Hb Hp) as (b' & ? & ? & ?). by exists b'.
  - destruct (ensureWritableBytes_ok _ _ Hb Hp) as (b' & ? & ? & ? & ? & _). exists b'. split_and!; try done. by intros n [= <-].
  - destruct (shrink_ok _ _ Hb Hp) as (b' & ? & ? & ?). by exists b'.
Qed.

Definition small_buffer : Buffer := mkBuffer ((repeat 0 12) ++ [1; 2; 3; 4]) 12 15.

Lemma applyOp_ok_witness :
  (applyOp (OpAppend [9; 9]) small_buffer = Some (mkBuffer ([0;0;0;0;0;0;0;0;1;2;3;9;9;2;3;4]) 8 13)) /\
  exists b', applyOp (OpAppend [9; 9]) small_buffer = Some b' /\ buffer_ok b' /\ readable b' = [1; 2; 3; 9; 9] /\
    (forall n, OpAppend [9; 9] = OpEnsure n -> n <= writableBytes b').
Proof.
  split; [by vm_compute|]. apply (applyOp_ok (OpAppend [9; 9]) small_buffer).
  - by constructor.
  - by split.
Defined.

(** Integers of 1, 2, 4 and 8 bytes written by [appendInt8] .. [appendInt64] stand in the buffer in network
    order, the highest byte first, and are read back exactly, negative ones included. *)
Theorem appendInts_readInts xs b : buffer_ok b -> readable b = [] -> Forall fits_width xs ->
  lenZ (bf_buffer b) + lenZ (ints_bytes xs) + 2 * kCheapPrepend < 2 ^ 64 ->
  exists b1 b2, appendInts xs b = Some b1 /\ readable b1 = ints_bytes xs /\
    readInts (map fst xs) b1 = Some (map snd xs, b2) /\ readable b2 = [].
Proof.
  intros Hb He Hxs Hfit. destruct (appendInts_ok xs b Hb Hxs Hfit) as (b1 & E1 & Hok1 & Hr1). rewrite He in Hr1.
  destruct (readInts_ok xs b1 [] Hok1 Hxs) as (b2 & E2 & _ & Hr2); [by rewrite app_nil_r|].
  by exists b1, b2.
Qed.

Definition int_message : list (nat * Z) := [(1%nat, -1); (2%nat, 258); (4%nat, -2); (8%nat, 2 ^ 40 + 7)].

Lemma appendInts_readInts_witness :
  ints_bytes int_message = [255; 1; 2; 255; 255; 255; 254; 0; 0; 1; 0; 0; 0; 0; 7] /\
  exists b1 b2, appendInts int_message (newBuffer 4) = Some b1 /\ readable b1 = ints_bytes int_message /\
    readInts [1; 2; 4; 8]%nat b1 = Some ([-1; 258; -2; 2 ^ 40 + 7], b2) /\ readable b2 = [].
Proof.
  split; [by vm_compute|]. apply (appendInts_readInts int_message (newBuffer 4)); [by constructor|done| |by vm_compute].
  repeat constructor; cbn; unfold int_width; lia.
Defined.
