(* ===== verification/Tcp.v ===== *)
(** * TCP connections

    [src/src/net/TcpConnection.cpp] (the POSIX branch) with its [Channel], the
    entry of the channel in [EPollPoller], the queue of functors of
    [EventLoop] and the part of [TcpServer] that owns the connection: one
    connection, its buffers, and everything that can happen to it.  The user's
    callbacks and the kernel answer from the history of the connection, so
    they may depend on anything that happened before.  [None] is a failed
    [assert] or an access to something destroyed. *)

From stdpp Require Import base list numbers gmap strings.
From Stdlib Require Import ZArith Lia.
From S2P Require Import Prelude Buffer.
Local Open Scope Z_scope.

(** ** Data *)

Inductive StateE := kDisconnected | kConnecting | kConnected | kDisconnecting.
#[export] Instance StateE_eq_dec : EqDecision StateE.
Proof. solve_decision. Defined.

(** The bits of [poll.h]. *)
Definition POLLIN : Z := 1.
Definition POLLPRI : Z := 2.
Definition POLLOUT : Z := 4.
Definition POLLERR : Z := 8.
Definition POLLHUP : Z := 16.
Definition POLLNVAL : Z := 32.
Definition POLLRDHUP : Z := 8192.

Definition kNoneEvent : Z := 0.
Definition kReadEvent : Z := Z.lor POLLIN POLLPRI.
Definition kWriteEvent : Z := POLLOUT.

(** [ev & bits] as a condition. *)
Definition has (ev bits : Z) : bool := negb (Z.land ev bits =? 0).

Definition kNew : Z := -1.
Definition kAdded : Z := 1.
Definition kDeleted : Z := 2.

(** [class Channel]: its events, its place in the poller, and the flags
    [_tied] and [_addedToLoop]. *)
Record Channel := mkChannel { ch_events : Z; ch_index : Z; ch_tied : bool; ch_added : bool }.

(** What [EPollPoller] holds of the channel: its entry of [_channels], and the
    events the epoll instance watches, if any. *)
Record PollEntry := mkPoll { pl_known : bool; pl_epoll : option Z }.

Inductive Errno := EWOULDBLOCK | EPIPE | ECONNRESET | EOTHER.

(** What a user does with a connection. *)
Inductive UserCall := USend (data : list Z) | UShutdown | UForceClose | URetrieveAll.

(** The parts of a call made from another thread: the test of the state, the
    store of the new state, and the functor handed to the loop.  The loop runs
    between them. *)
Inductive Phase := PTest | PStore | PQueue.

(** The history of a connection: the callbacks made, the messages handed over by
    the user, the parts of other threads' calls, the system calls, and what
    [sendInLoop] decided about each message. *)
Inductive Obs :=
| CbConnection (up : bool)
| CbMessage (data : list Z) (t : Z)       (* [data]: the bytes this read added *)
| CbWriteComplete
| CbHighWater (n : Z)
| CbClose
| Sent (data : list Z)                    (* [send] of a connected connection *)
| Took (data : list Z) | Lost (data : list Z)
| SysSend (data : list Z) (n : Z)         (* [::send] and its result *)
| SysRecv (n : Z)
| SysShutdownWr
| Other (p : Phase) (u : UserCall).       (* a test that passed, a store, a functor queued *)

#[export] Instance UserCall_eq_dec : EqDecision UserCall.
Proof. solve_decision. Defined.
#[export] Instance Phase_eq_dec : EqDecision Phase.
Proof. solve_decision. Defined.
#[export] Instance Obs_eq_dec : EqDecision Obs.
Proof. solve_decision. Defined.

(** Functors queued in the loop. *)
Inductive Functor :=
| FSend (data : list Z)
| FShutdown
| FForceClose
| FWriteComplete
| FHighWater (n : Z)
| FDestroyed.

(** The surroundings: the user's callbacks (what they do when the history ends
    with their call), which of the optional ones are set, and the kernel's
    answers to [::send] of a buffer and [::recv] of at most so many bytes
    ([None] is -1). *)
Record TcpEnv := mkTcpEnv {
  te_client : list Obs -> list UserCall;
  te_writeComplete : bool;
  te_highWater : option Z;
  te_send : list Obs -> list Z -> Z * Errno;
  te_recv : list Obs -> Z -> option (list Z);
}.

Record TcpConnection := mkTcp {
  tc_state : StateE;
  tc_channel : Channel;
  tc_poll : PollEntry;
  tc_inputBuffer : Buffer;
  tc_outputBuffer : Buffer;
  tc_pending : list Functor;       (* [EventLoop::_pendingFunctors], those of this connection *)
  tc_inServer : bool;              (* in [TcpServer::_connections] *)
  tc_log : list Obs;
}.

(** The constructor, with the connection in its server's table. *)
Definition newConnection : TcpConnection :=
  mkTcp kConnecting (mkChannel kNoneEvent kNew false false) (mkPoll false None)
    (newBuffer kInitialSize) (newBuffer kInitialSize) [] true [].

Definition kRdLen : Z := 2048.

(** ** Updates *)

Definition setState (s : StateE) (c : TcpConnection) : TcpConnection :=
  mkTcp s (tc_channel c) (tc_poll c) (tc_inputBuffer c) (tc_outputBuffer c) (tc_pending c) (tc_inServer c) (tc_log c).
Definition set_channel (ch : Channel) (p : PollEntry) (c : TcpConnection) : TcpConnection :=
  mkTcp (tc_state c) ch p (tc_inputBuffer c) (tc_outputBuffer c) (tc_pending c) (tc_inServer c) (tc_log c).
Definition set_input (b : Buffer) (c : TcpConnection) : TcpConnection :=
  mkTcp (tc_state c) (tc_channel c) (tc_poll c) b (tc_outputBuffer c) (tc_pending c) (tc_inServer c) (tc_log c).
Definition set_output (b : Buffer) (c : TcpConnection) : TcpConnection :=
  mkTcp (tc_state c) (tc_channel c) (tc_poll c) (tc_inputBuffer c) b (tc_pending c) (tc_inServer c) (tc_log c).
Definition set_pending (fs : list Functor) (c : TcpConnection) : TcpConnection :=
  mkTcp (tc_state c) (tc_channel c) (tc_poll c) (tc_inputBuffer c) (tc_outputBuffer c) fs (tc_inServer c) (tc_log c).
Definition set_inServer (x : bool) (c : TcpConnection) : TcpConnection :=
  mkTcp (tc_state c) (tc_channel c) (tc_poll c) (tc_inputBuffer c) (tc_outputBuffer c) (tc_pending c) x (tc_log c).
Definition observe (o : Obs) (c : TcpConnection) : TcpConnection :=
  mkTcp (tc_state c) (tc_channel c) (tc_poll c) (tc_inputBuffer c) (tc_outputBuffer c) (tc_pending c) (tc_inServer c)
    (tc_log c ++ [o]).

(** [EventLoop::queueInLoop]; waking the poller up is not modelled. *)
Definition queueInLoop (f : Functor) (c : TcpConnection) : TcpConnection := set_pending (tc_pending c ++ [f]) c.

(** ** Channel and poller *)

Definition isNoneEvent (ch : Channel) : bool := ch_events ch =? kNoneEvent.
Definition isWriting (c : TcpConnection) : bool := has (ch_events (tc_channel c)) kWriteEvent.
Definition isReading (c : TcpConnection) : bool := has (ch_events (tc_channel c)) kReadEvent.

(** [EPollPoller::update]: an ADD of a known or MOD of an unknown descriptor
    fails in the kernel and is fatal; a DEL only logs. *)
Inductive EpollOp := EPOLL_CTL_ADD | EPOLL_CTL_MOD | EPOLL_CTL_DEL.

Definition epollUpdate (op : EpollOp) (ch : Channel) (p : PollEntry) : option PollEntry :=
  match op, pl_epoll p with
  | EPOLL_CTL_ADD, None | EPOLL_CTL_MOD, Some _ => Some (mkPoll (pl_known p) (Some (ch_events ch)))
  | EPOLL_CTL_DEL, _ => Some (mkPoll (pl_known p) None)
  | _, _ => None
  end.

Definition set_chIndex (i : Z) (ch : Channel) : Channel := mkChannel (ch_events ch) i (ch_tied ch) (ch_added ch).

(** [EPollPoller::updateChannel] *)
Definition pollerUpdate (ch : Channel) (p : PollEntry) : option (Channel * PollEntry) :=
  let index := ch_index ch in
  if (index =? kNew) || (index =? kDeleted) then
    known ← (if index =? kNew
             then if pl_known p then None else Some (mkPoll true (pl_epoll p))
             else if pl_known p then Some p else None);
    let ch := set_chIndex kAdded ch in
    p ← epollUpdate EPOLL_CTL_ADD ch known;
    Some (ch, p)
  else if negb (pl_known p && (index =? kAdded)) then None
  else if isNoneEvent ch then
    p ← epollUpdate EPOLL_CTL_DEL ch p;
    Some (set_chIndex kDeleted ch, p)
  else
    p ← epollUpdate EPOLL_CTL_MOD ch p;
    Some (ch, p).

(** [EPollPoller::removeChannel] *)
Definition pollerRemove (ch : Channel) (p : PollEntry) : option (Channel * PollEntry) :=
  if negb (pl_known p && isNoneEvent ch && ((ch_index ch =? kAdded) || (ch_index ch =? kDeleted))) then None
  else
    let p := mkPoll false (pl_epoll p) in
    p ← (if ch_index ch =? kAdded then epollUpdate EPOLL_CTL_DEL ch p else Some p);
    Some (set_chIndex kNew ch, p).

(** The methods that change the events: a new value, then [update()]. *)
Definition updateEvents (ev : Z) (c : TcpConnection) : option TcpConnection :=
  let ch := tc_channel c in
  '(ch, p) ← (pollerUpdate (mkChannel ev (ch_index ch) (ch_tied ch) true) (tc_poll c) : option (Channel * PollEntry));
  Some (set_channel ch p c).
Definition enableReading (c : TcpConnection) := updateEvents (Z.lor (ch_events (tc_channel c)) kReadEvent) c.
Definition enableWriting (c : TcpConnection) := updateEvents (Z.lor (ch_events (tc_channel c)) kWriteEvent) c.
Definition disableWriting (c : TcpConnection) := updateEvents (Z.ldiff (ch_events (tc_channel c)) kWriteEvent) c.
Definition disableAll (c : TcpConnection) := updateEvents kNoneEvent c.

(** [Channel::tie] *)
Definition tie (c : TcpConnection) : TcpConnection :=
  let ch := tc_channel c in set_channel (mkChannel (ch_events ch) (ch_index ch) true (ch_added ch)) (tc_poll c) c.

(** [Channel::remove] *)
Definition removeChannel (c : TcpConnection) : option TcpConnection :=
  let ch := tc_channel c in
  if negb (isNoneEvent ch) then None
  else
    '(ch, p) ← (pollerRemove (mkChannel (ch_events ch) (ch_index ch) (ch_tied ch) false) (tc_poll c) : option (Channel * PollEntry));
    Some (set_channel ch p c).

(** ** The connection *)

(** A system call on the socket; lengths are [int]. *)
Definition sysSend (E : TcpEnv) (data : list Z) (c : TcpConnection) : option (Z * Errno * TcpConnection) :=
  if negb (lenZ data <? 2 ^ 31) then None
  else
    let '(n, errno) := te_send E (tc_log c) data in
    Some (n, errno, observe (SysSend data n) c).

Definition shutdownInLoop (c : TcpConnection) : TcpConnection :=
  if negb (isWriting c) then observe SysShutdownWr c else c.

(** [sendInLoop], the first half: an idle connection writes at once.  The bytes
    written, and whether the connection is beyond repair. *)
Definition sendNow (E : TcpEnv) (data : list Z) (c : TcpConnection) : option (Z * bool * TcpConnection) :=
  if negb (isWriting c) && (readableBytes (tc_outputBuffer c) =? 0) then
    '(n, errno, c) ← (sysSend E data c : option (Z * Errno * TcpConnection));
    if 0 <=? n
    then Some (n, false, if (lenZ data - n =? 0) && te_writeComplete E then queueInLoop FWriteComplete c else c)
    else Some (0, match errno with EPIPE | ECONNRESET => true | _ => false end, c)
  else Some (0, false, c).

(** The second half: what remains is buffered and the channel watches for
    writing. *)
Definition sendRest (E : TcpEnv) (nwrote : Z) (data : list Z) (c : TcpConnection) : option TcpConnection :=
  let remaining := lenZ data - nwrote in
  if remaining =? 0 then Some (observe (Took data) c)
  else
    let oldLen := readableBytes (tc_outputBuffer c) in
    let c := match te_highWater E with
             | Some mark => if (mark <=? oldLen + remaining) && (oldLen <? mark)
                            then queueInLoop (FHighWater (oldLen + remaining)) c else c
             | None => c
             end in
    out ← append (dropZ nwrote data) (tc_outputBuffer c);
    let c := observe (Took data) (set_output out c) in
    if negb (isWriting c) then enableWriting c else Some c.

Definition sendInLoop (E : TcpEnv) (data : list Z) (c : TcpConnection) : option TcpConnection :=
  if decide (tc_state c = kDisconnected) then Some (observe (Lost data) c)
  else
    '(nwrote, faultError, c) ← sendNow E data c;
    if negb (0 <=? lenZ data - nwrote) then None
    else if (faultError : bool) then Some (observe (Lost data) c)
    else sendRest E nwrote data c.

(** The three [send]s, in the loop's thread; the caller's own buffer is not
    part of the connection. *)
Definition send (E : TcpEnv) (data : list Z) (c : TcpConnection) : option TcpConnection :=
  if decide (tc_state c = kConnected) then sendInLoop E data (observe (Sent data) c) else Some c.

Definition shutdown (c : TcpConnection) : TcpConnection :=
  if decide (tc_state c = kConnected) then shutdownInLoop (setState kDisconnecting c) else c.

Definition forceClose (c : TcpConnection) : TcpConnection :=
  if decide (tc_state c = kConnected \/ tc_state c = kDisconnecting)
  then queueInLoop FForceClose (setState kDisconnecting c) else c.

Definition userCall (E : TcpEnv) (u : UserCall) (c : TcpConnection) : option TcpConnection :=
  match u with
  | USend data => send E data c
  | UShutdown => Some (shutdown c)
  | UForceClose => Some (forceClose c)
  | URetrieveAll => Some (set_input (retrieveAll (tc_inputBuffer c)) c)
  end.

(** The same calls from another thread, part by part.  The state is read, and
    later written whatever it has become: nothing keeps the loop from running in
    between. *)
Definition otherCall (p : Phase) (u : UserCall) (c : TcpConnection) : option TcpConnection :=
  let seen := observe (Other p u) c in
  match p, u with
  | PTest, (USend _ | UShutdown) => Some (if decide (tc_state c = kConnected) then seen else c)
  | PTest, UForceClose => Some (if decide (tc_state c = kConnected \/ tc_state c = kDisconnecting) then seen else c)
  | PStore, (UShutdown | UForceClose) => Some (setState kDisconnecting seen)
  | PQueue, USend data => Some (queueInLoop (FSend data) (observe (Sent data) seen))
  | PQueue, UShutdown => Some (queueInLoop FShutdown seen)
  | PQueue, UForceClose => Some (queueInLoop FForceClose seen)
  | PStore, USend _ | _, URetrieveAll => None
  end.

(** A callback: what the user does in it. *)
Fixpoint userCalls (E : TcpEnv) (us : list UserCall) (c : TcpConnection) : option TcpConnection :=
  match us with [] => Some c | u :: us' => c ← userCall E u c; userCalls E us' c end.
Definition callback (E : TcpEnv) (o : Obs) (c : TcpConnection) : option TcpConnection :=
  let c := observe o c in userCalls E (te_client E (tc_log c)) c.

(** [TcpServer::removeConnection], in the loop of the connection. *)
Definition removeConnection (c : TcpConnection) : option TcpConnection :=
  if negb (tc_inServer c) then None else Some (queueInLoop FDestroyed (set_inServer false c)).

Definition handleClose (E : TcpEnv) (c : TcpConnection) : option TcpConnection :=
  if negb (bool_decide (tc_state c = kConnected \/ tc_state c = kDisconnecting)) then None
  else
    c ← disableAll (setState kDisconnected c);
    c ← callback E (CbConnection false) c;
    removeConnection (observe CbClose c).

Definition handleError (E : TcpEnv) (c : TcpConnection) : option TcpConnection :=
  if decide (tc_state c = kConnected \/ tc_state c = kDisconnecting) then handleClose E c else Some c.

Definition handleRead (E : TcpEnv) (t : Z) (c : TcpConnection) : option TcpConnection :=
  input ← ensureWritableBytes kRdLen (tc_inputBuffer c);
  let c := set_input input c in
  if negb (writableBytes input <? 2 ^ 31) then None
  else
    match te_recv E (tc_log c) (writableBytes input) with
    | Some (b :: data) =>
        let c := observe (SysRecv (lenZ (b :: data))) c in
        input ← writeAt (b :: data) input;
        input ← hasWritten (lenZ (b :: data)) input;
        callback E (CbMessage (b :: data) t) (set_input input c)
    | Some [] => handleClose E (observe (SysRecv 0) c)
    | None => handleError E (observe (SysRecv (-1)) c)
    end.

Definition handleWrite (E : TcpEnv) (c : TcpConnection) : option TcpConnection :=
  if isWriting c then
    '(n, _, c) ← (sysSend E (readable (tc_outputBuffer c)) c : option (Z * Errno * TcpConnection));
    if 0 <? n then
      out ← retrieve n (tc_outputBuffer c);
      let c := set_output out c in
      if readableBytes out =? 0 then
        c ← disableWriting c;
        let c := if te_writeComplete E then queueInLoop FWriteComplete c else c in
        Some (if decide (tc_state c = kDisconnecting) then shutdownInLoop c else c)
      else Some c
    else Some c
  else Some c.

Definition connectEstablished (E : TcpEnv) (c : TcpConnection) : option TcpConnection :=
  if negb (bool_decide (tc_state c = kConnecting)) then None
  else
    c ← enableReading (tie (setState kConnected c));
    callback E (CbConnection true) c.

Definition connectDestroyed (E : TcpEnv) (c : TcpConnection) : option TcpConnection :=
  c ← (if decide (tc_state c = kConnected) then
         c ← disableAll (setState kDisconnected c);
         callback E (CbConnection false) c
       else Some c);
  removeChannel c.

Definition forceCloseInLoop (E : TcpEnv) (c : TcpConnection) : option TcpConnection :=
  if decide (tc_state c = kConnected \/ tc_state c = kDisconnecting) then handleClose E c else Some c.

(** ** The loop *)

(** [Channel::handleEventWithGuard]: the callbacks of the returned events. *)
Definition handleEvent (E : TcpEnv) (revents t : Z) (c : TcpConnection) : option TcpConnection :=
  c ← (if has revents POLLHUP && negb (has revents POLLIN) then handleClose E c else Some c);
  c ← (if has revents (Z.lor POLLERR POLLNVAL) then handleError E c else Some c);
  c ← (if has revents (Z.lor POLLIN (Z.lor POLLPRI POLLRDHUP)) then handleRead E t c else Some c);
  if has revents POLLOUT then handleWrite E c else Some c.

Definition runFunctor (E : TcpEnv) (f : Functor) (c : TcpConnection) : option TcpConnection :=
  match f with
  | FSend data => sendInLoop E data c
  | FShutdown => Some (shutdownInLoop c)
  | FForceClose => forceCloseInLoop E c
  | FWriteComplete => callback E CbWriteComplete c
  | FHighWater n => callback E (CbHighWater n) c
  | FDestroyed => connectDestroyed E c
  end.

Fixpoint runFunctors (E : TcpEnv) (fs : list Functor) (c : TcpConnection) : option TcpConnection :=
  match fs with [] => Some c | f :: fs' => c ← runFunctor E f c; runFunctors E fs' c end.

(** [EventLoop::doPendingFunctors] *)
Definition doPendingFunctors (E : TcpEnv) (c : TcpConnection) : option TcpConnection :=
  runFunctors E (tc_pending c) (set_pending [] c).

(** [TcpServer::~TcpServer], for this connection. *)
Definition serverDestroyed (E : TcpEnv) (c : TcpConnection) : option TcpConnection :=
  if tc_inServer c then connectDestroyed E (set_inServer false c) else Some c.

(** The assertion of [TcpConnection::~TcpConnection]. *)
Definition destroyConnection (c : TcpConnection) : option unit :=
  match tc_state c with kDisconnected => Some tt | _ => None end.

(** What can happen to a connection. *)
Inductive TcpEvent :=
| EvEstablish                       (* [TcpServer::newConnection] *)
| EvPoll (revents t : Z)            (* the poller returned the channel *)
| EvFunctors                        (* the end of an iteration of the loop *)
| EvCall (u : UserCall)             (* a call outside the connection's callbacks *)
| EvOther (p : Phase) (u : UserCall)  (* a part of a call from another thread *)
| EvServerDestroyed.

Definition tcpStep (E : TcpEnv) (e : TcpEvent) (c : TcpConnection) : option TcpConnection :=
  match e with
  | EvEstablish => connectEstablished E c
  | EvPoll revents t => handleEvent E revents t c
  | EvFunctors => doPendingFunctors E c
  | EvCall u => userCall E u c
  | EvOther p u => otherCall p u c
  | EvServerDestroyed => serverDestroyed E c
  end.
