(* ===== verification/TcpInv.v ===== *)
(** * The invariant of TCP connections

    What a history says, which events can happen, the invariant of the states
    reached, and for every operation of [Tcp.v] that it succeeds and keeps the
    invariant ([tcpStep_inv], [reachable_inv]). *)

From stdpp Require Import base list numbers gmap strings.
From Stdlib Require Import ZArith Lia.
From S2P Require Import Prelude Buffer Tcp.
Local Open Scope Z_scope.

(** ** Reading a history *)

(** The bytes the user handed over, those [sendInLoop] took, and those the
    kernel accepted. *)
Definition offered (l : list Obs) : list Z := flat_map (fun o => match o with Sent d => d | _ => [] end) l.
Definition accepted (l : list Obs) : list Z := flat_map (fun o => match o with Took d => d | _ => [] end) l.
Definition wire (l : list Obs) : list Z := flat_map (fun o => match o with SysSend d n => takeZ n d | _ => [] end) l.

(** The bytes of queued sends and of a list of calls. *)
Definition queued (fs : list Functor) : list Z := flat_map (fun f => match f with FSend d => d | _ => [] end) fs.
Definition requested (us : list UserCall) : list Z := flat_map (fun u => match u with USend d => d | _ => [] end) us.

(** The connection's life as its callbacks tell it. *)
Inductive Life := Unborn | Up | Down | Broken.

Definition lifeStep (s : Life) (o : Obs) : Life :=
  match o, s with
  | CbConnection true, Unborn => Up
  | CbMessage _ _, Up => Up
  | CbConnection false, Up => Down
  | CbClose, Down => Down
  | CbConnection _, _ | CbMessage _ _, _ | CbClose, _ => Broken
  | _, _ => s
  end.
Definition life (l : list Obs) : Life := fold_left lifeStep l Unborn.

(** A history in which the write side is shut down behind the last byte. *)
Inductive tidy : list Obs -> Prop :=
| tidy_nil : tidy []
| tidy_snoc l o : tidy l -> (o = SysShutdownWr -> accepted l = wire l) ->
    (SysShutdownWr ∈ l -> match o with Took _ | SysSend _ _ => False | _ => True end) -> tidy (l ++ [o]).
#[export] Hint Constructors tidy : ether.

(** ** Reachable states *)

(** Under 1 GiB is sent over a connection, and waits unread in it. *)
Definition kBudget : Z := 2 ^ 30.

(** The kernel as documented: [::send] takes a part of the bytes or fails,
    [::recv] returns no more than asked; and a user within the budget. *)
Record env_ok (E : TcpEnv) : Prop := {
  eo_send : forall l data, -1 <= fst (te_send E l data) <= lenZ data;
  eo_recv : forall l n data, te_recv E l n = Some data -> lenZ data <= n;
  eo_client : forall l, lenZ (offered l) <= kBudget -> lenZ (offered l) + lenZ (requested (te_client E l)) <= kBudget;
}.

(** The events that close the connection and those that read. *)
Definition closes (revents : Z) : bool :=
  (has revents POLLHUP && negb (has revents POLLIN)) || has revents (Z.lor POLLERR POLLNVAL).
Definition reads (revents : Z) : bool := has revents (Z.lor POLLIN (Z.lor POLLPRI POLLRDHUP)).

(** How often a part of a call from another thread has happened. *)
Definition others (p : Phase) (u : UserCall) (l : list Obs) : nat := length (filter (fun o => o = Other p u) l).

(** When a part of such a call can happen: the test at any time, each later part
    when the one before it has; except a store after the connection closed,
    which [tcp_unsafe_events] is about. *)
Definition other_may (c : TcpConnection) (p : Phase) (u : UserCall) : Prop :=
  match p, u with
  | PTest, (USend _ | UShutdown | UForceClose) => True
  | PStore, (UShutdown | UForceClose) =>
      (others PStore u (tc_log c) < others PTest u (tc_log c))%nat /\ tc_state c <> kDisconnected
  | PQueue, USend data =>
      (others PQueue u (tc_log c) < others PTest u (tc_log c))%nat /\ lenZ (offered (tc_log c)) + lenZ data <= kBudget
  | PQueue, (UShutdown | UForceClose) => (others PQueue u (tc_log c) < others PStore u (tc_log c))%nat
  | PStore, USend _ | _, URetrieveAll => False
  end.

(** When an event can happen, short of those [tcp_unsafe_events] shows to fail.
    A channel is returned only while it is watched.  The exceptions: an error is
    not reported together with data that waits to be read, a server is not
    destroyed while one of its connections is being shut down, and another
    thread's call does not store its state once the connection is closed. *)
Definition may_happen (E : TcpEnv) (c : TcpConnection) (e : TcpEvent) : Prop :=
  match e with
  | EvEstablish => tc_state c = kConnecting
  | EvPoll revents _ =>
      pl_epoll (tc_poll c) <> None /\ readableBytes (tc_inputBuffer c) < kBudget /\
      (closes revents = true -> reads revents = true ->
       forall l n, CbClose ∈ l -> te_recv E (tc_log c ++ l) n = None)
  | EvFunctors => True
  | EvCall u => lenZ (offered (tc_log c)) + lenZ (requested [u]) <= kBudget
  | EvOther p u => other_may c p u
  | EvServerDestroyed => tc_state c <> kConnecting /\ tc_state c <> kDisconnecting
  end.

(** [inLoop]: no other thread uses the connection. *)
Inductive reachable (E : TcpEnv) (inLoop : bool) : TcpConnection -> Prop :=
| reachable_new : reachable E inLoop newConnection
| reachable_step c e c' : reachable E inLoop c -> may_happen E c e ->
    (inLoop = true -> match e with EvOther _ _ => False | _ => True end) ->
    tcpStep E e c = Some c' -> reachable E inLoop c'.

(** ** The invariant *)

Definition in_ok (b : Buffer) : Prop := buffer_ok b /\ lenZ (bf_buffer b) <= kBudget + 4096.

(** The output buffer: [accepted = wire ++ waiting], within the budget; [part]
    is on the wire but not recorded as accepted yet. *)
Record out_ok (part : list Z) (rest : list Functor) (b : Buffer) (pending : list Functor) (log : list Obs) : Prop := {
  oo_buffer : buffer_ok b;
  oo_size : lenZ (bf_buffer b) <= 4096 + lenZ (offered log);
  oo_bytes : readableBytes b + lenZ (queued (rest ++ pending)) <= lenZ (offered log);
  oo_budget : lenZ (offered log) <= kBudget;
  oo_wire : accepted log ++ part = wire log ++ readable b;
}.

(** The channel watches for reading while the connection lives, and for writing
    while output waits. *)
Definition watched (b : Buffer) : Z := if decide (readable b = []) then kReadEvent else Z.lor kReadEvent kWriteEvent.

Definition chan_ok (s : StateE) (ch : Channel) (p : PollEntry) (b : Buffer) : Prop :=
  match s with
  | kConnecting => ch_events ch = kNoneEvent /\ ch_index ch = kNew /\ p = mkPoll false None
  | kConnected | kDisconnecting =>
      ch_events ch = watched b /\ ch_index ch = kAdded /\ p = mkPoll true (Some (watched b))
  | kDisconnected =>
      ch_events ch = kNoneEvent /\
      ((ch_index ch = kDeleted /\ p = mkPoll true None) \/ (ch_index ch = kNew /\ p = mkPoll false None))
  end.

Definition life_of (s : StateE) : Life :=
  match s with kConnecting => Unborn | kConnected | kDisconnecting => Up | kDisconnected => Down end.

(** A functor only another thread queues. *)
Definition foreign (f : Functor) : bool := match f with FSend _ | FShutdown => true | _ => false end.

(** What holds besides when only the loop's thread is involved. *)
Record order_ok (s : StateE) (b : Buffer) (fs : list Functor) (log : list Obs) : Prop := {
  od_tidy : tidy log;
  od_shut : SysShutdownWr ∈ log -> (s = kDisconnecting \/ s = kDisconnected) /\ readable b = [];
  od_local : Forall (fun f => foreign f = false) fs;
}.

Definition mid (inLoop : bool) (part : list Z) (rest : list Functor) (c : TcpConnection) : Prop :=
  in_ok (tc_inputBuffer c) /\ out_ok part rest (tc_outputBuffer c) (tc_pending c) (tc_log c) /\
  chan_ok (tc_state c) (tc_channel c) (tc_poll c) (tc_outputBuffer c) /\
  life (tc_log c) = life_of (tc_state c) /\
  (tc_state c = kConnecting -> rest ++ tc_pending c = []) /\
  (inLoop = true -> order_ok (tc_state c) (tc_outputBuffer c) (rest ++ tc_pending c) (tc_log c)).
Definition core (inLoop : bool) : list Functor -> TcpConnection -> Prop := mid inLoop [].

(** Who will destroy the connection: its server owns it until it is closed, then
    exactly one queued [connectDestroyed] while the channel is registered. *)
Definition destroys (fs : list Functor) : nat :=
  length (filter (fun f => match f with FDestroyed => true | _ => false end = true) fs).

Definition owned (rest : list Functor) (c : TcpConnection) : Prop :=
  if decide (tc_state c = kDisconnected)
  then tc_inServer c = false /\ destroys (rest ++ tc_pending c) = (if pl_known (tc_poll c) then 1 else 0)%nat
  else tc_inServer c = true /\ destroys (rest ++ tc_pending c) = 0%nat.

(** What calls of the user leave alone. *)
Definition quiet (o : Obs) : Prop := match o with CbConnection _ | CbMessage _ _ | CbClose => False | _ => True end.

Record frame (L : list Obs -> Prop) (c c' : TcpConnection) : Prop := {
  fr_server : tc_inServer c' = tc_inServer c;
  fr_state : tc_state c' = tc_state c \/ (tc_state c = kConnected /\ tc_state c' = kDisconnecting);
  fr_pending : exists fs, tc_pending c' = tc_pending c ++ fs /\ destroys fs = 0%nat;
  fr_known : pl_known (tc_poll c') = pl_known (tc_poll c);
  fr_log : exists l, tc_log c' = tc_log c ++ l /\ Forall quiet l /\ L l;
  fr_input : readableBytes (tc_inputBuffer c') <= readableBytes (tc_inputBuffer c);
}.

(** What was offered meanwhile was accepted, or partly lost; nothing was offered
    and nothing accepted; [data] was accepted or lost. *)
Definition settled (l : list Obs) : Prop := (forall d, Lost d ∉ l) -> accepted l = offered l.
Definition silent (l : list Obs) : Prop := offered l = [] /\ accepted l = [].
Definition dealt (data : list Z) (l : list Obs) : Prop := offered l = [] /\ (accepted l = data \/ Lost data ∈ l).
Notation calls := (frame settled).

(** ** Lemmas *)

Ltac tcp_simpl := cbn [setState set_channel set_input set_output set_pending set_inServer observe queueInLoop tie
  tc_state tc_channel tc_poll tc_inputBuffer tc_outputBuffer tc_pending tc_inServer tc_log] in *.

Lemma budget_val : kBudget = 1073741824. Proof. done. Qed.

Lemma flat_map_snoc {A B} (f : A -> list B) l x : flat_map f (l ++ [x]) = flat_map f l ++ f x.
Proof. rewrite flat_map_app. cbn. by rewrite app_nil_r. Qed.

Lemma lenZ_offered_snoc l o : lenZ (offered (l ++ [o])) = lenZ (offered l) + lenZ (offered [o]).
Proof. unfold offered. by rewrite flat_map_app, lenZ_app. Qed.

Lemma life_snoc l o : life (l ++ [o]) = lifeStep (life l) o.
Proof. unfold life. by rewrite fold_left_app. Qed.

Lemma elem_snoc {A} (x y : A) l : x ∈ l ++ [y] <-> x ∈ l \/ x = y.
Proof. rewrite elem_of_app, list_elem_of_singleton. tauto. Qed.

Lemma destroys_app fs gs : destroys (fs ++ gs) = (destroys fs + destroys gs)%nat.
Proof. unfold destroys. by rewrite filter_app, length_app. Qed.

Lemma frame_refl L c : L [] -> frame L c c.
Proof. intros HL. constructor; [done|by left| |done| |lia]; exists []; by rewrite app_nil_r. Qed.

Lemma frame_trans L1 L2 (L : list Obs -> Prop) c1 c2 c3 : (forall l1 l2, L1 l1 -> L2 l2 -> L (l1 ++ l2)) ->
  frame L1 c1 c2 -> frame L2 c2 c3 -> frame L c1 c3.
Proof.
  intros HL [A1 A2 (f1 & A3 & A4) A5 (l1 & A6 & A7 & A9) A8] [B1 B2 (f2 & B3 & B4) B5 (l2 & B6 & B7 & B9) B8]. constructor.
  - congruence.
  - destruct A2 as [A2 | [A2 A2']], B2 as [B2 | [B2 B2']]; rewrite ?A2, ?A2' in *; first [tauto|congruence].
  - exists (f1 ++ f2). rewrite B3, A3, destroys_app, app_assoc. split; [done|lia].
  - congruence.
  - exists (l1 ++ l2). rewrite B6, A6, app_assoc. split_and!; [done|by apply Forall_app|auto].
  - lia.
Qed.

Lemma frame_weaken L L' c c' : (forall l, L l -> L' l) -> frame L c c' -> frame L' c c'.
Proof. intros HL [A B C D (l & F & G & K) J]. constructor; try done. exists l. auto. Qed.

Lemma offered_app l l' : offered (l ++ l') = offered l ++ offered l'.
Proof. apply flat_map_app. Qed.
Lemma accepted_app l l' : accepted (l ++ l') = accepted l ++ accepted l'.
Proof. apply flat_map_app. Qed.
Lemma wire_app l l' : wire (l ++ l') = wire l ++ wire l'.
Proof. apply flat_map_app. Qed.

Lemma silent_app l l' : silent l -> silent l' -> silent (l ++ l').
Proof. intros [A B] [C D]. split; [rewrite offered_app, A, C|rewrite accepted_app, B, D]; done. Qed.

Lemma settled_app l l' : settled l -> settled l' -> settled (l ++ l').
Proof.
  intros A B H. rewrite accepted_app, offered_app, A, B; [done| |]; intros d Hd; apply (H d), elem_of_app; auto.
Qed.

Lemma dealt_app data l l' : silent l -> dealt data l' -> dealt data (l ++ l').
Proof.
  intros [A B] [C D]. split; [by rewrite offered_app, A, C|]. rewrite accepted_app, B. destruct D; [by left|].
  right. apply elem_of_app. auto.
Qed.

Lemma calls_trans c1 c2 c3 : calls c1 c2 -> calls c2 c3 -> calls c1 c3.
Proof. apply frame_trans, settled_app. Qed.

(** *** Channel and poller *)

Lemma updateEvents_new ev c : ch_index (tc_channel c) = kNew -> tc_poll c = mkPoll false None ->
  updateEvents ev c = Some (set_channel (mkChannel ev kAdded (ch_tied (tc_channel c)) true) (mkPoll true (Some ev)) c).
Proof. intros Hi Hp. unfold updateEvents, pollerUpdate. cbn [ch_index]. by rewrite Hi, Hp. Qed.

Lemma updateEvents_mod ev ev0 c : ch_index (tc_channel c) = kAdded -> tc_poll c = mkPoll true (Some ev0) -> ev <> kNoneEvent ->
  updateEvents ev c = Some (set_channel (mkChannel ev kAdded (ch_tied (tc_channel c)) true) (mkPoll true (Some ev)) c).
Proof.
  intros Hi Hp He. unfold updateEvents, pollerUpdate. cbn [ch_index]. rewrite Hi, Hp. cbn.
  unfold isNoneEvent. cbn [ch_events]. destruct (Z.eqb_spec ev kNoneEvent); [done|]. done.
Qed.

Lemma updateEvents_del ev0 c : ch_index (tc_channel c) = kAdded -> tc_poll c = mkPoll true (Some ev0) ->
  updateEvents kNoneEvent c =
  Some (set_channel (mkChannel kNoneEvent kDeleted (ch_tied (tc_channel c)) true) (mkPoll true None) c).
Proof. intros Hi Hp. unfold updateEvents, pollerUpdate. cbn [ch_index]. by rewrite Hi, Hp. Qed.

Lemma removeChannel_deleted c : ch_events (tc_channel c) = kNoneEvent -> ch_index (tc_channel c) = kDeleted ->
  tc_poll c = mkPoll true None ->
  removeChannel c = Some (set_channel (mkChannel kNoneEvent kNew (ch_tied (tc_channel c)) false) (mkPoll false None) c).
Proof.
  intros He Hi Hp. unfold removeChannel, pollerRemove, isNoneEvent. cbn [ch_index ch_events]. by rewrite He, Hi, Hp.
Qed.

Lemma watched_live b : watched b <> kNoneEvent.
Proof. unfold watched. by case_decide. Qed.

(** A live connection watches for writing exactly while output waits. *)
Lemma isWriting_waiting c : chan_ok (tc_state c) (tc_channel c) (tc_poll c) (tc_outputBuffer c) ->
  isWriting c = bool_decide ((tc_state c = kConnected \/ tc_state c = kDisconnecting) /\ readable (tc_outputBuffer c) <> []).
Proof.
  intros H. unfold isWriting. unfold chan_ok in H. destruct (tc_state c) eqn:Es.
  1,2: destruct H as [-> _]; symmetry; apply bool_decide_eq_false; intros [[|] _]; done.
  all: destruct H as [-> _]; unfold watched; case_decide as Hd; symmetry;
    [apply bool_decide_eq_false; intros [_ ?]; done|apply bool_decide_eq_true; split; [tauto|done]].
Qed.

Lemma readableBytes_nonneg b : buffer_ok b -> 0 <= readableBytes b.
Proof. intros H. rewrite <- (readable_length b H). apply lenZ_nonneg. Qed.

Lemma readable_nil b : buffer_ok b -> readable b = [] <-> readableBytes b = 0.
Proof.
  intros H. rewrite <- (readable_length b H). split; [by intros ->|]. destruct (readable b); [done|].
  rewrite lenZ_cons. pose proof (lenZ_nonneg l). lia.
Qed.

(** *** Observations *)

(** Entries that say nothing of the bytes. *)
Definition neutral (o : Obs) : bool :=
  match o with Sent _ | Took _ | Lost _ | SysSend _ _ | SysShutdownWr => false | _ => true end.

Lemma out_ok_log part rest b pending log o : offered [o] = [] -> accepted [o] = [] -> wire [o] = [] ->
  out_ok part rest b pending log -> out_ok part rest b pending (log ++ [o]).
Proof.
  intros H1 H2 H3 [A B C D F].
  constructor; rewrite ?offered_app, ?accepted_app, ?wire_app, ?H1, ?H2, ?H3, ?app_nil_r; done.
Qed.

Lemma order_ok_log s b fs log o :
  match o with Took _ | SysSend _ _ => SysShutdownWr ∉ log | SysShutdownWr => False | _ => True end ->
  order_ok s b fs log -> order_ok s b fs (log ++ [o]).
Proof.
  intros Ho [A B C]. constructor; [| |done].
  - apply tidy_snoc; [done|by intros ->|]. intros Hs. by destruct o.
  - rewrite elem_snoc. intros [|<-]; [auto|done].
Qed.

Lemma mid_observe inLoop part rest o c : neutral o = true -> lifeStep (life (tc_log c)) o = life (tc_log c) ->
  mid inLoop part rest c -> mid inLoop part rest (observe o c).
Proof.
  intros Hn Hl (A & B & C & D & G & F). unfold mid. tcp_simpl. split_and!; [done| |done|by rewrite life_snoc, Hl|done|].
  - by destruct o; try discriminate Hn; apply out_ok_log.
  - intros Hi. apply order_ok_log; [by destruct o; try discriminate Hn|auto].
Qed.

Lemma frame_observe L o c : quiet o -> L [o] -> frame L c (observe o c).
Proof.
  intros Hq HL. constructor; tcp_simpl; [done|by left| |done| |lia]; [exists []; by rewrite app_nil_r|].
  exists [o]. split_and!; [done|by constructor|done].
Qed.

Lemma quiet_life o s : quiet o -> lifeStep s o = s.
Proof. by destruct o; intros []. Qed.

(** *** Queues *)

Lemma queued_app fs gs : queued (fs ++ gs) = queued fs ++ queued gs.
Proof. apply flat_map_app. Qed.

Lemma mid_queue inLoop part rest f c : foreign f = false -> tc_state c <> kConnecting ->
  mid inLoop part rest c -> mid inLoop part rest (queueInLoop f c).
Proof.
  intros Hf Hs (A & B & C & D & G & F). unfold mid. tcp_simpl. split_and!; [done| |done|done|done|].
  - destruct B as [B1 B2 B3 B4 B5]. constructor; try done. rewrite !queued_app in *.
    by destruct f; try discriminate Hf; rewrite app_nil_r.
  - intros Hi. destruct (F Hi) as [F1 F2 F3]. constructor; try done. rewrite app_assoc. apply Forall_app. auto.
Qed.

Lemma frame_queue L f c : L [] -> destroys [f] = 0%nat -> frame L c (queueInLoop f c).
Proof. intros HL Hf. constructor; tcp_simpl; [done|by left|by exists [f]|done|exists []; by rewrite app_nil_r|lia]. Qed.

(** ** Sending *)

Lemma silent_nil : silent []. Proof. done. Qed.
Lemma settled_nil : settled []. Proof. done. Qed.
#[local] Hint Resolve silent_nil settled_nil : core.

(** Live states. *)
Definition live (c : TcpConnection) : Prop := tc_state c = kConnected \/ tc_state c = kDisconnecting.

Lemma sysSend_ok E inLoop rest data c : env_ok E -> mid inLoop [] rest c -> live c -> lenZ data < 2 ^ 31 ->
  readable (tc_outputBuffer c) = [] -> (inLoop = true -> SysShutdownWr ∉ tc_log c) ->
  exists n errno, sysSend E data c = Some (n, errno, observe (SysSend data n) c) /\ -1 <= n <= lenZ data /\
    mid inLoop (takeZ n data) rest (observe (SysSend data n) c) /\ frame silent c (observe (SysSend data n) c).
Proof.
  intros HE (A & B & C & D & G & F) Hl Hd Hr Hs. pose proof (eo_send _ HE (tc_log c) data) as Hn.
  unfold sysSend. destruct (Z.ltb_spec (lenZ data) (2 ^ 31)); [|lia]. cbn [negb].
  destruct (te_send E (tc_log c) data) as [n errno]. exists n, errno. split; [done|]. split; [done|].
  split; [|by apply frame_observe]. unfold mid. tcp_simpl. split_and!; [done| |done|by rewrite life_snoc|done|].
  - destruct B as [B1 B2 B3 B4 B5]. constructor; rewrite ?offered_app, ?accepted_app, ?wire_app, ?app_nil_r; try done.
    rewrite Hr, !app_nil_r in *. cbn. by rewrite app_nil_r, B5.
  - intros Hi. apply order_ok_log; auto.
Qed.

Lemma sendNow_ok E inLoop rest data c : env_ok E -> core inLoop rest c -> live c -> lenZ data < 2 ^ 31 ->
  (inLoop = true -> SysShutdownWr ∉ tc_log c) ->
  exists n fault c', sendNow E data c = Some (n, fault, c') /\ 0 <= n <= lenZ data /\
    mid inLoop (takeZ n data) rest c' /\ frame silent c c' /\ tc_state c' = tc_state c /\
    tc_outputBuffer c' = tc_outputBuffer c /\ queued (tc_pending c') = queued (tc_pending c) /\
    (fault = true -> n = 0) /\ (inLoop = true -> SysShutdownWr ∉ tc_log c').
Proof.
  intros HE Hc Hl Hd Hs. pose proof Hc as (A & B & C & D & G & F). pose proof (lenZ_nonneg data) as Hn0. unfold sendNow.
  destruct (decide (readable (tc_outputBuffer c) = [])) as [Hr|Hr]; cycle 1.
  { assert (isWriting c = true) as -> by (rewrite isWriting_waiting by done; by apply bool_decide_eq_true).
    cbn [negb andb]. exists 0, false, c. split_and!; try done; try lia. by apply frame_refl. }
  assert (isWriting c = false) as -> by (rewrite isWriting_waiting by done; apply bool_decide_eq_false; tauto).
  assert (readableBytes (tc_outputBuffer c) = 0) as -> by (by apply readable_nil; [apply B|]). cbn [negb andb Z.eqb].
  destruct (sysSend_ok E inLoop rest data c HE Hc Hl Hd Hr Hs) as (n & errno & Es & Hn & Hm & Hf).
  rewrite Es. cbn [mbind option_bind].
  assert (inLoop = true -> SysShutdownWr ∉ tc_log (observe (SysSend data n) c)) as Hs'.
  { intros Hi. tcp_simpl. rewrite elem_snoc. intros [?|?]; [by apply Hs|done]. }
  destruct (Z.leb_spec 0 n) as [Hp|Hp].
  - eexists n, false, _. split; [done|]. split; [lia|]. destruct ((lenZ data - n =? 0) && te_writeComplete E).
    + split_and!; try done; [apply mid_queue; [done| |done]|..].
      * destruct Hl as [Hl|Hl]; tcp_simpl; by rewrite Hl.
      * eapply frame_trans; [|exact Hf|by apply (frame_queue silent)]. apply silent_app.
      * tcp_simpl. by rewrite queued_app, app_nil_r.
    + by split_and!.
  - assert (takeZ n data = []) as Et by (replace n with (-1) by lia; done).
    eexists 0, _, _. split; [done|]. split; [lia|]. rewrite Et in Hm. by split_and!.
Qed.

(** The output buffer after [append] of what the kernel did not take. *)
Lemma append_rest rest b pending log n data : out_ok (takeZ n data) rest b pending log -> 0 <= n < lenZ data ->
  readableBytes b + lenZ (queued (rest ++ pending)) + (lenZ data - n) <= lenZ (offered log) ->
  exists out, append (dropZ n data) b = Some out /\ out_ok [] rest out pending (log ++ [Took data]) /\ readable out <> [].
Proof.
  intros [B1 B2 B3 B4 B5] Hn Hb. rewrite budget_val in B4. pose proof (lenZ_nonneg (queued (rest ++ pending))) as Hq.
  pose proof (readableBytes_nonneg b B1) as Hn0.
  assert (lenZ (dropZ n data) = lenZ data - n) as Hlen by (rewrite lenZ_dropZ; lia).
  destruct (append_ok (dropZ n data) b B1) as (out & Ea & Hok & Hro & Hso).
  { unfold addressable. change kCheapPrepend with 8. lia. }
  change kCheapPrepend with 8 in Hso.
  pose proof (readable_length out Hok) as Lo. rewrite Hro, lenZ_app, Hlen, (readable_length _ B1) in Lo.
  exists out. split; [done|]. split.
  - constructor; rewrite ?offered_app, ?accepted_app, ?wire_app, ?app_nil_r; rewrite ?budget_val; cbn [offered flat_map];
      rewrite ?app_nil_r; try done; try lia.
    cbn. rewrite !app_nil_r, Hro, app_assoc, <- B5, <- (takeZ_dropZ n data) at 1. by rewrite app_assoc.
  - rewrite Hro. intros [_ Hx]%app_eq_nil. rewrite Hx in Hlen. change (@lenZ Z []) with 0 in Hlen. lia.
Qed.

(** Once output waits, the channel watches for writing. *)
Lemma watch_output c out o : live c -> chan_ok (tc_state c) (tc_channel c) (tc_poll c) (tc_outputBuffer c) -> readable out <> [] ->
  let c2 := observe o (set_output out c) in
  exists ch p, (if negb (isWriting c2) then enableWriting c2 else Some c2) = Some (set_channel ch p c2) /\
    chan_ok (tc_state c) ch p out /\ pl_known p = pl_known (tc_poll c).
Proof.
  intros Hl C Hne c2. assert (watched out = Z.lor kReadEvent kWriteEvent) as Hw by (unfold watched; by rewrite decide_False).
  assert (isWriting c2 = isWriting c) as -> by done. rewrite isWriting_waiting by done.
  assert (ch_events (tc_channel c) = watched (tc_outputBuffer c) /\ ch_index (tc_channel c) = kAdded /\
    tc_poll c = mkPoll true (Some (watched (tc_outputBuffer c)))) as (H1 & H2 & H3) by (by destruct Hl as [Hl|Hl]; rewrite Hl in C).
  case_bool_decide as Hwr; cbn [negb].
  - exists (tc_channel c), (tc_poll c). split; [done|]. split; [|done].
    assert (watched (tc_outputBuffer c) = watched out) as Hww by (rewrite Hw; unfold watched; by rewrite decide_False by tauto).
    rewrite Hww in *. by destruct Hl as [-> | ->].
  - unfold enableWriting. rewrite (updateEvents_mod _ (watched (tc_outputBuffer c)));
      [|done|done|subst c2; tcp_simpl; rewrite H1; unfold watched; by case_decide].
    assert (Z.lor (ch_events (tc_channel c2)) kWriteEvent = watched out) as ->
      by (subst c2; tcp_simpl; rewrite H1, Hw; unfold watched; by case_decide).
    eexists _, _. split; [done|]. split; [by destruct Hl as [-> | ->]|by rewrite H3].
Qed.

(** The high water mark. *)
Lemma highWater_ok E inLoop part rest oldLen n c : mid inLoop part rest c -> tc_state c <> kConnecting ->
  let c1 := match te_highWater E with
            | Some mark => if (mark <=? oldLen + n) && (oldLen <? mark) then queueInLoop (FHighWater (oldLen + n)) c else c
            | None => c
            end in
  mid inLoop part rest c1 /\ frame silent c c1 /\ tc_state c1 = tc_state c /\ tc_outputBuffer c1 = tc_outputBuffer c /\
  queued (tc_pending c1) = queued (tc_pending c) /\ tc_log c1 = tc_log c.
Proof.
  intros Hm Hs c1. subst c1. destruct (te_highWater E) as [mark|]; [case_match|]; [|split_and!; try done; by apply frame_refl..].
  split_and!; try done; [by apply mid_queue|by apply frame_queue|]. tcp_simpl. by rewrite queued_app, app_nil_r.
Qed.

Lemma dealt_took data : dealt data [Took data].
Proof. split; [done|]. left. cbn. by rewrite app_nil_r. Qed.

Lemma sendRest_ok E inLoop rest n data c : mid inLoop (takeZ n data) rest c -> live c -> 0 <= n <= lenZ data ->
  readableBytes (tc_outputBuffer c) + lenZ (queued (rest ++ tc_pending c)) + (lenZ data - n) <= lenZ (offered (tc_log c)) ->
  (inLoop = true -> SysShutdownWr ∉ tc_log c) ->
  exists c', sendRest E n data c = Some c' /\ core inLoop rest c' /\ frame (dealt data) c c' /\ tc_state c' = tc_state c.
Proof.
  intros Hm Hl Hn Hb Hs. unfold sendRest. destruct (Z.eqb_spec (lenZ data - n) 0) as [H0|H0].
  - rewrite (takeZ_all n data) in Hm by lia. eexists. split; [done|].
    split; [|split; [by apply frame_observe; [|apply dealt_took]|done]].
    destruct Hm as (A & [B1 B2 B3 B4 B5] & C & D & G & F). unfold core, mid. tcp_simpl.
    split_and!; [done| |done|by rewrite life_snoc|done|intros Hi; apply order_ok_log; auto].
    constructor; rewrite ?offered_app, ?accepted_app, ?wire_app, ?app_nil_r; try done. cbn. by rewrite !app_nil_r.
  - assert (tc_state c <> kConnecting) as Hs1 by (by destruct Hl as [-> | ->]).
    pose proof (highWater_ok E inLoop _ rest (readableBytes (tc_outputBuffer c)) (lenZ data - n) c Hm Hs1) as Hw. cbv zeta in Hw |- *.
    set (c1 := match te_highWater E with Some mark => _ | None => c end) in *. clearbody c1.
    destruct Hw as ((A & B & C & D & G & F) & Hf1 & Es1 & Eo1 & Eq1 & El1).
    assert (live c1) as Hl1 by (unfold live; by rewrite Es1). rewrite <- Eo1, <- El1, queued_app, <- Eq1, <- queued_app in *.
    destruct (append_rest rest _ _ _ n data B) as (out & Ea & Ho & Hne); [lia|done|].
    rewrite Ea. cbn [mbind option_bind].
    destruct (watch_output c1 out (Took data) Hl1 C Hne) as (ch & p & Ew & Hch & Hk). cbv zeta in Ew. rewrite Ew.
    eexists. split; [done|]. split; [|split; [|done]].
    + unfold core, mid. tcp_simpl. split_and!; try done; [by rewrite life_snoc|].
      intros Hi. apply order_ok_log; [auto|]. destruct (F Hi) as [F1 F2 F3]. constructor; try done. intros Hx. by destruct (Hs Hi).
    + eapply (frame_trans silent (dealt data)); [apply dealt_app|exact Hf1|].
      constructor; tcp_simpl; [done|by left| |done| |lia]; [exists []; by rewrite app_nil_r|].
      exists [Took data]. split_and!; [done|by repeat constructor|apply dealt_took].
Qed.

(** ** Calls of the user *)

Ltac no_bytes := rewrite ?offered_app; change (offered [SysShutdownWr]) with (@nil Z); rewrite ?app_nil_r;
  change (lenZ (@nil Z)) with 0; lia.

Lemma mid_lost inLoop part rest data c : part = [] -> mid inLoop part rest c -> core inLoop rest (observe (Lost data) c).
Proof.
  intros -> (A & B & C & D & G & F). unfold core, mid. tcp_simpl. split_and!; [done|by apply out_ok_log|done|by rewrite life_snoc|done|].
  intros Hi. apply order_ok_log; [done|auto].
Qed.

Lemma dealt_lost data : dealt data [Lost data].
Proof. split; [done|]. right. by apply list_elem_of_singleton. Qed.

Lemma sendInLoop_ok E inLoop rest data c : env_ok E -> core inLoop rest c -> tc_state c <> kConnecting ->
  readableBytes (tc_outputBuffer c) + lenZ (queued (rest ++ tc_pending c)) + lenZ data <= lenZ (offered (tc_log c)) ->
  (inLoop = true -> tc_state c <> kDisconnected -> SysShutdownWr ∉ tc_log c) ->
  exists c', sendInLoop E data c = Some c' /\ core inLoop rest c' /\ frame (dealt data) c c'.
Proof.
  intros HE Hc Hs Hb Hd. unfold sendInLoop. case_decide as Hdis.
  { eexists. split; [done|]. split; [by eapply mid_lost|]. apply frame_observe; [done|apply dealt_lost]. }
  assert (live c) as Hl by (unfold live; destruct (tc_state c); try done; tauto).
  assert (lenZ data < 2 ^ 31) as Hsize.
  { destruct Hc as (_ & [B1 B2 B3 B4 B5] & _). rewrite budget_val in B4. pose proof (readableBytes_nonneg _ B1).
    pose proof (lenZ_nonneg (queued (rest ++ tc_pending c))). lia. }
  destruct (sendNow_ok E inLoop rest data c HE Hc Hl Hsize) as (n & f & c1 & En & Hn & Hm & Hf & Es & Eo & Eq & Hfn & Hsh).
  { intros Hi. by apply Hd. }
  rewrite En. cbn [mbind option_bind]. destruct (Z.leb_spec 0 (lenZ data - n)); [|lia]. cbn [negb]. destruct f.
  - eexists. split; [done|]. split; [eapply mid_lost; [|exact Hm]; by rewrite Hfn|].
    eapply (frame_trans silent); [apply dealt_app|exact Hf|]. apply frame_observe; [done|apply dealt_lost].
  - destruct (sendRest_ok E inLoop rest n data c1 Hm) as (c2 & Er & Hc2 & Hf2 & _); [unfold live; by rewrite Es|done| |done|].
    + destruct Hf as [_ _ _ _ (l & El & _ & [Hl0 _]) _]. rewrite Eo, El, offered_app, Hl0, app_nil_r, queued_app, Eq, <- queued_app. lia.
    + exists c2. split_and!; [done|done|]. eapply (frame_trans silent); [apply dealt_app|exact Hf|exact Hf2].
Qed.

(** [send] records the offer first. *)
Lemma mid_sent inLoop rest data c : core inLoop rest c -> lenZ (offered (tc_log c)) + lenZ data <= kBudget ->
  core inLoop rest (observe (Sent data) c) /\
  readableBytes (tc_outputBuffer c) + lenZ (queued (rest ++ tc_pending c)) + lenZ data <= lenZ (offered (tc_log c ++ [Sent data])).
Proof.
  intros (A & [B1 B2 B3 B4 B5] & C & D & G & F) Hb. pose proof (lenZ_nonneg data).
  assert (offered (tc_log c ++ [Sent data]) = offered (tc_log c) ++ data) as Eo by (rewrite offered_app; cbn; by rewrite app_nil_r).
  rewrite Eo, lenZ_app. split; [|lia]. unfold core, mid. tcp_simpl. split_and!; [done| |done|by rewrite life_snoc|done|].
  - constructor; rewrite ?Eo, ?lenZ_app, ?accepted_app, ?wire_app; cbn [accepted wire flat_map]; rewrite ?app_nil_r in *; try done; lia.
  - intros Hi. apply order_ok_log; [done|auto].
Qed.

Lemma settled_sent data l : dealt data l -> settled (Sent data :: l).
Proof.
  intros [Ho [Ha|Hd]] Hl; [|by destruct (Hl data); apply list_elem_of_further]. cbn. unfold offered, accepted in *. by rewrite Ho, app_nil_r.
Qed.

Lemma core_shut inLoop rest c : core inLoop rest c -> tc_state c = kConnected -> 
  core inLoop rest (setState kDisconnecting c).
Proof.
  intros (A & B & C & D & G & F) Hs. rewrite Hs in *. unfold core, mid. tcp_simpl. split_and!; try done.
  intros Hi. destruct (F Hi) as [F1 F2 F3]. constructor; try done. intros Hx. destruct (F2 Hx) as [[?|?] _]; discriminate.
Qed.

(** [shutdownInLoop] on an idle connection: everything accepted is on the wire. *)
Lemma core_shutdown inLoop rest c : core inLoop rest c ->
  (tc_state c = kDisconnecting \/ inLoop = false /\ tc_state c <> kConnecting) ->
  core inLoop rest (shutdownInLoop c) /\ calls c (shutdownInLoop c).
Proof.
  intros Hc Hs. pose proof Hc as (A & B & C & D & G & F). unfold shutdownInLoop. rewrite isWriting_waiting by done.
  case_bool_decide as Hw; cbn [negb]; [split; [done|by apply frame_refl]|]. split; [|by apply frame_observe].
  unfold core, mid. tcp_simpl. split_and!; [done|by apply out_ok_log|done|by rewrite life_snoc|done|].
  intros Hi. destruct Hs as [Hs|[Hs _]]; [|congruence]. rewrite Hs in *.
  assert (readable (tc_outputBuffer c) = []) as Hr.
  { destruct (decide (readable (tc_outputBuffer c) = [])); [done|]. destruct Hw. tauto. }
  destruct (F Hi) as [F1 F2 F3]. constructor; [|by auto|done]. apply tidy_snoc; [done| |done]. intros _.
  destruct B as [_ _ _ _ B5]. by rewrite Hr, !app_nil_r in B5.
Qed.

Lemma calls_state c s : tc_state c = s \/ (tc_state c = kConnected /\ s = kDisconnecting) -> calls c (setState s c).
Proof.
  intros Hs. constructor; tcp_simpl; [done|destruct Hs as [<-|?]; [by left|by right]| |done| |lia]; exists []; by rewrite app_nil_r.
Qed.

Lemma mid_input inLoop part rest b c : in_ok b -> mid inLoop part rest c -> mid inLoop part rest (set_input b c).
Proof. intros Hb (A & B & C & D & G & F). unfold mid. tcp_simpl. by split_and!. Qed.

Lemma retrieveAll_in_ok b : in_ok b -> in_ok (retrieveAll b) /\ readableBytes (retrieveAll b) = 0.
Proof. intros [H1 H2]. destruct (retrieveAll_ok b H1). by split_and!. Qed.

Lemma calls_input b c : readableBytes b <= readableBytes (tc_inputBuffer c) -> calls c (set_input b c).
Proof. intros Hb. constructor; tcp_simpl; [done|by left| |done| |done]; exists []; by rewrite app_nil_r. Qed.

Lemma userCall_ok E inLoop rest u c : env_ok E -> core inLoop rest c ->
  lenZ (offered (tc_log c)) + lenZ (requested [u]) <= kBudget ->
  exists c', userCall E u c = Some c' /\ core inLoop rest c' /\ calls c c' /\
    lenZ (offered (tc_log c')) <= lenZ (offered (tc_log c)) + lenZ (requested [u]).
Proof.
  intros HE Hc Hb. destruct u as [data| | |]; cbn [userCall requested flat_map] in *; rewrite ?app_nil_r in Hb.
  - unfold send. case_decide as Hs; cycle 1.
    { exists c. split_and!; [done|done|by apply frame_refl|]. pose proof (lenZ_nonneg (data ++ [])). lia. }
    destruct (mid_sent inLoop rest data c Hc Hb) as [Hc1 Hb1].
    destruct (sendInLoop_ok E inLoop rest data _ HE Hc1) as (c' & Ec & Hc' & Hf).
    + tcp_simpl. by rewrite Hs.
    + done.
    + intros Hi _. destruct Hc1 as (_ & _ & _ & _ & _ & F). intros Hx. tcp_simpl.
      destruct (od_shut _ _ _ _ (F Hi) Hx) as [[?|?] _]; congruence.
    + exists c'. split_and!; [done|done| |].
      * eapply (frame_trans (λ l, l = [Sent data]) (dealt data)); [|by apply (frame_observe _ (Sent data))|exact Hf].
        intros ? l -> Hl. by apply settled_sent.
      * destruct Hf as [_ _ _ _ (l & El & _ & [Hl0 _]) _]. rewrite El, offered_app, Hl0, app_nil_r. tcp_simpl.
        rewrite offered_app, lenZ_app. cbn [offered flat_map]. lia.
  - eexists. split; [done|]. unfold shutdown. case_decide as Hs.
    + assert (core inLoop rest (setState kDisconnecting c)) as Hc1 by (by apply core_shut).
      destruct (core_shutdown inLoop rest _ Hc1) as [Hc2 Hf2]; [by left|]. split_and!; [done| |].
      * eapply calls_trans; [|exact Hf2]. apply calls_state. by right.
      * unfold shutdownInLoop. destruct (negb _); tcp_simpl; no_bytes.
    + split_and!; [done|by apply frame_refl|no_bytes].
  - eexists. split; [done|]. unfold forceClose. case_decide as Hs; [|split_and!; [done|by apply frame_refl|no_bytes]].
    assert (core inLoop rest (setState kDisconnecting c)) as Hc1.
    { destruct Hs as [Hs|Hs]; [by apply core_shut|]. destruct c; cbn in *; by subst. }
    split_and!; [by apply mid_queue| |tcp_simpl; no_bytes].
    eapply calls_trans; [apply (calls_state c kDisconnecting); destruct Hs; tauto|by apply frame_queue].
  - eexists. split; [done|]. destruct Hc as (A & Hc). destruct (retrieveAll_in_ok _ A) as [Hi Hz]. split_and!.
    + by apply mid_input; [|split].
    + apply calls_input. rewrite Hz. apply readableBytes_nonneg, A.
    + tcp_simpl. no_bytes.
Qed.

Lemma userCalls_ok E inLoop rest us : env_ok E -> forall c, core inLoop rest c ->
  lenZ (offered (tc_log c)) + lenZ (requested us) <= kBudget ->
  exists c', userCalls E us c = Some c' /\ core inLoop rest c' /\ calls c c'.
Proof.
  intros HE. induction us as [|u us IH]; intros c Hc Hb; [exists c; split_and!; [done|done|by apply frame_refl]|].
  assert (requested (u :: us) = requested [u] ++ requested us) as Er by (unfold requested; cbn; by rewrite app_nil_r).
  rewrite Er, lenZ_app in Hb. pose proof (lenZ_nonneg (requested us)).
  destruct (userCall_ok E inLoop rest u c HE Hc) as (c1 & E1 & Hc1 & Hf1 & Hb1); [lia|].
  destruct (IH c1 Hc1) as (c2 & E2 & Hc2 & Hf2); [lia|]. exists c2. cbn [userCalls]. rewrite E1. cbn [mbind option_bind].
  split_and!; [done|done|by eapply calls_trans].
Qed.

(** A callback, from the state that records it. *)
Lemma callback_ok E inLoop rest o c : env_ok E -> core inLoop rest (observe o c) ->
  exists c', callback E o c = Some c' /\ core inLoop rest c' /\ calls (observe o c) c'.
Proof.
  intros HE Hc. unfold callback. apply userCalls_ok; [done|done|]. apply eo_client; [done|].
  destruct Hc as (_ & [_ _ _ B4 _] & _). done.
Qed.

(** ** Handlers *)

Definition good (inLoop : bool) (rest : list Functor) (c : TcpConnection) : Prop := core inLoop rest c /\ owned rest c.

(** The history grows, and in the loop's thread by settled pieces. *)
Definition extends (inLoop : bool) (c c' : TcpConnection) : Prop :=
  exists l, tc_log c' = tc_log c ++ l /\ (inLoop = true -> settled l).

Lemma extends_refl inLoop c : extends inLoop c c.
Proof. exists []. by rewrite app_nil_r. Qed.

Lemma extends_trans inLoop c1 c2 c3 : extends inLoop c1 c2 -> extends inLoop c2 c3 -> extends inLoop c1 c3.
Proof.
  intros (l1 & E1 & H1) (l2 & E2 & H2). exists (l1 ++ l2). rewrite E2, E1, app_assoc. split; [done|].
  intros Hi. apply settled_app; auto.
Qed.

Lemma extends_calls inLoop c c' : calls c c' -> extends inLoop c c'.
Proof. intros [_ _ _ _ (l & E & _ & H) _]. by exists l. Qed.

Lemma extends_log inLoop o c c' : tc_log c' = tc_log c ++ [o] -> match o with Sent _ | Took _ => False | _ => True end ->
  extends inLoop c c'.
Proof. intros E Ho. exists [o]. split; [done|]. intros _ _. by destruct o. Qed.
#[local] Hint Resolve extends_refl extends_calls : core.

Lemma owned_frame L rest c c' : frame L c c' -> owned rest c -> owned rest c'.
Proof.
  intros [f1 f2 (fs & f3 & f4) f5 _ _]. unfold owned. rewrite f1, f3, f5, !destroys_app, f4, Nat.add_0_r.
  destruct f2 as [-> | [-> ->]]; [done|]. by rewrite !decide_False.
Qed.

Lemma good_calls inLoop rest c c' : core inLoop rest c' -> calls c c' -> owned rest c -> good inLoop rest c'.
Proof. intros H1 H2 H3. split; [done|]. by eapply owned_frame. Qed.

Lemma live_chan c : live c -> chan_ok (tc_state c) (tc_channel c) (tc_poll c) (tc_outputBuffer c) ->
  ch_events (tc_channel c) = watched (tc_outputBuffer c) /\ ch_index (tc_channel c) = kAdded /\
  tc_poll c = mkPoll true (Some (watched (tc_outputBuffer c))).
Proof. by intros [-> | ->]. Qed.

(** Closing: the channel is disabled and the state final before the user hears
    of it. *)
Definition disabled (c : TcpConnection) : TcpConnection :=
  set_channel (mkChannel kNoneEvent kDeleted (ch_tied (tc_channel c)) true) (mkPoll true None) (setState kDisconnected c).

Lemma disable_ok inLoop rest c : core inLoop rest c -> live c ->
  disableAll (setState kDisconnected c) = Some (disabled c) /\ core inLoop rest (observe (CbConnection false) (disabled c)).
Proof.
  intros (A & B & C & D & G & F) Hl. destruct (live_chan c Hl C) as (H1 & H2 & H3). split.
  - unfold disableAll. by rewrite (updateEvents_del (watched (tc_outputBuffer c))).
  - unfold core, mid, disabled. tcp_simpl. split_and!; [done|by apply out_ok_log|by split; [|left]| |done|].
    + rewrite life_snoc, D. by destruct Hl as [-> | ->].
    + intros Hi. apply order_ok_log; [done|]. destruct (F Hi) as [F1 F2 F3]. constructor; try done. intros Hx. split; [by right|by apply F2].
Qed.

(** The last callback of a connection that lives. *)
Lemma down_ok E inLoop rest c : env_ok E -> core inLoop rest c -> live c ->
  exists c', callback E (CbConnection false) (disabled c) = Some c' /\ core inLoop rest c' /\
    calls (observe (CbConnection false) (disabled c)) c' /\ tc_state c' = kDisconnected /\ extends inLoop c c'.
Proof.
  intros HE Hc Hl. destruct (disable_ok inLoop rest c Hc Hl) as [_ Hd].
  destruct (callback_ok E inLoop rest _ _ HE Hd) as (c' & E1 & Hc' & Hf). exists c'. split_and!; try done.
  - destruct (fr_state _ _ _ Hf) as [?|[? _]]; [done|discriminate].
  - apply (extends_trans _ _ (observe (CbConnection false) (disabled c))); [|auto]. by eapply extends_log.
Qed.

(** What the handlers of a connection achieve. *)
Definition handled (inLoop : bool) (rest : list Functor) (c c' : TcpConnection) : Prop :=
  good inLoop rest c' /\ extends inLoop c c' /\ tc_state c' <> kConnecting.

Lemma handled_trans inLoop rest c1 c2 c3 : handled inLoop rest c1 c2 -> handled inLoop rest c2 c3 -> handled inLoop rest c1 c3.
Proof. intros (_ & E1 & _) (H2 & E2 & H3). split; [done|split; [by eapply extends_trans|done]]. Qed.

Lemma handled_refl inLoop rest c : good inLoop rest c -> tc_state c <> kConnecting -> handled inLoop rest c c.
Proof. intros. split; [done|split; done]. Qed.

Lemma handleClose_ok E inLoop rest c : env_ok E -> good inLoop rest c -> live c ->
  exists c', handleClose E c = Some c' /\ handled inLoop rest c c' /\ tc_state c' = kDisconnected /\
    readableBytes (tc_inputBuffer c') <= readableBytes (tc_inputBuffer c) /\
    exists l, tc_log c' = tc_log c ++ l /\ CbClose ∈ l.
Proof.
  intros HE [Hc Ho] Hl. unfold handleClose. rewrite bool_decide_true by done. cbn [negb].
  destruct (disable_ok inLoop rest c Hc Hl) as [Ed _]. rewrite Ed. cbn [mbind option_bind].
  destruct (down_ok E inLoop rest c HE Hc Hl) as (c1 & E1 & Hc1 & Hf & Hs & Hx). rewrite E1. cbn [mbind option_bind].
  assert (tc_inServer c = true /\ destroys (rest ++ tc_pending c) = 0%nat) as [Hin Hz].
  { unfold owned in Ho. by rewrite decide_False in Ho by (by destruct Hl as [-> | ->]). }
  destruct Hf as [f1 f2 (fs & f3 & f4) f5 (l & f6 & _) f7]. unfold disabled in *. tcp_simpl.
  unfold removeConnection. tcp_simpl. rewrite f1, Hin. cbn [negb]. eexists. split; [done|].
  assert (core inLoop rest (observe CbClose c1)) as Hc2.
  { apply mid_observe; [done| |done]. destruct Hc1 as (_ & _ & _ & D & _). by rewrite D, Hs. }
  split_and!.
  - split_and!.
    + split; [by apply (mid_queue inLoop [] rest FDestroyed (set_inServer false (observe CbClose c1))); [|tcp_simpl; rewrite Hs|]|].
      unfold owned. tcp_simpl. rewrite decide_True, f5, f3, !app_assoc, !destroys_app by done. rewrite <- destroys_app, Hz, f4. done.
    + eapply extends_trans; [exact Hx|]. by eapply (extends_log _ CbClose).
    + tcp_simpl. by rewrite Hs.
  - done.
  - done.
  - exists ((CbConnection false :: l) ++ [CbClose]). tcp_simpl. rewrite f6, <- !app_assoc. split; [done|]. apply elem_snoc. by right.
Qed.

(** [handleError] and [forceCloseInLoop] close what still lives. *)
Lemma closeLive_ok E inLoop rest c : env_ok E -> good inLoop rest c -> tc_state c <> kConnecting ->
  exists c', handleError E c = Some c' /\ forceCloseInLoop E c = Some c' /\ handled inLoop rest c c' /\ tc_state c' = kDisconnected /\
    readableBytes (tc_inputBuffer c') <= readableBytes (tc_inputBuffer c) /\
    exists l, tc_log c' = tc_log c ++ l /\ (live c -> CbClose ∈ l).
Proof.
  intros HE Hg Hs. unfold handleError, forceCloseInLoop. case_decide as Hl.
  - destruct (handleClose_ok E inLoop rest c HE Hg Hl) as (c' & E1 & H1 & H2 & H3 & l & H4 & H5). exists c'. split_and!; try done. by exists l.
  - assert (tc_state c = kDisconnected) by (destruct (tc_state c); tauto).
    exists c. split_and!; try done. exists []. rewrite app_nil_r. split; [done|]. intros ?. tauto.
Qed.

(** *** Reading *)

Lemma read_room c : in_ok (tc_inputBuffer c) -> readableBytes (tc_inputBuffer c) < kBudget ->
  exists b, ensureWritableBytes kRdLen (tc_inputBuffer c) = Some b /\ in_ok b /\ readable b = readable (tc_inputBuffer c) /\
    writableBytes b < 2 ^ 31 /\ readableBytes b = readableBytes (tc_inputBuffer c).
Proof.
  intros [Hb Hs] Hr. unfold in_ok in *. rewrite budget_val in *. pose proof (readableBytes_nonneg _ Hb).
  destruct (ensureWritableBytes_ok kRdLen (tc_inputBuffer c) Hb) as (b & E & Hok & Hrb & _ & Hsb);
    [unfold addressable, kRdLen, kCheapPrepend; lia|].
  exists b. unfold kRdLen, kCheapPrepend in *. split_and!; [done|done|lia|done| |].
  - destruct Hok. unfold writableBytes. lia.
  - by rewrite <- (readable_length b Hok), <- (readable_length _ Hb), Hrb.
Qed.

Lemma good_observe inLoop rest o c : neutral o = true -> lifeStep (life (tc_log c)) o = life (tc_log c) ->
  good inLoop rest c -> good inLoop rest (observe o c).
Proof. intros H1 H2 [H3 H4]. split; [by apply mid_observe|done]. Qed.

Lemma handleRead_ok E inLoop rest t c : env_ok E -> good inLoop rest c -> readableBytes (tc_inputBuffer c) < kBudget ->
  live c \/ (tc_state c = kDisconnected /\ forall n, te_recv E (tc_log c) n = None) ->
  exists c', handleRead E t c = Some c' /\ handled inLoop rest c c'.
Proof.
  intros HE [Hc Ho] Hr Hl. pose proof Hc as (A & _). destruct (read_room c A Hr) as (b & Eb & Hb & Hrb & Hw & Hnb).
  unfold handleRead. rewrite Eb. cbn [mbind option_bind]. destruct (Z.ltb_spec (writableBytes b) (2 ^ 31)); [|lia]. cbn [negb].
  assert (core inLoop rest (set_input b c)) as Hc0 by (by apply mid_input).
  assert (forall n, good inLoop rest (observe (SysRecv n) (set_input b c))) as Hg by (intros; by apply good_observe).
  assert (forall n c', extends inLoop (observe (SysRecv n) (set_input b c)) c' -> extends inLoop c c') as Hx.
  { intros n c' H'. eapply extends_trans; [|exact H']. by eapply (extends_log _ (SysRecv n)). }
  assert (tc_state c <> kConnecting) as Hs by (by destruct Hl as [[-> | ->]|[-> _]]). tcp_simpl.
  destruct (te_recv E (tc_log c) (writableBytes b)) as [[|x data]|] eqn:Er.
  - destruct Hl as [Hl|[_ Hl]]; [|by rewrite Hl in Er].
    destruct (handleClose_ok E inLoop rest (observe (SysRecv 0) (set_input b c)) HE) as (c' & E1 & (H1 & H2 & H3) & _); [done|exact Hl|].
    exists c'. split; [done|]. split_and!; [done|by eapply Hx|done].
  - destruct Hl as [Hl|[_ Hl]]; [|by rewrite Hl in Er]. pose proof (eo_recv _ HE _ _ _ Er) as Hd. destruct Hb as [Hb1 Hb2].
    destruct (writeAt_ok (x :: data) b Hb1 Hd) as (b1 & b2 & E1 & E2 & Hok & Hrb2 & Hlen & _).
    rewrite E1. cbn [mbind option_bind]. rewrite E2. cbn [mbind option_bind].
    set (c1 := set_input b2 (observe (SysRecv (lenZ (x :: data))) (set_input b c))).
    assert (core inLoop rest (observe (CbMessage (x :: data) t) c1)) as Hc1.
    { apply mid_observe; [done| |by apply mid_input; [split; [done|lia]|apply Hg]].
      destruct Hc as (_ & _ & _ & D & _). subst c1. tcp_simpl. rewrite life_snoc, D. by destruct Hl as [-> | ->]. }
    destruct (callback_ok E inLoop rest _ _ HE Hc1) as (c2 & E3 & Hc2 & Hf). exists c2. split; [done|]. split_and!.
    + by eapply good_calls.
    + apply (Hx (lenZ (x :: data))). eapply (extends_trans _ _ (observe (CbMessage (x :: data) t) c1)); [by eapply extends_log|auto].
    + destruct (fr_state _ _ _ Hf) as [-> |[_ ->]]; [by subst c1|done].
  - destruct (closeLive_ok E inLoop rest (observe (SysRecv (-1)) (set_input b c)) HE) as (c' & E1 & _ & (H1 & H2 & H3) & _); [done|done|].
    exists c'. split; [done|]. split_and!; [done|by eapply Hx|done].
Qed.

(** *** Writing *)

(** What [::send] of the waiting output leaves. *)
Lemma flush_ok E inLoop rest c : env_ok E -> core inLoop rest c -> live c -> readable (tc_outputBuffer c) <> [] ->
  exists n errno, sysSend E (readable (tc_outputBuffer c)) c =
      Some (n, errno, observe (SysSend (readable (tc_outputBuffer c)) n) c) /\
    n = fst (te_send E (tc_log c) (readable (tc_outputBuffer c))) /\
    n <= readableBytes (tc_outputBuffer c) /\ (inLoop = true -> SysShutdownWr ∉ tc_log c).
Proof.
  intros HE (A & [B1 B2 B3 B4 B5] & C & D & G & F) Hl Hne. rewrite budget_val in B4.
  pose proof (lenZ_nonneg (queued (rest ++ tc_pending c))). pose proof (readable_length _ B1) as Hlen.
  pose proof (eo_send _ HE (tc_log c) (readable (tc_outputBuffer c))) as Hn.
  unfold sysSend. destruct (Z.ltb_spec (lenZ (readable (tc_outputBuffer c))) (2 ^ 31)); [|lia]. cbn [negb].
  destruct (te_send E (tc_log c) (readable (tc_outputBuffer c))) as [n errno]. exists n, errno. cbn [fst] in Hn.
  split_and!; [done|done|lia|]. intros Hi Hx. by destruct (od_shut _ _ _ _ (F Hi) Hx).
Qed.

(** The output after a write of [n] bytes. *)
Lemma out_ok_flush rest b pending log n : out_ok [] rest b pending log -> 0 <= n <= readableBytes b ->
  exists out, retrieve n b = Some out /\ out_ok [] rest out pending (log ++ [SysSend (readable b) n]) /\
    readable out = dropZ n (readable b).
Proof.
  intros [B1 B2 B3 B4 B5] Hn. destruct (retrieve_ok n b B1 Hn) as (out & Er & Hok & Hro & Hbuf). exists out. split; [done|].
  pose proof (readable_length out Hok) as Hl. rewrite Hro, lenZ_dropZ, (readable_length b B1) in Hl.
  split; [|done]. constructor; rewrite ?offered_app, ?accepted_app, ?wire_app, ?app_nil_r in *; rewrite ?Hbuf; try done; try lia.
  cbn. by rewrite app_nil_r, B5, Hro, <- app_assoc, takeZ_dropZ.
Qed.

Lemma mid_flush inLoop rest b n c : core inLoop rest c -> out_ok [] rest b (tc_pending c) (tc_log c ++ [SysSend (readable (tc_outputBuffer c)) n]) ->
  (inLoop = true -> SysShutdownWr ∉ tc_log c) -> chan_ok (tc_state c) (tc_channel c) (tc_poll c) b ->
  core inLoop rest (set_output b (observe (SysSend (readable (tc_outputBuffer c)) n) c)).
Proof.
  intros (A & B & C & D & G & F) Hb Hs Hch. unfold core, mid. tcp_simpl. split_and!; [done|done|done|by rewrite life_snoc|done|].
  intros Hi. apply order_ok_log; [auto|]. destruct (F Hi) as [F1 F2 F3]. constructor; try done. intros Hx. by destruct (Hs Hi).
Qed.

(** All output is out: writing is disabled. *)
Lemma unwatch_ok inLoop rest b n c : core inLoop rest c -> live c -> readable (tc_outputBuffer c) <> [] -> readable b = [] ->
  out_ok [] rest b (tc_pending c) (tc_log c ++ [SysSend (readable (tc_outputBuffer c)) n]) -> (inLoop = true -> SysShutdownWr ∉ tc_log c) ->
  let c1 := set_output b (observe (SysSend (readable (tc_outputBuffer c)) n) c) in
  exists c2, disableWriting c1 = Some c2 /\ core inLoop rest c2 /\ tc_state c2 = tc_state c /\ tc_log c2 = tc_log c1 /\
    tc_inServer c2 = tc_inServer c /\ tc_pending c2 = tc_pending c /\ pl_known (tc_poll c2) = pl_known (tc_poll c) /\ tc_outputBuffer c2 = b.
Proof.
  intros Hc Hl Hne He Hb Hs c1. pose proof Hc as (A & B & C & D & G & F). destruct (live_chan c Hl C) as (H1 & H2 & H3).
  unfold disableWriting. rewrite (updateEvents_mod _ (watched (tc_outputBuffer c)));
    [|done|done|subst c1; tcp_simpl; rewrite H1; unfold watched; by rewrite decide_False].
  assert (Z.ldiff (ch_events (tc_channel c1)) kWriteEvent = watched b) as ->
    by (subst c1; tcp_simpl; rewrite H1; unfold watched; by rewrite decide_False, decide_True).
  eexists. split; [done|]. subst c1. split; [|tcp_simpl; by rewrite H3].
  unfold core, mid. tcp_simpl. split_and!; [done|done|by destruct Hl as [-> | ->]|by rewrite life_snoc|done|].
  intros Hi. apply order_ok_log; [auto|]. destruct (F Hi) as [F1 F2 F3]. constructor; try done. intros Hx. by destruct (Hs Hi).
Qed.

(** The end of a write: the user is told, and a pending shutdown is carried out. *)
Lemma drained_ok E inLoop rest c : core inLoop rest c -> live c -> readable (tc_outputBuffer c) = [] ->
  let c1 := if te_writeComplete E then queueInLoop FWriteComplete c else c in
  let c2 := if decide (tc_state c1 = kDisconnecting) then shutdownInLoop c1 else c1 in
  core inLoop rest c2 /\ calls c c2 /\ tc_state c2 = tc_state c /\ tc_outputBuffer c2 = tc_outputBuffer c /\
  accepted (tc_log c2) = accepted (tc_log c) /\ (tc_state c = kDisconnecting -> SysShutdownWr ∈ tc_log c2).
Proof.
  intros Hc Hl Hr c1 c2. assert (tc_state c <> kConnecting) as Hs by (by destruct Hl as [-> | ->]).
  assert (core inLoop rest c1 /\ calls c c1 /\ tc_state c1 = tc_state c /\ tc_outputBuffer c1 = tc_outputBuffer c /\ tc_log c1 = tc_log c)
    as (H1 & H2 & H3 & H4 & H5).
  { subst c1. destruct (te_writeComplete E); split_and!; try done; [by apply mid_queue|by apply frame_queue|by apply frame_refl]. }
  clearbody c1. subst c2. case_decide as Hd; [|split_and!; try done; [by rewrite H5|congruence]].
  destruct (core_shutdown inLoop rest c1 H1) as [H6 H7]; [by left|].
  assert (shutdownInLoop c1 = observe SysShutdownWr c1) as Eo.
  { unfold shutdownInLoop. rewrite isWriting_waiting by apply H1. by rewrite bool_decide_false by (rewrite H4; tauto). }
  split_and!; [done|by eapply calls_trans|by rewrite Eo|by rewrite Eo| |].
  - rewrite Eo. tcp_simpl. by rewrite accepted_app, app_nil_r, H5.
  - intros _. rewrite Eo. tcp_simpl. apply elem_snoc. by right.
Qed.

(** A write the kernel takes a part of. *)
Lemma write_progress E inLoop rest c : env_ok E -> core inLoop rest c -> live c -> readable (tc_outputBuffer c) <> [] ->
  let n := fst (te_send E (tc_log c) (readable (tc_outputBuffer c))) in
  0 < n -> exists c', handleWrite E c = Some c' /\ core inLoop rest c' /\ (owned rest c -> owned rest c') /\ extends inLoop c c' /\
    tc_state c' = tc_state c /\ readableBytes (tc_outputBuffer c') = readableBytes (tc_outputBuffer c) - n /\
    accepted (tc_log c') = accepted (tc_log c) /\
    (readable (tc_outputBuffer c') = [] -> tc_state c = kDisconnecting -> SysShutdownWr ∈ tc_log c').
Proof.
  intros HE Hc Hl Hne n Hp. pose proof Hc as (A & B & C & D & G & F). unfold handleWrite. rewrite isWriting_waiting by done.
  rewrite bool_decide_true by done. destruct (flush_ok E inLoop rest c HE Hc Hl Hne) as (n' & errno & Es & En & Hn & Hsh).
  fold n in En. subst n'. rewrite Es. cbn [mbind option_bind]. set (o := SysSend (readable (tc_outputBuffer c)) n) in *.
  destruct (Z.ltb_spec 0 n); [|lia]. tcp_simpl.
  destruct (out_ok_flush rest _ _ _ n B) as (out & Er & Hout & Hro); [lia|]. rewrite Er. cbn [mbind option_bind].
  assert (readableBytes out = readableBytes (tc_outputBuffer c) - n) as Hlen.
  { rewrite <- (readable_length out), Hro, lenZ_dropZ, (readable_length (tc_outputBuffer c)) by apply Hout || apply B. lia. }
  assert (extends inLoop c (observe o c)) as Hx by (by eapply (extends_log _ o)).
  assert (accepted (tc_log c ++ [o]) = accepted (tc_log c)) as Ha by (by rewrite accepted_app, app_nil_r).
  destruct (Z.eqb_spec (readableBytes out) 0) as [Hz|Hz].
  - apply readable_nil in Hz; [|apply Hout].
    destruct (unwatch_ok inLoop rest out n c Hc Hl Hne Hz Hout Hsh) as (c2 & E2 & Hc2 & Es2 & El2 & Ei2 & Ep2 & Ek2 & Eo2).
    fold o in E2, El2. cbv zeta in E2. rewrite E2. cbn [mbind option_bind].
    destruct (drained_ok E inLoop rest c2 Hc2) as (Hc3 & Hf3 & Es3 & Eo3 & Ea3 & Hs3); [unfold live; by rewrite Es2|by rewrite Eo2|].
    eexists. split; [done|]. split_and!; [done| | |by rewrite Es3|by rewrite Eo3, Eo2|by rewrite Ea3, El2|].
    + intros Ho. eapply owned_frame; [exact Hf3|]. unfold owned in *. by rewrite Es2, Ei2, Ep2, Ek2.
    + eapply (extends_trans _ _ c2); [eapply (extends_log _ o); [by rewrite El2|done]|auto].
    + intros _ Hd. apply Hs3. by rewrite Es2.
  - eexists. split; [done|]. assert (readable out <> []) as Hzr by (intros Hr; apply Hz, readable_nil; [apply Hout|done]).
    split_and!; [|done|done|done|done|done|by intros ?]. apply mid_flush; [done|done|done|].
    assert (watched out = watched (tc_outputBuffer c)) as Hww by (unfold watched; by rewrite !decide_False).
    destruct Hl as [Hl|Hl]; rewrite Hl in *; unfold chan_ok in *; by rewrite Hww.
Qed.

(** A write the kernel refuses. *)
Lemma write_refused E inLoop rest c : env_ok E -> core inLoop rest c -> live c -> readable (tc_outputBuffer c) <> [] ->
  let n := fst (te_send E (tc_log c) (readable (tc_outputBuffer c))) in
  n <= 0 -> handleWrite E c = Some (observe (SysSend (readable (tc_outputBuffer c)) n) c) /\
    core inLoop rest (observe (SysSend (readable (tc_outputBuffer c)) n) c).
Proof.
  intros HE Hc Hl Hne n Hp. pose proof Hc as (A & B & C & D & G & F). unfold handleWrite. rewrite isWriting_waiting by done.
  rewrite bool_decide_true by done. destruct (flush_ok E inLoop rest c HE Hc Hl Hne) as (n' & errno & Es & En & Hn & Hsh).
  fold n in En. subst n'. rewrite Es. cbn [mbind option_bind]. destruct (Z.ltb_spec 0 n); [lia|]. split; [done|].
  apply (mid_flush inLoop rest (tc_outputBuffer c) n c Hc); [|done|done].
  destruct B as [B1 B2 B3 B4 B5]. constructor; rewrite ?offered_app, ?accepted_app, ?wire_app, ?app_nil_r in *; try done.
  cbn. assert (takeZ n (readable (tc_outputBuffer c)) = []) as -> by (unfold takeZ; by replace (Z.to_nat n) with 0%nat by lia).
  by rewrite !app_nil_r.
Qed.

Lemma handleWrite_ok E inLoop rest c : env_ok E -> good inLoop rest c -> tc_state c <> kConnecting ->
  exists c', handleWrite E c = Some c' /\ handled inLoop rest c c'.
Proof.
  intros HE [Hc Ho] Hs. destruct (decide (live c /\ readable (tc_outputBuffer c) <> [])) as [[Hl Hne]|Hw].
  - destruct (Z.lt_ge_cases 0 (fst (te_send E (tc_log c) (readable (tc_outputBuffer c))))) as [Hp|Hp].
    + destruct (write_progress E inLoop rest c HE Hc Hl Hne Hp) as (c' & E1 & H1 & H2 & H3 & H4 & _). exists c'. split; [done|].
      split; [split; auto|split; [done|by rewrite H4]].
    + destruct (write_refused E inLoop rest c HE Hc Hl Hne Hp) as [E1 H1]. eexists. split; [exact E1|].
      split; [by split|split; [by eapply extends_log|done]].
  - exists c. unfold handleWrite. rewrite isWriting_waiting by apply Hc. rewrite bool_decide_false by exact Hw.
    split; [done|]. by apply handled_refl.
Qed.

(** *** Establishing and destroying *)

Definition enabled (c : TcpConnection) : TcpConnection :=
  set_channel (mkChannel kReadEvent kAdded true true) (mkPoll true (Some kReadEvent)) (setState kConnected c).

Lemma enable_ok inLoop c : good inLoop [] c -> tc_state c = kConnecting -> readable (tc_outputBuffer c) = [] ->
  enableReading (tie (setState kConnected c)) = Some (enabled c) /\ good inLoop [] (observe (CbConnection true) (enabled c)).
Proof.
  intros [(A & B & C & D & G & F) Ho] Hs Hr. rewrite Hs in *. destruct C as (H1 & H2 & H3). split.
  - unfold enableReading. rewrite updateEvents_new by done. unfold tie. tcp_simpl. by rewrite H1.
  - assert (watched (tc_outputBuffer c) = kReadEvent) as Hw by (unfold watched; by rewrite decide_True).
    split; [|unfold owned in *; rewrite Hs in Ho; tcp_simpl; exact Ho]. unfold core, mid, enabled. tcp_simpl.
    split_and!; [done|by apply out_ok_log|cbn; by rewrite Hw|by rewrite life_snoc, D|done|].
    intros Hi. apply order_ok_log; [done|]. destruct (F Hi) as [F1 F2 F3]. constructor; try done.
    intros Hx. destruct (F2 Hx) as [[?|?] _]; discriminate.
Qed.

Lemma connectEstablished_ok E inLoop c : env_ok E -> good inLoop [] c -> tc_state c = kConnecting ->
  readable (tc_outputBuffer c) = [] -> exists c', connectEstablished E c = Some c' /\ handled inLoop [] c c'.
Proof.
  intros HE Hg Hs Hr. destruct (enable_ok inLoop c Hg Hs Hr) as [E1 [Hc1 Ho1]]. unfold connectEstablished.
  rewrite bool_decide_true by done. cbn [negb]. rewrite E1. cbn [mbind option_bind].
  destruct (callback_ok E inLoop [] _ _ HE Hc1) as (c' & E2 & Hc' & Hf). exists c'. split; [done|]. split_and!.
  - by eapply good_calls.
  - apply (extends_trans _ _ (observe (CbConnection true) (enabled c))); [by eapply extends_log|auto].
  - destruct (fr_state _ _ _ Hf) as [-> |[_ ->]]; done.
Qed.

(** A closed, registered channel is removed. *)
Lemma remove_ok inLoop rest c : core inLoop rest c -> tc_state c = kDisconnected -> pl_known (tc_poll c) = true ->
  exists ch, removeChannel c = Some (set_channel ch (mkPoll false None) c) /\ core inLoop rest (set_channel ch (mkPoll false None) c).
Proof.
  intros (A & B & C & D & G & F) Hs Hk. rewrite Hs in *. destruct C as (H1 & [[H2 H3]|[_ H3]]); [|by rewrite H3 in Hk].
  eexists. split; [by apply removeChannel_deleted|]. unfold core, mid. tcp_simpl. rewrite Hs. split_and!; try done.
  split; [done|by right].
Qed.

Lemma destroyed_ok E inLoop rest c : env_ok E -> core inLoop rest c -> owned (FDestroyed :: rest) c ->
  exists c', connectDestroyed E c = Some c' /\ handled inLoop rest c c'.
Proof.
  intros HE Hc Ho. unfold owned in Ho. cbn [app] in Ho. 
  assert (forall fs, destroys (FDestroyed :: fs) = S (destroys fs)) as Hd by done. rewrite Hd in Ho.
  case_decide as Hs; [|by destruct Ho]. destruct Ho as [Hin Ho]. destruct (pl_known (tc_poll c)) eqn:Hk; [|done].
  unfold connectDestroyed. rewrite decide_False by (by rewrite Hs). cbn [mbind option_bind].
  destruct (remove_ok inLoop rest c Hc Hs Hk) as (ch & Er & Hcr). eexists. split; [exact Er|]. split_and!.
  - split; [done|]. unfold owned. tcp_simpl. rewrite decide_True by done. cbn. split; [done|lia].
  - exists []. by rewrite app_nil_r.
  - tcp_simpl. by rewrite Hs.
Qed.

(** The server goes: the user hears of it, and the channel is removed at once. *)
Lemma serverDestroyed_ok E inLoop c : env_ok E -> good inLoop [] c -> tc_state c <> kConnecting -> tc_state c <> kDisconnecting ->
  exists c', serverDestroyed E c = Some c' /\ handled inLoop [] c c'.
Proof.
  intros HE [Hc Ho] H1 H2. unfold serverDestroyed. destruct (decide (tc_state c = kDisconnected)) as [Hs|Hs].
  { pose proof Ho as Ho'. unfold owned in Ho'. rewrite decide_True in Ho' by done. destruct Ho' as [Hin _]. rewrite Hin.
    exists c. split; [done|]. by apply handled_refl. }
  assert (tc_state c = kConnected) as Hcon by (by destruct (tc_state c)). assert (live c) as Hl by (by left).
  unfold owned in Ho. rewrite decide_False in Ho by done. destruct Ho as [Hin Hz]. rewrite Hin.
  assert (core inLoop [] (set_inServer false c)) as Hc1 by exact Hc.
  unfold connectDestroyed. rewrite decide_True by done.
  destruct (disable_ok inLoop [] _ Hc1 Hl) as [Ed _]. rewrite Ed. cbn [mbind option_bind].
  destruct (down_ok E inLoop [] _ HE Hc1 Hl) as (c1 & E1 & Hc2 & Hf & Hs1 & Hx). rewrite E1. cbn [mbind option_bind].
  destruct Hf as [f1 _ (fs & f3 & f4) f5 _ _]. unfold disabled in f1, f3, f5. tcp_simpl.
  destruct (remove_ok inLoop [] c1 Hc2 Hs1 f5) as (ch & Er & Hcr). eexists. split; [exact Er|]. split_and!.
  - split; [done|]. unfold owned. tcp_simpl. rewrite decide_True, f1, f3 by done. split; [done|].
    cbn [app]. rewrite destroys_app, f4. cbn [app] in Hz. by rewrite Hz.
  - eapply extends_trans; [exact Hx|]. exists []. by rewrite app_nil_r.
  - tcp_simpl. by rewrite Hs1.
Qed.

(** ** Steps *)

(** The part of the dispatch that closes. *)
Lemma close_events_ok E inLoop revents c : env_ok E -> good inLoop [] c -> live c ->
  exists c', (c ← (if has revents POLLHUP && negb (has revents POLLIN) then handleClose E c else Some c);
              (if has revents (Z.lor POLLERR POLLNVAL) then handleError E c else Some c)) = Some c' /\
    handled inLoop [] c c' /\ readableBytes (tc_inputBuffer c') <= readableBytes (tc_inputBuffer c) /\
    (if closes revents then tc_state c' = kDisconnected /\ exists l, tc_log c' = tc_log c ++ l /\ CbClose ∈ l else c' = c).
Proof.
  intros HE Hg Hl. assert (tc_state c <> kConnecting) as Hs by (by destruct Hl as [-> | ->]). unfold closes.
  destruct (has revents POLLHUP && negb (has revents POLLIN)).
  - destruct (handleClose_ok E inLoop [] c HE Hg Hl) as (c1 & E1 & H1 & S1 & I1 & L1). rewrite E1. cbn [mbind option_bind orb].
    exists c1. split_and!; try done. unfold handleError. rewrite decide_False by (rewrite S1; by intros [|]). by case_match.
  - cbn [mbind option_bind orb]. destruct (has revents (Z.lor POLLERR POLLNVAL)); [|exists c; split_and!; try done; by apply handled_refl].
    destruct (closeLive_ok E inLoop [] c HE Hg Hs) as (c1 & E1 & _ & H1 & S1 & I1 & l & L1 & L2). exists c1. split_and!; try done. exists l. auto.
Qed.

Lemma option_bind_assoc {A B D} (x : option A) (f : A -> option B) (g : B -> option D) :
  (x ≫= f) ≫= g = x ≫= (fun a => f a ≫= g).
Proof. by destruct x. Qed.

Lemma handleEvent_ok E inLoop revents t c : env_ok E -> good inLoop [] c -> may_happen E c (EvPoll revents t) ->
  exists c', handleEvent E revents t c = Some c' /\ handled inLoop [] c c'.
Proof.
  intros HE Hg (Hp & Hr & Hq). assert (live c) as Hl.
  { destruct Hg as [(_ & _ & C & _) _]. unfold live. destruct (tc_state c); try tauto; [destruct C as (_ & [[_ C]|[_ C]])|destruct C as (_ & _ & C)];
      by rewrite C in Hp. }
  destruct (close_events_ok E inLoop revents c HE Hg Hl) as (c1 & E1 & H1 & I1 & L1).
  unfold handleEvent. rewrite <- option_bind_assoc, E1. cbn [mbind option_bind].
  assert (exists c2, (if has revents (Z.lor POLLIN (Z.lor POLLPRI POLLRDHUP)) then handleRead E t c1 else Some c1) = Some c2 /\
    handled inLoop [] c1 c2) as (c2 & E2 & H2).
  { destruct H1 as (G1 & X1 & S1). fold (reads revents). destruct (reads revents) eqn:Hread; [|exists c1; by split_and!].
    apply handleRead_ok; [done|done|lia|]. destruct (closes revents) eqn:Hclose; [right|left; by subst].
    destruct L1 as (Hs1 & l & El & Hin). split; [done|]. intros n. rewrite El. by apply Hq. }
  rewrite E2. cbn [mbind option_bind]. assert (handled inLoop [] c c2) as H3 by (by eapply handled_trans).
  destruct (has revents POLLOUT); [|by exists c2].
  destruct (handleWrite_ok E inLoop [] c2 HE) as (c3 & E3 & H4); [apply H2|apply H2|]. exists c3. split; [done|by eapply handled_trans].
Qed.

Lemma core_pop inLoop f rest c : core inLoop (f :: rest) c -> tc_state c <> kConnecting /\ core inLoop rest c /\
  readableBytes (tc_outputBuffer c) + lenZ (queued (rest ++ tc_pending c)) + lenZ (queued [f]) <= lenZ (offered (tc_log c)) /\
  (inLoop = true -> foreign f = false).
Proof.
  intros (A & [B1 B2 B3 B4 B5] & C & D & G & F). assert (tc_state c <> kConnecting) as Hs by (intros Hs; by specialize (G Hs)).
  assert (queued ((f :: rest) ++ tc_pending c) = queued [f] ++ queued (rest ++ tc_pending c)) as Eq by (by rewrite <- queued_app).
  rewrite Eq, lenZ_app in B3. pose proof (lenZ_nonneg (queued [f])). split; [done|]. split; [|split; [lia|]].
  - unfold core, mid. split_and!; try done; [by constructor; [..|lia| |]|]. intros Hi. destruct (F Hi) as [F1 F2 F3].
    apply Forall_cons in F3 as [_ F3]. by constructor.
  - intros Hi. destruct (F Hi) as [_ _ F3]. by apply Forall_cons in F3 as [F3 _].
Qed.

Lemma owned_pop f rest c : destroys [f] = 0%nat -> owned (f :: rest) c -> owned rest c.
Proof.
  intros Hf. unfold owned. change (f :: rest) with ([f] ++ rest). by rewrite <- !app_assoc, (destroys_app [f]), Hf.
Qed.

Lemma callback_quiet_ok E inLoop rest o c : env_ok E -> good inLoop rest c -> tc_state c <> kConnecting ->
  neutral o = true -> quiet o -> exists c', callback E o c = Some c' /\ handled inLoop rest c c'.
Proof.
  intros HE [Hc Ho] Hs Hn Hq. assert (core inLoop rest (observe o c)) as Hc1 by (apply mid_observe; [done|by apply quiet_life|done]).
  destruct (callback_ok E inLoop rest o c HE Hc1) as (c' & E1 & Hc' & Hf). exists c'. split; [done|]. split; [by eapply good_calls|]. split.
  - apply (extends_trans _ _ (observe o c)); [|auto]. eapply (extends_log _ o); [done|]. by destruct o.
  - destruct (fr_state _ _ _ Hf) as [-> |[_ ->]]; done.
Qed.

Lemma runFunctor_ok E inLoop f rest c : env_ok E -> good inLoop (f :: rest) c ->
  exists c', runFunctor E f c = Some c' /\ handled inLoop rest c c'.
Proof.
  intros HE [Hc Ho]. destruct (core_pop _ _ _ _ Hc) as (Hs & Hc1 & Hb & Hi).
  assert (destroys [f] = 0%nat -> good inLoop rest c) as Hg by (intros Hf; split; [done|by eapply owned_pop]).
  destruct f as [data| | | |n|]; cbn [runFunctor].
  - destruct inLoop; [by specialize (Hi eq_refl)|]. cbn [queued flat_map] in Hb. rewrite app_nil_r in Hb.
    destruct (sendInLoop_ok E false rest data c HE Hc1 Hs Hb) as (c' & E1 & Hc' & Hf); [done|]. exists c'. split; [done|]. split; [|split].
    + split; [done|]. by eapply owned_frame, Hg.
    + destruct Hf as [_ _ _ _ (l & El & _) _]. by exists l.
    + destruct (fr_state _ _ _ Hf) as [-> |[_ ->]]; done.
  - destruct inLoop; [by specialize (Hi eq_refl)|]. destruct (core_shutdown false rest c Hc1) as [Hc' Hf]; [by right|].
    eexists. split; [done|]. split; [by eapply good_calls, Hg|split; [auto|]]. destruct (fr_state _ _ _ Hf) as [-> |[_ ->]]; done.
  - destruct (closeLive_ok E inLoop rest c HE (Hg eq_refl) Hs) as (c' & _ & E1 & H1 & _). by exists c'.
  - by apply callback_quiet_ok; [|apply Hg|..].
  - by apply callback_quiet_ok; [|apply Hg|..].
  - by apply destroyed_ok.
Qed.

Lemma runFunctors_ok E inLoop fs : env_ok E -> forall c, good inLoop fs c -> tc_state c <> kConnecting ->
  exists c', runFunctors E fs c = Some c' /\ handled inLoop [] c c'.
Proof.
  intros HE. induction fs as [|f fs IH]; intros c Hg Hs; [exists c; split; [done|by apply handled_refl]|].
  destruct (runFunctor_ok E inLoop f fs c HE Hg) as (c1 & E1 & G1 & X1 & S1).
  destruct (IH c1 G1 S1) as (c2 & E2 & G2 & X2 & S2). exists c2. cbn [runFunctors]. rewrite E1. cbn [mbind option_bind].
  split; [done|]. split; [done|split; [by eapply extends_trans|done]].
Qed.

Lemma good_swap inLoop c : good inLoop [] c -> good inLoop (tc_pending c) (set_pending [] c).
Proof.
  intros [Hc Ho]. unfold good, core, mid, owned in *. tcp_simpl. rewrite !app_nil_r. cbn [app] in *. split; [|done].
  destruct Hc as (A & [B1 B2 B3 B4 B5] & Hc). split; [done|]. split; [|done]. constructor; try done. by rewrite app_nil_r.
Qed.

(** ** The invariant of the reachable states *)

Record conn_inv (inLoop : bool) (c : TcpConnection) : Prop := {
  ci_good : good inLoop [] c;
  ci_fresh : tc_state c = kConnecting -> readable (tc_outputBuffer c) = [];
  ci_settled : inLoop = true -> settled (tc_log c);
  ci_others : tc_state c = kConnecting -> forall p u, others p u (tc_log c) = 0%nat;
}.

Lemma conn_inv_handled inLoop c c' : conn_inv inLoop c -> handled inLoop [] c c' -> conn_inv inLoop c'.
Proof.
  intros [_ _ H3 _] (H4 & (l & El & Hl) & H5). constructor; [done|by intros ?| |by intros ?]. intros Hi. rewrite El. apply settled_app; auto.
Qed.

Lemma conn_inv_new inLoop : conn_inv inLoop newConnection.
Proof.
  assert (kInitialSize = 2048) as Hk by done. destruct (newBuffer_ok kInitialSize) as (Hb & Hr & Hw & Hl); [lia|].
  constructor; [|by intros _|by intros _ _|done]. split; [|by cbn]. unfold core, mid, newConnection. tcp_simpl. unfold in_ok.
  set (b := newBuffer kInitialSize) in *. clearbody b. rewrite Hl. split_and!; try done. all: try (intros _; by constructor; [constructor|intros ?%elem_of_nil|]).
  assert (readableBytes b = 0) as H0 by (by apply readable_nil).
  constructor; cbn [app]; rewrite ?Hl, ?H0, ?Hr; try done.
Qed.

(** A call from the loop's thread, or from another. *)
Lemma conn_inv_call E inLoop u c : env_ok E -> conn_inv inLoop c -> lenZ (offered (tc_log c)) + lenZ (requested [u]) <= kBudget ->
  exists c', userCall E u c = Some c' /\ conn_inv inLoop c'.
Proof.
  intros HE [[Hc Ho] H2 H3 H4] Hb. destruct (userCall_ok E inLoop [] u c HE Hc Hb) as (c' & E1 & Hc' & Hf & _).
  exists c'. split; [done|].
  assert (tc_state c' = kConnecting -> tc_state c = kConnecting /\ tc_outputBuffer c' = tc_outputBuffer c /\ tc_log c' = tc_log c) as Hn.
  { intros Hs. assert (tc_state c = kConnecting) as Hs0 by (destruct (fr_state _ _ _ Hf) as [<-|[_ Hx]]; [done|congruence]).
    split; [done|]. destruct u; cbn [userCall] in E1; unfold send, shutdown, forceClose in E1; rewrite ?Hs0 in E1;
      try (case_decide; [naive_solver|]); by simplify_eq. }
  constructor; [by eapply good_calls| | |].
  - intros Hs. destruct (Hn Hs) as (Hs0 & -> & _). auto.
  - intros Hi. destruct Hf as [_ _ _ _ (l & -> & _ & Hl) _]. by apply settled_app; [apply H3|].
  - intros Hs. destruct (Hn Hs) as (Hs0 & _ & ->). auto.
Qed.

Lemma conn_inv_queue f c : conn_inv false c -> tc_state c <> kConnecting -> destroys [f] = 0%nat ->
  readableBytes (tc_outputBuffer c) + lenZ (queued (tc_pending c)) + lenZ (queued [f]) <= lenZ (offered (tc_log c)) ->
  conn_inv false (queueInLoop f c).
Proof.
  intros [[Hc Ho] H2 _ _] Hs Hf Hb. constructor; [split|by intros ?|done|by intros ?].
  - destruct Hc as (A & [B1 B2 B3 B4 B5] & C & D & G & F). unfold core, mid. tcp_simpl. split_and!; try done.
    constructor; try done. cbn [app]. rewrite queued_app, lenZ_app. lia.
  - by eapply owned_frame, Ho; apply (frame_queue silent).
Qed.

(** Nothing of another thread's call but its test comes before the connection is
    established. *)
Lemma others_established c p u : conn_inv false c -> (0 < others p u (tc_log c))%nat -> tc_state c <> kConnecting.
Proof. intros [_ _ _ H] Hp Hs. rewrite H in Hp by done. lia. Qed.

Lemma conn_inv_seen p u c : conn_inv false c -> tc_state c <> kConnecting -> conn_inv false (observe (Other p u) c).
Proof.
  intros [[Hc Ho] H2 _ _] Hs. constructor; [|by intros ?|done|by intros ?]. split; [by apply mid_observe|].
  eapply owned_frame, Ho. by apply (frame_observe silent).
Qed.

Lemma conn_inv_store c : conn_inv false c -> live c -> conn_inv false (setState kDisconnecting c).
Proof.
  intros [[Hc Ho] _ _ _] Hl. constructor; [|done..]. split.
  - destruct Hl as [Hs|Hs]; [by apply core_shut|]. destruct c; cbn in *; by subst.
  - eapply owned_frame, Ho. apply (calls_state c kDisconnecting). destruct Hl; tauto.
Qed.

Lemma conn_inv_bytes c : conn_inv false c -> readableBytes (tc_outputBuffer c) + lenZ (queued (tc_pending c)) <= lenZ (offered (tc_log c)).
Proof. intros [[(_ & [_ _ B _ _] & _) _] _ _ _]. exact B. Qed.

Lemma conn_inv_other E p u c : env_ok E -> conn_inv false c -> may_happen E c (EvOther p u) ->
  exists c', otherCall p u c = Some c' /\ conn_inv false c'.
Proof.
  intros HE Hinv Hm.
  assert (forall q, (0 < others q u (tc_log c))%nat -> conn_inv false (observe (Other p u) c) /\ tc_state c <> kConnecting) as Hseen.
  { intros q Hq. pose proof (others_established c q u Hinv Hq). split; [by apply conn_inv_seen|done]. }
  destruct p; cbn [may_happen other_may otherCall] in *.
  - destruct u; try done; (eexists; split; [done|]); case_decide as Hs; try done; apply conn_inv_seen; try done; intros Hk; rewrite Hk in Hs; first [done|by destruct Hs].
  - assert (conn_inv false (setState kDisconnecting (observe (Other PStore u) c))) as H.
    { destruct u; try done; destruct Hm as [Hm Hs]; (destruct (Hseen PTest) as [H Hc]; [lia|]); apply conn_inv_store; try done;
        unfold live; tcp_simpl; destruct (tc_state c); tauto. }
    destruct u; try done; by eexists.
  - destruct u as [data| | |]; try done.
    + destruct Hm as [Hm Hb]. destruct (Hseen PTest) as [H Hc]; [lia|]. eexists. split; [done|].
      set (c1 := observe (Other PQueue (USend data)) c) in *. pose proof H as [[Hc1 Ho1] _ _ _].
      destruct (mid_sent false [] data c1 Hc1) as [Hc2 Hb2].
      { unfold c1. tcp_simpl. by rewrite offered_app, app_nil_r. }
      apply conn_inv_queue; [|done|done|].
      * constructor; [|by intros ?|done|by intros ?]. split; [done|]. exact Ho1.
      * cbn [queued flat_map app] in *. by rewrite app_nil_r.
    + destruct (Hseen PStore) as [H Hc]; [lia|]. eexists. split; [done|]. apply conn_inv_queue; [done..|].
      rewrite Z.add_0_r. by apply conn_inv_bytes.
    + destruct (Hseen PStore) as [H Hc]; [lia|]. eexists. split; [done|]. apply conn_inv_queue; [done..|].
      rewrite Z.add_0_r. by apply conn_inv_bytes.
Qed.

(** Every possible event succeeds and keeps the invariant. *)
Lemma tcpStep_inv E inLoop e c : env_ok E -> conn_inv inLoop c -> may_happen E c e ->
  (inLoop = true -> match e with EvOther _ _ => False | _ => True end) ->
  exists c', tcpStep E e c = Some c' /\ conn_inv inLoop c'.
Proof.
  intros HE Hinv Hm Hi. pose proof Hinv as [Hg Hf _ _]. destruct e as [|rv t| |u|p u|]; cbn [tcpStep].
  - destruct (connectEstablished_ok E inLoop c HE Hg Hm (Hf Hm)) as (c' & E1 & H1). exists c'. split; [done|by eapply conn_inv_handled].
  - destruct (handleEvent_ok E inLoop rv t c HE Hg Hm) as (c' & E1 & H1). exists c'. split; [done|by eapply conn_inv_handled].
  - unfold doPendingFunctors. destruct (decide (tc_state c = kConnecting)) as [Hs|Hs].
    + assert (tc_pending c = []) as Hp by (destruct Hg as [(_ & _ & _ & _ & G & _) _]; by apply (G Hs)).
      assert (set_pending [] c = c) as Ep by (destruct c; cbn in *; by subst). rewrite Hp, Ep. by exists c.
    + destruct (runFunctors_ok E inLoop (tc_pending c) HE (set_pending [] c)) as (c' & E1 & H1); [by apply good_swap|done|].
      exists c'. split; [done|]. destruct H1 as (H1 & H2 & H3). by apply (conn_inv_handled inLoop c); [|split].
  - by apply conn_inv_call.
  - destruct inLoop; [by specialize (Hi eq_refl)|]. by apply (conn_inv_other E).
  - destruct Hm. destruct (serverDestroyed_ok E inLoop c HE Hg) as (c' & E1 & H1); [done|done|]. exists c'. split; [done|by eapply conn_inv_handled].
Qed.

Lemma reachable_inv E inLoop c : env_ok E -> reachable E inLoop c -> conn_inv inLoop c.
Proof.
  intros HE. induction 1 as [|c e c' Hr IH Hm Hi Es]; [apply conn_inv_new|].
  destruct (tcpStep_inv E inLoop e c HE IH Hm Hi) as (c'' & Es' & Hinv). congruence.
Qed.
