(* ===== verification/TcpProps.v ===== *)
(** * What a TCP connection promises

    For every reachable state of a connection of [Tcp.v]: no assertion fails,
    the bytes the user sends reach the wire in order, the write side is shut
    down only behind the last of them, waiting output drains, and the callbacks
    come in the order [Ingest.v] relies on. *)

From stdpp Require Import base list numbers gmap strings.
From Stdlib Require Import ZArith Lia.
From S2P Require Import Prelude DeviceModel ConfigDB Pipeline Ingest Buffer Tcp TcpInv.
Local Open Scope Z_scope.

(** ** Order on the wire *)

Lemma tidy_split l : tidy l -> forall l1 l2, l = l1 ++ SysShutdownWr :: l2 ->
  accepted l1 = wire l1 /\ accepted l2 = [] /\ wire l2 = [].
Proof.
  induction 1 as [|l o Hl IH Hs Ha]; intros l1 l2 E; [by destruct l1|].
  destruct l2 as [|x l2 _] using rev_ind.
  - apply app_inj_tail in E as [-> ->]. by split_and!; [apply Hs| |].
  - rewrite app_comm_cons, app_assoc in E. apply app_inj_tail in E as [-> ->].
    destruct (IH l1 l2 eq_refl) as (I1 & I2 & I3). rewrite accepted_app, wire_app, I2, I3.
    assert (SysShutdownWr ∈ l1 ++ SysShutdownWr :: l2) as Hin by (apply elem_of_app; right; left).
    specialize (Ha Hin). split_and!; [done|..]; by destruct x.
Qed.

(** ** Draining *)

(** [n] times the poller reports that the socket is writable. *)
Fixpoint writablePolls (E : TcpEnv) (n : nat) (c : TcpConnection) : option TcpConnection :=
  match n with O => Some c | S n' => c ← tcpStep E (EvPoll POLLOUT 0) c; writablePolls E n' c end.

Lemma reachable_core E inLoop c : env_ok E -> reachable E inLoop c -> core inLoop [] c.
Proof. intros HE Hr. apply (reachable_inv E inLoop c HE Hr). Qed.

(** A kernel that always takes something. *)
Definition accepting (E : TcpEnv) : Prop := forall l data, data <> [] -> 0 < fst (te_send E l data).

Lemma writablePolls_drain E inLoop : env_ok E -> accepting E -> forall n c, core inLoop [] c -> live c ->
  readable (tc_outputBuffer c) <> [] -> readableBytes (tc_outputBuffer c) <= Z.of_nat n ->
  exists k c', (k <= n)%nat /\ writablePolls E k c = Some c' /\ core inLoop [] c' /\ readable (tc_outputBuffer c') = [] /\
    accepted (tc_log c') = accepted (tc_log c) /\ (tc_state c = kDisconnecting -> SysShutdownWr ∈ tc_log c').
Proof.
  intros HE Ha. induction n as [|n IH]; intros c Hc Hl Hne Hn; pose proof Hc as (_ & B & _); pose proof (readableBytes_nonneg _ (oo_buffer _ _ _ _ _ B)).
  - destruct Hne. apply readable_nil; [apply B|lia].
  - destruct (write_progress E inLoop [] c HE Hc Hl Hne (Ha _ _ Hne)) as (c1 & E1 & Hc1 & _ & _ & Es & Er & Eacc & Hsh).
    pose proof (Ha (tc_log c) _ Hne) as Hp. pose proof Hc1 as (_ & B1 & _).
    assert (tcpStep E (EvPoll POLLOUT 0) c = Some c1) as E2 by exact E1.
    destruct (decide (readable (tc_outputBuffer c1) = [])) as [Hz|Hz].
    + exists 1%nat, c1. cbn [writablePolls]. rewrite E2. split_and!; [lia|done|done|done|done|auto].
    + destruct (IH c1 Hc1) as (k & c2 & Hk & E3 & Hc2 & Hr2 & Ea2 & Hs2); [unfold live; by rewrite Es|done|lia|].
      exists (S k), c2. cbn [writablePolls]. rewrite E2. cbn [mbind option_bind].
      split_and!; [lia|done|done|done|congruence|by rewrite <- Es].
Qed.

(** ** What the servers see *)

(** A connection's history as events of the network. *)
Definition netEvent (c : TcpConn) (o : Obs) : option NetEvent :=
  match o with
  | CbConnection true => Some (Opened c)
  | CbConnection false => Some (Closed c)
  | CbMessage data t => Some (Received c data t)
  | _ => None
  end.
Definition netEvents (c : TcpConn) (l : list Obs) : list NetEvent := omap (netEvent c) l.

(** The live connection of a history. *)
Definition lifeConn (c : TcpConn) (s : Life) : gmap nat TcpConn := match s with Up => {[cn_addr c := c]} | _ => ∅ end.

Lemma lifeStep_broken l : fold_left lifeStep l Broken = Broken.
Proof. induction l as [|o l IH]; [done|]. cbn. by destruct o as [[]| | | | | | | | | | |]. Qed.

Lemma netEvents_ok c l : forall s, fold_left lifeStep l s <> Broken -> trace_ok (lifeConn c s) (netEvents c l).
Proof.
  induction l as [|o l IH]; intros s Hl; [done|]. cbn [fold_left] in Hl. specialize (IH _ Hl).
  assert (lifeStep s o <> Broken) as Hb by (intros E; by rewrite E, lifeStep_broken in Hl).
  destruct o as [[]| | | | | | | | | | |], s; try done; cbn in IH |- *; split; try done.
  - by rewrite lookup_singleton_eq.
  - by rewrite delete_singleton_eq.
  - by rewrite lookup_singleton_eq.
Qed.

Lemma netEvents_app c l es : forall s, fold_left lifeStep l s <> Broken ->
  trace_ok (lifeConn c (fold_left lifeStep l s)) es -> trace_ok (lifeConn c s) (netEvents c l ++ es).
Proof.
  induction l as [|o l IH]; intros s Hl Hes; [done|]. cbn [fold_left] in *. specialize (IH _ Hl Hes).
  assert (lifeStep s o <> Broken) as Hb by (intros E; by rewrite E, lifeStep_broken in Hl).
  destruct o as [[]| | | | | | | | | | |], s; try done; cbn in IH |- *; split; try done.
  - by rewrite lookup_singleton_eq.
  - by rewrite delete_singleton_eq.
  - by rewrite lookup_singleton_eq.
Qed.

(** The history of some connection. *)
Definition conn_history (l : list Obs) : Prop := exists E inLoop c, env_ok E /\ reachable E inLoop c /\ tc_log c = l.

Lemma conn_history_life l : conn_history l -> life l <> Broken.
Proof.
  intros (E & i & c & HE & Hr & <-). destruct (reachable_core E i c HE Hr) as (_ & _ & _ & D & _). rewrite D. by destruct (tc_state c).
Qed.

Definition event_conn (e : NetEvent) : TcpConn := match e with Opened c | Closed c | Received c _ _ => c end.
Definition at_addr (a : nat) (e : NetEvent) : Prop := cn_addr (event_conn e) = a.
#[export] Instance at_addr_dec a e : Decision (at_addr a e).
Proof. unfold at_addr. apply _. Defined.

(** What happens at an address: connections one after the other, each but the
    last over when the address is reused. *)
Inductive occupancy (a : nat) : list NetEvent -> Prop :=
| occupancy_last c l : cn_addr c = a -> conn_history l -> occupancy a (netEvents c l)
| occupancy_next c l es : cn_addr c = a -> conn_history l -> life l <> Up -> occupancy a es -> occupancy a (netEvents c l ++ es).
#[export] Hint Constructors occupancy : ether.

Lemma occupancy_trace a es : occupancy a es -> trace_ok ∅ es.
Proof.
  induction 1 as [c l Ha Hl|c l es Ha Hl Hup Hocc IH].
  - apply (netEvents_ok c l Unborn). by apply conn_history_life.
  - apply (netEvents_app c l es Unborn); [by apply conn_history_life|]. fold (life l). by destruct (life l).
Qed.

(** A trace is fine when it is fine at every address. *)
Definition live_at (a : nat) (live : gmap nat TcpConn) : gmap nat TcpConn :=
  match live !! a with Some c => {[a := c]} | None => ∅ end.

Lemma live_at_lookup (a : nat) (live : gmap nat TcpConn) : live_at a live !! a = live !! a.
Proof. unfold live_at. destruct (live !! a); [by rewrite lookup_singleton_eq|by rewrite lookup_empty]. Qed.

Lemma live_at_other (b : nat) (live live' : gmap nat TcpConn) : live !! b = live' !! b -> live_at b live = live_at b live'.
Proof. unfold live_at. by intros ->. Qed.

Lemma trace_ok_addresses es : forall live : gmap nat TcpConn, (forall a, trace_ok (live_at a live) (filter (at_addr a) es)) -> trace_ok live es.
Proof.
  induction es as [|e es IH]; intros live H; [done|].
  assert (forall live', (forall b, b <> cn_addr (event_conn e) -> live !! b = live' !! b) ->
    trace_ok (live_at (cn_addr (event_conn e)) live') (filter (at_addr (cn_addr (event_conn e))) es) -> trace_ok live' es) as Hstep.
  { intros live' Ho Hh. apply IH. intros b. destruct (decide (b = cn_addr (event_conn e))) as [->|Hb]; [done|].
    rewrite <- (live_at_other b live live') by auto. specialize (H b). by rewrite filter_cons_False in H by (unfold at_addr; congruence). }
  specialize (H (cn_addr (event_conn e))). rewrite filter_cons_True in H by done.
  destruct e as [c|c|c data t]; cbn [event_conn trace_ok] in *; rewrite live_at_lookup in H; destruct H as [H1 H2]; (split; [done|]).
  - apply Hstep; [intros b Hb; by rewrite lookup_insert_ne|]. unfold live_at in *. rewrite H1 in H2. by rewrite lookup_insert_eq.
  - apply Hstep; [intros b Hb; by rewrite lookup_delete_ne|]. unfold live_at in *. rewrite H1, delete_singleton_eq in H2. by rewrite lookup_delete_eq.
  - by apply Hstep.
Qed.

(** ** Runs

    Sequences of events, each checked against [may_happen]; an event that
    closes and reads at once is left to the theorems. *)

Definition allowed (c : TcpConnection) (e : TcpEvent) : bool :=
  match e with
  | EvEstablish => bool_decide (tc_state c = kConnecting)
  | EvPoll revents _ =>
      match pl_epoll (tc_poll c) with Some _ => true | None => false end && (readableBytes (tc_inputBuffer c) <? kBudget) &&
      negb (closes revents && reads revents)
  | EvFunctors => true
  | EvCall u => lenZ (offered (tc_log c)) + lenZ (requested [u]) <=? kBudget
  | EvOther _ _ => false
  | EvServerDestroyed => negb (bool_decide (tc_state c = kConnecting \/ tc_state c = kDisconnecting))
  end.

Fixpoint tcpRun (E : TcpEnv) (es : list TcpEvent) (c : TcpConnection) : option TcpConnection :=
  match es with
  | [] => Some c
  | e :: es' => if allowed c e then c ← tcpStep E e c; tcpRun E es' c else None
  end.

Lemma allowed_ok E c e : allowed c e = true -> may_happen E c e /\ match e with EvOther _ _ => False | _ => True end.
Proof.
  destruct e as [|rv t| |u|p u|]; cbn [allowed may_happen]; intros H; try done.
  - by apply bool_decide_eq_true in H.
  - split; [|done]. destruct (pl_epoll (tc_poll c)); [|done]. cbn [andb] in H. apply andb_true_iff in H as [H1 H2].
    apply Z.ltb_lt in H1. split_and!; [done|done|]. intros H3 H4. by rewrite H3, H4 in H2.
  - by apply Z.leb_le in H.
  - apply negb_true_iff, bool_decide_eq_false in H. tauto.
Qed.

Lemma tcpRun_reachable E es : forall c c', reachable E true c -> tcpRun E es c = Some c' -> reachable E true c'.
Proof.
  induction es as [|e es IH]; intros c c' Hr H; cbn [tcpRun] in H; [by simplify_eq|].
  destruct (allowed c e) eqn:Ha; [|done]. destruct (allowed_ok E c e Ha) as [Hm Hl].
  destruct (tcpStep E e c) as [c1|] eqn:Es; [|done]. cbn [mbind option_bind] in H.
  apply (IH c1 c'); [|done]. by eapply reachable_step; [exact Hr|exact Hm|..].
Qed.

Lemma run_reachable E es c : tcpRun E es newConnection = Some c -> reachable E true c.
Proof. apply tcpRun_reachable, reachable_new. Qed.

(** A connection that answers each message like an HTTP server, over a kernel
    that takes three bytes at a time and none at first. *)
Definition answer : list Z := [72; 84; 84; 80].
Definition sends (l : list Obs) : nat := length (filter (fun o => match o with SysSend _ _ => true | _ => false end = true) l).
Definition recvs (l : list Obs) : nat := length (filter (fun o => match o with SysRecv _ => true | _ => false end = true) l).

Definition answering : TcpEnv := mkTcpEnv
  (fun l => match last l with Some (CbMessage _ _) => if bool_decide (offered l = []) then [URetrieveAll; USend answer; UShutdown] else [URetrieveAll] | _ => [] end)
  true None
  (fun l data => if bool_decide (sends l = O) then (-1, EWOULDBLOCK) else (Z.min 3 (lenZ data), EOTHER))
  (fun l n => if n <? 3 then None else Some (if bool_decide (recvs l = O) then [71; 69; 84] else [])).

Lemma answering_ok : env_ok answering.
Proof.
  constructor; cbn [answering te_send te_recv te_client].
  - intros l data. pose proof (lenZ_nonneg data). case_bool_decide; cbn [fst]; lia.
  - intros l n data. destruct (Z.ltb_spec n 3); [done|]. intros [= <-]. case_bool_decide; [change (lenZ [71; 69; 84]) with 3|change (lenZ (@nil Z)) with 0]; lia.
  - intros l Hl. assert (lenZ (requested []) = 0) as H0 by done. destruct (last l) as [[]|]; rewrite ?H0; try lia.
    case_bool_decide as Ho; [rewrite Ho; by vm_compute|]. change (requested [URetrieveAll]) with (@nil Z). change (lenZ (@nil Z)) with 0. lia.
Qed.

(** The request has been read; the answer waits, the shutdown too. *)
Definition asked : TcpConnection := default newConnection (tcpRun answering [EvEstablish; EvPoll POLLIN 1000] newConnection).
Lemma asked_reachable : reachable answering true asked.
Proof. apply (run_reachable answering [EvEstablish; EvPoll POLLIN 1000]). by vm_compute. Qed.

(** ** A store that comes too late

    The connection closed between the test of the state and the store: neither
    its server nor the state tells that it is closed. *)
Definition revived (c : TcpConnection) : Prop := tc_state c = kDisconnecting /\ tc_inServer c = false.

(** What an operation of the loop leaves alone. *)
Definition keeps (c c' : TcpConnection) : Prop :=
  tc_inServer c' = tc_inServer c /\ (tc_state c <> kConnected -> tc_state c' = tc_state c).

Lemma keeps_refl c : keeps c c. Proof. done. Qed.
Lemma keeps_trans c1 c2 c3 : keeps c1 c2 -> keeps c2 c3 -> keeps c1 c3.
Proof. intros [A1 A2] [B1 B2]. split; [congruence|]. intros H. rewrite <- A2 in H |- * by done. auto. Qed.

Ltac unwind := repeat match goal with
  | H : context [mbind _ _] |- _ => progress (unfold mbind, option_bind in H)
  | H : Some _ = Some _ |- _ => injection H as H
  | H : match ?x with _ => _ end = Some _ |- _ => destruct x eqn:?; try discriminate H; cbn [mbind option_bind] in H
  end; subst.

Lemma updateEvents_keeps ev c c' : updateEvents ev c = Some c' -> keeps c c'.
Proof. unfold updateEvents. intros H. unwind. done. Qed.

Lemma sendInLoop_keeps E data c c' : sendInLoop E data c = Some c' -> keeps c c'.
Proof.
  unfold sendInLoop. intros H; case_decide; [by simplify_eq|].
  destruct (sendNow E data c) as [[[n fault] c1]|] eqn:E1; [|done]. cbn [mbind option_bind] in H.
  assert (keeps c c1) as H1.
  { unfold sendNow, sysSend in E1. destruct (te_send E (tc_log c) data) as [m err]. unwind; simplify_eq; repeat case_match; done. }
  destruct (negb _); [done|]. destruct fault; [by simplify_eq|]. apply (keeps_trans _ c1 _ H1). clear -H.
  unfold sendRest, enableWriting in H. case_match; [by simplify_eq|].
  match type of H with context [append _ (tc_outputBuffer ?x)] => assert (keeps c1 x) as Hx; [|generalize dependent x] end.
  { destruct (te_highWater E); [|done]. by case_match. }
  intros c2 H Hx. destruct (append _ _); [|done]. cbn [mbind option_bind] in H. apply (keeps_trans _ _ _ Hx).
  destruct (negb (isWriting _)); [by apply updateEvents_keeps in H|by simplify_eq].
Qed.

Lemma userCall_keeps E u c c' : userCall E u c = Some c' -> keeps c c'.
Proof.
  destruct u; cbn [userCall]; unfold send, shutdown, shutdownInLoop, forceClose; try case_decide as Hs; intros H; try by simplify_eq.
  - apply sendInLoop_keeps in H as [A B]. by split.
  - simplify_eq. by case_match.
  - simplify_eq. split; [done|]. destruct Hs as [?|Hs]; [done|]. tcp_simpl. by rewrite Hs.
Qed.

Lemma callback_keeps E o c c' : callback E o c = Some c' -> keeps c c'.
Proof.
  unfold callback. generalize (te_client E (tc_log (observe o c))) as us. intros us.
  assert (keeps c (observe o c)) as H by done. revert H. generalize (observe o c) as c1. induction us as [|u us IH]; intros c1 H Hu; cbn [userCalls] in Hu.
  - by simplify_eq.
  - destruct (userCall E u c1) as [c2|] eqn:E1; [|done]. apply (IH c2); [|done].
    eapply keeps_trans; [exact H|]. by eapply userCall_keeps.
Qed.

Lemma forceClose_revived E c : revived c -> forceCloseInLoop E c = None.
Proof.
  intros [Hs Hi]. unfold forceCloseInLoop, handleClose, disableAll. rewrite decide_True, bool_decide_true by tauto. cbn [negb].
  destruct (updateEvents kNoneEvent (setState kDisconnected c)) as [c1|] eqn:E1; [|done]. cbn [mbind option_bind].
  destruct (callback E (CbConnection false) c1) as [c2|] eqn:E2; [|done]. cbn [mbind option_bind].
  apply updateEvents_keeps in E1 as [K1 _]. apply callback_keeps in E2 as [K2 _]. tcp_simpl.
  unfold removeConnection. tcp_simpl. by rewrite K2, K1, Hi.
Qed.

Lemma runFunctor_revived E f c c' : revived c -> runFunctor E f c = Some c' -> f <> FForceClose /\ revived c'.
Proof.
  intros H E1. assert (f <> FForceClose) as Hf by (intros ->; cbn in E1; by rewrite forceClose_revived in E1). split; [done|].
  destruct H as [Hs Hi]. assert (keeps c c') as [K1 K2].
  { destruct f; cbn [runFunctor] in E1; try done.
    - by eapply sendInLoop_keeps.
    - unfold shutdownInLoop in E1. simplify_eq. by case_match.
    - by eapply callback_keeps.
    - by eapply callback_keeps.
    - unfold connectDestroyed in E1. rewrite decide_False in E1 by (by rewrite Hs). cbn [mbind option_bind] in E1.
      unfold removeChannel in E1. unwind. done. }
  split; [rewrite K2; congruence|congruence].
Qed.

Lemma runFunctors_revived E fs : forall c c', revived c -> runFunctors E fs c = Some c' -> FForceClose ∉ fs /\ revived c'.
Proof.
  induction fs as [|f fs IH]; intros c c' H E1; cbn [runFunctors] in E1; [simplify_eq; split; [by intros ?%elem_of_nil|done]|].
  destruct (runFunctor E f c) as [c1|] eqn:Ef; [|done]. destruct (runFunctor_revived _ _ _ _ H Ef) as [Hf H1].
  destruct (IH c1 c' H1 E1) as [Hn H2]. split; [|done]. by intros [?|?]%elem_of_cons.
Qed.

(** ** Properties *)

(** C21: outside the three events [tcp_unsafe_events] shows to fail, no assertion of a connection, its channel or its
    poller entry can fail: whatever the user's callbacks and the kernel do, and wherever the parts of other threads' calls
    fall between the steps of the loop, every event [may_happen] admits succeeds in every state such events reach.  (What
    it does not admit: an error reported together with data still to be read, the server destroyed while the connection
    is being shut down, and another thread's [shutdown] or [forceClose] storing its state after the connection closed.)
    A live connection is then watched, for writing exactly while output waits; a closed one has left its server, and
    exactly one [connectDestroyed] is queued until its channel is gone from the poller. *)
Theorem tcp_safe E inLoop c e : env_ok E -> reachable E inLoop c -> may_happen E c e ->
  (inLoop = true -> match e with EvOther _ _ => False | _ => True end) ->
  exists c', tcpStep E e c = Some c' /\
    (live c' -> pl_epoll (tc_poll c') = Some (watched (tc_outputBuffer c')) /\ tc_inServer c' = true) /\
    (isWriting c' = true <-> live c' /\ readable (tc_outputBuffer c') <> []) /\
    (tc_state c' = kDisconnected -> pl_epoll (tc_poll c') = None /\ tc_inServer c' = false /\
       destroys (tc_pending c') = if pl_known (tc_poll c') then 1%nat else 0%nat).
Proof.
  intros HE Hr Hm Hi. destruct (tcpStep_inv E inLoop e c HE (reachable_inv E inLoop c HE Hr) Hm Hi) as (c' & Es & [[Hc Ho] _ _]).
  exists c'. split; [done|]. pose proof Hc as (_ & _ & C & _). unfold owned in Ho. split_and!.
  - intros Hl. destruct (live_chan c' Hl C) as (_ & _ & ->). split; [done|].
    rewrite decide_False in Ho by (by destruct Hl as [-> | ->]). apply Ho.
  - rewrite isWriting_waiting by done. apply bool_decide_eq_true.
  - intros Hs. rewrite decide_True in Ho by done. split; [|exact Ho]. rewrite Hs in C. by destruct C as (_ & [[_ ->]|[_ ->]]).
Qed.

Lemma tcp_safe_witness : exists c', tcpStep answering (EvPoll (POLLIN + POLLOUT) 2000) asked = Some c' /\
  (live c' -> pl_epoll (tc_poll c') = Some (watched (tc_outputBuffer c')) /\ tc_inServer c' = true) /\
  (isWriting c' = true <-> live c' /\ readable (tc_outputBuffer c') <> []) /\
  (tc_state c' = kDisconnected -> pl_epoll (tc_poll c') = None /\ tc_inServer c' = false /\
     destroys (tc_pending c') = if pl_known (tc_poll c') then 1%nat else 0%nat).
Proof.
  apply (tcp_safe answering true asked); [exact answering_ok|exact asked_reachable| |done].
  split_and!; [by vm_compute|by vm_compute|]. intros H. vm_compute in H. discriminate.
Defined.


Definition answered : TcpConnection :=
  default newConnection (tcpRun answering [EvEstablish; EvPoll POLLIN 1000; EvPoll POLLOUT 2000; EvPoll POLLOUT 3000] newConnection).


(** Waiting output drains: over a kernel that takes at least a byte each time the socket is writable, at most as many
    writable events as bytes wait empty the output buffer of a live connection, everything accepted is then on the wire,
    and a connection being shut down has shut down its write side. *)
Theorem tcp_drains E inLoop c : env_ok E -> accepting E -> reachable E inLoop c -> live c -> readable (tc_outputBuffer c) <> [] ->
  exists k c', (k <= Z.to_nat (readableBytes (tc_outputBuffer c)))%nat /\ writablePolls E k c = Some c' /\
    readable (tc_outputBuffer c') = [] /\ wire (tc_log c') = accepted (tc_log c) /\
    (tc_state c = kDisconnecting -> SysShutdownWr ∈ tc_log c').
Proof.
  intros HE Ha Hr Hl Hne. pose proof (reachable_core E inLoop c HE Hr) as Hc. 
  pose proof Hc as (_ & B & _). pose proof (readableBytes_nonneg _ (oo_buffer _ _ _ _ _ B)).
  destruct (writablePolls_drain E inLoop HE Ha (Z.to_nat (readableBytes (tc_outputBuffer c))) c Hc Hl Hne)
    as (k & c' & Hk & E1 & (_ & B' & _) & Hr' & Ea & Hs); [lia|].
  exists k, c'. split_and!; try done. destruct B' as [_ _ _ _ B5]. rewrite <- Ea. by rewrite Hr', !app_nil_r in B5.
Qed.

(** The same, over a kernel that takes a byte at a time. *)
Definition byteWise : TcpEnv := mkTcpEnv (te_client answering) true (Some 2)
  (fun l data => (Z.min 1 (lenZ data), EOTHER)) (te_recv answering).
Definition byteWise_asked : TcpConnection := default newConnection (tcpRun byteWise [EvEstablish; EvPoll POLLIN 1000] newConnection).

Lemma tcp_drains_witness : exists k c', (k <= 3)%nat /\ writablePolls byteWise k byteWise_asked = Some c' /\
  readable (tc_outputBuffer c') = [] /\ wire (tc_log c') = answer /\ (tc_state byteWise_asked = kDisconnecting -> SysShutdownWr ∈ tc_log c').
Proof.
  apply (tcp_drains byteWise true byteWise_asked).
  - destruct answering_ok as [_ H2 H3]. constructor; [|exact H2|exact H3]. intros l data. pose proof (lenZ_nonneg data). cbn. lia.
  - intros l [|x data] H; [done|]. cbn [byteWise te_send fst]. rewrite lenZ_cons. pose proof (lenZ_nonneg data). cbn. lia.
  - apply (run_reachable byteWise [EvEstablish; EvPoll POLLIN 1000]). by vm_compute.
  - right. by vm_compute.
  - by vm_compute.
Defined.

(** C19: the ingest server over connections of the library: as long as none of them meets one of the three events
    [tcp_unsafe_events] is about (an error reported with unread data, the server destroyed during a shutdown, another
    thread's store after the close: [may_happen] leaves them out), and however the connections, their peers, the kernel
    and the other users of the loop are interleaved, the callbacks the server receives are in the order its own theorems
    assume (opened once, messages only while open, closed once, an address reused only afterwards), so that its
    queue receives exactly the decodable messages, in order. *)
Theorem connections_ingest db s es : (forall a, occupancy a (filter (at_addr a) es)) ->
  trace_ok ∅ es /\ exists s' bufs, ingestRun db s es = (s', bufs) /\ is_queue s' = is_queue s ++ omap (wanted db) es.
Proof.
  intros Ho. assert (trace_ok ∅ es) as Ht.
  { apply trace_ok_addresses. intros a. unfold live_at. rewrite lookup_empty. by apply (occupancy_trace a). }
  split; [done|]. destruct (ingestRun_effect db es ∅ s ∅ Ht) as (s' & bufs & E & _ & Hq & _); [done|done|]. by exists s', bufs.
Qed.

(** An address used twice, while another connection is open throughout. *)
Definition peer1 : TcpConn := mkConn 1 "10.0.0.1" 4001.
Definition peer2 : TcpConn := mkConn 2 "10.0.0.2" 4002.
Definition peer3 : TcpConn := mkConn 1 "10.0.0.3" 4003.
Definition closing : list TcpEvent := [EvEstablish; EvPoll POLLIN 1000; EvPoll POLLOUT 2000; EvPoll POLLIN 3000; EvFunctors; EvFunctors].
Definition closed_log : list Obs := tc_log (default newConnection (tcpRun answering closing newConnection)).

Lemma closed_log_history : conn_history closed_log.
Proof.
  exists answering, true, (default newConnection (tcpRun answering closing newConnection)).
  split; [exact answering_ok|]. split; [|done]. apply (run_reachable answering closing). by vm_compute.
Qed.

Definition three_connections : list NetEvent :=
  [Opened peer2; Opened peer1; Received peer1 [71; 69; 84] 1000; Received peer2 [71; 69; 84] 1000; Closed peer1;
   Opened peer3; Received peer3 [71; 69; 84] 1000; Closed peer3; Closed peer2].

Lemma three_connections_occupancy a : occupancy a (filter (at_addr a) three_connections).
Proof.
  destruct (decide (a = 1%nat)) as [->|H1]; [|destruct (decide (a = 2%nat)) as [->|H2]].
  - change (filter (at_addr 1) three_connections) with (netEvents peer1 closed_log ++ netEvents peer3 closed_log).
    apply occupancy_next; [done|exact closed_log_history|by vm_compute|]. apply occupancy_last; [done|exact closed_log_history].
  - change (filter (at_addr 2) three_connections) with (netEvents peer2 closed_log). apply occupancy_last; [done|exact closed_log_history].
  - assert (filter (at_addr a) three_connections = netEvents (mkConn a "0.0.0.0" 0) []) as ->.
    { unfold three_connections. rewrite !filter_cons_False by (unfold at_addr; cbn; congruence). done. }
    apply occupancy_last; [done|]. exists answering, true, newConnection. split; [exact answering_ok|]. split; [apply reachable_new|done].
Qed.

Lemma connections_ingest_witness : trace_ok ∅ three_connections /\
  exists s' bufs, ingestRun ingest_db (newIngest AdapterStats0) three_connections = (s', bufs) /\
    is_queue s' = [] ++ omap (wanted ingest_db) three_connections.
Proof. apply (connections_ingest ingest_db (newIngest AdapterStats0)). exact three_connections_occupancy. Defined.

(** C27: the three events the library does not survive.  When the poller reports an error together with readable data, the
    error handler closes the connection and the read handler still reads: at the end of the stream an assertion fails, and
    data waiting is handed to the user after the connection was reported down.  A server destroyed while one of its
    connections is being shut down (as [HttpIngest] shuts down after each response) fails the assertion of
    [Channel::remove].  And when a connection closes between the test of its state by another thread's [shutdown] or
    [forceClose] and the store, the store takes it for alive again, though its server has forgotten it: the functor
    [forceClose] queues then fails an assertion, whatever is queued before it, and if a whole round of functors does
    succeed, the destructor's assertion fails instead. *)
Theorem tcp_unsafe_events E inLoop c : env_ok E -> reachable E inLoop c ->
  (live c -> readableBytes (tc_inputBuffer c) < kBudget -> forall revents t,
    closes revents = true -> reads revents = true -> has revents POLLOUT = false ->
    exists c1 n, tc_state c1 = kDisconnected /\ CbClose ∈ tc_log c1 /\ 2048 <= n /\
      (te_recv E (tc_log c1) n = Some [] -> handleEvent E revents t c = None) /\
      forall data, data <> [] -> te_recv E (tc_log c1) n = Some data ->
        exists c2, handleEvent E revents t c = callback E (CbMessage data t) c2 /\ tc_state c2 = kDisconnected /\ CbClose ∈ tc_log c2) /\
  (tc_state c = kDisconnecting -> serverDestroyed E c = None) /\
  (tc_state c = kDisconnected -> forall u c1 c2, otherCall PStore u c = Some c1 -> otherCall PQueue u c1 = Some c2 ->
    tc_state c2 = kDisconnecting /\ tc_inServer c2 = false /\ (u = UForceClose -> doPendingFunctors E c2 = None) /\
    forall c3, doPendingFunctors E c2 = Some c3 -> destroyConnection c3 = None).
Proof.
  intros HE Hr. destruct (reachable_inv E inLoop c HE Hr) as [Hg _ _ _]. split_and!.
  - intros Hl Hin rv t Hc Hrd Hout. destruct (close_events_ok E inLoop rv c HE Hg Hl) as (c1 & E1 & ([Hc1 _] & _) & I1 & L1).
    rewrite Hc in L1. destruct L1 as (Hs & l & El & Hx). pose proof Hc1 as (A & _).
    destruct (read_room c1 A) as (b & Eb & [Hb _] & _ & Hw & Hnb); [lia|].
    assert (handleEvent E rv t c = handleRead E t c1) as Eh.
    { unfold handleEvent. rewrite <- option_bind_assoc, E1. cbn [mbind option_bind]. fold (reads rv). rewrite Hrd, Hout. by destruct (handleRead E t c1). }
    exists c1, (writableBytes b). rewrite Eh. unfold handleRead. rewrite Eb. cbn [mbind option_bind].
    destruct (Z.ltb_spec (writableBytes b) (2 ^ 31)); [|lia]. cbn [negb]. tcp_simpl. split_and!; [done|rewrite El; apply elem_of_app; by right| | |].
    + unfold ensureWritableBytes in Eb. destruct (if writableBytes (tc_inputBuffer c1) <? kRdLen then _ else _) as [b0|]; [|done].
      cbn [mbind option_bind] in Eb. destruct (Z.leb_spec kRdLen (writableBytes b0)); [|done]. simplify_eq. unfold kRdLen in *. lia.
    + intros ->. unfold handleClose. tcp_simpl. by rewrite bool_decide_false by (rewrite Hs; by intros [|]).
    + intros [|x data] Hne Er; [done|]. pose proof (eo_recv _ HE _ _ _ Er) as Hd. rewrite Er.
      destruct (writeAt_ok (x :: data) b Hb Hd) as (b1 & b2 & E2 & E3 & _). rewrite E2. cbn [mbind option_bind]. rewrite E3. cbn [mbind option_bind].
      eexists. split; [done|]. tcp_simpl. split; [done|]. rewrite El. apply elem_of_app. left. apply elem_of_app. by right.
  - intros Hs. destruct Hg as [(_ & _ & C & _) Ho]. unfold owned in Ho. rewrite decide_False in Ho by (by rewrite Hs). destruct Ho as [Hin _].
    unfold serverDestroyed, connectDestroyed. rewrite Hin. tcp_simpl. rewrite decide_False by (by rewrite Hs). cbn [mbind option_bind].
    assert (live c) as Hl by (by right). destruct (live_chan c Hl C) as (H1 & _). unfold removeChannel, isNoneEvent. tcp_simpl. rewrite H1.
    destruct (Z.eqb_spec (watched (tc_outputBuffer c)) kNoneEvent) as [Hx|]; [by destruct (watched_live _ Hx)|done].
  - intros Hs u c1 c2 E1 E2. destruct Hg as [_ Ho]. unfold owned in Ho. rewrite decide_True in Ho by done. destruct Ho as [Hin _].
    assert (revived c2 /\ (u = UForceClose -> FForceClose ∈ tc_pending c2)) as [Hrev Hq].
    { destruct u; cbn [otherCall] in E1, E2; try done; simplify_eq; (split; [split; by tcp_simpl|]); intros Hu; [done|].
      apply elem_of_app. right. by left. }
    destruct Hrev as [R1 R2]. split_and!; [done|done| |].
    + intros Hu. unfold doPendingFunctors. destruct (runFunctors E (tc_pending c2) _) as [c3|] eqn:E3; [|done].
      apply runFunctors_revived in E3 as [Hn _]; [|by split]. by destruct (Hn (Hq Hu)).
    + intros c3 E3. apply runFunctors_revived in E3 as [_ [R3 _]]; [|by split]. unfold destroyConnection. by rewrite R3.
Qed.

(** A reset that leaves a request unread: [POLLIN | POLLERR | POLLHUP]. *)
Definition opened_conn : TcpConnection := default newConnection (tcpRun answering [EvEstablish] newConnection).

(** Another thread's [forceClose] has tested the state when the peer hangs up:
    the loop closes the connection, then the call goes on. *)
Definition tested : TcpConnection := observe (Other PTest UForceClose) opened_conn.
Definition hung_up : TcpConnection := default newConnection (handleEvent answering POLLHUP 1000 tested).
Definition stored : TcpConnection := setState kDisconnecting (observe (Other PStore UForceClose) hung_up).
Definition requeued : TcpConnection := queueInLoop FForceClose (observe (Other PQueue UForceClose) stored).

Lemma hung_up_reachable : reachable answering false hung_up.
Proof.
  apply (reachable_step _ _ tested (EvPoll POLLHUP 1000)); [|by split_and!|done|by vm_compute].
  apply (reachable_step _ _ opened_conn (EvOther PTest UForceClose)); [|done|done|by vm_compute].
  apply (reachable_step _ _ newConnection EvEstablish); [apply reachable_new|done|done|by vm_compute].
Qed.

Lemma tcp_unsafe_events_witness :
  ((option_map (fun c => filter (fun o => match o with CbConnection _ | CbMessage _ _ => true | _ => false end = true) (tc_log c))
     (handleEvent answering 25 1000 opened_conn) = Some [CbConnection true; CbConnection false; CbMessage [71; 69; 84] 1000]) /\
   exists c1 n, tc_state c1 = kDisconnected /\ CbClose ∈ tc_log c1 /\ 2048 <= n /\
    (te_recv answering (tc_log c1) n = Some [] -> handleEvent answering 25 1000 opened_conn = None) /\
    forall data, data <> [] -> te_recv answering (tc_log c1) n = Some data ->
      exists c2, handleEvent answering 25 1000 opened_conn = callback answering (CbMessage data 1000) c2 /\ tc_state c2 = kDisconnected /\
        CbClose ∈ tc_log c2) /\
  others PTest UForceClose (tc_log hung_up) = 1%nat /\ tc_state requeued = kDisconnecting /\ tc_inServer requeued = false /\
  doPendingFunctors answering requeued = None.
Proof.
  split.
  - split; [by vm_compute|]. apply (tcp_unsafe_events answering true opened_conn); try by vm_compute.
    + exact answering_ok.
    + apply (run_reachable answering [EvEstablish]). by vm_compute.
    + left. by vm_compute.
  - split; [by vm_compute|].
    destruct (tcp_unsafe_events answering false hung_up answering_ok hung_up_reachable) as (_ & _ & H).
    destruct (H ltac:(by vm_compute) UForceClose stored requeued eq_refl eq_refl) as (H1 & H2 & H3 & _).
    split_and!; [exact H1|exact H2|by apply H3].
Defined.
