(* ===== verification/Loop.v ===== *)
(** * The event loop

    [src/src/net/EventLoop.cpp] with [EPollPoller.cpp]: one loop, the thread
    that runs it step by step, the other threads that queue functors or stop
    the loop, signals, and the poller with the descriptor that wakes it.  What
    functors and channels do when they are called is an argument, and so are
    the answers of [epoll_wait].  [None] is a failed [assert] or a
    [LOG_FATAL]. *)

From stdpp Require Import base list numbers gmap.
From Stdlib Require Import ZArith Lia.
From S2P Require Import Prelude Buffer Tcp.
Local Open Scope Z_scope.

(** ** Data *)

(** A [std::function<void()>], by a number. *)
Definition Functor : Type := nat.

(** What code on the loop's thread asks of the loop; channels are known by
    their descriptors.  [CUpdate] is a change of the events a channel watches. *)
Inductive LoopCall :=
| CRunInLoop (f : Functor)
| CQueueInLoop (f : Functor)
| CQuit
| CUpdate (fd ev : Z)
| CRemove (fd : Z).

(** Whose thread queued a functor: the loop's inside [loop()] or outside it, or
    another one. *)
Inductive Origin := Inside | Outside | Elsewhere.

(** The history of a loop. *)
Inductive LoopObs :=
| OLoop                              (* [loop()] was called *)
| OPolled (t : Z)                    (* [poll] returned *)
| OQueued (w : Origin) (f : Functor) (* in [_pendingFunctors] *)
| OExecuted (f : Functor)            (* called by [doPendingFunctors] *)
| OCalled (f : Functor)              (* called by [runInLoop] itself *)
| ORound                             (* [doPendingFunctors] returned *)
| OHandled (fd revents : Z)          (* [Channel::handleEvent] *)
| OQuit (signal : bool)              (* [_quit] was set, by a signal handler on the loop's thread *)
| OWoken                             (* [EPollPoller::wakeup] wrote *)
| OLeft.                             (* [loop()] returned *)

(** Where the loop's thread is. *)
Inductive Pc :=
| Idle                               (* outside [loop()] *)
| Test                               (* [while (!_quit)] *)
| CallPoll                           (* inside the loop, before [epoll_wait] *)
| Polling                            (* in [epoll_wait] *)
| Events (rest : list (Z * Z))       (* in front of these active channels *)
| Swap                               (* in front of [doPendingFunctors] *)
| Functors (rest : list Functor).    (* in it, in front of these functors *)

(** [class EPollPoller]: [_channels] with what each channel and the epoll
    instance hold, the counter behind [_wakeupFd], [_registerWk] and the size of
    [_events]. *)
Record EPollPoller := mkPoller {
  ep_channels : gmap Z (Channel * PollEntry);
  ep_counter : Z;
  ep_registerWk : bool;
  ep_events : Z;
}.

(** [class EventLoop], with the place of its thread, the calls the running
    callback still makes, and the threads that have queued a functor or set
    [_quit] and have not written to the descriptor yet. *)
Record EventLoop := mkLoop {
  el_looping : bool;
  el_quit : bool;
  el_eventHandling : bool;
  el_callingPendingFunctors : bool;
  el_iteration : Z;
  el_pollReturnTime : Z;
  el_activeChannels : list (Z * Z);
  el_currentActiveChannel : option Z;
  el_poller : EPollPoller;
  el_pendingFunctors : list Functor;
  el_pc : Pc;
  el_work : list LoopCall;
  el_waking : gset nat;
  el_log : list LoopObs;
}.

(** What functors and channels do when they are called, given the history, and
    the number of the poller's descriptor. *)
Record LoopEnv := mkLoopEnv {
  le_functor : list LoopObs -> Functor -> list LoopCall;
  le_handle : list LoopObs -> Z -> Z -> list LoopCall;
  le_wakeupFd : Z;
}.

Definition kInitEventListSize : Z := 16.

(** The constructors; the epoll instance watches nothing yet. *)
Definition newPoller : EPollPoller := mkPoller ∅ 0 false kInitEventListSize.
Definition newLoop : EventLoop := mkLoop false false false false 0 0 [] None newPoller [] Idle [] ∅ [].

(** A new [Channel], unknown to the poller. *)
Definition newChannel : Channel * PollEntry := (mkChannel kNoneEvent kNew false false, mkPoll false None).

(** ** Updates *)

Definition set_flags (looping quit handling calling : bool) (s : EventLoop) : EventLoop :=
  mkLoop looping quit handling calling (el_iteration s) (el_pollReturnTime s) (el_activeChannels s)
    (el_currentActiveChannel s) (el_poller s) (el_pendingFunctors s) (el_pc s) (el_work s) (el_waking s) (el_log s).
Definition set_looping (b : bool) (s : EventLoop) :=
  set_flags b (el_quit s) (el_eventHandling s) (el_callingPendingFunctors s) s.
Definition set_quit (b : bool) (s : EventLoop) :=
  set_flags (el_looping s) b (el_eventHandling s) (el_callingPendingFunctors s) s.
Definition set_eventHandling (b : bool) (s : EventLoop) :=
  set_flags (el_looping s) (el_quit s) b (el_callingPendingFunctors s) s.
Definition set_calling (b : bool) (s : EventLoop) := set_flags (el_looping s) (el_quit s) (el_eventHandling s) b s.
Definition set_polled (i t : Z) (s : EventLoop) : EventLoop :=
  mkLoop (el_looping s) (el_quit s) (el_eventHandling s) (el_callingPendingFunctors s) i t (el_activeChannels s)
    (el_currentActiveChannel s) (el_poller s) (el_pendingFunctors s) (el_pc s) (el_work s) (el_waking s) (el_log s).
Definition set_active (chs : list (Z * Z)) (s : EventLoop) : EventLoop :=
  mkLoop (el_looping s) (el_quit s) (el_eventHandling s) (el_callingPendingFunctors s) (el_iteration s) (el_pollReturnTime s)
    chs (el_currentActiveChannel s) (el_poller s) (el_pendingFunctors s) (el_pc s) (el_work s) (el_waking s) (el_log s).
Definition set_current (fd : option Z) (s : EventLoop) : EventLoop :=
  mkLoop (el_looping s) (el_quit s) (el_eventHandling s) (el_callingPendingFunctors s) (el_iteration s) (el_pollReturnTime s)
    (el_activeChannels s) fd (el_poller s) (el_pendingFunctors s) (el_pc s) (el_work s) (el_waking s) (el_log s).
Definition set_poller (p : EPollPoller) (s : EventLoop) : EventLoop :=
  mkLoop (el_looping s) (el_quit s) (el_eventHandling s) (el_callingPendingFunctors s) (el_iteration s) (el_pollReturnTime s)
    (el_activeChannels s) (el_currentActiveChannel s) p (el_pendingFunctors s) (el_pc s) (el_work s) (el_waking s) (el_log s).
Definition set_pendingFunctors (fs : list Functor) (s : EventLoop) : EventLoop :=
  mkLoop (el_looping s) (el_quit s) (el_eventHandling s) (el_callingPendingFunctors s) (el_iteration s) (el_pollReturnTime s)
    (el_activeChannels s) (el_currentActiveChannel s) (el_poller s) fs (el_pc s) (el_work s) (el_waking s) (el_log s).
Definition set_pc (pc : Pc) (s : EventLoop) : EventLoop :=
  mkLoop (el_looping s) (el_quit s) (el_eventHandling s) (el_callingPendingFunctors s) (el_iteration s) (el_pollReturnTime s)
    (el_activeChannels s) (el_currentActiveChannel s) (el_poller s) (el_pendingFunctors s) pc (el_work s) (el_waking s) (el_log s).
Definition set_work (w : list LoopCall) (s : EventLoop) : EventLoop :=
  mkLoop (el_looping s) (el_quit s) (el_eventHandling s) (el_callingPendingFunctors s) (el_iteration s) (el_pollReturnTime s)
    (el_activeChannels s) (el_currentActiveChannel s) (el_poller s) (el_pendingFunctors s) (el_pc s) w (el_waking s) (el_log s).
Definition set_waking (ts : gset nat) (s : EventLoop) : EventLoop :=
  mkLoop (el_looping s) (el_quit s) (el_eventHandling s) (el_callingPendingFunctors s) (el_iteration s) (el_pollReturnTime s)
    (el_activeChannels s) (el_currentActiveChannel s) (el_poller s) (el_pendingFunctors s) (el_pc s) (el_work s) ts (el_log s).
Definition observe (o : LoopObs) (s : EventLoop) : EventLoop :=
  mkLoop (el_looping s) (el_quit s) (el_eventHandling s) (el_callingPendingFunctors s) (el_iteration s) (el_pollReturnTime s)
    (el_activeChannels s) (el_currentActiveChannel s) (el_poller s) (el_pendingFunctors s) (el_pc s) (el_work s) (el_waking s)
    (el_log s ++ [o]).

Definition set_channel (fd : Z) (c : Channel * PollEntry) (p : EPollPoller) : EPollPoller :=
  mkPoller (<[fd := c]> (ep_channels p)) (ep_counter p) (ep_registerWk p) (ep_events p).
Definition set_counter (n : Z) (p : EPollPoller) : EPollPoller :=
  mkPoller (ep_channels p) n (ep_registerWk p) (ep_events p).
Definition set_registerWk (b : bool) (p : EPollPoller) : EPollPoller :=
  mkPoller (ep_channels p) (ep_counter p) b (ep_events p).
Definition set_events (n : Z) (p : EPollPoller) : EPollPoller :=
  mkPoller (ep_channels p) (ep_counter p) (ep_registerWk p) n.

(** ** The poller *)

Definition channelOf (fd : Z) (p : EPollPoller) : Channel * PollEntry := default newChannel (ep_channels p !! fd).

(** [EPollPoller::wakeup]: the descriptor is an eventfd, whose counter stops
    below 2^64 - 1. *)
Definition wakeup (s : EventLoop) : option EventLoop :=
  let p := el_poller s in
  if ep_counter p + 1 <? 2 ^ 64 - 1 then Some (observe OWoken (set_poller (set_counter (ep_counter p + 1) p) s))
  else None.

(** [EPollPoller::handleRead]: reading takes the whole counter and fails on 0. *)
Definition handleRead (s : EventLoop) : option EventLoop :=
  let p := el_poller s in
  if ep_counter p =? 0 then None else Some (set_poller (set_counter 0 p) s).

(** [EventLoop::updateChannel] of a channel whose events were set to [ev]. *)
Definition updateChannel (fd ev : Z) (p : EPollPoller) : option EPollPoller :=
  let '(ch, e) := channelOf fd p in
  c ← pollerUpdate (mkChannel ev (ch_index ch) (ch_tied ch) true) e;
  Some (set_channel fd c p).

(** [EPollPoller::registerWakeFd], which [enableReading]s the new channel. *)
Definition registerWakeFd (E : LoopEnv) (p : EPollPoller) : option EPollPoller :=
  p ← updateChannel (le_wakeupFd E) (Z.lor kNoneEvent kReadEvent) p;
  Some (set_registerWk true p).

(** [EPollPoller::fillActiveChannels]: the channels [epoll_wait] stored, each
    still in [_channels]. *)
Definition fillActiveChannels (ready : list (Z * Z)) (p : EPollPoller) : option (list (Z * Z)) :=
  if negb (lenZ ready <=? ep_events p) then None
  else if forallb (fun '(fd, _) => pl_known (snd (channelOf fd p))) ready then Some ready
  else None.

(** [EPollPoller::poll] from the return of [epoll_wait] on; an error other than
    a signal is only logged. *)
Definition pollReturn (ready : list (Z * Z)) (s : EventLoop) : option EventLoop :=
  match ready with
  | [] => Some s
  | _ :: _ =>
      let p := el_poller s in
      chs ← fillActiveChannels ready p;
      let p := if lenZ ready =? ep_events p then set_events (ep_events p * 2) p else p in
      Some (set_active (el_activeChannels s ++ chs) (set_poller p s))
  end.

(** [Channel::remove] and [EventLoop::removeChannel]. *)
Definition removeChannel (fd : Z) (s : EventLoop) : option EventLoop :=
  let '(ch, e) := channelOf fd (el_poller s) in
  if negb (isNoneEvent ch) then None
  else if el_eventHandling s && negb (bool_decide (el_currentActiveChannel s = Some fd) ||
                                      bool_decide (fd ∉ (el_activeChannels s).*1)) then None
  else
    c ← pollerRemove (mkChannel (ch_events ch) (ch_index ch) (ch_tied ch) false) e;
    Some (set_poller (set_channel fd c (el_poller s)) s).

(** ** The loop's thread *)

Definition queueInLoop (f : Functor) (s : EventLoop) : option EventLoop :=
  let w := if el_looping s then Inside else Outside in
  let s := observe (OQueued w f) (set_pendingFunctors (el_pendingFunctors s ++ [f]) s) in
  if el_callingPendingFunctors s then wakeup s else Some s.

Definition runInLoop (E : LoopEnv) (f : Functor) (s : EventLoop) : EventLoop :=
  let s := observe (OCalled f) s in set_work (le_functor E (el_log s) f ++ el_work s) s.

Definition quit (s : EventLoop) : EventLoop := observe (OQuit false) (set_quit true s).

Definition doCall (E : LoopEnv) (c : LoopCall) (s : EventLoop) : option EventLoop :=
  match c with
  | CRunInLoop f => Some (runInLoop E f s)
  | CQueueInLoop f => queueInLoop f s
  | CQuit => Some (quit s)
  | CUpdate fd ev => p ← updateChannel fd ev (el_poller s); Some (set_poller p s)
  | CRemove fd => removeChannel fd s
  end.

(** [Channel::handleEvent] of the channel at the front. *)
Definition handleEvent (E : LoopEnv) (fd revents : Z) (s : EventLoop) : option EventLoop :=
  let s := set_current (Some fd) s in
  if fd =? le_wakeupFd E
  then if has revents (Z.lor POLLIN (Z.lor POLLPRI POLLRDHUP)) then handleRead s else Some s
  else let s := observe (OHandled fd revents) s in Some (set_work (le_handle E (el_log s) fd revents) s).

(** The next thing the thread does when no callback is running. *)
Definition advance (E : LoopEnv) (s : EventLoop) : option EventLoop :=
  match el_pc s with
  | Idle | Polling => Some s
  | Test =>
      if el_quit s then Some (observe OLeft (set_pc Idle (set_looping false s)))
      else Some (set_pc CallPoll (set_active [] s))
  | CallPoll =>
      p ← (if ep_registerWk (el_poller s) then Some (el_poller s) else registerWakeFd E (el_poller s));
      Some (set_pc Polling (set_poller p s))
  | Events [] => Some (set_pc Swap (set_eventHandling false (set_current None s)))
  | Events ((fd, revents) :: rest) => handleEvent E fd revents (set_pc (Events rest) s)
  | Swap => Some (set_pc (Functors (el_pendingFunctors s)) (set_pendingFunctors [] (set_calling true s)))
  | Functors [] => Some (observe ORound (set_pc Test (set_calling false s)))
  | Functors (f :: rest) =>
      let s := observe (OExecuted f) (set_pc (Functors rest) s) in
      Some (set_work (le_functor E (el_log s) f) s)
  end.

Definition threadStep (E : LoopEnv) (s : EventLoop) : option EventLoop :=
  match el_work s with
  | c :: w => doCall E c (set_work w s)
  | [] => advance E s
  end.

(** [epoll_wait] returns at [t] with these channels and their events. *)
Definition polled (t : Z) (ready : list (Z * Z)) (s : EventLoop) : option EventLoop :=
  s ← pollReturn ready s;
  let s := observe (OPolled t) (set_polled (el_iteration s + 1) t s) in
  Some (set_pc (Events (el_activeChannels s)) (set_eventHandling true s)).

(** The beginning of [EventLoop::loop]. *)
Definition loop (s : EventLoop) : option EventLoop :=
  if el_looping s then None
  else Some (observe OLoop (set_pc Test (set_quit false (set_looping true s)))).

(** ** Events *)

Inductive LoopEvent :=
| EvLoop                                 (* the loop's thread calls [loop()] *)
| EvCall (c : LoopCall)                  (* or something else, outside it *)
| EvThread                               (* the thread goes on *)
| EvPolled (t : Z) (ready : list (Z * Z))
| EvQueue (thread : nat) (f : Functor)   (* [queueInLoop] of another thread: the functor is queued *)
| EvQuit (thread : nat)                  (* [quit] of another thread: the flag is set *)
| EvWake (thread : nat)                  (* the second half of either *)
| EvSignal (t : Z).                      (* a signal handler on the loop's thread calls [quit] *)

Definition loopStep (E : LoopEnv) (e : LoopEvent) (s : EventLoop) : option EventLoop :=
  match e with
  | EvLoop => loop s
  | EvCall c => Some (set_work [c] s)
  | EvThread => threadStep E s
  | EvPolled t ready => polled t ready s
  | EvQueue i f =>
      Some (set_waking ({[i]} ∪ el_waking s) (observe (OQueued Elsewhere f) (set_pendingFunctors (el_pendingFunctors s ++ [f]) s)))
  | EvQuit i => Some (set_waking ({[i]} ∪ el_waking s) (observe (OQuit false) (set_quit true s)))
  | EvWake i => wakeup (set_waking (el_waking s ∖ {[i]}) s)
  | EvSignal t =>
      let s := observe (OQuit true) (set_quit true s) in
      match el_pc s with Polling => polled t [] s | _ => Some s end
  end.
