(* ===== verification/LoopInv.v ===== *)
(** * The invariant of the event loop

    Reading a loop's history, the events that can happen, the invariant of the
    states reached, and for every operation of [Loop.v] that it succeeds and
    keeps the invariant ([loopStep_inv], [loop_reachable_inv]). *)

From stdpp Require Import base list numbers gmap.
From Stdlib Require Import ZArith Lia.
From S2P Require Import Prelude Buffer Tcp Loop.
Local Open Scope Z_scope.

(** ** Reading a history *)

(** The functors queued, and those [doPendingFunctors] called, in order. *)
Definition queued (l : list LoopObs) : list Functor := omap (fun o => match o with OQueued _ f => Some f | _ => None end) l.
Definition executed (l : list LoopObs) : list Functor := omap (fun o => match o with OExecuted f => Some f | _ => None end) l.

(** How often something happened. *)
Definition count (p : LoopObs -> bool) (l : list LoopObs) : nat := length (filter (fun o => p o = true) l).
Definition is_poll (o : LoopObs) : bool := match o with OPolled _ => true | _ => false end.
Definition is_round (o : LoopObs) : bool := match o with ORound => true | _ => false end.
Definition is_loop (o : LoopObs) : bool := match o with OLoop => true | _ => false end.
Definition is_quit (o : LoopObs) : bool := match o with OQuit _ => true | _ => false end.
Definition is_signal (o : LoopObs) : bool := match o with OQuit b => b | _ => false end.
Definition is_early (o : LoopObs) : bool := match o with OQueued Outside _ => true | _ => false end.

(** Something happened, and no poll has returned since. *)
Definition sincePoll (p : LoopObs -> bool) (l : list LoopObs) : bool :=
  fold_left (fun b o => p o || (b && negb (is_poll o))) l false.

(** ** Reachable states *)

(** The poller's descriptor is its own. *)
Definition call_fd_ok (E : LoopEnv) (c : LoopCall) : Prop :=
  match c with CUpdate fd _ | CRemove fd => fd <> le_wakeupFd E | _ => True end.
Definition loop_env_ok (E : LoopEnv) : Prop :=
  (forall l f, Forall (call_fd_ok E) (le_functor E l f)) /\ (forall l fd rv, Forall (call_fd_ok E) (le_handle E l fd rv)).

(** What [removeChannel] asks of its caller: a registered channel that watches
    nothing, and not one that is still to be handled in this iteration. *)
Definition call_ok (s : EventLoop) (c : LoopCall) : Prop :=
  match c with
  | CRemove fd =>
      let '(ch, e) := channelOf fd (el_poller s) in
      pl_known e = true /\ ch_events ch = kNoneEvent /\
      (el_eventHandling s = true -> el_currentActiveChannel s = Some fd \/ fd ∉ (el_activeChannels s).*1)
  | _ => True
  end.

(** When an event can happen.  [epoll_wait] returns at most as many channels as
    asked for, each once, each one it watches, and the wakeup descriptor only
    when its counter is not 0. *)
Definition may_happen (E : LoopEnv) (s : EventLoop) (e : LoopEvent) : Prop :=
  match e with
  | EvLoop => el_pc s = Idle /\ el_work s = []
  | EvCall c => el_pc s = Idle /\ el_work s = [] /\ call_fd_ok E c
  | EvThread => el_pc s <> Polling /\ (el_pc s = Idle -> el_work s <> [])
  | EvPolled _ ready =>
      el_pc s = Polling /\ NoDup ready.*1 /\ lenZ ready <= ep_events (el_poller s) /\
      forall fd rv, (fd, rv) ∈ ready ->
        pl_epoll (snd (channelOf fd (el_poller s))) <> None /\ (fd = le_wakeupFd E -> ep_counter (el_poller s) <> 0)
  | EvQueue i _ | EvQuit i => i ∉ el_waking s
  | EvWake i => i ∈ el_waking s
  | EvSignal _ => True
  end.

(** A step, and any number of them. *)
Definition step (E : LoopEnv) (s s' : EventLoop) : Prop := exists e, may_happen E s e /\ loopStep E e s = Some s'.
Definition reachable (E : LoopEnv) (s : EventLoop) : Prop := rtc (step E) newLoop s.

(** The loop's thread sleeps: level-triggered, [epoll_wait] returns at once when
    the counter of the wakeup descriptor is not 0. *)
Definition sleeping (s : EventLoop) : Prop := el_pc s = Polling /\ ep_counter (el_poller s) = 0.

(** ** The invariant *)

(** A channel against the poller's entry and what epoll watches. *)
Definition entry_ok (c : Channel * PollEntry) : Prop :=
  let '(ch, p) := c in
  (ch_index ch = kNew /\ p = mkPoll false None) \/
  (ch_index ch = kAdded /\ p = mkPoll true (Some (ch_events ch))) \/
  (ch_index ch = kDeleted /\ p = mkPoll true None).

Definition wakeupChannel : Channel * PollEntry := (mkChannel kReadEvent kAdded false true, mkPoll true (Some kReadEvent)).

(** The flags of the loop, the functors being executed, and whether a callback
    may run, by the place of its thread. *)
Definition is_looping (pc : Pc) : bool := match pc with Idle => false | _ => true end.
Definition is_handling (pc : Pc) : bool := match pc with Events _ => true | _ => false end.
Definition is_calling (pc : Pc) : bool := match pc with Functors _ => true | _ => false end.
Definition running (pc : Pc) : list Functor := match pc with Functors rest => rest | _ => [] end.
Definition callback_pc (pc : Pc) : bool := match pc with Idle | Events _ | Functors _ => true | _ => false end.

(** The channels still to be handled are registered, each once, and the channel
    being handled is none of them. *)
Definition active_ok (E : LoopEnv) (p : EPollPoller) (active : list (Z * Z)) (current : option Z) (pc : Pc) : Prop :=
  match pc with
  | Events rest =>
      NoDup active.*1 /\ (exists done, active = done ++ rest /\ current = last done.*1) /\
      forall fd rv, (fd, rv) ∈ rest -> pl_known (snd (channelOf fd p)) = true /\ (fd = le_wakeupFd E -> ep_counter p <> 0)
  | _ => current = None
  end.

Record loop_ok (E : LoopEnv) (s : EventLoop) : Prop := {
  lo_entries : forall fd c, ep_channels (el_poller s) !! fd = Some c -> entry_ok c;
  lo_wakeup : ep_channels (el_poller s) !! le_wakeupFd E = if ep_registerWk (el_poller s) then Some wakeupChannel else None;
  lo_watched : el_pc s = Polling -> ep_registerWk (el_poller s) = true;
  lo_events : 0 < ep_events (el_poller s);
  lo_counter : 0 <= ep_counter (el_poller s) <= lenZ (el_log s);
  lo_work : Forall (call_fd_ok E) (el_work s);
  lo_quiet : callback_pc (el_pc s) = false -> el_work s = [];
  lo_flags : el_looping s = is_looping (el_pc s) /\ el_eventHandling s = is_handling (el_pc s) /\
             el_callingPendingFunctors s = is_calling (el_pc s);
  lo_active : active_ok E (el_poller s) (el_activeChannels s) (el_currentActiveChannel s) (el_pc s);
  lo_cleared : match el_pc s with CallPoll | Polling => el_activeChannels s = [] | _ => True end;
  lo_fifo : executed (el_log s) ++ running (el_pc s) ++ el_pendingFunctors s = queued (el_log s);
}.

(** The promise of a wake-up: the descriptor is readable, or some thread is
    about to make it so. *)
Definition woken (s : EventLoop) : Prop := ep_counter (el_poller s) <> 0 \/ el_waking s <> ∅.

(** Waiting functors and a request to quit come with that promise wherever the
    thread may go to sleep, except functors the loop's thread queued before it
    called [loop], until the first poll, and a signal that comes while the
    thread is about to poll. *)
Record prompt_ok (s : EventLoop) : Prop := {
  po_pending : match el_pc s with Events _ | Swap => False | _ => True end -> el_pendingFunctors s <> [] ->
    woken s \/ (count is_early (el_log s) <> 0%nat /\ (el_pc s = Idle \/ sincePoll is_loop (el_log s) = true));
  po_quit : match el_pc s with CallPoll | Polling => True | _ => False end -> el_quit s = true ->
    woken s \/ sincePoll is_signal (el_log s) = true;
}.

Definition loop_inv (E : LoopEnv) (s : EventLoop) : Prop := loop_ok E s /\ prompt_ok s.

(** ** Histories *)

Lemma queued_snoc l o : queued (l ++ [o]) = queued l ++ match o with OQueued _ f => [f] | _ => [] end.
Proof. unfold queued. rewrite omap_app. by destruct o. Qed.

Lemma executed_snoc l o : executed (l ++ [o]) = executed l ++ match o with OExecuted f => [f] | _ => [] end.
Proof. unfold executed. rewrite omap_app. by destruct o. Qed.

Lemma count_snoc p l o : count p (l ++ [o]) = (count p l + if p o then 1 else 0)%nat.
Proof. unfold count. rewrite filter_app, length_app, filter_cons, filter_nil. by destruct (p o). Qed.

Lemma sincePoll_snoc p l o : sincePoll p (l ++ [o]) = p o || (sincePoll p l && negb (is_poll o)).
Proof. unfold sincePoll. by rewrite fold_left_app. Qed.

Lemma lenZ_snoc {A} (l : list A) x : lenZ (l ++ [x]) = lenZ l + 1.
Proof. unfold lenZ. rewrite length_app. cbn. lia. Qed.

Ltac loop_simpl := cbn [set_flags set_looping set_quit set_eventHandling set_calling set_polled set_active set_current set_poller
  set_pendingFunctors set_pc set_work set_waking observe set_channel set_counter set_registerWk set_events
  el_looping el_quit el_eventHandling el_callingPendingFunctors el_iteration el_pollReturnTime el_activeChannels
  el_currentActiveChannel el_poller el_pendingFunctors el_pc el_work el_waking el_log
  ep_channels ep_counter ep_registerWk ep_events] in *.

(** ** The poller *)

Lemma channelOf_set fd fd' c p : channelOf fd (set_channel fd' c p) = if decide (fd = fd') then c else channelOf fd p.
Proof. unfold channelOf. loop_simpl. destruct (decide (fd = fd')) as [->|]; [by rewrite lookup_insert_eq|by rewrite lookup_insert_ne]. Qed.

Section Poller.
Context (E : LoopEnv).

(** What holds of the poller's channels alone. *)
Definition entries_ok (p : EPollPoller) : Prop := forall fd c, ep_channels p !! fd = Some c -> entry_ok c.

Lemma channelOf_ok fd p : entries_ok p -> entry_ok (channelOf fd p).
Proof. intros H. unfold channelOf. destruct (ep_channels p !! fd) eqn:E1; cbn; [by eapply H|]. by left. Qed.

Lemma set_channel_entries fd c p : entries_ok p -> entry_ok c -> entries_ok (set_channel fd c p).
Proof. intros H Hc fd' c'. loop_simpl. rewrite lookup_insert. case_decide; [by intros [= <-]|apply H]. Qed.

Lemma updateChannel_ok fd ev p : entries_ok p ->
  exists c, updateChannel fd ev p = Some (set_channel fd c p) /\ entry_ok c /\ pl_known (snd c) = true.
Proof.
  intros H. unfold updateChannel. pose proof (channelOf_ok fd p H) as Hc. destruct (channelOf fd p) as [[ev0 ix tied added] e].
  cbn [ch_index ch_events ch_tied entry_ok] in *.
  destruct Hc as [[-> ->]|[[-> ->]|[-> ->]]]; unfold pollerUpdate; cbn [ch_index pl_known Z.eqb kNew kAdded kDeleted Pos.eqb orb andb negb].
  - eexists. split; [reflexivity|]. cbn. split; [|done]. by right; left.
  - destruct (isNoneEvent (mkChannel ev kAdded tied true)) eqn:En; eexists; (split; [reflexivity|]); cbn; (split; [|done]).
    + by right; right.
    + by right; left.
  - eexists. split; [reflexivity|]. cbn. split; [|done]. by right; left.
Qed.

Lemma registerWakeFd_ok p : entries_ok p -> ep_channels p !! le_wakeupFd E = None ->
  registerWakeFd E p = Some (set_registerWk true (set_channel (le_wakeupFd E) wakeupChannel p)).
Proof. intros H Hn. unfold registerWakeFd, updateChannel, channelOf. by rewrite Hn. Qed.

Lemma pollerRemove_ok ch e : entry_ok (ch, e) -> pl_known e = true -> ch_events ch = kNoneEvent ->
  exists c, pollerRemove ch e = Some c /\ entry_ok c.
Proof.
  intros He Hk Hn. destruct ch as [ev ix tied added]. cbn in *. subst ev.
  destruct He as [[-> ->]|[[-> ->]|[-> ->]]]; [done|..]; (eexists; split; [reflexivity|]); by left.
Qed.

(** [p'] is [p] but for some channels, the wakeup channel apart. *)
Definition same_poller (p p' : EPollPoller) : Prop :=
  ep_counter p' = ep_counter p /\ ep_registerWk p' = ep_registerWk p /\ ep_events p' = ep_events p /\
  ep_channels p' !! le_wakeupFd E = ep_channels p !! le_wakeupFd E.

Lemma set_channel_same fd c p : fd <> le_wakeupFd E -> same_poller p (set_channel fd c p).
Proof. intros Hn. split_and!; try done. loop_simpl. by rewrite lookup_insert_ne. Qed.
End Poller.

(** ** The operations *)

Section Ops.
Context (E : LoopEnv) (HE : loop_env_ok E).

(** Histories stay short of the counter's limit. *)
Definition short (s : EventLoop) : Prop := lenZ (el_log s) < 2 ^ 64 - 2.

Lemma wakeup_ok s : loop_ok E s -> short s ->
  exists s', wakeup s = Some s' /\ loop_ok E s' /\ prompt_ok s'.
Proof.
  intros [] Hs. unfold short in Hs. unfold wakeup. destruct (Z.ltb_spec (ep_counter (el_poller s) + 1) (2 ^ 64 - 1)); [|lia].
  eexists. split; [done|]. split.
  - constructor; loop_simpl; rewrite ?queued_snoc, ?executed_snoc, ?lenZ_snoc, ?app_nil_r; try done; [lia|].
    unfold active_ok in *. destruct (el_pc s) as [| | | |rest| |]; try done. destruct lo_active0 as (? & ? & H2).
    split_and!; try done. intros fd rv Hin. destruct (H2 fd rv Hin). split; [done|]. loop_simpl. lia.
  - constructor; loop_simpl; intros _ _; left; left; loop_simpl; lia.
Qed.

Lemma queueInLoop_ok f s : loop_inv E s -> short s -> callback_pc (el_pc s) = true ->
  exists s', queueInLoop f s = Some s' /\ loop_inv E s'.
Proof.
  intros [H [P1 P2]] Hs Hp. pose proof H as []. destruct lo_flags0 as (F1 & F2 & F3). unfold queueInLoop.
  set (s1 := observe _ _).
  assert (loop_ok E s1) as H1.
  { constructor; subst s1; loop_simpl; rewrite ?queued_snoc, ?executed_snoc, ?lenZ_snoc, ?app_nil_r; try done; [lia|].
    rewrite <- lo_fifo0. by rewrite !app_assoc. }
  destruct (el_callingPendingFunctors s1) eqn:Ec.
  - unfold short in Hs. unfold wakeup. subst s1. loop_simpl.
    destruct (Z.ltb_spec (ep_counter (el_poller s) + 1) (2 ^ 64 - 1)); [|lia].
    eexists. split; [done|]. split.
    + destruct H1. constructor; loop_simpl; rewrite ?queued_snoc, ?executed_snoc, ?lenZ_snoc, ?app_nil_r in *; try done; [lia|].
      destruct (el_pc s); try done. rewrite F3 in Ec. by cbn in Ec.
    + constructor; loop_simpl; intros _ _; left; left; loop_simpl; lia.
  - eexists. split; [done|]. split; [done|]. subst s1. loop_simpl. rewrite F3 in Ec.
    constructor; loop_simpl; rewrite ?sincePoll_snoc, ?count_snoc, F1.
    + intros Hq _. destruct (el_pc s); try done. cbn. right. split; [lia|]. by left.
    + intros Hq. by destruct (el_pc s).
Qed.

(** A step that leaves poller, threads and waiting functors alone keeps the
    promise, if the thread is not sent to sleep by it. *)
Lemma prompt_same s s' : prompt_ok s -> el_poller s' = el_poller s -> el_waking s' = el_waking s ->
  el_pendingFunctors s' = el_pendingFunctors s -> el_pc s' = el_pc s -> callback_pc (el_pc s) = true ->
  (exists o, is_poll o = false /\ el_log s' = el_log s ++ [o]) -> prompt_ok s'.
Proof.
  intros [P1 P2] E1 E2 E3 E4 Hp (o & Ho & El). constructor; rewrite E4, ?E3.
  - intros Hq Hn. unfold woken. rewrite E1, E2, El, count_snoc, sincePoll_snoc, Ho. cbn.
    destruct (P1 Hq Hn) as [?|[? ?]]; [by left|]. right. split; [lia|].
    destruct H0; [by left|]. right. rewrite H0. by rewrite orb_true_r.
  - intros Hq. by destruct (el_pc s).
Qed.

Lemma doCall_ok c w s : loop_inv E s -> short s -> el_work s = c :: w -> call_ok s c ->
  exists s', doCall E c (set_work w s) = Some s' /\ loop_inv E s'.
Proof.
  intros [H P] Hs Ew Hc. pose proof H as [].
  assert (callback_pc (el_pc s) = true) as Hp.
  { destruct (callback_pc (el_pc s)); [done|]. by rewrite lo_quiet0 in Ew. }
  rewrite Ew in lo_work0. inversion lo_work0 as [|? ? Hcw Hw]; subst.
  assert (loop_inv E (set_work w s)) as H1.
  { split; [|by destruct P; constructor]. constructor; loop_simpl; try done. rewrite Hp. done. }
  destruct c as [f|f| |fd ev|fd]; cbn [doCall].
  - eexists. split; [done|]. unfold runInLoop. split.
    + constructor; loop_simpl; rewrite ?queued_snoc, ?executed_snoc, ?lenZ_snoc, ?app_nil_r; try done; [lia|..].
      * apply Forall_app. split; [apply HE|done].
      * by rewrite Hp.
    + eapply prompt_same; [exact P|..]; try done. by eexists (OCalled f).
  - apply queueInLoop_ok; try done.
  - eexists. split; [done|]. unfold quit. split.
    + constructor; loop_simpl; rewrite ?queued_snoc, ?executed_snoc, ?lenZ_snoc, ?app_nil_r; try done; [lia|].
      by rewrite Hp.
    + eapply prompt_same; [exact P|..]; try done. by eexists (OQuit false).
  - destruct (updateChannel_ok fd ev (el_poller s)) as (c & E1 & Hc1 & Hk); [by intros ? ?; apply lo_entries0|].
    cbn [set_work el_poller]. rewrite E1. cbn [mbind option_bind]. eexists. split; [done|]. split; [|by destruct P; constructor].
    constructor; loop_simpl; try done.
    + by apply (set_channel_entries fd c (el_poller s)).
    + rewrite lookup_insert_ne by done. done.
    + by rewrite Hp.
    + unfold active_ok in *. destruct (el_pc s); try done. destruct lo_active0 as (? & ? & H2). split_and!; try done.
      intros fd' rv Hin. destruct (H2 _ _ Hin). split; [|done]. rewrite channelOf_set. by case_decide.
  - cbn [call_ok] in Hc. unfold removeChannel. cbn [set_work el_poller]. destruct (channelOf fd (el_poller s)) as [ch e] eqn:Ech.
    destruct Hc as (Hk & He & Ha). unfold isNoneEvent. rewrite He. cbn [Z.eqb kNoneEvent negb].
    destruct (pollerRemove_ok (mkChannel kNoneEvent (ch_index ch) (ch_tied ch) false) e) as (c & E1 & Hc1); [|done|done|].
    { pose proof (channelOf_ok fd (el_poller s)) as Hc. rewrite Ech in Hc. specialize (Hc lo_entries0). cbn in *. by rewrite He in Hc. }
    cbn [set_work el_eventHandling el_currentActiveChannel el_activeChannels].
    rewrite E1. cbn [mbind option_bind].
    destruct (el_eventHandling s && _) eqn:Eh.
    { apply andb_true_iff in Eh as [Eh Eh2]. specialize (Ha Eh). apply negb_true_iff, orb_false_iff in Eh2 as [X1 X2].
      apply bool_decide_eq_false in X1, X2. destruct Ha; done. }
    eexists. split; [done|]. split; [|by destruct P; constructor].
    constructor; loop_simpl; try done.
    + by apply (set_channel_entries fd c (el_poller s)).
    + rewrite lookup_insert_ne by done. done.
    + by rewrite Hp.
    + destruct lo_flags0 as (_ & F2 & _). unfold active_ok in *. destruct (el_pc s) eqn:Epc; try done.
      destruct lo_active0 as (Hnd & (dn & Ea & Ecur) & H2). split_and!; try done; [by exists dn|].
      intros fd' rv Hin. destruct (H2 _ _ Hin). split; [|done]. rewrite channelOf_set.
      destruct (decide (fd' = fd)) as [->|]; [exfalso|done].
      destruct (Ha F2) as [Hcur|Hna].
      * rewrite Ea, fmap_app in Hnd. apply NoDup_app in Hnd as (_ & Hd & _). apply (Hd fd).
        -- rewrite Hcur in Ecur. symmetry in Ecur. by apply last_Some_elem_of in Ecur.
        -- apply list_elem_of_fmap. by exists (fd, rv).
      * apply Hna. rewrite Ea, fmap_app. apply elem_of_app. right. apply list_elem_of_fmap. by exists (fd, rv).
Qed.

Lemma loop_handleEvent_ok fd revents rest s : loop_inv E s -> el_work s = [] -> el_pc s = Events ((fd, revents) :: rest) ->
  exists s', handleEvent E fd revents (set_pc (Events rest) s) = Some s' /\ loop_inv E s'.
Proof.
  intros [H P] Ew Epc. pose proof H as []. rewrite Epc in *. destruct lo_active0 as (Hnd & (dn & Ea & Ecur) & H2).
  assert (active_ok E (el_poller s) (el_activeChannels s) (Some fd) (Events rest)) as Hact.
  { split_and!; [done| |intros fd' rv' Hin; apply (H2 fd' rv'); by right].
    exists (dn ++ [(fd, revents)]). split; [by rewrite <- app_assoc|]. rewrite fmap_app. cbn [fmap list_fmap fst]. by rewrite last_snoc. }
  unfold handleEvent. destruct (Z.eqb_spec fd (le_wakeupFd E)) as [Hw|Hw].
  - destruct (has revents _); [|eexists; split; [done|]; split; [constructor; loop_simpl; done|by constructor]].
    unfold handleRead. loop_simpl. destruct (H2 fd revents) as [_ Hc]; [by left|].
    destruct (Z.eqb_spec (ep_counter (el_poller s)) 0); [by destruct (Hc Hw)|].
    eexists. split; [done|]. split; [|by constructor]. constructor; loop_simpl; try done; [lia|].
    destruct Hact as (? & ? & H3). split_and!; try done. intros fd' rv Hin. destruct (H3 _ _ Hin). split; [done|].
    intros ->. exfalso. rewrite Ea, fmap_app, NoDup_app, fmap_cons, NoDup_cons in Hnd. destruct Hnd as (_ & _ & Hn & _).
    apply Hn. cbn. rewrite Hw. apply list_elem_of_fmap. by exists (le_wakeupFd E, rv).
  - eexists. split; [done|]. split; [|by constructor].
    constructor; loop_simpl; rewrite ?queued_snoc, ?executed_snoc, ?lenZ_snoc, ?app_nil_r; try done; [lia|apply HE].
Qed.

Lemma advance_ok s : loop_inv E s -> el_work s = [] -> exists s', advance E s = Some s' /\ loop_inv E s'.
Proof.
  intros Hi Ew. pose proof Hi as [H [P1 P2]]. pose proof H as [].
  unfold advance. destruct (el_pc s) as [| | | |[|[fd revents] rest]| |[|f rest]] eqn:Epc; try (by eexists).
  - destruct (el_quit s) eqn:Eq; (eexists; split; [done|]); split; loop_simpl.
    + constructor; loop_simpl; rewrite ?queued_snoc, ?executed_snoc, ?lenZ_snoc, ?app_nil_r; try done; [lia|by split_and!; try apply lo_flags0].
    + constructor; loop_simpl; [|done]. intros _ Hn. rewrite count_snoc. destruct (P1 I Hn) as [?|[? _]]; [by left|].
      right. split; [lia|by left].
    + constructor; loop_simpl; done.
    + constructor; loop_simpl; [|by rewrite Eq]. intros _ Hn. destruct (P1 I Hn) as [?|[? [?|?]]]; [by left|done|].
      right. split; [done|by right].
  - destruct (ep_registerWk (el_poller s)) eqn:Er; cbn [mbind option_bind].
    + eexists. split; [done|]. split.
      * constructor; loop_simpl; try done; by rewrite Er.
      * constructor; loop_simpl; [|done]. intros _ Hn. destruct (P1 I Hn) as [?|[? [?|?]]]; [by left|done|].
        right. split; [done|by right].
    + rewrite registerWakeFd_ok by done. cbn [mbind option_bind]. eexists. split; [done|]. split.
      * constructor; loop_simpl; try done.
        -- by apply (set_channel_entries (le_wakeupFd E) wakeupChannel (el_poller s)); [|right; left].
        -- by rewrite lookup_insert_eq.
      * constructor; loop_simpl; [|done]. intros _ Hn. destruct (P1 I Hn) as [?|[? [?|?]]]; [by left|done|].
        right. split; [done|by right].
  - eexists. split; [done|]. split; [|by constructor]. constructor; loop_simpl; try done. by split_and!; try apply lo_flags0.
  - by apply loop_handleEvent_ok.
  - eexists. split; [done|]. split; [|by constructor].
    constructor; loop_simpl; try done; [by split_and!; try apply lo_flags0|]. by rewrite app_nil_r.
  - eexists. split; [done|]. split.
    + constructor; loop_simpl; rewrite ?queued_snoc, ?executed_snoc, ?lenZ_snoc, ?app_nil_r; try done; [lia|by split_and!; try apply lo_flags0].
    + constructor; loop_simpl; [|done]. intros _ Hn. rewrite count_snoc, sincePoll_snoc. destruct (P1 I Hn) as [?|[? [?|Hs]]]; [by left|done|].
      right. split; [lia|]. right. by rewrite Hs.
  - eexists. split; [done|]. split.
    + constructor; loop_simpl; rewrite ?queued_snoc, ?executed_snoc, ?lenZ_snoc, ?app_nil_r; try done; [lia|apply HE|].
      rewrite <- lo_fifo0. cbn. by rewrite <- app_assoc.
    + constructor; loop_simpl; [|done]. intros _ Hn. rewrite count_snoc, sincePoll_snoc. destruct (P1 I Hn) as [?|[? [?|Hs]]]; [by left|done|].
      right. split; [lia|]. right. by rewrite Hs.
Qed.

Lemma polled_ok t ready s : loop_inv E s -> may_happen E s (EvPolled t ready) -> exists s', polled t ready s = Some s' /\ loop_inv E s'.
Proof.
  intros [H [P1 P2]] (Epc & Hnd & Hlen & Hr). pose proof H as []. rewrite Epc in *.
  assert (forall fd rv, (fd, rv) ∈ ready -> pl_known (snd (channelOf fd (el_poller s))) = true) as Hk.
  { intros fd rv Hin. destruct (Hr _ _ Hin) as [Hp _]. pose proof (channelOf_ok fd (el_poller s) lo_entries0) as Hc.
    destruct (channelOf fd (el_poller s)) as [ch e]. cbn in *. destruct Hc as [[_ ->]|[[_ ->]|[_ ->]]]; done. }
  assert (exists n, 0 < n /\ pollReturn ready s = Some (set_active ready (set_poller (set_events n (el_poller s)) s))) as (n & Hn & Er).
  { unfold pollReturn. destruct ready as [|r ready']; [exists (ep_events (el_poller s)); split; [done|]; f_equal; destruct s as [??????? ? [] ?????]; cbn in *; by subst|].
    unfold fillActiveChannels. destruct (Z.leb_spec (lenZ (r :: ready')) (ep_events (el_poller s))); [|lia]. cbn [negb].
    assert (forallb (fun '(fd, _) => pl_known (snd (channelOf fd (el_poller s)))) (r :: ready') = true) as ->.
    { apply forallb_forall. intros [fd rv] Hin%list_elem_of_In. by eapply Hk. }
    cbn [mbind option_bind]. rewrite lo_cleared0. destruct (Z.eqb_spec (lenZ (r :: ready')) (ep_events (el_poller s))).
    - exists (ep_events (el_poller s) * 2). split; [lia|done].
    - exists (ep_events (el_poller s)). split; [done|]. f_equal. by destruct s as [??????? ? [] ?????]. }
  unfold polled. rewrite Er. cbn [mbind option_bind]. eexists. split; [done|]. split; [|by constructor].
  constructor; loop_simpl; rewrite ?queued_snoc, ?executed_snoc, ?lenZ_snoc, ?app_nil_r; try done; [lia|by split_and!; try apply lo_flags0|].
  split_and!; [done| |].
  - exists []. split; [done|]. done.
  - intros fd rv Hin. split; [by eapply Hk|]. by apply (Hr fd rv).
Qed.

(** ** Every event *)

Lemma loop_start_ok s : loop_inv E s -> el_pc s = Idle -> el_work s = [] ->
  exists s', loop s = Some s' /\ loop_inv E s'.
Proof.
  intros [H [P1 P2]] Epc Ew. pose proof H as []. rewrite Epc in *. destruct lo_flags0 as (F1 & F2 & F3). unfold loop. rewrite F1.
  eexists. split; [done|]. split.
  - constructor; loop_simpl; rewrite ?queued_snoc, ?executed_snoc, ?lenZ_snoc, ?app_nil_r; try done. lia.
  - constructor; loop_simpl; [|done]. intros _ Hn. rewrite count_snoc, sincePoll_snoc. destruct (P1 I Hn) as [?|[? _]]; [by left|].
    right. split; [lia|]. by right.
Qed.

(** Another thread changes what the loop's thread does not own, and promises to
    wake it. *)
Lemma elsewhere_ok i fs o q s : loop_inv E s ->
  (forall f, o <> OExecuted f) -> queued [o] = fs ->
  loop_inv E (set_waking ({[i]} ∪ el_waking s) (observe o (set_pendingFunctors (el_pendingFunctors s ++ fs) (set_quit q s)))).
Proof.
  intros [H P] Ho <-. pose proof H as []. split.
  - constructor; loop_simpl; rewrite ?queued_snoc, ?executed_snoc, ?lenZ_snoc; try done; [lia|].
    rewrite <- lo_fifo0. unfold queued. destruct o; cbn; rewrite ?app_nil_r, ?app_assoc; try done. by destruct (Ho f).
  - constructor; loop_simpl; intros _ _; left; right; loop_simpl; set_solver.
Qed.

Lemma signal_ok s : loop_inv E s -> loop_inv E (observe (OQuit true) (set_quit true s)).
Proof.
  intros [H [P1 P2]]. pose proof H as []. split.
  - constructor; loop_simpl; rewrite ?queued_snoc, ?executed_snoc, ?lenZ_snoc, ?app_nil_r; try done. lia.
  - constructor; loop_simpl; [|intros _ _; right; by rewrite sincePoll_snoc].
    intros Hq Hn. rewrite count_snoc, sincePoll_snoc. destruct (P1 Hq Hn) as [?|[? Hs]]; [by left|].
    right. split; [lia|]. destruct Hs as [?|Hs]; [by left|]. right. by rewrite Hs.
Qed.

(** The callback that is running asks only for what it may. *)
Definition next_ok (s : EventLoop) : Prop := match el_work s with c :: _ => call_ok s c | [] => True end.

Lemma loopStep_inv e s : loop_inv E s -> short s -> may_happen E s e -> (e = EvThread -> next_ok s) ->
  exists s', loopStep E e s = Some s' /\ loop_inv E s'.
Proof.
  intros Hi Hs Hm Hn. pose proof Hi as [H P]. destruct e as [|c| |t ready|i f|i|i|t]; cbn [loopStep].
  - destruct Hm. by apply loop_start_ok.
  - destruct Hm as (Epc & Ew & Hc). eexists. split; [done|]. split; [|by destruct P].
    destruct H. constructor; loop_simpl; try done; [by constructor|by rewrite Epc].
  - specialize (Hn eq_refl). unfold next_ok in Hn. unfold threadStep. destruct (el_work s) as [|c w] eqn:Ew; [by apply advance_ok|].
    by apply doCall_ok.
  - by apply polled_ok.
  - eexists. split; [done|]. apply (elsewhere_ok i [f] (OQueued Elsewhere f) (el_quit s) s Hi); done.
  - eexists. split; [done|]. pose proof (elsewhere_ok i [] (OQuit false) true s Hi) as X. rewrite app_nil_r in X. by apply X.
  - destruct (wakeup_ok (set_waking (el_waking s ∖ {[i]}) s)) as (s' & E1 & H1 & H2); [|done|by exists s'].
    destruct H. by constructor.
  - apply signal_ok in Hi. set (s1 := observe _ _) in *. assert (el_pc s1 = el_pc s) as Epc by done. rewrite Epc.
    destruct (el_pc s) eqn:Ep; try by eexists. apply polled_ok; [done|]. split; [done|]. split; [constructor|]. split; [|by intros ?? ?%not_elem_of_nil].
    destruct H. subst s1. loop_simpl. unfold lenZ. cbn. lia.
Qed.

(** A step that succeeds found its call in order. *)
Lemma step_next_ok s s' : threadStep E s = Some s' -> entries_ok (el_poller s) -> next_ok s.
Proof.
  unfold threadStep, next_ok. destruct (el_work s) as [|[f|f| |fd ev|fd] w]; try done. cbn [doCall call_ok].
  unfold removeChannel. loop_simpl. intros Hr He. pose proof (channelOf_ok fd _ He) as Hc.
  destruct (channelOf fd (el_poller s)) as [ch e]. destruct (isNoneEvent ch) eqn:En; [|done]. cbn [negb] in Hr.
  apply Z.eqb_eq in En. destruct (el_eventHandling s && _) eqn:Eh; [done|]. split_and!; [|done|].
  - unfold pollerRemove in Hr. cbn [ch_events ch_index ch_tied] in Hr. destruct (pl_known e); [done|]. by cbn in Hr.
  - intros Hh. rewrite Hh in Eh. apply negb_false_iff, orb_true_iff in Eh.
    destruct Eh as [Eh|Eh]; apply bool_decide_eq_true in Eh; [by left|by right].
Qed.

(** Histories only grow. *)
Lemma wakeup_log s s' : wakeup s = Some s' -> el_log s' = el_log s ++ [OWoken].
Proof. unfold wakeup. case_match; [|done]. by intros [= <-]. Qed.

Lemma pollReturn_frame ready s s' : pollReturn ready s = Some s' ->
  el_log s' = el_log s /\ el_quit s' = el_quit s /\ el_pendingFunctors s' = el_pendingFunctors s /\ el_looping s' = el_looping s /\
  el_waking s' = el_waking s /\ el_work s' = el_work s.
Proof.
  unfold pollReturn. destruct ready; [by intros [= <-]|]. destruct (fillActiveChannels _ _); [|done]. cbn. by intros [= <-].
Qed.

Lemma polled_log t ready s s' : polled t ready s = Some s' -> el_log s' = el_log s ++ [OPolled t].
Proof.
  unfold polled. destruct (pollReturn ready s) as [s1|] eqn:Er; [|done]. cbn [mbind option_bind].
  intros [= <-]. apply pollReturn_frame in Er as (El & _). loop_simpl. by rewrite El.
Qed.

(** ** Steps, abstractly

    What a step adds to the history, and how it moves the thread of the loop. *)
Inductive moves (s : EventLoop) : list LoopObs -> EventLoop -> Prop :=
| mv_stay l s' : el_pc s' = el_pc s -> Forall (fun o => is_poll o || is_round o || is_loop o = false) l -> executed l = [] ->
    el_pendingFunctors s' = el_pendingFunctors s ++ queued l ->
    (el_quit s' = el_quit s \/ existsb is_quit l = true /\ el_quit s' = true) -> moves s l s'
| mv_loop s' : el_pc s = Idle -> el_pc s' = Test -> el_pendingFunctors s' = el_pendingFunctors s -> el_quit s' = false ->
    moves s [OLoop] s'
| mv_left s' : el_pc s = Test -> el_quit s = true -> el_pc s' = Idle -> el_pendingFunctors s' = el_pendingFunctors s ->
    el_quit s' = true -> moves s [OLeft] s'
| mv_polled t b s' : el_pc s = Polling -> is_handling (el_pc s') = true -> el_pendingFunctors s' = el_pendingFunctors s ->
    el_quit s' = el_quit s || b -> moves s ((if b then [OQuit true] else []) ++ [OPolled t]) s'
| mv_swap s' : el_pc s = Swap -> el_pc s' = Functors (el_pendingFunctors s) -> el_pendingFunctors s' = [] ->
    el_quit s' = el_quit s -> moves s [] s'
| mv_execute f rest s' : el_pc s = Functors (f :: rest) -> el_pc s' = Functors rest ->
    el_pendingFunctors s' = el_pendingFunctors s -> el_quit s' = el_quit s -> moves s [OExecuted f] s'
| mv_round s' : el_pc s = Functors [] -> el_pc s' = Test -> el_pendingFunctors s' = el_pendingFunctors s ->
    el_quit s' = el_quit s -> moves s [ORound] s'
| mv_go l s' : match el_pc s, el_pc s' with
               | Test, CallPoll => el_quit s = false
               | CallPoll, Polling | Events _, Events _ | Events _, Swap => True
               | _, _ => False
               end -> Forall (fun o => match o with OHandled _ _ => True | _ => False end) l ->
    el_pendingFunctors s' = el_pendingFunctors s -> el_quit s' = el_quit s -> moves s l s'.

Lemma doCall_moves c s s' : doCall E c s = Some s' -> exists l, el_log s' = el_log s ++ l /\ moves s l s'.
Proof.
  destruct c as [f|f| |fd ev|fd]; cbn [doCall].
  - intros [= <-]. exists [OCalled f]. split; [done|]. apply mv_stay; try done; [by constructor|by rewrite app_nil_r|by left].
  - unfold queueInLoop. set (w := if el_looping s then Inside else Outside). destruct (el_callingPendingFunctors _).
    + unfold wakeup. case_match; [|done]. intros [= <-]. exists [OQueued w f; OWoken]. loop_simpl. rewrite <- app_assoc. split; [done|].
      apply mv_stay; try done; [by repeat constructor|by left].
    + intros [= <-]. exists [OQueued w f]. split; [done|]. apply mv_stay; try done; [by constructor|by left].
  - intros [= <-]. exists [OQuit false]. split; [done|]. apply mv_stay; try done; [by constructor|by rewrite app_nil_r|by right].
  - destruct (updateChannel fd ev (el_poller s)); [|done]. intros [= <-]. exists []. rewrite app_nil_r. split; [done|].
    apply mv_stay; try done; [by rewrite app_nil_r|by left].
  - unfold removeChannel. destruct (channelOf fd (el_poller s)) as [ch e]. do 2 (case_match; [done|]).
    destruct (pollerRemove _ _); [|done]. intros [= <-]. exists []. rewrite app_nil_r. split; [done|].
    apply mv_stay; try done; [by rewrite app_nil_r|by left].
Qed.

Lemma advance_moves s s' : el_pc s <> Idle -> el_pc s <> Polling -> advance E s = Some s' ->
  exists l, el_log s' = el_log s ++ l /\ moves s l s'.
Proof.
  intros Hi Hp. unfold advance. destruct (el_pc s) as [| | | |[|[fd rv] rest]| |[|f rest]] eqn:Epc; try done.
  - destruct (el_quit s) eqn:Eq; intros [= <-].
    + exists [OLeft]. split; [done|]. by apply mv_left.
    + exists []. rewrite app_nil_r. split; [done|]. apply mv_go; try done; rewrite Epc; loop_simpl; done.
  - destruct (if ep_registerWk (el_poller s) then _ else _); [|done]. intros [= <-]. exists []. rewrite app_nil_r. split; [done|].
    apply mv_go; try done; by rewrite Epc.
  - intros [= <-]. exists []. rewrite app_nil_r. split; [done|]. apply mv_go; try done; by rewrite Epc.
  - unfold handleEvent. loop_simpl. destruct (fd =? le_wakeupFd E).
    + intros H. assert (exists p, s' = set_poller p (set_current (Some fd) (set_pc (Events rest) s))) as (p & ->).
      { destruct (has _ _).
        - unfold handleRead in H. case_match; [done|]. injection H as <-. by eexists.
        - injection H as <-. exists (el_poller s). by destruct s. }
      exists []. rewrite app_nil_r. split; [done|]. apply mv_go; try done; by rewrite Epc.
    + intros [= <-]. exists [OHandled fd rv]. split; [done|]. apply mv_go; try done; [by rewrite Epc|by constructor].
  - intros [= <-]. exists []. rewrite app_nil_r. split; [done|]. by apply mv_swap.
  - intros [= <-]. exists [ORound]. split; [done|]. by apply mv_round.
  - intros [= <-]. exists [OExecuted f]. split; [done|]. by eapply mv_execute.
Qed.

Lemma polled_moves t ready s s' : el_pc s = Polling -> polled t ready s = Some s' ->
  exists l, el_log s' = el_log s ++ l /\ moves s l s'.
Proof.
  intros Epc H. exists [OPolled t]. split; [by eapply polled_log|]. unfold polled in H.
  destruct (pollReturn ready s) as [s1|] eqn:Er; [|done]. apply pollReturn_frame in Er as (_ & E2 & E3 & _). injection H as <-.
  apply (mv_polled s t false); loop_simpl; try done. by rewrite E2, orb_false_r.
Qed.

Lemma loopStep_moves e s s' : may_happen E s e -> loopStep E e s = Some s' ->
  exists l, el_log s' = el_log s ++ l /\ moves s l s'.
Proof.
  intros Hm. destruct e as [|c| |t ready|i f|i|i|t]; cbn [loopStep].
  - destruct Hm as [Epc _]. unfold loop. case_match; [done|]. intros [= <-]. exists [OLoop]. split; [done|]. by apply mv_loop.
  - intros [= <-]. exists []. rewrite app_nil_r. split; [done|]. apply mv_stay; try done; [by rewrite app_nil_r|by left].
  - destruct Hm as [Hp Hw]. unfold threadStep. destruct (el_work s) as [|c w] eqn:Ew.
    + apply advance_moves; [|done]. intros Hi. by apply Hw.
    + intros (l & El & Hl)%doCall_moves. exists l. split; [done|]. destruct Hl; loop_simpl; try by econstructor.
  - destruct Hm as [Epc _]. by apply polled_moves.
  - intros [= <-]. exists [OQueued Elsewhere f]. split; [done|]. apply mv_stay; try done; [by constructor|by left].
  - intros [= <-]. exists [OQuit false]. split; [done|]. apply mv_stay; try done; [by constructor|by rewrite app_nil_r|by right].
  - intros H. exists [OWoken]. split; [by apply wakeup_log in H|]. unfold wakeup in H. case_match; [|done]. injection H as <-.
    apply mv_stay; try done; [by constructor|by rewrite app_nil_r|by left].
  - cbn [observe set_quit set_flags el_pc]. destruct (el_pc s) eqn:Epc; try (intros [= <-]; exists [OQuit true]; split; [done|]; apply mv_stay; try done;
      [by constructor|by rewrite app_nil_r|by right]).
    intros H. exists [OQuit true; OPolled t]. apply polled_log in H as El. split; [rewrite El; symmetry; by apply (assoc_L (++) (el_log s) [OQuit true] [OPolled t])|].
    unfold polled in H. cbn in H. injection H as <-.
    apply (mv_polled s t true); loop_simpl; try done. by rewrite orb_true_r.
Qed.

Lemma step_moves s s' : step E s s' -> exists l, el_log s' = el_log s ++ l /\ moves s l s'.
Proof. intros (e & Hm & Hs). by eapply loopStep_moves. Qed.

Lemma steps_log s s' : rtc (step E) s s' -> el_log s `prefix_of` el_log s'.
Proof.
  induction 1 as [|s s1 s' (l & El & _)%step_moves _ IH]; [done|]. etransitivity; [|exact IH]. rewrite El. by apply prefix_app_r.
Qed.

Lemma steps_short s s' : rtc (step E) s s' -> short s' -> short s.
Proof. intros (l & El)%steps_log. unfold short, lenZ. rewrite El, length_app. lia. Qed.

(** ** Reachable states *)

Lemma newLoop_inv : loop_inv E newLoop.
Proof. split; constructor; done. Qed.

Lemma step_inv s s' : loop_inv E s -> short s -> step E s s' -> loop_inv E s'.
Proof.
  intros Hi Hs (e & Hm & Es). destruct (loopStep_inv e s Hi Hs Hm) as (s2 & E2 & H2); [|congruence].
  intros ->. cbn in Es. eapply step_next_ok; [done|]. exact (lo_entries E s (proj1 Hi)).
Qed.

Lemma steps_inv s s' : loop_inv E s -> rtc (step E) s s' -> short s' -> loop_inv E s'.
Proof.
  intros Hi Hr. revert Hi. induction Hr as [|s s1 s' Hst Hr IH]; intros Hi Hs; [done|].
  apply IH; [|done]. eapply step_inv; [done| |done]. eapply steps_short; [|done]. by eapply rtc_l.
Qed.

Lemma loop_reachable_inv s : reachable E s -> short s -> loop_inv E s.
Proof. intros Hr Hs. eapply steps_inv; [apply newLoop_inv|done|done]. Qed.
End Ops.
