(* ===== verification/LoopProps.v ===== *)
(** * The event loop: what it promises

    No assertion fails and no channel is handled after its removal, functors are
    called once each in the order they were queued and within two rounds, the
    loop does not sleep over work or over a request to quit, and a request that
    comes before [loop] is forgotten. *)

From stdpp Require Import base list numbers gmap.
From Stdlib Require Import ZArith Lia.
From S2P Require Import Prelude Buffer Tcp Loop LoopInv.
Local Open Scope Z_scope.

(** ** Histories, continued *)

Lemma count_app p l1 l2 : count p (l1 ++ l2) = (count p l1 + count p l2)%nat.
Proof. unfold count. by rewrite filter_app, length_app. Qed.

Lemma count_none p l : Forall (fun o => p o = false) l -> count p l = 0%nat.
Proof.
  unfold count. induction 1 as [|o l Ho _ IH]; [done|]. rewrite filter_cons, Ho. by case_decide.
Qed.

Lemma executed_app l1 l2 : executed (l1 ++ l2) = executed l1 ++ executed l2.
Proof. unfold executed. by rewrite omap_app. Qed.

Lemma loop_queued_app l1 l2 : queued (l1 ++ l2) = queued l1 ++ queued l2.
Proof. unfold queued. by rewrite omap_app. Qed.

Lemma calm_counts l : Forall (fun o => is_poll o || is_round o || is_loop o = false) l ->
  count is_poll l = 0%nat /\ count is_round l = 0%nat /\ count is_loop l = 0%nat.
Proof.
  intros H. split_and!; apply count_none; eapply Forall_impl; try exact H; by intros [].
Qed.

Lemma handled_counts l : Forall (fun o => match o with OHandled _ _ => True | _ => False end) l ->
  executed l = [] /\ queued l = [] /\ forall p, (forall fd rv, p (OHandled fd rv) = false) -> count p l = 0%nat.
Proof.
  intros H. split_and!; [induction H as [|[]]; done|induction H as [|[]]; done|].
  intros p Hp. apply count_none. eapply Forall_impl; [exact H|]. by intros [].
Qed.

Lemma count_existsb p l : existsb p l = true -> count p l <> 0%nat.
Proof.
  unfold count. induction l as [|o l IH]; [done|]. cbn [existsb]. rewrite filter_cons. destruct (p o); [by case_decide|].
  case_decide; [done|]. apply IH.
Qed.

Section Props.
Context (E : LoopEnv) (HE : loop_env_ok E).

(** ** Rounds *)

(** After one complete round the functors of [q] are at most being executed,
    after two they have been. *)
Definition rounds (q : list Functor) (n : nat) (s : EventLoop) : Prop :=
  ((n + 1 <= count is_round (el_log s))%nat -> forall rest, el_pc s = Functors rest -> q `prefix_of` executed (el_log s) ++ rest) /\
  ((n + 2 <= count is_round (el_log s))%nat -> q `prefix_of` executed (el_log s)).

Lemma rounds_step q n s s' l : loop_inv E s' -> q `prefix_of` queued (el_log s') -> rounds q n s ->
  el_log s' = el_log s ++ l -> moves s l s' -> rounds q n s'.
Proof.
  intros [Hi _] Hq [R1 R2] El Hm. pose proof (lo_fifo _ _ Hi) as Hf. unfold rounds.
  assert (count is_round l = 0%nat -> executed l = [] -> (forall rest, el_pc s' = Functors rest -> el_pc s = Functors rest) ->
    rounds q n s') as Hsame.
  { intros H1 H2 H3. unfold rounds. rewrite El, count_app, executed_app, H1, H2, Nat.add_0_r, app_nil_r. split; [|done].
    intros Hn rest Hp. apply R1; [done|]. by apply H3. }
  destruct Hm as [l s' Hp Hc Hx _ _|s' H1 H2 _ _|s' H1 _ H2 _ _|t b s' H1 H2 _ _|s' H1 H2 H3 _|f rest s' H1 H2 _ _|s' H1 H2 _ _|l s' Hg Hc _ _].
  - apply Hsame; [by apply calm_counts|done|]. intros rest. by rewrite Hp.
  - apply Hsame; try done. intros rest. by rewrite H2.
  - apply Hsame; try done. intros rest. by rewrite H2.
  - apply Hsame; [by destruct b|by destruct b|]. intros rest Hr. by rewrite Hr in H2.
  - rewrite app_nil_r in El. rewrite H2, H3, app_nil_r in Hf. cbn [running] in Hf. split.
    + intros _ rest. rewrite H2. intros [= <-]. by rewrite Hf.
    + rewrite El. apply R2.
  - rewrite El, count_app, executed_app. change (count is_round [OExecuted f]) with 0%nat. rewrite Nat.add_0_r. split.
    + intros Hn rest'. rewrite H2. intros [= <-]. rewrite <- app_assoc. cbn. by apply R1.
    + intros Hn. etransitivity; [by apply R2|]. by apply prefix_app_r.
  - rewrite El, count_app, executed_app. change (count is_round [ORound]) with 1%nat. change (executed [ORound]) with (@nil Functor).
    rewrite app_nil_r. split.
    + intros _ rest. by rewrite H2.
    + intros Hn. specialize (R1 ltac:(lia) _ H1). by rewrite app_nil_r in R1.
  - apply handled_counts in Hc as (Hx & _ & Hc). apply Hsame; [by apply Hc|done|].
    intros rest Hr. rewrite Hr in Hg. by destruct (el_pc s).
Qed.

Lemma rounds_steps q n s s' : loop_inv E s -> rtc (step E) s s' -> short s' -> q `prefix_of` queued (el_log s) ->
  rounds q n s -> rounds q n s'.
Proof.
  intros Hi Hr. revert Hi. induction Hr as [|s s1 s' Hst Hr IH]; intros Hi Hs Hq R; [done|].
  assert (short s1) as Hs1 by (by eapply steps_short).
  assert (short s) as Hs0 by (eapply steps_short; [by apply rtc_once|done]).
  pose proof (step_inv E HE _ _ Hi Hs0 Hst) as Hi1. destruct (step_moves E s s1 Hst) as (l & El & Hm).
  assert (q `prefix_of` queued (el_log s1)) as Hq1.
  { rewrite El, loop_queued_app. etransitivity; [exact Hq|]. by apply prefix_app_r. }
  apply IH; try done. by eapply rounds_step.
Qed.

(** ** Quitting *)

(** Nobody called [loop] since [s]: a request to quit stands, and the thread
    polls once more at most. *)
Definition quitting (s s' : EventLoop) : Prop :=
  count is_loop (el_log s') = count is_loop (el_log s) -> el_quit s' = true /\
  (count is_poll (el_log s') = count is_poll (el_log s) \/
   (count is_poll (el_log s') = S (count is_poll (el_log s)) /\ el_pc s' <> CallPoll /\ el_pc s' <> Polling)).

Lemma count_mono p l1 l2 : l1 `prefix_of` l2 -> (count p l1 <= count p l2)%nat.
Proof. intros [k ->]. rewrite count_app. lia. Qed.

Lemma quitting_steps s s' : el_quit s = true -> rtc (step E) s s' -> quitting s s'.
Proof.
  intros Hq Hr. pattern s'. eapply rtc_ind_r; [by split; [|left]| |exact Hr]. clear s' Hr. intros s1 s' Hr1 Hst IH Hl.
  destruct (step_moves E s1 s' Hst) as (l & El & Hm). rewrite El, count_app in Hl. rewrite El, count_app.
  pose proof (count_mono is_loop _ _ (steps_log E _ _ Hr1)) as Hge. destruct (IH ltac:(lia)) as [Q P]. assert (count is_loop l = 0%nat) as Hl0 by lia.
  destruct Hm as [l s' Hp Hc _ _ Hx|s' H1 H2 _ _|s' H1 _ H2 _ H3|t b s' H1 H2 _ H3|s' H1 H2 _ H3|f rest s' H1 H2 _ H3|s' H1 H2 _ H3|l s' Hg Hc _ H3].
  - apply calm_counts in Hc as (-> & _). rewrite Nat.add_0_r, Hp. split; [|done]. destruct Hx as [->|[_ ?]]; done.
  - done.
  - split; [done|]. cbn. rewrite H2, Nat.add_0_r. destruct P as [?|(? & _)]; [by left|by right].
  - rewrite H3, Q. split; [done|]. rewrite H1 in P. destruct P as [P|(_ & _ & ?)]; [|done]. right.
    assert (count is_poll ((if b then [OQuit true] else []) ++ [OPolled t]) = 1%nat) as -> by (by destruct b). split; [lia|]. split; intros Hx; by rewrite Hx in H2.
  - rewrite H3, Q, H2. split; [done|]. cbn. rewrite Nat.add_0_r. destruct P as [?|(? & _)]; [by left|by right].
  - rewrite H3, Q, H2. split; [done|]. cbn. rewrite Nat.add_0_r. destruct P as [?|(? & _)]; [by left|by right].
  - rewrite H3, Q, H2. split; [done|]. cbn. rewrite Nat.add_0_r. destruct P as [?|(? & _)]; [by left|by right].
  - apply handled_counts in Hc as (_ & _ & Hc). rewrite Hc by done. rewrite Nat.add_0_r, H3. split; [done|].
    destruct P as [?|(? & P1 & P2)]; [by left|]. right. split; [done|].
    destruct (el_pc s1), (el_pc s'); try done. by rewrite Q in Hg.
Qed.

(** Nobody asked to quit since [s]: the loop goes on. *)
Lemma going_steps s s' : el_pc s <> Idle -> el_quit s = false -> rtc (step E) s s' ->
  count is_quit (el_log s') = count is_quit (el_log s) -> el_pc s' <> Idle /\ el_quit s' = false.
Proof.
  intros Hp Hq Hr. pattern s'. eapply rtc_ind_r; [done| |exact Hr]. clear s' Hr. intros s1 s' Hr1 Hst IH Hl.
  destruct (step_moves E s1 s' Hst) as (l & El & Hm). rewrite El, count_app in Hl.
  pose proof (count_mono is_quit _ _ (steps_log E _ _ Hr1)) as Hge. destruct (IH ltac:(lia)) as [P Q]. assert (count is_quit l = 0%nat) as Hl0 by lia.
  destruct Hm as [l s' Hs Hc _ _ Hx|s' H1 H2 _ H3|s' H1 H2 _ _ H3|t b s' H1 H2 _ H3|s' H1 H2 _ H3|f rest s' H1 H2 _ H3|s' H1 H2 _ H3|l s' Hg Hc _ H3];
    try (rewrite H2; by rewrite H3).
  - rewrite Hs. split; [done|]. destruct Hx as [->|[Hx _]]; [done|]. by apply count_existsb in Hx.
  - by rewrite Q in H2.
  - rewrite H3, Q. destruct b; [done|]. split; [|done]. intros Hx. by rewrite Hx in H2.
  - rewrite H3. split; [|done]. by destruct (el_pc s1), (el_pc s').
Qed.

(** C24: nothing the loop meets makes an assertion of it fail: not an event that can
    happen in a reachable state, and not a call of a callback that keeps to
    the rules of [removeChannel]; the wakeup descriptor is read only when it has
    something to read, and every channel still to be handled is registered. *)
Theorem loop_safe s e : reachable E s -> short s -> may_happen E s e -> (e = EvThread -> next_ok s) ->
  exists s', loopStep E e s = Some s' /\
    forall rest fd revents, el_pc s' = Events rest -> (fd, revents) ∈ rest ->
      pl_known (snd (channelOf fd (el_poller s'))) = true /\ el_currentActiveChannel s' <> Some fd.
Proof using HE.
  intros Hr Hs Hm Hn. destruct (loopStep_inv E HE e s (loop_reachable_inv E HE s Hr Hs) Hs Hm Hn) as (s' & Es & [H _]).
  exists s'. split; [done|]. intros rest fd rv Hp Hin. pose proof (lo_active E s' H) as Ha. rewrite Hp in Ha.
  destruct Ha as (Hnd & (dn & Ea & ->) & Hk). split; [by eapply Hk|]. intros Hl%last_Some_elem_of.
  rewrite Ea, fmap_app, NoDup_app in Hnd. destruct Hnd as (_ & Hd & _). apply (Hd fd Hl).
  apply list_elem_of_fmap. by exists (fd, rv).
Qed.

(** C22: functors are called once each, in the order they were queued by whichever
    thread, and those queued at some moment have all been called when
    [doPendingFunctors] has returned twice since. *)
Theorem loop_executes s s' : reachable E s -> rtc (step E) s s' -> short s' ->
  executed (el_log s') ++ running (el_pc s') ++ el_pendingFunctors s' = queued (el_log s') /\
  ((count is_round (el_log s) + 2 <= count is_round (el_log s'))%nat -> queued (el_log s) `prefix_of` executed (el_log s')).
Proof using HE.
  intros Hr Hst Hs. assert (short s) as Hs0 by (by eapply steps_short). pose proof (loop_reachable_inv E HE s Hr Hs0) as Hi. split.
  - apply (lo_fifo E). by apply (steps_inv E HE s s').
  - intros Hn. destruct (rounds_steps (queued (el_log s)) (count is_round (el_log s)) s s' Hi Hst Hs) as [_ R]; [done| |by apply R].
    split; intros; lia.
Qed.

(** C23: the loop does not sleep over work.  When its thread sleeps and no other
    thread is on the way to wake it, the descriptor that wakes it is watched,
    no functor is waiting, unless it was queued by the loop's own thread before
    [loop] and this is the first poll, and nobody asked it to quit, unless a
    signal handler of its own thread since the last poll.  A request to quit
    stands, and is met after one more poll at most. *)
Theorem loop_wakes s : reachable E s -> short s ->
  (sleeping s -> el_waking s = ∅ ->
    pl_epoll (snd (channelOf (le_wakeupFd E) (el_poller s))) = Some kReadEvent /\
    (el_pendingFunctors s <> [] -> count is_early (el_log s) <> 0%nat /\ sincePoll is_loop (el_log s) = true) /\
    (el_quit s = true -> sincePoll is_signal (el_log s) = true)) /\
  (el_quit s = true -> forall s', rtc (step E) s s' -> count is_loop (el_log s') = count is_loop (el_log s) ->
    el_quit s' = true /\ (count is_poll (el_log s') <= S (count is_poll (el_log s)))%nat).
Proof using HE.
  intros Hr Hs. destruct (loop_reachable_inv E HE s Hr Hs) as [H [P1 P2]]. split.
  - intros [Hp Hc] Hw. rewrite Hp in P1, P2. assert (~ woken s) as Hn by (by intros [?|?]). split_and!.
    + unfold channelOf. by rewrite (lo_wakeup E s H), (lo_watched E s H Hp).
    + intros Hf. destruct (P1 I Hf) as [?|[? [?|?]]]; done.
    + intros Hq. by destruct (P2 I Hq).
  - intros Hq s' Hst Hl. destruct (quitting_steps s s' Hq Hst Hl) as [? [->|[-> _]]]; split; (done || lia).
Qed.

(** A request to quit that comes before [loop] is forgotten: whatever was
    asked before, from the call of [loop] on the loop goes on until somebody
    asks again. *)
Theorem quit_forgotten s s1 s' : reachable E s -> short s -> may_happen E s EvLoop -> loopStep E EvLoop s = Some s1 ->
  rtc (step E) s1 s' -> count is_quit (el_log s') = count is_quit (el_log s) -> el_pc s' <> Idle /\ el_quit s' = false.
Proof using HE.
  intros Hr Hs [Hp Hw] El Hst Hc. destruct (loop_start_ok E s (loop_reachable_inv E HE s Hr Hs) Hp Hw) as (s2 & E2 & _).
  cbn in El. rewrite El in E2. injection E2 as <-. unfold loop in El. destruct (el_looping s); [done|]. injection El as <-.
  eapply going_steps; [| |exact Hst|]; try done. loop_simpl. rewrite count_snoc, Nat.add_0_r. done.
Qed.
End Props.

(** ** A loop at work

    Functor 1 queues 2 and watches descriptor 7 for reading, functor 3 stops
    watching and removes it; what arrives on 7 queues 2. *)
Definition demo : LoopEnv := mkLoopEnv
  (fun _ f => match f with 1%nat => [CQueueInLoop 2%nat; CUpdate 7 kReadEvent] | 3%nat => [CUpdate 7 kNoneEvent; CRemove 7] | _ => [] end)
  (fun _ fd _ => if fd =? 7 then [CQueueInLoop 2%nat] else []) 3.

Lemma demo_ok : loop_env_ok demo.
Proof.
  split; intros l f; [|intros rv; cbn; destruct (f =? 7); repeat constructor].
  cbn. destruct f as [|[|[|[|f]]]]; repeat constructor; done.
Qed.

(** The events that can happen, decided. *)
Definition allowed (E : LoopEnv) (s : EventLoop) (e : LoopEvent) : bool :=
  match e with
  | EvLoop => match el_pc s, el_work s with Idle, [] => true | _, _ => false end
  | EvCall c =>
      match el_pc s, el_work s with Idle, [] => true | _, _ => false end &&
      match c with CUpdate fd _ | CRemove fd => negb (fd =? le_wakeupFd E) | _ => true end
  | EvThread => match el_pc s, el_work s with Polling, _ => false | Idle, [] => false | _, _ => true end
  | EvPolled _ ready =>
      match el_pc s with Polling => true | _ => false end && bool_decide (NoDup ready.*1) &&
      (lenZ ready <=? ep_events (el_poller s)) &&
      forallb (fun r => match pl_epoll (snd (channelOf (fst r) (el_poller s))) with Some _ => true | None => false end &&
                        (negb (fst r =? le_wakeupFd E) || negb (ep_counter (el_poller s) =? 0))) ready
  | EvQueue i _ | EvQuit i => bool_decide (i ∉ el_waking s)
  | EvWake i => bool_decide (i ∈ el_waking s)
  | EvSignal _ => true
  end.

Lemma loop_allowed_ok E s e : allowed E s e = true -> may_happen E s e.
Proof.
  destruct e; cbn [allowed may_happen]; intros H; bool_to_prop; try by apply bool_decide_eq_true in H.
  - by destruct (el_pc s), (el_work s).
  - destruct (el_pc s), (el_work s); try done. split_and!; try done. destruct c; try done; apply negb_true_iff, Z.eqb_neq in H0; done.
  - destruct (el_pc s), (el_work s); done.
  - rewrite bool_decide_eq_true in H2. rewrite forallb_forall in H0. split_and!; try done; [by destruct (el_pc s)|].
    intros fd rv Hin. apply list_elem_of_In, H0 in Hin. cbn in Hin. apply andb_true_iff in Hin as [H3 H4]. split.
    + by destruct (pl_epoll _).
    + intros ->. rewrite Z.eqb_refl in H4. by apply negb_true_iff, Z.eqb_neq in H4.
  - done.
Qed.

Fixpoint loopRun (E : LoopEnv) (es : list LoopEvent) (s : EventLoop) : option EventLoop :=
  match es with
  | [] => Some s
  | e :: es' => if allowed E s e then s' ← loopStep E e s; loopRun E es' s' else None
  end.

Lemma loopRun_steps E es s s' : loopRun E es s = Some s' -> rtc (step E) s s'.
Proof.
  revert s. induction es as [|e es IH]; intros s; cbn; [by intros [= ->]|].
  destruct (allowed E s e) eqn:Ea; [|done]. destruct (loopStep E e s) as [s1|] eqn:Es; [|done]. intros Hr.
  eapply rtc_l; [|by apply IH]. exists e. split; [by apply loop_allowed_ok|done].
Qed.

Definition after (es : list LoopEvent) : EventLoop := default newLoop (loopRun demo es newLoop).

(** The thread goes to sleep; another one queues functor 1 and wakes it; it calls
    1 and then 2, and sleeps again. *)
Definition woken_up : list LoopEvent :=
  [EvLoop; EvThread; EvThread; EvQueue 0 1%nat; EvWake 0; EvPolled 5 [(3, POLLIN)]; EvThread; EvThread; EvThread].
Definition worked : list LoopEvent :=
  woken_up ++ repeat EvThread 6 ++ [EvPolled 6 [(3, POLLIN); (7, POLLIN)]] ++ repeat EvThread 10.

Lemma reachable_after es : loopRun demo es newLoop <> None -> reachable demo (after es).
Proof. intros H. unfold after. destruct (loopRun demo es newLoop) eqn:Er; [by eapply loopRun_steps|done]. Qed.

Lemma loop_safe_witness :
  el_pc (after (woken_up ++ repeat EvThread 6)) = Polling /\
  exists s', loopStep demo (EvPolled 6 [(3, POLLIN); (7, POLLIN)]) (after (woken_up ++ repeat EvThread 6)) = Some s' /\
    forall rest fd revents, el_pc s' = Events rest -> (fd, revents) ∈ rest ->
      pl_known (snd (channelOf fd (el_poller s'))) = true /\ el_currentActiveChannel s' <> Some fd.
Proof.
  split; [by vm_compute|]. apply (loop_safe demo demo_ok); [by apply reachable_after; vm_compute|by vm_compute|by apply loop_allowed_ok; vm_compute|discriminate].
Defined.

Lemma loop_executes_witness :
  executed (el_log (after worked)) = [1; 2; 2]%nat /\
  executed (el_log (after worked)) ++ running (el_pc (after worked)) ++ el_pendingFunctors (after worked) = queued (el_log (after worked)) /\
  ((count is_round (el_log (after woken_up)) + 2 <= count is_round (el_log (after worked)))%nat ->
   queued (el_log (after woken_up)) `prefix_of` executed (el_log (after worked))).
Proof.
  split; [by vm_compute|]. apply (loop_executes demo demo_ok); [by apply reachable_after; vm_compute| |by vm_compute].
  apply (loopRun_steps demo (drop 9 worked)). by vm_compute.
Defined.

(** Asleep with nothing to do; and asleep over a functor queued before [loop]. *)
Definition early_sleep : list LoopEvent := [EvCall (CQueueInLoop 2%nat); EvThread; EvLoop; EvThread; EvThread].

Lemma loop_wakes_witness :
  (sleeping (after worked) /\ el_waking (after worked) = ∅ /\ sleeping (after early_sleep) /\ el_waking (after early_sleep) = ∅ /\
   el_pendingFunctors (after early_sleep) = [2%nat]) /\
  (sleeping (after worked) -> el_waking (after worked) = ∅ ->
    pl_epoll (snd (channelOf (le_wakeupFd demo) (el_poller (after worked)))) = Some kReadEvent /\
    (el_pendingFunctors (after worked) <> [] ->
       count is_early (el_log (after worked)) <> 0%nat /\ sincePoll is_loop (el_log (after worked)) = true) /\
    (el_quit (after worked) = true -> sincePoll is_signal (el_log (after worked)) = true)) /\
  (el_quit (after worked) = true -> forall s', rtc (step demo) (after worked) s' ->
    count is_loop (el_log s') = count is_loop (el_log (after worked)) ->
    el_quit s' = true /\ (count is_poll (el_log s') <= S (count is_poll (el_log (after worked))))%nat).
Proof.
  split; [by vm_compute|]. apply (loop_wakes demo demo_ok); [by apply reachable_after; vm_compute|by vm_compute].
Defined.

(** Thread 0 asks the loop to quit before it is called. *)
Definition too_early : list LoopEvent := [EvQuit 0; EvWake 0].
Definition goes_on : list LoopEvent := [EvThread; EvThread; EvPolled 5 [(3, POLLIN)]] ++ repeat EvThread 6.

Lemma quit_forgotten_witness : exists s1 s', el_quit (after too_early) = true /\
  loopStep demo EvLoop (after too_early) = Some s1 /\ rtc (step demo) s1 s' /\ sleeping s' /\ el_waking s' = ∅ /\ el_pc s' <> Idle /\ el_quit s' = false.
Proof.
  destruct (loopStep demo EvLoop (after too_early)) as [s1|] eqn:E1; [|by vm_compute in E1].
  destruct (loopRun demo goes_on s1) as [s'|] eqn:E2; [|by vm_compute in E1; injection E1 as <-; vm_compute in E2].
  exists s1, s'. assert (count is_quit (el_log s') = count is_quit (el_log (after too_early)) /\ sleeping s' /\ el_waking s' = ∅) as (Hc & Hs & Hw).
  { vm_compute in E1. injection E1 as <-. vm_compute in E2. injection E2 as <-. by vm_compute. }
  split; [by vm_compute|]. split; [done|]. split; [by apply (loopRun_steps demo goes_on)|]. split; [done|]. split; [done|].
  apply (quit_forgotten demo demo_ok (after too_early) s1); [by apply reachable_after; vm_compute|by vm_compute|by apply loop_allowed_ok; vm_compute|done|by apply (loopRun_steps demo goes_on)|done].
Defined.
