(* ===== verification/LoopThread.v ===== *)
(** * The thread of an event loop

    [src/src/net/EventLoopThread.cpp]: a thread that constructs a loop, publishes
    it and runs it, and the owner that starts the thread, waits for the loop and
    ends it in the destructor.  [None] is also an access to the loop after the
    thread's function, whose local variable it is, has returned. *)

From stdpp Require Import base list numbers gmap.
From Stdlib Require Import ZArith Lia.
From S2P Require Import Prelude Buffer Tcp Loop LoopInv LoopProps.
Local Open Scope Z_scope.

(** ** Data *)

(** Where [threadFunc] is. *)
Inductive ThreadPc :=
| NotStarted
| Starting      (* the loop is constructed, the callback runs *)
| Published     (* [_loop] is set, [loop()] not called yet *)
| Looping
| Returned.

(** Where the owner is: before [startLoop], in it, using the loop; in the
    destructor before [quit], inside it, in [join], and behind it. *)
Inductive OwnerPc := Created | Waiting | Using | Quitting | Waking | Joining | Gone.

(** [class EventLoopThread], with its thread and its owner; [lt_loop] tells
    whether [_loop] points to the loop. *)
Record EventLoopThread := mkThread {
  lt_loop : bool;
  lt_exiting : bool;
  lt_theLoop : EventLoop;
  lt_thread : ThreadPc;
  lt_owner : OwnerPc;
}.

Definition newThread : EventLoopThread := mkThread false false newLoop NotStarted Created.

Definition set_theLoop (l : EventLoop) (t : EventLoopThread) : EventLoopThread :=
  mkThread (lt_loop t) (lt_exiting t) l (lt_thread t) (lt_owner t).
Definition set_thread (pointer : bool) (pc : ThreadPc) (t : EventLoopThread) : EventLoopThread :=
  mkThread pointer (lt_exiting t) (lt_theLoop t) pc (lt_owner t).
Definition set_owner (pc : OwnerPc) (t : EventLoopThread) : EventLoopThread :=
  mkThread (lt_loop t) (lt_exiting t) (lt_theLoop t) (lt_thread t) pc.
Definition set_exiting (t : EventLoopThread) : EventLoopThread :=
  mkThread (lt_loop t) true (lt_theLoop t) (lt_thread t) (lt_owner t).

(** ** Steps *)

Inductive ThreadEvent :=
| TStart               (* [startLoop] *)
| TLoop (e : LoopEvent)
| TPublish             (* the callback returned: [_loop] is set, the owner notified *)
| TWait                (* the owner finds [_loop] set *)
| TEnter               (* [loop.loop()] *)
| TReturn              (* it returned: [_loop] is reset, the loop destroyed *)
| TDestroy             (* [~EventLoopThread] *)
| TQuit | TWake        (* the two halves of its [quit()] *)
| TJoin.

(** The owner's number among the threads that use the loop. *)
Definition owner : nat := 0.

(** The owner's call into the loop. *)
Definition ownerCall (E : LoopEnv) (e : LoopEvent) (next : OwnerPc) (t : EventLoopThread) : option EventLoopThread :=
  match lt_thread t with
  | NotStarted | Returned => None
  | _ => l ← loopStep E e (lt_theLoop t); Some (set_owner next (set_theLoop l t))
  end.

Definition startLoop (t : EventLoopThread) : option EventLoopThread :=
  match lt_thread t with
  | NotStarted => Some (set_owner Waiting (set_thread (lt_loop t) Starting t))
  | _ => None
  end.

(** [EventLoopThread::~EventLoopThread] up to its test. *)
Definition destroy (t : EventLoopThread) : EventLoopThread :=
  let t := set_exiting t in if lt_loop t then set_owner Quitting t else set_owner Gone t.

Definition threadEvent (E : LoopEnv) (e : ThreadEvent) (t : EventLoopThread) : option EventLoopThread :=
  match e with
  | TStart => startLoop t
  | TLoop e => l ← loopStep E e (lt_theLoop t); Some (set_theLoop l t)
  | TPublish => Some (set_thread true Published t)
  | TWait => Some (set_owner Using t)
  | TEnter => l ← loop (lt_theLoop t); Some (set_theLoop l (set_thread (lt_loop t) Looping t))
  | TReturn => Some (set_thread false Returned t)
  | TDestroy => Some (destroy t)
  | TQuit => ownerCall E (EvQuit owner) Waking t
  | TWake => ownerCall E (EvWake owner) Joining t
  | TJoin => Some (set_owner Gone t)
  end.

Fixpoint threadRun (E : LoopEnv) (es : list ThreadEvent) (t : EventLoopThread) : option EventLoopThread :=
  match es with [] => Some t | e :: es' => t' ← threadEvent E e t; threadRun E es' t' end.

(** When an event can happen.  Until [loop()] is called the thread runs the
    callback; other threads have other numbers than the owner. *)
Definition thread_may (E : LoopEnv) (t : EventLoopThread) (e : ThreadEvent) : Prop :=
  let l := lt_theLoop t in
  match e with
  | TStart => lt_owner t = Created
  | TLoop e =>
      may_happen E l e /\
      match e with
      | EvLoop => False
      | EvCall _ => lt_thread t = Starting
      | EvThread => lt_thread t = Starting \/ lt_thread t = Looping
      | EvQueue i _ | EvQuit i | EvWake i => i <> owner /\ lt_thread t <> NotStarted /\ lt_thread t <> Returned
      | EvPolled _ _ | EvSignal _ => lt_thread t = Looping
      end
  | TPublish => lt_thread t = Starting /\ el_work l = []
  | TWait => lt_owner t = Waiting /\ lt_loop t = true
  | TEnter => lt_thread t = Published
  | TReturn => lt_thread t = Looping /\ el_pc l = Idle
  | TDestroy => lt_owner t = Created \/ lt_owner t = Using
  | TQuit => lt_owner t = Quitting
  | TWake => lt_owner t = Waking
  | TJoin => lt_owner t = Joining /\ lt_thread t = Returned
  end.

Definition thread_step (E : LoopEnv) (t t' : EventLoopThread) : Prop :=
  exists e, thread_may E t e /\ threadEvent E e t = Some t'.
Definition thread_reachable (E : LoopEnv) (t : EventLoopThread) : Prop := rtc (thread_step E) newThread t.

(** ** The loop of a thread is a loop *)

(** The loop is outside [loop()] until the thread enters it, and the owner has
    promised to wake it between the halves of its [quit]. *)
Record thread_ok (E : LoopEnv) (t : EventLoopThread) : Prop := {
  th_reachable : reachable E (lt_theLoop t);
  th_idle : lt_thread t <> Looping -> lt_thread t <> Returned -> el_pc (lt_theLoop t) = Idle;
  th_quiet : lt_thread t <> Starting -> lt_thread t <> Looping -> lt_thread t <> Returned -> el_work (lt_theLoop t) = [];
  th_pointer : lt_loop t = true <-> lt_thread t = Published \/ lt_thread t = Looping;
  th_owner : owner ∈ el_waking (lt_theLoop t) <-> lt_owner t = Waking;
  th_started : lt_owner t = Created <-> lt_thread t = NotStarted /\ lt_exiting t = false;
}.

(** One event of a run whose states are computed on the way. *)
Ltac next_event e := eapply rtc_l;
  [exists e; split; [|vm_compute; reflexivity]; cbn -[In elem_of]; intuition (congruence || done)|];
  match goal with |- rtc _ ?a _ => let v := eval vm_compute in a in change a with v end.

Section Thread.
Context (E : LoopEnv) (HE : loop_env_ok E).

Lemma wakeup_frame s s' : wakeup s = Some s' ->
  el_waking s' = el_waking s /\ el_pc s' = el_pc s /\ el_work s' = el_work s.
Proof. unfold wakeup. case_match; [|done]. by intros [= <-]. Qed.

Lemma doCall_frame c s s' : doCall E c s = Some s' -> el_waking s' = el_waking s /\ el_pc s' = el_pc s.
Proof.
  destruct c as [f|f| |fd ev|fd]; cbn [doCall]; try by intros [= <-].
  - unfold queueInLoop. case_match; [|by intros [= <-]]. by intros (? & ? & _)%wakeup_frame.
  - destruct (updateChannel fd ev (el_poller s)); [|done]. by intros [= <-].
  - unfold removeChannel. destruct (channelOf fd (el_poller s)). do 2 (case_match; [done|]).
    destruct (pollerRemove _ _); [|done]. by intros [= <-].
Qed.

Lemma advance_waking s s' : advance E s = Some s' -> el_waking s' = el_waking s.
Proof.
  unfold advance. destruct (el_pc s) as [| | | |[|[fd rv] rest]| |[|f rest]]; try by intros [= <-].
  - destruct (el_quit s); by intros [= <-].
  - destruct (if ep_registerWk (el_poller s) then _ else _); [|done]. by intros [= <-].
  - unfold handleEvent, handleRead. repeat case_match; try done; by intros [= <-].
Qed.

(** Who is on the way to wake the loop. *)
Lemma loopStep_waking e s s' : loopStep E e s = Some s' ->
  el_waking s' = match e with
                 | EvQueue i _ | EvQuit i => {[i]} ∪ el_waking s
                 | EvWake i => el_waking s ∖ {[i]}
                 | _ => el_waking s
                 end.
Proof.
  destruct e as [|c| |t ready|i f|i|i|t]; cbn [loopStep]; try by intros [= <-].
  - unfold loop. case_match; [done|]. by intros [= <-].
  - unfold threadStep. destruct (el_work s); [apply advance_waking|]. by intros [? _]%doCall_frame.
  - unfold polled. destruct (pollReturn ready s) as [s1|] eqn:Er; [|done]. apply pollReturn_frame in Er as (_ & _ & _ & _ & Ew & _).
    by intros [= <-].
  - by intros [? _]%wakeup_frame.
  - case_match; try by intros [= <-].
Qed.

(** Outside [loop] no event but its call moves the loop's thread, and only the
    thread itself runs callbacks. *)
Lemma loopStep_idle e s s' : loopStep E e s = Some s' -> e <> EvLoop -> may_happen E s e -> el_pc s = Idle ->
  el_pc s' = Idle /\ (match e with EvCall _ | EvThread => False | _ => True end -> el_work s' = el_work s).
Proof.
  intros Es Hn Hm Hp. destruct e as [|c| |t ready|i f|i|i|t]; cbn [loopStep] in Es; try done; try by (injection Es as <-).
  - destruct Hm as [_ Hw]. unfold threadStep in Es. destruct (el_work s) as [|c w]; [by destruct (Hw Hp)|].
    apply doCall_frame in Es as [_ ->]. done.
  - by destruct Hm as [? _]; congruence.
  - apply wakeup_frame in Es as (_ & -> & ->). done.
  - cbn [observe set_quit set_flags el_pc] in Es. rewrite Hp in Es. by injection Es as <-.
Qed.

Lemma reach_step s s' e : reachable E s -> may_happen E s e -> loopStep E e s = Some s' -> reachable E s'.
Proof. intros Hr Hm Es. eapply rtc_r; [exact Hr|]. by exists e. Qed.

Lemma newThread_ok : thread_ok E newThread.
Proof. constructor; try done; [by apply rtc_refl|]. cbn. split; [done|]. by intros [?|?]. Qed.

(** The table of states. *)
Ltac cases_of := repeat match goal with H : thread_ok _ _ |- _ => clear H | H : _ -> _ -> _ |- _ => clear H | H : reachable _ _ |- _ => clear H end; intuition congruence.

(** Either half of the owner's [quit]. *)
Lemma ownerCall_ok e next t t' : thread_ok E t -> e = EvWake owner \/ e = EvQuit owner -> lt_owner t <> Created -> next <> Created ->
  may_happen E (lt_theLoop t) e ->
  (owner ∈ match e with EvQuit i => {[i]} ∪ el_waking (lt_theLoop t) | _ => el_waking (lt_theLoop t) ∖ {[owner]} end <-> next = Waking) ->
  ownerCall E e next t = Some t' -> thread_ok E t'.
Proof.
  intros [R1 R2 R3 R4 R5 R6] He Ho Hn Hl Hx Es. unfold ownerCall in Es.
  destruct (loopStep E e (lt_theLoop t)) as [l|] eqn:El; [|by destruct (lt_thread t)].
  assert (t' = set_owner next (set_theLoop l t)) as -> by (cbn [mbind option_bind] in Es; destruct (lt_thread t); congruence).
  assert (e <> EvLoop) as Hne by (by destruct He as [-> | ->]).
  pose proof (loopStep_idle _ _ _ El Hne Hl) as Hid.
  constructor; cbn [set_theLoop set_owner lt_theLoop lt_thread lt_loop lt_owner lt_exiting]; try done.
  - by eapply reach_step.
  - intros H1 H2. by apply Hid, R2.
  - intros H0 H1 H2. destruct (Hid (R2 H1 H2)) as [_ Hw]. rewrite Hw by (by destruct He as [-> | ->]). by apply R3.
  - rewrite (loopStep_waking _ _ _ El), <- Hx. by destruct He as [-> | ->].
  - cases_of.
Qed.

Lemma thread_step_ok t t' : thread_ok E t -> thread_step E t t' -> thread_ok E t'.
Proof.
  intros [R1 R2 R3 R4 R5 R6] (e & Hm & Es). destruct e as [|e| | | | | | | |]; cbn [threadEvent thread_may] in *.
  - unfold startLoop in Es. destruct (lt_thread t) eqn:Et; try done. injection Es as <-.
    constructor; cbn; try done; [intros _ _; by apply R2|rewrite R4; cases_of|rewrite R5; cases_of|cases_of].
  - destruct (loopStep E e (lt_theLoop t)) as [l|] eqn:El; [|done]. injection Es as <-. destruct Hm as [Hm Hw].
    assert (e <> EvLoop) as Hne by (by intros ->).
    pose proof (loopStep_idle e _ _ El Hne Hm) as Hid. constructor; cbn [set_theLoop lt_theLoop lt_thread lt_loop lt_owner lt_exiting]; try done.
    + by eapply reach_step.
    + intros H1 H2. by apply Hid, R2.
    + intros H0 H1 H2. destruct (Hid (R2 H1 H2)) as [_ ->]; [by apply R3|]. destruct e; try done; by destruct Hw.
    + rewrite <- R5, (loopStep_waking _ _ _ El). destruct e; try done; set_solver.
  - injection Es as <-. destruct Hm as [Hm Hw]. rewrite Hm in *.
    constructor; cbn; try done; try (intros _ _; by apply R2); cases_of.
  - injection Es as <-. destruct Hm as [Hm Hp]. rewrite Hm in *. constructor; cbn; try done; cases_of.
  - destruct (loop (lt_theLoop t)) as [l|] eqn:El; [|done]. injection Es as <-. rewrite Hm in *.
    assert (may_happen E (lt_theLoop t) EvLoop) as Hl by (split; [by apply R2|by apply R3]).
    constructor; cbn [set_theLoop set_thread lt_theLoop lt_thread lt_loop lt_owner lt_exiting]; try done.
    + by eapply (reach_step _ _ EvLoop).
    + rewrite R4. cases_of.
    + rewrite <- R5. by rewrite (loopStep_waking EvLoop _ _ El).
    + rewrite R6. cases_of.
  - injection Es as <-. destruct Hm as [Hm Hp]. rewrite Hm in *. constructor; cbn; try done; cases_of.
  - injection Es as <-. unfold destroy. cbn. destruct (lt_loop t) eqn:El; constructor; cbn; try done; cases_of.
  - apply (ownerCall_ok (EvQuit owner) Waking t); [by constructor|by right|congruence|done|cbn; rewrite R5; congruence|set_solver|exact Es].
  - apply (ownerCall_ok (EvWake owner) Joining t); [by constructor|by left|congruence|done|by apply R5|set_solver|exact Es].
  - injection Es as <-. constructor; cbn; try done; cases_of.
Qed.

Lemma thread_reachable_ok t : thread_reachable E t -> thread_ok E t.
Proof. intros Hr. pattern t. eapply rtc_ind_r; [apply newThread_ok| |exact Hr]. intros t1 t2 _ Hst H. by eapply thread_step_ok. Qed.

(** ** The destructor *)

(** Only its call is recorded as the call of [loop]. *)
Lemma loopStep_loops e s s' : e <> EvLoop -> may_happen E s e -> loopStep E e s = Some s' ->
  count is_loop (el_log s') = count is_loop (el_log s).
Proof.
  intros Hn Hm Es. destruct (loopStep_moves E e s s' Hm Es) as (l & -> & Hl). rewrite count_app.
  assert (count is_loop l = 0%nat) as ->; [|lia].
  destruct Hl as [l s' _ Hc|s' H1 H2|s' _ _ _ _|t b s' _ _ _ _|s' _ _ _ _|f rest s' _ _ _ _|s' _ _ _ _|l s' _ Hc]; try done.
  - by destruct (calm_counts l Hc) as (_ & _ & ?).
  - apply (loopStep_idle e) in Es as [Hi _]; congruence.
  - by destruct b.
  - apply handled_counts in Hc as (_ & _ & Hc). by apply Hc.
Qed.

(** What the steps of a thread do to its loop. *)
Lemma thread_step_loop t t' : thread_ok E t -> thread_step E t t' ->
  (lt_thread t' = lt_thread t \/ lt_theLoop t' = lt_theLoop t \/ (lt_thread t = Published /\ lt_thread t' = Looping)) /\
  (lt_theLoop t' = lt_theLoop t \/ step E (lt_theLoop t) (lt_theLoop t') /\
    (lt_thread t <> Published -> count is_loop (el_log (lt_theLoop t')) = count is_loop (el_log (lt_theLoop t)))).
Proof.
  intros [R1 R2 R3 R4 R5 R6] (e & Hm & Es). destruct e as [|e| | | | | | | |]; cbn [threadEvent thread_may] in *;
    try (injection Es as <-; split; [by right; left|by left]).
  - unfold startLoop in Es. destruct (lt_thread t); try done. injection Es as <-. split; [by right; left|by left].
  - destruct (loopStep E e (lt_theLoop t)) as [l|] eqn:El; [|done]. injection Es as <-. destruct Hm as [Hm Hw]. cbn.
    split; [by left|right]. split; [by exists e|]. intros _. apply (loopStep_loops e); [by intros ->|done..].
  - destruct (loop (lt_theLoop t)) as [l|] eqn:El; [|done]. injection Es as <-. cbn. split; [by right; right|right].
    split; [|done]. exists EvLoop. split; [|done]. split; [apply R2|apply R3]; congruence.
  - injection Es as <-. unfold destroy. cbn. destruct (lt_loop t); (split; [by right; left|by left]).
  - unfold ownerCall in Es. destruct (loopStep E (EvQuit owner) (lt_theLoop t)) as [l|] eqn:El; [|by destruct (lt_thread t)].
    assert (t' = set_owner Waking (set_theLoop l t)) as -> by (cbn [mbind option_bind] in Es; destruct (lt_thread t); congruence).
    cbn. assert (may_happen E (lt_theLoop t) (EvQuit owner)) as Hl by (cbn; rewrite R5; congruence).
    split; [by left|right]. split; [by exists (EvQuit owner)|]. intros _. by apply (loopStep_loops (EvQuit owner)).
  - unfold ownerCall in Es. destruct (loopStep E (EvWake owner) (lt_theLoop t)) as [l|] eqn:El; [|by destruct (lt_thread t)].
    assert (t' = set_owner Joining (set_theLoop l t)) as -> by (cbn [mbind option_bind] in Es; destruct (lt_thread t); congruence).
    cbn. assert (may_happen E (lt_theLoop t) (EvWake owner)) as Hl by (by apply R5).
    split; [by left|right]. split; [by exists (EvWake owner)|]. intros _. by apply (loopStep_loops (EvWake owner)).
Qed.

(** The destructor waits for a loop that has not been told. *)
Definition hanging (t : EventLoopThread) : Prop :=
  lt_owner t = Joining /\
  (lt_thread t = Published \/ lt_thread t = Looping /\ el_pc (lt_theLoop t) <> Idle /\ el_quit (lt_theLoop t) = false).

Lemma hanging_step t t' : hanging t -> thread_step E t t' ->
  count is_quit (el_log (lt_theLoop t')) = count is_quit (el_log (lt_theLoop t)) -> hanging t'.
Proof.
  intros [Ho Ht] (e & Hm & Es) Hc. destruct e as [|e| | | | | | | |]; cbn [threadEvent thread_may] in *; try (exfalso; intuition congruence).
  - destruct (loopStep E e (lt_theLoop t)) as [l|] eqn:El; [|done]. injection Es as <-. split; [done|]. cbn in *.
    destruct Ht as [Ht|(Ht & Hp & Hq)]; [by left|right]. split; [done|].
    eapply going_steps; [exact Hp|exact Hq| |exact Hc]. apply rtc_once. exists e. by destruct Hm.
  - destruct (loop (lt_theLoop t)) as [l|] eqn:El; [|done]. injection Es as <-. split; [done|]. right. split; [done|].
    unfold loop in El. destruct (el_looping _); [done|]. injection El as <-. by split.
Qed.

Lemma hanging_steps t t' : hanging t -> rtc (thread_step E) t t' -> thread_ok E t ->
  count is_quit (el_log (lt_theLoop t')) = count is_quit (el_log (lt_theLoop t)) -> hanging t'.
Proof.
  intros Hh Hr. induction Hr as [|t t1 t' Hst Hr IH] ; intros Hk Hc; [done|].
  assert (forall a b, thread_ok E a -> thread_step E a b -> el_log (lt_theLoop a) `prefix_of` el_log (lt_theLoop b)) as Hpre.
  { intros a b Ha Hab. destruct (thread_step_loop a b Ha Hab) as [_ [->|[Hs _]]]; [done|]. eapply steps_log, rtc_once, Hs. }
  assert (el_log (lt_theLoop t1) `prefix_of` el_log (lt_theLoop t')) as H2.
  { clear IH Hc. assert (thread_ok E t1) as Hk1 by (by eapply thread_step_ok). clear Hst. induction Hr as [|t1 t2 t' Hst Hr IH]; [done|].
    etransitivity; [by apply Hpre|]. apply IH. by eapply thread_step_ok. }
  pose proof (count_mono is_quit _ _ (Hpre _ _ Hk Hst)). pose proof (count_mono is_quit _ _ H2).
  assert (thread_ok E t1) by (by eapply thread_step_ok). apply IH; [|done|lia]. eapply hanging_step; [done..|lia].
Qed.

(** Inside [loop] a request to quit stands. *)
Lemma looping_steps t t' : thread_ok E t -> lt_thread t = Looping \/ lt_thread t = Returned -> rtc (thread_step E) t t' ->
  rtc (step E) (lt_theLoop t) (lt_theLoop t') /\ count is_loop (el_log (lt_theLoop t')) = count is_loop (el_log (lt_theLoop t)).
Proof.
  intros Hk Ht Hr. induction Hr as [|t t1 t' Hst Hr IH]; [done|].
  destruct (thread_step_loop t t1 Hk Hst) as [_ Hl].
  assert (lt_thread t1 = Looping \/ lt_thread t1 = Returned) as Ht1.
  { destruct Hst as (e & Hm & Es). destruct e as [|e| | | | | | | |]; cbn [threadEvent thread_may] in *; try (injection Es as <-; done).
    - unfold startLoop in Es. by destruct Ht as [Hx|Hx]; rewrite Hx in Es.
    - destruct (loopStep E e (lt_theLoop t)); [|done]. by injection Es as <-.
    - exfalso. intuition congruence.
    - exfalso. intuition congruence.
    - injection Es as <-. by right.
    - injection Es as <-. unfold destroy. cbn. by destruct (lt_loop t).
    - unfold ownerCall in Es. destruct Ht as [Hx|Hx]; rewrite Hx in Es; [|done].
      destruct (loopStep E (EvQuit owner) (lt_theLoop t)); [|done]. injection Es as <-. by left.
    - unfold ownerCall in Es. destruct Ht as [Hx|Hx]; rewrite Hx in Es; [|done].
      destruct (loopStep E (EvWake owner) (lt_theLoop t)); [|done]. injection Es as <-. by left. }
  destruct (IH (thread_step_ok _ _ Hk Hst) Ht1) as [IH1 IH2]. destruct Hl as [Hl|[Hs Hc]]; [by rewrite Hl in IH1, IH2|].
  split; [by eapply rtc_l|]. rewrite IH2. apply Hc. destruct Ht; congruence.
Qed.

(** The shortest life of a thread: the owner is in its [quit] when the loop sees
    the flag and the thread's function returns. *)
Definition overtaken : list ThreadEvent :=
  [TStart; TPublish; TWait; TEnter; TDestroy; TQuit; TLoop EvThread; TReturn].

Lemma overtaken_reachable : thread_reachable E (default newThread (threadRun E overtaken newThread)).
Proof.
  match goal with |- thread_reachable _ ?a => let v := eval vm_compute in a in change a with v end. unfold thread_reachable.
  next_event TStart. next_event TPublish. next_event TWait. next_event TEnter. next_event TDestroy. next_event TQuit.
  next_event (TLoop EvThread). next_event TReturn. apply rtc_refl.
Qed.

(** C25: the destructor of an event loop's thread races with it.  If its request
    to quit is made before the thread has called [loop], the destructor never
    returns, whatever happens, unless somebody else stops the loop; and if the
    thread leaves [loop] between the two halves of the request, the second uses
    the destroyed loop.  When the request finds the thread in [loop], it
    stands, and the thread polls once more at most. *)
Theorem thread_destructor :
  (forall t t', thread_reachable E t -> lt_thread t = Published -> lt_owner t = Joining -> rtc (thread_step E) t t' ->
    count is_quit (el_log (lt_theLoop t')) = count is_quit (el_log (lt_theLoop t)) ->
    lt_owner t' = Joining /\ lt_thread t' <> Returned) /\
  (exists t, thread_reachable E t /\ thread_may E t TWake /\ threadEvent E TWake t = None) /\
  (forall t t', thread_reachable E t -> lt_thread t = Looping -> el_quit (lt_theLoop t) = true -> rtc (thread_step E) t t' ->
    el_quit (lt_theLoop t') = true /\
    (count is_poll (el_log (lt_theLoop t')) <= S (count is_poll (el_log (lt_theLoop t))))%nat).
Proof.
  split_and!.
  - intros t t' Hr Ht Ho Hst Hc. destruct (hanging_steps t t') as [? Hx]; try done; [by split; [|left]|by apply thread_reachable_ok|].
    split; [done|]. destruct Hx as [->|[-> _]]; done.
  - eexists. split; [exact overtaken_reachable|done].
  - intros t t' Hr Ht Hq Hst. pose proof (thread_reachable_ok t Hr) as Hk.
    destruct (looping_steps t t' Hk (or_introl Ht) Hst) as [H1 H2].
    destruct (quitting_steps E _ _ Hq H1 H2) as [? [->|[-> _]]]; split; (done || lia).
Qed.
End Thread.

(** The owner's request between the publication of the loop and [loop]. *)
Definition too_soon : EventLoopThread :=
  default newThread (threadRun demo [TStart; TPublish; TWait; TDestroy; TQuit; TWake] newThread).

Lemma too_soon_reachable : thread_reachable demo too_soon.
Proof.
  unfold too_soon.
  match goal with |- thread_reachable _ ?a => let v := eval vm_compute in a in change a with v end. unfold thread_reachable.
  next_event TStart. next_event TPublish. next_event TWait. next_event TDestroy. next_event TQuit.
  eapply rtc_l; [exists TWake; split; [|vm_compute; reflexivity]; vm_compute; reflexivity|]. apply rtc_refl.
Qed.

Lemma thread_destructor_witness :
  (lt_thread too_soon = Published /\ lt_owner too_soon = Joining) /\
  forall t', rtc (thread_step demo) too_soon t' ->
    count is_quit (el_log (lt_theLoop t')) = count is_quit (el_log (lt_theLoop too_soon)) ->
    lt_owner t' = Joining /\ lt_thread t' <> Returned.
Proof.
  split; [by vm_compute|]. intros t'. apply (thread_destructor demo demo_ok); [exact too_soon_reachable|by vm_compute|by vm_compute].
Defined.
