(* ===== verification/Server.v ===== *)
(** * A server and its loops

    [src/src/net/TcpServer.cpp], [Acceptor.cpp] and [EventLoopThreadPool.cpp]:
    the table of connections, the loops they are spread over, and the functors
    that cross between them.  Loop 0 is the one of the server, the others are
    those of its pool; a loop is the queue of the functors about connections it
    has still to call, one after the other ([Loop]).  Of a connection only the
    state, its place in the poller and the callbacks about it are kept ([Tcp]
    has the rest).  [None] is a failed assertion or an access to the server
    after its destructor. *)

From stdpp Require Import base list numbers gmap strings.
From Stdlib Require Import ZArith Lia.
From Stdlib Require String.
From S2P Require Import Prelude CText Tcp.
Local Open Scope Z_scope.

(** ** The pool of loops *)

Definition loop_id : Type := nat.
Definition baseLoop : loop_id := 0%nat.

(** [class EventLoopThreadPool]: the loops and their threads' names. *)
Record EventLoopThreadPool := mkPool {
  lp_started : bool;
  lp_numThreads : Z;
  lp_next : Z;
  lp_names : list string;
  lp_loops : list loop_id;
}.

Definition newPool : EventLoopThreadPool := mkPool false 0 0 [] [].

(** [snprintf] into a buffer of [n] bytes. *)
Definition snprintf (n : nat) (s : string) : string := String.substring 0 (n - 1) s.

(** The name of thread [i]: [sizeof buf] is the size of a pointer. *)
Definition threadName (name : string) (i : nat) : string := snprintf 8 (name +:+ to_string (Z.of_nat i)).

Definition setThreadNum (n : Z) (p : EventLoopThreadPool) : option EventLoopThreadPool :=
  if 0 <=? n then Some (mkPool (lp_started p) n (lp_next p) (lp_names p) (lp_loops p)) else None.

Definition poolStart (name : string) (p : EventLoopThreadPool) : option EventLoopThreadPool :=
  if lp_started p then None
  else
    let ids := seq 0 (Z.to_nat (lp_numThreads p)) in
    Some (mkPool true (lp_numThreads p) (lp_next p) (lp_names p ++ map (threadName name) ids) (lp_loops p ++ map S ids)).

Definition getNextLoop (p : EventLoopThreadPool) : option (loop_id * EventLoopThreadPool) :=
  if negb (lp_started p) then None
  else
    match lp_loops p with
    | [] => Some (baseLoop, p)
    | _ :: _ =>
        l ← rd (lp_loops p) (lp_next p);
        let next := lp_next p + 1 in
        Some (l, mkPool (lp_started p) (lp_numThreads p) (if lenZ (lp_loops p) <=? next then 0 else next) (lp_names p) (lp_loops p))
    end.

Definition getLoopForHash (hashCode : Z) (p : EventLoopThreadPool) : option loop_id :=
  match lp_loops p with [] => Some baseLoop | _ :: _ => rd (lp_loops p) (hashCode mod lenZ (lp_loops p)) end.

Definition getAllLoops (p : EventLoopThreadPool) : option (list loop_id) :=
  if negb (lp_started p) then None else Some (match lp_loops p with [] => [baseLoop] | loops => loops end).

(** ** Connections *)

(** A connection as its server sees it: its loop, its state, whether its channel
    is registered, and the connection callbacks made so far. *)
Record Conn := mkConn {
  cn_name : string;
  cn_loop : loop_id;
  cn_state : StateE;
  cn_registered : bool;
  cn_callbacks : list bool;
}.

(** [connectEstablished], [handleClose], [shutdown] and [connectDestroyed] on it. *)
Definition connEstablish (c : Conn) : option Conn :=
  if decide (cn_state c = kConnecting)
  then Some (mkConn (cn_name c) (cn_loop c) kConnected true (cn_callbacks c ++ [true])) else None.

Definition connClose (c : Conn) : option Conn :=
  if decide (cn_state c = kConnected \/ cn_state c = kDisconnecting)
  then Some (mkConn (cn_name c) (cn_loop c) kDisconnected (cn_registered c) (cn_callbacks c ++ [false])) else None.

Definition connShutdown (c : Conn) : Conn :=
  if decide (cn_state c = kConnected)
  then mkConn (cn_name c) (cn_loop c) kDisconnecting (cn_registered c) (cn_callbacks c) else c.

Definition connDestroy (c : Conn) : option Conn :=
  let c := if decide (cn_state c = kConnected)
           then mkConn (cn_name c) (cn_loop c) kDisconnected (cn_registered c) (cn_callbacks c ++ [false]) else c in
  if decide (cn_state c = kDisconnected /\ cn_registered c = true)
  then Some (mkConn (cn_name c) (cn_loop c) (cn_state c) false (cn_callbacks c)) else None.

(** ** The server *)

(** The functors about connection [i]. *)
Inductive Task := Establish (i : nat) | Remove (i : nat) | Destroy (i : nat).
Definition task_conn (t : Task) : nat := match t with Establish i | Remove i | Destroy i => i end.

(** [class TcpServer] with its acceptor's [_listenning]; all connections ever
    made, in order; and the loops' queues. *)
Record TcpServer := mkServer {
  ts_alive : bool;
  ts_started : Z;
  ts_listenning : bool;
  ts_pool : EventLoopThreadPool;
  ts_nextConnId : Z;
  ts_connections : gmap string nat;
  ts_conns : list Conn;
  ts_queues : list (list Task);
}.

(** The constructor and [setThreadNum]; each loop has an empty queue. *)
Definition newServer (threads : Z) : option TcpServer :=
  p ← setThreadNum threads newPool;
  Some (mkServer true 0 false p 1 ∅ [] (replicate (S (Z.to_nat threads)) [])).

Definition set_conn (i : nat) (c : Conn) (s : TcpServer) : TcpServer :=
  mkServer (ts_alive s) (ts_started s) (ts_listenning s) (ts_pool s) (ts_nextConnId s) (ts_connections s)
    (<[i := c]> (ts_conns s)) (ts_queues s).
Definition set_connections (m : gmap string nat) (s : TcpServer) : TcpServer :=
  mkServer (ts_alive s) (ts_started s) (ts_listenning s) (ts_pool s) (ts_nextConnId s) m (ts_conns s) (ts_queues s).
Definition set_queues (qs : list (list Task)) (s : TcpServer) : TcpServer :=
  mkServer (ts_alive s) (ts_started s) (ts_listenning s) (ts_pool s) (ts_nextConnId s) (ts_connections s) (ts_conns s) qs.
Definition set_alive (b : bool) (s : TcpServer) : TcpServer :=
  mkServer b (ts_started s) (ts_listenning s) (ts_pool s) (ts_nextConnId s) (ts_connections s) (ts_conns s) (ts_queues s).

(** [EventLoop::queueInLoop] of loop [l]. *)
Definition queueTask (l : loop_id) (t : Task) (s : TcpServer) : TcpServer :=
  set_queues (alter (fun q => q ++ [t]) l (ts_queues s)) s.

(** [removeConnectionInLoop], of a server that may be gone. *)
Definition removeConnectionInLoop (i : nat) (s : TcpServer) : option TcpServer :=
  if negb (ts_alive s) then None
  else
    c ← ts_conns s !! i;
    if negb (bool_decide (is_Some (ts_connections s !! cn_name c))) then None
    else Some (queueTask (cn_loop c) (Destroy i) (set_connections (delete (cn_name c) (ts_connections s)) s)).

(** A functor is called. *)
Definition runTask (t : Task) (s : TcpServer) : option TcpServer :=
  match t with
  | Establish i => c ← ts_conns s !! i; c ← connEstablish c; Some (set_conn i c s)
  | Remove i => removeConnectionInLoop i s
  | Destroy i => c ← ts_conns s !! i; c ← connDestroy c; Some (set_conn i c s)
  end.

(** [EventLoop::runInLoop] of loop [l], from the thread of loop [here]. *)
Definition runInLoop (here l : loop_id) (t : Task) (s : TcpServer) : option TcpServer :=
  if decide (here = l) then runTask t s else Some (queueTask l t s).

(** ** Events *)

Inductive ServerEvent :=
| SvStart
| SvAccept (connfd : Z)       (* the listening socket is readable *)
| SvNext (l : loop_id)        (* a loop goes on *)
| SvShutdown (i : nat)        (* the user shuts a connection down *)
| SvClose (i : nat)
| SvDestroy.                  (* [~TcpServer], in the server's loop *)
#[export] Instance ServerEvent_eq_dec : EqDecision ServerEvent.
Proof. solve_decision. Defined.

(** ** Operations *)

Section Server.
(** The server's name, the text of its address, and the order in which a map of
    connections is traversed. *)
Context (name ipPort : string) (table_order : gmap string nat -> list (string * nat)).

(** The name of the connection numbered [id]; [id] is unsigned, the format
    signed. *)
Definition connName (id : Z) : string := name +:+ snprintf 64 ("-" +:+ ipPort +:+ "#" +:+ to_string (swrap 64 id)).

Definition newConnection (s : TcpServer) : option TcpServer :=
  '(ioLoop, pool) ← getNextLoop (ts_pool s);
  let i := length (ts_conns s) in
  let c := mkConn (connName (ts_nextConnId s)) ioLoop kConnecting false [] in
  runInLoop baseLoop ioLoop (Establish i)
    (mkServer (ts_alive s) (ts_started s) (ts_listenning s) pool (u64 (ts_nextConnId s + 1))
       (<[cn_name c := i]> (ts_connections s)) (ts_conns s ++ [c]) (ts_queues s)).

(** [Acceptor::handleRead]: what [accept] returned. *)
Definition handleAccept (connfd : Z) (s : TcpServer) : option TcpServer :=
  if 0 <? connfd then newConnection s else Some s.

(** [start], in the server's loop, with [Acceptor::listen]. *)
Definition start (s : TcpServer) : option TcpServer :=
  if ts_started s =? 0 then
    p ← poolStart name (ts_pool s);
    if ts_listenning s then None
    else Some (mkServer (ts_alive s) 1 true p (ts_nextConnId s) (ts_connections s) (ts_conns s) (ts_queues s))
  else Some (mkServer (ts_alive s) 1 (ts_listenning s) (ts_pool s) (ts_nextConnId s) (ts_connections s) (ts_conns s) (ts_queues s)).

(** [removeConnection], from the loop of the connection. *)
Definition removeConnection (here : loop_id) (i : nat) (s : TcpServer) : option TcpServer :=
  if ts_alive s then runInLoop here baseLoop (Remove i) s else None.

(** A connection is closed by its peer or by [forceClose]: [handleClose] and the
    close callback. *)
Definition closeConnection (i : nat) (s : TcpServer) : option TcpServer :=
  c ← ts_conns s !! i;
  c ← connClose c;
  removeConnection (cn_loop c) i (set_conn i c s).

(** The traversal of [~TcpServer]. *)
Fixpoint destroyConnections (cs : list (string * nat)) (s : TcpServer) : option TcpServer :=
  match cs with
  | [] => Some s
  | (_, i) :: cs' =>
      c ← ts_conns s !! i;
      s ← runInLoop baseLoop (cn_loop c) (Destroy i) s;
      destroyConnections cs' s
  end.

Definition destroyServer (s : TcpServer) : option TcpServer :=
  s' ← destroyConnections (table_order (ts_connections s)) s;
  Some (set_alive false (set_connections ∅ s')).

(** Loop [l] calls its next functor. *)
Definition runNext (l : loop_id) (s : TcpServer) : option TcpServer :=
  match ts_queues s !! l with
  | Some (t :: q) => runTask t (set_queues (<[l := q]> (ts_queues s)) s)
  | _ => Some s
  end.

Definition serverStep (e : ServerEvent) (s : TcpServer) : option TcpServer :=
  match e with
  | SvStart => start s
  | SvAccept connfd => handleAccept connfd s
  | SvNext l => runNext l s
  | SvShutdown i => c ← ts_conns s !! i; Some (set_conn i (connShutdown c) s)
  | SvClose i => closeConnection i s
  | SvDestroy => destroyServer s
  end.
End Server.
