(* ===== verification/ServerInv.v ===== *)
(** * The invariant of a server and its loops

    When an event can happen, the phases of a connection with the functors that
    wait for it in each, the invariant of the states a living server reaches,
    and that every event keeps it ([serverStep_inv]). *)

From stdpp Require Import base list numbers gmap strings pretty.
From Stdlib Require Import ZArith Lia.
From Stdlib Require String.
From S2P Require Import Prelude CText Tcp Server.
Local Open Scope Z_scope.

(** ** Names *)

Lemma substring_all n s : (String.length s <= n)%nat -> String.substring 0 n s = s.
Proof. revert n. induction s as [|c s IH]; intros [|n] H; cbn in *; [done|done|lia|]. rewrite IH by lia. done. Qed.

Lemma pretty_N_go_length k x s : (x < 10 ^ N.of_nat k)%N -> (String.length (pretty_N_go x s) <= k + String.length s)%nat.
Proof.
  revert x s. induction k as [|k IH]; intros x s Hx.
  - assert (x = 0)%N as -> by (cbn in Hx; lia). by rewrite pretty_N_go_0.
  - destruct (decide (x = 0)%N) as [->|Hn]; [rewrite pretty_N_go_0; lia|].
    rewrite pretty_N_go_step by lia. etransitivity; [apply IH|cbn; lia].
    apply N.Div0.div_lt_upper_bound. rewrite Nat2N.inj_succ, N.pow_succ_r' in Hx. lia.
Qed.

Lemma to_string_length n : 0 <= n < 2 ^ 63 -> (String.length (to_string n) <= 19)%nat.
Proof.
  intros Hn. unfold to_string. destruct (Z.ltb_spec n 0); [lia|]. unfold pretty, pretty_N.
  case_decide; [cbn; lia|]. pose proof (pretty_N_go_length 19 (Z.to_N n) "") as H1. cbn [String.length] in H1.
  rewrite Nat.add_0_r in H1. apply H1. change (10 ^ N.of_nat 19)%N with 10000000000000000000%N. lia.
Qed.

Section Inv.
Context (name ipPort : string) (table_order : gmap string nat -> list (string * nat)).
(** The text of an address is at most ["255.255.255.255:65535"]. *)
Context (Hip : (String.length ipPort <= 21)%nat).

Lemma connName_inj i j : 0 <= i < 2 ^ 63 -> 0 <= j < 2 ^ 63 -> connName name ipPort i = connName name ipPort j -> i = j.
Proof.
  intros Hi Hj E. unfold connName in E. rewrite !swrap_small in E by lia. apply (inj (String.append name)) in E.
  unfold snprintf in E. rewrite !substring_all in E.
  - apply (inj (String.append "-")), (inj (String.append ipPort)), (inj (String.append "#")), to_string_inj in E; lia.
  - rewrite !str_length_app. pose proof (to_string_length j Hj). cbn [String.length]. lia.
  - rewrite !str_length_app. pose proof (to_string_length i Hi). cbn [String.length]. lia.
Qed.

(** ** Reachable states *)

Definition server_may (s : TcpServer) (e : ServerEvent) : Prop :=
  match e with
  | SvStart | SvDestroy => ts_alive s = true
  | SvAccept _ => ts_alive s = true /\ ts_listenning s = true
  | SvNext l => exists t q, ts_queues s !! l = Some (t :: q)
  | SvShutdown i => (i < length (ts_conns s))%nat
  | SvClose i => exists c, ts_conns s !! i = Some c /\ (cn_state c = kConnected \/ cn_state c = kDisconnecting)
  end.

Definition server_step (s s' : TcpServer) : Prop :=
  exists e, server_may s e /\ serverStep name ipPort table_order e s = Some s'.
Definition server_reachable (threads : Z) (s : TcpServer) : Prop :=
  exists s0, newServer threads = Some s0 /\ rtc server_step s0 s.

(** Connections are numbered below 2^63. *)
Definition few (s : TcpServer) : Prop := lenZ (ts_conns s) < 2 ^ 63 - 1.

(** ** The phases of a connection *)

(** Accepted, with [connectEstablished] queued in its loop; up; closed, with
    [removeConnectionInLoop] queued in the server's loop; removed from the
    table, with [connectDestroyed] queued in its loop; destroyed. *)
Inductive Phase := PNew | PUp | PClosed | PRemoved | PGone.

Definition in_phase (ph : Phase) (c : Conn) : Prop :=
  match ph with
  | PNew => cn_state c = kConnecting /\ cn_registered c = false /\ cn_callbacks c = [] /\ cn_loop c <> baseLoop
  | PUp => (cn_state c = kConnected \/ cn_state c = kDisconnecting) /\ cn_registered c = true /\ cn_callbacks c = [true]
  | PClosed => cn_state c = kDisconnected /\ cn_registered c = true /\ cn_callbacks c = [true; false] /\ cn_loop c <> baseLoop
  | PRemoved => cn_state c = kDisconnected /\ cn_registered c = true /\ cn_callbacks c = [true; false]
  | PGone => cn_state c = kDisconnected /\ cn_registered c = false /\ cn_callbacks c = [true; false]
  end.

Definition in_table (ph : Phase) : bool := match ph with PNew | PUp | PClosed => true | _ => false end.

(** The functors about connection [i] in the queue of loop [l]. *)
Definition waits (ph : Phase) (loop : loop_id) (i : nat) (l : loop_id) : list Task :=
  match ph with
  | PNew => if decide (l = loop) then [Establish i] else []
  | PClosed => if decide (l = baseLoop) then [Remove i] else []
  | PRemoved => if decide (l = loop) then [Destroy i] else []
  | PUp | PGone => []
  end.

Definition about (i : nat) (q : list Task) : list Task := filter (fun t => task_conn t = i) q.
Definition queues_about (i : nat) (f : loop_id -> list Task) (s : TcpServer) : Prop :=
  forall l q, ts_queues s !! l = Some q -> about i q = f l.

Definition conn_ok (i : nat) (c : Conn) (s : TcpServer) : Prop :=
  exists ph, in_phase ph c /\ ts_connections s !! cn_name c = (if in_table ph then Some i else None) /\
    queues_about i (waits ph (cn_loop c) i) s.

(** The loop of the [i]-th connection of a server with [n] threads. *)
Definition loopOf (n i : nat) : loop_id := if decide (n = 0%nat) then baseLoop else S (i mod n).

Record pool_ok (n : nat) (s : TcpServer) : Prop := {
  po_threads : lp_numThreads (ts_pool s) = Z.of_nat n;
  po_queues : length (ts_queues s) = S n;
  po_started : if lp_started (ts_pool s) then ts_started s = 1 /\ lp_loops (ts_pool s) = map S (seq 0 n)
               else ts_started s = 0 /\ ts_listenning s = false /\ ts_conns s = [] /\ lp_loops (ts_pool s) = [];
  po_next : lp_next (ts_pool s) = if decide (n = 0%nat) then 0 else Z.of_nat (length (ts_conns s) mod n);
}.

Record server_ok (n : nat) (s : TcpServer) : Prop := {
  so_alive : ts_alive s = true;
  so_pool : pool_ok n s;
  so_id : ts_nextConnId s = lenZ (ts_conns s) + 1;
  so_conns : forall i c, ts_conns s !! i = Some c ->
    cn_loop c = loopOf n i /\ cn_name c = connName name ipPort (Z.of_nat i + 1) /\ conn_ok i c s;
  so_table : forall x i, ts_connections s !! x = Some i -> exists c, ts_conns s !! i = Some c /\ cn_name c = x;
  so_tasks : forall l q t, ts_queues s !! l = Some q -> t ∈ q -> (task_conn t < length (ts_conns s))%nat;
}.

(** ** Queues *)

Lemma about_snoc i q t : about i (q ++ [t]) = about i q ++ (if decide (task_conn t = i) then [t] else []).
Proof. unfold about. rewrite filter_app, filter_cons, filter_nil. done. Qed.

Lemma about_cons i q t : about i (t :: q) = (if decide (task_conn t = i) then [t] else []) ++ about i q.
Proof. unfold about. rewrite filter_cons. by case_decide. Qed.

Lemma queueTask_about l t i f s : queues_about i f s ->
  queues_about i (fun k => f k ++ (if decide (task_conn t = i /\ k = l) then [t] else [])) (queueTask l t s).
Proof.
  intros H k q. cbn [queueTask set_queues ts_queues]. intros Hk. destruct (decide (k = l)) as [->|Hn].
  - rewrite list_lookup_alter_eq in Hk. apply fmap_Some in Hk as (q0 & Hq & ->). rewrite about_snoc, (H _ _ Hq).
    do 2 case_decide; naive_solver.
  - rewrite list_lookup_alter_ne in Hk by done. rewrite (H _ _ Hk). rewrite decide_False by naive_solver. by rewrite app_nil_r.
Qed.

Lemma pop_about l t q0 i f s : ts_queues s !! l = Some (t :: q0) -> queues_about i f s ->
  queues_about i (fun k => if decide (task_conn t = i /\ k = l) then drop 1 (f k) else f k) (set_queues (<[l := q0]> (ts_queues s)) s).
Proof.
  intros Hl H k q. cbn [set_queues ts_queues]. intros Hk. destruct (decide (k = l)) as [->|Hn].
  - rewrite list_lookup_insert_eq in Hk by (by eapply lookup_lt_Some). injection Hk as <-.
    pose proof (H _ _ Hl) as Hf. rewrite about_cons in Hf. destruct (decide (task_conn t = i)) as [E|E].
    + rewrite decide_True by done. by rewrite <- Hf.
    + rewrite decide_False by naive_solver. done.
  - rewrite list_lookup_insert_ne in Hk by done. rewrite decide_False by naive_solver. by apply H.
Qed.

Lemma queues_about_ext i f g s : queues_about i f s -> (forall l, f l = g l) -> queues_about i g s.
Proof. intros H E l q Hl. rewrite <- E. by apply H. Qed.

(** ** One connection changes *)

(** [s'] is [s] but for connection [i], its entry of the table and the functors
    about it. *)
Record changes_only (i : nat) (c c' : Conn) (s s' : TcpServer) : Prop := {
  ch_before : ts_conns s !! i = Some c;
  ch_conns : ts_conns s' = <[i := c']> (ts_conns s);
  ch_name : cn_name c' = cn_name c;
  ch_loop : cn_loop c' = cn_loop c;
  ch_rest : ts_alive s' = ts_alive s /\ ts_started s' = ts_started s /\ ts_listenning s' = ts_listenning s /\
            ts_pool s' = ts_pool s /\ ts_nextConnId s' = ts_nextConnId s /\ length (ts_queues s') = length (ts_queues s);
  ch_table : forall x, x <> cn_name c -> ts_connections s' !! x = ts_connections s !! x;
  ch_queues : forall j f, j <> i -> queues_about j f s -> queues_about j f s';
  ch_tasks : forall l q t, ts_queues s' !! l = Some q -> t ∈ q -> task_conn t = i \/ exists q', ts_queues s !! l = Some q' /\ t ∈ q';
}.

Lemma names_distinct n s i j c d : server_ok n s -> few s -> ts_conns s !! i = Some c -> ts_conns s !! j = Some d ->
  cn_name c = cn_name d -> i = j.
Proof using Hip.
  intros H Hf Hi Hj E. destruct (so_conns n s H _ _ Hi) as (_ & Ei & _), (so_conns n s H _ _ Hj) as (_ & Ej & _).
  rewrite Ei, Ej in E. apply lookup_lt_Some in Hi, Hj. unfold few, lenZ in Hf. apply connName_inj in E; lia.
Qed.

Lemma changes_ok n i c c' s s' : server_ok n s -> few s -> changes_only i c c' s s' -> conn_ok i c' s' -> server_ok n s'.
Proof using Hip.
  intros H Hf [Hb Hc Hn Hl (R1 & R2 & R3 & R4 & R5 & R6) Ht Hq Hts] Hok. pose proof H as [A [P1 P2 P3 P4] I C T K].
  assert (length (ts_conns s') = length (ts_conns s)) as Hlen by (rewrite Hc; apply length_insert).
  assert (forall j, j <> i -> ts_conns s' !! j = ts_conns s !! j) as Hoth by (intros j Hj; rewrite Hc; by apply list_lookup_insert_ne).
  assert (ts_conns s' !! i = Some c') as Hi by (rewrite Hc; apply list_lookup_insert_eq; by eapply lookup_lt_Some).
  constructor.
  - congruence.
  - constructor; rewrite ?R4, ?R6, ?Hlen; try done. destruct (lp_started (ts_pool s)); [by rewrite R2|].
    destruct P3 as (? & ? & Hnil & ?). by rewrite Hnil in Hb.
  - rewrite R5, I. unfold lenZ. by rewrite Hlen.
  - intros j d Hj. destruct (decide (j = i)) as [->|Hji].
    + rewrite Hi in Hj. injection Hj as <-. destruct (C _ _ Hb) as (L1 & L2 & _). by rewrite Hl, Hn.
    + rewrite Hoth in Hj by done. destruct (C _ _ Hj) as (L1 & L2 & ph & Hp & Htb & Hqa). split_and!; [done..|].
      exists ph. split_and!; [done| |by apply Hq]. rewrite Ht; [done|]. intros E. apply Hji. by eapply names_distinct.
  - intros x j Hx. destruct (decide (x = cn_name c)) as [->|Hxn].
    + destruct Hok as (ph & _ & Htb & _). rewrite Hn, Hx in Htb. destruct (in_table ph); [|done]. injection Htb as ->. by exists c'.
    + rewrite Ht in Hx by done. destruct (T _ _ Hx) as (d & Hd & Ed). destruct (decide (j = i)) as [->|Hji].
      * exists c'. split; [done|]. congruence.
      * exists d. by rewrite Hoth.
  - intros l q t Hlq Hin. rewrite Hlen. destruct (Hts _ _ _ Hlq Hin) as [->|(q' & H1 & H2)]; [by eapply lookup_lt_Some|by eapply K].
Qed.

(** The three ways a state changes, as changes of one connection. *)
Lemma changes_conn i c c' s : ts_conns s !! i = Some c -> cn_name c' = cn_name c -> cn_loop c' = cn_loop c ->
  changes_only i c c' s (set_conn i c' s).
Proof. intros. constructor; try done. intros l q t Hl Hin. right. by exists q. Qed.

Lemma changes_queue i c c' l t s s' : changes_only i c c' s s' -> task_conn t = i -> changes_only i c c' s (queueTask l t s').
Proof.
  intros [] Ht. constructor; try done.
  - cbn. rewrite length_alter. tauto.
  - intros j f Hj Hq. eapply queues_about_ext; [apply queueTask_about; by apply ch_queues0|]. intros k. cbn.
    rewrite decide_False by naive_solver. by rewrite app_nil_r.
  - intros k q u Hk Hin. cbn in Hk. destruct (decide (k = l)) as [->|Hkl].
    + rewrite list_lookup_alter_eq in Hk. apply fmap_Some in Hk as (q0 & Hq0 & ->). apply elem_of_app in Hin as [Hin|Hin].
      * by eapply ch_tasks0.
      * apply list_elem_of_singleton in Hin as ->. by left.
    + rewrite list_lookup_alter_ne in Hk by done. by eapply ch_tasks0.
Qed.

Lemma changes_pop i c c' l t q s s' : ts_queues s !! l = Some (t :: q) -> task_conn t = i ->
  changes_only i c c' (set_queues (<[l := q]> (ts_queues s)) s) s' -> changes_only i c c' s s'.
Proof.
  intros Hl Ht []. constructor; try done.
  - cbn in ch_rest0. rewrite length_insert in ch_rest0. tauto.
  - intros j f Hj Hq. apply ch_queues0; [done|]. eapply queues_about_ext; [by eapply pop_about|]. intros k. cbn.
    rewrite decide_False by naive_solver. done.
  - intros k q0 u Hk Hin. destruct (ch_tasks0 _ _ _ Hk Hin) as [?|(q' & Hq' & Hin')]; [by left|right]. cbn in Hq'.
    destruct (decide (k = l)) as [->|Hkl].
    + rewrite list_lookup_insert_eq in Hq' by (by eapply lookup_lt_Some). injection Hq' as <-. exists (t :: q). split; [done|by right].
    + rewrite list_lookup_insert_ne in Hq' by done. by exists q'.
Qed.

Lemma changes_table i c c' m s s' : changes_only i c c' s s' -> (forall x, x <> cn_name c -> m !! x = ts_connections s' !! x) ->
  changes_only i c c' s (set_connections m s').
Proof. intros [] Hm. constructor; try done. intros x Hx. cbn. by rewrite Hm, ch_table0. Qed.

(** ** The operations *)

(** What waits for a connection, after one of its functors was taken or none. *)
Definition idle (i : nat) (s : TcpServer) : Prop := queues_about i (fun _ => []) s.

Lemma queueTask_idle i l t s : idle i s -> task_conn t = i -> queues_about i (fun k => if decide (k = l) then [t] else []) (queueTask l t s).
Proof. intros H Ht. eapply queues_about_ext; [by apply queueTask_about|]. intros k. cbn. do 2 case_decide; naive_solver. Qed.

(** [removeConnectionInLoop] of a closed connection: its only queued functor is
    then [connectDestroyed]. *)
Lemma connRemove_ok i c c0 s0 s : changes_only i c0 c s0 s -> ts_alive s = true -> cn_state c = kDisconnected -> cn_registered c = true ->
  cn_callbacks c = [true; false] -> ts_connections s !! cn_name c = Some i -> idle i s ->
  exists s', removeConnectionInLoop i s = Some s' /\ changes_only i c0 c s0 s' /\ conn_ok i c s'.
Proof.
  intros Hch Ha Hs Hr Hcb Ht Hq. unfold removeConnectionInLoop. rewrite Ha. cbn [negb].
  assert (ts_conns s !! i = Some c) as Hi.
  { destruct Hch. rewrite ch_conns0. apply list_lookup_insert_eq. by eapply lookup_lt_Some. }
  rewrite Hi. cbn [mbind option_bind]. rewrite bool_decide_true by (by rewrite Ht). cbn [negb].
  eexists. split; [done|]. split.
  - apply changes_queue; [|done]. apply changes_table; [done|]. intros x Hx. rewrite lookup_delete_ne; [done|].
    destruct Hch. by rewrite ch_name0.
  - exists PRemoved. split_and!; [done|cbn; by rewrite lookup_delete_eq|]. cbn [waits]. by apply queueTask_idle.
Qed.

(** At most one functor waits for a connection. *)
Lemma waits_once ph loop i l t r k : waits ph loop i l = t :: r -> task_conn t = i ->
  (if decide (task_conn t = i /\ k = l) then drop 1 (waits ph loop i k) else waits ph loop i k) = [].
Proof.
  intros Hw Ht. destruct (decide (k = l)) as [->|Hk].
  - rewrite decide_True by done. destruct ph; cbn [waits]; try done; by case_decide.
  - rewrite decide_False by (by intros [_ ?]). destruct ph; cbn [waits] in *; try done; repeat case_decide; congruence.
Qed.

Lemma runNext_ok n l t q s : server_ok n s -> few s -> ts_queues s !! l = Some (t :: q) ->
  exists s', runNext l s = Some s' /\ server_ok n s'.
Proof using Hip.
  intros H Hf Hl. unfold runNext. rewrite Hl. set (s1 := set_queues _ s).
  assert (task_conn t < length (ts_conns s))%nat as Ht by (eapply so_tasks; [exact H|exact Hl|by left]).
  apply lookup_lt_is_Some in Ht as [c Hc]. remember (task_conn t) as i eqn:Ei. symmetry in Ei.
  destruct (so_conns n s H i c Hc) as (_ & _ & ph & Hp & Htb & Hq).
  assert (waits ph (cn_loop c) i l = t :: about i q) as Hw by (rewrite <- (Hq _ _ Hl), about_cons; by rewrite decide_True).
  assert (idle i s1) as Hidle.
  { eapply queues_about_ext; [by apply (pop_about l t q)|]. intros k. cbn [fst]. by apply (waits_once ph (cn_loop c) i l t (about i q)). }
  destruct ph; cbn [waits] in Hw; try done; (case_decide as Hll; [|done]); injection Hw as <- _; cbn [runTask].
  - destruct Hp as (S1 & S2 & S3 & S4). change (ts_conns s1) with (ts_conns s). rewrite Hc. cbn [mbind option_bind].
    unfold connEstablish. rewrite decide_True by done. cbn [mbind option_bind]. eexists. split; [done|].
    eapply (changes_ok n i c); [done..| |].
    + eapply changes_pop; [exact Hl|done|]. by apply changes_conn.
    + exists PUp. split_and!; [cbn; rewrite S3; by split_and!; [left|..]|done|]. exact Hidle.
  - destruct Hp as (S1 & S2 & S3 & S4).
    destruct (connRemove_ok i c c s1 s1) as (s' & E' & Hch & Hok); try done.
    + assert (s1 = set_conn i c s1) as E1 by (unfold set_conn; rewrite list_insert_id by done; by destruct s).
      rewrite E1 at 2. by apply changes_conn.
    + apply H.
    + exists s'. split; [done|]. eapply (changes_ok n i c); [done..| |done]. by eapply changes_pop.
  - destruct Hp as (S1 & S2 & S3). change (ts_conns s1) with (ts_conns s). rewrite Hc. cbn [mbind option_bind].
    unfold connDestroy. rewrite (decide_False (P := cn_state c = kConnected)) by congruence. rewrite decide_True by done. cbn [mbind option_bind].
    eexists. split; [done|]. eapply (changes_ok n i c); [done..| |].
    + eapply changes_pop; [exact Hl|done|]. by apply changes_conn.
    + exists PGone. split_and!; [done|done|]. exact Hidle.
Qed.

Lemma close_ok n i c s : server_ok n s -> few s -> ts_conns s !! i = Some c -> cn_state c = kConnected \/ cn_state c = kDisconnecting ->
  exists s', closeConnection i s = Some s' /\ server_ok n s'.
Proof using Hip.
  intros H Hf Hc Hs. unfold closeConnection. rewrite Hc. cbn [mbind option_bind]. unfold connClose. rewrite decide_True by done.
  set (c' := mkConn (cn_name c) (cn_loop c) kDisconnected (cn_registered c) (cn_callbacks c ++ [false])).
  cbn [mbind option_bind]. unfold removeConnection. change (ts_alive (set_conn i c' s)) with (ts_alive s). rewrite (so_alive n s H).
  destruct (so_conns n s H i c Hc) as (_ & _ & ph & Hp & Htb & Hq).
  assert (ph = PUp) as -> by (destruct ph, Hp as [Hp _], Hs; try done; congruence). destruct Hp as (_ & S2 & S3).
  set (s1 := set_conn i c' s). assert (changes_only i c c' s s1) as Hch by (by apply changes_conn).
  change (cn_loop c') with (cn_loop c).
  assert (cn_callbacks c' = [true; false]) as Hcb by (unfold c'; cbn; by rewrite S3).
  unfold runInLoop. destruct (decide (cn_loop c = baseLoop)) as [Hb|Hb].
  - cbn [runTask]. destruct (connRemove_ok i c' c s s1) as (s' & E' & Hch' & Hok); try done; [apply H|].
    exists s'. split; [done|]. by eapply changes_ok.
  - eexists. split; [done|]. eapply (changes_ok n i c c'); [done..|by apply changes_queue|].
    exists PClosed. split_and!; [done|done|]. cbn [waits]. by apply queueTask_idle.
Qed.

Lemma shutdown_ok n i c s : server_ok n s -> few s -> ts_conns s !! i = Some c -> server_ok n (set_conn i (connShutdown c) s).
Proof using Hip.
  intros H Hf Hc. destruct (so_conns n s H i c Hc) as (_ & _ & ph & Hp & Htb & Hq).
  assert (cn_name (connShutdown c) = cn_name c /\ cn_loop (connShutdown c) = cn_loop c) as [E1 E2] by (unfold connShutdown; by case_decide).
  eapply (changes_ok n i c); [done..|by apply changes_conn|]. exists ph. rewrite E1, E2. split_and!; [|done..].
  unfold connShutdown. case_decide as Hd; [|done]. destruct ph; cbn in *; try (destruct Hp; congruence). destruct Hp as (_ & ? & ?). split_and!; [by right|done..].
Qed.

(** Nothing waits for a connection that does not exist. *)
Lemma unborn_idle n s : server_ok n s -> idle (length (ts_conns s)) s.
Proof.
  intros H l q Hl. apply elem_of_nil_inv. intros t [E Hin]%list_elem_of_filter.
  pose proof (so_tasks n s H _ _ _ Hl Hin). lia.
Qed.

Lemma fresh_name n s : server_ok n s -> few s -> ts_connections s !! connName name ipPort (ts_nextConnId s) = None.
Proof using Hip.
  intros H Hf. destruct (ts_connections s !! _) as [j|] eqn:Ej; [|done]. exfalso.
  destruct (so_table n s H _ _ Ej) as (d & Hd & En). destruct (so_conns n s H _ _ Hd) as (_ & Ed & _).
  rewrite Ed, (so_id n s H) in En. apply lookup_lt_Some in Hd. unfold few, lenZ in *. apply connName_inj in En; lia.
Qed.

(** A round of the pool. *)
Lemma getNextLoop_ok n s : pool_ok n s -> lp_started (ts_pool s) = true ->
  exists p, getNextLoop (ts_pool s) = Some (loopOf n (length (ts_conns s)), p) /\ lp_numThreads p = lp_numThreads (ts_pool s) /\
    lp_started p = true /\ lp_loops p = lp_loops (ts_pool s) /\
    lp_next p = if decide (n = 0%nat) then 0 else Z.of_nat (S (length (ts_conns s)) mod n).
Proof.
  intros [P1 P2 P3 P4] Hs. rewrite Hs in P3. destruct P3 as [_ P3]. unfold getNextLoop, loopOf. rewrite Hs, P3. cbn [negb].
  destruct (decide (n = 0%nat)) as [->|Hn]; [by exists (ts_pool s)|]. set (m := length (ts_conns s)) in *.
  assert (m mod n < n)%nat as Hm by (by apply Nat.mod_upper_bound).
  assert (rd (map S (seq 0 n)) (lp_next (ts_pool s)) = Some (S (m mod n))) as Er.
  { unfold rd. rewrite P4. destruct (Z.ltb_spec (Z.of_nat (m mod n)) 0); [lia|]. rewrite Nat2Z.id, list_lookup_fmap, lookup_seq_lt by done. done. }
  assert (lenZ (map S (seq 0 n)) = Z.of_nat n) as El by (unfold lenZ; by rewrite length_map, length_seq).
  revert Er El. destruct (map S (seq 0 n)) as [|x r]; intros Er El; [by destruct n|]. change loop_id with nat. rewrite Er. cbn [mbind option_bind]. eexists. split; [done|].
  cbn [lp_numThreads lp_started lp_loops lp_next]. split_and!; try done. rewrite El, P4.
  rewrite <- Nat.add_1_r, <- Nat.Div0.add_mod_idemp_l. destruct (Z.leb_spec (Z.of_nat n) (Z.of_nat (m mod n) + 1)) as [Hle|Hlt].
  - assert (m mod n + 1 = n)%nat as -> by lia. by rewrite Nat.Div0.mod_same.
  - rewrite (Nat.mod_small (m mod n + 1)) by lia. lia.
Qed.

(** The connection [c] is appended, in phase [ph]; [s1] is the state in which it
    is in no loop's queue yet. *)
Lemma accepted_ok n s p c0 c ph s' : server_ok n s -> few s -> lp_started (ts_pool s) = true ->
  c0 = mkConn (connName name ipPort (ts_nextConnId s)) (loopOf n (length (ts_conns s))) kConnecting false [] ->
  lp_numThreads p = lp_numThreads (ts_pool s) -> lp_started p = true -> lp_loops p = lp_loops (ts_pool s) ->
  lp_next p = (if decide (n = 0%nat) then 0 else Z.of_nat (S (length (ts_conns s)) mod n)) ->
  changes_only (length (ts_conns s)) c0 c
    (mkServer (ts_alive s) (ts_started s) (ts_listenning s) p (u64 (ts_nextConnId s + 1))
       (<[cn_name c0 := length (ts_conns s)]> (ts_connections s)) (ts_conns s ++ [c0]) (ts_queues s)) s' ->
  ts_connections s' = <[cn_name c0 := length (ts_conns s)]> (ts_connections s) ->
  in_phase ph c -> in_table ph = true -> queues_about (length (ts_conns s)) (waits ph (cn_loop c) (length (ts_conns s))) s' ->
  server_ok n s'.
Proof using Hip.
  intros H Hf Hst E0 Q1 Q2 Q3 Q4 [B1 B2 B3 B4 (R1 & R2 & R3 & R4 & R5 & R6) _ B7 B8] Hm Hp Ht Hq.
  cbn [ts_alive ts_started ts_listenning ts_pool ts_nextConnId ts_queues ts_conns] in *.
  pose proof H as [A [P1 P2 P3 P4] I C T K]. set (i := length (ts_conns s)) in *. rewrite Hst in P3.
  assert (cn_name c0 = connName name ipPort (lenZ (ts_conns s) + 1)) as N0 by (by rewrite E0, <- I).
  assert (ts_conns s' = ts_conns s ++ [c]) as Ec by (rewrite B2, insert_app_r_alt by done; by rewrite Nat.sub_diag).
  constructor.
  - by rewrite R1.
  - constructor; rewrite ?R4, ?R6, ?Ec, ?length_app, ?Q1, ?Q2, ?Q3; try done; [by rewrite R2|].
    rewrite Q4. fold i. cbn [length]. by rewrite Nat.add_1_r.
  - rewrite R5, I, Ec. unfold few, lenZ in *. rewrite uwrap_small, length_app by lia. cbn. lia.
  - intros j d Hj. rewrite Ec in Hj. apply lookup_app_Some in Hj as [Hj|[Hlen Hj]].
    + destruct (C _ _ Hj) as (L1 & L2 & phj & Hpj & Htj & Hqj). split_and!; [done..|]. exists phj. split_and!; [done| |].
      * rewrite Hm, lookup_insert_ne; [done|]. intros E. apply lookup_lt_Some in Hj. rewrite L2, N0 in E.
        unfold few, lenZ in *. apply connName_inj in E; lia.
      * apply B7; [|exact Hqj]. apply lookup_lt_Some in Hj. fold i in Hj. lia.
    + apply list_lookup_singleton_Some in Hj as [Hj <-]. assert (j = i) as -> by (fold i in Hlen, Hj; lia).
      rewrite B4, B3. split_and!; [by rewrite E0|by rewrite N0|]. exists ph. split_and!; [done| |exact Hq].
      by rewrite Ht, Hm, B3, lookup_insert_eq.
  - intros x j Hx. rewrite Hm in Hx. rewrite Ec. destruct (decide (x = cn_name c0)) as [->|Hn].
    + rewrite lookup_insert_eq in Hx. injection Hx as <-. exists c. rewrite lookup_app_r, Nat.sub_diag by done. by split.
    + rewrite lookup_insert_ne in Hx by done. destruct (T _ _ Hx) as (d & Hd & <-). exists d. split; [|done]. by apply lookup_app_l_Some.
  - intros l q t Hlq Hin. rewrite Ec, length_app. cbn. destruct (B8 _ _ _ Hlq Hin) as [->|(q' & H1 & H2)]; [fold i; lia|].
    specialize (K _ _ _ H1 H2). lia.
Qed.

Lemma accept_ok n fd s : server_ok n s -> few s -> ts_listenning s = true ->
  exists s', handleAccept name ipPort fd s = Some s' /\ server_ok n s'.
Proof using Hip.
  intros H Hf Hl. unfold handleAccept. destruct (0 <? fd); [|by exists s]. pose proof (so_pool n s H) as P.
  assert (lp_started (ts_pool s) = true) as Hst.
  { pose proof (po_started n s P) as P3. destruct (lp_started _); [done|]. destruct P3 as (_ & ? & _). congruence. }
  destruct (getNextLoop_ok n s P Hst) as (p & Ep & Q1 & Q2 & Q3 & Q4).
  unfold newConnection. rewrite Ep. cbn [mbind option_bind]. set (i := length (ts_conns s)) in *.
  set (c0 := mkConn _ _ _ _ _). set (s1 := mkServer _ _ _ _ _ _ _ _).
  assert (ts_conns s1 !! i = Some c0) as Hi by (cbn; by rewrite lookup_app_r, Nat.sub_diag by done).
  assert (changes_only i c0 c0 s1 s1) as Hch.
  { assert (s1 = set_conn i c0 s1) as E1 by (unfold set_conn; by rewrite list_insert_id). rewrite E1 at 2. by apply changes_conn. }
  pose proof (unborn_idle n s H) as Hidle. unfold runInLoop. destruct (decide (baseLoop = loopOf n i)) as [Hb|Hb].
  - cbn [runTask]. rewrite Hi. cbn [mbind option_bind]. unfold connEstablish. rewrite decide_True by done. cbn [mbind option_bind].
    eexists. split; [done|]. eapply (accepted_ok n s p c0 _ PUp); try done; [by apply changes_conn|by split_and!; [left|..]].
  - eexists. split; [done|]. eapply (accepted_ok n s p c0 c0 PNew); try done; [by apply changes_queue|].
    cbn [waits]. by apply queueTask_idle.
Qed.

(** ** Reachable states *)

Lemma newServer_ok threads s : newServer threads = Some s -> 0 <= threads /\ server_ok (Z.to_nat threads) s.
Proof using Type.
  clear Hip. unfold newServer, setThreadNum. destruct (Z.leb_spec 0 threads) as [Ht|Ht]; [|done]. intros [= <-]. split; [done|].
  constructor; try done.
  - constructor; cbn; [lia|by rewrite length_replicate| |by case_decide; [|rewrite Nat.Div0.mod_0_l]]. done.
  - intros l q t Hl Hin. change (replicate (S (Z.to_nat threads)) ([] : list Task) !! l = Some q) in Hl.
    apply lookup_replicate_1 in Hl as [-> _]. by apply not_elem_of_nil in Hin.
Qed.

Lemma start_ok n s : server_ok n s -> exists s', start name s = Some s' /\ server_ok n s'.
Proof.
  intros [A [P1 P2 P3 P4] I C T K]. unfold start, poolStart. destruct (lp_started (ts_pool s)) eqn:Es.
  - destruct P3 as [E1 E2]. rewrite E1. cbn. eexists. split; [done|]. constructor; try done. constructor; try done. cbn. by rewrite Es.
  - destruct P3 as (-> & -> & E1 & E2). cbn. eexists. split; [done|]. constructor; try done.
    constructor; cbn; try done. split; [done|]. rewrite P1, E2. cbn. by rewrite Nat2Z.id.
Qed.

Lemma serverStep_inv n e s : server_ok n s -> few s -> server_may s e -> e <> SvDestroy ->
  exists s', serverStep name ipPort table_order e s = Some s' /\ server_ok n s'.
Proof using Hip.
  intros H Hf Hm He. destruct e as [|fd|l|i|i|]; cbn [serverStep server_may] in *; try done.
  - by apply start_ok.
  - destruct Hm. by apply accept_ok.
  - destruct Hm as (t & q & Hl). by eapply runNext_ok.
  - apply lookup_lt_is_Some in Hm as [c Hc]. rewrite Hc. cbn. eexists. split; [done|]. by apply shutdown_ok.
  - destruct Hm as (c & Hc & Hs). by eapply close_ok.
Qed.
End Inv.
