(* ===== verification/ServerProps.v ===== *)
(** * A server and its loops: what it promises

    A living server and its connections go through any interleaving of their
    loops without a failed assertion, connections are spread evenly, and what
    the destructor of the server needs. *)

From stdpp Require Import base list numbers gmap strings.
From Stdlib Require Import ZArith Lia.
From Stdlib Require String.
From S2P Require Import Prelude CText Tcp Server ServerInv.
Local Open Scope Z_scope.

Section Props.
Context (name ipPort : string) (table_order : gmap string nat -> list (string * nat)).
Context (Hip : (String.length ipPort <= 21)%nat) (Horder : forall m, table_order m ≡ₚ map_to_list m).

(** ** Reachable states *)

Notation step := (server_step name ipPort table_order).
Notation reachable := (server_reachable name ipPort table_order).

Lemma runTask_frame t s s' : runTask t s = Some s' ->
  ts_alive s' = ts_alive s /\ length (ts_conns s') = length (ts_conns s).
Proof.
  destruct t as [i|i|i]; cbn [runTask].
  - destruct (ts_conns s !! i) as [c|]; [|done]. cbn. destruct (connEstablish c); [|done]. intros [= <-]. cbn. by rewrite length_insert.
  - unfold removeConnectionInLoop. destruct (ts_alive s) eqn:Ea; [|done]. cbn [negb]. destruct (ts_conns s !! i) as [c|]; [|done].
    cbn [mbind option_bind]. case_match; [done|]. by intros [= <-].
  - destruct (ts_conns s !! i) as [c|]; [|done]. cbn. destruct (connDestroy c); [|done]. intros [= <-]. cbn. by rewrite length_insert.
Qed.

Lemma runInLoop_frame here l t s s' : runInLoop here l t s = Some s' ->
  ts_alive s' = ts_alive s /\ length (ts_conns s') = length (ts_conns s).
Proof. unfold runInLoop. case_decide; [apply runTask_frame|]. by intros [= <-]. Qed.

(** Only the destructor ends a server, and connections are not forgotten. *)
Lemma serverStep_frame e s s' : serverStep name ipPort table_order e s = Some s' -> e <> SvDestroy ->
  ts_alive s' = ts_alive s /\ (length (ts_conns s) <= length (ts_conns s'))%nat.
Proof.
  intros Es He. destruct e as [|fd|l|i|i|]; cbn [serverStep] in Es; try done.
  - unfold start in Es. destruct (ts_started s =? 0); [|by injection Es as <-]. destruct (poolStart _ _); [|done].
    cbn in Es. destruct (ts_listenning s); [done|]. by injection Es as <-.
  - unfold handleAccept in Es. destruct (0 <? fd); [|by injection Es as <-]. unfold newConnection in Es.
    destruct (getNextLoop _) as [[l p]|]; [|done]. apply runInLoop_frame in Es as [E1 E2]. cbn in *. rewrite length_app in E2. split; [done|lia].
  - unfold runNext in Es. destruct (ts_queues s !! l) as [[|t q]|]; try by injection Es as <-.
    apply runTask_frame in Es as [E1 E2]. cbn in *. split; [done|lia].
  - destruct (ts_conns s !! i) as [c|]; [|done]. injection Es as <-. cbn. rewrite length_insert. by split.
  - unfold closeConnection in Es. destruct (ts_conns s !! i) as [c|]; [|done]. cbn [mbind option_bind] in Es. destruct (connClose c); [|done].
    cbn [mbind option_bind] in Es. unfold removeConnection in Es. destruct (ts_alive (set_conn i c0 s)) eqn:Ea; [|done].
    apply runInLoop_frame in Es as [E1 E2]. cbn in *. rewrite length_insert in E2. split; [done|lia].
Qed.

Lemma alive_steps s0 s : rtc step s0 s -> ts_alive s = true ->
  ts_alive s0 = true /\ (length (ts_conns s0) <= length (ts_conns s))%nat /\ forall n, server_ok name ipPort n s0 -> few s -> server_ok name ipPort n s.
Proof using Hip.
  induction 1 as [s|s0 s1 s (e & Hm & Es) Hr IH]; intros Ha; [done|]. destruct (IH Ha) as (A1 & L1 & K1).
  destruct (decide (e = SvDestroy)) as [->|He].
  { cbn in Es. unfold destroyServer in Es. destruct (destroyConnections _ _); [|done]. injection Es as <-. done. }
  destruct (serverStep_frame e s0 s1 Es He) as [E1 E2]. split_and!; [congruence|lia|]. intros n Hok Hf.
  assert (few s0) as Hf0 by (unfold few, lenZ in *; lia).
  destruct (serverStep_inv name ipPort table_order Hip n e s0 Hok Hf0 Hm He) as (s2 & E & Hok'). rewrite Es in E. injection E as <-. by apply K1.
Qed.

Lemma reachable_ok threads s : reachable threads s -> ts_alive s = true -> few s -> server_ok name ipPort (Z.to_nat threads) s.
Proof using Hip.
  intros (s0 & E0 & Hr) Ha Hf. destruct (newServer_ok name ipPort threads s0 E0) as [_ H0].
  by destruct (alive_steps s0 s Hr Ha) as (_ & _ & K); apply K.
Qed.

(** ** The destructor *)

(** A connection after the traversal of the destructor: established and not yet,
    with [connectDestroyed] queued behind; and as before. *)
Inductive DeadPhase := DNew | DUp | DDown | DGone.

Definition in_dead (ph : DeadPhase) (c : Conn) : Prop :=
  match ph with
  | DNew => in_phase PNew c
  | DUp => cn_state c = kConnected /\ cn_registered c = true /\ cn_callbacks c = [true]
  | DDown => in_phase PRemoved c
  | DGone => in_phase PGone c
  end.

Definition dead_waits (ph : DeadPhase) (loop : loop_id) (i : nat) (l : loop_id) : list Task :=
  match ph with
  | DNew => if decide (l = loop) then [Establish i; Destroy i] else []
  | DUp | DDown => if decide (l = loop) then [Destroy i] else []
  | DGone => []
  end.

Definition dead_conn (i : nat) (c : Conn) (s : TcpServer) : Prop :=
  exists ph, in_dead ph c /\ (cn_loop c < length (ts_queues s))%nat /\ queues_about i (dead_waits ph (cn_loop c) i) s.

(** A connection that is not being shut down or closed. *)
Definition settled (c : Conn) (i : nat) (s : TcpServer) : Prop :=
  exists ph, in_phase ph c /\ cn_state c <> kDisconnecting /\ (ph = PNew \/ ph = PUp) /\
    (cn_loop c < length (ts_queues s))%nat /\ queues_about i (waits ph (cn_loop c) i) s.

Record dead_ok (s : TcpServer) : Prop := {
  do_conns : forall i c, ts_conns s !! i = Some c -> dead_conn i c s;
  do_tasks : forall l q t, ts_queues s !! l = Some q -> t ∈ q -> (task_conn t < length (ts_conns s))%nat;
}.

Lemma queueTask_about_single i l t f g s : queues_about i f s -> task_conn t = i ->
  (forall k, g k = f k ++ (if decide (k = l) then [t] else [])) -> queues_about i g (queueTask l t s).
Proof.
  intros H Ht Hg. eapply queues_about_ext; [by apply queueTask_about|]. intros k. cbn. rewrite Hg. f_equal.
  do 2 case_decide; naive_solver.
Qed.

(** One connection of the traversal. *)
Lemma destroy_one_ok i c s : ts_conns s !! i = Some c -> settled c i s ->
  exists s' c', runInLoop baseLoop (cn_loop c) (Destroy i) s = Some s' /\ changes_only i c c' s s' /\ dead_conn i c' s'.
Proof.
  intros Hc (ph & Hp & Hs & Hph & Hlt & Hq). unfold runInLoop. destruct (decide (baseLoop = cn_loop c)) as [Hb|Hb].
  - assert (ph = PUp) as -> by (destruct Hph as [-> | ->]; [destruct Hp as (_ & _ & _ & ?); congruence|done]).
    destruct Hp as (Hst & S2 & S3). assert (cn_state c = kConnected) as S1 by (by destruct Hst). cbn [runTask]. rewrite Hc.
    cbn [mbind option_bind]. unfold connDestroy. rewrite (decide_True (P := cn_state c = kConnected)) by done.
    rewrite decide_True by done. cbn [mbind option_bind]. eexists _, _. split; [done|]. split; [by apply changes_conn|].
    exists DGone. split_and!; [split_and!; try done; cbn; by rewrite S3|done|exact Hq].
  - eexists _, c. split; [done|]. split.
    + apply changes_queue; [|done]. assert (s = set_conn i c s) as E1 by (unfold set_conn; rewrite list_insert_id by done; by destruct s).
      rewrite E1 at 2. by apply changes_conn.
    + destruct Hph as [-> | ->].
      * exists DNew. split_and!; [done|cbn; by rewrite length_alter|]. eapply queueTask_about_single; [exact Hq|done|]. intros k. cbn. by case_decide.
      * exists DUp. destruct Hp as (Hst & S2 & S3). split_and!; [split_and!; try done; by destruct Hst|cbn; by rewrite length_alter|].
        eapply queueTask_about_single; [exact Hq|done|]. intros k. done.
Qed.

Lemma loopOf_lt n i : (loopOf n i < S n)%nat.
Proof. unfold loopOf. case_decide; [unfold baseLoop; lia|]. pose proof (Nat.mod_upper_bound i n). lia. Qed.

(** The traversal: the connections still to come are settled, the others dead. *)
Lemma destroy_all_ok cs s : NoDup cs.*2 ->
  (forall i c, ts_conns s !! i = Some c -> if decide (i ∈ cs.*2) then settled c i s else dead_conn i c s) ->
  (forall x i, (x, i) ∈ cs -> is_Some (ts_conns s !! i)) ->
  (forall l q t, ts_queues s !! l = Some q -> t ∈ q -> (task_conn t < length (ts_conns s))%nat) ->
  exists s', destroyConnections cs s = Some s' /\ dead_ok s' /\ length (ts_conns s') = length (ts_conns s).
Proof.
  revert s. induction cs as [|[x i] cs IH]; intros s Hnd Hc Hex Ht; cbn [destroyConnections].
  - by exists s.
  - rewrite fmap_cons, NoDup_cons in Hnd. destruct Hnd as [Hni Hnd].
    destruct (Hex x i) as [c Hi]; [by left|]. rewrite Hi. cbn [mbind option_bind].
    pose proof (Hc i c Hi) as Hs. rewrite decide_True in Hs by (by left).
    destruct (destroy_one_ok i c s Hi Hs) as (s1 & c' & E1 & Hch & Hd). rewrite E1. cbn [mbind option_bind].
    pose proof Hch as [_ B2 B3 B4 (_ & _ & _ & _ & _ & B6) _ B7 B8].
    assert (length (ts_conns s1) = length (ts_conns s)) as El by (rewrite B2; apply length_insert).
    destruct (IH s1 Hnd) as (s' & E' & Hok & El'); [| | |exists s'; split_and!; [done..|congruence]].
    + intros j d Hj. destruct (decide (j = i)) as [->|Hji].
      * rewrite decide_False by done. rewrite B2, list_lookup_insert_eq in Hj by (by eapply lookup_lt_Some). by injection Hj as <-.
      * rewrite B2, list_lookup_insert_ne in Hj by done. specialize (Hc j d Hj). cbn [fmap list_fmap snd] in Hc.
        destruct (decide (j ∈ cs.*2)) as [Hin|Hin].
        -- rewrite decide_True in Hc by (by right). destruct Hc as (ph & K1 & K2 & K3 & K4 & K5). exists ph. rewrite B6. split_and!; try done. by apply B7.
        -- rewrite decide_False in Hc by (rewrite elem_of_cons; naive_solver). destruct Hc as (ph & K1 & K2 & K3). exists ph. rewrite B6. split_and!; try done. by apply B7.
    + intros y j Hin. destruct (Hex y j) as [d Hd']; [by right|]. apply lookup_lt_is_Some. rewrite El. by eapply lookup_lt_Some.
    + intros l q t Hl Hin. rewrite El. destruct (B8 _ _ _ Hl Hin) as [->|(q' & H1 & H2)]; [by eapply lookup_lt_Some|by eapply Ht].
Qed.

(** No connection is being shut down or closed. *)
Definition all_settled (s : TcpServer) : Prop :=
  (forall c, c ∈ ts_conns s -> cn_state c <> kDisconnecting) /\
  (forall l q i, ts_queues s !! l = Some q -> Remove i ∉ q).

Lemma destroyServer_ok n s : server_ok name ipPort n s -> few s -> all_settled s ->
  exists s', destroyServer table_order s = Some s' /\ dead_ok s' /\ ts_alive s' = false.
Proof using Hip Horder.
  intros H Hf [Hs Hr]. pose proof H as [A P I C T K]. unfold destroyServer.
  assert (forall x i, (x, i) ∈ table_order (ts_connections s) <-> ts_connections s !! x = Some i) as Hin.
  { intros x i. rewrite (Horder (ts_connections s)). apply elem_of_map_to_list. }
  assert (forall i c, ts_conns s !! i = Some c -> i ∈ (table_order (ts_connections s)).*2 <-> ts_connections s !! cn_name c = Some i) as Hi2.
  { intros i c Hc. rewrite list_elem_of_fmap. split.
    - intros ([x j] & -> & Hx). apply Hin in Hx. destruct (T _ _ Hx) as (d & Hd & <-). cbn in Hc. rewrite Hc in Hd. by injection Hd as <-.
    - intros Hx. exists (cn_name c, i). split; [done|]. by apply Hin. }
  destruct (destroy_all_ok (table_order (ts_connections s)) s) as (s' & E & [D1 D2] & El).
  - rewrite (Horder (ts_connections s)). apply NoDup_fmap_2_strong; [|apply NoDup_map_to_list].
    intros [x i] [y j] Hx%elem_of_map_to_list Hy%elem_of_map_to_list E. cbn in E. subst j.
    destruct (T _ _ Hx) as (c & Hc & <-), (T _ _ Hy) as (d & Hd & <-). congruence.
  - intros i c Hc. destruct (C _ _ Hc) as (L1 & L2 & ph & Hp & Ht & Hq).
    assert (cn_loop c < length (ts_queues s))%nat as Hlt by (rewrite L1, (po_queues _ _ P); apply loopOf_lt).
    case_decide as Hd; rewrite (Hi2 i c Hc), Ht in Hd.
    + exists ph. split_and!; [done|apply Hs; by eapply list_elem_of_lookup_2| |done..]. destruct ph; try done; [by left|by right|].
      exfalso. assert (is_Some (ts_queues s !! baseLoop)) as [q Hq0] by (apply lookup_lt_is_Some; rewrite (po_queues _ _ P); unfold baseLoop; lia).
      pose proof (Hq _ _ Hq0) as Hw. cbn in Hw. apply (Hr _ _ i Hq0).
      assert (Remove i ∈ about i q) as Hx by (rewrite Hw; by left). by apply list_elem_of_filter in Hx as [_ ?].
    + destruct ph; try by destruct Hd. * by exists DDown. * by exists DGone.
  - intros x i Hx. apply Hin, T in Hx as (c & Hc & _). by exists c.
  - done.
  - rewrite E. eexists. split; [done|]. split; [|done]. by constructor.
Qed.

(** A loop goes on after the destructor. *)
Lemma dead_next_ok l t q s : dead_ok s -> ts_queues s !! l = Some (t :: q) -> exists s', runNext l s = Some s' /\ dead_ok s'.
Proof.
  intros [D1 D2] Hl. unfold runNext. rewrite Hl. set (s1 := set_queues _ s).
  assert (task_conn t < length (ts_conns s))%nat as Ht by (eapply D2; [exact Hl|by left]).
  apply lookup_lt_is_Some in Ht as [c Hc]. remember (task_conn t) as i eqn:Ei. symmetry in Ei.
  destruct (D1 i c Hc) as (ph & Hp & Hlt & Hq).
  assert (dead_waits ph (cn_loop c) i l = t :: about i q) as Hw by (rewrite <- (Hq _ _ Hl), about_cons; by rewrite decide_True).
  assert (forall g, (forall k, g k = if decide (k = l) then drop 1 (dead_waits ph (cn_loop c) i k) else dead_waits ph (cn_loop c) i k) ->
    queues_about i g s1) as Hpop.
  { intros g Hg. eapply queues_about_ext; [by apply (pop_about l t q)|]. intros k. cbn beta. rewrite Hg.
    destruct (decide (k = l)); [by rewrite decide_True|by rewrite decide_False by naive_solver]. }
  assert (forall c' s', changes_only i c c' s s' -> dead_conn i c' s' -> dead_ok s') as Hend.
  { intros c' s' [_ B2 B3 B4 (_ & _ & _ & _ & _ & B6) _ B7 B8] Hd. assert (length (ts_conns s') = length (ts_conns s)) as El by (rewrite B2; apply length_insert).
    constructor.
    - intros j d Hj. rewrite B2 in Hj. destruct (decide (j = i)) as [->|Hji].
      + rewrite list_lookup_insert_eq in Hj by (by eapply lookup_lt_Some). by injection Hj as <-.
      + rewrite list_lookup_insert_ne in Hj by done. destruct (D1 j d Hj) as (ph' & K1 & K2 & K3). exists ph'. rewrite B6. split_and!; try done. by apply B7.
    - intros k q' u Hk Hin. rewrite El. destruct (B8 _ _ _ Hk Hin) as [->|(q0 & H1 & H2)]; [by eapply lookup_lt_Some|by eapply D2]. }
  assert (forall c', cn_name c' = cn_name c -> cn_loop c' = cn_loop c -> changes_only i c c' s (set_conn i c' s1)) as Hch.
  { intros c' E1 E2. eapply changes_pop; [exact Hl|done|]. by apply changes_conn. }
  destruct ph; cbn [dead_waits] in Hw; try done; (case_decide as Hll; [|done]); injection Hw as <- Hr; cbn [runTask];
    change (ts_conns s1) with (ts_conns s); rewrite Hc; cbn [mbind option_bind].
  - destruct Hp as (S1 & S2 & S3 & S4). unfold connEstablish. rewrite decide_True by done. cbn [mbind option_bind].
    eexists. split; [done|]. eapply Hend; [by apply Hch|]. exists DUp. split_and!; [split_and!; try done; cbn; by rewrite S3|cbn; by rewrite length_insert|].
    apply (Hpop (dead_waits DUp (cn_loop c) i)). intros k. rewrite Hll. cbn. by destruct (decide (k = cn_loop c)).
  - destruct Hp as (S1 & S2 & S3). unfold connDestroy. rewrite (decide_True (P := cn_state c = kConnected)) by done. rewrite decide_True by done.
    cbn [mbind option_bind]. eexists. split; [done|]. eapply Hend; [by apply Hch|]. exists DGone. split_and!; [split_and!; try done; cbn; by rewrite S3|cbn; by rewrite length_insert|].
    apply (Hpop (fun _ => [])). intros k. rewrite Hll. cbn. by destruct (decide (k = cn_loop c)).
  - destruct Hp as (S1 & S2 & S3). unfold connDestroy. rewrite (decide_False (P := cn_state c = kConnected)) by congruence. rewrite decide_True by done.
    cbn [mbind option_bind]. eexists. split; [done|]. eapply Hend; [by apply Hch|]. exists DGone. split_and!; [by split_and!|cbn; by rewrite length_insert|].
    apply (Hpop (fun _ => [])). intros k. rewrite Hll. cbn. by destruct (decide (k = cn_loop c)).
Qed.

(** The loops go on, in any order. *)
Fixpoint runLoops (ls : list loop_id) (s : TcpServer) : option TcpServer :=
  match ls with [] => Some s | l :: ls' => s ← runNext l s; runLoops ls' s end.

Lemma dead_loops_ok ls s : dead_ok s -> exists s', runLoops ls s = Some s' /\ dead_ok s'.
Proof.
  revert s. induction ls as [|l ls IH]; intros s H; [by exists s|]. cbn [runLoops].
  destruct (ts_queues s !! l) as [[|t q]|] eqn:El.
  - assert (runNext l s = Some s) as -> by (unfold runNext; by rewrite El). by apply IH.
  - destruct (dead_next_ok l t q s H El) as (s' & -> & H'). by apply IH.
  - assert (runNext l s = Some s) as -> by (unfold runNext; by rewrite El). by apply IH.
Qed.

Definition quiet (s : TcpServer) : Prop := forall l q, ts_queues s !! l = Some q -> q = [].

(** What a connection's phase says about it. *)
Lemma conn_life n s i c : server_ok name ipPort n s -> ts_conns s !! i = Some c ->
  (cn_callbacks c = [] \/ cn_callbacks c = [true] \/ cn_callbacks c = [true; false]) /\
  (forall l q, ts_queues s !! l = Some q -> (length (about i q) <= 1)%nat) /\
  (quiet s -> if decide (cn_state c = kDisconnected)
              then cn_registered c = false /\ cn_callbacks c = [true; false] /\ ts_connections s !! cn_name c = None
              else cn_registered c = true /\ cn_callbacks c = [true] /\ ts_connections s !! cn_name c = Some i).
Proof.
  intros H Hc. destruct (so_conns _ _ n s H i c Hc) as (L1 & _ & ph & Hp & Ht & Hq). split_and!.
  - destruct ph, Hp; naive_solver.
  - intros l q Hl. rewrite (Hq _ _ Hl). destruct ph; cbn [waits]; try case_decide; cbn; lia.
  - intros Hqu. assert (forall l, (l < length (ts_queues s))%nat -> waits ph (cn_loop c) i l = []) as Hnil.
    { intros l Hl. apply lookup_lt_is_Some in Hl as [q Hl]. rewrite <- (Hq _ _ Hl). by rewrite (Hqu _ _ Hl). }
    rewrite (po_queues n s (so_pool _ _ n s H)) in Hnil.
    assert (cn_loop c < S n)%nat as Hlt.
    { rewrite L1. apply loopOf_lt. }
    assert (baseLoop < S n)%nat as Hb by (unfold baseLoop; lia).
    destruct ph; cbn [waits] in Hnil; cbn [in_table] in Ht.
    + specialize (Hnil _ Hlt). by rewrite decide_True in Hnil.
    + destruct Hp as (Hs & ? & ?). rewrite decide_False by (destruct Hs; congruence). done.
    + specialize (Hnil _ Hb). by rewrite decide_True in Hnil.
    + specialize (Hnil _ Hlt). by rewrite decide_True in Hnil.
    + destruct Hp as (? & ? & ?). by rewrite decide_True.
Qed.

(** C26: as long as a server lives, no assertion of it or of its connections fails,
    however the loops take turns: a removed connection was in the table, and
    it is destroyed once, after it was established and reported up and
    down; when all loops are idle, every connection is either up and in the table
    or destroyed and in no table. *)
Theorem server_safe threads s e : server_reachable name ipPort table_order threads s -> ts_alive s = true -> few s ->
  server_may s e -> e <> SvDestroy ->
  exists s', serverStep name ipPort table_order e s = Some s' /\
    forall i c, ts_conns s' !! i = Some c ->
      (cn_callbacks c = [] \/ cn_callbacks c = [true] \/ cn_callbacks c = [true; false]) /\
      (forall l q, ts_queues s' !! l = Some q -> (length (about i q) <= 1)%nat) /\
      (quiet s' -> if decide (cn_state c = kDisconnected)
                   then cn_registered c = false /\ cn_callbacks c = [true; false] /\ ts_connections s' !! cn_name c = None
                   else cn_registered c = true /\ cn_callbacks c = [true] /\ ts_connections s' !! cn_name c = Some i).
Proof using Hip.
  intros Hr Ha Hf Hm He.
  destruct (serverStep_inv name ipPort table_order Hip _ e s (reachable_ok threads s Hr Ha Hf) Hf Hm He) as (s' & E & H).
  exists s'. split; [done|]. intros i c. by eapply conn_life.
Qed.

(** Connections are handed to the loops of the pool in turn, each stays in its
    loop, and no two of them ever share a name, so that none displaces another
    from the table. *)
Theorem server_spreads threads s : server_reachable name ipPort table_order threads s -> ts_alive s = true -> few s ->
  (forall i c, ts_conns s !! i = Some c ->
     cn_loop c = (if decide (threads = 0) then baseLoop else S (i mod Z.to_nat threads)) /\
     cn_name c = connName name ipPort (Z.of_nat i + 1)) /\
  (forall i j c d, ts_conns s !! i = Some c -> ts_conns s !! j = Some d -> cn_name c = cn_name d -> i = j) /\
  (forall x i, ts_connections s !! x = Some i -> exists c, ts_conns s !! i = Some c /\ cn_name c = x).
Proof using Hip.
  intros Hr Ha Hf. pose proof (reachable_ok threads s Hr Ha Hf) as H.
  assert (0 <= threads) as Ht by (destruct Hr as (s0 & E0 & _); by destruct (newServer_ok name ipPort _ _ E0)).
  split_and!.
  - intros i c Hc. destruct (so_conns _ _ _ _ H i c Hc) as (-> & -> & _). split; [|done]. unfold loopOf.
    destruct (decide (threads = 0)) as [->|Hn]; [done|]. by rewrite decide_False by lia.
  - intros i j c d. by eapply names_distinct.
  - apply H.
Qed.

(** A server can be destroyed when none of its connections is being shut down
    or closed: its destructor succeeds, the loops can then go on in any order,
    and when they are idle every connection has been destroyed and reported
    down. *)
Theorem server_destroyed threads s : server_reachable name ipPort table_order threads s -> ts_alive s = true -> few s -> all_settled s ->
  exists s', destroyServer table_order s = Some s' /\
    forall ls, exists s'', runLoops ls s' = Some s'' /\
      (quiet s'' -> forall i c, ts_conns s'' !! i = Some c ->
         cn_state c = kDisconnected /\ cn_registered c = false /\ cn_callbacks c = [true; false]).
Proof using Hip Horder.
  intros Hr Ha Hf Hs. destruct (destroyServer_ok _ s (reachable_ok threads s Hr Ha Hf) Hf Hs) as (s' & E & Hd & _).
  exists s'. split; [done|]. intros ls. destruct (dead_loops_ok ls s' Hd) as (s'' & E'' & [D1 D2]). exists s''. split; [done|].
  intros Hqu i c Hc. destruct (D1 i c Hc) as (ph & Hp & Hlt & Hq). apply lookup_lt_is_Some in Hlt as [q Hl]. pose proof (Hq _ _ Hl) as Hw. rewrite (Hqu _ _ Hl) in Hw.
  destruct ph; cbn [dead_waits] in Hw; try (by rewrite decide_True in Hw). done.
Qed.
End Props.

(** ** Servers at work *)

Definition allowed (s : TcpServer) (e : ServerEvent) : bool :=
  match e with
  | SvStart | SvDestroy => ts_alive s
  | SvAccept _ => ts_alive s && ts_listenning s
  | SvNext l => match ts_queues s !! l with Some (_ :: _) => true | _ => false end
  | SvShutdown i => bool_decide (i < length (ts_conns s))%nat
  | SvClose i => match ts_conns s !! i with
                 | Some c => bool_decide (cn_state c = kConnected \/ cn_state c = kDisconnecting)
                 | None => false
                 end
  end.

Lemma server_allowed_ok s e : allowed s e = true -> server_may s e.
Proof.
  destruct e as [|fd|l|i|i|]; cbn; try done.
  - by intros ?%andb_true_iff.
  - destruct (ts_queues s !! l) as [[|t q]|]; try done. by exists t, q.
  - apply bool_decide_eq_true.
  - destruct (ts_conns s !! i) as [c|]; [|done]. intros H%bool_decide_eq_true. by exists c.
Qed.

Section Demo.
Context (name ipPort : string).

Fixpoint serverRun (es : list ServerEvent) (s : TcpServer) : option TcpServer :=
  match es with
  | [] => Some s
  | e :: es' => if allowed s e then s' ← serverStep name ipPort map_to_list e s; serverRun es' s' else None
  end.

Lemma serverRun_steps es s s' : serverRun es s = Some s' -> rtc (server_step name ipPort map_to_list) s s'.
Proof.
  revert s. induction es as [|e es IH]; intros s; cbn; [by intros [= ->]|].
  destruct (allowed s e) eqn:Ea; [|done]. destruct (serverStep _ _ _ e s) as [s1|] eqn:Es; [|done]. intros Hr.
  eapply rtc_l; [|by apply IH]. exists e. split; [by apply server_allowed_ok|done].
Qed.

Definition served (threads : Z) (es : list ServerEvent) : option TcpServer := s ← newServer threads; serverRun es s.

Lemma served_reachable threads es s : served threads es = Some s -> server_reachable name ipPort map_to_list threads s.
Proof.
  unfold served. destruct (newServer threads) as [s0|] eqn:E0; [|done]. intros Hr. exists s0. split; [done|]. by eapply serverRun_steps.
Qed.
End Demo.

Definition demo_name : string := "ingest".
Definition demo_addr : string := "0.0.0.0:9000".
Definition at_work (threads : Z) (es : list ServerEvent) : TcpServer :=
  default (mkServer false 0 false newPool 0 ∅ [] []) (served demo_name demo_addr threads es).

(** Three connections over two loops, one of them closed and on its way out. *)
Definition three : list ServerEvent :=
  [SvStart; SvAccept 7; SvAccept 8; SvNext 1%nat; SvAccept 9; SvNext 2%nat; SvNext 1%nat; SvClose 1; SvNext 0%nat; SvNext 2%nat].

Lemma at_work_reachable threads es : ts_alive (at_work threads es) = true ->
  server_reachable demo_name demo_addr map_to_list threads (at_work threads es).
Proof. unfold at_work. destruct (served _ _ _ es) as [s|] eqn:E; [|done]. intros _. by eapply served_reachable. Qed.

Lemma server_safe_witness : exists s', serverStep demo_name demo_addr map_to_list (SvClose 0) (at_work 2 three) = Some s' /\
  forall i c, ts_conns s' !! i = Some c ->
    (cn_callbacks c = [] \/ cn_callbacks c = [true] \/ cn_callbacks c = [true; false]) /\
    (forall l q, ts_queues s' !! l = Some q -> (length (about i q) <= 1)%nat) /\
    (quiet s' -> if decide (cn_state c = kDisconnected)
                 then cn_registered c = false /\ cn_callbacks c = [true; false] /\ ts_connections s' !! cn_name c = None
                 else cn_registered c = true /\ cn_callbacks c = [true] /\ ts_connections s' !! cn_name c = Some i).
Proof.
  apply (server_safe demo_name demo_addr map_to_list ltac:(cbn; lia) 2);
    [by apply at_work_reachable; vm_compute|by vm_compute|by vm_compute|by apply server_allowed_ok; vm_compute|discriminate].
Defined.

Lemma server_spreads_witness :
  map cn_loop (ts_conns (at_work 2 three)) = [1; 2; 1]%nat /\
  (forall i c, ts_conns (at_work 2 three) !! i = Some c ->
     cn_loop c = (if decide (2 = 0) then baseLoop else S (i mod Z.to_nat 2)) /\
     cn_name c = connName demo_name demo_addr (Z.of_nat i + 1)) /\
  (forall i j c d, ts_conns (at_work 2 three) !! i = Some c -> ts_conns (at_work 2 three) !! j = Some d -> cn_name c = cn_name d -> i = j) /\
  (forall x i, ts_connections (at_work 2 three) !! x = Some i -> exists c, ts_conns (at_work 2 three) !! i = Some c /\ cn_name c = x).
Proof.
  split; [by vm_compute|]. apply (server_spreads demo_name demo_addr map_to_list ltac:(cbn; lia) 2);
    [by apply at_work_reachable; vm_compute|by vm_compute|by vm_compute].
Defined.

Lemma settled_intro s k sts : ts_queues s = replicate k [] -> map cn_state (ts_conns s) = sts ->
  Forall (fun x => x <> kDisconnecting) sts -> all_settled s.
Proof.
  intros Hq <- Hs. split.
  - intros c Hc. rewrite Forall_forall in Hs. apply Hs. by apply list_elem_of_fmap_2.
  - intros l q i Hl. rewrite Hq in Hl. apply lookup_replicate_1 in Hl as [-> _]. apply not_elem_of_nil.
Qed.

Lemma three_settled : all_settled (at_work 2 three).
Proof. eapply (settled_intro _ 3); [by vm_compute|vm_compute; reflexivity|by repeat constructor]. Qed.

Lemma server_destroyed_witness : exists s', destroyServer map_to_list (at_work 2 three) = Some s' /\
  forall ls, exists s'', runLoops ls s' = Some s'' /\
    (quiet s'' -> forall i c, ts_conns s'' !! i = Some c ->
       cn_state c = kDisconnected /\ cn_registered c = false /\ cn_callbacks c = [true; false]).
Proof.
  apply (server_destroyed demo_name demo_addr map_to_list ltac:(cbn; lia) ltac:(done) 2);
    [by apply at_work_reachable; vm_compute|by vm_compute|by vm_compute|exact three_settled].
Defined.

(** In any other state the destructor of a server may be fatal: the removal of
    a connection that closed in another loop runs after the server is gone, a
    connection of another loop that closes before that loop has destroyed it
    calls the server that is gone, and a connection that is being shut down in
    the server's own loop fails an assertion at once. *)
Theorem server_destroyed_early :
  (exists s s' i, server_reachable demo_name demo_addr map_to_list 1 s /\ ts_queues s = [[Remove i]; []] /\
     destroyServer map_to_list s = Some s' /\ runNext baseLoop s' = None) /\
  (exists s s' i, server_reachable demo_name demo_addr map_to_list 1 s /\ all_settled s /\
     destroyServer map_to_list s = Some s' /\ server_may s' (SvClose i) /\ closeConnection i s' = None) /\
  (exists s, server_reachable demo_name demo_addr map_to_list 0 s /\ ts_alive s = true /\ destroyServer map_to_list s = None).
Proof.
  split_and!.
  - exists (at_work 1 [SvStart; SvAccept 7; SvNext 1%nat; SvClose 0]).
    destruct (destroyServer map_to_list (at_work 1 [SvStart; SvAccept 7; SvNext 1%nat; SvClose 0])) as [s'|] eqn:E; [|by vm_compute in E].
    exists s', 0%nat. split_and!; [by apply at_work_reachable; vm_compute|by vm_compute|done|]. vm_compute in E. by injection E as <-.
  - exists (at_work 1 [SvStart; SvAccept 7; SvNext 1%nat]).
    destruct (destroyServer map_to_list (at_work 1 [SvStart; SvAccept 7; SvNext 1%nat])) as [s'|] eqn:E; [|by vm_compute in E].
    exists s', 0%nat. split_and!; [by apply at_work_reachable; vm_compute| |done|apply server_allowed_ok|].
    + eapply (settled_intro _ 2); [by vm_compute|vm_compute; reflexivity|by repeat constructor].
    + vm_compute in E. by injection E as <-.
    + vm_compute in E. by injection E as <-.
  - exists (at_work 0 [SvStart; SvAccept 7; SvShutdown 0]). split_and!; [by apply at_work_reachable; vm_compute|by vm_compute..].
Qed.

(** The threads of a pool named after a listening server are all called alike. *)
Lemma threadName_cut i j : threadName "ingest-9000" i = threadName "ingest-9000" j /\ threadName "ingest-9000" i = "ingest-".
Proof. by split. Qed.
