(* ===== verification/ServerTcp.v ===== *)
(** * The connections of a server

    What [Server] keeps of a connection is what [TcpConnection] does: the four
    operations a server and its users call act on the state, the registration
    and the callbacks of a reachable connection exactly as [Server] says, failures
    included. *)

From stdpp Require Import base list numbers gmap strings.
From Stdlib Require Import ZArith Lia.
From S2P Require Import Prelude Buffer Tcp TcpInv Server TcpProps.
Local Open Scope Z_scope.

(** The connection callbacks of a history. *)
Definition ups (l : list Obs) : list bool := omap (fun o => match o with CbConnection b => Some b | _ => None end) l.

(** A connection as its server sees it. *)
Definition asConn (name : string) (loop : loop_id) (c : TcpConnection) : Conn :=
  mkConn name loop (tc_state c) (pl_known (tc_poll c)) (ups (tc_log c)).

Lemma ups_app l1 l2 : ups (l1 ++ l2) = ups l1 ++ ups l2.
Proof. unfold ups. by rewrite omap_app. Qed.

Lemma ups_quiet l : Forall quiet l -> ups l = [].
Proof. induction 1 as [|o l Ho _ IH]; [done|]. by destruct o. Qed.

Section Contract.
Context (E : TcpEnv) (inLoop : bool) (HE : env_ok E).
Context (name : string) (loop : loop_id).
Notation conn := (asConn name loop).

(** Calls of the user shut a connection down at most. *)
Lemma conn_calls c c' : calls c c' -> conn c' = conn c \/ conn c' = connShutdown (conn c).
Proof.
  intros [f1 f2 f3 f4 (l & f5 & f6 & _) f7]. unfold asConn, connShutdown. cbn [cn_state].
  rewrite f4, f5, ups_app, (ups_quiet _ f6), app_nil_r. destruct f2 as [->|[-> ->]]; [by left|right].
  by rewrite decide_True.
Qed.

Lemma conn_closed c c' : calls c c' -> tc_state c = kDisconnected -> conn c' = conn c.
Proof.
  intros Hf Hs. destruct (conn_calls c c' Hf) as [?|Hx]; [done|]. rewrite Hx. unfold connShutdown. cbn [asConn cn_state].
  by rewrite decide_False by (by rewrite Hs).
Qed.

Lemma conn_established c : conn_inv inLoop c ->
  match connEstablish (conn c) with
  | Some a => exists c', connectEstablished E c = Some c' /\ (conn c' = a \/ conn c' = connShutdown a)
  | None => connectEstablished E c = None
  end.
Proof using HE.
  intros [Hg Hf _]. unfold connEstablish. cbn [asConn cn_state]. unfold connectEstablished. case_decide as Hs; [|by rewrite bool_decide_false].
  rewrite bool_decide_true by done. cbn [negb]. destruct (enable_ok inLoop c Hg Hs (Hf Hs)) as [E1 [Hc1 Ho1]]. rewrite E1.
  cbn [mbind option_bind]. destruct (callback_ok E inLoop [] _ _ HE Hc1) as (c' & E2 & _ & Hcalls). exists c'. split; [done|].
  apply conn_calls in Hcalls. unfold enabled, asConn in Hcalls. tcp_simpl. by rewrite ups_app in Hcalls.
Qed.

Lemma conn_close c : conn_inv inLoop c ->
  match connClose (conn c) with
  | Some a => exists c', handleClose E c = Some c' /\ conn c' = a
  | None => handleClose E c = None
  end.
Proof using HE.
  intros [[Hc Ho] _ _]. unfold connClose. cbn [asConn cn_state]. unfold handleClose. case_decide as Hl; [|by rewrite bool_decide_false].
  rewrite bool_decide_true by done. cbn [negb].
  destruct (disable_ok inLoop [] c Hc Hl) as [Ed _]. rewrite Ed. cbn [mbind option_bind].
  destruct (down_ok E inLoop [] c HE Hc Hl) as (c1 & E1 & _ & Hf & Hs & _). rewrite E1. cbn [mbind option_bind].
  pose proof (conn_closed _ _ Hf eq_refl) as Hcc. destruct Hf as [f1 _ _ _ _ _].
  unfold owned in Ho. rewrite decide_False in Ho by (by destruct Hl as [-> | ->]). destruct Ho as [Hin _].
  unfold disabled in f1. unfold Tcp.removeConnection. tcp_simpl. rewrite f1, Hin. cbn [negb]. eexists. split; [done|].
  destruct Hc as (_ & _ & C & _). destruct (live_chan c Hl C) as (_ & _ & Hp).
  unfold asConn, disabled in *. tcp_simpl. rewrite ups_app, app_nil_r. injection Hcc as -> -> ->. rewrite Hp, ups_app. done.
Qed.

Lemma conn_shutdown c : conn (shutdown c) = connShutdown (conn c).
Proof.
  unfold shutdown, connShutdown. cbn [asConn cn_state]. case_decide; [|done]. unfold shutdownInLoop, asConn.
  destruct (isWriting _); cbn [negb]; tcp_simpl; [done|]. by rewrite ups_app, app_nil_r.
Qed.

Lemma conn_destroyed c : conn_inv inLoop c ->
  match connDestroy (conn c) with
  | Some a => exists c', connectDestroyed E c = Some c' /\ conn c' = a
  | None => connectDestroyed E c = None
  end.
Proof using HE.
  intros [[Hc Ho] _ _]. pose proof Hc as (_ & _ & C & _). unfold connDestroy, connectDestroyed. cbn [asConn cn_state cn_registered cn_name cn_loop cn_callbacks].
  destruct (decide (tc_state c = kConnected)) as [Hs|Hs].
  - assert (live c) as Hl by (by left). destruct (disable_ok inLoop [] c Hc Hl) as [Ed _]. rewrite Ed. cbn [mbind option_bind].
    destruct (down_ok E inLoop [] c HE Hc Hl) as (c1 & E1 & Hc1 & Hf & Hs1 & _). rewrite E1. cbn [mbind option_bind].
    pose proof (conn_closed _ _ Hf eq_refl) as Hcc. destruct (live_chan c Hl C) as (_ & _ & Hp).
    cbn [cn_state cn_registered]. rewrite Hp. cbn [pl_known]. rewrite decide_True by done.
    unfold asConn, disabled in *. tcp_simpl. injection Hcc as _ Hk Hu.
    destruct (remove_ok inLoop [] c1 Hc1 Hs1 Hk) as (ch & Er & _). exists (set_channel ch (mkPoll false None) c1). split; [exact Er|].
    tcp_simpl. rewrite Hu, Hs1, ups_app. done.
  - cbn [mbind option_bind cn_state cn_registered]. case_decide as Hd.
    + destruct Hd as [Hd Hk]. destruct (remove_ok inLoop [] c Hc Hd Hk) as (ch & Er & _). exists (set_channel ch (mkPoll false None) c). split; [exact Er|].
      done.
    + unfold removeChannel, isNoneEvent, pollerRemove. destruct (tc_state c) eqn:Es; try done.
      * destruct C as (H1 & [[H2 H3]|[H2 H3]]); [exfalso; apply Hd; cbn; by rewrite Es, H3|]. by rewrite H1, H3.
      * destruct C as (H1 & H2 & H3). by rewrite H1, H3.
      * destruct C as (H1 & H2 & H3). rewrite H1. pose proof (watched_live (tc_outputBuffer c)) as Hw.
        destruct (Z.eqb_spec (watched (tc_outputBuffer c)) kNoneEvent); done.
Qed.
End Contract.

(** A connection does to its state, to its registration with the poller and in
    its connection callbacks what the server's model of it says, for each of
    the operations a server has queued or called: in every reachable state,
    whatever the user does in the callbacks (at most shutting the connection
    down), and with the same failures. *)
Theorem connection_refines E inLoop name loop c : env_ok E -> reachable E inLoop c ->
  (match connEstablish (asConn name loop c) with
   | Some a => exists c', connectEstablished E c = Some c' /\ (asConn name loop c' = a \/ asConn name loop c' = connShutdown a)
   | None => connectEstablished E c = None
   end) /\
  (match connClose (asConn name loop c) with
   | Some a => exists c', handleClose E c = Some c' /\ asConn name loop c' = a
   | None => handleClose E c = None
   end) /\
  (match connDestroy (asConn name loop c) with
   | Some a => exists c', connectDestroyed E c = Some c' /\ asConn name loop c' = a
   | None => connectDestroyed E c = None
   end) /\
  asConn name loop (shutdown c) = connShutdown (asConn name loop c).
Proof.
  intros HE Hr. pose proof (reachable_inv E inLoop c HE Hr) as Hi. split_and!.
  - by eapply conn_established.
  - by eapply conn_close.
  - by eapply conn_destroyed.
  - apply conn_shutdown.
Qed.

Lemma connection_refines_witness :
  connDestroy (asConn "ingest" 1%nat asked) = None /\
  (match connEstablish (asConn "ingest" 1%nat asked) with
   | Some a => exists c', connectEstablished answering asked = Some c' /\ (asConn "ingest" 1%nat c' = a \/ asConn "ingest" 1%nat c' = connShutdown a)
   | None => connectEstablished answering asked = None
   end) /\
  (match connClose (asConn "ingest" 1%nat asked) with
   | Some a => exists c', handleClose answering asked = Some c' /\ asConn "ingest" 1%nat c' = a
   | None => handleClose answering asked = None
   end) /\
  (match connDestroy (asConn "ingest" 1%nat asked) with
   | Some a => exists c', connectDestroyed answering asked = Some c' /\ asConn "ingest" 1%nat c' = a
   | None => connectDestroyed answering asked = None
   end) /\
  asConn "ingest" 1%nat (shutdown asked) = connShutdown (asConn "ingest" 1%nat asked).
Proof. split; [by vm_compute|]. apply (connection_refines answering true); [exact answering_ok|exact asked_reachable]. Defined.
