(* ===== verification/HttpServerParser.v ===== *)
(** * The HTTP server's request parser

    [src/src/net/http/HttpParser.{h,cpp}]: the callbacks over [http_parser] that
    build a request, [HttpParser::parser] on a connection's buffer, and what
    [HttpServer::doMessage] makes of its answer.  [None] is a failed [assert]. *)

From stdpp Require Import base list numbers gmap strings.
From Stdlib Require Import ZArith Lia Ascii.
From S2P Require Import Prelude CText HttpModel HttpExec HttpSafety HttpObserve HttpForm Buffer.
Local Open Scope Z_scope.

(** ** Data *)

Inductive ParserStatus := PARSERING | PARSERED | PARSERERROR.

(** [class HttpParser], without its [http_parser]; a [Cookie] is its key and
    value. *)
Record HttpParser := mkHttpParser {
  sp_parserStatus : ParserStatus;
  sp_fild : Z;
  sp_head : list Z;
  sp_method : list Z;
  sp_version : list Z;
  sp_url : list Z;
  sp_body : list Z;
  sp_sessionid : list Z;
  sp_contextlength : Z;
  sp_params : gmap (list Z) (list Z);
  sp_heads : gmap (list Z) (list Z);
  sp_cookie : list (list Z * list Z);
}.

Definition newHttpParser : HttpParser := mkHttpParser PARSERING 0 [] [] [] [] [] [] 0 ∅ ∅ [].

Definition set_parserStatus v (h : HttpParser) : HttpParser :=
  mkHttpParser v (sp_fild h) (sp_head h) (sp_method h) (sp_version h) (sp_url h) (sp_body h) (sp_sessionid h) (sp_contextlength h)
    (sp_params h) (sp_heads h) (sp_cookie h).
Definition set_fild v head (h : HttpParser) : HttpParser :=
  mkHttpParser (sp_parserStatus h) v head (sp_method h) (sp_version h) (sp_url h) (sp_body h) (sp_sessionid h) (sp_contextlength h)
    (sp_params h) (sp_heads h) (sp_cookie h).
Definition set_requestLine method version (h : HttpParser) : HttpParser :=
  mkHttpParser (sp_parserStatus h) (sp_fild h) (sp_head h) method version (sp_url h) (sp_body h) (sp_sessionid h) (sp_contextlength h)
    (sp_params h) (sp_heads h) (sp_cookie h).
Definition set_url v (h : HttpParser) : HttpParser :=
  mkHttpParser (sp_parserStatus h) (sp_fild h) (sp_head h) (sp_method h) (sp_version h) v (sp_body h) (sp_sessionid h) (sp_contextlength h)
    (sp_params h) (sp_heads h) (sp_cookie h).
Definition set_body v (h : HttpParser) : HttpParser :=
  mkHttpParser (sp_parserStatus h) (sp_fild h) (sp_head h) (sp_method h) (sp_version h) (sp_url h) v (sp_sessionid h) (sp_contextlength h)
    (sp_params h) (sp_heads h) (sp_cookie h).
Definition set_sessionid v (h : HttpParser) : HttpParser :=
  mkHttpParser (sp_parserStatus h) (sp_fild h) (sp_head h) (sp_method h) (sp_version h) (sp_url h) (sp_body h) v (sp_contextlength h)
    (sp_params h) (sp_heads h) (sp_cookie h).
Definition set_contextlength v (h : HttpParser) : HttpParser :=
  mkHttpParser (sp_parserStatus h) (sp_fild h) (sp_head h) (sp_method h) (sp_version h) (sp_url h) (sp_body h) (sp_sessionid h) v
    (sp_params h) (sp_heads h) (sp_cookie h).
Definition set_params v (h : HttpParser) : HttpParser :=
  mkHttpParser (sp_parserStatus h) (sp_fild h) (sp_head h) (sp_method h) (sp_version h) (sp_url h) (sp_body h) (sp_sessionid h)
    (sp_contextlength h) v (sp_heads h) (sp_cookie h).
Definition set_heads v (h : HttpParser) : HttpParser :=
  mkHttpParser (sp_parserStatus h) (sp_fild h) (sp_head h) (sp_method h) (sp_version h) (sp_url h) (sp_body h) (sp_sessionid h)
    (sp_contextlength h) (sp_params h) v (sp_cookie h).
Definition push_cookie c (h : HttpParser) : HttpParser :=
  mkHttpParser (sp_parserStatus h) (sp_fild h) (sp_head h) (sp_method h) (sp_version h) (sp_url h) (sp_body h) (sp_sessionid h)
    (sp_contextlength h) (sp_params h) (sp_heads h) (sp_cookie h ++ [c]).

(** ** Callbacks *)

Definition splitAt (d : string) (s : list Z) : option (list (list Z)) := split s (chars d) false.

(** The loop over [key=value] texts, in [OnUrlCallback] and
    [OnMessageCompleteCallback]. *)
Fixpoint addParams (params : list (list Z)) (h : HttpParser) : option HttpParser :=
  match params with
  | [] => Some h
  | it :: params' =>
      param ← splitAt "=" it;
      match param with
      | [k] =>
          k ← UrlDecode k;
          addParams params' (set_params (<[toLower (trim k) := []]> (sp_params h)) h)
      | [k; v] =>
          k ← UrlDecode k;
          v ← UrlDecode v;
          addParams params' (set_params (<[toLower (trim k) := trim v]> (sp_params h)) h)
      | _ => Some (set_parserStatus PARSERERROR h)
      end
  end.

Definition OnUrlCallback (line : list Z) (h : HttpParser) : option HttpParser :=
  lines ← splitAt "?" line;
  match lines with
  | [u] => u ← UrlDecode u; Some (set_url u h)
  | [u; q] =>
      u ← UrlDecode u;
      params ← splitAt "&" q;
      addParams params (set_url u h)
  | _ => Some (set_parserStatus PARSERERROR h)
  end.

Definition OnHeaderFieldCallback (name : list Z) (h : HttpParser) : option HttpParser :=
  Some (if sp_fild h =? 1 then set_parserStatus PARSERERROR h else set_fild 1 name h).

(** The cookies of a [Cookie] header. *)
Fixpoint addCookies (lines : list (list Z)) (h : HttpParser) : option HttpParser :=
  match lines with
  | [] => Some h
  | it :: lines' =>
      param ← splitAt "=" it;
      match param with
      | [] => addCookies lines' h
      | k :: param' =>
          let cookiekey := toLower (trim k) in
          let cookievalue := match param' with v :: _ => toLower (trim v) | [] => [] end in
          let h := match param' with
                   | _ :: _ => if bool_decide (cookiekey = chars "amid") then set_sessionid cookievalue h else h
                   | [] => h end in
          addCookies lines' (push_cookie (cookiekey, cookievalue) h)
      end
  end.

(** [atoi(value.c_str())] *)
Definition text (s : list Z) : string := String.string_of_list_ascii (map (fun c => ascii_of_N (Z.to_N c)) s).
Definition atoi_bytes (s : list Z) : Z := atoi (text s).

Definition OnHeaderValueCallback (at_ : list Z) (h : HttpParser) : option HttpParser :=
  if negb (sp_fild h =? 1) then Some (set_parserStatus PARSERERROR h)
  else
    let h := set_fild 2 (sp_head h) h in
    let key := toLower (trim (sp_head h)) in
    let value := toLower (trim at_) in
    let h := set_heads (<[key := value]> (sp_heads h)) h in
    if bool_decide (key = chars "cookie") then lines ← splitAt ";" value; addCookies lines h
    else if bool_decide (key = chars "content-length") then Some (set_contextlength (atoi_bytes value) h)
    else Some h.

(** [snprintf(buf, 11, ...)] keeps ten characters. *)
Definition versionText (version : Z * Z) : list Z :=
  firstn 10 (chars "HTTP/" ++ chars (to_string (fst version)) ++ chars "." ++ chars (to_string (snd version))).

Definition OnHeadersCompleteCallback (m : http_method) (version : Z * Z) (h : HttpParser) : option HttpParser :=
  Some (set_requestLine (chars (http_method_str m)) (versionText version) h).

Definition OnBodyCallback (at_ : list Z) (h : HttpParser) : option HttpParser := Some (set_body (sp_body h ++ at_) h).

Definition OnMessageCompleteCallback (h : HttpParser) : option HttpParser :=
  match sp_parserStatus h with
  | PARSERERROR => Some h
  | _ =>
      if lenZ (sp_body h) >=? u64 (sp_contextlength h) then
        let h := set_parserStatus PARSERED h in
        if bool_decide (sp_method h = chars "POST") then params ← splitAt "&" (sp_body h); addParams params h
        else Some h
      else Some h
  end.

(** All of them, by the event they are called for. *)
Definition onEvent (e : Event) (h : HttpParser) : option HttpParser :=
  match e with
  | E_url at_ => OnUrlCallback at_ h
  | E_header_field at_ => OnHeaderFieldCallback at_ h
  | E_header_value at_ => OnHeaderValueCallback at_ h
  | E_headers_complete m version => OnHeadersCompleteCallback m version h
  | E_body at_ => OnBodyCallback at_ h
  | E_message_complete => OnMessageCompleteCallback h
  | _ => Some h
  end.
Definition onEvent_ (e : Event) (h : option HttpParser) : option HttpParser := h ≫= onEvent e.

(** [_seting]: every callback returns 0. *)
Definition seting : http_parser_settings (option HttpParser) :=
  let notify (e : http_parser -> Event) := Some (fun (P : http_parser) (h : option HttpParser) => (0, P, onEvent_ (e P) h)) in
  let data (e : list Z -> Event) := Some (fun at_ (P : http_parser) (h : option HttpParser) => (0, P, onEvent_ (e at_) h)) in
  mkSettings (notify (fun _ => E_message_begin)) (data E_url) (data E_status) (data E_header_field) (data E_header_value)
    (notify (fun P => E_headers_complete (hp_method P) (hp_http_major P, hp_http_minor P))) (data E_body)
    (notify (fun _ => E_message_complete)) None None.

(** [HttpParser::parser]; the object is its [http_parser] and its fields. *)
Definition parser (o : http_parser * HttpParser) (buf : Buffer) : option (ParserStatus * (http_parser * HttpParser) * Buffer) :=
  '(n, P, h) ← http_parser_execute seting (readable buf) (fst o) (Some (snd o));
  h ← h;
  let len := swrap 32 n in
  if bool_decide (hp_errno P <> HPE_OK) then Some (PARSERERROR, (P, h), buf)
  else
    buf ← retrieve (u64 len) buf;
    Some (sp_parserStatus h, (P, h), buf).

Definition newParser : http_parser * HttpParser := (http_parser_init HTTP_REQUEST, newHttpParser).

(** What [HttpServer::doMessage] does with the connection: the parser is kept
    in its context until the request is complete. *)
Inductive MessageAction := WaitMore | ForceClose | HandleRequest (h : HttpParser).

Definition doMessage (context : option (http_parser * HttpParser)) (buf : Buffer)
    : option (MessageAction * option (http_parser * HttpParser) * Buffer) :=
  let o := default newParser context in
  '(status, o, buf) ← parser o buf;
  Some match status with
       | PARSERING => (WaitMore, Some o, buf)
       | PARSERERROR => (ForceClose, Some o, buf)
       | PARSERED => (HandleRequest (snd o), None, buf)
       end.

(** ** The callbacks observe *)

Lemma seting_observes : observes (told := false) onEvent_ seting.
Proof. constructor; try (by eexists); done. Qed.

(** The events in the order in which they happen. *)
Definition onEvents (es : list Event) (h : option HttpParser) : option HttpParser := fold_left (fun h e => onEvent_ e h) es h.

Lemma execute_events data P h :
  http_parser_execute seting data P h =
  option_map (fun '(n, P', ev) => (n, P', onEvents (rev ev) h)) (http_parser_execute (recording (told := false)) data P []).
Proof.
  rewrite (execute_observed (told := false) onEvent_ seting seting_observes). destruct (http_parser_execute _ data P []) as [[[n P'] ev]|]; [|done].
  cbn. f_equal. unfold observed, onEvents. by rewrite <- fold_left_rev_right, rev_involutive.
Qed.

Lemma onEvents_app es es' h : onEvents (es ++ es') h = onEvents es' (onEvents es h).
Proof. apply fold_left_app. Qed.
