(* ===== verification/HttpServerProps.v ===== *)
(** * What the HTTP server's parser reads

    A printed request is read back into the object's fields: its method, path,
    parameters, header fields and body; and what two requests in one buffer, or
    one in two, are read as. *)

From stdpp Require Import base list numbers gmap strings.
From Stdlib Require Import ZArith Lia Ascii.
From S2P Require Import Prelude CText HttpModel HttpExec HttpSafety HttpRuns HttpRequest HttpObserve HttpForm Buffer HttpServerParser.
Local Open Scope Z_scope.

(** ** Forms *)

Notation Param := (list Z * list Z)%type.

Definition printParam (p : Param) : list Z := UrlEncode (fst p) ++ chr "=" :: UrlEncode (snd p).
Definition printForm (ps : list Param) : list Z := join (chr "&") (map printParam ps).
Definition printUrl (path : list Z) (ps : list Param) : list Z :=
  chr "/" :: UrlEncode path ++ match ps with [] => [] | _ => chr "?" :: printForm ps end.

(** What the map of the parameters becomes. *)
Definition formParams (ps : list Param) (m : gmap (list Z) (list Z)) : gmap (list Z) (list Z) :=
  fold_left (fun m p => <[toLower (trim (fst p)) := trim (snd p)]> m) ps m.

Definition param_ok (p : Param) : Prop := fst p <> [] /\ is_bytes (fst p) /\ is_bytes (snd p).

Lemma encoded_no c d : forallb encoded_char c = true -> delimiter d -> d ∉ c.
Proof.
  intros H Hd Hin. rewrite forallb_forall in H. specialize (H d ltac:(by apply list_elem_of_In)).
  by destruct Hd as [-> | [-> | [-> | ->]]].
Qed.

Lemma encoded_bytes l : forallb encoded_char l = true -> is_bytes l.
Proof.
  intros H. apply Forall_forall. intros c Hc. rewrite forallb_forall in H. specialize (H c ltac:(by apply list_elem_of_In)).
  unfold encoded_char, isalnum, in_range in H. unfold is_byte.
  change (chr "0") with 48 in H. change (chr "9") with 57 in H. change (chr "A") with 65 in H. change (chr "Z") with 90 in H.
  change (chr "a") with 97 in H. change (chr "z") with 122 in H. change (chr "-") with 45 in H. change (chr "_") with 95 in H.
  change (chr ".") with 46 in H. change (chr "~") with 126 in H. change (chr "+") with 43 in H. change (chr "%") with 37 in H. lia.
Qed.

Lemma UrlEncode_ok s d : is_bytes s -> delimiter d -> is_bytes (UrlEncode s) /\ d ∉ UrlEncode s.
Proof. intros Hs Hd. pose proof (UrlEncode_chars s Hs) as H. split; [by apply encoded_bytes|by apply encoded_no]. Qed.

Lemma UrlEncode_nonempty s : s <> [] -> UrlEncode s <> [].
Proof. destruct s as [|c s]; [done|]. intros _. cbn [UrlEncode]. destruct (_ || _); [done|]. by destruct (_ =? _). Qed.

Lemma printParam_ok p : param_ok p -> is_bytes (printParam p) /\ chr "&" ∉ printParam p /\ chr "?" ∉ printParam p /\ printParam p <> [].
Proof.
  intros (Hne & Hk & Hv). unfold printParam.
  assert (forall d, delimiter d -> d <> chr "=" -> d ∉ UrlEncode (fst p) ++ chr "=" :: UrlEncode (snd p)) as Hd.
  { intros d Hd Hn. rewrite not_elem_of_app, not_elem_of_cons. split_and!; [by apply UrlEncode_ok|done|by apply UrlEncode_ok]. }
  split_and!; [|apply Hd; [by right; left|done]|apply Hd; [by left|done]|].
  - apply Forall_app. split; [apply (UrlEncode_ok _ (chr "&") Hk); by right; left|]. apply Forall_cons.
    split; [split; vm_compute; congruence|]. apply (UrlEncode_ok _ (chr "&") Hv). by right; left.
  - intros [H _]%app_eq_nil. by apply UrlEncode_nonempty in H.
Qed.

Lemma addParams_print ps : Forall param_ok ps -> forall h,
  addParams (map printParam ps) h = Some (set_params (formParams ps (sp_params h)) h).
Proof.
  induction 1 as [|p ps (Hne & Hk & Hv) Hps IH]; intros h; [by destruct h|]. cbn [map addParams].
  assert (delimiter (chr "=")) as Hd by (by right; right; left).
  assert (splitAt "=" (printParam p) = Some (match UrlEncode (snd p) with [] => [UrlEncode (fst p)] | _ => [UrlEncode (fst p); UrlEncode (snd p)] end)) as ->.
  { destruct (UrlEncode_ok _ _ Hk Hd), (UrlEncode_ok _ _ Hv Hd). apply split_two; try done. by apply UrlEncode_nonempty. }
  cbn [mbind option_bind]. destruct p as [k v]. cbn [fst snd] in *. destruct v as [|c v].
  - cbn [UrlEncode]. rewrite UrlDecode_encode by done. cbn [mbind option_bind]. by rewrite IH.
  - destruct (UrlEncode (c :: v)) eqn:E; [by apply UrlEncode_nonempty in E|]. rewrite <- E, !UrlDecode_encode by done. cbn [mbind option_bind].
    by rewrite IH.
Qed.

Lemma form_split ps : Forall param_ok ps -> splitAt "&" (printForm ps) = Some (map printParam ps).
Proof.
  intros H. apply split_join; [by right; left|]. apply Forall_map. eapply Forall_impl; [exact H|]. intros p Hp.
  by destruct (printParam_ok p Hp) as (? & ? & _ & ?).
Qed.

Lemma form_no_query ps : Forall param_ok ps -> is_bytes (printForm ps) /\ chr "?" ∉ printForm ps.
Proof.
  unfold printForm. induction 1 as [|p ps Hp Hps IH]; [split; [by constructor|apply not_elem_of_nil]|].
  destruct (printParam_ok p Hp) as (Hb & _ & Hq & _). destruct ps as [|p' ps]; [done|].
  change (join ?d (map printParam (p :: p' :: ps))) with (printParam p ++ d :: join d (map printParam (p' :: ps))).
  destruct IH as [IH1 IH2]. split.
  - apply Forall_app. split; [done|]. apply Forall_cons. split; [split; vm_compute; congruence|done].
  - rewrite not_elem_of_app, not_elem_of_cons. by split_and!.
Qed.

Lemma form_nonempty p ps : param_ok p -> printForm (p :: ps) <> [].
Proof.
  intros Hp. destruct (printParam_ok p Hp) as (_ & _ & _ & Hne). unfold printForm. destruct ps; [done|]. cbn [map join].
  intros [H _]%app_eq_nil. done.
Qed.

Lemma UrlDecode_path path : is_bytes path -> UrlDecode (chr "/" :: UrlEncode path) = Some (chr "/" :: path).
Proof. intros H. rewrite UrlDecode_char by done. by rewrite UrlDecode_encode. Qed.

(** The URL. *)
Lemma OnUrl_print path ps h : is_bytes path -> Forall param_ok ps ->
  OnUrlCallback (printUrl path ps) h = Some (set_params (formParams ps (sp_params h)) (set_url (chr "/" :: path) h)).
Proof.
  intros Hp Hps. unfold OnUrlCallback, printUrl. change (splitAt "?" ?l) with (split l [chr "?"] false).
  assert (delimiter (chr "?")) as Hd by (by left).
  assert (is_bytes (chr "/" :: UrlEncode path) /\ chr "?" ∉ chr "/" :: UrlEncode path) as [Hb Hn].
  { split; [apply Forall_cons; split; [split; vm_compute; congruence|by apply (UrlEncode_ok _ (chr "?"))]|].
    rewrite not_elem_of_cons. split; [done|by apply UrlEncode_ok]. }
  destruct ps as [|p ps].
  - rewrite app_nil_r, split_one by done. cbn [mbind option_bind]. rewrite UrlDecode_path by done. cbn [mbind option_bind]. by destruct h.
  - change (chr "/" :: UrlEncode path ++ chr "?" :: printForm (p :: ps)) with ((chr "/" :: UrlEncode path) ++ chr "?" :: printForm (p :: ps)).
    destruct (form_no_query _ Hps) as [Hb' Hn']. pose proof Hps as Hps'. apply Forall_cons in Hps' as [Hp1 _].
    rewrite split_two by done. cbn [mbind option_bind]. destruct (printForm (p :: ps)) eqn:E; [by apply form_nonempty in E|]. rewrite <- E.
    rewrite UrlDecode_path by done. cbn [mbind option_bind]. rewrite form_split by done. cbn [mbind option_bind]. by rewrite addParams_print.
Qed.

(** ** What remains of a text

    Blanks at both ends are dropped and capitals lowered, by the codes of the
    characters. *)

Definition blank_byte (c : Z) : Prop := c = 32 \/ 9 <= c <= 13.
Definition lowered (s : list Z) : list Z := map (fun c => if (65 <=? c) && (c <=? 90) then c + 32 else c) s.

(** [t] is [s] without the blanks around it. *)
Record stripped (s t : list Z) : Prop := {
  st_around : exists a b, s = a ++ t ++ b /\ Forall blank_byte a /\ Forall blank_byte b;
  st_front : forall c t', t = c :: t' -> ~ blank_byte c;
  st_back : forall c t', t = t' ++ [c] -> ~ blank_byte c;
}.

(** A parameter as it is kept: the key stripped and lowered, the value stripped;
    and a header field: name and value stripped and lowered. *)
Definition param_kept (p p' : Param) : Prop := exists k, stripped (fst p) k /\ fst p' = lowered k /\ stripped (snd p) (snd p').
Definition field_kept (f f' : Param) : Prop :=
  exists n v, stripped (fst f) n /\ fst f' = lowered n /\ stripped (snd f) v /\ snd f' = lowered v.

(** The map after the insertions, the last of equal keys remaining. *)
Definition inserted (ps : list Param) (m : gmap (list Z) (list Z)) : gmap (list Z) (list Z) :=
  fold_left (fun m p => <[fst p := snd p]> m) ps m.

Lemma blank_space c : is_byte c -> isSpace (from_char c) = true <-> blank_byte c.
Proof. intros Hc. rewrite isSpace_chars by done. unfold in_range, blank_byte. lia. Qed.

Lemma skipSpaces_front s : is_bytes s -> exists a, s = a ++ skipSpaces s /\ Forall blank_byte a /\
  forall c t', skipSpaces s = c :: t' -> ~ blank_byte c.
Proof.
  induction 1 as [|c s Hc Hs (a & E & Ha & Hf)]; [by exists []|]. cbn [skipSpaces]. destruct (isSpace (from_char c)) eqn:Es.
  - exists (c :: a). split_and!; [by rewrite E at 1|by apply Forall_cons_2; [apply blank_space|]|done].
  - exists []. split_and!; [done|by apply Forall_nil|]. intros ? ? [= <- _] Hb. apply (blank_space c Hc) in Hb. congruence.
Qed.

Lemma trim_stripped s : is_bytes s -> stripped s (trim s) /\ is_bytes (trim s).
Proof.
  intros Hs. destruct (skipSpaces_front s Hs) as (a & Ea & Ha & Hfa). set (s1 := skipSpaces s) in *.
  assert (is_bytes s1) as Hs1 by (rewrite Ea in Hs; by apply Forall_app in Hs as [_ ?]).
  destruct (skipSpaces_front (rev s1)) as (b & Eb & Hb & Hfb); [by apply Forall_rev|].
  assert (s1 = trim s ++ rev b) as E1 by (unfold trim; fold s1; by rewrite <- rev_app_distr, <- Eb, rev_involutive).
  split; [|rewrite E1 in Hs1; by apply Forall_app in Hs1 as [? _]]. constructor.
  - exists a, (rev b). split_and!; [by rewrite Ea, E1 at 1|done|by apply Forall_rev].
  - intros c t' E. apply (Hfa c (t' ++ rev b)). by rewrite E1, E.
  - intros c t' E. apply (Hfb c (rev t')). unfold trim in E. fold s1 in E. rewrite <- (rev_involutive (skipSpaces (rev s1))), E.
    by rewrite rev_app_distr.
Qed.

Lemma toLower_lowered s : is_bytes s -> toLower s = lowered s.
Proof.
  intros H. unfold toLower, lowered. induction H as [|c s Hc Hs IH]; [done|]. cbn [map]. by rewrite IH, toLower_char.
Qed.

(** The pieces are determined. *)
Lemma formParams_kept ps : Forall (fun p => is_bytes (fst p) /\ is_bytes (snd p)) ps ->
  exists ps', Forall2 param_kept ps ps' /\ forall m, formParams ps m = inserted ps' m.
Proof.
  induction 1 as [|[k v] ps [Hk Hv] Hps (ps' & H1 & H2)]; [by exists []|]. cbn [fst snd] in *.
  destruct (trim_stripped k Hk) as [Sk Bk]. destruct (trim_stripped v Hv) as [Sv _].
  exists ((toLower (trim k), trim v) :: ps'). split.
  - constructor; [|done]. exists (trim k). split_and!; [done|by apply toLower_lowered|done].
  - intros m. cbn [formParams fold_left inserted]. apply H2.
Qed.

(** ** Header fields *)

Definition headKey (n : list Z) : list Z := toLower (trim n).
Definition formHeads (fs : list Param) (m : gmap (list Z) (list Z)) : gmap (list Z) (list Z) :=
  fold_left (fun m f => <[headKey (fst f) := toLower (trim (snd f))]> m) fs m.

Lemma formHeads_kept fs : Forall (fun f => is_bytes (fst f) /\ is_bytes (snd f)) fs ->
  exists fs', Forall2 field_kept fs fs' /\ forall m, formHeads fs m = inserted fs' m.
Proof.
  induction 1 as [|[n v] fs [Hn Hv] Hfs (fs' & H1 & H2)]; [by exists []|]. cbn [fst snd] in *.
  destruct (trim_stripped n Hn) as [Sn Bn]. destruct (trim_stripped v Hv) as [Sv Bv].
  exists ((toLower (trim n), toLower (trim v)) :: fs'). split.
  - constructor; [|done]. exists (trim n), (trim v). split_and!; try done; by apply toLower_lowered.
  - intros m. cbn [formHeads fold_left inserted]. apply H2.
Qed.

(** A field the callbacks attach no meaning to. *)
Definition other_field (f : Param) : Prop :=
  is_bytes (fst f) /\ is_bytes (snd f) /\
  forall n, stripped (fst f) n -> lowered n <> chars "cookie" /\ lowered n <> chars "content-length".

Lemma other_key f : other_field f -> headKey (fst f) <> chars "cookie" /\ headKey (fst f) <> chars "content-length".
Proof.
  intros (Hb & _ & H). destruct (trim_stripped _ Hb) as [S B]. unfold headKey. rewrite toLower_lowered by done. by apply H.
Qed.

(** Between two fields. *)
Definition field_done (h : HttpParser) : Prop := sp_fild h <> 1.

Lemma one_field n v h : field_done h ->
  onEvents [E_header_field n; E_header_value v] (Some h) = OnHeaderValueCallback v (set_fild 1 n h).
Proof. intros Hf. cbn. unfold OnHeaderFieldCallback. destruct (Z.eqb_spec (sp_fild h) 1) as [E|]; [by destruct (Hf E)|]. done. Qed.

Lemma fields_read fs : Forall other_field fs -> forall h, field_done h -> exists fild head, fild <> 1 /\
  onEvents (field_events fs) (Some h) = Some (set_heads (formHeads fs (sp_heads h)) (set_fild fild head h)).
Proof.
  induction 1 as [|[n v] fs [Hc Hl]%other_key Hfs IH]; intros h Hf.
  - exists (sp_fild h), (sp_head h). split; [done|]. by destruct h.
  - cbn [fst snd] in *. change (field_events ((n, v) :: fs)) with ([E_header_field n; E_header_value v] ++ field_events fs).
    rewrite onEvents_app, one_field by done. unfold OnHeaderValueCallback. cbn [sp_fild set_fild negb Z.eqb sp_head sp_heads set_heads].
    change (toLower (trim n)) with (headKey n). rewrite (bool_decide_false (headKey n = chars "cookie")), (bool_decide_false (headKey n = _)) by done.
    destruct (IH (set_heads (<[headKey n := toLower (trim v)]> (sp_heads h)) (set_fild 2 n h))) as (fild & head & Hfi & E); [done|].
    exists fild, head. split; [done|]. exact E.
Qed.

(** The text of a number is kept. *)
Definition plain_char (c : Z) : Prop := is_byte c /\ isSpace (from_char c) = false /\ to_char (charToLower (from_char c)) = c.

Lemma digit_plain c : is_num c -> plain_char c.
Proof.
  intros H. unfold is_num, IS_NUM, in_range in H. change (chr "0") with 48 in H. change (chr "9") with 57 in H.
  assert (is_byte c) as Hb by (unfold is_byte; lia). split; [done|]. rewrite isSpace_chars, toLower_char by done. unfold in_range.
  change (chr "A") with 65. change (chr "Z") with 90. split; [lia|]. destruct (Z.leb_spec 65 c); [lia|done].
Qed.

Lemma skipSpaces_plain s : Forall plain_char s -> skipSpaces s = s.
Proof. destruct 1 as [|c s (_ & Hc & _) _]; [done|]. cbn [skipSpaces]. by rewrite Hc. Qed.

Lemma plain_kept s : Forall plain_char s -> toLower (trim s) = s.
Proof.
  intros H. unfold trim. rewrite (skipSpaces_plain s), (skipSpaces_plain (rev s)), rev_involutive by (done || by apply Forall_rev).
  unfold toLower. induction H as [|c s (_ & _ & Hc) H IH]; [done|]. cbn [map]. by rewrite Hc, IH.
Qed.

Lemma text_chars s : text (chars s) = s.
Proof.
  unfold text, chars. rewrite map_map. induction s as [|c s IH]; [done|]. cbn. rewrite IH. f_equal. unfold code.
  by rewrite N2Z.id, ascii_N_embedding.
Qed.

Lemma length_read n h : field_done h -> 0 <= n < 2 ^ 31 -> exists head,
  onEvents [E_header_field (chars "Content-Length"); E_header_value (decimal n)] (Some h) =
  Some (set_contextlength n (set_heads (<[chars "content-length" := decimal n]> (sp_heads h)) (set_fild 2 head h))).
Proof.
  intros Hf Hn. exists (chars "Content-Length"). rewrite one_field by done. unfold OnHeaderValueCallback.
  cbn [sp_fild set_fild negb Z.eqb sp_head sp_heads set_heads].
  replace (toLower (trim (chars "Content-Length"))) with (chars "content-length") by (by vm_compute).
  destruct (decimal_value n ltac:(lia)) as (d & ds & Ed & Hds & _).
  rewrite plain_kept by (rewrite Ed; eapply Forall_impl; [exact Hds|apply digit_plain]).
  rewrite bool_decide_false, bool_decide_true by (done || by vm_compute). unfold atoi_bytes, decimal. rewrite text_chars.
  pose proof (atoi_to_string n "" Hn eq_refl) as E. rewrite str_app_nil_r in E. by rewrite E.
Qed.

(** ** Requests *)

(** A request by its parts: for a POST the body is a form. *)
Record Req := mkReq { re_method : http_method; re_path : list Z; re_query : list Param; re_fields : list Param; re_form : list Param; re_data : list Z }.

Definition re_body (q : Req) : list Z := if bool_decide (re_method q = HTTP_POST) then printForm (re_form q) else re_data q.
Definition re_request (q : Req) : request := mkRequest (re_method q) (printUrl (re_path q) (re_query q)) (re_fields q) (re_body q).

Record req_ok (q : Req) : Prop := {
  qo_request : request_ok (re_request q);
  qo_path : is_bytes (re_path q);
  qo_query : Forall param_ok (re_query q);
  qo_fields : Forall other_field (re_fields q);
  qo_form : if bool_decide (re_method q = HTTP_POST) then Forall param_ok (re_form q) else re_form q = [];
}.

(** What is in the object after a request is what was there and the request. *)
Record reads (q : Req) (h h' : HttpParser) : Prop := {
  rr_status : sp_parserStatus h' = PARSERED;
  rr_method : sp_method h' = chars (http_method_str (re_method q));
  rr_version : sp_version h' = chars "HTTP/1.1";
  rr_url : sp_url h' = chr "/" :: re_path q;
  rr_body : sp_body h' = sp_body h ++ re_body q;
  rr_length : sp_contextlength h' = lenZ (re_body q);
  rr_params : exists ps, Forall2 param_kept (re_query q ++ re_form q) ps /\ sp_params h' = inserted ps (sp_params h);
  rr_heads : exists fs, Forall2 field_kept (re_fields q) fs /\
    sp_heads h' = <[chars "content-length" := decimal (lenZ (re_body q))]> (inserted fs (sp_heads h));
  rr_cookie : sp_cookie h' = sp_cookie h;
  rr_session : sp_sessionid h' = sp_sessionid h;
  rr_field : field_done h';
}.

Lemma method_post m : bool_decide (chars (http_method_str m) = chars "POST") = bool_decide (m = HTTP_POST).
Proof. by destruct m; vm_compute. Qed.

Lemma formParams_app ps ps' m : formParams (ps ++ ps') m = formParams ps' (formParams ps m).
Proof. apply fold_left_app. Qed.

Lemma body_read body h : onEvents (match body with [] => [] | _ :: _ => [E_body body] end) (Some h) = Some (set_body (sp_body h ++ body) h).
Proof. destruct body; [|done]. cbn. rewrite app_nil_r. by destruct h. Qed.

(** The end of the message. *)
Lemma complete_read q h : sp_parserStatus h <> PARSERERROR -> sp_contextlength h = lenZ (re_body q) -> lenZ (re_body q) < 2 ^ 31 ->
  sp_method h = chars (http_method_str (re_method q)) -> lenZ (re_body q) <= lenZ (sp_body h) ->
  (re_method q = HTTP_POST -> sp_body h = printForm (re_form q)) ->
  (if bool_decide (re_method q = HTTP_POST) then Forall param_ok (re_form q) else re_form q = []) ->
  OnMessageCompleteCallback h = Some (set_params (formParams (re_form q) (sp_params h)) (set_parserStatus PARSERED h)).
Proof.
  intros Hs Hl Hn Hm Hb Hform Hok. unfold OnMessageCompleteCallback. pose proof (lenZ_nonneg (re_body q)).
  assert (lenZ (sp_body h) >=? u64 (sp_contextlength h) = true) as E by (rewrite Hl, uwrap_small by lia; lia).
  assert (sp_method (set_parserStatus PARSERED h) = chars (http_method_str (re_method q))) as Hm' by done.
  rewrite E. cbv zeta. rewrite Hm', method_post. case_bool_decide as Hp.
  - change (sp_body (set_parserStatus PARSERED h)) with (sp_body h). rewrite (Hform Hp), form_split by done. cbn [mbind option_bind].
    rewrite addParams_print by done. by destruct (sp_parserStatus h).
  - rewrite Hok. destruct h as [st]. cbn in *. by destruct st.
Qed.

Lemma request_read q h : req_ok q -> lenZ (re_body q) < 2 ^ 31 -> field_done h -> sp_parserStatus h <> PARSERERROR ->
  (re_method q = HTTP_POST -> sp_body h = []) ->
  exists h', onEvents (request_events (re_request q)) (Some h) = Some h' /\ reads q h h'.
Proof.
  intros [_ Hpath Hquery Hfields Hform] Hn Hf Hs Hpost. pose proof (lenZ_nonneg (re_body q)) as Hn0.
  unfold request_events. cbn [re_request rq_url rq_fields rq_body rq_method].
  change ([E_header_field (chars "Content-Length"); E_header_value (decimal (lenZ (re_body q))); E_headers_complete (re_method q) (1, 1)])
    with ([E_header_field (chars "Content-Length"); E_header_value (decimal (lenZ (re_body q)))] ++ [E_headers_complete (re_method q) (1, 1)]).
  rewrite !onEvents_app.
  assert (onEvents [E_message_begin; E_url (printUrl (re_path q) (re_query q))] (Some h) =
    Some (set_params (formParams (re_query q) (sp_params h)) (set_url (chr "/" :: re_path q) h))) as -> by exact (OnUrl_print _ _ h Hpath Hquery).
  set (h1 := set_params _ _). destruct (fields_read _ Hfields h1 Hf) as (fild & head & Hfi & ->).
  set (h2 := set_heads _ _). destruct (length_read (lenZ (re_body q)) h2 Hfi ltac:(lia)) as (head' & ->).
  set (h3 := set_contextlength _ _).
  change (onEvents [E_headers_complete (re_method q) (1, 1)] (Some h3))
    with (Some (set_requestLine (chars (http_method_str (re_method q))) (versionText (1, 1)) h3)).
  rewrite body_read. set (h4 := set_body _ _).
  change (onEvents [E_message_complete] (Some h4)) with (OnMessageCompleteCallback h4).
  rewrite (complete_read q h4); [|done|done|done|done| | |done].
  - eexists. split; [done|]. constructor; try done; cbn.
    + destruct (formParams_kept (re_query q ++ re_form q)) as (ps & Hps & E); [|exists ps; split; [done|]; by rewrite <- E, formParams_app].
      assert (Forall param_ok (re_query q ++ re_form q)) as Hall.
      { apply Forall_app. split; [done|]. destruct (bool_decide (re_method q = HTTP_POST)); [done|]. rewrite Hform. by apply Forall_nil. }
      eapply Forall_impl; [exact Hall|]. by intros p (_ & ? & ?).
    + destruct (formHeads_kept (re_fields q)) as (fs & Hfs & E); [|exists fs; split; [done|]; by rewrite <- E].
      eapply Forall_impl; [exact Hfields|]. by intros f (? & ? & _).
  - change (sp_body h4) with (sp_body h ++ re_body q). rewrite lenZ_app. pose proof (lenZ_nonneg (sp_body h)). lia.
  - intros Hp. change (sp_body h4) with (sp_body h ++ re_body q). rewrite (Hpost Hp). unfold re_body. by rewrite bool_decide_true.
Qed.

(** ** The object on a buffer *)

Lemma onEvents_None es : onEvents es None = None.
Proof. by induction es. Qed.

(** Requests that stand in the buffer are taken all at once. *)
Lemma parser_pipeline rs buf h : Forall request_ok rs -> buffer_ok buf -> readable buf = pipeline rs -> lenZ (pipeline rs) < 2 ^ 31 ->
  exists P buf', readable buf' = [] /\ buffer_ok buf' /\
    parser (http_parser_init HTTP_REQUEST, h) buf =
    option_map (fun h' => (sp_parserStatus h', (P, h'), buf')) (onEvents (pipeline_events rs) (Some h)).
Proof.
  intros Hrs Hb Er Hn. pose proof (lenZ_nonneg (pipeline rs)) as Hn0.
  destruct (http_parser_execute_requests_run (told := false) rs (http_parser_init HTTP_REQUEST) [] eq_refl ltac:(by constructor) Hrs Hn) as (P & E & [HP1 HP2 HP3] & _).
  destruct (retrieve_ok (lenZ (pipeline rs)) buf Hb) as (buf' & Eb & Hb' & Er' & _); [rewrite <- readable_length, Er by done; lia|].
  exists P, buf'. split; [|split; [done|]].
  { rewrite Er', Er. unfold dropZ, lenZ. apply skipn_all2. lia. }
  unfold parser. cbn [fst snd]. rewrite execute_events, Er, E. cbn [option_map mbind option_bind]. rewrite app_nil_r, rev_involutive.
  destruct (onEvents (pipeline_events rs) (Some h)) as [h'|]; [|done]. cbn [mbind option_bind option_map].
  rewrite bool_decide_false by (intros []; done). by rewrite swrap_small, uwrap_small, Eb by lia.
Qed.

(** ** Claims *)

(** C37: the HTTP server reads a request that was printed: when its bytes
    stand in the connection's buffer - any method but CONNECT, an encoded path
    with encoded parameters, header fields without meaning to it, and a body,
    which is a form if the method is POST - [doMessage] hands on a request with
    exactly that method, path, body and length, and leaves nothing in the
    buffer.  Its parameters are those of the URL and of the form, in order (the
    last of equal keys remaining), but with blanks around keys and values
    dropped and the capitals of the keys lowered; its header fields are those
    sent and the length, with blanks dropped and capitals lowered in names and
    values alike: the value Adapter 1 arrives as adapter 1.  What is dropped and
    lowered is stated by the codes of the characters ([stripped], [lowered]). *)
Theorem server_reads q buf : req_ok q -> buffer_ok buf -> readable buf = print_request (re_request q) -> lenZ (readable buf) < 2 ^ 31 ->
  exists h buf', doMessage None buf = Some (HandleRequest h, None, buf') /\ readable buf' = [] /\ reads q newHttpParser h.
Proof.
  intros Hq Hb Er Hn. rewrite Er in Hn. assert (pipeline [re_request q] = print_request (re_request q)) as Ep by (cbn; by rewrite app_nil_r).
  destruct (parser_pipeline [re_request q] buf newHttpParser) as (P & buf' & Hr & _ & E); [by constructor; [apply Hq|]|done|by rewrite Ep|by rewrite Ep|].
  destruct (request_read q newHttpParser) as (h & Eh & Hh); [done| |done|done|done|].
  { unfold print_request in Hn. rewrite lenZ_app in Hn. pose proof (lenZ_nonneg (request_header (re_request q))). change (rq_body (re_request q)) with (re_body q) in Hn. lia. }
  exists h, buf'. split; [|done]. unfold doMessage. change (default newParser None) with (http_parser_init HTTP_REQUEST, newHttpParser). rewrite E.
  change (pipeline_events [re_request q]) with (request_events (re_request q) ++ []). rewrite app_nil_r, Eh. cbn [option_map mbind option_bind].
  by rewrite (rr_status _ _ _ Hh).
Qed.

(** Two requests that arrive together are read into one: the server answers
    only once, for the second, with the bodies of both run together and the
    parameters and header fields of the first still there; the bytes of the
    first are gone.  (The second must not be a POST, whose form would be parsed
    behind the first body.) *)
Theorem server_merges q1 q2 buf : req_ok q1 -> req_ok q2 -> re_method q2 <> HTTP_POST -> buffer_ok buf ->
  readable buf = print_request (re_request q1) ++ print_request (re_request q2) -> lenZ (readable buf) < 2 ^ 31 ->
  exists h1 h buf', doMessage None buf = Some (HandleRequest h, None, buf') /\ readable buf' = [] /\
    reads q1 newHttpParser h1 /\ reads q2 h1 h.
Proof.
  intros Hq1 Hq2 Hm Hb Er Hn. rewrite Er in Hn.
  assert (pipeline [re_request q1; re_request q2] = print_request (re_request q1) ++ print_request (re_request q2)) as Ep by (cbn; by rewrite app_nil_r).
  destruct (parser_pipeline [re_request q1; re_request q2] buf newHttpParser) as (P & buf' & Hr & _ & E);
    [by constructor; [apply Hq1|constructor; [apply Hq2|]]|done|by rewrite Ep|by rewrite Ep|].
  rewrite lenZ_app in Hn. unfold print_request in Hn. rewrite !lenZ_app in Hn.
  pose proof (lenZ_nonneg (request_header (re_request q1))). pose proof (lenZ_nonneg (request_header (re_request q2))).
  change (rq_body (re_request q1)) with (re_body q1) in Hn. change (rq_body (re_request q2)) with (re_body q2) in Hn.
  pose proof (lenZ_nonneg (re_body q1)). pose proof (lenZ_nonneg (re_body q2)).
  destruct (request_read q1 newHttpParser) as (h1 & Eh1 & Hh1); [done|lia|done|done|done|].
  destruct (request_read q2 h1) as (h & Eh & Hh); [done|lia|apply (rr_field _ _ _ Hh1)|by rewrite (rr_status _ _ _ Hh1)|done|].
  exists h1, h, buf'. split; [|done]. unfold doMessage. change (default newParser None) with (http_parser_init HTTP_REQUEST, newHttpParser). rewrite E.
  change (pipeline_events [re_request q1; re_request q2]) with (request_events (re_request q1) ++ request_events (re_request q2) ++ []).
  rewrite app_nil_r, onEvents_app, Eh1, Eh. cbn [option_map mbind option_bind]. by rewrite (rr_status _ _ _ Hh).
Qed.

(** A percent sign in the path that two letters or digits do not follow
    makes the assertion of [UrlDecode] fail: any client can end the server. *)
Theorem server_asserts r x y buf : request_ok r -> rq_url r = x ++ chr "%" :: y -> is_Some (UrlDecode x) -> bad_escape y ->
  is_bytes (rq_url r) -> chr "?" ∉ rq_url r -> buffer_ok buf -> readable buf = print_request r -> lenZ (readable buf) < 2 ^ 31 ->
  doMessage None buf = None.
Proof.
  intros Hr Hu Hx Hy Hbytes Hq Hb Er Hn. rewrite Er in Hn. assert (pipeline [r] = print_request r) as Ep by (cbn; by rewrite app_nil_r).
  destruct (parser_pipeline [r] buf newHttpParser) as (P & buf' & _ & _ & E); [by constructor|done|by rewrite Ep|by rewrite Ep|].
  unfold doMessage. change (default newParser None) with (http_parser_init HTTP_REQUEST, newHttpParser). rewrite E.
  assert (onEvents [E_message_begin; E_url (rq_url r)] (Some newHttpParser) = None) as Hn0.
  { change (onEvents _ _) with (OnUrlCallback (rq_url r) newHttpParser). unfold OnUrlCallback, splitAt. change (chars "?") with [chr "?"].
    rewrite split_one; [|by left|done|done|rewrite Hu; by destruct x]. cbn [mbind option_bind].
    by rewrite (proj2 (UrlDecode_fails (rq_url r))) by (by exists x, y). }
  change (pipeline_events [r]) with (request_events r ++ []). unfold request_events. rewrite !onEvents_app, Hn0, !onEvents_None. done.
Qed.

(** *** Witnesses *)

Definition bufferOf (l : list Z) : Buffer := default (newBuffer kInitialSize) (append l (newBuffer kInitialSize)).

Lemma bufferOf_ok l : lenZ l < 2 ^ 31 -> buffer_ok (bufferOf l) /\ readable (bufferOf l) = l.
Proof.
  intros Hl. pose proof (lenZ_nonneg l). unfold bufferOf. destruct (newBuffer_ok kInitialSize ltac:(vm_compute; congruence)) as (Hb & Hr & _).
  destruct (append_ok l (newBuffer kInitialSize) Hb) as (b & -> & Hb' & Hr' & _); [|cbn; by rewrite Hr', Hr].
  assert (lenZ (bf_buffer (newBuffer kInitialSize)) = 2056) as E by (by vm_compute). unfold addressable. rewrite E.
  change kCheapPrepend with 8. lia.
Qed.

(** A byte list that satisfies a boolean test. *)
Lemma Forall_forallb {X} (p : X -> bool) (Q : X -> Prop) l : (forall c, p c = true -> Q c) -> forallb p l = true -> Forall Q l.
Proof. intros Hp H. apply Forall_forall. intros c Hc. apply Hp. rewrite forallb_forall in H. apply H. by apply list_elem_of_In. Qed.

Lemma url_text_check l : forallb (fun c => IS_URL_CHAR c || (c =? 63)) l = true -> Forall url_text l.
Proof. apply Forall_forallb. intros c H. unfold url_text. apply orb_true_iff in H as [|H%Z.eqb_eq]; auto. Qed.

Lemma bytes_check l : forallb (fun c => (0 <=? c) && (c <? 256)) l = true -> is_bytes l.
Proof. apply Forall_forallb. intros c H. unfold is_byte. lia. Qed.

Lemma host_ok : plain_field (chars "Host") (chars "Adapter 1").
Proof.
  constructor; [split; [done|]|done| |by eexists _, _].
  - apply (Forall_forallb (fun c => negb (TOKEN c =? 0))); [|done]. intros c H Hc. rewrite Hc in H. done.
  - apply (Forall_forallb (fun c => negb (c =? CR) && negb (c =? LF) && IS_HEADER_CHAR c)); [|done].
    intros c H. unfold value_byte. apply andb_true_iff in H as [H H3]. apply andb_true_iff in H as [H1 H2].
    split_and!; [by intros ->|by intros ->|done].
Qed.

Definition sampleReq (m : http_method) (form : list Param) (data : list Z) : Req :=
  mkReq m (chars "a b/") [(chars "Key 1", chars "V&x"); (chars "k2", [])] [(chars "Host", chars "Adapter 1")] form data.
Definition samplePost : Req := sampleReq HTTP_POST [(chars "id", chars "100%")] [].
Definition sampleGet : Req := sampleReq HTTP_GET [] (chars "xyz").

Lemma sampleReq_ok m form data : m <> HTTP_CONNECT -> lenZ (request_header (re_request (sampleReq m form data))) <= HTTP_MAX_HEADER_SIZE ->
  (if bool_decide (m = HTTP_POST) then Forall param_ok form else form = []) -> req_ok (sampleReq m form data).
Proof.
  intros Hm Hs Hf. constructor; cbn; [constructor; cbn; [done| |by apply Forall_cons_2; [exact host_ok|apply Forall_nil]|done]|by apply bytes_check| | |done].
  - eexists. split; [reflexivity|]. by apply url_text_check.
  - repeat apply Forall_cons_2; [split_and!; [done|by apply bytes_check..]|split_and!; [done|by apply bytes_check..]|by apply Forall_nil].
  - apply Forall_cons_2; [|by apply Forall_nil]. split_and!; [by apply bytes_check..|].
    intros n [(a & b & E & Ha & Hb) _ _]. assert (length (lowered n) <= 4)%nat as Hn.
    { apply (f_equal length) in E. rewrite !length_app in E. unfold lowered. rewrite length_map. cbn in E. lia. }
    split; intros En; rewrite En in Hn; cbn in Hn; lia.
Qed.

Lemma samplePost_ok : req_ok samplePost.
Proof.
  apply sampleReq_ok; [done|by vm_compute|]. rewrite bool_decide_true by done.
  apply Forall_cons_2; [split_and!; [done|by apply bytes_check..]|by apply Forall_nil].
Qed.
Lemma sampleGet_ok : req_ok sampleGet.
Proof. apply sampleReq_ok; [done|by vm_compute|by rewrite bool_decide_false]. Qed.

Lemma server_reads_witness :
  (match doMessage None (bufferOf (print_request (re_request samplePost))) with
   | Some (HandleRequest h, _, _) => (sp_params h !! chars "key 1", sp_heads h !! chars "host")
   | _ => (None, None)
   end = (Some (chars "V&x"), Some (chars "adapter 1"))) /\
  exists h buf', doMessage None (bufferOf (print_request (re_request samplePost))) = Some (HandleRequest h, None, buf') /\
    readable buf' = [] /\ reads samplePost newHttpParser h.
Proof.
  split; [by vm_compute|]. destruct (bufferOf_ok (print_request (re_request samplePost)) ltac:(by vm_compute)) as [Hb Hr].
  apply server_reads; [exact samplePost_ok|exact Hb|exact Hr|rewrite Hr; by vm_compute].
Defined.

Lemma server_merges_witness : exists h1 h buf',
  doMessage None (bufferOf (print_request (re_request samplePost) ++ print_request (re_request sampleGet))) = Some (HandleRequest h, None, buf') /\
  readable buf' = [] /\ reads samplePost newHttpParser h1 /\ reads sampleGet h1 h.
Proof.
  destruct (bufferOf_ok (print_request (re_request samplePost) ++ print_request (re_request sampleGet)) ltac:(by vm_compute)) as [Hb Hr].
  apply server_merges; [exact samplePost_ok|exact sampleGet_ok|done|exact Hb|exact Hr|rewrite Hr; by vm_compute].
Defined.

Definition badRequest : request := mkRequest HTTP_GET (chars "/x%2") [] [].
Lemma server_asserts_witness : doMessage None (bufferOf (print_request badRequest)) = None.
Proof.
  destruct (bufferOf_ok (print_request badRequest) ltac:(by vm_compute)) as [Hb Hr].
  apply (server_asserts badRequest (chars "/x") (chars "2")); [|done|by eexists|done|by apply bytes_check| |exact Hb|exact Hr|rewrite Hr; by vm_compute].
  - constructor; [done| |by apply Forall_nil|by vm_compute]. eexists. split; [reflexivity|]. by apply url_text_check.
  - apply (bool_decide_unpack _). by vm_compute.
Defined.
