(* ===== verification/Timers.v ===== *)
(** * Timers

    [src/src/net/TimerQueue.cpp] (the POSIX build), [Timer.{h,cpp}] and
    [TimerId.h]: the timers of an event loop, in the loop's thread.  A
    [Timer*] is an address into the heap of the timers that were created and
    not deleted; an ordered [std::set] is a sorted list.  [None] is a failed
    [assert], an access to a deleted timer, or an overflow; an operation that
    creates timers can also end in [NoMemory]. *)

From stdpp Require Import base list numbers gmap sorting.
From Stdlib Require Import ZArith Lia.
From S2P Require Import Prelude Floats.
Local Open Scope Z_scope.

(** ** Time *)

(** [Timestamp] is a number of microseconds. *)
Definition kMicroSecondsPerSecond : Z := 1000000.
Definition valid (ts : Z) : bool := 0 <? ts.

(** [static_cast<int64_t>(seconds * kMicroSecondsPerSecond)] of a double. *)
Definition secondsToMicros (seconds : Z) : option Z :=
  if fp_exp 52 11 seconds =? 2 ^ 11 - 1 then None
  else
    let '(M, E) := fp_finite 52 11 seconds in
    f64_to_i64 (fp_encode 52 11 (fp_sign 52 11 seconds) (M * kMicroSecondsPerSecond) E).

Definition int64 (z : Z) : option Z := if (- 2 ^ 63 <=? z) && (z <? 2 ^ 63) then Some z else None.

(** [addTime] *)
Definition addTime (ts seconds : Z) : option Z := d ← secondsToMicros seconds; int64 (ts + d).

(** [interval > 0.0] *)
Definition positive (d : Z) : bool := negb (fp_is_nan 52 11 d) && (0 <? d) && (d <? 2 ^ 63).

(** [detail::howMuchTimeFromNow]: the seconds and nanoseconds of a [timespec]. *)
Definition howMuchTimeFromNow (when now : Z) : Z * Z :=
  let microseconds := Z.max 100 (when - now) in
  (Z.quot microseconds kMicroSecondsPerSecond, Z.rem microseconds kMicroSecondsPerSecond * 1000).

(** ** Data *)

(** [class Timer]; the callback is a name. *)
Record Timer := mkTimer { tm_callback : nat; tm_expiration : Z; tm_interval : Z; tm_repeat : bool; tm_sequence : Z }.

(** [std::pair<Timestamp, Timer*>], ordered lexicographically, and
    [std::pair<Timer*, int64_t>], which is also what a [TimerId] holds. *)
Notation Entry := (Z * Z)%type.
Notation ActiveTimer := (Z * Z)%type.
Definition UINTPTR_MAX : Z := 2 ^ 64 - 1.

Definition entry_ltb (e f : Entry) : bool := (fst e <? fst f) || ((fst e =? fst f) && (snd e <? snd f)).
Definition entry_lt (e f : Entry) : Prop := entry_ltb e f = true.

(** [std::set::insert] and [erase(key)]: [None] when the key is there already,
    is not there. *)
Fixpoint set_insert (e : Entry) (l : list Entry) : option (list Entry) :=
  match l with
  | [] => Some [e]
  | f :: l' =>
      if entry_ltb e f then Some (e :: l)
      else if entry_ltb f e then option_map (cons f) (set_insert e l')
      else None
  end.
Fixpoint set_erase (e : Entry) (l : list Entry) : option (list Entry) :=
  match l with
  | [] => None
  | f :: l' => if decide (f = e) then Some l' else option_map (cons f) (set_erase e l')
  end.

(** What callbacks and the loop's other users ask for. *)
Inductive TimerCall :=
| TAdd (cb : nat) (when interval : Z)
| TCancel (id : ActiveTimer).

(** The history: timers created, cancellations asked for, callbacks run. *)
Inductive TimerObs :=
| TAdded (cb : nat) (id : ActiveTimer)
| TCancelled (id : ActiveTimer)
| TFired (cb : nat) (seq now : Z).

(** How an operation that creates timers ends: [NoMemory] is the exception of
    [new], which nothing in the loop catches, [Bad] what [None] is elsewhere. *)
Inductive Result (A : Type) : Type :=
| Ok (a : A)
| NoMemory
| Bad.
Arguments Ok {A} a.
Arguments NoMemory {A}.
Arguments Bad {A}.

Definition lift {A} (o : option A) : Result A := match o with Some a => Ok a | None => Bad end.

#[export] Instance result_bind : MBind Result := fun A B f r =>
  match r with Ok a => f a | NoMemory => NoMemory | Bad => Bad end.

(** The users' callbacks, which answer from the history, and the allocator. *)
Record TimerEnv := mkTimerEnv {
  tv_client : list TimerObs -> list TimerCall;
  tv_alloc : gmap Z Timer -> option Z;
}.

(** [class TimerQueue], the heap of its timers, [Timer::_s_numCreated], and the
    expiration the timer descriptor was last set to. *)
Record TimerQueue := mkTimerQueue {
  tq_heap : gmap Z Timer;
  tq_created : Z;
  tq_timers : list Entry;
  tq_activeTimers : gset ActiveTimer;
  tq_callingExpiredTimers : bool;
  tq_cancelingTimers : gset ActiveTimer;
  tq_armed : option Z;
  tq_log : list TimerObs;
}.

Definition newTimerQueue : TimerQueue := mkTimerQueue ∅ 0 [] ∅ false ∅ None [].

(** ** Updates *)

Definition set_heap (h : gmap Z Timer) (q : TimerQueue) : TimerQueue :=
  mkTimerQueue h (tq_created q) (tq_timers q) (tq_activeTimers q) (tq_callingExpiredTimers q) (tq_cancelingTimers q) (tq_armed q) (tq_log q).
Definition set_timers (ts : list Entry) (act : gset ActiveTimer) (q : TimerQueue) : TimerQueue :=
  mkTimerQueue (tq_heap q) (tq_created q) ts act (tq_callingExpiredTimers q) (tq_cancelingTimers q) (tq_armed q) (tq_log q).
Definition set_calling (b : bool) (can : gset ActiveTimer) (q : TimerQueue) : TimerQueue :=
  mkTimerQueue (tq_heap q) (tq_created q) (tq_timers q) (tq_activeTimers q) b can (tq_armed q) (tq_log q).
Definition timer_log (o : TimerObs) (q : TimerQueue) : TimerQueue :=
  mkTimerQueue (tq_heap q) (tq_created q) (tq_timers q) (tq_activeTimers q) (tq_callingExpiredTimers q) (tq_cancelingTimers q) (tq_armed q)
    (tq_log q ++ [o]).

(** [detail::resetTimerfd]; [howMuchTimeFromNow] makes the time relative. *)
Definition resetTimerfd (expiration : Z) (q : TimerQueue) : TimerQueue :=
  mkTimerQueue (tq_heap q) (tq_created q) (tq_timers q) (tq_activeTimers q) (tq_callingExpiredTimers q) (tq_cancelingTimers q)
    (Some expiration) (tq_log q).

Definition sizesAgree (q : TimerQueue) : bool := bool_decide (length (tq_timers q) = size (tq_activeTimers q)).

(** ** Operations *)

(** [new Timer(cb, when, interval)] *)
Definition newTimer (E : TimerEnv) (cb : nat) (when interval : Z) (q : TimerQueue) : Result (Z * TimerQueue) :=
  match tv_alloc E (tq_heap q) with
  | None => NoMemory
  | Some a =>
  let seq := tq_created q + 1 in
  Ok (a, mkTimerQueue (<[a := mkTimer cb when interval (positive interval) seq]> (tq_heap q)) seq (tq_timers q) (tq_activeTimers q)
        (tq_callingExpiredTimers q) (tq_cancelingTimers q) (tq_armed q) (tq_log q ++ [TAdded cb (a, seq)]))
  end.

Definition insertTimer (a : Z) (q : TimerQueue) : option (bool * TimerQueue) :=
  t ← tq_heap q !! a;
  if negb (sizesAgree q) then None
  else
    let when := tm_expiration t in
    let earliestChanged := match tq_timers q with [] => true | (w, _) :: _ => when <? w end in
    timers ← set_insert (when, a) (tq_timers q);
    if bool_decide ((a, tm_sequence t) ∈ tq_activeTimers q) then None
    else
      let q := set_timers timers ({[(a, tm_sequence t)]} ∪ tq_activeTimers q) q in
      if negb (sizesAgree q) then None else Some (earliestChanged, q).

Definition addTimerInLoop (a : Z) (q : TimerQueue) : option TimerQueue :=
  '(earliestChanged, q) ← insertTimer a q;
  if (earliestChanged : bool) then t ← tq_heap q !! a; Some (resetTimerfd (tm_expiration t) q) else Some q.

Definition addTimer (E : TimerEnv) (cb : nat) (when interval : Z) (q : TimerQueue) : Result TimerQueue :=
  '(a, q) ← newTimer E cb when interval q; lift (addTimerInLoop a q).

Definition cancelInLoop (id : ActiveTimer) (q : TimerQueue) : option TimerQueue :=
  let q := timer_log (TCancelled id) q in
  if negb (sizesAgree q) then None
  else if bool_decide (id ∈ tq_activeTimers q) then
    t ← tq_heap q !! fst id;
    timers ← set_erase (tm_expiration t, fst id) (tq_timers q);
    Some (set_heap (delete (fst id) (tq_heap q)) (set_timers timers (tq_activeTimers q ∖ {[id]}) q))
  else if tq_callingExpiredTimers q then Some (set_calling true ({[id]} ∪ tq_cancelingTimers q) q)
  else Some q.

Definition timerCall (E : TimerEnv) (c : TimerCall) (q : TimerQueue) : Result TimerQueue :=
  match c with
  | TAdd cb when interval => addTimer E cb when interval q
  | TCancel id => lift (cancelInLoop id q)
  end.
Fixpoint timerCalls (E : TimerEnv) (cs : list TimerCall) (q : TimerQueue) : Result TimerQueue :=
  match cs with [] => Ok q | c :: cs' => q ← timerCall E c q; timerCalls E cs' q end.

(** [getExpired]: the entries below [(now, UINTPTR_MAX)]. *)
Fixpoint lower_bound (s : Entry) (l : list Entry) : list Entry * list Entry :=
  match l with
  | [] => ([], [])
  | e :: l' => if entry_ltb e s then let '(x, y) := lower_bound s l' in (e :: x, y) else ([], l)
  end.

Fixpoint eraseActive (h : gmap Z Timer) (es : list Entry) (act : gset ActiveTimer) : option (gset ActiveTimer) :=
  match es with
  | [] => Some act
  | (_, a) :: es' =>
      t ← h !! a;
      if bool_decide ((a, tm_sequence t) ∈ act) then eraseActive h es' (act ∖ {[(a, tm_sequence t)]}) else None
  end.

Definition getExpired (now : Z) (q : TimerQueue) : option (list Entry * TimerQueue) :=
  if negb (sizesAgree q) then None
  else
    let '(expired, rest) := lower_bound (now, UINTPTR_MAX) (tq_timers q) in
    if negb (match rest with [] => true | (w, _) :: _ => now <? w end) then None
    else
      act ← eraseActive (tq_heap q) expired (tq_activeTimers q);
      let q := set_timers rest act q in
      if negb (sizesAgree q) then None else Some (expired, q).

(** The callbacks of the expired timers, in order. *)
Fixpoint runExpired (E : TimerEnv) (now : Z) (es : list Entry) (q : TimerQueue) : Result TimerQueue :=
  match es with
  | [] => Ok q
  | (_, a) :: es' =>
      t ← lift (tq_heap q !! a);
      let q := timer_log (TFired (tm_callback t) (tm_sequence t) now) q in
      q ← timerCalls E (tv_client E (tq_log q)) q;
      runExpired E now es' q
  end.

(** [Timer::restart] *)
Definition restart (now : Z) (t : Timer) : option Timer :=
  e ← (if tm_repeat t then addTime now (tm_interval t) else Some 0);
  Some (mkTimer (tm_callback t) e (tm_interval t) (tm_repeat t) (tm_sequence t)).

Fixpoint resetLoop (now : Z) (es : list Entry) (q : TimerQueue) : option TimerQueue :=
  match es with
  | [] => Some q
  | (_, a) :: es' =>
      t ← tq_heap q !! a;
      q ← (if tm_repeat t && negb (bool_decide ((a, tm_sequence t) ∈ tq_cancelingTimers q)) then
             t ← restart now t;
             '(_, q) ← insertTimer a (set_heap (<[a := t]> (tq_heap q)) q);
             Some q
           else Some (set_heap (delete a (tq_heap q)) q));
      resetLoop now es' q
  end.

Definition reset (now : Z) (es : list Entry) (q : TimerQueue) : option TimerQueue :=
  q ← resetLoop now es q;
  match tq_timers q with
  | [] => Some q
  | (_, a) :: _ =>
      t ← tq_heap q !! a;
      Some (if valid (tm_expiration t) then resetTimerfd (tm_expiration t) q else q)
  end.

(** The timer descriptor is readable: [now] is [Timestamp::now()]. *)
Definition handleInLoop (E : TimerEnv) (now : Z) (q : TimerQueue) : Result TimerQueue :=
  '(expired, q) ← lift (getExpired now q);
  q ← runExpired E now expired (set_calling true ∅ q);
  lift (reset now expired (set_calling false (tq_cancelingTimers q) q)).

(** What happens to the queue. *)
Inductive TimerEvent := TvCall (c : TimerCall) | TvExpired (now : Z).

Definition timerStep (E : TimerEnv) (e : TimerEvent) (q : TimerQueue) : Result TimerQueue :=
  match e with TvCall c => timerCall E c q | TvExpired now => handleInLoop E now q end.
