(* ===== verification/TimersProps.v ===== *)
(** * What the timers promise

    In every state the timers of [Timers.v] reach: no assertion fails and no
    deleted timer is touched; the timers that are due fire, each once and in
    order; a cancelled timer never fires again; and the descriptor is set no
    later than the earliest expiration. *)

From stdpp Require Import base list numbers gmap sorting.
From Stdlib Require Import ZArith Lia.
From S2P Require Import Prelude Floats Timers.
Local Open Scope Z_scope.

(** ** Ordered sets *)

#[export] Instance entry_lt_trans : Transitive entry_lt.
Proof. intros [a b] [c d] [e f]. unfold entry_lt, entry_ltb. cbn. intros. bool_to_prop; lia. Qed.

Lemma entry_lt_irrefl e : ~ entry_lt e e.
Proof. destruct e. unfold entry_lt, entry_ltb. cbn. intros H. bool_to_prop; lia. Qed.

Lemma entry_trichotomy e f : entry_lt e f \/ e = f \/ entry_lt f e.
Proof.
  destruct e as [a b], f as [c d]. unfold entry_lt, entry_ltb. cbn.
  destruct (Z.lt_trichotomy a c) as [|[->|]]; [left; lia| |right; right; lia].
  destruct (Z.lt_trichotomy b d) as [|[->|]]; [left; lia|by right; left|right; right; lia].
Qed.

Lemma set_insert_ok e l : StronglySorted entry_lt l -> e ∉ l ->
  exists l', set_insert e l = Some l' /\ StronglySorted entry_lt l' /\ l' ≡ₚ e :: l /\
    (l' = e :: l \/ exists x l1, l = x :: l1 /\ entry_lt x e /\ head l' = Some x).
Proof.
  induction l as [|f l IH]; intros Hs Hn.
  - exists [e]. split_and!; [done|by repeat constructor|done|by left].
  - apply StronglySorted_cons in Hs as [Hf Hs]. apply not_elem_of_cons in Hn as [Hne Hn]. cbn [set_insert].
    destruct (entry_trichotomy e f) as [He|[He|He]]; [|done|].
    + unfold entry_lt in He. rewrite He. exists (e :: f :: l). split_and!; [done| |done|by left].
      apply StronglySorted_cons. split; [|by apply StronglySorted_cons]. constructor; [done|].
      eapply Forall_impl; [exact Hf|]. intros x Hx. by transitivity f.
    + assert (entry_ltb e f = false) as ->.
      { destruct (entry_ltb e f) eqn:E; [|done]. destruct (entry_lt_irrefl e). by transitivity f. }
      pose proof He as He'. unfold entry_lt in He'. rewrite He'. destruct (IH Hs Hn) as (l' & -> & Hs' & Hp & _).
      exists (f :: l'). split_and!; [done| |by rewrite Hp; constructor|right; by exists f, l].
      apply StronglySorted_cons. split; [|done]. rewrite Hp. by constructor.
Qed.

Lemma set_erase_ok e l : e ∈ l -> exists l', set_erase e l = Some l' /\ l ≡ₚ e :: l' /\ sublist l' l.
Proof.
  induction l as [|f l IH]; intros He; [by apply elem_of_nil in He|]. cbn [set_erase]. case_decide as Hf.
  - subst. exists l. split_and!; [done|done|by apply sublist_cons].
  - apply elem_of_cons in He as [->|He]; [done|]. destruct (IH He) as (l' & -> & Hp & Hsub). exists (f :: l'). split_and!; [done| |by apply sublist_skip].
    rewrite Hp. constructor.
Qed.

Lemma StronglySorted_sublist l l' : sublist l' l -> StronglySorted entry_lt l -> StronglySorted entry_lt l'.
Proof.
  induction 1 as [|x l1 l2 Hs IH|x l1 l2 Hs IH]; intros H; [done| |]; apply StronglySorted_cons in H as [Hx H].
  - apply StronglySorted_cons. split; [|auto]. rewrite Forall_forall in *. intros y Hy. by apply Hx, (sublist_subseteq l1 l2).
  - auto.
Qed.

Lemma lower_bound_ok s l : exists x y, lower_bound s l = (x, y) /\ l = x ++ y /\ Forall (fun e => entry_lt e s) x /\
  match y with e :: _ => ~ entry_lt e s | [] => True end.
Proof.
  induction l as [|e l IH]; [by exists [], []|]. cbn [lower_bound]. destruct (entry_ltb e s) eqn:E.
  - destruct IH as (x & y & -> & -> & Hx & Hy). exists (e :: x), y. split_and!; [done|done|by constructor|done].
  - exists [], (e :: l). split_and!; [done|done|done|]. unfold entry_lt. by rewrite E.
Qed.

(** ** Intervals *)

(** An interval that can be added to the clock: under 2^62 microseconds. *)
Definition interval_ok (d : Z) : Prop := exists us, secondsToMicros d = Some us /\ 0 <= us < 2 ^ 62.

Lemma addTime_ok now d : interval_ok d -> 0 < now < 2 ^ 62 -> exists when, addTime now d = Some when /\ now <= when < 2 ^ 63.
Proof.
  intros (us & E & Hus) Hn. unfold addTime. rewrite E. cbn [mbind option_bind]. unfold int64.
  destruct (Z.leb_spec (- 2 ^ 63) (now + us)); [|lia]. destruct (Z.ltb_spec (now + us) (2 ^ 63)); [|lia]. exists (now + us). split; [done|lia].
Qed.

(** An operation does nothing undefined, and what it returns satisfies [P]. *)
Definition ends {A} (r : Result A) (P : A -> Prop) : Prop :=
  match r with Ok a => P a | NoMemory => True | Bad => False end.

Lemma ends_bind {A B} (r : Result A) (f : A -> Result B) P Q : ends r P -> (forall a, P a -> ends (f a) Q) -> ends (r ≫= f) Q.
Proof. destruct r; cbn; auto; tauto. Qed.

Lemma ends_lift {A} (o : option A) (P : A -> Prop) : (exists a, o = Some a /\ P a) -> ends (lift o) P.
Proof. by intros (a & -> & H). Qed.

Lemma ends_mono {A} (r : Result A) (P Q : A -> Prop) : ends r P -> (forall a, P a -> Q a) -> ends r Q.
Proof. destruct r; cbn; auto. Qed.

(** What users may ask for: a time after the epoch, an interval in range. *)
Definition call_ok (c : TimerCall) : Prop :=
  match c with
  | TAdd _ when interval => 0 < when < 2 ^ 62 /\ (positive interval = true -> interval_ok interval)
  | TCancel _ => True
  end.

Record timer_env_ok (E : TimerEnv) : Prop := {
  te_alloc : forall h a, tv_alloc E h = Some a -> h !! a = None /\ 0 < a < UINTPTR_MAX;
  te_client : forall l, Forall call_ok (tv_client E l);
}.

(** ** The invariant

    [expired] are the entries taken out of the sets while their callbacks run. *)

Record queue_inv (expired : list Entry) (q : TimerQueue) : Prop := {
  qi_sorted : StronglySorted entry_lt (tq_timers q);
  qi_entry : forall w a, (w, a) ∈ tq_timers q ->
    exists t, tq_heap q !! a = Some t /\ tm_expiration t = w /\ (a, tm_sequence t) ∈ tq_activeTimers q;
  qi_active : forall a s, (a, s) ∈ tq_activeTimers q ->
    exists t, tq_heap q !! a = Some t /\ tm_sequence t = s /\ (tm_expiration t, a) ∈ tq_timers q;
  qi_size : length (tq_timers q) = size (tq_activeTimers q);
  qi_nodup : NoDup (map snd expired);
  qi_expired : forall w a, (w, a) ∈ expired ->
    exists t, tq_heap q !! a = Some t /\ tm_expiration t = w /\ forall s, (a, s) ∉ tq_activeTimers q;
  qi_heap : forall a t, tq_heap q !! a = Some t -> 0 < a < UINTPTR_MAX /\ 0 < tm_expiration t /\ tm_sequence t <= tq_created q /\
    (tm_repeat t = true -> interval_ok (tm_interval t));
  qi_owned : forall a t, tq_heap q !! a = Some t -> (a, tm_sequence t) ∈ tq_activeTimers q \/ a ∈ map snd expired;
  qi_seq : forall a a' t t', tq_heap q !! a = Some t -> tq_heap q !! a' = Some t' -> tm_sequence t = tm_sequence t' -> a = a';
}.

Lemma sizesAgree_ok expired q : queue_inv expired q -> sizesAgree q = true.
Proof. intros H. unfold sizesAgree. by rewrite bool_decide_true by apply H. Qed.

(** Only at an address in [P] can the timer of sequence [s] be, a timer created
    before; [dead]: it is gone, and sequences are not used twice. *)
Definition only (P : Z -> Prop) (s : Z) (q : TimerQueue) : Prop :=
  s <= tq_created q /\ forall a t, tq_heap q !! a = Some t -> tm_sequence t = s -> P a.
Definition dead (s : Z) (q : TimerQueue) : Prop := only (fun _ => False) s q.
Definition keeps (q q' : TimerQueue) : Prop := forall P s, only P s q -> only P s q'.

(** The descriptor is set in time for every timer. *)
Definition armed_ok (q : TimerQueue) : Prop :=
  tq_timers q <> [] -> exists d, tq_armed q = Some d /\ forall e, e ∈ tq_timers q -> d <= fst e.

(** What the history says: an identifier that was handed out names one timer,
    and once cancelled that timer is gone, or its callback is running and it
    will not be restarted. *)
Record hist_inv (expired : list Entry) (q : TimerQueue) : Prop := {
  hi_added : forall cb a s, TAdded cb (a, s) ∈ tq_log q -> only (eq a) s q;
  hi_cancelled : forall l1 id l2 cb, tq_log q = l1 ++ TCancelled id :: l2 -> TAdded cb id ∈ l1 ->
    dead (snd id) q \/ id ∈ tq_cancelingTimers q /\ fst id ∈ map snd expired;
}.

(** The steps from [q] to [q'] add [l] to the history; only what [l] says was
    cancelled is, and every other queued timer stays as it is. *)
Record traced (q q' : TimerQueue) (l : list TimerObs) : Prop := {
  td_log : tq_log q' = tq_log q ++ l;
  td_canceling : forall id, id ∈ tq_cancelingTimers q' -> id ∈ tq_cancelingTimers q \/ TCancelled id ∈ l;
  td_active : forall a s, (a, s) ∈ tq_activeTimers q ->
    TCancelled (a, s) ∈ l \/ (a, s) ∈ tq_activeTimers q' /\ tq_heap q' !! a = tq_heap q !! a;
}.

(** What a call changes: no expired timer, no dead sequence, no callback. *)
Definition firedSeqs (l : list TimerObs) : list Z := omap (fun o => match o with TFired _ s _ => Some s | _ => None end) l.

Record call_effect (expired : list Entry) (q q' : TimerQueue) : Prop := {
  ce_inv : queue_inv expired q';
  ce_expired : forall w a, (w, a) ∈ expired -> tq_heap q' !! a = tq_heap q !! a;
  ce_dead : keeps q q';
  ce_log : exists l, traced q q' l /\ firedSeqs l = [];
  ce_calling : tq_callingExpiredTimers q' = tq_callingExpiredTimers q;
  ce_armed : armed_ok q -> armed_ok q';
  ce_hist : expired = [] \/ tq_callingExpiredTimers q = true -> hist_inv expired q -> hist_inv expired q';
}.

(** ** Lemmas *)

Ltac tq_simpl := cbn [set_heap set_timers set_calling timer_log resetTimerfd tq_heap tq_created tq_timers tq_activeTimers
  tq_callingExpiredTimers tq_cancelingTimers tq_armed tq_log fst snd] in *.

Lemma firedSeqs_app l l' : firedSeqs (l ++ l') = firedSeqs l ++ firedSeqs l'.
Proof. apply omap_app. Qed.

(** The invariant speaks of the sets and the heap only. *)
Lemma queue_inv_ext expired q q' : tq_heap q' = tq_heap q -> tq_created q' = tq_created q -> tq_timers q' = tq_timers q ->
  tq_activeTimers q' = tq_activeTimers q -> queue_inv expired q -> queue_inv expired q'.
Proof. intros E1 E2 E3 E4 [H1 H2 H3 H4 H5 H6 H7 H8 H9]. by constructor; rewrite ?E1, ?E2, ?E3, ?E4. Qed.

Lemma size_add (x : ActiveTimer) (X : gset ActiveTimer) : x ∉ X -> size ({[x]} ∪ X) = S (size X).
Proof. intros H. rewrite size_union by set_solver. by rewrite size_singleton. Qed.

Lemma size_remove (x : ActiveTimer) (X : gset ActiveTimer) : x ∈ X -> size X = S (size (X ∖ {[x]})).
Proof. intros H. rewrite <- (size_add x) by set_solver. f_equal. by rewrite <- union_difference_singleton_L. Qed.

Lemma sorted_head x l y : StronglySorted entry_lt (x :: l) -> y ∈ x :: l -> fst x <= fst y.
Proof.
  intros [Hx _]%StronglySorted_cons [->|Hy]%elem_of_cons; [lia|]. rewrite Forall_forall in Hx. specialize (Hx y Hy).
  unfold entry_lt, entry_ltb in Hx. lia.
Qed.

Lemma sorted_nodup l : StronglySorted entry_lt l -> NoDup l.
Proof.
  induction l as [|x l IH]; intros H; [constructor|]. apply StronglySorted_cons in H as [Hx H]. apply NoDup_cons. split; [|auto].
  intros Hin. rewrite Forall_forall in Hx. by destruct (entry_lt_irrefl x (Hx x Hin)).
Qed.

Lemma keeps_ext q q' : tq_heap q' = tq_heap q -> tq_created q' = tq_created q -> keeps q q'.
Proof. intros E1 E2 P s [H1 H2]. split; by rewrite ?E1, ?E2. Qed.

Lemma traced_refl q : traced q q [].
Proof. constructor; [by rewrite app_nil_r|by left|by right]. Qed.

Lemma traced_trans q1 q2 q3 l1 l2 : traced q1 q2 l1 -> traced q2 q3 l2 -> traced q1 q3 (l1 ++ l2).
Proof.
  intros [A1 A2 A3] [B1 B2 B3]. constructor.
  - by rewrite B1, A1, app_assoc.
  - intros id Hid. rewrite elem_of_app. destruct (B2 id Hid) as [Hid'|]; [destruct (A2 id Hid')|]; tauto.
  - intros a s Hin. rewrite elem_of_app. destruct (A3 a s Hin) as [|[Hin' Eh]]; [tauto|]. destruct (B3 a s Hin') as [|[? Eh']]; [tauto|].
    right. split; [done|congruence].
Qed.

(** One more event, which changes no timer. *)
Lemma traced_log o q q' : tq_log q' = tq_log q ++ [o] -> tq_cancelingTimers q' = tq_cancelingTimers q ->
  tq_activeTimers q ⊆ tq_activeTimers q' -> (forall a s, (a, s) ∈ tq_activeTimers q -> tq_heap q' !! a = tq_heap q !! a) -> traced q q' [o].
Proof. intros El Ec Ea Eh. constructor; [done|rewrite Ec; by left|]. intros a s Hin. right. split; [by apply Ea|by apply (Eh a s)]. Qed.

(** One more event in the history. *)
Lemma hist_step expired o q q' : keeps q q' -> tq_log q' = tq_log q ++ [o] -> tq_cancelingTimers q ⊆ tq_cancelingTimers q' ->
  (forall cb a s, o = TAdded cb (a, s) -> only (eq a) s q') ->
  (forall cb id, o = TCancelled id -> TAdded cb id ∈ tq_log q -> dead (snd id) q' \/ id ∈ tq_cancelingTimers q' /\ fst id ∈ map snd expired) ->
  hist_inv expired q -> hist_inv expired q'.
Proof.
  intros Hk El Hcan Ho Hc [Ha Hd]. split.
  - intros cb a s. rewrite El, elem_of_app, list_elem_of_singleton. intros [Hin|Hin]; [by apply Hk, (Ha cb)|by apply (Ho cb)].
  - intros l1 id l2 cb. rewrite El. destruct l2 as [|x l2 _] using rev_ind.
    + intros [<- ->]%app_inj_tail Hin. by apply (Hc cb).
    + rewrite app_comm_cons, app_assoc. intros [E ->]%app_inj_tail Hin. destruct (Hd l1 id l2 cb E Hin) as [H|[H1 H2]]; [by left; apply Hk|].
      right. split; [by apply Hcan|done].
Qed.

Lemma hist_ext expired q q' : keeps q q' -> tq_log q' = tq_log q -> tq_cancelingTimers q ⊆ tq_cancelingTimers q' ->
  hist_inv expired q -> hist_inv expired q'.
Proof.
  intros Hk El Hcan [Ha Hd]. split.
  - intros cb a s. rewrite El. intros Hin. by apply Hk, (Ha cb).
  - intros l1 id l2 cb. rewrite El. intros E Hin. destruct (Hd l1 id l2 cb E Hin) as [H|[H1 H2]]; [by left; apply Hk|].
    right. split; [by apply Hcan|done].
Qed.

(** A timer outside the sets is put into them. *)
Lemma insertTimer_ok w a expired q : queue_inv ((w, a) :: expired) q ->
  exists ec timers' s, let q' := set_timers timers' ({[(a, s)]} ∪ tq_activeTimers q) q in
    insertTimer a q = Some (ec, q') /\ queue_inv expired q' /\ timers' ≡ₚ (w, a) :: tq_timers q /\
    (exists t, tq_heap q !! a = Some t /\ tm_expiration t = w /\ tm_sequence t = s) /\
    (if ec : bool then forall e, e ∈ tq_timers q -> w <= fst e else exists x, x ∈ tq_timers q /\ fst x <= w).
Proof.
  intros Hq. pose proof Hq as [H1 H2 H3 H4 H5 H6 H7 H8 H9]. destruct (H6 w a) as (t & Ht & Hw & Hna); [by left|].
  cbn [map snd] in H5. apply NoDup_cons in H5 as [Ha5 H5].
  assert ((w, a) ∉ tq_timers q) as Hnt.
  { intros Hin. destruct (H2 w a Hin) as (t' & Ht' & _ & Hact). by destruct (Hna (tm_sequence t')). }
  unfold insertTimer. rewrite Ht. cbn [mbind option_bind]. rewrite (sizesAgree_ok _ _ Hq). cbn [negb]. rewrite Hw.
  destruct (set_insert_ok (w, a) (tq_timers q) H1 Hnt) as (ts & -> & Hs & Hp & _). cbn [mbind option_bind].
  rewrite bool_decide_false by apply Hna. eexists _, ts, (tm_sequence t). cbv zeta.
  assert (sizesAgree (set_timers ts ({[(a, tm_sequence t)]} ∪ tq_activeTimers q) q) = true) as ->.
  { unfold sizesAgree. tq_simpl. rewrite bool_decide_true; [done|]. rewrite Hp, size_add by apply Hna. cbn [length]. by rewrite H4. }
  cbn [negb]. split; [done|]. split; [|split; [done|split; [by exists t|]]].
  - constructor; tq_simpl; try done.
    + intros w' a'. rewrite Hp, elem_of_cons. intros [[= -> ->]|Hin]; [exists t; split_and!; [done|done|set_solver]|].
      destruct (H2 w' a' Hin) as (t' & ? & ? & ?). exists t'. split_and!; [done|done|set_solver].
    + intros a' s. rewrite elem_of_union, elem_of_singleton. intros [[= -> ->]|Hin].
      * exists t. split_and!; [done|done|]. rewrite Hp, Hw. by left.
      * destruct (H3 a' s Hin) as (t' & ? & ? & ?). exists t'. split_and!; [done|done|]. rewrite Hp. by right.
    + rewrite Hp, size_add by apply Hna. cbn [length]. by rewrite H4.
    + intros w' a' Hin. destruct (H6 w' a') as (t' & ? & ? & Hn); [by right|]. exists t'. split_and!; [done|done|].
      intros s. rewrite elem_of_union, elem_of_singleton. intros [[= -> ->]|Hx]; [|by destruct (Hn s)].
      apply Ha5. by apply (list_elem_of_fmap_2 snd _ (w', a)).
    + intros a' t' Ht'. cbn [map snd] in H8. destruct (H8 a' t' Ht') as [?|[Ea|?]%elem_of_cons]; [left; set_solver| |by right].
      left. subst a'. assert (t' = t) as -> by congruence. set_solver.
  - destruct (tq_timers q) as [|[w' a'] l]; [by intros e He%elem_of_nil|]. destruct (Z.ltb_spec w w').
    + intros e He. pose proof (sorted_head _ _ _ H1 He). cbn in *. lia.
    + exists (w', a'). split; [by left|done].
Qed.

(** What creating a timer changes. *)
Record new_effect (cb : nat) (when : Z) (expired : list Entry) (q : TimerQueue) (a : Z) (q' : TimerQueue) : Prop := {
  ne_inv : queue_inv ((when, a) :: expired) q';
  ne_expired : forall w b, (w, b) ∈ expired -> tq_heap q' !! b = tq_heap q !! b;
  ne_keeps : keeps q q';
  ne_calling : tq_callingExpiredTimers q' = tq_callingExpiredTimers q;
  ne_timers : tq_timers q' = tq_timers q;
  ne_armed : tq_armed q' = tq_armed q;
  ne_canceling : tq_cancelingTimers q' = tq_cancelingTimers q;
  ne_only : only (eq a) (tq_created q + 1) q';
  ne_traced : traced q q' [TAdded cb (a, tq_created q + 1)];
}.

Lemma newTimer_ok E cb when interval expired q : timer_env_ok E -> call_ok (TAdd cb when interval) -> queue_inv expired q ->
  ends (newTimer E cb when interval q) (fun r => new_effect cb when expired q (fst r) (snd r)).
Proof.
  intros HE [Hw Hi] [H1 H2 H3 H4 H5 H6 H7 H8 H9]. unfold newTimer. destruct (tv_alloc E (tq_heap q)) as [a|] eqn:Ea; [|done].
  destruct (te_alloc E HE _ _ Ea) as [Hf Ha]. cbn [ends fst snd].
  assert (forall b t, tq_heap q !! b = Some t -> b <> a) as Hne by (intros b t Hb ->; congruence).
  assert (forall s, (a, s) ∉ tq_activeTimers q) as Hna by (intros s Hs; destruct (H3 a s Hs) as (t & Ht & _); congruence).
  assert (a ∉ map snd expired) as Hex.
  { intros Hin. apply list_elem_of_fmap in Hin as ([w b] & Eb & Hin). cbn in Eb. destruct (H6 w b Hin) as (t & Ht & _). by destruct (Hne b t Ht). }
  constructor; try done; cycle 1.
  - intros w b Hin. tq_simpl. destruct (H6 w b Hin) as (t & Ht & _). rewrite lookup_insert_ne; [done|]. intros ->. by destruct (Hne b t Ht).
  - intros P s [D1 D2]. split; tq_simpl; [lia|]. intros b t. destruct (decide (b = a)) as [->|Hb].
    + rewrite lookup_insert_eq. intros [= <-]. cbn. lia.
    + rewrite lookup_insert_ne by done. apply D2.
  - split; tq_simpl; [lia|]. intros b t. destruct (decide (b = a)) as [->|Hb]; [done|]. rewrite lookup_insert_ne by done.
    intros Ht Es. destruct (H7 b t Ht) as (_ & _ & ? & _). lia.
  - eapply traced_log; [done..|]. intros b s Hin. tq_simpl. destruct (H3 b s Hin) as (t & Ht & _). rewrite lookup_insert_ne; [done|].
    intros ->. by destruct (Hne b t Ht).
  - constructor; tq_simpl; try done.
    + intros w b Hin. destruct (H2 w b Hin) as (t & Ht & ?). exists t. rewrite lookup_insert_ne; [done|]. intros ->. by destruct (Hne b t Ht).
    + intros b s Hin. destruct (H3 b s Hin) as (t & Ht & ?). exists t. rewrite lookup_insert_ne; [done|]. intros ->. by destruct (Hne b t Ht).
    + by apply NoDup_cons.
    + intros w b [[= -> ->]|Hin]%elem_of_cons; [eexists; by rewrite lookup_insert_eq|].
      destruct (H6 w b Hin) as (t & Ht & ?). exists t. rewrite lookup_insert_ne; [done|]. intros ->. by destruct (Hne b t Ht).
    + intros b t. destruct (decide (b = a)) as [->|Hb]; [rewrite lookup_insert_eq; intros [= <-]; cbn; split_and!; try done; lia|].
      rewrite lookup_insert_ne by done. intros Ht. destruct (H7 b t Ht) as (? & ? & ? & ?). split_and!; try done; lia.
    + intros b t. destruct (decide (b = a)) as [->|Hb]; [intros _; right; by left|]. rewrite lookup_insert_ne by done.
      intros Ht. destruct (H8 b t Ht); [by left|right; by right].
    + intros b b' t t'. destruct (decide (b = a)) as [->|Hb], (decide (b' = a)) as [->|Hb']; try done;
        rewrite ?lookup_insert_eq, ?lookup_insert_ne by done; [| |apply H9]; intros Ht Ht'; simplify_eq; cbn; intros Es; exfalso.
      * destruct (H7 b' t' Ht') as (_ & _ & ? & _). lia.
      * destruct (H7 b t Ht) as (_ & _ & ? & _). lia.
Qed.

Lemma addTimer_ok E cb when interval expired q : timer_env_ok E -> call_ok (TAdd cb when interval) -> queue_inv expired q ->
  ends (addTimer E cb when interval q) (call_effect expired q).
Proof.
  intros HE Hc Hq. unfold addTimer. eapply ends_bind; [by apply (newTimer_ok E cb when interval expired q HE)|].
  intros [a q1] [Hq1 Hx Hd Hcall Et Ea Ecan Ho Htr]. cbn [fst snd] in *. pose proof (td_log _ _ _ Htr) as Hl. apply ends_lift. unfold addTimerInLoop.
  destruct (insertTimer_ok when a expired q1 Hq1) as (ec & ts & s & Ei & Hq2 & Hp & (t & Ht & Htw & Hts) & Hec). rewrite Ei. cbn [mbind option_bind].
  assert (forall q', tq_heap q' = tq_heap q1 -> tq_activeTimers q' = {[(a, s)]} ∪ tq_activeTimers q1 -> tq_log q' = tq_log q1 ->
    tq_cancelingTimers q' = tq_cancelingTimers q1 -> exists l, traced q q' l /\ firedSeqs l = []) as Hlog.
  { intros q' Eh Eact El Ecan'. exists ([TAdded cb (a, tq_created q + 1)] ++ []). split; [|done]. eapply traced_trans; [exact Htr|].
    constructor; [by rewrite app_nil_r|rewrite Ecan'; by left|]. intros b s' Hin. right. rewrite Eact, Eh. set_solver. }
  assert (forall q', keeps q1 q' -> tq_log q' = tq_log q1 -> tq_cancelingTimers q' = tq_cancelingTimers q1 -> hist_inv expired q -> hist_inv expired q') as Hh.
  { intros q' Hk El Ec. apply (hist_step expired (TAdded cb (a, tq_created q + 1))); [|by rewrite El|by rewrite Ec, Ecan| |done].
    - intros P s' H. by apply Hk, Hd.
    - intros ? ? ? [= -> <- <-]. by apply Hk. }
  destruct ec; tq_simpl.
  - rewrite Ht. cbn [mbind option_bind]. rewrite Htw. eexists. split; [done|].
    constructor; tq_simpl; try done; [by refine (queue_inv_ext _ _ _ _ _ _ _ Hq2)|by apply Hlog| |intros _; apply Hh; [by apply keeps_ext|done|done]]. intros _ _. exists when. split; [done|].
    intros e. tq_simpl. rewrite Hp. intros [->|He]%elem_of_cons; [cbn; lia|auto].
  - eexists. split; [done|]. constructor; tq_simpl; try done; [by apply Hlog| |intros _; apply Hh; [by apply keeps_ext|done|done]].
    destruct Hec as (x & Hxin & Hxw). intros Harm _. destruct Harm as (d & Hd1 & Hd2); [rewrite <- Et; intros E0; rewrite E0 in Hxin; by apply elem_of_nil in Hxin|].
    exists d. tq_simpl. rewrite Ea. split; [done|]. intros e. rewrite Hp, Et. rewrite Et in Hxin. specialize (Hd2 x Hxin) as Hdx.
    intros [->|He]%elem_of_cons; [cbn; lia|auto].
Qed.

Lemma active_unique expired q a s s' : queue_inv expired q -> (a, s) ∈ tq_activeTimers q -> (a, s') ∈ tq_activeTimers q -> s = s'.
Proof.
  intros Hq Hs Hs'. destruct (qi_active _ _ Hq a s Hs) as (t & Ht & <- & _), (qi_active _ _ Hq a s' Hs') as (t' & Ht' & <- & _). congruence.
Qed.

(** A queued timer is taken out of the sets and deleted. *)
Lemma delete_active a t ts expired q : queue_inv expired q -> (a, tm_sequence t) ∈ tq_activeTimers q -> tq_heap q !! a = Some t ->
  tq_timers q ≡ₚ (tm_expiration t, a) :: ts -> sublist ts (tq_timers q) ->
  let q' := set_heap (delete a (tq_heap q)) (set_timers ts (tq_activeTimers q ∖ {[(a, tm_sequence t)]}) q) in
  queue_inv expired q' /\ keeps q q' /\ dead (tm_sequence t) q' /\ forall w b, (w, b) ∈ expired -> tq_heap q' !! b = tq_heap q !! b.
Proof.
  intros [H1 H2 H3 H4 H5 H6 H7 H8 H9] Hact Ht Hp Hsub q'. subst q'.
  assert (forall w b, (w, b) ∈ ts -> b <> a) as Hts.
  { intros w b Hb ->. pose proof (sorted_nodup _ H1) as Hnd. rewrite Hp in Hnd. apply NoDup_cons in Hnd as [Hnin _].
    destruct (H2 w a) as (t' & Ht' & Hw & _); [rewrite Hp; by right|]. simplify_eq. done. }
  assert (forall w b, (w, b) ∈ expired -> b <> a) as Hexp.
  { intros w b Hb ->. destruct (H6 w a Hb) as (? & _ & _ & Hn). by destruct (Hn (tm_sequence t)). }
  split; [|split; [|split]].
  - constructor; tq_simpl; try done.
    + by eapply StronglySorted_sublist.
    + intros w b Hb. destruct (H2 w b) as (t' & ? & ? & ?); [rewrite Hp; by right|]. exists t'.
      rewrite lookup_delete_ne by (intros ->; by destruct (Hts w b)). split_and!; [done|done|]. pose proof (Hts w b Hb). set_solver.
    + intros b s' [Hb Hne]%elem_of_difference. destruct (H3 b s' Hb) as (t' & Ht' & Hs' & Hin'). exists t'.
      assert (b <> a) as Hba by (intros ->; apply Hne; simplify_eq; set_solver).
      rewrite lookup_delete_ne by done. split_and!; [done|done|]. rewrite Hp in Hin'. apply elem_of_cons in Hin' as [[= _ ->]|]; done.
    + rewrite Hp in H4. cbn [length] in H4. rewrite (size_remove _ _ Hact) in H4. lia.
    + intros w b Hb. destruct (H6 w b Hb) as (t' & ? & ? & Hn). exists t'. rewrite lookup_delete_ne by (intros ->; by destruct (Hexp w b)).
      split_and!; [done|done|]. intros s'. specialize (Hn s'). set_solver.
    + intros b t' [Hne Hb]%lookup_delete_Some. auto.
    + intros b t' [Hne Hb]%lookup_delete_Some. destruct (H8 b t' Hb); [left; set_solver|by right].
    + intros b b' u u' [_ Hb]%lookup_delete_Some [_ Hb']%lookup_delete_Some. by apply H9.
  - intros P s' [D1 D2]. split; tq_simpl; [done|]. intros b u [_ Hb]%lookup_delete_Some. by apply (D2 b).
  - split; tq_simpl; [by destruct (H7 a t Ht) as (_ & _ & ? & _)|]. intros b u [Hne Hb]%lookup_delete_Some Es. by destruct (Hne (H9 a b t u Ht Hb (eq_sym Es))).
  - tq_simpl. intros w b Hb. rewrite lookup_delete_ne; [done|]. intros ->. by destruct (Hexp w b).
Qed.

(** A timer that is neither queued nor expired is gone. *)
Lemma gone_dead a s expired q : queue_inv expired q -> only (eq a) s q -> (a, s) ∉ tq_activeTimers q -> a ∉ map snd expired -> dead s q.
Proof.
  intros Hq [Hs Ho] Hna Hne. split; [done|]. intros b t Ht Es. pose proof (Ho b t Ht Es) as <-.
  destruct (qi_owned _ _ Hq a t Ht) as [Hin|]; [|done]. by rewrite Es in Hin.
Qed.

Lemma cancel_ok id expired q : queue_inv expired q -> exists q', cancelInLoop id q = Some q' /\ call_effect expired q q'.
Proof.
  intros Hq. unfold cancelInLoop. set (q0 := timer_log _ q). assert (queue_inv expired q0) as Hq0 by (by refine (queue_inv_ext _ _ _ _ _ _ _ Hq)).
  rewrite (sizesAgree_ok _ _ Hq0). cbn [negb]. destruct id as [a s]. change (tq_activeTimers q0) with (tq_activeTimers q). case_bool_decide as Hact.
  - destruct (qi_active _ _ Hq0 a s Hact) as (t & Ht & <- & Hin). cbn [fst]. rewrite Ht. cbn [mbind option_bind].
    destruct (set_erase_ok _ _ Hin) as (ts & -> & Hp & Hsub). cbn [mbind option_bind]. eexists. split; [done|].
    destruct (delete_active a t ts expired q0 Hq0 Hact Ht Hp Hsub) as (Hq1 & Hk & Hd & He).
    constructor; [done|done|done| |done| |].
    + exists [TCancelled (a, tm_sequence t)]. split; [|done]. constructor; [done|by left|]. intros b s Hb. tq_simpl.
      destruct (decide (b = a)) as [->|Hne]; [|right; rewrite lookup_delete_ne by done; split; [set_solver|done]].
      left. rewrite (active_unique _ _ a s (tm_sequence t) Hq0 Hb Hact). by left.
    + intros Harm Hne. destruct Harm as (d & Hd1 & Hd2); [intros E0; change (tq_timers q0) with (tq_timers q) in Hin; rewrite E0 in Hin; by apply elem_of_nil in Hin|].
      exists d. split; [done|]. intros e He'. apply Hd2. change (tq_timers q0) with (tq_timers q) in Hp. rewrite Hp. by right.
    + intros _. apply (hist_step expired (TCancelled (a, tm_sequence t))); [done|done|done|done|]. intros cb id [= <-] _. by left.
  - assert (forall q', keeps q q' -> tq_log q' = tq_log q0 -> tq_cancelingTimers q ⊆ tq_cancelingTimers q' ->
      ((a, s) ∈ tq_cancelingTimers q' \/ expired = []) -> hist_inv expired q -> hist_inv expired q') as Hh.
    { intros q' Hk El Ec Hor Hh. eapply (hist_step expired (TCancelled (a, s))); [exact Hk|exact El|exact Ec|done| |exact Hh].
      intros cb id [= <-] Hin. cbn [fst snd]. destruct (decide (a ∈ map snd expired)) as [Hx|Hx].
      - right. destruct Hor as [|Hn]; [done|]. rewrite Hn in Hx. by apply elem_of_nil in Hx.
      - left. apply Hk, (gone_dead a s expired q); [done|by apply (hi_added _ _ Hh cb)|done|done]. }
    destruct (tq_callingExpiredTimers q0) eqn:Ec; change (tq_callingExpiredTimers q0) with (tq_callingExpiredTimers q) in Ec; (eexists; split; [done|]).
    + constructor; [by refine (queue_inv_ext _ _ _ _ _ _ _ Hq)|done|by apply keeps_ext| |cbn; congruence|done|intros _].
      { exists [TCancelled (a, s)]. split; [|done]. constructor; [done| |by right]. cbn. intros id [->%elem_of_singleton|]%elem_of_union; [right; by left|by left]. }
      apply Hh; [by apply keeps_ext|done|cbn; set_solver|left; cbn; set_solver].
    + constructor; [done|done|by apply keeps_ext|by exists [TCancelled (a, s)]; split; [apply (traced_log (TCancelled (a, s)))|]|done|done|]. intros [->|]; [|congruence].
      apply Hh; [by apply keeps_ext|done|done|by right].
Qed.

Lemma call_effect_refl expired q : queue_inv expired q -> call_effect expired q q.
Proof. intros H. constructor; try done; [by intros P s|exists []; split; [apply traced_refl|done]]. Qed.

Lemma call_effect_trans expired q1 q2 q3 : call_effect expired q1 q2 -> call_effect expired q2 q3 -> call_effect expired q1 q3.
Proof.
  intros [A1 A2 A3 (l1 & A4 & A5) A6 A7 A8] [B1 B2 B3 (l2 & B4 & B5) B6 B7 B8]. constructor; [done| |by intros P s Hs; apply B3, A3| |congruence|auto|].
  - intros w a Hin. rewrite (B2 w a Hin). by apply (A2 w).
  - exists (l1 ++ l2). split; [by eapply traced_trans|]. by rewrite firedSeqs_app, A5, B5.
  - intros Hc Hh. apply B8; [|by apply A8]. by rewrite A6.
Qed.

Lemma timerCall_ok E c expired q : timer_env_ok E -> call_ok c -> queue_inv expired q -> ends (timerCall E c q) (call_effect expired q).
Proof. intros HE Hc Hq. destruct c as [cb when i|id]; [by apply addTimer_ok|]. by apply ends_lift, cancel_ok. Qed.

Lemma timerCalls_ok E cs expired : timer_env_ok E -> forall q, Forall call_ok cs -> queue_inv expired q ->
  ends (timerCalls E cs q) (call_effect expired q).
Proof.
  intros HE. induction cs as [|c cs IH]; intros q Hcs Hq; [by apply call_effect_refl|].
  apply Forall_cons in Hcs as [Hc Hcs]. cbn [timerCalls]. eapply ends_bind; [by apply (timerCall_ok E c expired q HE)|].
  intros q1 H1. eapply ends_mono; [apply (IH q1 Hcs (ce_inv _ _ _ H1))|]. intros q2. by apply call_effect_trans.
Qed.

(** ** Expiry *)

(** The timers of entries, by the heap. *)
Definition seq_at (h : gmap Z Timer) (e : Entry) (s : Z) : Prop := exists t, h !! snd e = Some t /\ tm_sequence t = s.

Lemma eraseActive_ok h es : forall act, NoDup (map snd es) ->
  (forall w a, (w, a) ∈ es -> exists t, h !! a = Some t /\ (a, tm_sequence t) ∈ act) ->
  (forall a s s', (a, s) ∈ act -> (a, s') ∈ act -> s = s') ->
  exists act', eraseActive h es act = Some act' /\ size act = (length es + size act')%nat /\
    forall a s, (a, s) ∈ act' <-> (a, s) ∈ act /\ a ∉ map snd es.
Proof.
  induction es as [|[w a] es IH]; intros act Hnd Hin Hu.
  - exists act. split_and!; [done|done|]. intros a s. split; [|tauto]. intros H. split; [done|]. apply not_elem_of_nil.
  - cbn [map snd] in *. apply NoDup_cons in Hnd as [Ha Hnd]. destruct (Hin w a) as (t & Ht & Hact); [by left|].
    cbn [eraseActive]. rewrite Ht. cbn [mbind option_bind]. rewrite bool_decide_true by done.
    destruct (IH (act ∖ {[(a, tm_sequence t)]}) Hnd) as (act' & E1 & Hsz & Hel).
    + intros w' a' Hin'. destruct (Hin w' a') as (t' & Ht' & Hact'); [by right|]. exists t'. split; [done|].
      assert (a' <> a) by (intros ->; apply Ha; by apply (list_elem_of_fmap_2 snd _ (w', a))). set_solver.
    + intros b s s' Hs Hs'. apply (Hu b); set_solver.
    + exists act'. split_and!; [done|pose proof (size_remove _ _ Hact) as Hr; cbn [length]; lia|]. intros b s. rewrite Hel, elem_of_difference, not_elem_of_cons.
      split; [|intros (Hb & Hne & Hm); split_and!; [done|set_solver|done]]. intros [[Hb Hne] Hm]. split_and!; [done| |done].
      intros ->. apply Hne. rewrite (Hu a s (tm_sequence t) Hb Hact). set_solver.
Qed.

(** Every address has one entry. *)
Lemma timers_addresses expired q l : queue_inv expired q -> sublist l (tq_timers q) -> NoDup (map snd l).
Proof.
  intros Hq Hl. apply NoDup_fmap_2_strong; [|exact (sublist_NoDup _ _ (sorted_nodup _ (qi_sorted _ _ Hq)) Hl)].
  intros [w a] [w' a'] H1 H2 E. cbn in E. subst. pose proof (sublist_subseteq _ _ Hl) as Hsub.
  destruct (qi_entry _ _ Hq w a' (Hsub _ H1)) as (t & Ht & <- & _), (qi_entry _ _ Hq w' a' (Hsub _ H2)) as (t' & Ht' & <- & _). congruence.
Qed.

(** What is due: the entries up to [now]. *)
Definition due (now : Z) (q : TimerQueue) : list Entry := filter (fun e => fst e <= now) (tq_timers q).

Lemma split_due now q x y : queue_inv [] q -> tq_timers q = x ++ y -> Forall (fun e => entry_lt e (now, UINTPTR_MAX)) x ->
  match y with e :: _ => ~ entry_lt e (now, UINTPTR_MAX) | [] => True end ->
  due now q = x /\ (forall e, e ∈ y -> now < fst e).
Proof.
  intros Hq El Hx Hy. assert (forall e, e ∈ y -> now < fst e) as Hlate.
  { intros e He. destruct y as [|[w a] y]; [by apply elem_of_nil in He|]. pose proof (qi_sorted _ _ Hq) as Hs. rewrite El in Hs.
    apply StronglySorted_app in Hs as (_ & _ & Hs). pose proof (sorted_head _ _ _ Hs He) as Hle.
    destruct (qi_entry _ _ Hq w a) as (t & Ht & _); [rewrite El; apply elem_of_app; right; by left|].
    destruct (qi_heap _ _ Hq a t Ht) as [Ha _]. unfold entry_lt, entry_ltb in Hy. cbn in *. lia. }
  split; [|done]. unfold due. rewrite El, filter_app.
  assert (filter (fun e : Entry => fst e <= now) x = x) as ->.
  { clear -Hx. induction Hx as [|e x He Hx IH]; [done|]. rewrite filter_cons_True, IH; [done|].
    destruct e. unfold entry_lt, entry_ltb in He. cbn in *. lia. }
  assert (filter (fun e : Entry => fst e <= now) y = []) as ->; [|by rewrite app_nil_r].
  clear -Hlate. induction y as [|e y IH]; [done|]. rewrite filter_cons_False; [apply IH; intros; apply Hlate; by right|].
  specialize (Hlate e (list_elem_of_here _ _)). lia.
Qed.

Lemma getExpired_ok now q : queue_inv [] q -> exists q1, getExpired now q = Some (due now q, q1) /\ queue_inv (due now q) q1 /\
  tq_heap q1 = tq_heap q /\ tq_created q1 = tq_created q /\ tq_log q1 = tq_log q /\
  (forall a s, (a, s) ∈ tq_activeTimers q1 <-> (a, s) ∈ tq_activeTimers q /\ a ∉ map snd (due now q)).
Proof.
  intros Hq. pose proof Hq as [H1 H2 H3 H4 H5 H6 H7 H8 H9]. unfold getExpired. rewrite (sizesAgree_ok _ _ Hq). cbn [negb].
  destruct (lower_bound_ok (now, UINTPTR_MAX) (tq_timers q)) as (x & y & Eb & El & Hx & Hy). rewrite Eb.
  destruct (split_due now q x y Hq El Hx Hy) as [Ed Hlate]. rewrite Ed.
  assert (negb (match y with [] => true | (w, _) :: _ => now <? w end) = false) as ->.
  { destruct y as [|[w a] y]; [done|]. specialize (Hlate (w, a) (list_elem_of_here _ _)). cbn in Hlate. apply negb_false_iff. lia. }
  assert (sublist x (tq_timers q)) as Hsub by (rewrite El; by apply sublist_inserts_r).
  assert (forall e, e ∈ x -> e ∈ tq_timers q) as Hxin by (intros; by apply (sublist_subseteq _ _ Hsub)).
  destruct (eraseActive_ok (tq_heap q) x (tq_activeTimers q)) as (act & Ea & Hsz & Hel).
  { by eapply timers_addresses. }
  { intros w a Hin. destruct (H2 w a (Hxin _ Hin)) as (t & Ht & _ & Hact). by exists t. }
  { intros. by eapply active_unique. }
  rewrite Ea. cbn [mbind option_bind]. assert (length y = size act) as Hly by (rewrite El, length_app in H4; lia).
  unfold sizesAgree. tq_simpl. rewrite bool_decide_true by done. cbn [negb]. eexists. split; [done|]. split; [|by split_and!].
  assert (forall w a, (w, a) ∈ y -> a ∉ map snd x) as Hdisj.
  { intros w a Hin. pose proof (timers_addresses _ _ (tq_timers q) Hq ltac:(done)) as Hnd. rewrite El, map_app in Hnd.
    apply NoDup_app in Hnd as (_ & Hnd & _). intros Hx'. apply (Hnd a Hx'). by apply (list_elem_of_fmap_2 snd _ (w, a)). }
  constructor; tq_simpl; try done.
  - rewrite El in H1. by apply StronglySorted_app in H1 as (_ & _ & H1).
  - intros w a Hin. destruct (H2 w a) as (t & Ht & Hw & Hact); [rewrite El; apply elem_of_app; by right|].
    exists t. split_and!; [done|done|]. apply Hel. split; [done|by eapply Hdisj].
  - intros a s Hin. apply Hel in Hin as [Hin Hnx]. destruct (H3 a s Hin) as (t & Ht & Hs & Hmem). exists t. split_and!; [done|done|].
    rewrite El in Hmem. apply elem_of_app in Hmem as [Hmem|]; [|done]. destruct Hnx. by apply (list_elem_of_fmap_2 snd _ (tm_expiration t, a)).
  - by eapply timers_addresses.
  - intros w a Hin. destruct (H2 w a (Hxin _ Hin)) as (t & Ht & Hw & _). exists t. split_and!; [done|done|]. intros s Hs. apply Hel in Hs as [_ Hs].
    apply Hs. by apply (list_elem_of_fmap_2 snd _ (w, a)).
  - intros a t Ht. destruct (decide (a ∈ map snd x)) as [|Hnx]; [by right|]. left. apply Hel. split; [|done].
    destruct (H8 a t Ht) as [|Hn%elem_of_nil]; done.
Qed.

(** *** Callbacks *)

Lemma seq_at_heap h h' es l : (forall e, e ∈ es -> h !! snd e = h' !! snd e) -> Forall2 (seq_at h) es l -> Forall2 (seq_at h') es l.
Proof.
  intros He H. induction H as [|e s es l (t & Ht & Hs) H IH]; constructor.
  - exists t. split; [|done]. rewrite <- Ht. symmetry. apply He. by left.
  - apply IH. intros e' He'. apply He. by right.
Qed.

Record run_effect (expired es : list Entry) (q q' : TimerQueue) (l : list TimerObs) : Prop := {
  ru_inv : queue_inv expired q';
  ru_expired : forall w a, (w, a) ∈ expired -> tq_heap q' !! a = tq_heap q !! a;
  ru_keeps : keeps q q';
  ru_traced : traced q q' l;
  ru_fires : Forall2 (seq_at (tq_heap q)) es (firedSeqs l);
  ru_hist : hist_inv expired q -> hist_inv expired q';
}.

Lemma runExpired_ok E now expired es : timer_env_ok E -> (forall e, e ∈ es -> e ∈ expired) -> forall q, queue_inv expired q ->
  tq_callingExpiredTimers q = true -> ends (runExpired E now es q) (fun q' => exists l, run_effect expired es q q' l).
Proof.
  intros HE. induction es as [|[w a] es IH]; intros Hes q Hq Hc.
  - exists []. constructor; [done|done|by intros P s|apply traced_refl|done|done].
  - destruct (qi_expired _ _ Hq w a) as (t & Ht & Hw & Hn); [apply Hes; by left|]. cbn [runExpired]. rewrite Ht.
    change (lift (Some t) ≫= ?f) with (f t). cbv beta. set (o := TFired _ _ _). set (q1 := timer_log o q).
    assert (queue_inv expired q1) as Hq1 by (by refine (queue_inv_ext _ _ _ _ _ _ _ Hq)).
    eapply ends_bind; [exact (timerCalls_ok E (tv_client E (tq_log q1)) expired HE q1 (te_client E HE _) Hq1)|].
    intros q2 [C1 C2 C3 (l2 & C4 & C5) C6 _ C7].
    eapply ends_mono; [apply (IH ltac:(intros e He; apply Hes; by right) q2 C1); by rewrite C6|]. intros q3 (l3 & [Hq3 Hh Hd Htr Hf Hhist]).
    exists (([o] ++ l2) ++ l3). constructor; [done|..].
    + intros w' a' Hin. by rewrite (Hh w' a' Hin), (C2 w' a' Hin).
    + intros P s Hs. apply Hd, C3. exact Hs.
    + eapply traced_trans; [|exact Htr]. eapply traced_trans; [|exact C4]. by apply traced_log.
    + rewrite !firedSeqs_app, C5. constructor; [by exists t|]. eapply seq_at_heap; [|exact Hf].
      intros [w' a'] Hin. apply (C2 w'). apply Hes. by right.
    + intros H. apply Hhist, C7; [by right|]. by apply (hist_step expired o q q1); [apply keeps_ext|..].
Qed.

(** *** Restarting *)

Lemma heap_restart w a when t es q : queue_inv ((w, a) :: es) q -> tq_heap q !! a = Some t -> 0 < when ->
  let t' := mkTimer (tm_callback t) when (tm_interval t) (tm_repeat t) (tm_sequence t) in
  let q' := set_heap (<[a := t']> (tq_heap q)) q in
  queue_inv ((when, a) :: es) q' /\ keeps q q'.
Proof.
  intros [H1 H2 H3 H4 H5 H6 H7 H8 H9] Ht Hw t' q'. destruct (H6 w a) as (t0 & Ht0 & _ & Hna); [by left|].
  assert (t0 = t) as -> by congruence. clear Ht0. cbn [map snd] in H5. pose proof H5 as H5'. apply NoDup_cons in H5' as [Ha _].
  assert (forall b s, (b, s) ∈ tq_activeTimers q -> b <> a) as Hact by (intros b s Hb ->; by destruct (Hna s)).
  assert (forall b u, tq_heap q' !! b = Some u -> exists u0, tq_heap q !! b = Some u0 /\ tm_sequence u0 = tm_sequence u) as Hold.
  { intros b u. subst q'. tq_simpl. destruct (decide (b = a)) as [->|Hb]; [rewrite lookup_insert_eq; intros [= <-]; by exists t|].
    rewrite lookup_insert_ne by done. intros Hu. by exists u. }
  split; [constructor; subst q'; tq_simpl; try done|].
  - intros w' b Hb. destruct (H2 w' b Hb) as (u & Hu & Hw' & Hs). exists u. rewrite lookup_insert_ne; [done|]. intros ->. by destruct (Hna (tm_sequence u)).
  - intros b s Hb. destruct (H3 b s Hb) as (u & Hu & Hs). exists u. rewrite lookup_insert_ne; [done|]. intros ->. by destruct (Hna s).
  - intros w' b [[= -> ->]|Hb]%elem_of_cons; [exists t'; by rewrite lookup_insert_eq|].
    destruct (H6 w' b) as (u & Hu & Hs); [by right|]. exists u. rewrite lookup_insert_ne; [done|]. intros ->.
    apply Ha. by apply (list_elem_of_fmap_2 snd _ (w', b)).
  - intros b u. destruct (decide (b = a)) as [->|Hb]; [|rewrite lookup_insert_ne by done; apply H7].
    rewrite lookup_insert_eq. intros [= <-]. destruct (H7 a t Ht) as ([? ?] & _ & ? & ?). subst t'. cbn. split_and!; done.
  - intros b u Hu. destruct (Hold b u Hu) as (u0 & Hu0 & Es). destruct (H8 b u0 Hu0); [left; by rewrite <- Es|by right].
  - intros b b' u u' Hu Hu' Es. destruct (Hold b u Hu) as (u0 & Hu0 & Es0), (Hold b' u' Hu') as (u1 & Hu1 & Es1).
    apply (H9 b b' u0 u1); congruence.
  - intros P s [D1 D2]. split; [done|]. intros b u Hu Es. destruct (Hold b u Hu) as (u0 & Hu0 & Es0). apply (D2 b u0); congruence.
Qed.

Lemma heap_delete w a t es q : queue_inv ((w, a) :: es) q -> tq_heap q !! a = Some t ->
  let q' := set_heap (delete a (tq_heap q)) q in
  queue_inv es q' /\ keeps q q' /\ dead (tm_sequence t) q'.
Proof.
  intros [H1 H2 H3 H4 H5 H6 H7 H8 H9] Ht q'. destruct (H6 w a) as (t0 & _ & _ & Hna); [by left|].
  cbn [map snd] in H5. apply NoDup_cons in H5 as [Ha H5].
  split; [constructor; subst q'; tq_simpl; try done|split].
  - intros w' b Hb. destruct (H2 w' b Hb) as (u & Hu & Hw' & Hs). exists u. rewrite lookup_delete_ne; [done|]. intros ->. by destruct (Hna (tm_sequence u)).
  - intros b s Hb. destruct (H3 b s Hb) as (u & Hu & Hs). exists u. rewrite lookup_delete_ne; [done|]. intros ->. by destruct (Hna s).
  - intros w' b Hb. destruct (H6 w' b) as (u & Hu & Hs); [by right|]. exists u. rewrite lookup_delete_ne; [done|]. intros ->.
    apply Ha. by apply (list_elem_of_fmap_2 snd _ (w', b)).
  - intros b u [_ Hu]%lookup_delete_Some. auto.
  - intros b u [Hne Hu]%lookup_delete_Some. destruct (H8 b u Hu) as [|Hin]; [by left|right]. cbn [map snd] in Hin.
    apply elem_of_cons in Hin as [->|]; done.
  - intros b b' u u' [_ Hu]%lookup_delete_Some [_ Hu']%lookup_delete_Some. by apply H9.
  - intros P s [D1 D2]. subst q'. split; tq_simpl; [done|]. intros b u [_ Hu]%lookup_delete_Some. by apply (D2 b).
  - subst q'. split; tq_simpl; [destruct (H7 a t Ht) as (_ & _ & ? & _); done|]. intros b u [Hne Hu]%lookup_delete_Some Es. by destruct (Hne (H9 a b t u Ht Hu (eq_sym Es))).
Qed.

(** Whether a timer that fired is to run again. *)
Definition recurs (q : TimerQueue) (a : Z) (t : Timer) : bool :=
  tm_repeat t && negb (bool_decide ((a, tm_sequence t) ∈ tq_cancelingTimers q)).

Definition reset_result (now : Z) (q q' : TimerQueue) (es : list Entry) : Prop :=
  forall w a t, (w, a) ∈ es -> tq_heap q !! a = Some t ->
    if recurs q a t then exists when, addTime now (tm_interval t) = Some when /\ now <= when /\ (when, a) ∈ tq_timers q'
    else dead (tm_sequence t) q'.

Record reset_effect (now : Z) (es : list Entry) (q q' : TimerQueue) : Prop := {
  re_inv : queue_inv [] q';
  re_dead : keeps q q';
  re_log : tq_log q' = tq_log q;
  re_calling : tq_callingExpiredTimers q' = tq_callingExpiredTimers q;
  re_timers : forall e, e ∈ tq_timers q -> e ∈ tq_timers q';
  re_active : tq_activeTimers q ⊆ tq_activeTimers q';
  re_heap : forall b, b ∉ map snd es -> tq_heap q' !! b = tq_heap q !! b;
  re_result : reset_result now q q' es;
}.

(** The effect of one timer and of the rest. *)
Lemma reset_effect_cons now w a t es q q1 q' : queue_inv ((w, a) :: es) q -> tq_heap q !! a = Some t ->
  (forall b, b <> a -> tq_heap q1 !! b = tq_heap q !! b) -> keeps q q1 -> tq_log q1 = tq_log q ->
  tq_callingExpiredTimers q1 = tq_callingExpiredTimers q -> tq_cancelingTimers q1 = tq_cancelingTimers q ->
  (forall e, e ∈ tq_timers q -> e ∈ tq_timers q1) -> tq_activeTimers q ⊆ tq_activeTimers q1 ->
  (if recurs q a t then exists when, addTime now (tm_interval t) = Some when /\ now <= when /\ (when, a) ∈ tq_timers q1
   else dead (tm_sequence t) q1) ->
  reset_effect now es q1 q' -> reset_effect now ((w, a) :: es) q q'.
Proof.
  intros Hq Ht Hh Hd Hl Hc Hcan Hts Hact Hr [R1 R2 R3 R4 R5 R7 R8 R6]. pose proof (qi_nodup _ _ Hq) as Hnd. cbn [map snd] in Hnd. apply NoDup_cons in Hnd as [Ha _].
  constructor; [done|by intros P s Hs; apply R2, Hd|congruence|congruence|auto|set_solver| |].
  { cbn [map snd]. intros b [Hb Hb']%not_elem_of_cons. by rewrite (R8 b Hb'), (Hh b Hb). }
  intros w' b u [[= -> ->]|Hin]%elem_of_cons Hu.
  - assert (u = t) as -> by congruence. destruct (recurs q a t); [|by apply R2]. destruct Hr as (when & ? & ? & ?). exists when. auto.
  - assert (b <> a) as Hb by (intros ->; apply Ha; by apply (list_elem_of_fmap_2 snd _ (w', a))).
    rewrite <- (Hh b Hb) in Hu. specialize (R6 w' b u Hin Hu). unfold recurs in *. by rewrite Hcan in R6.
Qed.

Lemma resetLoop_ok now es : 0 < now < 2 ^ 62 -> forall q, queue_inv es q -> exists q', resetLoop now es q = Some q' /\ reset_effect now es q q'.
Proof.
  intros Hnow. induction es as [|[w a] es IH]; intros q Hq.
  - exists q. split; [done|]. constructor; [done|by intros P s|done|done|done|done|done|by intros w a t Hin%elem_of_nil].
  - destruct (qi_expired _ _ Hq w a) as (t & Ht & _ & _); [by left|]. cbn [resetLoop]. rewrite Ht. cbn [mbind option_bind].
    fold (recurs q a t). destruct (recurs q a t) eqn:Er.
    + assert (tm_repeat t = true) as Hrep by (unfold recurs in Er; by apply andb_true_iff in Er as [? _]).
      destruct (qi_heap _ _ Hq a t Ht) as (_ & _ & _ & Hi). destruct (addTime_ok now _ (Hi Hrep) Hnow) as (when & Ea & Hwhen).
      unfold restart. rewrite Hrep, Ea. cbn [mbind option_bind].
      destruct (heap_restart w a when t es q Hq Ht) as [Hq1 Hd1]; [lia|]. cbv zeta in Hq1, Hd1. rewrite Hrep in Hq1, Hd1.
      destruct (insertTimer_ok when a es _ Hq1) as (ec & ts & s & Ei & Hq2 & Hp & _ & _). rewrite Ei. cbn [mbind option_bind].
      destruct (IH _ Hq2) as (q3 & E3 & R3). exists q3. split; [exact E3|]. eapply reset_effect_cons; [exact Hq|exact Ht|..|exact R3]; tq_simpl; try done.
      * intros b Hb. by rewrite lookup_insert_ne.
      * intros e He. rewrite Hp. by right.
      * set_solver.
      * rewrite Er. exists when. split_and!; [done|lia|]. rewrite Hp. by left.
    + destruct (heap_delete w a t es q Hq Ht) as (Hq1 & Hd1 & Hdt). destruct (IH _ Hq1) as (q3 & E3 & R3). exists q3. split; [exact E3|].
      eapply reset_effect_cons; [exact Hq|exact Ht|..|exact R3]; tq_simpl; try done.
      * intros b Hb. by rewrite lookup_delete_ne.
      * by rewrite Er.
Qed.

(** [reset] sets the descriptor to the earliest timer. *)
Lemma reset_ok now es q : 0 < now < 2 ^ 62 -> queue_inv es q -> exists q', reset now es q = Some q' /\ reset_effect now es q q' /\
  armed_ok q' /\ match tq_timers q' with [] => True | e :: _ => tq_armed q' = Some (fst e) end.
Proof.
  intros Hnow Hq. destruct (resetLoop_ok now es Hnow q Hq) as (q1 & E1 & R). unfold reset. rewrite E1. cbn [mbind option_bind].
  pose proof R as [R1 R2 R3 R4 R5 R7 R8 R6]. destruct (tq_timers q1) as [|[w a] l] eqn:El.
  - exists q1. split_and!; [done|done|intros []; done|by rewrite El].
  - destruct (qi_entry _ _ R1 w a) as (t & Ht & Hw & _); [rewrite El; by left|]. rewrite Ht. cbn [mbind option_bind].
    destruct (qi_heap _ _ R1 a t Ht) as (_ & Hpos & _). unfold valid. destruct (Z.ltb_spec 0 (tm_expiration t)); [|lia].
    eexists. split; [done|]. split; [|split].
    + constructor; [by refine (queue_inv_ext _ _ _ _ _ _ _ R1)|exact R2|exact R3|exact R4|cbn; by rewrite El|exact R7|exact R8|exact R6].
    + intros _. exists (tm_expiration t). split; [done|]. tq_simpl. rewrite El, Hw. intros e He.
      pose proof (qi_sorted _ _ R1) as Hs. rewrite El in Hs. apply (sorted_head _ _ _ Hs He).
    + tq_simpl. by rewrite El, Hw.
Qed.

(** ** Expiration as a whole *)

(** What one wake-up at [now] does: exactly the due timers fire, each once and
    in order; a repeating one that was not cancelled meanwhile is queued again
    an interval after [now], every other one is gone; the timers that were not
    due are still there unless they were cancelled; and the descriptor is set to
    the earliest timer that is left. *)
Record expiration (now : Z) (q q' : TimerQueue) (l : list TimerObs) : Prop := {
  ex_log : tq_log q' = tq_log q ++ l;
  ex_fires : Forall2 (seq_at (tq_heap q)) (due now q) (firedSeqs l);
  ex_once : forall w a t, (w, a) ∈ due now q -> tq_heap q !! a = Some t -> tm_repeat t = false -> dead (tm_sequence t) q';
  ex_again : forall w a t, (w, a) ∈ due now q -> tq_heap q !! a = Some t -> tm_repeat t = true -> TCancelled (a, tm_sequence t) ∉ l ->
    exists when, addTime now (tm_interval t) = Some when /\ now <= when /\ (when, a) ∈ tq_timers q';
  ex_later : forall w a t, (w, a) ∈ tq_timers q -> now < w -> tq_heap q !! a = Some t -> TCancelled (a, tm_sequence t) ∉ l ->
    (w, a) ∈ tq_timers q' /\ tq_heap q' !! a = Some t;
  ex_armed : match tq_timers q' with [] => True | e :: _ => tq_armed q' = Some (fst e) end;
}.

(** Between two events. *)
Record queue_ok (q : TimerQueue) : Prop := {
  bt_inv : queue_inv [] q;
  bt_armed : armed_ok q;
  bt_calling : tq_callingExpiredTimers q = false;
  bt_hist : hist_inv [] q;
}.

(** A timer that was not due is still queued. *)
Lemma later_kept now q q1 q' (l : list TimerObs) : queue_inv [] q -> queue_inv [] q' -> tq_heap q1 = tq_heap q ->
  (forall a s, (a, s) ∈ tq_activeTimers q1 <-> (a, s) ∈ tq_activeTimers q /\ a ∉ map snd (due now q)) ->
  (forall a s, (a, s) ∈ tq_activeTimers q1 -> TCancelled (a, s) ∈ l \/ (a, s) ∈ tq_activeTimers q' /\ tq_heap q' !! a = tq_heap q1 !! a) ->
  forall w a t, (w, a) ∈ tq_timers q -> now < w -> tq_heap q !! a = Some t -> TCancelled (a, tm_sequence t) ∉ l ->
  (w, a) ∈ tq_timers q' /\ tq_heap q' !! a = Some t.
Proof.
  intros Hq Hq' Eh Hact T3 w a t Hin Hw Ht Hnc. destruct (qi_entry _ _ Hq w a Hin) as (t0 & Ht0 & Hexp & Ha).
  assert (t0 = t) as -> by congruence. destruct (T3 a (tm_sequence t)) as [|[Ha' Eh']]; [|done|].
  - apply Hact. split; [done|]. intros Hd. apply list_elem_of_fmap in Hd as ([w' b] & Eb & Hd). cbn in Eb. subst b.
    apply list_elem_of_filter in Hd as [Hle Hin']. destruct (qi_entry _ _ Hq w' a Hin') as (t1 & Ht1 & Hexp' & _). cbn in Hle.
    assert (t1 = t) by congruence. subst. lia.
  - rewrite Eh', Eh. split; [|done]. destruct (qi_active _ _ Hq' _ _ Ha') as (t2 & Ht2 & _ & Hin2). rewrite Eh', Eh in Ht2.
    assert (t2 = t) as -> by congruence. by rewrite <- Hexp.
Qed.

(** After [reset], a cancelled timer is gone. *)
Lemma reset_hist now es q q' : queue_inv es q -> reset_effect now es (set_calling false (tq_cancelingTimers q) q) q' ->
  hist_inv es q -> hist_inv [] q'.
Proof.
  intros Hq [R1 R2 R3 _ _ _ _ R6] [Ha Hc]. cbn [tq_log set_calling] in R3. split.
  - intros cb a s. rewrite R3. intros Hin. by apply R2, (Ha cb).
  - intros l1 [a s] l2 cb. rewrite R3. intros El Hin. left. cbn [snd]. destruct (Hc l1 (a, s) l2 cb El Hin) as [Hd|[Hcan Hes]]; [by apply R2|].
    cbn [fst snd] in *. apply list_elem_of_fmap in Hes as ([w b] & Eb & Hes). cbn in Eb. subst b.
    destruct (qi_expired _ _ Hq w a Hes) as (t & Ht & _ & _). destruct (decide (tm_sequence t = s)) as [<-|Hne].
    + specialize (R6 w a t Hes Ht). unfold recurs in R6. cbn [set_calling tq_cancelingTimers] in R6.
      rewrite bool_decide_true, andb_false_r in R6 by done. done.
    + apply R2. destruct (Ha cb a s) as [Hs Ho]; [rewrite El; apply elem_of_app; by left|]. split; [done|].
      intros b u Hu Es. pose proof (Ho b u Hu Es) as <-. cbn [set_calling tq_heap] in Hu. congruence.
Qed.

Lemma handle_ok E now q : timer_env_ok E -> 0 < now < 2 ^ 62 -> queue_ok q ->
  ends (handleInLoop E now q) (fun q' => queue_ok q' /\ keeps q q' /\ exists l, expiration now q q' l).
Proof.
  intros HE Hnow [Hq _ _ Hh]. unfold handleInLoop. destruct (getExpired_ok now q Hq) as (q1 & E1 & Hq1 & Hh1 & Hc1 & Hl1 & Hact1).
  rewrite E1. change (lift (Some ?x) ≫= ?f) with (f x). cbv beta iota.
  set (q1' := set_calling true ∅ q1). assert (queue_inv (due now q) q1') as Hq1' by (by refine (queue_inv_ext _ _ _ _ _ _ _ Hq1)).
  eapply ends_bind; [exact (runExpired_ok E now (due now q) (due now q) HE (fun _ H => H) q1' Hq1' eq_refl)|].
  intros q2 (l & [Hq2 Hh2 Hd2 Htr Hf Hhist]). apply ends_lift. set (q2' := set_calling false _ q2).
  assert (queue_inv (due now q) q2') as Hq2' by (by refine (queue_inv_ext _ _ _ _ _ _ _ Hq2)).
  destruct (reset_ok now (due now q) q2' Hnow Hq2') as (q3 & E3 & R & Ha & Hr). pose proof R as [R1 R2 R3 R4 R5 R7 R8 R6]. rewrite E3. exists q3.
  assert (hist_inv (due now q) q2) as Hh2'.
  { apply Hhist. destruct Hh as [A1 A2]. split.
    - intros cb a s Hin. subst q1'. cbn [set_calling tq_log] in Hin. rewrite Hl1 in Hin. apply (keeps_ext q); [done|done|by apply (A1 cb)].
    - intros l1 id l2 cb El Hin. subst q1'. cbn [set_calling tq_log] in El. rewrite Hl1 in El. destruct (A2 l1 id l2 cb El Hin) as [|[_ Hn%elem_of_nil]]; [|done].
      left. by apply (keeps_ext q). }
  split; [done|]. split; [constructor; [done|done|done|exact (reset_hist now _ q2 q3 Hq2 R Hh2')]|]. split; [intros P s Hs; apply R2, Hd2, (keeps_ext q); done|]. exists l.
  constructor; [| | | | |exact Hr].
  - rewrite R3. subst q2'. cbn [set_calling tq_log]. by rewrite (td_log _ _ _ Htr), <- Hl1.
  - by rewrite <- Hh1.
  - intros w a t Hin Ht Hrep. rewrite <- Hh1 in Ht. change (tq_heap q1) with (tq_heap q1') in Ht. rewrite <- (Hh2 w a Hin) in Ht.
    specialize (R6 w a t Hin Ht). unfold recurs in R6. by rewrite Hrep in R6.
  - intros w a t Hin Ht Hrep Hnc. rewrite <- Hh1 in Ht. change (tq_heap q1) with (tq_heap q1') in Ht. rewrite <- (Hh2 w a Hin) in Ht.
    specialize (R6 w a t Hin Ht). unfold recurs in R6. rewrite Hrep, bool_decide_false in R6; [done|].
    intros Hcan. by destruct (td_canceling _ _ _ Htr _ Hcan) as [Hcan'%elem_of_empty|].
  - apply (later_kept now q q1 q3 l Hq R1 Hh1 Hact1). intros a s Hin. destruct (td_active _ _ _ Htr a s Hin) as [|[Hin' Eh]]; [by left|right].
    split; [by apply R7|]. rewrite R8; [exact Eh|]. by apply Hact1 in Hin as [_ ?].
Qed.

(** ** Reachable states *)

Definition event_ok (e : TimerEvent) : Prop :=
  match e with TvCall c => call_ok c | TvExpired now => 0 < now < 2 ^ 62 end.

Fixpoint timerRun (E : TimerEnv) (es : list TimerEvent) (q : TimerQueue) : Result TimerQueue :=
  match es with [] => Ok q | e :: es' => q ← timerStep E e q; timerRun E es' q end.

Lemma newTimerQueue_between : queue_ok newTimerQueue.
Proof.
  split; [|intros []; done|done|].
  - constructor; unfold newTimerQueue; tq_simpl; try done; [constructor|by intros w a Hin%elem_of_nil|constructor|by intros w a Hin%elem_of_nil].
  - split; [by intros cb a s Hin%elem_of_nil|]. intros [] id l2 cb El; discriminate El.
Qed.

(** What steps do to the history: no dead timer fires. *)
Record run_ok (q q' : TimerQueue) : Prop := {
  ro_between : queue_ok q';
  ro_keeps : keeps q q';
  ro_log : exists l, tq_log q' = tq_log q ++ l /\ forall s, dead s q -> s ∉ firedSeqs l;
}.

Lemma timerStep_ok E e q : timer_env_ok E -> event_ok e -> queue_ok q -> ends (timerStep E e q) (run_ok q).
Proof.
  intros HE He Hb. destruct e as [c|now]; cbn [timerStep].
  - destruct Hb as [Hq Ha Hc Hh]. eapply ends_mono; [exact (timerCall_ok E c [] q HE He Hq)|]. intros q' [C1 C2 C3 (l & C4 & C5) C6 C7 C8].
    constructor; [constructor; [done|by apply C7|congruence|by apply C8; [left|]]|done|]. exists l. split; [apply C4|].
    intros s _. rewrite C5. apply not_elem_of_nil.
  - eapply ends_mono; [exact (handle_ok E now q HE He Hb)|]. intros q' (H1 & H2 & l & [X1 X2 _ _ _ _]). constructor; [done|done|]. exists l. split; [done|].
    intros s [_ D] Hin. apply list_elem_of_lookup_1 in Hin as [i Hi]. destruct (Forall2_lookup_r _ _ _ _ _ X2 Hi) as (e & _ & t & Ht & Es).
    by destruct (D (snd e) t).
Qed.

Lemma timerRun_ok E es : timer_env_ok E -> Forall event_ok es -> forall q, queue_ok q -> ends (timerRun E es q) (run_ok q).
Proof.
  intros HE. induction es as [|e es IH]; intros Hes q Hq.
  - constructor; [done|by intros P s|]. exists []. rewrite app_nil_r. split; [done|]. intros s _. apply not_elem_of_nil.
  - apply Forall_cons in Hes as [He Hes]. cbn [timerRun]. eapply ends_bind; [exact (timerStep_ok E e q HE He Hq)|].
    intros q1 [B1 D1 (l1 & L1 & F1)]. eapply ends_mono; [exact (IH Hes q1 B1)|]. intros q2 [B2 D2 (l2 & L2 & F2)].
    constructor; [done|intros P s Hs; by apply D2, D1|]. exists (l1 ++ l2). split; [by rewrite L2, L1, app_assoc|].
    intros s Hs. rewrite firedSeqs_app, not_elem_of_app. split; [by apply F1|by apply F2, D1].
Qed.

(** ** Claims *)

(** C35: whatever the users' callbacks ask for, no operation of the timer queue
    fails an assertion or touches a deleted timer; the descriptor is always set
    no later than the earliest timer, and when it expires exactly the timers
    that are due fire, each once and in the order of their times: a timer
    without an interval is then deleted, one with an interval is queued again
    an interval later unless its callbacks cancelled it, and no other timer is
    touched. *)
Theorem timers_fire E es now : timer_env_ok E -> Forall event_ok es -> 0 < now < 2 ^ 62 ->
  ends (timerRun E es newTimerQueue) (fun q => armed_ok q /\
    ends (timerStep E (TvExpired now) q) (fun q' => exists l, expiration now q q' l)).
Proof.
  intros HE Hes Hnow. eapply ends_mono; [exact (timerRun_ok E es HE Hes _ newTimerQueue_between)|]. intros q [Hb _ _].
  split; [apply Hb|]. eapply ends_mono; [exact (handle_ok E now q HE Hnow Hb)|]. by intros q' (_ & _ & ?).
Qed.

(** C36: once a timer was cancelled by the identifier it was created with, also
    from inside a callback and also from its own, its callback never runs again
    after the current expiration, even when its address is used again. *)
Theorem cancelled_never_fires E es es' : timer_env_ok E -> Forall event_ok es -> Forall event_ok es' ->
  ends (timerRun E es newTimerQueue) (fun q => ends (timerRun E es' q) (fun q' => exists l, tq_log q' = tq_log q ++ l /\
    forall l1 id l2 cb, tq_log q = l1 ++ TCancelled id :: l2 -> TAdded cb id ∈ l1 -> snd id ∉ firedSeqs l)).
Proof.
  intros HE Hes Hes'. eapply ends_mono; [exact (timerRun_ok E es HE Hes _ newTimerQueue_between)|]. intros q [Hb _ _].
  eapply ends_mono; [exact (timerRun_ok E es' HE Hes' q Hb)|]. intros q' [_ _ (l & El & Hl)]. exists l. split; [done|].
  intros l1 id l2 cb Ec Hin. destruct (hi_cancelled _ _ (bt_hist _ Hb) l1 id l2 cb Ec Hin) as [Hd|[_ Hn%elem_of_nil]]; [|done]. by apply Hl.
Qed.

(** *** Witnesses

    Two timers: one to run once, and one every two seconds, which the callback
    of the first cancels; an interval is the double of its seconds. *)

Definition two : Z := Z.shiftl 1 62.
Definition wClient (l : list TimerObs) : list TimerCall :=
  match last l, head l with
  | Some (TFired 0 _ _), Some (TAdded _ id) => [TCancel id; TAdd 2 9000000 0]
  | _, _ => []
  end.
Definition wAlloc (h : gmap Z Timer) : option Z := List.find (fun a => bool_decide (h !! a = None)) [16; 32; 48; 64].
Definition wTimers : TimerEnv := mkTimerEnv wClient wAlloc.
Definition wEvents : list TimerEvent := [TvCall (TAdd 1 2000000 two); TvCall (TAdd 0 3000000 0); TvExpired 2000005; TvExpired 3000000].

Lemma once_ok cb when : 0 < when < 2 ^ 62 -> call_ok (TAdd cb when 0).
Proof. intros H. split; [done|]. discriminate. Qed.

Lemma wTimers_ok : timer_env_ok wTimers.
Proof.
  split.
  - intros h a [Hin Hf]%List.find_some. apply bool_decide_eq_true in Hf. split; [done|].
    unfold UINTPTR_MAX. cbn in Hin. lia.
  - intros l. cbn. unfold wClient. destruct (last l) as [[| |[|]]|]; try done. destruct (head l) as [[]|]; try done.
    constructor; [exact I|]. constructor; [|by apply Forall_nil]. by apply once_ok.
Qed.

Lemma wEvents_ok : Forall event_ok wEvents.
Proof.
  constructor; [split; [lia|intros _; exists 2000000; split; [by vm_compute|lia]]|]. constructor; [by apply once_ok|].
  constructor; [cbn; lia|]. constructor; [cbn; lia|by apply Forall_nil].
Qed.

Example wEvents_run : exists q, timerRun wTimers wEvents newTimerQueue = Ok q /\ firedSeqs (tq_log q) = [1; 2] /\
  tq_timers q = [(9000000, 16)] /\ tq_armed q = Some 9000000.
Proof. eexists. split; [vm_compute; reflexivity|]. by vm_compute. Qed.

(** The run, stopped before its last event, and after it. *)
Definition wRun (n : nat) : TimerQueue := match timerRun wTimers (firstn n wEvents) newTimerQueue with Ok q => q | _ => newTimerQueue end.
Lemma wRun3 : timerRun wTimers (firstn 3 wEvents) newTimerQueue = Ok (wRun 3).
Proof. by vm_compute. Qed.
Lemma wRun4 : timerRun wTimers wEvents newTimerQueue = Ok (wRun 4).
Proof. by vm_compute. Qed.
Definition wLater : TimerQueue := match timerStep wTimers (TvExpired 9000000) (wRun 4) with Ok q => q | _ => newTimerQueue end.
Lemma wRun5 : timerRun wTimers [TvExpired 9000000] (wRun 4) = Ok wLater.
Proof. by vm_compute. Qed.
Lemma wStep4 : timerStep wTimers (TvExpired 3000000) (wRun 3) = Ok (wRun 4).
Proof. by vm_compute. Qed.

Lemma timers_fire_witness : exists l, expiration 3000000 (wRun 3) (wRun 4) l.
Proof.
  pose proof (timers_fire wTimers (firstn 3 wEvents) 3000000 wTimers_ok (Forall_take _ 3 _ wEvents_ok) ltac:(lia)) as H.
  rewrite wRun3 in H. destruct H as [_ H]. by rewrite wStep4 in H.
Defined.

Lemma cancelled_never_fires_witness : exists l, tq_log wLater = tq_log (wRun 4) ++ l /\ 1 ∉ firedSeqs l.
Proof.
  pose proof (cancelled_never_fires wTimers wEvents [TvExpired 9000000] wTimers_ok wEvents_ok
    ltac:(constructor; [cbn; lia|by apply Forall_nil])) as H.
  rewrite wRun4 in H. cbn [ends] in H. rewrite wRun5 in H. destruct H as (l & El & H). exists l. split; [done|].
  apply (H [TAdded 1 (16, 1); TAdded 0 (32, 2); TFired 1 1 2000005; TFired 0 2 3000000] (16, 1) [TAdded 2 (16, 3)] 1%nat); [by vm_compute|by left].
Defined.
