(* ===== verification/Times.v ===== *)
(** * Dates and time stamps

    The calendar ([gmtime] of the C library) with its inverse, and the texts that
    [src/src/base/Timestamp.cpp] and [LogFile::getLogFileName] make of a time. *)

From stdpp Require Import base list numbers strings.
From Stdlib Require Import ZArith Lia.
From S2P Require Import Prelude CText DoubleText Buffer Timers.
Local Open Scope Z_scope.

(** ** The calendar *)

(** [struct tm], with the members' conventions: years from 1900, months from 0. *)
Record tm := mkTm {
  tm_sec : Z; tm_min : Z; tm_hour : Z;
  tm_mday : Z; tm_mon : Z; tm_year : Z; tm_wday : Z;
}.

(** The day of the civil calendar a number of days after 1 January 1970.  Years
    are counted from March, in eras of 400 of them ([146097] days). *)
Definition daysBeforeMarch (y : Z) : Z := 365 * y + y / 4 - y / 100 + y / 400.
Definition yearOfEra (doe : Z) : Z :=
  let y := doe / 365 in if daysBeforeMarch y <=? doe then y else y - 1.
Definition monthOfYear (doy : Z) : Z * Z :=
  let mp := (5 * doy + 2) / 153 in
  (if mp <? 10 then mp + 3 else mp - 9, doy - (153 * mp + 2) / 5 + 1).

Definition civil (days : Z) : Z * Z * Z :=
  let z := days + 719468 in
  let y := yearOfEra (z mod 146097) in
  let '(m, d) := monthOfYear (z mod 146097 - daysBeforeMarch y) in
  (z / 146097 * 400 + y + (if m <=? 2 then 1 else 0), m, d).

(** [gmtime]: the broken-down time of [t] seconds after the epoch. *)
Definition gmtime (t : Z) : tm :=
  let days := t / 86400 in
  let s := t mod 86400 in
  let '(y, m, d) := civil days in
  mkTm (s mod 60) (s / 60 mod 60) (s / 3600) d (m - 1) (y - 1900) ((days + 4) mod 7).

(** *** The inverse *)

Definition is_leap (y : Z) : bool := (y mod 4 =? 0) && (negb (y mod 100 =? 0) || (y mod 400 =? 0)).

Definition month_length (y m : Z) : Z :=
  if m =? 2 then if is_leap y then 29 else 28
  else if existsb (Z.eqb m) [4; 6; 9; 11] then 30 else 31.

(** Days before a month of a year, and before a year. *)
Definition days_before_month (y m : Z) : Z :=
  fold_right (fun k n => month_length y k + n) 0 (takeZ (m - 1) [1; 2; 3; 4; 5; 6; 7; 8; 9; 10; 11; 12]).
Definition days_before_year (y : Z) : Z :=
  365 * (y - 1970) + (y - 1969) / 4 - (y - 1901) / 100 + (y - 1601) / 400.

(** The seconds since the epoch of a broken-down time. *)
Definition timegm (T : tm) : Z :=
  let y := tm_year T + 1900 in
  (days_before_year y + days_before_month y (tm_mon T + 1) + tm_mday T - 1) * 86400 +
  tm_hour T * 3600 + tm_min T * 60 + tm_sec T.

(** The members are in range: the date exists. *)
Definition tm_ok (T : tm) : Prop :=
  0 <= tm_sec T < 60 /\ 0 <= tm_min T < 60 /\ 0 <= tm_hour T < 24 /\ 0 <= tm_mon T < 12 /\
  1 <= tm_mday T <= month_length (tm_year T + 1900) (tm_mon T + 1).

(** *** Days of a year that begins in March *)

Lemma yearOfEra_ok doe : 0 <= doe < 146097 ->
  let y := yearOfEra doe in
  0 <= y < 400 /\ daysBeforeMarch y <= doe < daysBeforeMarch (y + 1).
Proof.
  intros H y. subst y. unfold yearOfEra, daysBeforeMarch. set (y := doe / 365).
  assert (365 * y <= doe < 365 * y + 365 /\ 0 <= y <= 400) as [Hy Hb] by (subst y; div_lia).
  clearbody y. destruct (Z.leb_spec (365 * y + y / 4 - y / 100 + y / 400) doe); div_lia.
Qed.

Definition leap_days (y : Z) : Z := if is_leap y then 1 else 0.

Lemma is_leap_spec y : is_leap y = true <-> y mod 4 = 0 /\ (y mod 100 <> 0 \/ y mod 400 = 0).
Proof. unfold is_leap. rewrite andb_true_iff, orb_true_iff, negb_true_iff, !Z.eqb_eq, Z.eqb_neq. done. Qed.

Lemma leap_days_spec y : leap_days y = y / 4 - (y - 1) / 4 - (y / 100 - (y - 1) / 100) + (y / 400 - (y - 1) / 400).
Proof.
  unfold leap_days. pose proof (is_leap_spec y) as H. destruct (is_leap y).
  - destruct (proj1 H eq_refl) as [H1 [H2|H2]]; clear H; div_lia.
  - assert (~ (y mod 4 = 0 /\ (y mod 100 <> 0 \/ y mod 400 = 0))) as Hn by (by intros ?%H).
    destruct (decide (y mod 4 = 0)), (decide (y mod 100 = 0)), (decide (y mod 400 = 0)); try (exfalso; tauto); clear H Hn; div_lia.
Qed.

(** A calendar year depends on whether it is a leap year only. *)
Lemma month_length_leap y y' m : is_leap y = is_leap y' -> month_length y m = month_length y' m.
Proof. intros E. unfold month_length. by rewrite E. Qed.

Lemma days_before_month_leap y y' m : is_leap y = is_leap y' -> days_before_month y m = days_before_month y' m.
Proof.
  intros E. unfold days_before_month. induction (takeZ _ _) as [|n l IH]; [done|].
  cbn [fold_right]. by rewrite IH, (month_length_leap y y').
Qed.

(** A day of the year and its month, in a common and in a leap year. *)
Definition day_of_year_ok (y doy : Z) : bool :=
  let '(m, d) := monthOfYear doy in
  (1 <=? m) && (m <=? 12) && (1 <=? d) &&
  if m <=? 2 then (days_before_month y m + d - 1 =? doy - 306) && ((d <=? month_length y m) || (doy =? 365))
  else (days_before_month y m + d - 1 =? doy + 59 + leap_days y) && (d <=? month_length y m).

Lemma days_of_year_ok : forallb (fun k => day_of_year_ok 1 (Z.of_nat k) && day_of_year_ok 4 (Z.of_nat k)) (seq 0 366) = true.
Proof. vm_compute. reflexivity. Qed.

Lemma day_of_year y doy : 0 <= doy <= 365 -> day_of_year_ok y doy = true.
Proof.
  intros H. pose proof days_of_year_ok as E. rewrite forallb_forall in E.
  specialize (E (Z.to_nat doy)). rewrite in_seq, Z2Nat.id in E by lia. specialize (E ltac:(lia)).
  apply andb_true_iff in E as [E1 E4]. assert (exists y', is_leap y = is_leap y' /\ day_of_year_ok y' doy = true) as (y' & Hy & E).
  { destruct (is_leap y); [by exists 4|by exists 1]. }
  unfold day_of_year_ok, leap_days in *. destruct (monthOfYear doy) as [m d].
  by rewrite Hy, (days_before_month_leap y y'), (month_length_leap y y').
Qed.

(** Years from January and from March, over an era. *)
Lemma year_days era y : 0 <= y < 400 ->
  days_before_year (era * 400 + y) + 59 + leap_days (era * 400 + y) = era * 146097 + daysBeforeMarch y - 719468 /\
  days_before_year (era * 400 + y + 1) = era * 146097 + daysBeforeMarch y + 306 - 719468.
Proof. intros H. rewrite leap_days_spec. unfold days_before_year, daysBeforeMarch. split; div_lia. Qed.

Lemma leap_march era y : 0 <= y < 400 -> daysBeforeMarch y + 365 < daysBeforeMarch (y + 1) -> is_leap (era * 400 + y + 1) = true.
Proof.
  intros H Hd. pose proof (leap_days_spec (era * 400 + y + 1)) as E. unfold leap_days in E. destruct (is_leap _); [done|].
  exfalso. unfold daysBeforeMarch in Hd. div_lia.
Qed.

Lemma civil_ok days y m d : civil days = (y, m, d) ->
  days_before_year y + days_before_month y m + d - 1 = days /\ 1 <= m <= 12 /\ 1 <= d <= month_length y m.
Proof.
  unfold civil. pose proof (Z.div_mod (days + 719468) 146097 ltac:(lia)) as Hd.
  pose proof (yearOfEra_ok _ (Z.mod_pos_bound (days + 719468) 146097 ltac:(lia))) as [Hy Hdoy].
  set (doe := (days + 719468) mod 146097) in *. set (era := (days + 719468) / 146097) in *. set (yoe := yearOfEra doe) in *.
  set (doy := doe - daysBeforeMarch yoe). 
  assert (0 <= doy <= 365) as Hb by (subst doy; clearbody doe yoe; clear Hd; unfold daysBeforeMarch in *; div_lia).
  destruct (monthOfYear doy) as [m0 d0] eqn:Em. intros [= <- <- <-].
  set (y := era * 400 + yoe + (if m0 <=? 2 then 1 else 0)).
  pose proof (day_of_year y doy Hb) as Hok. unfold day_of_year_ok in Hok. rewrite Em in Hok. bool_to_prop.
  pose proof (year_days era yoe ltac:(lia)) as [Ea Eb].
  destruct (Z.leb_spec m0 2); bool_to_prop.
  - assert (y = era * 400 + yoe + 1) as Ey by (subst y; lia). rewrite <- Ey in Eb. subst doy doe. split_and!; try lia.
    apply orb_true_iff in H4 as [H4|H4]; bool_to_prop; [done|].
    rewrite H4 in Em. assert (m0 = 2 /\ d0 = 29) as [-> ->] by (split; by injection Em).
    cbn. by rewrite Ey, leap_march by lia.
  - assert (y = era * 400 + yoe) as Ey by (subst y; lia). rewrite <- Ey in Ea. subst doy. split_and!; lia.
Qed.

(** *** [gmtime] gives the date of a time *)

Lemma gmtime_ok t : tm_ok (gmtime t) /\ timegm (gmtime t) = t.
Proof.
  unfold gmtime. destruct (civil (t / 86400)) as [[y m] d] eqn:Ec. apply civil_ok in Ec as (Ed & Hm & Hd).
  pose proof (Z.mod_pos_bound t 86400 ltac:(lia)) as Hs. set (s := t mod 86400) in *.
  pose proof (Z.div_mod t 86400 ltac:(lia)) as Et. fold s in Et.
  pose proof (Z.mod_pos_bound s 60 ltac:(lia)) as H1. pose proof (Z.mod_pos_bound (s / 60) 60 ltac:(lia)) as H2.
  assert (s = s / 3600 * 3600 + s / 60 mod 60 * 60 + s mod 60) as Es.
  { pose proof (Z.div_mod s 60 ltac:(lia)). pose proof (Z.div_mod (s / 60) 60 ltac:(lia)).
    replace (s / 3600) with (s / 60 / 60) by (by rewrite Z.div_div by lia). lia. }
  assert (0 <= s / 3600 < 24) as H3 by (split; [apply Z.div_pos; lia|apply Z.div_lt_upper_bound; lia]).
  unfold tm_ok, timegm. cbn. replace (y - 1900 + 1900) with y by lia. replace (m - 1 + 1) with m by lia. split; [|lia].
  split_and!; lia.
Qed.

Lemma gmtime_inj t u : gmtime t = gmtime u -> t = u.
Proof. intros E. by rewrite <- (proj2 (gmtime_ok t)), <- (proj2 (gmtime_ok u)), E. Qed.


Lemma month_table : forallb (fun y => forallb (fun m => (0 <=? days_before_month y m) && (days_before_month y m + month_length y m <=? 365 + leap_days y))
  [1; 2; 3; 4; 5; 6; 7; 8; 9; 10; 11; 12]) [1; 4] = true.
Proof. vm_compute. reflexivity. Qed.

Lemma month_bounds y m : 1 <= m <= 12 -> 0 <= days_before_month y m /\ days_before_month y m + month_length y m <= 365 + leap_days y.
Proof.
  intros Hm. pose proof month_table as E. rewrite forallb_forall in E.
  assert (exists y', is_leap y = is_leap y' /\ In y' [1; 4]) as (y' & Ey & Hy) by (destruct (is_leap y); [exists 4|exists 1]; cbn; auto).
  rewrite (days_before_month_leap y y' m Ey), (month_length_leap y y' m Ey). unfold leap_days. rewrite Ey. fold (leap_days y').
  specialize (E _ Hy). rewrite forallb_forall in E. specialize (E m). cbn [In] in E.
  assert (m = 1 \/ m = 2 \/ m = 3 \/ m = 4 \/ m = 5 \/ m = 6 \/ m = 7 \/ m = 8 \/ m = 9 \/ m = 10 \/ m = 11 \/ m = 12) as Hc by lia.
  specialize (E ltac:(intuition congruence)). bool_to_prop. lia.
Qed.

Lemma year_step y : days_before_year (y + 1) = days_before_year y + 365 + leap_days y.
Proof. rewrite leap_days_spec. unfold days_before_year. div_lia. Qed.

Lemma years_mono a b : a <= b -> days_before_year a <= days_before_year b.
Proof.
  intros H. assert (exists k, b = a + Z.of_nat k) as [k ->] by (exists (Z.to_nat (b - a)); lia). clear H.
  induction k as [|k IH]; [by rewrite Z.add_0_r|]. etransitivity; [exact IH|].
  replace (a + Z.of_nat (S k)) with (a + Z.of_nat k + 1) by lia. rewrite year_step.
  unfold leap_days. destruct (is_leap _); lia.
Qed.

(** The time of a date lies within its year. *)
Lemma timegm_year T : tm_ok T -> let y := tm_year T + 1900 in
  days_before_year y * 86400 <= timegm T < days_before_year (y + 1) * 86400.
Proof.
  intros (H1 & H2 & H3 & H4 & H5) y. unfold timegm. fold y in H5 |- *. rewrite year_step.
  pose proof (month_bounds y (tm_mon T + 1) ltac:(lia)) as Hb. revert Hb H5.
  generalize (days_before_month y (tm_mon T + 1)) (month_length y (tm_mon T + 1)) (leap_days y) (days_before_year y).
  clear y. intros. lia.
Qed.

Lemma gmtime_year t : 0 <= t < 253402300800 -> 1970 <= tm_year (gmtime t) + 1900 <= 9999.
Proof.
  intros Ht. destruct (gmtime_ok t) as [Hok E]. apply timegm_year in Hok. rewrite E in Hok. cbn zeta in Hok. revert Hok.
  generalize (tm_year (gmtime t) + 1900). clear E. intros y Hy. split.
  - destruct (Z.le_gt_cases 1970 y) as [?|Hlt]; [done|]. pose proof (years_mono (y + 1) 1970 ltac:(lia)) as Hm.
    assert (days_before_year 1970 = 0) as E0 by reflexivity. rewrite E0 in Hm. lia.
  - destruct (Z.le_gt_cases y 9999) as [?|Hgt]; [done|]. pose proof (years_mono 10000 y ltac:(lia)) as Hm.
    assert (days_before_year 10000 = 2932897) as E0 by reflexivity. rewrite E0 in Hm. lia.
Qed.

(** ** Text *)

(** [%0<w>d] of [printf]. *)
Definition pad0 (w : nat) (v : Z) : string :=
  let digits n k := if k <? 10 ^ Z.of_nat n then digits_pad n k else to_string k in
  if v <? 0 then "-" +:+ digits (w - 1)%nat (- v) else digits w v.

(** [snprintf] into [n] bytes. *)
Definition snprintf (n : nat) (s : string) : string := str_take (n - 1) s.

(** [Timestamp::toString] *)
Definition toString (ts : Z) : string :=
  snprintf 31 (to_string (Z.quot ts kMicroSecondsPerSecond) +:+ "." +:+
    to_string (Z.rem ts kMicroSecondsPerSecond) +:+ "06").

(** A date as six numbers with [sep1] between those of the day, [sep2] behind
    them and [sep3] between those of the hour. *)
Definition dateText (sep1 sep2 sep3 : string) (T : tm) : string :=
  pad0 4 (tm_year T + 1900) +:+ sep1 +:+ pad0 2 (tm_mon T + 1) +:+ sep1 +:+ pad0 2 (tm_mday T) +:+ sep2 +:+
  pad0 2 (tm_hour T) +:+ sep3 +:+ pad0 2 (tm_min T) +:+ sep3 +:+ pad0 2 (tm_sec T).

(** [%04d-%02d-%02d %02d:%02d:%02d], and [.%06d] behind it. *)
Definition formatted (showMicroseconds : bool) (T : tm) (ts : Z) : string :=
  if showMicroseconds then snprintf 32 (dateText "-" " " ":" T +:+ "." +:+ pad0 6 (Z.rem ts kMicroSecondsPerSecond))
  else snprintf 32 (dateText "-" " " ":" T).

Definition toFormattedString (showMicroseconds : bool) (ts : Z) : string :=
  formatted showMicroseconds (gmtime (Z.quot ts kMicroSecondsPerSecond)) ts.

(** The hour moved eight hours on, and the day with it. *)
Definition localTm (T : tm) : tm :=
  mkTm (tm_sec T) (tm_min T) (Z.rem (tm_hour T + 8) 24) (tm_mday T + Z.quot (tm_hour T + 8) 24)
    (tm_mon T) (tm_year T) (tm_wday T).

Definition toFormattedLocalString (showMicroseconds : bool) (ts : Z) : string :=
  formatted showMicroseconds (localTm (gmtime (Z.quot ts kMicroSecondsPerSecond))) ts.

Definition WEEKDAY_NAMES : list string := ["Sun"; "Mon"; "Tue"; "Wed"; "Thu"; "Fri"; "Sat"]%string.
Definition MONTH_NAMES : list string :=
  ["Jan"; "Feb"; "Mar"; "Apr"; "May"; "Jun"; "Jul"; "Aug"; "Sep"; "Oct"; "Nov"; "Dec"]%string.

Definition toFromattedHttp (ts : Z) : option string :=
  let T := gmtime (Z.quot ts kMicroSecondsPerSecond) in
  wday ← rd WEEKDAY_NAMES (tm_wday T); mon ← rd MONTH_NAMES (tm_mon T);
  Some (snprintf 48 (wday +:+ ", " +:+ pad0 2 (tm_mday T) +:+ " " +:+ mon +:+ " " +:+ pad0 4 (tm_year T + 1900) +:+ " " +:+
    pad0 2 (tm_hour T) +:+ ":" +:+ pad0 2 (tm_min T) +:+ ":" +:+ pad0 2 (tm_sec T) +:+ " GMT")).

(** [Timestamp::elapsed] and [Timestamp::isElapsed]: the second compares with a
    time stamp that was just constructed, not with the present. *)
Definition elapsed (now ts : Z) : Z := now - ts.
Definition isElapsed (interval ts : Z) : bool := interval <=? 0 - ts.

(** [LogFile::getLogFileName] *)
Definition getLogFileName (basename : string) (now : Z) : string :=
  basename +:+ "." +:+ dateText "" "-" "" (gmtime now) +:+ ".log".

Example date_of_release : toFormattedString true 1767225599999999 = "2025-12-31 23:59:59.999999"%string.
Proof. reflexivity. Qed.
Example leap_day : toFromattedHttp (951782400 * 1000000) = Some "Tue, 29 Feb 2000 00:00:00 GMT"%string.
Proof. reflexivity. Qed.

(** *** Reading the texts back *)

(** The number in the first [w] characters, and the rest behind [k] more. *)
Definition column (w k : nat) (s : string) : Z * string :=
  (fst (scan_digits 10 0 0 (str_take w s)), str_drop (w + k) s).

(** A date written by [dateText], by the lengths of what is between its numbers. *)
Definition readDate (n1 n2 n3 : nat) (text : string) : Z * string :=
  let '(Y, s) := column 4 n1 text in let '(m, s) := column 2 n1 s in let '(d, s) := column 2 n2 s in
  let '(h, s) := column 2 n3 s in let '(mi, s) := column 2 n3 s in let '(sec, s) := column 2 0 s in
  (timegm (mkTm sec mi h d (m - 1) (Y - 1900) 0), s).

Lemma pad0_digits w v : 0 <= v < 10 ^ Z.of_nat w -> pad0 w v = digits_pad w v.
Proof.
  intros H. unfold pad0. destruct (Z.ltb_spec v 0); [lia|]. destruct (Z.ltb_spec v (10 ^ Z.of_nat w)); [done|lia].
Qed.

Lemma digits_pad_length w v : String.length (digits_pad w v) = w.
Proof. revert v. induction w as [|w IH]; intros v; [done|]. cbn [digits_pad]. rewrite str_length_app, IH. cbn. lia. Qed.

Lemma scan_pad w : forall v acc n s, 0 <= v < 10 ^ Z.of_nat w ->
  scan_digits 10 acc n (digits_pad w v +:+ s) = scan_digits 10 (acc * 10 ^ Z.of_nat w + v) (n + Z.of_nat w) s.
Proof.
  induction w as [|w IH]; intros v acc n s H.
  - cbn in H |- *. f_equal; lia.
  - rewrite Nat2Z.inj_succ, Z.pow_succ_r in * by lia. cbn [digits_pad]. rewrite <- str_app_assoc.
    assert (0 <= v / 10 < 10 ^ Z.of_nat w) as Hq by (split; [apply Z.div_pos; lia|apply Z.div_lt_upper_bound; lia]).
    rewrite IH by done. rewrite str_cons_app, str_nil_app. cbn [scan_digits].
    pose proof (Z.mod_pos_bound v 10 ltac:(lia)) as Hm. pose proof (Z.div_mod v 10 ltac:(lia)) as Hdm.
    assert (digit_value 10 (Ascii.ascii_of_N (Z.to_N (48 + v mod 10))) = Some (v mod 10)) as ->.
    { assert (exists k : nat, (k < 10)%nat /\ v mod 10 = Z.of_nat k) as (k & Hk & ->) by (exists (Z.to_nat (v mod 10)); lia).
      do 10 (destruct k as [|k]; [done|]). lia. }
    f_equal; lia.
Qed.

Lemma column_pad w k v s t : 0 <= v < 10 ^ Z.of_nat w -> String.length s = k -> column w k (pad0 w v +:+ s +:+ t) = (v, t).
Proof.
  intros Hv Hk. unfold column. rewrite pad0_digits by done. f_equal.
  - rewrite <- (digits_pad_length w v) at 1. rewrite str_take_app.
    rewrite <- (str_app_nil_r (digits_pad w v)), scan_pad by done. cbn. lia.
  - rewrite str_app_assoc. rewrite <- (digits_pad_length w v), <- Hk at 1. rewrite <- str_length_app. apply str_drop_app.
Qed.

Lemma readDate_text t sep1 sep2 sep3 s : 0 <= t < 253402300800 ->
  readDate (String.length sep1) (String.length sep2) (String.length sep3) (dateText sep1 sep2 sep3 (gmtime t) +:+ s) = (t, s).
Proof.
  intros Ht. pose proof (gmtime_year t Ht) as Hy. destruct (gmtime_ok t) as [(H1 & H2 & H3 & H4 & H5) E].
  assert (month_length (tm_year (gmtime t) + 1900) (tm_mon (gmtime t) + 1) <= 31) as Hl.
  { unfold month_length. repeat destr_if; lia. }
  revert Hy H1 H2 H3 H4 H5 Hl E. generalize (gmtime t). intros T Hy H1 H2 H3 H4 H5 Hl E.
  unfold readDate, dateText. rewrite <- !str_app_assoc. do 5 rewrite column_pad by (cbn; lia || done).
  rewrite <- (str_nil_app s) at 1. rewrite column_pad by (cbn; lia || done).
  f_equal. rewrite <- E. unfold timegm. cbn. repeat f_equal; lia.
Qed.

Lemma str_take_all s : forall n, (String.length s <= n)%nat -> str_take n s = s.
Proof.
  induction s as [|a s IH]; intros n H; [by destruct n|]. destruct n as [|n]; [cbn in H; lia|]. cbn in H |- *. rewrite IH by lia. done.
Qed.

Lemma dateText_length t sep1 sep2 sep3 : 0 <= t < 253402300800 ->
  String.length (dateText sep1 sep2 sep3 (gmtime t)) =
  (14 + 2 * String.length sep1 + String.length sep2 + 2 * String.length sep3)%nat.
Proof.
  intros Ht. pose proof (gmtime_year t Ht) as Hy. destruct (gmtime_ok t) as [(H1 & H2 & H3 & H4 & H5) _].
  assert (month_length (tm_year (gmtime t) + 1900) (tm_mon (gmtime t) + 1) <= 31) as Hl.
  { unfold month_length. repeat destr_if; lia. }
  revert Hy H1 H2 H3 H4 H5 Hl. generalize (gmtime t). intros T Hy H1 H2 H3 H4 H5 Hl.
  unfold dateText. rewrite !str_length_app, !pad0_digits by (cbn; lia). rewrite !digits_pad_length. lia.
Qed.

(** A formatted time stamp is read back: its date is the one of its second, and
    the microseconds follow. *)
Theorem toFormattedString_reads ts : 0 <= ts < 253402300800 * kMicroSecondsPerSecond ->
  exists sec s, readDate 1 1 1 (toFormattedString true ts) = (sec, s) /\
    sec * kMicroSecondsPerSecond + fst (column 6 0 (str_drop 1 s)) = ts.
Proof.
  unfold kMicroSecondsPerSecond. intros H. unfold toFormattedString, formatted, kMicroSecondsPerSecond.
  rewrite Z.quot_div_nonneg, Z.rem_mod_nonneg by lia.
  pose proof (Z.div_mod ts 1000000 ltac:(lia)) as Hd. pose proof (Z.mod_pos_bound ts 1000000 ltac:(lia)) as Hm.
  assert (0 <= ts / 1000000 < 253402300800) as Hs by (split; [apply Z.div_pos; lia|apply Z.div_lt_upper_bound; lia]).
  assert (snprintf 32 (dateText "-" " " ":" (gmtime (ts / 1000000)) +:+ "." +:+ pad0 6 (ts mod 1000000)) =
          dateText "-" " " ":" (gmtime (ts / 1000000)) +:+ "." +:+ pad0 6 (ts mod 1000000)) as ->.
  { apply str_take_all. rewrite !str_length_app, dateText_length, pad0_digits, digits_pad_length by (cbn; lia). cbn. lia. }
  exists (ts / 1000000), ("." +:+ pad0 6 (ts mod 1000000)). split; [by apply (readDate_text _ "-" " " ":")|].
  rewrite str_cons_app, str_nil_app. cbn [str_drop].
  pose proof (column_pad 6 0 (ts mod 1000000) "" "" ltac:(cbn; lia) eq_refl) as E. rewrite !str_app_nil_r in E. rewrite E. cbn. lia.
Qed.

(** The names of log files tell when they were opened, so two of different
    seconds have different names. *)
Lemma getLogFileName_inj basename t u : 0 <= t < 253402300800 -> 0 <= u < 253402300800 ->
  getLogFileName basename t = getLogFileName basename u -> t = u.
Proof.
  intros Ht Hu E. unfold getLogFileName in E. apply (f_equal (str_drop (String.length (basename +:+ ".")))) in E.
  rewrite !(str_app_assoc basename), !str_drop_app in E.
  pose proof (readDate_text t "" "-" "" ".log" Ht) as E1. pose proof (readDate_text u "" "-" "" ".log" Hu) as E2.
  rewrite E, E2 in E1. by injection E1.
Qed.

(** The last day of a month has no next one in [toFormattedLocalString]. *)
Example local_day_32 : toFormattedLocalString false (1767196800 * kMicroSecondsPerSecond) = "2025-12-32 00:00:00"%string.
Proof. reflexivity. Qed.

(** [toString] puts [06] behind the microseconds instead of zeros in front. *)
Example toString_late : toString 1000005 = "1.506"%string /\ toString 1500000 = "1.50000006"%string.
Proof. done. Qed.
