(* ===== verification/Logging.v ===== *)
(** * Logging: lines, buffers and files

    [src/src/adapter/AdapterLog.{h,cpp}] (levels and lines), the fixed buffer of
    [src/src/base/LogStream.h] and the rolling files of
    [src/src/base/LogFile.{h,cpp}] over the C library's streams. *)

From stdpp Require Import base list numbers gmap strings sorting.
From Stdlib Require Import ZArith Lia Sorted.
From S2P Require Import Prelude CText DoubleText Buffer Timers Times.
Local Open Scope Z_scope.

(** ** Lines *)

(** [enum class Level] *)
Inductive Level := Trace | Debug | Info | Warn | Error | Fatal.

Definition level_code (lv : Level) : Z :=
  match lv with Trace => 0 | Debug => 1 | Info => 2 | Warn => 3 | Error => 4 | Fatal => 5 end.

Definition enabled (level lv : Level) : bool := level_code level <=? level_code lv.

Definition levelName (lv : Level) : string :=
  match lv with
  | Trace => "trace" | Debug => "debug" | Info => "info" | Warn => "warn" | Error => "error" | Fatal => "fatal"
  end.

(** [levelFromString] of the settings. *)
Definition levelFromString (s : string) : Level :=
  if String.eqb s "trace" then Trace else if String.eqb s "debug" then Debug
  else if String.eqb s "warn" then Warn else if String.eqb s "error" then Error else Info.

(** What [Line::~Line] writes; the macros construct a [Line] when its level is
    enabled. *)
Definition lineText (file : option string) (line : Z) (lv : Level) (message : string) : string :=
  default "?"%string file +:+ "(" +:+ to_string line +:+ ") [" +:+ levelName lv +:+ "] " +:+ message +:+
  String.String (Ascii.ascii_of_N 10) "".

Definition eaLog (level : Level) (file : option string) (line : Z) (lv : Level) (message : string) : option string :=
  match lv with
  | Fatal => Some (lineText file line lv message)
  | _ => if enabled level lv then Some (lineText file line lv message) else None
  end.

(** ** [FixedBuffer<SIZE>] *)

(** The bytes between [_data] and [_cur]. *)
Notation FixedBuffer := (list Z).

Definition avail (SIZE : Z) (b : FixedBuffer) : Z := SIZE - lenZ b.

(** [append]: nothing when it does not fit; the length is a [size_t]. *)
Definition fixedAppend (SIZE : Z) (data : list Z) (len : Z) (b : FixedBuffer) : FixedBuffer :=
  if u64 len <? avail SIZE b then b ++ takeZ (u64 len) data else b.

Definition kLargeBuffer : Z := 4000 * 1000.

(** ** Streams of the C library *)

(** The calls on streams, by the names of their files.  A stream keeps what was
    written in a buffer until it is flushed or closed. *)
Inductive FileCall :=
| FOpen (name : string)
| FWrite (name : string) (data : list Z)
| FFlush (name : string)
| FClose (name : string).

Record Stdio := mkStdio {
  sd_disk : gmap string (list Z);
  sd_buffered : gmap string (list Z);
}.

Definition addTo (name : string) (data : list Z) (m : gmap string (list Z)) : gmap string (list Z) :=
  <[name := default [] (m !! name) ++ data]> m.

Definition fileCall (s : Stdio) (c : FileCall) : Stdio :=
  match c with
  | FOpen name => mkStdio (addTo name [] (sd_disk s)) (<[name := []]> (sd_buffered s))
  | FWrite name data => mkStdio (sd_disk s) (addTo name data (sd_buffered s))
  | FFlush name => mkStdio (addTo name (default [] (sd_buffered s !! name)) (sd_disk s)) (<[name := []]> (sd_buffered s))
  | FClose name => mkStdio (addTo name (default [] (sd_buffered s !! name)) (sd_disk s)) (delete name (sd_buffered s))
  end.

(** The files after some calls, from those there were before. *)
Definition stdio (disk : gmap string (list Z)) (log : list FileCall) : Stdio :=
  foldl fileCall (mkStdio disk ∅) log.
Definition onDisk (disk : gmap string (list Z)) (log : list FileCall) : gmap string (list Z) := sd_disk (stdio disk log).

(** ** [LogFile] *)

(** The arguments of the constructor and the answers of the system: of the [n]-th
    call, to [time], [fopen] and [fwrite] of so many bytes. *)
Record LogEnv := mkLogEnv {
  lv_basename : string;
  lv_rollSize : Z;
  lv_time : nat -> Z;
  lv_fopen : nat -> bool;
  lv_fwrite : nat -> Z -> Z;
}.

(** The default arguments [flushInterval] and [checkEveryN]. *)
Definition kFlushInterval : Z := 3.
Definition kCheckEveryN : Z := 1024.
Definition kRollPerSeconds : Z := 60 * 60 * 24.

(** [LogFile::AppendFile], by the name of its stream. *)
Record AppendFile := mkAppendFile { af_name : string; af_writtenBytes : Z }.

(** [class LogFile], with the calls it made. *)
Record LogFile := mkLogFile {
  lf_count : Z;
  lf_startOfPeriod : Z;
  lf_lastRoll : Z;
  lf_lastFlush : Z;
  lf_file : option AppendFile;
  lf_calls : nat;
  lf_log : list FileCall;
}.

Definition set_count (n : Z) (f : LogFile) : LogFile :=
  mkLogFile n (lf_startOfPeriod f) (lf_lastRoll f) (lf_lastFlush f) (lf_file f) (lf_calls f) (lf_log f).
Definition set_lastFlush (t : Z) (f : LogFile) : LogFile :=
  mkLogFile (lf_count f) (lf_startOfPeriod f) (lf_lastRoll f) t (lf_file f) (lf_calls f) (lf_log f).
Definition set_file (a : AppendFile) (f : LogFile) : LogFile :=
  mkLogFile (lf_count f) (lf_startOfPeriod f) (lf_lastRoll f) (lf_lastFlush f) (Some a) (lf_calls f) (lf_log f).

(** A call was made; it left [cs] in the log. *)
Definition called (cs : list FileCall) (f : LogFile) : LogFile :=
  mkLogFile (lf_count f) (lf_startOfPeriod f) (lf_lastRoll f) (lf_lastFlush f) (lf_file f) (S (lf_calls f)) (lf_log f ++ cs).

Section File.
Context (E : LogEnv).

(** [AppendFile::write] *)
Definition write (name : string) (data : list Z) (f : LogFile) : Z * LogFile :=
  let n := lv_fwrite E (lf_calls f) (lenZ data) in (n, called [FWrite name (takeZ n data)] f).

(** The loop of [AppendFile::append]; [None] is missing fuel. *)
Fixpoint appendLoop (fuel : nat) (name : string) (rest : list Z) (f : LogFile) : option LogFile :=
  match rest, fuel with
  | [], _ => Some f
  | _, O => None
  | _, S fuel' =>
      let '(x, f) := write name rest f in
      if x =? 0 then Some f else appendLoop fuel' name (dropZ x rest) f
  end.

(** [AppendFile::append] *)
Definition appendFile (logline : list Z) (f : LogFile) : option LogFile :=
  a ← lf_file f;
  let '(n, f) := write (af_name a) logline f in
  f ← appendLoop (length logline) (af_name a) (dropZ n logline) f;
  Some (set_file (mkAppendFile (af_name a) (af_writtenBytes a + lenZ logline)) f).

(** [LogFile::flush] *)
Definition flushFile (f : LogFile) : option LogFile := a ← lf_file f; Some (called [FFlush (af_name a)] f).

(** [LogFile::rollFile]: the new stream is open before the old one is closed. *)
Definition rollFile (f : LogFile) : option (bool * LogFile) :=
  let now := lv_time E (lf_calls f) in
  let f := called [] f in
  let filename := getLogFileName (lv_basename E) now in
  let start := Z.quot now kRollPerSeconds * kRollPerSeconds in
  if lf_lastRoll f <? now then
    if lv_fopen E (lf_calls f) then
      let closed := match lf_file f with Some a => [FClose (af_name a)] | None => [] end in
      let f := called (FOpen filename :: closed) f in
      Some (true, mkLogFile (lf_count f) start now now (Some (mkAppendFile filename 0)) (lf_calls f) (lf_log f))
    else None
  else Some (false, f).

(** [LogFile::append_unlocked] *)
Definition append_unlocked (logline : list Z) (f : LogFile) : option LogFile :=
  f ← appendFile logline f;
  a ← lf_file f;
  if lv_rollSize E <? af_writtenBytes a then '(_, f) ← rollFile f; Some f
  else
    let f := set_count (lf_count f + 1) f in
    if kCheckEveryN <=? lf_count f then
      let f := set_count 0 f in
      let now := lv_time E (lf_calls f) in
      let f := called [] f in
      let thisPeriod := Z.quot now kRollPerSeconds * kRollPerSeconds in
      if negb (thisPeriod =? lf_startOfPeriod f) then '(_, f) ← rollFile f; Some f
      else if kFlushInterval <? now - lf_lastFlush f then flushFile (set_lastFlush now f)
      else Some f
    else Some f.

(** The constructor and the destructor, which closes the file. *)
Definition newLogFile : option LogFile := '(_, f) ← rollFile (mkLogFile 0 0 0 0 None 0 []); Some f.
Definition destroyLogFile (f : LogFile) : LogFile :=
  match lf_file f with Some a => called [FClose (af_name a)] f | None => f end.

End File.

(** ** What a log file holds *)

(** The files opened so far with the bytes that reached them, each behind what
    the file held before. *)
Definition place (basename : string) (disk : gmap string (list Z)) (files : list (Z * list Z)) : gmap string (list Z) :=
  foldl (fun d tb => addTo (getLogFileName basename (fst tb)) (snd tb) d) disk files.

Definition contents (files : list (Z * list Z)) : list Z := concat files.*2.

(** The clock is past the epoch and before the year 10000, files can be opened,
    and the disk takes something of what it is given. *)
Definition log_env_ok (E : LogEnv) : Prop :=
  (forall k, 0 < lv_time E k < 253402300800) /\ (forall k, lv_fopen E k = true) /\
  forall k n, 0 < n -> 0 < lv_fwrite E k n <= n.

Lemma addTo_addTo n a b m : addTo n a (addTo n b m) = addTo n (b ++ a) m.
Proof. unfold addTo. rewrite lookup_insert_eq, insert_insert_eq. cbn. by rewrite app_assoc. Qed.

Lemma addTo_singleton n a b : addTo n a {[n := b]} = {[n := b ++ a]}.
Proof. unfold addTo. by rewrite lookup_singleton_eq, insert_singleton_eq. Qed.

Lemma addTo_comm n n' a b m : n <> n' -> addTo n a (addTo n' b m) = addTo n' b (addTo n a m).
Proof. intros Hn. unfold addTo. rewrite !lookup_insert_ne by done. by rewrite insert_insert_ne. Qed.

Lemma place_snoc bn d files t b : place bn d (files ++ [(t, b)]) = addTo (getLogFileName bn t) b (place bn d files).
Proof. unfold place. by rewrite foldl_app. Qed.

Lemma contents_snoc files t b : contents (files ++ [(t, b)]) = contents files ++ b.
Proof. unfold contents. rewrite fmap_app, concat_app. cbn. by rewrite app_nil_r. Qed.

Lemma stdio_snoc d log c : stdio d (log ++ [c]) = fileCall (stdio d log) c.
Proof. unfold stdio. by rewrite foldl_app. Qed.

Section FileProps.
Context (E : LogEnv) (HE : log_env_ok E) (d0 : gmap string (list Z)).
Notation name := (getLogFileName (lv_basename E)).

(** [files] were opened in turn, the last of them is the current one, and
    [pend] waits in its stream. *)
Record log_ok (f : LogFile) (closed : list (Z * list Z)) (cur pend : list Z) : Prop := {
  lo_sorted : StronglySorted Z.lt (closed.*1 ++ [lf_lastRoll f]);
  lo_times : Forall (fun t => 0 < t < 253402300800) (closed.*1 ++ [lf_lastRoll f]);
  lo_name : exists w, lf_file f = Some (mkAppendFile (name (lf_lastRoll f)) w);
  lo_stdio : stdio d0 (lf_log f) =
    mkStdio (place (lv_basename E) d0 (closed ++ [(lf_lastRoll f, cur)])) {[name (lf_lastRoll f) := pend]};
}.

Lemma write_ok data f closed cur pend : log_ok f closed cur pend ->
  exists n f', write E (name (lf_lastRoll f)) data f = (n, f') /\ (0 < lenZ data -> 0 < n <= lenZ data) /\
    lf_file f' = lf_file f /\ lf_lastRoll f' = lf_lastRoll f /\ log_ok f' closed cur (pend ++ takeZ n data).
Proof using HE.
  intros [H1 H2 H3 H4]. do 2 eexists. split; [done|]. split; [apply HE|]. do 2 (split; [done|]). split; try done.
  cbn [called lf_log lf_lastRoll]. rewrite stdio_snoc, H4. cbn. by rewrite addTo_singleton.
Qed.

Lemma appendLoop_ok fuel : forall rest f closed cur pend, log_ok f closed cur pend -> (length rest <= fuel)%nat ->
  exists f', appendLoop E fuel (name (lf_lastRoll f)) rest f = Some f' /\
    lf_file f' = lf_file f /\ lf_lastRoll f' = lf_lastRoll f /\ log_ok f' closed cur (pend ++ rest).
Proof using HE.
  induction fuel as [|fuel IH]; intros rest f closed cur pend Hf Hl.
  - destruct rest; [|cbn in Hl; lia]. exists f. by rewrite app_nil_r.
  - destruct rest as [|b rest]; [exists f; by rewrite app_nil_r|]. cbn [appendLoop].
    destruct (write_ok (b :: rest) f _ _ _ Hf) as (n & f1 & -> & Hn & Ef & El & Hf1).
    specialize (Hn ltac:(rewrite lenZ_cons; pose proof (lenZ_nonneg rest); lia)).
    destruct (Z.eqb_spec n 0); [lia|]. rewrite <- El.
    destruct (IH (dropZ n (b :: rest)) f1 _ _ _ Hf1) as (f' & -> & Ef' & El' & Hf').
    { unfold dropZ. rewrite length_drop. cbn in Hl |- *. lia. }
    exists f'. rewrite Ef', El'. split_and!; try done. by rewrite <- app_assoc, takeZ_dropZ in Hf'.
Qed.

Lemma log_ok_file f a : forall closed cur pend, log_ok f closed cur pend -> af_name a = name (lf_lastRoll f) ->
  log_ok (set_file a f) closed cur pend.
Proof. intros closed cur pend [H1 H2 H3 H4] Ha. split; try done. exists (af_writtenBytes a). destruct a. cbn in *. by subst. Qed.

(** A line reaches the stream whatever the pieces the stream takes. *)
Lemma appendFile_ok line f closed cur pend : log_ok f closed cur pend ->
  exists f', appendFile E line f = Some f' /\ log_ok f' closed cur (pend ++ line) /\ lf_lastRoll f' = lf_lastRoll f.
Proof using HE.
  intros Hf. destruct (lo_name _ _ _ _ Hf) as [w Ew]. unfold appendFile. rewrite Ew. cbn [mbind option_bind af_name af_writtenBytes].
  destruct (write_ok line f _ _ _ Hf) as (n & f1 & -> & _ & Ef & El & Hf1). rewrite <- El.
  destruct (appendLoop_ok (length line) (dropZ n line) f1 _ _ _ Hf1) as (f2 & -> & Ef2 & El2 & Hf2).
  { unfold dropZ. rewrite length_drop. lia. }
  eexists. split; [done|]. rewrite <- app_assoc, takeZ_dropZ in Hf2. split; [|by rewrite <- El2].
  apply log_ok_file; [done|]. cbn. by rewrite El2.
Qed.

Lemma flushFile_ok f closed cur pend : log_ok f closed cur pend ->
  exists f', flushFile f = Some f' /\ log_ok f' closed (cur ++ pend) [].
Proof.
  intros [H1 H2 [w H3] H4]. unfold flushFile. rewrite H3. eexists. split; [done|]. split; try done; [by exists w|].
  cbn [called lf_log lf_lastRoll af_name]. rewrite stdio_snoc, H4. cbn [fileCall sd_disk sd_buffered]. rewrite lookup_singleton_eq, insert_singleton_eq.
  cbn [default]. by rewrite !place_snoc, addTo_addTo.
Qed.

(** Rolling closes the file with all it was given and goes on in a new one, or
    does nothing. *)
Lemma rollFile_ok f closed cur pend : log_ok f closed cur pend ->
  exists b f', rollFile E f = Some (b, f') /\
    if b then log_ok f' (closed ++ [(lf_lastRoll f, cur ++ pend)]) [] [] else log_ok f' closed cur pend.
Proof using HE.
  intros [H1 H2 [w H3] H4]. unfold rollFile. cbn [called lf_lastRoll lf_calls lf_file].
  destruct (Z.ltb_spec (lf_lastRoll f) (lv_time E (lf_calls f))) as [Hlt|_].
  2: { do 2 eexists. split; [done|]. split; try done; [by exists w|]. cbn. by rewrite app_nil_r. }
  destruct HE as (Ht & -> & _). rewrite H3. do 2 eexists. split; [done|]. specialize (Ht (lf_calls f)). set (now := lv_time E (lf_calls f)) in *.
  rewrite Forall_app, Forall_singleton in H2. destruct H2 as [H2 H2'].
  assert (name (lf_lastRoll f) <> name now) as Hne by (intros He%getLogFileName_inj; lia).
  split.
  - cbn. rewrite fmap_app. apply StronglySorted_app_2; [|done|by repeat constructor].
    intros x y Hx ->%list_elem_of_singleton. cbn in Hx. apply elem_of_app in Hx as [Hx| ->%list_elem_of_singleton]; [|done].
    etransitivity; [|exact Hlt]. eapply StronglySorted_app_1_elem_of; [exact H1|done|by apply list_elem_of_singleton].
  - cbn. rewrite fmap_app, !Forall_app, !Forall_singleton. cbn. by rewrite Forall_singleton.
  - by exists 0.
  - cbn [called lf_log lf_lastRoll af_name]. rewrite app_nil_r. change (FOpen (name now) :: ?l) with ([FOpen (name now)] ++ l).
    rewrite app_assoc, !stdio_snoc, H4. cbn [fileCall sd_disk sd_buffered]. rewrite lookup_insert_ne, lookup_singleton_eq by done.
    cbn [default]. rewrite !place_snoc. f_equal.
    + by rewrite addTo_comm, addTo_addTo by done.
    + rewrite delete_insert_ne by done. by rewrite delete_singleton_eq.
Qed.

(** The bytes [w] have reached the disk and [p] wait in the stream. *)
Definition log_holds (f : LogFile) (w p : list Z) : Prop :=
  exists closed cur, log_ok f closed cur p /\ w = contents closed ++ cur.

Lemma flush_holds f w p : log_holds f w p -> exists f', flushFile f = Some f' /\ log_holds f' (w ++ p) [].
Proof.
  intros (closed & cur & Hf & ->). destruct (flushFile_ok f _ _ _ Hf) as (f' & -> & Hf').
  exists f'. split; [done|]. exists closed, (cur ++ p). by rewrite app_assoc.
Qed.

Lemma roll_holds f w p : log_holds f w p ->
  exists b f' w' p', rollFile E f = Some (b, f') /\ log_holds f' w' p' /\ w' ++ p' = w ++ p /\ w `prefix_of` w'.
Proof using HE.
  intros (closed & cur & Hf & ->). destruct (rollFile_ok f _ _ _ Hf) as ([] & f' & -> & Hf').
  - exists true, f', (contents closed ++ cur ++ p), []. split; [done|]. split.
    + do 2 eexists. split; [exact Hf'|]. by rewrite contents_snoc, app_nil_r.
    + rewrite app_nil_r, !app_assoc. split; [done|]. by apply prefix_app_r.
  - exists false, f', (contents closed ++ cur), p. split; [done|]. split; [by exists closed, cur|]. done.
Qed.

Lemma holds_same f f' w p : log_holds f w p -> lf_lastRoll f' = lf_lastRoll f -> lf_file f' = lf_file f -> lf_log f' = lf_log f ->
  log_holds f' w p.
Proof.
  intros (closed & cur & [H1 H2 H3 H4] & ->) E1 E2 E3. exists closed, cur. split; [|done]. by split; rewrite ?E1, ?E2, ?E3.
Qed.

(** A line appended to a log file ends up behind all that came before it. *)
Lemma append_holds line f w p : log_holds f w p ->
  exists f' w' p', append_unlocked E line f = Some f' /\ log_holds f' w' p' /\
    w' ++ p' = w ++ p ++ line /\ w `prefix_of` w'.
Proof using HE.
  intros (closed & cur & Hf & Ew). destruct (appendFile_ok line f _ _ _ Hf) as (f1 & Ea & Hf1 & _).
  assert (log_holds f1 w (p ++ line)) as H1 by (by exists closed, cur). destruct (lo_name _ _ _ _ Hf1) as [n En].
  unfold append_unlocked. rewrite Ea. cbn [mbind option_bind]. rewrite En. cbn [mbind option_bind].
  assert (forall f2, log_holds f2 w (p ++ line) -> exists f' w' p', ('(_, f) ← rollFile E f2; Some f) = Some f' /\ log_holds f' w' p' /\
    w' ++ p' = w ++ p ++ line /\ w `prefix_of` w') as Hroll.
  { intros f2 H2. destruct (roll_holds f2 _ _ H2) as (b & f' & w' & p' & -> & ? & ? & ?). by exists f', w', p'. }
  destruct (_ <? _); [by apply Hroll|]. cbn [set_count lf_count].
  destruct (_ <=? _); [|exists (set_count (lf_count f1 + 1) f1), w, (p ++ line); split; [done|]; split; [by eapply holds_same|done]].
  destruct (negb _).
  - apply Hroll. apply (holds_same f1); try done. cbn. by rewrite app_nil_r.
  - destruct (_ <? _).
    + match goal with |- context [flushFile ?f2] => destruct (flush_holds f2 w (p ++ line)) as (f' & -> & Hf') end.
      { apply (holds_same f1); try done. cbn. by rewrite app_nil_r. }
      exists f', (w ++ p ++ line), []. split; [done|]. split; [done|]. rewrite app_nil_r. split; [done|]. by apply prefix_app_r.
    + eexists _, w, (p ++ line). split; [done|]. split; [|done]. apply (holds_same f1); try done. cbn. by rewrite app_nil_r.
Qed.

Lemma newLogFile_holds : exists f, newLogFile E = Some f /\ log_holds f [] [].
Proof using HE.
  unfold newLogFile, rollFile. cbn [called lf_lastRoll lf_calls lf_file lf_log lf_count]. destruct HE as (Ht & -> & _).
  pose proof (Ht 0%nat) as Ht0. destruct (Z.ltb_spec 0 (lv_time E 0)); [|lia]. eexists. split; [done|].
  exists [], []. split; [|done]. split; cbn; [by repeat constructor|by rewrite Forall_singleton|by exists 0|].
  unfold place, stdio. cbn. by f_equal.
Qed.

(** Closing the last file puts everything on the disk: what was appended stands
    in the files that were opened, in turn, each behind what it held before. *)
Lemma destroy_holds f w p : log_holds f w p ->
  exists files, onDisk d0 (lf_log (destroyLogFile f)) = place (lv_basename E) d0 files /\
    sd_buffered (stdio d0 (lf_log (destroyLogFile f))) = ∅ /\ StronglySorted Z.lt files.*1 /\ contents files = w ++ p.
Proof.
  intros (closed & cur & [H1 H2 [n H3] H4] & ->). exists (closed ++ [(lf_lastRoll f, cur ++ p)]).
  unfold onDisk, destroyLogFile. rewrite H3. cbn [called lf_log af_name]. rewrite stdio_snoc, H4. cbn [fileCall sd_disk sd_buffered].
  rewrite lookup_singleton_eq, !place_snoc, addTo_addTo, contents_snoc, fmap_app, app_assoc. cbn. by split_and!; try apply delete_singleton_eq.
Qed.

End FileProps.
