(* ===== verification/LogStream.v ===== *)
(** * Numbers in log lines

    [src/src/base/LogStream.{h,cpp}]: the conversion of integers to decimal and
    hexadecimal text and what [operator<<] does with it in a fixed buffer. *)

From stdpp Require Import base list numbers strings pretty.
From Stdlib Require Import ZArith Lia Ascii.
From S2P Require Import Prelude CText DoubleText Buffer Timers Times Logging.
Local Open Scope Z_scope.

(** ** Conversions *)

(** [zero[lsd]]: the middle of [digits], so a negative remainder has its digit,
    too; [None] is a read outside the array. *)
Definition digits : string := "9876543210123456789".
Definition digitChar (lsd : Z) : option ascii := rd (String.list_ascii_of_string digits) (9 + lsd).
Definition digitsHex : string := "0123456789ABCDEF".

(** The characters a loop writes, lowest digit first; [None] is also missing
    fuel. *)
Fixpoint convertLoop (fuel : nat) (i : Z) : option (list ascii) :=
  match fuel with
  | O => None
  | S fuel' =>
      c ← digitChar (Z.rem i 10);
      let i := Z.quot i 10 in
      if i =? 0 then Some [c] else l ← convertLoop fuel' i; Some (c :: l)
  end.

(** [convert]; at most 20 digits in 64 bits. *)
Definition convert (value : Z) : option string :=
  l ← convertLoop 20 value;
  Some (String.string_of_list_ascii (rev (l ++ if value <? 0 then ["-"%char] else []))).

Fixpoint convertHexLoop (fuel : nat) (i : Z) : option (list ascii) :=
  match fuel with
  | O => None
  | S fuel' =>
      c ← rd (String.list_ascii_of_string digitsHex) (Z.rem i 16);
      let i := Z.quot i 16 in
      if i =? 0 then Some [c] else l ← convertHexLoop fuel' i; Some (c :: l)
  end.

(** [convertHex] of a [uintptr_t]. *)
Definition convertHex (value : Z) : option string := l ← convertHexLoop 16 value; Some (String.string_of_list_ascii (rev l)).

(** ** [LogStream] *)

Definition kSmallBuffer : Z := 4000.
Definition kMaxNumericSize : Z := 32.

Definition text_bytes (s : string) : list Z := code <$> String.list_ascii_of_string s.

(** [formatInteger] and [operator<<(const void* )]: nothing without room for any
    number. *)
Definition formatInteger (v : Z) (b : FixedBuffer) : option FixedBuffer :=
  if kMaxNumericSize <=? avail kSmallBuffer b then s ← convert v; Some (b ++ text_bytes s) else Some b.
Definition formatPointer (v : Z) (b : FixedBuffer) : option FixedBuffer :=
  if kMaxNumericSize <=? avail kSmallBuffer b then s ← convertHex v; Some (b ++ text_bytes ("0x" +:+ s)) else Some b.

(** [operator<<] of a string, a pointer to characters, a character and a bool. *)
Definition putString (s : string) (b : FixedBuffer) : FixedBuffer :=
  fixedAppend kSmallBuffer (text_bytes s) (lenZ (text_bytes s)) b.
Definition putCString (s : option string) (b : FixedBuffer) : FixedBuffer := putString (default "(null)"%string s) b.
Definition putBool (v : bool) (b : FixedBuffer) : FixedBuffer := putString (if v then "1" else "0") b.

(** ** The text is the number's *)

Lemma string_rev_snoc l c (s : string) : String.string_of_list_ascii (rev (c :: l)) +:+ s =
  String.string_of_list_ascii (rev l) +:+ String.String c s.
Proof.
  cbn [rev]. generalize (rev l). intros r. induction r as [|a r IH]; [done|]. cbn [app String.string_of_list_ascii].
  by rewrite !str_cons_app, IH.
Qed.

Lemma digitChar_ok k : -9 <= k <= 9 -> digitChar k = Some (pretty_N_char (Z.to_N (Z.abs k))).
Proof.
  intros H. assert (exists n : nat, (n < 19)%nat /\ k = Z.of_nat n - 9) as (n & Hn & ->) by (exists (Z.to_nat (k + 9)); lia).
  do 19 (destruct n as [|n]; [done|]). lia.
Qed.

Lemma convertLoop_ok fuel : forall i, Z.abs i < 10 ^ Z.of_nat fuel -> (0 < fuel)%nat ->
  exists l, convertLoop fuel i = Some l /\ (length l <= fuel)%nat /\
    forall s, String.string_of_list_ascii (rev l) +:+ s =
      if Z.abs i =? 0 then String.String "0"%char s else pretty_N_go (Z.to_N (Z.abs i)) s.
Proof.
  induction fuel as [|fuel IH]; intros i Hi Hf; [lia|]. cbn [convertLoop].
  assert (Z.abs (Z.rem i 10) = Z.abs i mod 10) as Hr by (rewrite <- Z.rem_abs, Z.rem_mod_nonneg by lia; done).
  assert (Z.abs (Z.quot i 10) = Z.abs i / 10) as Hq by (rewrite <- Z.quot_abs, Z.quot_div_nonneg by lia; done).
  pose proof (Z.mod_pos_bound (Z.abs i) 10 ltac:(lia)) as Hm. pose proof (Z.div_mod (Z.abs i) 10 ltac:(lia)) as Hd.
  rewrite digitChar_ok by lia. cbn [mbind option_bind]. rewrite Hr.
  assert (Z.abs i <> 0 -> forall s, pretty_N_go (Z.to_N (Z.abs i)) s =
    pretty_N_go (Z.to_N (Z.abs i / 10)) (String.String (pretty_N_char (Z.to_N (Z.abs i mod 10))) s)) as Hgo.
  { intros Hn s. rewrite pretty_N_go_step by lia. f_equal; [|do 2 f_equal]; [rewrite Z2N.inj_div|rewrite Z2N.inj_mod]; done || lia. }
  destruct (Z.eqb_spec (Z.quot i 10) 0) as [E|E].
  - rewrite E in Hq. eexists. split; [done|]. split; [cbn; lia|]. intros s.
    cbn [rev app String.string_of_list_ascii]. rewrite str_cons_app, str_nil_app.
    destruct (Z.eqb_spec (Z.abs i) 0) as [E0|E0]; [by rewrite E0|]. rewrite Hgo by done. change (Z.abs 0) with 0 in Hq. rewrite <- Hq. by rewrite pretty_N_go_0.
  - assert (0 < fuel)%nat as Hf' by (destruct fuel; [cbn in Hi|]; lia).
    rewrite Nat2Z.inj_succ, Z.pow_succ_r in Hi by lia.
    destruct (IH (Z.quot i 10)) as (l & -> & Hl & Hs); [rewrite Hq; apply Z.div_lt_upper_bound; lia|done|].
    eexists. split; [done|]. split; [cbn; lia|]. intros s. rewrite string_rev_snoc, Hs, Hq.
    destruct (Z.eqb_spec (Z.abs i / 10) 0); [lia|]. destruct (Z.eqb_spec (Z.abs i) 0); [lia|]. by rewrite Hgo.
Qed.

Lemma length_string_of_list l : String.length (String.string_of_list_ascii l) = length l.
Proof. induction l as [|c l IH]; [done|]. cbn. by rewrite IH. Qed.

Lemma length_list_of_string s : length (String.list_ascii_of_string s) = String.length s.
Proof. induction s as [|c s IH]; [done|]. cbn. by rewrite IH. Qed.

(** The text of the magnitude. *)
Lemma convertLoop_text fuel v : Z.abs v < 10 ^ Z.of_nat fuel -> (0 < fuel)%nat ->
  exists l, convertLoop fuel v = Some l /\ String.string_of_list_ascii (rev l) = pretty (Z.to_N (Z.abs v)) /\
    (String.length (pretty (Z.to_N (Z.abs v))) <= fuel)%nat.
Proof.
  intros Hv Hf. destruct (convertLoop_ok fuel v Hv Hf) as (l & El & Hl & Hs). exists l. split; [done|].
  assert (String.string_of_list_ascii (rev l) = pretty (Z.to_N (Z.abs v))) as E.
  { rewrite <- (str_app_nil_r (String.string_of_list_ascii (rev l))), Hs. unfold pretty, pretty_N.
    destruct (Z.eqb_spec (Z.abs v) 0) as [->|Hn]; [done|]. by rewrite decide_False by lia. }
  split; [done|]. by rewrite <- E, length_string_of_list, length_rev.
Qed.

(** [convert] is [std::to_string], for every 64-bit integer, signed or not; it
    reads inside its table, ends, and needs no more than 20 characters. *)
Theorem convert_correct v : - 2 ^ 63 <= v < 2 ^ 64 -> convert v = Some (to_string v) /\ (String.length (to_string v) <= 20)%nat.
Proof.
  intros Hv. unfold convert, to_string. destruct (convertLoop_text 20 v ltac:(lia) ltac:(lia)) as (l & -> & E & Hl).
  cbn [mbind option_bind]. destruct (Z.ltb_spec v 0).
  - destruct (convertLoop_text 19 v ltac:(lia) ltac:(lia)) as (_ & _ & _ & Hl').
    rewrite rev_app_distr. replace (- v) with (Z.abs v) by lia. cbn [rev app String.string_of_list_ascii]. rewrite E.
    split; [done|]. rewrite str_length_app. change (String.length "-") with 1%nat. lia.
  - rewrite app_nil_r, E. by rewrite Z.abs_eq in * by lia.
Qed.

(** Numbers go behind what the buffer holds, and never overflow it. *)
Lemma formatInteger_ok v b : - 2 ^ 63 <= v < 2 ^ 64 -> lenZ b < kSmallBuffer ->
  exists b', formatInteger v b = Some b' /\ lenZ b' < kSmallBuffer /\
    b' = if kMaxNumericSize <=? avail kSmallBuffer b then b ++ text_bytes (to_string v) else b.
Proof.
  intros Hv Hb. unfold formatInteger. destruct (convert_correct v Hv) as [-> Hl].
  destruct (Z.leb_spec kMaxNumericSize (avail kSmallBuffer b)) as [Ha|Ha]; (eexists; split; [done|]); (split; [|done]); [|done].
  unfold avail, kMaxNumericSize in Ha. rewrite lenZ_app. unfold lenZ at 2, text_bytes.
  rewrite length_fmap, length_list_of_string. lia.
Qed.

Example convert_min : convert (- 2 ^ 63) = Some "-9223372036854775808"%string /\ convertHex 48879 = Some "BEEF"%string.
Proof. done. Qed.
