(* ===== verification/AsyncLog.v ===== *)
(** * The thread that writes the log

    [src/src/base/AsyncLogging.{h,cpp}]: any thread appends lines to buffers under
    a mutex; a thread of its own swaps the buffers out and writes them to a
    [LogFile]; an owner starts and stops it.  A critical section is one step; the
    wait for the condition releases the mutex and ends by a notification, by the
    time-out or by itself, that is, at any time. *)

From stdpp Require Import base list numbers gmap strings sorting.
From Stdlib Require Import ZArith Lia Sorted.
From S2P Require Import Prelude CText DoubleText Buffer Timers Times Logging.
Local Open Scope Z_scope.

(** ** Data *)

(** Where [threadFunc] is. *)
Inductive LogPc :=
| LNone                (* not started *)
| LStarted
| LOpening             (* behind [countDown] *)
| LTesting             (* at [while (_running)] *)
| LLocking             (* about to lock the mutex *)
| LWaiting             (* in [tryWait] *)
| LWriting (i : nat)   (* at the [i]-th of the buffers to write *)
| LEnding
| LDone.

(** Where the owner is: before [start], in [_latch.wait()], behind it, in
    [_thread.join()] of [stop], and behind it. *)
Inductive LogOwner := OBefore | OLatch | ORunning | OJoining | OStopped.

(** [class AsyncLogging], its thread's local variables [output] and
    [buffersToWrite], and the lines that were appended. *)
Record AsyncLogging := mkAsync {
  al_running : bool;
  al_latch : Z;
  al_currentBuffer : FixedBuffer;
  al_buffers : list FixedBuffer;
  al_output : option LogFile;
  al_buffersToWrite : list FixedBuffer;
  al_thread : LogPc;
  al_owner : LogOwner;
  al_lines : list (list Z);
}.

Definition newAsync : AsyncLogging := mkAsync false 1 [] [] None [] LNone OBefore [].

Definition set_buffers (current : FixedBuffer) (buffers : list FixedBuffer) (s : AsyncLogging) : AsyncLogging :=
  mkAsync (al_running s) (al_latch s) current buffers (al_output s) (al_buffersToWrite s) (al_thread s) (al_owner s) (al_lines s).
Definition set_pc (pc : LogPc) (s : AsyncLogging) : AsyncLogging :=
  mkAsync (al_running s) (al_latch s) (al_currentBuffer s) (al_buffers s) (al_output s) (al_buffersToWrite s) pc (al_owner s) (al_lines s).
Definition set_output (f : LogFile) (s : AsyncLogging) : AsyncLogging :=
  mkAsync (al_running s) (al_latch s) (al_currentBuffer s) (al_buffers s) (Some f) (al_buffersToWrite s) (al_thread s) (al_owner s) (al_lines s).
Definition set_toWrite (l : list FixedBuffer) (s : AsyncLogging) : AsyncLogging :=
  mkAsync (al_running s) (al_latch s) (al_currentBuffer s) (al_buffers s) (al_output s) l (al_thread s) (al_owner s) (al_lines s).
Definition set_run (running : bool) (owner : LogOwner) (s : AsyncLogging) : AsyncLogging :=
  mkAsync running (al_latch s) (al_currentBuffer s) (al_buffers s) (al_output s) (al_buffersToWrite s) (al_thread s) owner (al_lines s).
Definition set_latch (n : Z) (s : AsyncLogging) : AsyncLogging :=
  mkAsync (al_running s) n (al_currentBuffer s) (al_buffers s) (al_output s) (al_buffersToWrite s) (al_thread s) (al_owner s) (al_lines s).
Definition note_line (line : list Z) (s : AsyncLogging) : AsyncLogging :=
  mkAsync (al_running s) (al_latch s) (al_currentBuffer s) (al_buffers s) (al_output s) (al_buffersToWrite s) (al_thread s) (al_owner s)
    (al_lines s ++ [line]).

(** ** Operations *)

(** [AsyncLogging::append]; the notification changes nothing, since a wait can end
    at any time. *)
Definition appendLine (logline : list Z) (len : Z) (s : AsyncLogging) : AsyncLogging :=
  if len <? avail kLargeBuffer (al_currentBuffer s) then
    set_buffers (fixedAppend kLargeBuffer logline len (al_currentBuffer s)) (al_buffers s) s
  else set_buffers (fixedAppend kLargeBuffer logline len []) (al_buffers s ++ [al_currentBuffer s]) s.

(** [asyncLogOutput], the sink of the adapter's lines while [g_asyncLog] is set. *)
Definition asyncLogOutput (msg : list Z) (s : AsyncLogging) : AsyncLogging :=
  note_line msg (appendLine msg (swrap 32 (lenZ msg)) s).

(** The end of the critical section: [_buffers] and the current buffer go to
    [buffersToWrite], which was empty. *)
Definition swapBuffers (s : AsyncLogging) : option AsyncLogging :=
  let buffers := al_buffers s ++ [al_currentBuffer s] in
  let s := set_toWrite buffers (set_buffers [] (al_buffersToWrite s) s) in
  match al_buffersToWrite s with [] => None | _ => Some (set_pc (LWriting 0) s) end.

(** The next step of [threadFunc]. *)
Definition logThread (E : LogEnv) (s : AsyncLogging) : option AsyncLogging :=
  match al_thread s with
  | LNone | LDone => None
  | LStarted => if al_running s then Some (set_pc LOpening (set_latch (al_latch s - 1) s)) else None
  | LOpening => f ← newLogFile E; Some (set_pc LTesting (set_output f s))
  | LTesting =>
      if al_running s then match al_buffersToWrite s with [] => Some (set_pc LLocking s) | _ => None end
      else Some (set_pc LEnding s)
  | LLocking => match al_buffers s with [] => Some (set_pc LWaiting s) | _ => swapBuffers s end
  | LWaiting => swapBuffers s
  | LWriting i =>
      f ← al_output s;
      match al_buffersToWrite s !! i with
      | Some b => f ← append_unlocked E b f; Some (set_pc (LWriting (S i)) (set_output f s))
      | None => f ← flushFile f; Some (set_pc LTesting (set_output f (set_toWrite [] s)))
      end
  | LEnding => f ← al_output s; f ← flushFile f; Some (set_pc LDone (set_output (destroyLogFile f) s))
  end.

(** What happens: a line from any thread, a step of the thread, and the owner's
    [start], the end of its wait, [stop] and the end of its join. *)
Inductive LogEvent :=
| LogLine (msg : list Z)
| LogStep
| LogStart
| LogStarted
| LogStop
| LogJoined.

#[export] Instance log_event_dec : EqDecision LogEvent.
Proof. solve_decision. Defined.

Definition logStep (E : LogEnv) (e : LogEvent) (s : AsyncLogging) : option AsyncLogging :=
  match e with
  | LogLine msg => Some (asyncLogOutput msg s)
  | LogStep => logThread E s
  | LogStart => Some (set_pc LStarted (set_run true OLatch s))
  | LogStarted => Some (set_run (al_running s) ORunning s)
  | LogStop => Some (set_run false OJoining s)
  | LogJoined => Some (set_run (al_running s) OStopped s)
  end.

(** When it can happen. *)
Definition log_may (s : AsyncLogging) (e : LogEvent) : Prop :=
  match e with
  | LogLine msg => lenZ msg < 2 ^ 31
  | LogStep => al_thread s <> LNone /\ al_thread s <> LDone
  | LogStart => al_owner s = OBefore
  | LogStarted => al_owner s = OLatch /\ al_latch s <= 0
  | LogStop => al_owner s = ORunning
  | LogJoined => al_owner s = OJoining /\ al_thread s = LDone
  end.

Definition log_step (E : LogEnv) (s s' : AsyncLogging) : Prop := exists e, log_may s e /\ logStep E e s = Some s'.
Definition log_reachable (E : LogEnv) (s : AsyncLogging) : Prop := rtc (log_step E) newAsync s.

(** ** What the lines come to *)

(** Lines that fit a buffer are kept, longer ones dropped. *)
Definition kept (lines : list (list Z)) : list Z := concat (filter (fun l => lenZ l < kLargeBuffer) lines).

(** The buffers the thread has still to write, and what nobody swapped yet. *)
Definition toWrite (s : AsyncLogging) : list Z :=
  concat (match al_thread s with LWriting i => drop i (al_buffersToWrite s) | _ => [] end).
Definition unswapped (s : AsyncLogging) : list Z := concat (al_buffers s) ++ al_currentBuffer s.

(** What has reached the disk, by the calls of the log file. *)
Definition flushed (d0 : gmap string (list Z)) (E : LogEnv) (s : AsyncLogging) (w : list Z) : Prop :=
  match al_output s with
  | None => w = []
  | Some f => exists files, onDisk d0 (lf_log f) = place (lv_basename E) d0 files /\
      StronglySorted Z.lt files.*1 /\ contents files = w
  end.

(** ** The invariant *)

Section Inv.
Context (E : LogEnv) (HE : log_env_ok E) (d0 : gmap string (list Z)).

(** Where the owner is tells whether the thread may run. *)
Definition owner_ok (s : AsyncLogging) : Prop :=
  match al_owner s with
  | OBefore => al_running s = false /\ al_thread s = LNone /\ al_latch s = 1
  | OLatch => al_running s = true /\
      match al_thread s with LNone | LEnding | LDone => False | LStarted => al_latch s = 1 | _ => al_latch s = 0 end
  | ORunning => al_running s = true /\ match al_thread s with LNone | LStarted | LEnding | LDone => False | _ => True end
  | OJoining => al_running s = false /\ match al_thread s with LNone | LStarted => False | _ => True end
  | OStopped => al_running s = false /\ al_thread s = LDone
  end.

(** [buffersToWrite] is empty but while it is written. *)
Definition writes_ok (s : AsyncLogging) : Prop :=
  match al_thread s with LWriting i => (i <= length (al_buffersToWrite s))%nat | _ => al_buffersToWrite s = [] end.

(** [w] is on the disk, [p] waits in the stream: only while buffers are written. *)
Definition file_ok (s : AsyncLogging) (w p : list Z) : Prop :=
  match al_thread s with
  | LNone | LStarted | LOpening => al_output s = None /\ w = [] /\ p = []
  | LWriting _ => exists f, al_output s = Some f /\ log_holds E d0 f w p
  | LDone => p = [] /\ exists f files, al_output s = Some f /\ onDisk d0 (lf_log f) = place (lv_basename E) d0 files /\
      sd_buffered (stdio d0 (lf_log f)) = ∅ /\ StronglySorted Z.lt files.*1 /\ contents files = w
  | _ => p = [] /\ exists f, al_output s = Some f /\ log_holds E d0 f w []
  end.

Record log_inv (s : AsyncLogging) (w p : list Z) : Prop := {
  li_owner : owner_ok s;
  li_writes : writes_ok s;
  li_file : file_ok s w p;
  li_fit : Forall (fun b => lenZ b < kLargeBuffer) (al_buffers s ++ [al_currentBuffer s]);
  li_lines : w ++ p ++ toWrite s ++ unswapped s = kept (al_lines s);
}.

Lemma kept_snoc lines l : kept (lines ++ [l]) = kept lines ++ if decide (lenZ l < kLargeBuffer) then l else [].
Proof.
  unfold kept. rewrite filter_app, concat_app. f_equal. rewrite filter_cons, filter_nil.
  destruct (decide _); cbn; by rewrite ?app_nil_r.
Qed.

(** A line goes behind the others, or is dropped. *)
Lemma appendLine_ok msg s : 0 <= lenZ msg < 2 ^ 31 -> Forall (fun b => lenZ b < kLargeBuffer) (al_buffers s ++ [al_currentBuffer s]) ->
  let s' := appendLine msg (swrap 32 (lenZ msg)) s in
  unswapped s' = unswapped s ++ (if decide (lenZ msg < kLargeBuffer) then msg else []) /\
  Forall (fun b => lenZ b < kLargeBuffer) (al_buffers s' ++ [al_currentBuffer s']).
Proof.
  intros Hm Hf. rewrite swrap_small by lia. unfold appendLine, fixedAppend, avail, unswapped.
  rewrite uwrap_small by lia. rewrite lenZ_nil, takeZ_all by lia. rewrite Forall_app, Forall_singleton in Hf. destruct Hf as [Hf Hc].
  destruct (Z.ltb_spec (lenZ msg) (kLargeBuffer - lenZ (al_currentBuffer s))) as [Hl|Hl]; cbn [set_buffers al_buffers al_currentBuffer].
  - pose proof (lenZ_nonneg (al_currentBuffer s)). destruct (decide _); [|lia]. rewrite app_assoc. split; [done|].
    rewrite Forall_app, Forall_singleton, lenZ_app. split; [done|lia].
  - rewrite concat_app. cbn [concat]. rewrite app_nil_r, Z.sub_0_r, !Forall_app, !Forall_singleton.
    destruct (Z.ltb_spec (lenZ msg) kLargeBuffer), (decide (lenZ msg < kLargeBuffer)); done || lia.
Qed.

Lemma line_ok msg s w p : log_inv s w p -> lenZ msg < 2 ^ 31 -> log_inv (asyncLogOutput msg s) w p.
Proof.
  intros [H1 H2 H3 H4 H5] Hm. destruct (appendLine_ok msg s ltac:(pose proof (lenZ_nonneg msg); lia) H4) as [Eu Hf].
  unfold asyncLogOutput. set (s1 := appendLine _ _ _) in *.
  assert (al_running s1 = al_running s /\ al_latch s1 = al_latch s /\ al_output s1 = al_output s /\ al_buffersToWrite s1 = al_buffersToWrite s /\
    al_thread s1 = al_thread s /\ al_owner s1 = al_owner s /\ al_lines s1 = al_lines s) as (E1 & E2 & E3 & E4 & E5 & E6 & E7).
  { subst s1. unfold appendLine. by destruct (_ <? _). }
  clearbody s1. split.
  - unfold owner_ok in *. cbn. by rewrite E1, E2, E5, E6.
  - unfold writes_ok in *. cbn. by rewrite E4, E5.
  - unfold file_ok in *. cbn. by rewrite E3, E5.
  - exact Hf.
  - unfold toWrite in *. cbn [note_line al_thread al_buffersToWrite al_lines]. rewrite E4, E5, E7, kept_snoc, <- H5.
    change (unswapped (note_line msg s1)) with (unswapped s1). rewrite Eu. by rewrite !app_assoc.
Qed.

(** The swap hands over everything that was appended. *)
Lemma swap_ok s w : log_inv s w [] -> al_buffersToWrite s = [] -> match al_thread s with LLocking | LWaiting => True | _ => False end ->
  exists s', swapBuffers s = Some s' /\ log_inv s' w [] /\ al_thread s' = LWriting 0 /\ unswapped s' = [] /\
    al_lines s' = al_lines s /\ al_owner s' = al_owner s /\
    al_running s' = al_running s.
Proof.
  intros [H1 H2 H3 H4 H5] Hw Hp. unfold swapBuffers. rewrite Hw. cbn.
  destruct (al_buffers s ++ [al_currentBuffer s]) as [|b l] eqn:Eb; [by destruct (al_buffers s)|].
  eexists. split; [done|]. split; [|done]. split.
  - unfold owner_ok in *. cbn. destruct (al_owner s), (al_thread s); naive_solver.
  - unfold writes_ok. cbn. lia.
  - unfold file_ok in *. cbn. destruct (al_thread s); try done; by destruct H3 as [_ H3].
  - cbn. by constructor.
  - unfold toWrite, unswapped in *. cbn [al_thread al_lines al_buffersToWrite al_buffers al_currentBuffer set_pc set_toWrite set_buffers drop].
    rewrite <- H5, <- Eb, concat_app. cbn. rewrite !app_nil_r. by destruct (al_thread s).
Qed.

(** A step that leaves the lines and the buffers where they are. *)
Lemma moved_ok s s' w p w' p' : log_inv s w p ->
  al_buffers s' = al_buffers s /\ al_currentBuffer s' = al_currentBuffer s /\ al_lines s' = al_lines s ->
  owner_ok s' -> writes_ok s' -> file_ok s' w' p' -> w' ++ p' ++ toWrite s' = w ++ p ++ toWrite s -> log_inv s' w' p'.
Proof.
  intros [H1 H2 H3 H4 H5] (E1 & E2 & E3) Ho Hw Hf Hb. split; try done; unfold unswapped in *; rewrite E1, E2; [done|].
  rewrite E3, <- H5. transitivity ((w' ++ p' ++ toWrite s') ++ concat (al_buffers s) ++ al_currentBuffer s); [by rewrite <- !app_assoc|].
  rewrite Hb. by rewrite <- !app_assoc.
Qed.

(** Owner and thread agree after the thread went on, unless it ended. *)
Lemma owner_moved s s' : owner_ok s -> al_owner s' = al_owner s -> al_running s' = al_running s -> al_latch s' = al_latch s ->
  match al_thread s with LNone | LStarted | LDone => False | _ => True end ->
  match al_thread s' with LNone | LStarted | LDone => False | LEnding => al_running s = false | _ => True end -> owner_ok s'.
Proof.
  unfold owner_ok. intros H E1 E2 E3 Ht Ht'. rewrite E1, E2, E3. destruct (al_owner s), (al_thread s); try done;
    destruct (al_thread s'); try done; destruct_and?; split_and?; done || congruence.
Qed.

(** The steps of a running thread until it swaps the buffers the next time. *)
Definition to_swap (s : AsyncLogging) : nat :=
  match al_thread s with
  | LStarted => 5 | LOpening => 4 | LTesting => 3 | LLocking => 2 | LWaiting => 1
  | LWriting i => 4 + (length (al_buffersToWrite s) - i)
  | LNone | LEnding | LDone => 0
  end.

(** A step of the thread swaps the buffers or brings the swap nearer. *)
Definition thread_moves (s s' : AsyncLogging) (w w' p' : list Z) : Prop :=
  log_inv s' w' p' /\ w `prefix_of` w' /\ al_lines s' = al_lines s /\ al_owner s' = al_owner s /\ al_running s' = al_running s /\
  ((al_thread s' = LWriting 0 /\ unswapped s' = [] /\ match al_thread s with LLocking | LWaiting => True | _ => False end) \/
   (unswapped s' = unswapped s /\ (al_running s = true -> (to_swap s' < to_swap s)%nat) /\
    match al_thread s with LLocking => al_thread s' = LWaiting | LWaiting => False | _ => True end)).

Ltac to_swap_lia Ep := intros; unfold to_swap; rewrite Ep; cbn; lia.

(** Writing: a buffer goes to the file, behind the last one the file is flushed. *)
Lemma writing_ok s w p i : log_inv s w p -> al_thread s = LWriting i ->
  exists s' w' p', logThread E s = Some s' /\ thread_moves s s' w w' p' /\
    al_thread s' = (if decide (i < length (al_buffersToWrite s))%nat then LWriting (S i) else LTesting) /\
    (al_thread s' = LWriting (S i) -> al_buffersToWrite s' = al_buffersToWrite s).
Proof using HE.
  intros I Ep. pose proof I as [H1 H2 H3 H4 H5]. unfold logThread. rewrite Ep. unfold writes_ok, file_ok in H2, H3. rewrite Ep in H2, H3.
  destruct H3 as (f & Eo & Hf). rewrite Eo. cbn [mbind option_bind].
  destruct (al_buffersToWrite s !! i) as [b|] eqn:Eb.
  - pose proof (lookup_lt_Some _ _ _ Eb) as Hi. destruct (decide _); [|lia].
    destruct (append_holds E HE d0 b f w p Hf) as (f' & w' & p' & -> & Hf' & Hb & Hp). cbn [mbind option_bind].
    exists (set_pc (LWriting (S i)) (set_output f' s)), w', p'. split; [done|]. split; [|done]. split; [|split_and!; try done; right; rewrite Ep; split_and!; try done; to_swap_lia Ep].
    apply (moved_ok s _ w p); try done.
    + apply (owner_moved s); try done. by rewrite Ep.
    + unfold file_ok. cbn. eauto.
    + unfold toWrite. rewrite Ep. cbn [al_thread al_buffersToWrite set_pc set_output]. rewrite (drop_S _ _ _ Eb). cbn [concat].
      rewrite !app_assoc, Hb. by rewrite !app_assoc.
  - apply lookup_ge_None in Eb. destruct (decide _); [lia|]. destruct (flush_holds E d0 f w p Hf) as (f' & -> & Hf'). cbn [mbind option_bind].
    exists (set_pc LTesting (set_output f' (set_toWrite [] s))), (w ++ p), []. split; [done|]. split; [|done].
    split; [|split_and!; try done; [by apply prefix_app_r|right; rewrite Ep; split_and!; try done; to_swap_lia Ep]].
    apply (moved_ok s _ w p); try done.
    + apply (owner_moved s); try done. by rewrite Ep.
    + unfold file_ok. cbn. eauto.
    + unfold toWrite. rewrite Ep. cbn. rewrite (drop_ge (al_buffersToWrite s) i) by lia. by rewrite !app_nil_r.
Qed.

Lemma swap_moves s w : log_inv s w [] -> al_buffersToWrite s = [] -> match al_thread s with LLocking | LWaiting => True | _ => False end ->
  exists s' w' p', swapBuffers s = Some s' /\ thread_moves s s' w w' p'.
Proof.
  intros I Hw Ht. destruct (swap_ok s w I Hw Ht) as (s' & -> & I' & E1 & E2 & E3 & E4 & E5).
  exists s', w, []. split; [done|]. unfold thread_moves. auto 10.
Qed.

(** A step of the thread always succeeds. *)
Lemma logThread_ok s w p : log_inv s w p -> al_thread s <> LNone -> al_thread s <> LDone ->
  exists s' w' p', logThread E s = Some s' /\ thread_moves s s' w w' p'.
Proof using HE.
  intros I Hn Hd. pose proof I as [H1 H2 H3 H4 H5].
  destruct (al_thread s) as [| | | | | |i| |] eqn:Ep; try done; [| | | | |by destruct (writing_ok s w p i I Ep) as (? & ? & ? & ? & ? & _); eauto|];
    unfold writes_ok, file_ok in H2, H3; rewrite Ep in H2, H3; unfold logThread; rewrite Ep.
  - destruct H3 as (Eo & -> & ->). assert (al_running s = true) as Er.
    { unfold owner_ok in H1. rewrite Ep in H1. destruct (al_owner s); naive_solver. }
    rewrite Er. do 3 eexists. split; [done|]. split; [|split_and!; try done; right; rewrite Ep; split_and!; try done; to_swap_lia Ep].
    apply (moved_ok s _ [] []); try done.
    + unfold owner_ok in *. rewrite Ep in H1. cbn. destruct (al_owner s); naive_solver lia.
    + unfold toWrite. by rewrite Ep.
  - destruct H3 as (Eo & -> & ->). destruct (newLogFile_holds E HE d0) as (f & -> & Hf). do 3 eexists. split; [done|].
    split; [|split_and!; try done; right; rewrite Ep; split_and!; try done; to_swap_lia Ep].
    apply (moved_ok s _ [] []); try done; [by apply (owner_moved s); try done; rewrite Ep|unfold file_ok; cbn; eauto|unfold toWrite; by rewrite Ep].
  - destruct H3 as (-> & f & Eo & Hf). destruct (al_running s) eqn:Er; [rewrite H2|]; (do 3 eexists; split; [done|];
      (split; [|split_and!; try done; right; rewrite Ep; split_and!; try done; rewrite Er; try done; to_swap_lia Ep]);
      (apply (moved_ok s _ w []); try done; [by apply (owner_moved s); try done; rewrite Ep|unfold file_ok; cbn; eauto|unfold toWrite; by rewrite Ep])).
  - destruct H3 as (-> & f & Eo & Hf). destruct (al_buffers s) as [|b l] eqn:Eb; [|apply swap_moves; try done; by rewrite Ep].
    do 3 eexists. split; [done|]. split; [|split_and!; try done; right; rewrite Ep; split_and!; try done; to_swap_lia Ep].
    apply (moved_ok s _ w []); try done; [by apply (owner_moved s); try done; rewrite Ep|unfold file_ok; cbn; eauto|unfold toWrite; by rewrite Ep].
  - destruct H3 as (-> & _). apply swap_moves; try done; by rewrite Ep.
  - destruct H3 as (-> & f & Eo & Hf). rewrite Eo. cbn [mbind option_bind].
    destruct (flush_holds E d0 f w [] Hf) as (f' & -> & Hf'). cbn [mbind option_bind]. rewrite app_nil_r in Hf'.
    destruct (destroy_holds E d0 f' w [] Hf') as (files & H6 & H7 & H8 & H9). rewrite app_nil_r in H9.
    assert (al_running s = false) as Er by (unfold owner_ok in H1; rewrite Ep in H1; destruct (al_owner s); naive_solver).
    do 3 eexists. split; [done|]. split; [|split_and!; try done; right; rewrite Ep, Er; done].
    apply (moved_ok s _ w []); try done.
    + unfold owner_ok in *. rewrite Ep in H1. cbn. destruct (al_owner s); naive_solver.
    + unfold file_ok. cbn. split; [done|]. by exists (destroyLogFile f'), files.
    + unfold toWrite. by rewrite Ep.
Qed.

(** ** Events of other threads *)

(** What is not a step of the thread changes nothing but the lines. *)
Lemma other_ok e s w p : log_inv s w p -> log_may s e -> e <> LogStep ->
  exists s' x, logStep E e s = Some s' /\ log_inv s' w p /\
    kept (al_lines s') = kept (al_lines s) ++ x /\ unswapped s' = unswapped s ++ x /\
    al_buffersToWrite s' = al_buffersToWrite s /\ (e <> LogStart -> al_thread s' = al_thread s).
Proof.
  intros I Hm He. pose proof I as [H1 H2 H3 H4 H5]. destruct e as [msg| | | | |]; try done; cbn [logStep].
  - cbn in Hm. destruct (appendLine_ok msg s ltac:(pose proof (lenZ_nonneg msg); lia) H4) as [Eu _].
    eexists _, _. split; [done|]. split; [by apply line_ok|]. unfold asyncLogOutput in *.
    assert (al_lines (appendLine msg (swrap 32 (lenZ msg)) s) = al_lines s /\ al_buffersToWrite (appendLine msg (swrap 32 (lenZ msg)) s) = al_buffersToWrite s /\
      al_thread (appendLine msg (swrap 32 (lenZ msg)) s) = al_thread s) as (E1 & E2 & E3) by (unfold appendLine; by destruct (_ <? _)).
    cbn [note_line al_lines al_buffersToWrite al_thread]. rewrite kept_snoc, E1, E2, E3. done.
  - cbn in Hm. exists (set_pc LStarted (set_run true OLatch s)), []. rewrite !app_nil_r. split_and!; try done.
    unfold owner_ok, writes_ok, file_ok, toWrite in *. rewrite Hm in H1. destruct H1 as (_ & Et & El). rewrite Et in *.
    split; unfold owner_ok, writes_ok, file_ok, toWrite; cbn; done.
  - destruct Hm as [Ho Hl]. exists (set_run (al_running s) ORunning s), []. rewrite !app_nil_r. split_and!; try done.
    split; try done. unfold owner_ok in *. rewrite Ho in H1. cbn. destruct H1 as [-> H1]. split; [done|]. destruct (al_thread s); (done || lia).
  - cbn in Hm. exists (set_run false OJoining s), []. rewrite !app_nil_r. split_and!; try done.
    split; try done. unfold owner_ok in *. rewrite Hm in H1. cbn. destruct H1 as [_ H1]. by destruct (al_thread s).
  - destruct Hm as [Ho Hl]. exists (set_run (al_running s) OStopped s), []. rewrite !app_nil_r. split_and!; try done.
    split; try done. unfold owner_ok in *. rewrite Ho in H1. cbn. naive_solver.
Qed.

Lemma newAsync_inv : log_inv newAsync [] [].
Proof. split; cbn; try done. by constructor. Qed.

Lemma logStep_ok e s w p : log_inv s w p -> log_may s e -> exists s' w' p', logStep E e s = Some s' /\ log_inv s' w' p' /\ w `prefix_of` w'.
Proof using HE.
  intros I Hm. destruct (decide (e = LogStep)) as [->|He].
  - destruct Hm as [Hn Hd]. destruct (logThread_ok s w p I Hn Hd) as (s' & w' & p' & Es & I' & Hp & _). eauto 10.
  - destruct (other_ok e s w p I Hm He) as (s' & x & Es & I' & _). eauto 10.
Qed.

Lemma log_reachable_inv s : log_reachable E s -> exists w p, log_inv s w p.
Proof using HE.
  intros Hr. pattern s. eapply rtc_ind_r; [|..|exact Hr]; [exists [], []; apply newAsync_inv|].
  intros s1 s2 _ (e & Hm & Es) (w & p & I). destruct (logStep_ok e s1 w p I Hm) as (s' & w' & p' & Es' & I' & _).
  rewrite Es in Es'. injection Es' as <-. eauto.
Qed.

End Inv.
