(* ===== verification/AsyncLogProps.v ===== *)
(** * Logging: what it promises

    No assertion fails, lines reach the log files in order and none is lost while
    the thread runs; in endless executions every line is on the disk in the end;
    what [stop] loses. *)

From stdpp Require Import base list numbers gmap strings sorting.
From Stdlib Require Import ZArith Lia Sorted.
From S2P Require Import Prelude CText DoubleText Buffer Timers Times Logging AsyncLog.
Local Open Scope Z_scope.

Section Props.
Context (E : LogEnv) (HE : log_env_ok E) (d0 : gmap string (list Z)).

Lemma holds_flushed f w p : log_holds E d0 f w p -> exists files, onDisk d0 (lf_log f) = place (lv_basename E) d0 files /\
  StronglySorted Z.lt files.*1 /\ contents files = w.
Proof.
  intros (closed & cur & [H1 H2 H3 H4] & ->). exists (closed ++ [(lf_lastRoll f, cur)]). unfold onDisk. rewrite H4.
  split; [done|]. by rewrite contents_snoc, fmap_app.
Qed.

Lemma inv_flushed s w p : log_inv E d0 s w p -> flushed d0 E s w.
Proof.
  intros [_ _ H _ _]. unfold file_ok, flushed in *.
  assert ((exists f p, al_output s = Some f /\ log_holds E d0 f w p) -> match al_output s with
    | Some f => exists files, onDisk d0 (lf_log f) = place (lv_basename E) d0 files /\ StronglySorted Z.lt files.*1 /\ contents files = w
    | None => w = [] end) as Hf.
  { intros (f & p' & -> & Hf). by eapply holds_flushed. }
  destruct (al_thread s); try (by destruct H as (-> & -> & _)); try (apply Hf; naive_solver).
  destruct H as (_ & f & files & -> & ? & _ & ?). by exists files.
Qed.

(** C28: lines from any threads reach the log files in the order of their critical
    sections: no assertion fails whatever happens in a reachable state, the
    files opened so far, each behind what it held before and in the order of
    the seconds that name them, hold a prefix of the lines, and the rest waits
    in the stream, in the buffers being written and in the buffers nobody
    swapped yet; nothing waits in the stream but while buffers are written, no
    buffer overflows, and only lines that no buffer can hold are dropped. *)
Theorem log_in_order s e : log_reachable E s -> log_may s e ->
  exists s' w p, logStep E e s = Some s' /\ flushed d0 E s' w /\
    w ++ p ++ toWrite s' ++ unswapped s' = kept (al_lines s') /\
    (p = [] \/ exists i, al_thread s' = LWriting i) /\
    Forall (fun b => lenZ b < kLargeBuffer) (al_buffers s' ++ [al_currentBuffer s']).
Proof using HE.
  intros Hr Hm. destruct (log_reachable_inv E HE d0 s Hr) as (w & p & I).
  destruct (logStep_ok E HE d0 e s w p I Hm) as (s' & w' & p' & Es & I' & _).
  exists s', w', p'. split; [done|]. split; [by eapply inv_flushed|]. destruct I' as [_ _ Hf H4 H5]. split; [done|]. split; [|done].
  unfold file_ok in Hf. destruct (al_thread s'); naive_solver.
Qed.

(** ** What [stop] loses *)

(** The bytes [k] were appended and are not among those nobody swapped. *)
Definition handed_over (k : list Z) (s : AsyncLogging) : Prop := exists u, kept (al_lines s) = k ++ u ++ unswapped s.

Definition at_swap (s : AsyncLogging) : Prop := al_thread s = LLocking \/ al_thread s = LWaiting.

(** A step is one of the thread, or leaves the thread where it is, unless it
    starts it. *)
Definition thread_step_at (s s' : AsyncLogging) : Prop := log_may s LogStep /\ logStep E LogStep s = Some s'.

Lemma step_kinds s s' w p : log_inv E d0 s w p -> log_step E s s' ->
  (thread_step_at s s' /\ exists w' p', thread_moves E d0 s s' w w' p') \/
  (log_inv E d0 s' w p /\ al_buffersToWrite s' = al_buffersToWrite s /\ (al_thread s <> LNone -> al_thread s' = al_thread s) /\
   exists x, kept (al_lines s') = kept (al_lines s) ++ x /\ unswapped s' = unswapped s ++ x).
Proof using HE.
  intros I (e & Hm & Es). destruct (decide (e = LogStep)) as [->|He].
  - left. split; [done|]. destruct Hm as [Hn Hd]. destruct (logThread_ok E HE d0 s w p I Hn Hd) as (s1 & w' & p' & Es1 & Ht).
    assert (s1 = s') as -> by (by cbn in Es; rewrite Es in Es1; injection Es1). eauto.
  - right. destruct (other_ok E d0 e s w p I Hm He) as (s1 & x & Es1 & I' & El & Eu & Eb & Ht).
    assert (s1 = s') as -> by (by rewrite Es in Es1; injection Es1). split_and!; eauto. intros Hn. apply Ht. intros ->.
    pose proof (li_owner _ _ _ _ _ I) as Ho. unfold owner_ok in Ho. rewrite Hm in Ho. by destruct Ho as (_ & ? & _).
Qed.

Lemma step_inv' s s' w p : log_inv E d0 s w p -> log_step E s s' -> exists w' p', log_inv E d0 s' w' p' /\ w `prefix_of` w'.
Proof using HE.
  intros I Hs. destruct (step_kinds s s' w p I Hs) as [(_ & w' & p' & I' & ? & _)|(I' & _)]; eauto.
Qed.

(** From a thread that is about to swap on, everything there was gets handed over. *)
Lemma handed_over_step k s s' w p : log_inv E d0 s w p -> log_step E s s' ->
  k `prefix_of` kept (al_lines s) -> at_swap s \/ handed_over k s ->
  k `prefix_of` kept (al_lines s') /\ (at_swap s' \/ handed_over k s').
Proof using HE.
  intros I Hs Hk H. destruct (step_kinds s s' w p I Hs) as [(_ & w' & p' & _ & _ & El & _ & _ & Ht)|(_ & _ & Ht & x & El & Eu)].
  - rewrite El. split; [done|]. destruct Ht as [(_ & Eu & _)|(Eu & _ & Ht)].
    + right. destruct Hk as [u Ek]. exists u. by rewrite El, Eu, app_nil_r.
    + destruct H as [[Hs'|Hs']|[u Hu]].
      * rewrite Hs' in Ht. left. by right.
      * by rewrite Hs' in Ht.
      * right. exists u. by rewrite El, Eu.
  - rewrite El. split; [by apply prefix_app_r|]. destruct H as [H|[u Hu]].
    + left. unfold at_swap. rewrite Ht; [done|]. by destruct H as [-> | ->].
    + right. exists u. rewrite El, Eu, Hu. by rewrite <- !app_assoc.
Qed.

Lemma handed_over_steps k s s' w p : log_inv E d0 s w p -> rtc (log_step E) s s' ->
  k `prefix_of` kept (al_lines s) -> at_swap s \/ handed_over k s -> at_swap s' \/ handed_over k s'.
Proof using HE.
  intros I Hr. revert w p I. induction Hr as [s|s s1 s' Hst Hr IH]; intros w p I Hk H; [done|].
  destruct (handed_over_step k s s1 w p I Hst Hk H) as [Hk1 H1].
  destruct (step_inv' s s1 w p I Hst) as (w' & p' & I' & _). by apply (IH w' p').
Qed.

Lemma run_step e s s' : log_may s e -> logStep E e s = Some s' -> log_reachable E s -> log_reachable E s'.
Proof. intros Hm Es Hr. eapply rtc_r; [exact Hr|]. by exists e. Qed.

(** A line appended before the thread's first test is lost when [stop] comes
    before that test, too. *)
Lemma line_lost msg : lenZ msg < 2 ^ 31 ->
  exists s, log_reachable E s /\ al_owner s = OStopped /\ al_lines s = [msg] /\ flushed d0 E s [].
Proof using HE.
  intros Hl. destruct (newLogFile_holds E HE d0) as (f & Ef & Hf). destruct (flush_holds E d0 f [] [] Hf) as (f' & Ef' & _).
  set (s1 := asyncLogOutput msg (mkAsync true 0 [] [] None [] LOpening ORunning [])).
  assert (al_output s1 = None /\ al_buffersToWrite s1 = [] /\ al_thread s1 = LOpening /\ al_lines s1 = [msg] /\ al_owner s1 = ORunning) as (E1 & E2 & E3 & E4 & E5)
    by (subst s1; unfold asyncLogOutput, appendLine; cbn -[avail]; by destruct (_ <? _)).
  assert (log_reachable E s1) as H1.
  { apply (run_step (LogLine msg) (mkAsync true 0 [] [] None [] LOpening ORunning [])); [done|done|].
    apply (run_step LogStarted (mkAsync true 0 [] [] None [] LOpening OLatch [])); [done|done|].
    apply (run_step LogStep (mkAsync true 1 [] [] None [] LStarted OLatch [])); [done|done|].
    apply (run_step LogStart newAsync); [done|done|]. apply rtc_refl. }
  clearbody s1. pose (s2 := set_run false OJoining s1). pose (s3 := set_pc LTesting (set_output f s2)). pose (s4 := set_pc LEnding s3).
  pose (s5 := set_pc LDone (set_output (destroyLogFile f') s4)). pose (s6 := set_run (al_running s5) OStopped s5).
  assert (log_reachable E s6) as H6.
  { apply (run_step LogJoined s5); [done|done|]. apply (run_step LogStep s4); [done|by cbn; rewrite Ef'|].
    apply (run_step LogStep s3); [done|done|]. apply (run_step LogStep s2); [by cbn; rewrite E3|by unfold logStep, logThread; cbn; rewrite E3, Ef|].
    by apply (run_step LogStop s1). }
  exists s6. split; [done|]. split; [done|]. split; [done|].
  destruct (log_reachable_inv E HE d0 s6 H6) as (w & p & I). pose proof (inv_flushed s6 w p I) as Hw.
  assert (unswapped s6 = kept (al_lines s6)) as Eu.
  { destruct (log_reachable_inv E HE d0 s1 H1) as (w1 & p1 & [_ _ H3 _ H5]). unfold file_ok, toWrite in *. rewrite E3 in H3, H5.
    destruct H3 as (_ & -> & ->). exact H5. }
  pose proof (li_lines _ _ _ _ _ I) as Hs. rewrite <- Eu in Hs. apply (f_equal length) in Hs. rewrite !length_app in Hs.
  by destruct w; [|cbn in Hs; lia].
Qed.

(** C30: [stop] loses what nobody swapped: when it returns, the log files are
    closed and hold the lines but for those in the buffers; among these is no
    line that was appended before the thread was about to swap the buffers once
    more; but a line can be lost though it was appended before [stop] was
    called, all of them when the thread had not come to its loop yet. *)
Theorem log_stop s : log_reachable E s -> al_owner s = OStopped ->
  (exists w, flushed d0 E s w /\ w ++ unswapped s = kept (al_lines s) /\
    (forall f, al_output s = Some f -> sd_buffered (stdio d0 (lf_log f)) = ∅) /\
    forall s0, log_reachable E s0 -> rtc (log_step E) s0 s -> at_swap s0 -> kept (al_lines s0) `prefix_of` w) /\
  forall msg, lenZ msg < 2 ^ 31 -> exists s, log_reachable E s /\ al_owner s = OStopped /\ al_lines s = [msg] /\ flushed d0 E s [].
Proof using HE.
  intros Hr Ho. split; [|exact line_lost]. destruct (log_reachable_inv E HE d0 s Hr) as (w & p & I).
  pose proof I as [Hown _ Hf _ Hl]. unfold owner_ok in Hown. rewrite Ho in Hown. destruct Hown as [_ Ht].
  exists w. split; [by eapply inv_flushed|]. unfold file_ok, toWrite in Hf, Hl. rewrite Ht in Hf, Hl. destruct Hf as (-> & f & files & Ef & _ & Hb & _).
  cbn in Hl. split; [done|]. split; [intros f'; rewrite Ef; by intros [= <-]|]. intros s0 Hr0 Hst Hs0.
  destruct (log_reachable_inv E HE d0 s0 Hr0) as (w0 & p0 & I0).
  destruct (handed_over_steps _ s0 s w0 p0 I0 Hst ltac:(reflexivity) (or_introl Hs0)) as [[?|?]|[u Hu]]; [congruence..|].
  rewrite <- Hl, app_assoc in Hu. apply app_inv_tail in Hu as ->. by apply prefix_app_r.
Qed.

(** ** Endless executions *)

Section Live.
Context (run : nat -> AsyncLogging).
Context (Hstart : log_reachable E (run 0)) (Hstep : forall k, log_step E (run k) (run (S k)))
  (Hfair : forall k, exists j, (k <= j)%nat /\ thread_step_at (run j) (run (S j)))
  (Hgo : forall k, al_owner (run k) <> OJoining /\ al_owner (run k) <> OStopped).

Lemma run_inv k : exists w p, log_inv E d0 (run k) w p.
Proof using All.
  apply log_reachable_inv; [done|]. induction k as [|k IH]; [done|]. by eapply rtc_r.
Qed.

Lemma run_lines j k : (j <= k)%nat -> kept (al_lines (run j)) `prefix_of` kept (al_lines (run k)).
Proof using All.
  induction 1 as [|k _ IH]; [done|]. etransitivity; [exact IH|]. destruct (run_inv k) as (w & p & I).
  destruct (step_kinds _ _ w p I (Hstep k)) as [(_ & w' & p' & _ & _ & -> & _)|(_ & _ & _ & x & -> & _)]; [done|by apply prefix_app_r].
Qed.

(** A started thread runs: nobody stops it. *)
Lemma run_runs k : al_thread (run k) <> LNone ->
  al_running (run k) = true /\ al_owner (run k) <> OBefore /\ al_thread (run k) <> LDone.
Proof using All.
  intros Hn. destruct (run_inv k) as (w & p & I). pose proof (li_owner _ _ _ _ _ I) as Ho. destruct (Hgo k) as [H1 H2].
  unfold owner_ok in Ho. destruct (al_owner (run k)) eqn:Eo; try done; destruct_and?; [done| |]; by destruct (al_thread (run k)).
Qed.

(** What the other threads do not change holds at the thread's next step. *)
Lemma next_step (P : AsyncLogging -> Prop) k :
  (forall s s' x, al_thread s <> LNone -> al_thread s' = al_thread s -> al_buffersToWrite s' = al_buffersToWrite s ->
     kept (al_lines s') = kept (al_lines s) ++ x -> unswapped s' = unswapped s ++ x -> P s -> P s') ->
  al_thread (run k) <> LNone -> P (run k) ->
  exists j, (k <= j)%nat /\ al_thread (run j) <> LNone /\ P (run j) /\ thread_step_at (run j) (run (S j)).
Proof using All.
  intros HP Hn Hk. destruct (Hfair k) as (j & Hle & Hj). apply Nat.le_exists_sub in Hle as (n & -> & _). revert k Hn Hk Hj.
  induction n as [|n IH]; intros k Hn Hk Hj; [by exists k|]. destruct (run_inv k) as (w & p & I).
  destruct (step_kinds _ _ w p I (Hstep k)) as [(Hm & _)|(_ & Eb & Et & x & El & Eu)]; [by exists k|].
  destruct (IH (S k)) as (j & ? & ? & ? & ?).
  - by rewrite Et.
  - by eapply HP; eauto.
  - by replace (n + S k)%nat with (S n + k)%nat by lia.
  - exists j. split; [lia|done].
Qed.

Lemma to_swap_same s s' : al_thread s' = al_thread s -> al_buffersToWrite s' = al_buffersToWrite s -> to_swap s' = to_swap s.
Proof. intros E1 E2. unfold to_swap. by rewrite E1, E2. Qed.

(** Sooner or later the thread swaps the buffers. *)
Lemma run_swaps n : forall k, al_thread (run k) <> LNone -> (to_swap (run k) <= n)%nat ->
  exists j, (k <= j)%nat /\ al_thread (run j) = LWriting 0 /\ unswapped (run j) = [].
Proof using All.
  induction n as [|n IH]; intros k Hn Hd; (destruct (next_step (fun s => to_swap s <= to_swap (run k))%nat k) as (j & Hkj & Hnj & Hdj & Hm);
    [intros s s' x _ E1 E2 _ _; by rewrite (to_swap_same s s')|done|done|]);
    destruct (run_inv j) as (w & p & I); destruct (run_runs j Hnj) as (Hr & Ho & Hl);
    destruct (logThread_ok E HE d0 (run j) w p I Hnj Hl) as (s' & w' & p' & Es & I' & _ & _ & Eo & _ & Hs);
    (assert (s' = run (S j)) as -> by (destruct Hm as [_ Hm]; cbn in Hm; congruence));
    destruct Hs as [(Et & Eu & _)|(_ & Hs & _)]; try (exists (S j); split; [lia|done]); specialize (Hs Hr); [lia|].
  destruct (IH (S j)) as (j' & Hj' & ?); [|lia|exists j'; split; [lia|done]].
  intros Ht. pose proof (li_owner _ _ _ _ _ I') as Ho'. unfold owner_ok in Ho'. destruct (Hgo (S j)) as [Hg1 Hg2]. rewrite Ht in Ho'.
  destruct (al_owner (run (S j))); try done; by destruct Ho'.
Qed.

(** Behind the writing nothing waits in the stream. *)
Lemma testing_flushed s w p K : log_inv E d0 s w p -> al_thread s = LTesting -> kept (al_lines s) = K ++ unswapped s -> flushed d0 E s K.
Proof.
  intros I Et Hk. assert (w = K) as <-; [|by eapply inv_flushed]. destruct I as [_ _ Hf _ Hl].
  unfold file_ok, toWrite in Hf, Hl. rewrite Et in Hf, Hl. destruct Hf as [-> _]. rewrite Hk in Hl. by apply app_inv_tail in Hl.
Qed.

(** Sooner or later what was swapped is on the disk. *)
Lemma run_writes n : forall k i K, al_thread (run k) = LWriting i -> (length (al_buffersToWrite (run k)) - i <= n)%nat ->
  kept (al_lines (run k)) = K ++ unswapped (run k) -> exists j, (k <= j)%nat /\ flushed d0 E (run j) K.
Proof using All.
  induction n as [|n IH]; intros k i K Ht Hd Hk;
    (destruct (next_step (fun s => al_thread s = LWriting i /\ al_buffersToWrite s = al_buffersToWrite (run k) /\ kept (al_lines s) = K ++ unswapped s) k)
      as (j & Hkj & Hnj & (Htj & Ebj & Hj) & Hm);
    [intros s s' x _ E1 E2 E3 E4 (H1 & H2 & H3); rewrite E1, E2, E3, E4, H3; by rewrite <- app_assoc|by rewrite Ht|done|]);
    destruct (run_inv j) as (w & p & I);
    destruct (writing_ok E HE d0 (run j) w p i I Htj) as (s' & w' & p' & Es & (I' & _ & El & _ & _ & Hs) & Et & Eb);
    (assert (s' = run (S j)) as -> by (destruct Hm as [_ Hm]; cbn in Hm; congruence));
    (destruct Hs as [(_ & _ & Hx)|(Eu & _)]; [by rewrite Htj in Hx|]);
    rewrite Ebj in Et; (destruct (decide (i < length (al_buffersToWrite (run k)))%nat) as [Hi|Hi]; [lia || idtac|]).
  - exists (S j). split; [lia|]. eapply testing_flushed; [exact I'|done|by rewrite El, Hj, Eu].
  - destruct (IH (S j) (S i) K) as (j' & Hj' & ?); [done|rewrite Eb, Ebj by done; lia|by rewrite El, Hj, Eu|]. exists j'. split; [lia|done].
  - exists (S j). split; [lia|]. eapply testing_flushed; [exact I'|done|by rewrite El, Hj, Eu].
Qed.

(** C29: every line reaches the disk: in an execution without end in which the
    thread always takes another step and nobody calls [stop], whatever was
    appended at some moment is in the log files at a later one. *)
Theorem log_live k : exists j, (k <= j)%nat /\
  exists w, flushed d0 E (run j) w /\ kept (al_lines (run k)) `prefix_of` w.
Proof using All.
  destruct (Hfair k) as (j1 & H1 & [[Hn _] _]).
  destruct (run_swaps (to_swap (run j1)) j1 Hn (le_n _)) as (j2 & H2 & Ht & Eu).
  destruct (run_writes (length (al_buffersToWrite (run j2))) j2 0 (kept (al_lines (run j2))) Ht ltac:(lia)) as (j & H3 & Hf).
  { by rewrite Eu, app_nil_r. }
  exists j. split; [lia|]. exists (kept (al_lines (run j2))). split; [done|]. apply run_lines. lia.
Qed.

End Live.

End Props.

(** ** Executions *)

Definition log_mayb (s : AsyncLogging) (e : LogEvent) : bool :=
  match e with
  | LogLine msg => lenZ msg <? 2 ^ 31
  | LogStep => match al_thread s with LNone | LDone => false | _ => true end
  | LogStart => match al_owner s with OBefore => true | _ => false end
  | LogStarted => match al_owner s with OLatch => al_latch s <=? 0 | _ => false end
  | LogStop => match al_owner s with ORunning => true | _ => false end
  | LogJoined => match al_owner s, al_thread s with OJoining, LDone => true | _, _ => false end
  end.

Lemma log_mayb_ok s e : log_mayb s e = true -> log_may s e.
Proof.
  destruct e; cbn; intros H; bool_to_prop; try done; destruct (al_owner s), (al_thread s); try done; bool_to_prop; done.
Qed.

Fixpoint logRun (E : LogEnv) (es : list LogEvent) (s : AsyncLogging) : option AsyncLogging :=
  match es with
  | [] => Some s
  | e :: es' => if log_mayb s e then s' ← logStep E e s; logRun E es' s' else None
  end.

Lemma logRun_steps E es : forall s s', logRun E es s = Some s' -> rtc (log_step E) s s'.
Proof.
  induction es as [|e es IH]; intros s s' H; [injection H as <-; done|]. cbn [logRun] in H. destruct (log_mayb s e) eqn:Em; [|done].
  destruct (logStep E e s) as [s1|] eqn:Es; [|done]. eapply rtc_l; [exists e; split; [by apply log_mayb_ok|exact Es]|by apply IH].
Qed.

(** The thread alone. *)
Definition thread_alone (E : LogEnv) (s : AsyncLogging) (k : nat) : AsyncLogging :=
  Nat.iter k (fun s => default s (logThread E s)) s.

Lemma thread_alone_ok E s : log_env_ok E -> log_reachable E s -> al_owner s = ORunning -> forall k,
  log_reachable E (thread_alone E s k) /\ al_owner (thread_alone E s k) = ORunning /\
  thread_step_at E (thread_alone E s k) (thread_alone E s (S k)).
Proof.
  intros HE Hr Ho. assert (forall s1, log_reachable E s1 -> al_owner s1 = ORunning ->
    let s2 := default s1 (logThread E s1) in log_reachable E s2 /\ al_owner s2 = ORunning /\ thread_step_at E s1 s2) as Hone.
  { intros s1 Hr1 Ho1. destruct (log_reachable_inv E HE ∅ s1 Hr1) as (w & p & I). pose proof (li_owner _ _ _ _ _ I) as Hown.
    unfold owner_ok in Hown. rewrite Ho1 in Hown. destruct Hown as [_ Ht].
    assert (al_thread s1 <> LNone /\ al_thread s1 <> LDone) as [Hn Hd] by (by destruct (al_thread s1)).
    destruct (logThread_ok E HE ∅ s1 w p I Hn Hd) as (s2 & w2 & p2 & Es & _ & _ & _ & Eo & _). cbn zeta. rewrite Es. cbn.
    split_and!; [|by rewrite Eo|done]. eapply rtc_r; [exact Hr1|]. by exists LogStep. }
  intros k. assert (log_reachable E (thread_alone E s k) /\ al_owner (thread_alone E s k) = ORunning) as [H1 H2].
  { induction k as [|k [IH1 IH2]]; [done|]. destruct (Hone _ IH1 IH2) as (? & ? & _). done. }
  split; [done|]. split; [done|]. by apply Hone.
Qed.

(** ** Witnesses *)

(** A disk that takes three bytes at a time. *)
Definition demo_log : LogEnv :=
  mkLogEnv "log/etherAdapter" (64 * 1024 * 1024) (fun k => 1700000000 + Z.of_nat k mod 100000) (fun _ => true) (fun _ n => Z.min n 3).

Lemma demo_log_ok : log_env_ok demo_log.
Proof.
  split; [|split; [done|]]; cbn; intros k; [pose proof (Z.mod_pos_bound (Z.of_nat k) 100000 ltac:(lia)); lia|intros n Hn; lia].
Qed.

Definition line1 : list Z := [115; 116; 97; 114; 116; 10].
Definition line2 : list Z := [114; 117; 110; 10].

(** The state after some events, which must be possible. *)
Definition after_events (es : list LogEvent) (s : AsyncLogging) : AsyncLogging := default s (logRun demo_log es s).

Lemma after_steps es s : is_Some (logRun demo_log es s) -> rtc (log_step demo_log) s (after_events es s).
Proof. intros [s' E]. unfold after_events. rewrite E. by apply (logRun_steps demo_log es). Qed.

(** The thread waits with two lines in the buffer. *)
Definition waiting_state : AsyncLogging :=
  after_events [LogStart; LogStep; LogStarted; LogLine line1; LogStep; LogStep; LogStep; LogLine line2] newAsync.

Lemma waiting_reachable : log_reachable demo_log waiting_state.
Proof. apply after_steps. vm_compute. by eexists. Qed.

Lemma log_in_order_witness : exists s' w p, logStep demo_log LogStep waiting_state = Some s' /\
  flushed ∅ demo_log s' w /\ w ++ p ++ toWrite s' ++ unswapped s' = line1 ++ line2.
Proof.
  destruct (log_in_order demo_log demo_log_ok ∅ waiting_state LogStep waiting_reachable ltac:(split; vm_compute; done))
    as (s' & w & p & Es & Hw & Hl & _).
  exists s', w, p. split; [exact Es|]. split; [exact Hw|]. rewrite Hl.
  assert (al_lines <$> logStep demo_log LogStep waiting_state = Some [line1; line2]) as El by (vm_compute; reflexivity).
  rewrite Es in El. injection El as ->. reflexivity.
Defined.

(** It is stopped, and another line comes while it writes. *)
Definition stopped_state : AsyncLogging :=
  after_events [LogStop; LogStep; LogStep; LogLine line1; LogStep; LogStep; LogStep; LogJoined] waiting_state.

Lemma stopped_steps : rtc (log_step demo_log) waiting_state stopped_state.
Proof. apply after_steps. vm_compute. by eexists. Qed.

Lemma stopped_reachable : log_reachable demo_log stopped_state.
Proof. unfold log_reachable. etransitivity; [exact waiting_reachable|exact stopped_steps]. Qed.

Lemma log_stop_witness : exists w, flushed ∅ demo_log stopped_state w /\ line1 ++ line2 `prefix_of` w /\
  w ++ line1 = line1 ++ line2 ++ line1.
Proof.
  destruct (log_stop demo_log demo_log_ok ∅ stopped_state stopped_reachable ltac:(vm_compute; done))
    as [(w & Hw & Hl & _ & Hp) _].
  exists w. split; [exact Hw|]. split; [apply (Hp waiting_state waiting_reachable stopped_steps); right; vm_compute; reflexivity|].
  exact Hl.
Defined.

(** The thread alone with a line. *)
Definition running_state : AsyncLogging := after_events [LogStart; LogStep; LogStarted; LogLine line1] newAsync.

Lemma running_reachable : log_reachable demo_log running_state.
Proof. apply after_steps. vm_compute. by eexists. Qed.

Lemma running_alone k : log_reachable demo_log (thread_alone demo_log running_state k) /\
  al_owner (thread_alone demo_log running_state k) = ORunning /\
  thread_step_at demo_log (thread_alone demo_log running_state k) (thread_alone demo_log running_state (S k)).
Proof. apply thread_alone_ok; [exact demo_log_ok|exact running_reachable|by vm_compute]. Qed.

Lemma log_live_witness : exists j w, flushed ∅ demo_log (thread_alone demo_log running_state j) w /\ line1 `prefix_of` w.
Proof.
  destruct (log_live demo_log demo_log_ok ∅ (thread_alone demo_log running_state) (proj1 (running_alone 0))
    (fun k => ex_intro _ LogStep (proj2 (proj2 (running_alone k))))
    (fun k => ex_intro _ k (conj (le_n k) (proj2 (proj2 (running_alone k)))))
    (fun k => ltac:(rewrite (proj1 (proj2 (running_alone k))); split; discriminate)) 0%nat) as (j & _ & w & Hw & Hp).
  exists j, w. split; [exact Hw|exact Hp].
Defined.
