(* ===== verification/Lifecycle.v ===== *)
(** * Contexts and destructors

    What is left of loops and connections: the tables of user contexts that both
    carry, as [HttpServer::doMessage] uses them, and their destructors. *)

From stdpp Require Import base list numbers gmap strings.
From Stdlib Require Import ZArith Lia.
From S2P Require Import Prelude Buffer CText HttpModel HttpServerParser.
From S2P Require Tcp TcpInv TcpProps Loop LoopInv.
Local Open Scope Z_scope.

(** ** Contexts *)

(** [std::map<std::string, Any>]; an empty [Any] is [None]. *)
Notation Contexts A := (gmap string (option A)).

Section Contexts.
Context {A : Type}.

(** [setContext]; [getContext] puts an empty value where there is none. *)
Definition setContext (key : string) (value : option A) (m : Contexts A) : Contexts A := <[key := value]> m.
Definition getContext (key : string) (m : Contexts A) : option A * Contexts A :=
  match m !! key with
  | Some v => (v, m)
  | None => (None, <[key := None]> m)
  end.

(** The value a key stands for. *)
Definition context (key : string) (m : Contexts A) : option A := mjoin (m !! key).

Lemma getContext_spec key m : fst (getContext key m) = context key m /\
  forall key', context key' (snd (getContext key m)) = context key' m.
Proof.
  unfold getContext, context. destruct (m !! key) as [v|] eqn:E; [done|]. split; [done|]. intros key'. cbn.
  destruct (decide (key' = key)) as [->|Hn]; [by rewrite lookup_insert_eq, E|by rewrite lookup_insert_ne].
Qed.

Lemma context_set key value m : context key (setContext key value m) = value /\
  forall key', key' <> key -> context key' (setContext key value m) = context key' m.
Proof.
  unfold context, setContext. rewrite lookup_insert_eq. split; [done|]. intros key' Hn. by rewrite lookup_insert_ne.
Qed.
End Contexts.

(** [HttpServer::doMessage] on the contexts of its connection: the parser is
    shared, so the table holds it as the call left it. *)
Definition doMessageOn (m : Contexts (http_parser * HttpParser)) (buf : Buffer)
    : option (MessageAction * Contexts (http_parser * HttpParser) * Buffer) :=
  let '(v, m) := getContext "parse" m in
  let '(o, m) := match v with
                 | None => (newParser, setContext "parse" (Some newParser) m)
                 | Some o => (o, snd (getContext "parse" m))
                 end in
  '(status, o, buf) ← parser o buf;
  let m := setContext "parse" (Some o) m in
  Some match status with
       | PARSERING => (WaitMore, m, buf)
       | PARSERERROR => (ForceClose, m, buf)
       | PARSERED => (HandleRequest (snd o), setContext "parse" None m, buf)
       end.

(** On the table [doMessageOn] is [doMessage] on the value of its key, and leaves
    the other keys alone. *)
Lemma doMessageOn_ok m buf :
  match doMessageOn m buf, doMessage (context "parse" m) buf with
  | Some (a, m', buf'), Some (a', v, buf'') => a = a' /\ buf' = buf'' /\ context "parse" m' = v /\
      forall key, key <> "parse"%string -> context key m' = context key m
  | None, None => True
  | _, _ => False
  end.
Proof.
  unfold doMessageOn, doMessage. pose proof (getContext_spec "parse" m) as [Ev Em]. destruct (getContext "parse" m) as [v m1].
  cbn [fst snd] in *. rewrite <- Ev.
  assert (exists m2, match v with None => (newParser, setContext "parse" (Some newParser) m1) | Some o => (o, snd (getContext "parse" m1)) end =
    (default newParser v, m2) /\ forall key, key <> "parse"%string -> context key m2 = context key m) as (m2 & -> & H2).
  { destruct v as [o|]; (eexists; split; [done|]); intros key Hk; rewrite <- Em.
    - apply getContext_spec.
    - by apply context_set. }
  destruct (parser (default newParser v) buf) as [[[status o] buf']|]; [|done]. cbn [mbind option_bind].
  destruct status; (split; [done|]); (split; [done|]); (split; [apply context_set|]); intros key Hk;
    rewrite ?(proj2 (context_set _ _ _)) by done; by apply H2.
Qed.

(** ** Loops *)

(** [EventLoop::hasChannel] *)
Definition hasChannel (fd : Z) (s : Loop.EventLoop) : bool := Tcp.pl_known (snd (Loop.channelOf fd (Loop.el_poller s))).

(** [EPollPoller::~EPollPoller], which takes the wakeup channel out, and the
    assertions of that channel's own destructor. *)
Definition destroyPoller (E : Loop.LoopEnv) (s : Loop.EventLoop) : option Loop.EventLoop :=
  if Loop.ep_registerWk (Loop.el_poller s) then
    p ← Loop.updateChannel (Loop.le_wakeupFd E) Tcp.kNoneEvent (Loop.el_poller s);
    s ← Loop.removeChannel (Loop.le_wakeupFd E) (Loop.set_poller p s);
    let '(ch, e) := Loop.channelOf (Loop.le_wakeupFd E) (Loop.el_poller s) in
    if Tcp.ch_added ch || Tcp.pl_known e then None else Some s
  else Some s.

(** A loop that is not running can be destroyed: no assertion fails and the other
    channels stay as they were. *)
Lemma loop_destroyed E s : LoopInv.loop_env_ok E -> LoopInv.reachable E s -> LoopInv.short s -> Loop.el_pc s = Loop.Idle ->
  exists s', destroyPoller E s = Some s' /\ hasChannel (Loop.le_wakeupFd E) s' = false /\
    forall fd, fd <> Loop.le_wakeupFd E -> hasChannel fd s' = hasChannel fd s.
Proof.
  intros HE Hr Hs Hp. destruct (LoopInv.loop_reachable_inv E HE s Hr Hs) as [I _].
  pose proof (LoopInv.lo_wakeup _ _ I) as Hw. destruct (LoopInv.lo_flags _ _ I) as (_ & Hh & _). rewrite Hp in Hh. cbn in Hh.
  unfold destroyPoller, hasChannel. destruct (Loop.ep_registerWk (Loop.el_poller s)) eqn:Er.
  2: { exists s. split; [done|]. unfold Loop.channelOf. by rewrite Hw. }
  assert (Loop.channelOf (Loop.le_wakeupFd E) (Loop.el_poller s) = LoopInv.wakeupChannel) as Ew by (unfold Loop.channelOf; by rewrite Hw).
  unfold Loop.updateChannel. rewrite Ew. cbn -[Loop.removeChannel Loop.channelOf].
  unfold Loop.removeChannel. cbn [Loop.set_poller Loop.el_poller Loop.el_eventHandling]. rewrite LoopInv.channelOf_set, decide_True by done.
  rewrite Hh. cbn -[Loop.channelOf]. rewrite LoopInv.channelOf_set, decide_True by done. cbn -[Loop.channelOf].
  eexists. split; [done|]. cbn -[Loop.channelOf]. rewrite !LoopInv.channelOf_set, decide_True by done. split; [done|].
  intros fd Hn. by rewrite !LoopInv.channelOf_set, !decide_False by done.
Qed.

(** ** Connections *)

(** [TcpConnection::forceCloseWithDelay], whose body is a comment; and
    [defaultMessageCallback]. *)
Definition forceCloseWithDelay (seconds : Z) (c : Tcp.TcpConnection) : Tcp.TcpConnection := c.
Definition defaultMessageCallback (c : Tcp.TcpConnection) : Tcp.TcpConnection :=
  Tcp.set_input (retrieveAll (Tcp.tc_inputBuffer c)) c.

(** When the last reference to a connection goes, with neither its server nor a
    functor left to hold it, its destructor succeeds, and the poller has
    forgotten it. *)
Lemma connection_destroyed E inLoop c : TcpInv.env_ok E -> TcpInv.reachable E inLoop c ->
  Tcp.tc_inServer c = false -> Tcp.tc_pending c = [] -> Tcp.destroyConnection c = Some tt /\ Tcp.pl_known (Tcp.tc_poll c) = false.
Proof.
  intros HE Hr Hs Hp. destruct (TcpInv.ci_good _ _ (TcpInv.reachable_inv E inLoop c HE Hr)) as [_ Ho].
  unfold TcpInv.owned in Ho. rewrite Hp, Hs in Ho. unfold Tcp.destroyConnection. case_decide as Hd; [|by destruct Ho].
  rewrite Hd. split; [done|]. destruct Ho as [_ Ho]. by destruct (Tcp.pl_known (Tcp.tc_poll c)).
Qed.
