(* ===== verification/Sha256.v ===== *)
(** * SHA-256

    [src/src/base/Sha256.h]: the hash fed piece by piece, against the standard's
    definition on the whole message (FIPS 180-4). *)

From stdpp Require Import base list numbers strings.
From Stdlib Require Import ZArith Lia Ascii.
From S2P Require Import Prelude CText.
Local Open Scope Z_scope.

(** ** The functions of the standard, on 32-bit words *)

Definition rotr (x n : Z) : Z := u32 (Z.lor (Z.shiftr x n) (u32 (Z.shiftl x (32 - n)))).
Definition not32 (x : Z) : Z := Z.lxor x (2 ^ 32 - 1).
Definition Ch (x y z : Z) : Z := Z.lxor (Z.land x y) (Z.land (not32 x) z).
Definition Maj (x y z : Z) : Z := Z.lxor (Z.lxor (Z.land x y) (Z.land x z)) (Z.land y z).
Definition ep0 (x : Z) : Z := Z.lxor (Z.lxor (rotr x 2) (rotr x 13)) (rotr x 22).
Definition ep1 (x : Z) : Z := Z.lxor (Z.lxor (rotr x 6) (rotr x 11)) (rotr x 25).
Definition sig0 (x : Z) : Z := Z.lxor (Z.lxor (rotr x 7) (rotr x 18)) (Z.shiftr x 3).
Definition sig1 (x : Z) : Z := Z.lxor (Z.lxor (rotr x 17) (rotr x 19)) (Z.shiftr x 10).

(** The table of constants, by the source's rows of four words each. *)
Definition rowWords (row : Z) : list Z := (fun i => u32 (Z.shiftr row (32 * i))) <$> [3; 2; 1; 0].
Definition K : list Z := Eval vm_compute in concat (rowWords <$> [
  0x428a2f98_71374491_b5c0fbcf_e9b5dba5;
  0x3956c25b_59f111f1_923f82a4_ab1c5ed5;
  0xd807aa98_12835b01_243185be_550c7dc3;
  0x72be5d74_80deb1fe_9bdc06a7_c19bf174;
  0xe49b69c1_efbe4786_0fc19dc6_240ca1cc;
  0x2de92c6f_4a7484aa_5cb0a9dc_76f988da;
  0x983e5152_a831c66d_b00327c8_bf597fc7;
  0xc6e00bf3_d5a79147_06ca6351_14292967;
  0x27b70a85_2e1b2138_4d2c6dfc_53380d13;
  0x650a7354_766a0abb_81c2c92e_92722c85;
  0xa2bfe8a1_a81a664b_c24b8bb3_c76c51a3;
  0xd192e819_d6990624_f40e3585_106aa070;
  0x19a4c116_1e376c08_2748774c_34b0bcb5;
  0x391c0cb3_4ed8aa4a_5b9cca4f_682e6ff3;
  0x748f82ee_78a5636f_84c87814_8cc70208;
  0x90befffa_a4506ceb_bef9a3f7_c67178f2]).

Definition H0 : list Z := [0x6a09e667; 0xbb67ae85; 0x3c6ef372; 0xa54ff53a; 0x510e527f; 0x9b05688c; 0x1f83d9ab; 0x5be0cd19].

(** ** [transform]: [None] is an access outside an array *)

(** [w[i]] for [i < 16], from four bytes. *)
Definition word (data : list Z) (i : nat) : option Z :=
  let i := Z.of_nat i in
  a ← rd data (i * 4); b ← rd data (i * 4 + 1); c ← rd data (i * 4 + 2); d ← rd data (i * 4 + 3);
  Some (Z.lor (Z.lor (Z.lor (Z.shiftl a 24) (Z.shiftl b 16)) (Z.shiftl c 8)) d).

(** [w[i]] for the next [n] numbers [i]. *)
Fixpoint schedule (n : nat) (w : list Z) : option (list Z) :=
  match n with
  | O => Some w
  | S n' =>
      let i := lenZ w in
      a ← rd w (i - 2); b ← rd w (i - 7); c ← rd w (i - 15); d ← rd w (i - 16);
      schedule n' (w ++ [u32 (sig1 a + b + sig0 c + d)])
  end.

Record Regs := mkRegs { r_a : Z; r_b : Z; r_c : Z; r_d : Z; r_e : Z; r_f : Z; r_g : Z; r_h : Z }.

Definition round (k w : Z) (r : Regs) : Regs :=
  let t1 := u32 (r_h r + ep1 (r_e r) + Ch (r_e r) (r_f r) (r_g r) + k + w) in
  let t2 := u32 (ep0 (r_a r) + Maj (r_a r) (r_b r) (r_c r)) in
  mkRegs (u32 (t1 + t2)) (r_a r) (r_b r) (r_c r) (u32 (r_d r + t1)) (r_e r) (r_f r) (r_g r).

(** The loop over [i], [n] turns left, with the table of constants. *)
Fixpoint rounds (table : list Z) (n : nat) (i : Z) (w : list Z) (r : Regs) : option Regs :=
  match n with
  | O => Some r
  | S n' => k ← rd table i; x ← rd w i; rounds table n' (i + 1) w (round k x r)
  end.

Definition compress (table : list Z) (data h : list Z) : option (list Z) :=
  w ← mapM (word data) (seq 0 16);
  w ← schedule 48 w;
  match h with
  | [a; b; c; d; e; f; g; h2] =>
      r ← rounds table 64 0 w (mkRegs a b c d e f g h2);
      Some [u32 (a + r_a r); u32 (b + r_b r); u32 (c + r_c r); u32 (d + r_d r);
            u32 (e + r_e r); u32 (f + r_f r); u32 (g + r_g r); u32 (h2 + r_h r)]
  | _ => None
  end.

Definition transform : list Z -> list Z -> option (list Z) := compress K.

(** ** [class Sha256] *)

Record Sha256 := mkSha { sh_data : list Z; sh_len : Z; sh_totLen : Z; sh_h : list Z }.

(** The constructor: the bytes of [_data] are not initialised. *)
Definition reset (data : list Z) : Sha256 := mkSha data 0 0 H0.

(** [_data[_len++] = b] *)
Definition put (b : Z) (s : Sha256) : option Sha256 :=
  data ← wr (sh_data s) (sh_len s) b; Some (mkSha data (sh_len s + 1) (sh_totLen s) (sh_h s)).

Definition updateByte (b : Z) (s : Sha256) : option Sha256 :=
  s ← put b s;
  if sh_len s =? 64 then h ← transform (sh_data s) (sh_h s); Some (mkSha (sh_data s) 0 (u64 (sh_totLen s + 512)) h)
  else Some s.

Fixpoint update (data : list Z) (s : Sha256) : option Sha256 :=
  match data with [] => Some s | b :: data' => s ← updateByte b s; update data' s end.

(** [while (_len < n) _data[_len++] = 0;], [fuel] turns at most. *)
Fixpoint zeroTo (fuel : nat) (n : Z) (s : Sha256) : option Sha256 :=
  if sh_len s <? n then match fuel with O => None | S fuel' => s ← put 0 s; zeroTo fuel' n s end else Some s.

Fixpoint putAll (data : list Z) (s : Sha256) : option Sha256 :=
  match data with [] => Some s | b :: data' => s ← put b s; putAll data' s end.

(** The bytes of a number, the highest first. *)
Definition bigEndianBytes (n : nat) (v : Z) : list Z :=
  (fun i => Z.land (Z.shiftr v (Z.of_nat i * 8)) 0xff) <$> rev (seq 0 n).

Definition finalize (s : Sha256) : option (list Z) :=
  let totalBits := u64 (sh_totLen s + u32 (sh_len s * 8)) in
  s ← put 0x80 s;
  s ← (if 56 <? sh_len s then
         s ← zeroTo 64 64 s; h ← transform (sh_data s) (sh_h s); Some (mkSha (sh_data s) 0 (sh_totLen s) h)
       else Some s);
  s ← zeroTo 64 56 s;
  s ← putAll (bigEndianBytes 8 totalBits) s;
  h ← transform (sh_data s) (sh_h s);
  Some (concat (bigEndianBytes 4 <$> h)).

(** ** The standard *)

(** A message with its padding: a one bit, zeros, and its length in bits, to a
    multiple of 64 bytes. *)
Definition zeros (len : Z) : Z := (55 - len) mod 64.
Definition padded (msg : list Z) : list Z :=
  msg ++ 0x80 :: replicate (Z.to_nat (zeros (lenZ msg))) 0 ++ bigEndianBytes 8 (8 * lenZ msg).

(** The hash values over the first [n] blocks, and the hash, by a table. *)
Fixpoint hashBlocks (table : list Z) (n : nat) (data h : list Z) : option (list Z) :=
  match n with
  | O => Some h
  | S n' => h ← compress table (takeZ 64 data) h; hashBlocks table n' (dropZ 64 data) h
  end.

Definition sha256 (table : list Z) (msg : list Z) : option (list Z) :=
  h ← hashBlocks table (Z.to_nat (lenZ (padded msg) / 64)) (padded msg) H0; Some (concat (bigEndianBytes 4 <$> h)).

(** The standard's table: the first 32 bits of the fractional parts of the cube
    roots of the first 64 primes. *)
Definition primes : list Z := [
  2; 3; 5; 7; 11; 13; 17; 19; 23; 29; 31; 37; 41; 43; 47; 53; 59; 61; 67; 71; 73; 79; 83; 89; 97; 101; 103; 107; 109; 113; 127; 131;
  137; 139; 149; 151; 157; 163; 167; 173; 179; 181; 191; 193; 197; 199; 211; 223; 227; 229; 233; 239; 241; 251; 257; 263; 269; 271;
  277; 281; 283; 293; 307; 311].

(** The integer cube root of [v], from [bits] bits. *)
Fixpoint cube_root (bits : nat) (r v : Z) : Z :=
  match bits with
  | O => r
  | S n => let r' := r + 2 ^ Z.of_nat n in cube_root n (if r' ^ 3 <=? v then r' else r) v
  end.

Definition K_standard : list Z := (fun p => cube_root 36 0 (p * 2 ^ 96) mod 2 ^ 32) <$> primes.

Example standard_abc : sha256 K_standard [97; 98; 99] =
  Some (bigEndianBytes 32 0xba7816bf8f01cfea414140de5dae2223b00361a396177a9cb410ff61f20015ad).
Proof. vm_compute. reflexivity. Qed.

(** ** No access outside an array *)

Lemma word_ok data i : lenZ data = 64 -> (i < 16)%nat -> is_Some (word data i).
Proof.
  intros Hd Hi. unfold word. destruct (rd_is_Some data (Z.of_nat i * 4) ltac:(lia)) as [a ->].
  destruct (rd_is_Some data (Z.of_nat i * 4 + 1) ltac:(lia)) as [b ->]. destruct (rd_is_Some data (Z.of_nat i * 4 + 2) ltac:(lia)) as [c ->].
  destruct (rd_is_Some data (Z.of_nat i * 4 + 3) ltac:(lia)) as [d ->]. by eexists.
Qed.

Lemma schedule_ok n : forall w, 16 <= lenZ w -> exists w', schedule n w = Some w' /\ lenZ w' = lenZ w + Z.of_nat n.
Proof.
  induction n as [|n IH]; intros w Hw; [exists w; split; [done|lia]|]. cbn [schedule].
  destruct (rd_is_Some w (lenZ w - 2) ltac:(lia)) as [a ->]. destruct (rd_is_Some w (lenZ w - 7) ltac:(lia)) as [b ->].
  destruct (rd_is_Some w (lenZ w - 15) ltac:(lia)) as [c ->]. destruct (rd_is_Some w (lenZ w - 16) ltac:(lia)) as [d ->].
  cbn [mbind option_bind]. destruct (IH (w ++ [u32 (sig1 a + b + sig0 c + d)])) as (w' & -> & E);
    rewrite lenZ_app in *; change (lenZ [_]) with 1 in *; [lia|]. exists w'. split; [done|lia].
Qed.

Lemma rounds_ok table n : forall i w r, 0 <= i -> i + Z.of_nat n <= lenZ table -> i + Z.of_nat n <= lenZ w -> is_Some (rounds table n i w r).
Proof.
  induction n as [|n IH]; intros i w r Hi Ht Hw; [by eexists|]. cbn [rounds].
  destruct (rd_is_Some table i ltac:(lia)) as [k ->]. destruct (rd_is_Some w i ltac:(lia)) as [x ->]. cbn [mbind option_bind]. apply IH; lia.
Qed.

Lemma compress_ok table data h : lenZ table = 64 -> lenZ data = 64 -> length h = 8%nat ->
  exists h', compress table data h = Some h' /\ length h' = 8%nat.
Proof.
  intros Ht Hd Hh. unfold compress.
  assert (is_Some (mapM (word data) (seq 0 16))) as [w Ew].
  { apply mapM_is_Some, Forall_forall. intros i Hi%elem_of_seq. apply word_ok; [done|lia]. }
  assert (lenZ w = 16) as Hw by (apply mapM_Some, Forall2_length in Ew; unfold lenZ; by rewrite <- Ew).
  rewrite Ew. cbn [mbind option_bind]. destruct (schedule_ok 48 w ltac:(lia)) as (w' & -> & Hw'). cbn [mbind option_bind].
  do 8 (destruct h as [|? h]; [done|]). destruct h; [|done].
  match goal with |- context [rounds table 64 0 w' ?r] => destruct (rounds_ok table 64 0 w' r) as [r' ->]; [lia..|] end.
  eexists. split; [done|]. done.
Qed.

(** ** The buffer *)

(** The first bytes of [_data] are [d]. *)
Definition filled (d : list Z) (s : Sha256) : Prop :=
  lenZ (sh_data s) = 64 /\ sh_len s = lenZ d /\ lenZ d <= 64 /\ takeZ (lenZ d) (sh_data s) = d.

Definition same_hash (s s' : Sha256) : Prop := sh_totLen s' = sh_totLen s /\ sh_h s' = sh_h s.

Lemma put_ok b d s : filled d s -> lenZ d < 64 -> exists s', put b s = Some s' /\ filled (d ++ [b]) s' /\ same_hash s s'.
Proof.
  intros (H1 & H2 & H3 & H4) Hd. unfold put. rewrite wr_Some by (pose proof (lenZ_nonneg d); lia). eexists. split; [done|]. split; [|done].
  unfold filled. cbn [sh_data sh_len]. rewrite lenZ_app. change (lenZ [b]) with 1. split_and!; try lia.
  - unfold lenZ in *. by rewrite length_insert.
  - rewrite H2. unfold takeZ in *. pose proof (lenZ_nonneg d). replace (Z.to_nat (lenZ d + 1)) with (S (Z.to_nat (lenZ d))) by lia.
    rewrite (take_S_r _ _ b) by (apply list_lookup_insert_eq; unfold lenZ in *; lia). by rewrite take_insert_ge, H4 by lia.
Qed.

Lemma putAll_ok l : forall d s, filled d s -> lenZ (d ++ l) <= 64 -> exists s', putAll l s = Some s' /\ filled (d ++ l) s' /\ same_hash s s'.
Proof.
  induction l as [|b l IH]; intros d s Hd Hl; [exists s; by rewrite app_nil_r|]. cbn [putAll].
  rewrite lenZ_app, lenZ_cons in Hl. pose proof (lenZ_nonneg l).
  destruct (put_ok b d s Hd ltac:(lia)) as (s1 & -> & H1 & E1). cbn [mbind option_bind].
  destruct (IH (d ++ [b]) s1 H1) as (s' & -> & H' & E'); [rewrite !lenZ_app; change (lenZ [b]) with 1; lia|].
  exists s'. rewrite <- app_assoc in H'. split; [done|]. split; [done|]. unfold same_hash in *. intuition congruence.
Qed.

Lemma zeroTo_ok fuel n : forall d s, filled d s -> lenZ d <= n <= 64 -> n - lenZ d <= Z.of_nat fuel ->
  exists s', zeroTo fuel n s = Some s' /\ filled (d ++ replicate (Z.to_nat (n - lenZ d)) 0) s' /\ same_hash s s'.
Proof.
  induction fuel as [|fuel IH]; intros d s Hd Hn Hf; cbn [zeroTo]; pose proof Hd as (_ & -> & _); destruct (Z.ltb_spec (lenZ d) n); try lia.
  1,3: exists s; replace (n - lenZ d) with 0 by lia; by rewrite app_nil_r.
  destruct (put_ok 0 d s Hd ltac:(lia)) as (s1 & -> & H1 & E1). cbn [mbind option_bind].
  assert (lenZ (d ++ [0]) = lenZ d + 1) as El by (rewrite lenZ_app; done).
  destruct (IH (d ++ [0]) s1 H1 ltac:(lia) ltac:(lia)) as (s' & -> & H' & E'). exists s'. split; [done|]. split.
  - rewrite El, <- app_assoc in H'. replace (Z.to_nat (n - lenZ d)) with (S (Z.to_nat (n - (lenZ d + 1)))) by lia. exact H'.
  - unfold same_hash in *. intuition congruence.
Qed.

Lemma filled_full d s : filled d s -> lenZ d = 64 -> sh_data s = d.
Proof. intros (H1 & _ & _ & H4) Hd. by rewrite takeZ_all in H4 by lia. Qed.

(** ** Blocks *)

Lemma hashBlocks_app table n : forall l rest m h, lenZ l = 64 * Z.of_nat n ->
  hashBlocks table (n + m) (l ++ rest) h = (hashBlocks table n l h ≫= hashBlocks table m rest).
Proof.
  induction n as [|n IH]; intros l rest m h Hl.
  - assert (l = []) as -> by (destruct l; [done|]; rewrite lenZ_cons in Hl; pose proof (lenZ_nonneg l); lia). done.
  - cbn [Nat.add hashBlocks]. rewrite takeZ_app_le, dropZ_app_le by lia. destruct (compress table (takeZ 64 l) h); [|done]. cbn [mbind option_bind].
    apply IH. rewrite lenZ_dropZ. lia.
Qed.

Lemma hashBlocks_one table b h : lenZ b = 64 -> hashBlocks table 1 b h = compress table b h.
Proof. intros Hb. cbn [hashBlocks]. rewrite takeZ_all by lia. by destruct (compress table b h). Qed.

(** After [msg]: whole blocks are hashed, the rest is in the buffer. *)
Definition fed (msg : list Z) (s : Sha256) : Prop := exists n done pend,
  msg = done ++ pend /\ lenZ done = 64 * Z.of_nat n /\ lenZ pend < 64 /\ filled pend s /\
  sh_totLen s = u64 (512 * Z.of_nat n) /\ hashBlocks K n done H0 = Some (sh_h s) /\ length (sh_h s) = 8%nat.

Lemma updateByte_ok b msg s : fed msg s -> exists s', updateByte b s = Some s' /\ fed (msg ++ [b]) s'.
Proof.
  intros (n & done & pend & -> & Hd & Hp & Hf & Ht & Hb & Hh). unfold updateByte.
  destruct (put_ok b pend s Hf Hp) as (s1 & -> & H1 & [E1 E2]). cbn [mbind option_bind]. pose proof H1 as (_ & El & _).
  assert (lenZ (pend ++ [b]) = lenZ pend + 1) as Elen by (rewrite lenZ_app; done). destruct (Z.eqb_spec (sh_len s1) 64) as [E|E].
  - rewrite (filled_full _ _ H1) by lia. destruct (compress_ok K (pend ++ [b]) (sh_h s1)) as (h & Eh & Hh'); [done|lia|by rewrite E2|].
    unfold transform. rewrite Eh. eexists. split; [done|]. exists (S n), (done ++ pend ++ [b]), []. rewrite app_nil_r, <- app_assoc.
    split; [done|]. rewrite lenZ_app. split; [lia|]. split; [done|]. split; [|split; [|split]]; [| |cbn [sh_h]|done].
    + unfold filled. cbn. split_and!; try done. lia.
    + cbn [sh_totLen]. rewrite E1, Ht, uwrap_add_l. f_equal. lia.
    + rewrite <- Nat.add_1_r, hashBlocks_app, Hb by done. cbn [mbind option_bind]. rewrite hashBlocks_one by lia. by rewrite <- E2.
  - exists s1. split; [done|]. exists n, done, (pend ++ [b]). rewrite E1, E2. split; [by rewrite app_assoc|]. split_and!; try done. lia.
Qed.

Lemma update_ok l : forall msg s, fed msg s -> exists s', update l s = Some s' /\ fed (msg ++ l) s'.
Proof.
  induction l as [|b l IH]; intros msg s Hf; [exists s; by rewrite app_nil_r|]. cbn [update].
  destruct (updateByte_ok b msg s Hf) as (s1 & -> & H1). cbn [mbind option_bind].
  destruct (IH _ s1 H1) as (s' & -> & H'). exists s'. by rewrite <- app_assoc in H'.
Qed.

Lemma bigEndianBytes_length n v : lenZ (bigEndianBytes n v) = Z.of_nat n.
Proof. unfold bigEndianBytes, lenZ. by rewrite length_fmap, length_rev, length_seq. Qed.

Lemma lenZ_zeros n : 0 <= n -> lenZ (replicate (Z.to_nat n) 0) = n.
Proof. intros H. unfold lenZ. rewrite length_replicate. lia. Qed.

(** The last block: what the buffer holds, zeros and the length. *)
Lemma lastBlock_ok d v s : filled d s -> lenZ d <= 56 -> length (sh_h s) = 8%nat ->
  (s ← zeroTo 64 56 s; s ← putAll (bigEndianBytes 8 v) s; h ← transform (sh_data s) (sh_h s); Some (concat (bigEndianBytes 4 <$> h))) =
  (h ← hashBlocks K 1 (d ++ replicate (Z.to_nat (56 - lenZ d)) 0 ++ bigEndianBytes 8 v) (sh_h s); Some (concat (bigEndianBytes 4 <$> h))).
Proof.
  intros Hf Hd Hh. destruct (zeroTo_ok 64 56 d s Hf ltac:(lia) ltac:(pose proof (lenZ_nonneg d); lia)) as (s1 & -> & H1 & [_ E1]).
  cbn [mbind option_bind]. assert (lenZ (d ++ replicate (Z.to_nat (56 - lenZ d)) 0) = 56) as El by (rewrite lenZ_app, lenZ_zeros by lia; lia).
  destruct (putAll_ok (bigEndianBytes 8 v) _ s1 H1) as (s2 & -> & H2 & [_ E2]); [rewrite lenZ_app, bigEndianBytes_length; lia|].
  cbn [mbind option_bind]. rewrite <- app_assoc in H2.
  assert (lenZ (d ++ replicate (Z.to_nat (56 - lenZ d)) 0 ++ bigEndianBytes 8 v) = 64) as El2.
  { rewrite app_assoc, lenZ_app, bigEndianBytes_length. lia. }
  rewrite (filled_full _ _ H2) by done. rewrite hashBlocks_one by done. by rewrite E2, E1.
Qed.

Lemma finalize_ok msg s : fed msg s -> 8 * lenZ msg < 2 ^ 64 -> finalize s = sha256 K msg.
Proof.
  intros (n & done & pend & -> & Hd & Hp & Hf & Ht & Hb & Hh) Hlen. pose proof Hf as (_ & El & _). pose proof (lenZ_nonneg pend) as Hp0.
  unfold finalize. assert (u64 (sh_totLen s + u32 (sh_len s * 8)) = 8 * lenZ (done ++ pend)) as ->.
  { rewrite Ht, El, (uwrap_small 32), uwrap_add_l, lenZ_app, Hd by lia. rewrite lenZ_app in Hlen. rewrite uwrap_small; lia. }
  destruct (put_ok 0x80 pend s Hf Hp) as (s1 & -> & H1 & [_ E1]). cbn [mbind option_bind]. pose proof H1 as (_ & El1 & _).
  assert (lenZ (pend ++ [0x80]) = lenZ pend + 1) as Elen by (rewrite lenZ_app; reflexivity).
  unfold sha256. set (L := lenZ pend) in *. set (bits := bigEndianBytes 8 (8 * lenZ (done ++ pend))).
  set (X := (pend ++ [0x80]) ++ replicate (Z.to_nat ((55 - L) mod 64)) 0 ++ bits).
  assert (padded (done ++ pend) = done ++ X) as ->.
  { unfold padded, X, bits, zeros. rewrite lenZ_app, Hd. fold L.
    replace (55 - (64 * Z.of_nat n + L)) with (55 - L + - Z.of_nat n * 64) by lia. rewrite Z.mod_add by lia. by rewrite <- !app_assoc. }
  assert (lenZ X = L + 9 + (55 - L) mod 64) as HX.
  { unfold X, bits. rewrite !lenZ_app, bigEndianBytes_length, lenZ_zeros by (apply Z.mod_pos_bound; lia). change (lenZ [0x80]) with 1. lia. }
  assert (forall m, lenZ X = 64 * Z.of_nat m ->
    hashBlocks K (Z.to_nat (lenZ (done ++ X) / 64)) (done ++ X) H0 = hashBlocks K m X (sh_h s)) as Hblocks.
  { intros m Hm. rewrite lenZ_app, Hd, Hm. replace (64 * Z.of_nat n + 64 * Z.of_nat m) with (Z.of_nat (n + m) * 64) by lia.
    rewrite Z.div_mul, Nat2Z.id, hashBlocks_app, Hb by (lia || done). done. }
  destruct (Z.ltb_spec 56 (sh_len s1)) as [Hl|Hl].
  - assert ((55 - L) mod 64 = 119 - L) as Hz by (symmetry; apply Z.mod_unique with (-1); lia).
    rewrite (Hblocks 2%nat) by lia. destruct (zeroTo_ok 64 64 _ s1 H1) as (s2 & -> & H2 & [_ E2]); [lia..|]. cbn [mbind option_bind].
    rewrite Elen in H2. set (d := (pend ++ [0x80]) ++ replicate (Z.to_nat (64 - (L + 1))) 0) in *.
    assert (lenZ d = 64) as Ed by (unfold d; rewrite lenZ_app, Elen, lenZ_zeros; lia). rewrite (filled_full _ _ H2 Ed), E2, E1.
    assert (X = d ++ replicate (Z.to_nat 56) 0 ++ bits) as EX.
    { unfold X, d. rewrite Hz, <- !app_assoc. do 2 f_equal. rewrite app_assoc, <- replicate_add. do 2 f_equal. lia. }
    rewrite EX. change 2%nat with (1 + 1)%nat. rewrite (hashBlocks_app K 1 d _ 1) by lia. rewrite hashBlocks_one by done.
    unfold transform. destruct (compress_ok K d (sh_h s)) as (h & -> & Hh'); [done|done|done|]. cbn [mbind option_bind].
    apply (lastBlock_ok [] (8 * lenZ (done ++ pend)) (mkSha d 0 (sh_totLen s2) h)); [|done|done].
    by unfold filled.
  - assert ((55 - L) mod 64 = 55 - L) as Hz by (apply Z.mod_small; lia). rewrite (Hblocks 1%nat) by lia.
    etransitivity; [apply (lastBlock_ok _ (8 * lenZ (done ++ pend)) s1 H1); [lia|by rewrite E1]|]. unfold X. rewrite Hz, Elen, E1.
    by replace (56 - (L + 1)) with (55 - L) by lia.
Qed.

(** ** The hash *)

Fixpoint updates (parts : list (list Z)) (s : Sha256) : option Sha256 :=
  match parts with [] => Some s | p :: parts' => s ← update p s; updates parts' s end.

Lemma reset_fed data : lenZ data = 64 -> fed [] (reset data).
Proof. intros Hd. exists 0%nat, [], []. by unfold filled. Qed.

Lemma updates_ok parts : forall msg s, fed msg s -> exists s', updates parts s = Some s' /\ fed (msg ++ concat parts) s'.
Proof.
  induction parts as [|p parts IH]; intros msg s Hf; [exists s; by rewrite app_nil_r|]. cbn [updates concat].
  destruct (update_ok p msg s Hf) as (s1 & -> & H1). cbn [mbind option_bind]. rewrite app_assoc. by apply IH.
Qed.

Lemma hashBlocks_ok table n : forall l h, lenZ table = 64 -> 64 * Z.of_nat n <= lenZ l -> length h = 8%nat ->
  exists h', hashBlocks table n l h = Some h' /\ length h' = 8%nat.
Proof.
  induction n as [|n IH]; intros l h Ht Hl Hh; [by exists h|]. cbn [hashBlocks].
  destruct (compress_ok table (takeZ 64 l) h) as (h1 & -> & H1); [done|rewrite lenZ_takeZ; lia|done|]. cbn [mbind option_bind].
  apply IH; [done|rewrite lenZ_dropZ; lia|done].
Qed.

Lemma update_finalize data msg : lenZ data = 64 -> 8 * lenZ msg < 2 ^ 64 ->
  (s ← update msg (reset data); finalize s) = sha256 K msg.
Proof.
  intros Hd Hl. destruct (update_ok msg [] (reset data) (reset_fed data Hd)) as (s & -> & Hs). by apply finalize_ok.
Qed.

Lemma sha256_length table msg : lenZ table = 64 -> exists d, sha256 table msg = Some d /\ length d = 32%nat.
Proof.
  intros Ht. unfold sha256. pose proof (lenZ_nonneg (padded msg)) as Hn.
  destruct (hashBlocks_ok table (Z.to_nat (lenZ (padded msg) / 64)) (padded msg) H0 Ht) as (h & -> & Hh); [|done|].
  - rewrite Z2Nat.id by (apply Z.div_pos; lia). pose proof (Z.mul_div_le (lenZ (padded msg)) 64 ltac:(lia)). lia.
  - eexists. split; [done|]. do 8 (destruct h as [|? h]; [done|]). by destruct h.
Qed.

(** C31: the hash of a message does not depend on how it is fed: updates with any
    pieces and the end give, whatever the buffer held before, the padded
    message's chained compression, without an access outside an array.  The
    table of constants is the standard's in all places but one, which is why
    the hash is not SHA-256. *)
Theorem sha256_pieces data parts : lenZ data = 64 -> 8 * lenZ (concat parts) < 2 ^ 64 ->
  (s ← updates parts (reset data); finalize s) = sha256 K (concat parts) /\ is_Some (sha256 K (concat parts)) /\
  (forall i, i <> 42%nat -> K !! i = K_standard !! i) /\
  K !! 42%nat = Some 0xc24b8bb3 /\ K_standard !! 42%nat = Some 0xc24b8b70 /\
  sha256 K [97; 98; 99] <> sha256 K_standard [97; 98; 99].
Proof.
  intros Hd Hl. destruct (updates_ok parts [] (reset data) (reset_fed data Hd)) as (s & -> & Hs). cbn [mbind option_bind app] in *.
  split; [by apply finalize_ok|]. split; [destruct (sha256_length K (concat parts)) as (d & -> & _); [done|by eexists]|]. split; [|split_and!; vm_compute; congruence].
  intros i Hi. assert (<[42%nat := 0xc24b8b70]> K = K_standard) as <- by (vm_compute; reflexivity). by rewrite list_lookup_insert_ne.
Qed.

Lemma sha256_pieces_witness :
  (s ← updates [[97]; []; [98; 99]] (reset (replicate 64 0)); finalize s) = sha256 K [97; 98; 99].
Proof. apply (sha256_pieces (replicate 64 0) [[97]; []; [98; 99]]); [reflexivity|reflexivity]. Defined.
