(* ===== verification/Passwords.v ===== *)
(** * Salted passwords

    The hexadecimal text of a hash and the password helpers of
    [src/src/base/Sha256.h]. *)

From stdpp Require Import base list numbers strings.
From Stdlib Require Import ZArith Lia Ascii.
From S2P Require Import Prelude CText Sha256.
Local Open Scope Z_scope.

(** ** Text of a hash *)

Definition hexDigit (n : Z) : ascii := ascii_of_N (Z.to_N (if n <? 10 then 48 + n else 87 + n)).

(** [%02x] of each byte. *)
Definition hexText (bytes : list Z) : string :=
  fold_right (fun b s => String.String (hexDigit (b / 16)) (String.String (hexDigit (b mod 16)) s)) "" bytes.

(** [Sha256::hex]; [data] is what the hash's buffer held before. *)
Definition hex (data : list Z) (input : string) : option string :=
  s ← update (code <$> String.list_ascii_of_string input) (reset data);
  digest ← finalize s; Some (hexText digest).

(** ** Passwords *)

(** [hashPassword]; [saltRaw] is the time combined with an address. *)
Definition hashPassword (data : list Z) (saltRaw : Z) (password : string) : option string :=
  let salt := hexText (bigEndianBytes 8 saltRaw) in
  hash ← hex data (salt +:+ password); Some ("$" +:+ salt +:+ "$" +:+ hash).

(** The loop that compares: the bits in which any two characters differ. *)
Fixpoint differing (a b : string) : Z :=
  match a, b with
  | String.String x a', String.String y b' => Z.lor (Z.lxor (swrap 8 (code x)) (swrap 8 (code y))) (differing a' b')
  | _, _ => 0
  end.

Definition verifyPassword (data : list Z) (password storedHash : string) : option bool :=
  if (String.length storedHash <? 34)%nat || negb (starts_with (Ascii.eqb "$") storedHash) then Some false
  else
    match str_find_from "$" 1 storedHash with
    | None => Some false
    | Some pos2 =>
        let salt := str_take (pos2 - 1) (str_drop 1 storedHash) in
        expectedHash ← hex data (salt +:+ password);
        let actualHash := str_drop (pos2 + 1) storedHash in
        if negb (String.length expectedHash =? String.length actualHash)%nat then Some false
        else Some (differing expectedHash actualHash =? 0)
    end.

(** ** The comparison is equality *)

Lemma code_signed x y : Z.lxor (swrap 8 (code x)) (swrap 8 (code y)) = 0 <-> x = y.
Proof.
  split; [|intros ->; apply Z.lxor_nilpotent]. intros E%Z.lxor_eq.
  assert (code x = code y) as Ec.
  { assert (forall z, 0 <= code z < 256) as Hb by (intros z; unfold code; pose proof (N_ascii_bounded z); lia).
    pose proof (f_equal (uwrap 8) E) as Eu. rewrite !uwrap_swrap in Eu by lia. by rewrite !uwrap_small in Eu by apply Hb. }
  rewrite <- (ascii_N_embedding x), <- (ascii_N_embedding y). f_equal. unfold code in Ec. lia.
Qed.

Lemma differing_eq a : forall b, String.length a = String.length b -> differing a b = 0 <-> a = b.
Proof.
  induction a as [|x a IH]; intros [|y b] Hl; try done. cbn [differing String.length] in *.
  rewrite Z.lor_eq_0_iff, code_signed, IH by lia. split; [by intros [-> ->]|by intros [= -> ->]].
Qed.

(** ** What a stored hash accepts *)

Lemma hexText_length l : String.length (hexText l) = (2 * length l)%nat.
Proof. induction l as [|b l IH]; [done|]. cbn [hexText fold_right String.length length]. unfold hexText in IH. lia. Qed.

Lemma hexText_plain l : Forall (fun b => 0 <= b < 256) l -> str_forall (fun a => negb (Ascii.eqb a "$")) (hexText l) = true.
Proof.
  induction 1 as [|b l Hb _ IH]; [done|]. cbn [hexText fold_right str_forall]. unfold hexText in IH. rewrite IH.
  assert (forall n, 0 <= n < 16 -> Ascii.eqb (hexDigit n) "$" = false) as Hd.
  { intros n Hn. assert (exists k : nat, (k < 16)%nat /\ n = Z.of_nat k) as (k & Hk & ->) by (exists (Z.to_nat n); lia).
    do 16 (destruct k as [|k]; [done|]). lia. }
  rewrite !Hd; [done|pose proof (Z.mod_pos_bound b 16); lia|].
  split; [apply Z.div_pos; lia|apply Z.div_lt_upper_bound; lia].
Qed.

Lemma bigEndianBytes_byte n v : Forall (fun b => 0 <= b < 256) (bigEndianBytes n v).
Proof.
  unfold bigEndianBytes. apply Forall_fmap, Forall_true. intros i. cbn. change 0xff with (Z.ones 8). rewrite Z.land_ones by lia.
  apply Z.mod_pos_bound. lia.
Qed.

Definition bytes_of (s : string) : list Z := code <$> String.list_ascii_of_string s.

Lemma bytes_of_length s : lenZ (bytes_of s) = Z.of_nat (String.length s).
Proof. unfold bytes_of, lenZ. rewrite length_fmap. f_equal. induction s as [|c s IH]; [done|]. cbn. by rewrite IH. Qed.

(** The text of the hash has 64 characters, whatever the buffer held. *)
Lemma hex_ok data input : lenZ data = 64 -> 8 * Z.of_nat (String.length input) < 2 ^ 64 ->
  exists h, hex data input = Some h /\ hexText <$> sha256 K (bytes_of input) = Some h /\ String.length h = 64%nat.
Proof.
  intros Hd Hl. destruct (sha256_length K (bytes_of input) eq_refl) as (d & E & Ed). exists (hexText d).
  rewrite E, hexText_length, Ed. split; [|done]. unfold hex. fold (bytes_of input).
  rewrite <- update_finalize with data _ in E by (rewrite ?bytes_of_length; done).
  destruct (update (bytes_of input) (reset data)) as [s|]; [|done]. cbn [mbind option_bind] in *. by rewrite E.
Qed.

Lemma str_find_split c s n : str_find c s = Some n ->
  s = str_take n s +:+ String.String c (str_drop (S n) s) /\ str_forall (fun a => negb (Ascii.eqb a c)) (str_take n s) = true.
Proof.
  revert n. induction s as [|a s IH]; intros n; cbn [str_find]; [done|].
  destruct (Ascii.eqb a c) eqn:E.
  - intros [= <-]. apply Ascii.eqb_eq in E as ->. done.
  - destruct (str_find c s) as [m|]; [|done]. intros [= <-]. destruct (IH m eq_refl) as [Es Ha].
    cbn [str_take str_forall]. rewrite str_cons_app, E. split; [|done]. f_equal. exact Es.
Qed.

(** A stored hash [$salt$hash] accepts the passwords that hash to it with its
    salt, and no other text accepts any. *)
Lemma verifyPassword_spec data password stored : lenZ data = 64 ->
  8 * (Z.of_nat (String.length stored) + Z.of_nat (String.length password)) < 2 ^ 64 ->
  exists b, verifyPassword data password stored = Some b /\
    (b = true <-> exists salt h, stored = "$" +:+ salt +:+ "$" +:+ h /\
      str_forall (fun a => negb (Ascii.eqb a "$")) salt = true /\ hex data (salt +:+ password) = Some h).
Proof.
  intros Hd Hlen. unfold verifyPassword.
  assert (forall salt h, stored = "$" +:+ salt +:+ "$" +:+ h -> hex data (salt +:+ password) = Some h -> (34 <= String.length stored)%nat) as H34.
  { intros salt h -> Eh. rewrite !str_length_app in *. destruct (hex_ok data (salt +:+ password)) as (h' & Eh' & _ & Hh); [done|rewrite str_length_app; lia|].
    assert (h = h') as -> by congruence. cbn [String.length]. lia. }
  destruct (Nat.ltb_spec (String.length stored) 34) as [Hs|Hs].
  { exists false. split; [done|]. split; [done|]. intros (salt & h & Es & _ & Eh). pose proof (H34 salt h Es Eh). lia. }
  destruct stored as [|c stored]; [cbn in Hs; lia|]. cbn [orb starts_with]. destruct (Ascii.eqb_spec "$" c) as [<-|Hc]; cbn [negb].
  2: { exists false. split; [done|]. split; [done|]. intros (salt & h & E & _). exfalso. apply Hc. by injection E. }
  unfold str_find_from. change (str_drop 1 (String.String "$" stored)) with stored. destruct (str_find "$" stored) as [n|] eqn:En; cbn [option_map].
  2: { exists false. split; [done|]. split; [done|]. intros (salt & h & [= ->] & Ha & _).
       change ("" +:+ salt +:+ "$" +:+ h) with (salt +:+ String.String "$" h) in En. rewrite str_find_app in En by done. done. }
  replace (1 + n - 1)%nat with n by lia. replace (1 + n + 1)%nat with (S (S n)) by lia.
  change (str_drop (S (S n)) (String.String "$" stored)) with (str_drop (S n) stored).
  destruct (str_find_split _ _ _ En) as [Es Ha]. set (salt := str_take n stored) in *. set (h := str_drop (S n) stored) in *.
  assert (String.length stored = (String.length salt + S (String.length h))%nat) as El by (rewrite Es at 1; by rewrite str_length_app).
  cbn [String.length] in Hlen. destruct (hex_ok data (salt +:+ password)) as (h' & Eh & _ & _); [done|rewrite str_length_app; lia|]. rewrite Eh. cbn [mbind option_bind].
  assert (forall salt' h'', String.String "$" stored = "$" +:+ salt' +:+ "$" +:+ h'' -> str_forall (fun a => negb (Ascii.eqb a "$")) salt' = true ->
    salt' = salt /\ h'' = h) as Huniq.
  { intros salt' h'' [= E] Ha'. change ("" +:+ salt' +:+ "$" +:+ h'') with (salt' +:+ String.String "$" h'') in E. rewrite E, str_find_app in En by done. injection En as <-.
    unfold salt, h. rewrite E, str_take_app. split; [done|]. rewrite str_app_cons.
    replace (S (String.length salt')) with (String.length (salt' +:+ String.String "$" "")); [by rewrite str_drop_app|].
    rewrite str_length_app. cbn [String.length]. lia. }
  assert (h' = h <-> exists salt' h'', String.String "$" stored = "$" +:+ salt' +:+ "$" +:+ h'' /\
    str_forall (fun a => negb (Ascii.eqb a "$")) salt' = true /\ hex data (salt' +:+ password) = Some h'') as Hiff.
  { split.
    - intros ->. exists salt, h. split; [|done]. by rewrite Es.
    - intros (salt' & h'' & E & Ha' & Eh'). destruct (Huniq _ _ E Ha') as [-> ->]. congruence. }
  destruct (Nat.eqb_spec (String.length h') (String.length h)) as [Hl|Hl]; cbn [negb]; eexists; (split; [done|]); rewrite <- Hiff.
  - rewrite <- (differing_eq h' h Hl). apply Z.eqb_eq.
  - split; [done|]. by intros ->.
Qed.

(** What [hashPassword] stores accepts the password. *)
Lemma hashPassword_verifies data data' saltRaw password : lenZ data = 64 -> lenZ data' = 64 ->
  8 * (98 + 2 * Z.of_nat (String.length password)) < 2 ^ 64 ->
  exists stored, hashPassword data saltRaw password = Some stored /\ verifyPassword data' password stored = Some true.
Proof.
  intros Hd Hd' Hlen. unfold hashPassword. set (salt := hexText (bigEndianBytes 8 saltRaw)).
  assert (String.length salt = 16%nat) as Hs by (unfold salt; by rewrite hexText_length).
  assert (8 * Z.of_nat (String.length (salt +:+ password)) < 2 ^ 64) as Hl by (rewrite str_length_app; lia).
  destruct (hex_ok data _ Hd Hl) as (h & -> & E & Hh). cbn [mbind option_bind]. eexists. split; [done|].
  destruct (verifyPassword_spec data' password ("$" +:+ salt +:+ "$" +:+ h) Hd') as (b & -> & Hb).
  { rewrite !str_length_app, Hs, Hh. cbn [String.length]. lia. }
  f_equal. apply Hb. exists salt, h. split; [done|]. split; [apply hexText_plain, bigEndianBytes_byte|].
  destruct (hex_ok data' _ Hd' Hl) as (h' & -> & E' & _). congruence.
Qed.

Example verify_demo : verifyPassword (replicate 64 0) "secret"
  "$00000000000000ff$00" = Some false.
Proof. reflexivity. Qed.
