(* ===== verification/AdapterMain.v ===== *)
(** * The adapter: entry point, logging set-up and statistics

    [src/src/adapter/main.cpp], and what [AdapterApp.cpp] does around the data
    path: directories and level of the log, the statistics thread, signals. *)

From stdpp Require Import base list numbers gmap strings sorting.
From Stdlib Require Import ZArith Lia Ascii Sorted.
From S2P Require Import Prelude CText DeviceModel ConfigDB AdapterConfig Pipeline.
From S2P Require Logging.
Local Open Scope Z_scope.

(** ** Arguments *)

(** The loop over [argv]: an exit code or the name of the configuration file. *)
Fixpoint mainArgs (args : list string) (cfgFile : string) : Z + string :=
  match args with
  | [] => inr cfgFile
  | arg :: rest =>
      match String.eqb arg "-c", rest with
      | true, file :: rest' => mainArgs rest' file
      | _, _ =>
          if String.eqb arg "-h" || String.eqb arg "--help" then inl 0
          else if String.eqb arg "-V" || String.eqb arg "--version" then inl 0
          else inl 1
      end
  end.

(** [main] up to [AdapterApp::run]; [exeDir] is [getExeDir()]. *)
Definition main (exeDir : string) (args : list string) : Z + string :=
  match mainArgs args "" with
  | inl code => inl code
  | inr cfgFile =>
      inr (if str_empty cfgFile then (if str_empty exeDir then "." else exeDir) +:+ "/etherAdapter.cfg" else cfgFile)
  end.

(** The last of any number of [-c] options counts. *)
Lemma main_files exeDir files file : file <> ""%string ->
  main exeDir (flat_map (fun f => ["-c"%string; f]) (files ++ [file])) = inr file.
Proof.
  intros Hf. unfold main. assert (forall cfg, mainArgs (flat_map (fun f => ["-c"%string; f]) (files ++ [file])) cfg = inr file) as ->.
  { induction files as [|f files IH]; intros cfg; [done|]. cbn. apply IH. }
  by destruct file.
Qed.

Example main_default : main "" [] = inr "./etherAdapter.cfg"%string /\ main "/opt/ea" ["-c"%string] = inl 1 /\
  main "" ["-c"; "a.cfg"; "-V"]%string = inl 0.
Proof. done. Qed.

(** ** Directories *)

Definition is_separator (c : ascii) : bool := Ascii.eqb c "/" || Ascii.eqb c "\".

(** Paths that are not created: none, and a drive. *)
Definition no_directory (path : string) : bool :=
  match path with
  | String.EmptyString => true
  | String.String _ (String.String ":" String.EmptyString) => true
  | _ => false
  end.

Definition mkdir (path : string) : list string := if no_directory path then [] else [path].

(** The calls of [mkdir] that [ensureDirRecursive] makes, from the position where
    [path] was read. *)
Fixpoint mkdirs (path rest : string) : list string :=
  match rest with
  | String.EmptyString => mkdir path
  | String.String c rest' => (if is_separator c then mkdir path else []) ++ mkdirs (path +:+ String.String c "") rest'
  end.

Definition ensureDirRecursive (dir : string) : bool * list string :=
  if str_empty dir then (false, []) else (true, mkdirs "" dir).

(** Directories are created from the root on: exactly the paths that end in front
    of a separator or at the end, each before the longer ones. *)
Lemma mkdirs_spec rest : forall path p,
  p ∈ mkdirs path rest <-> no_directory p = false /\ exists q r, rest = q +:+ r /\ p = path +:+ q /\ starts_with is_separator r || str_empty r = true.
Proof.
  assert (forall path p, p ∈ mkdir path <-> no_directory p = false /\ p = path) as Hone.
  { intros path p. unfold mkdir. destruct (no_directory path) eqn:E; [rewrite elem_of_nil|rewrite list_elem_of_singleton].
    - split; [done|]. intros [H ->]. congruence.
    - split; [by intros ->|by intros [_ ->]]. }
  induction rest as [|c rest IH]; intros path p; cbn [mkdirs].
  - rewrite Hone. split.
    + intros [Hn ->]. split; [done|]. exists "", "". by rewrite !str_app_nil_r.
    + intros (Hn & q & r & Eq & -> & _). destruct q; [|done]. by rewrite str_app_nil_r in *.
  - rewrite elem_of_app, IH. split.
    + intros [H|(Hn & q & r & -> & -> & Hr)].
      * destruct (is_separator c) eqn:Ec; [|by apply elem_of_nil in H]. apply Hone in H as [Hn ->]. split; [done|].
        exists "", (String.String c rest). rewrite str_nil_app, str_app_nil_r. cbn. by rewrite Ec.
      * split; [done|]. exists (String.String c q), r. by rewrite str_cons_app, (str_app_cons path c q).
    + intros (Hn & q & r & Eq & -> & Hr). destruct q as [|c' q].
      * rewrite str_nil_app in Eq. subst r. left. cbn in Hr. rewrite orb_false_r in Hr. rewrite Hr, str_app_nil_r in *. by apply Hone.
      * rewrite str_cons_app in Eq. injection Eq as <- ->. right. split; [done|]. exists q, r. by rewrite <- (str_app_cons path c q).
Qed.

Lemma mkdirs_ordered rest : forall path,
  StronglySorted (fun a b => String.length a < String.length b)%nat (mkdirs path rest) /\
  Forall (fun p => String.length path <= String.length p)%nat (mkdirs path rest).
Proof.
  assert (forall path (b : bool), Forall (fun p => String.length path <= String.length p)%nat (if b then mkdir path else [])) as Hm.
  { intros path []; [|done]. unfold mkdir. destruct (no_directory path); by repeat constructor. }
  induction rest as [|c rest IH]; intros path; cbn [mkdirs].
  - split; [unfold mkdir; destruct (no_directory path); by repeat constructor|exact (Hm path true)].
  - destruct (IH (path +:+ String.String c "")) as [H1 H2].
    assert (Forall (fun p => String.length path < String.length p)%nat (mkdirs (path +:+ String.String c "") rest)) as H3.
    { eapply Forall_impl; [exact H2|]. intros p Hp. rewrite str_length_app in Hp. cbn in Hp. lia. }
    split.
    + destruct (is_separator c); [|done]. unfold mkdir. destruct (no_directory path); [done|]. cbn. by constructor.
    + apply Forall_app. split; [apply Hm|]. eapply Forall_impl; [exact H3|]. intros p Hp. cbn in Hp. lia.
Qed.

Example mkdirs_demo : ensureDirRecursive "/opt/ea/log" = (true, ["/opt"; "/opt/ea"; "/opt/ea/log"]%string) /\
  ensureDirRecursive "C:\log" = (true, ["C:\log"]%string).
Proof. done. Qed.

(** ** Logging set-up *)

(** What [initLogging] leaves: the level, the directories made, and the base name
    of the log files when the lines go there. *)
Record LogSetup := mkLogSetup { ls_level : Logging.Level; ls_mkdirs : list string; ls_basename : option string }.

Definition initLogging (cfg : AdapterConfig) : bool * LogSetup :=
  let level := Logging.levelFromString (l_level (cfg_log cfg)) in
  let dir := resolvePath cfg (l_dir (cfg_log cfg)) in
  let '(ok, made) := ensureDirRecursive dir in
  if ok then (true, mkLogSetup level made (Some (dir +:+ "/etherAdapter")))
  else (false, mkLogSetup level made None).

(** ** Statistics *)

(** One round of [statsLoop]: what it prints of two snapshots of the counters and
    the sizes of the queues. *)
Definition statsDelta (prev now : AdapterStats) (s : Stat) : Z := u64 (now s - prev s).

Definition statsLine (prev now : AdapterStats) (ingest write : Z) : string :=
  let d s := to_string (statsDelta prev now s) in
  "[stats] chunks +" +:+ d Chunks +:+ " (" +:+ to_string (statsDelta prev now BytesIn / 1024) +:+ " KB) frames +" +:+ d Frames +:+
  " rows +" +:+ d RowsParsed +:+ " (event +" +:+ d EventRows +:+ ") written +" +:+ d RowsWritten +:+
  " modbus +" +:+ d ModbusRequests +:+ " http +" +:+ d HttpRequests +:+
  " drop " +:+ to_string (now Unmatched) +:+ " err " +:+ to_string (now WriteErrors) +:+
  " | queue ingest " +:+ to_string ingest +:+ " write " +:+ to_string write.

(** The loop over the snapshots it takes until it is stopped. *)
Fixpoint statsLoop (prev : AdapterStats) (snapshots : list (AdapterStats * Z * Z)) : list string :=
  match snapshots with
  | [] => []
  | (now, ingest, write) :: rest => statsLine prev now ingest write :: statsLoop now rest
  end.

(** The increments printed for a counter, in the same order. *)
Fixpoint statsDeltas (s : Stat) (prev : AdapterStats) (snapshots : list (AdapterStats * Z * Z)) : list Z :=
  match snapshots with
  | [] => []
  | (now, _, _) :: rest => statsDelta prev now s :: statsDeltas s now rest
  end.

(** The increments add up to the last value, whatever wrapped around. *)
Lemma statsDeltas_sum s snapshots : forall prev,
  u64 (prev s + fold_right Z.add 0 (statsDeltas s prev snapshots)) =
  u64 (match last snapshots with Some (now, _, _) => now s | None => prev s end).
Proof.
  induction snapshots as [|[[now i] w] rest IH]; intros prev; cbn [statsDeltas fold_right]; [by rewrite Z.add_0_r|].
  replace (u64 (prev s + (statsDelta prev now s + fold_right Z.add 0 (statsDeltas s now rest)))) with
    (u64 (now s + fold_right Z.add 0 (statsDeltas s now rest))).
  - rewrite IH. destruct rest as [|x rest]; [done|]. change (last ((now, i, w) :: x :: rest)) with (last (x :: rest)).
    by destruct (proj2 (last_is_Some (x :: rest)) ltac:(done)) as [y ->].
  - unfold statsDelta. set (R := fold_right _ _ _). replace (prev s + (u64 (now s - prev s) + R)) with (u64 (now s - prev s) + (prev s + R)) by lia.
    rewrite uwrap_add_l. f_equal. lia.
Qed.
