(* ===== verification/AdapterApp.v ===== *)
(** * The adapter: definitions

    [src/src/adapter/AdapterApp.cpp]: how [run] wires the components together.

    The ingest server and the HTTP server run on the event loop, the parser and
    the writer on a thread each.  A run is a sequence of [AppEvent]s, one per
    loop callback or dequeued element, in any interleaving.  A queue is what its
    producers have enqueued with the number of elements taken so far; the write
    queue keeps the order per producer only, as the concurrent queue does.  Each
    component has its own copy of the shared counters, which only grow by
    [fetch_add]: the shared ones are their sums. *)

From stdpp Require Import base list numbers gmap strings.
From Stdlib Require Import ZArith Lia.
From S2P Require Import Prelude CText DeviceModel ConfigDB AdapterConfig FrameCodec Pipeline Writer Ingest HttpIngest.
Local Open Scope Z_scope.

(** ** State *)

(** [class AdapterApp]: the ingest server with its connections' input buffers,
    the HTTP server, the parser with the publish path, the writer, and how much
    was taken from the ingest queue and from the write queue, per producer. *)
Record AdapterApp (D : Type) := mkApp {
  app_ingest : IngestServer * gmap nat (list Z);
  app_http : HttpIngest;
  app_parser : ParserWorker;
  app_writer : Writer D;
  app_chunksTaken : nat;
  app_parserTaken : nat;
  app_httpTaken : nat;
}.
Arguments mkApp {D}. Arguments app_ingest {D}. Arguments app_http {D}. Arguments app_parser {D}.
Arguments app_writer {D}. Arguments app_chunksTaken {D}. Arguments app_parserTaken {D}.
Arguments app_httpTaken {D}.

(** What can happen next: a callback of the event loop, the parser thread
    dequeues or times out, the publish thread dequeues, the writer dequeues a
    batch of the HTTP server or of the parser. *)
Inductive AppEvent :=
| DataEvent (e : NetEvent)
| HttpEvent (e : NetEvent)
| ParserDequeues
| ParserIdle
| PublishDequeues
| WriterDequeues (http : bool).

Definition dataEvent (e : AppEvent) : option NetEvent := match e with DataEvent e => Some e | _ => None end.
Definition httpEvent (e : AppEvent) : option NetEvent := match e with HttpEvent e => Some e | _ => None end.

(** A new [PublishQueue]. *)
Definition newPublish (cfg : ZmqConfig) : PublishQueue := mkPublish (z_enabled cfg) false [] 0.

Definition set_publish (p : option PublishQueue) (w : ParserWorker) : ParserWorker :=
  mkWorker (pw_batchRows w) (pw_streams w) (pw_batches w) (pw_touched w) (pw_write w) p (pw_stats w).

(** The publish thread takes one batch. *)
Definition publishWork (w : ParserWorker) : ParserWorker :=
  match pw_publish w with
  | Some q => let '(q, s) := publishRun q (pw_stats w) in set_stats s (set_publish (Some q) w)
  | None => w
  end.

(** The batches two producers left, in the order they are taken: [true] takes
    one of the parser's. *)
Fixpoint mergeQueues {A} (picks : list bool) (ps hs : list A) : list A :=
  match picks with
  | [] => ps ++ hs
  | true :: picks' => match ps with p :: ps' => p :: mergeQueues picks' ps' hs | [] => hs end
  | false :: picks' => match hs with h :: hs' => h :: mergeQueues picks' ps hs' | [] => ps end
  end.

(** How [run] returns: with an error code, or after an orderly shutdown. *)
Inductive RunResult (D : Type) :=
| Failed (code : Z) (d : D)
| Finished (a : AdapterApp D).
Arguments Failed {D}. Arguments Finished {D}.

Section App.
Context {std : StdSort} {D : Type} (cl : DbClient D).
(** Unspecified conversions and the traversal orders of the two hash maps. *)
Context (llround_invalid : Z -> Z) (float_text : Z -> string).
Context (batch_order : gmap nat (DevicePtr * RowBatch) -> list (nat * (DevicePtr * RowBatch))).
Context (sink_order : gmap nat Sink -> list (nat * Sink)).

(** ** One event *)

Definition set_parser (w : ParserWorker) (a : AdapterApp D) : AdapterApp D :=
  mkApp (app_ingest a) (app_http a) w (app_writer a) (app_chunksTaken a) (app_parserTaken a) (app_httpTaken a).

(** The chunk and the batch at the front of the queues. *)
Definition nextChunk (a : AdapterApp D) : option RawChunk :=
  is_queue (fst (app_ingest a)) !! app_chunksTaken a.
Definition nextBatch (http : bool) (a : AdapterApp D) : option RowBatch :=
  if http then hi_write (app_http a) !! app_httpTaken a else pw_write (app_parser a) !! app_parserTaken a.

Definition appStep (db : ConfigDB) (a : AdapterApp D) (e : AppEvent) : option (AdapterApp D) :=
  match e with
  | DataEvent e =>
      Some (mkApp (ingestStep db (app_ingest a) e) (app_http a) (app_parser a) (app_writer a)
              (app_chunksTaken a) (app_parserTaken a) (app_httpTaken a))
  | HttpEvent e =>
      h ← httpStep llround_invalid db (app_http a) e;
      Some (mkApp (app_ingest a) h (app_parser a) (app_writer a)
              (app_chunksTaken a) (app_parserTaken a) (app_httpTaken a))
  | ParserDequeues =>
      match nextChunk a with
      | None => Some a
      | Some c =>
          w ← parserStep batch_order (app_parser a) (Dequeued c);
          Some (mkApp (app_ingest a) (app_http a) w (app_writer a)
                  (S (app_chunksTaken a)) (app_parserTaken a) (app_httpTaken a))
      end
  | ParserIdle => w ← parserStep batch_order (app_parser a) Timeout; Some (set_parser w a)
  | PublishDequeues => Some (set_parser (publishWork (app_parser a)) a)
  | WriterDequeues http =>
      match nextBatch http a with
      | None => Some a
      | Some b =>
          w ← writerRun cl [b] (app_writer a);
          Some (mkApp (app_ingest a) (app_http a) (app_parser a) w (app_chunksTaken a)
                  (if http then app_parserTaken a else S (app_parserTaken a))
                  (if http then S (app_httpTaken a) else app_httpTaken a))
      end
  end.

Fixpoint appLoop (db : ConfigDB) (a : AdapterApp D) (es : list AppEvent) : option (AdapterApp D) :=
  match es with
  | [] => Some a
  | e :: es' => a' ← appStep db a e; appLoop db a' es'
  end.

(** ** Shutdown

    The servers stop; the parser leaves its loop - whatever the ingest queue
    still holds - and flushes; the writer drains the write queue. *)
Definition appStop (picks : list bool) (a : AdapterApp D) : option (AdapterApp D) :=
  let w := flushAll batch_order (app_parser a) in
  let w := set_publish (option_map publishStop (pw_publish w)) w in
  let rest := mergeQueues picks (drop (app_parserTaken a) (pw_write w)) (drop (app_httpTaken a) (hi_write (app_http a))) in
  wr ← writerRun cl rest (app_writer a);
  Some (mkApp (ingestStop (fst (app_ingest a)), snd (app_ingest a)) (httpStop (app_http a)) w
          (writerStop cl sink_order wr)
          (app_chunksTaken a) (length (pw_write w)) (length (hi_write (app_http a)))).

(** ** The whole program *)

(** The components as [run] constructs and starts them; the writer [w] has
    started. *)
Definition appStart (db : ConfigDB) (cfg : AdapterConfig) (w : Writer D) : string + AdapterApp D :=
  match ingestStart db (cfg_server cfg) (newIngest AdapterStats0) with
  | inl e => inl e
  | inr s =>
      inr (mkApp (s, ∅) (httpStart db (cfg_http cfg) (newHttpIngest AdapterStats0))
             (newWorker (batchRows (cfg_etherdb cfg)) (Some (publishStart (newPublish (cfg_zmq cfg)))) AdapterStats0)
             w 0 0 0)
  end.

(** [AdapterApp::run]: [opened] is what opening the configuration database
    gives, [es] what happens until [quit], [picks] the order of the final
    drain.  [HttpIngest::start] has no failing path, so code 5 is not
    returned. *)
Definition adapterRun (cfg : AdapterConfig) (opened : string + SqlDb) (d0 : D)
    (es : list AppEvent) (picks : list bool) : option (RunResult D) :=
  match opened with
  | inl _ => Some (Failed 2 d0)
  | inr q =>
      loaded ← loadAll float_text q (mkDB [] ∅ [] [] [] ∅ ∅ ∅);
      match loaded with
      | inl _ => Some (Failed 2 d0)
      | inr db =>
          match db_devices db with
          | [] => Some (Failed 2 d0)
          | _ :: _ =>
              match writerStart cl db (newWriter (cfg_etherdb cfg) AdapterStats0 d0) with
              | (Some _, w) => Some (Failed 3 (wr_db w))
              | (None, w) =>
                  match appStart db cfg w with
                  | inl _ => Some (Failed 4 (wr_db (writerStop cl sink_order w)))
                  | inr a =>
                      a ← appLoop db a es;
                      a ← appStop picks a;
                      Some (Finished a)
                  end
              end
          end
      end
  end.
End App.
