(* ===== verification/AdapterAppProps.v ===== *)
(** * The adapter: properties

    What reaches the database: the components of [AdapterApp] composed, for
    every interleaving of their threads. *)

From stdpp Require Import base list numbers gmap strings.
From Stdlib Require Import ZArith Lia.
From S2P Require Import Prelude CText DeviceModel ConfigDB ConfigDBGroups ConfigDBProps AdapterConfig FrameCodec FrameCodecStream FrameCodecProps Pipeline ParserProps Writer WriterProps Ingest HttpIngest HttpIngestProps AdapterApp.
Local Open Scope Z_scope.

(** ** Interleavings *)

Inductive interleave {A} : list A -> list A -> list A -> Prop :=
| interleave_nil : interleave [] [] []
| interleave_left x ps hs l : interleave ps hs l -> interleave (x :: ps) hs (x :: l)
| interleave_right x ps hs l : interleave ps hs l -> interleave ps (x :: hs) (x :: l).
#[export] Hint Constructors interleave : ether.

Section Interleave.
Context {A : Type}.
Implicit Types ps hs l : list A.

Lemma interleave_lefts ps : interleave ps [] ps.
Proof. induction ps; auto with ether. Qed.

Lemma interleave_rights hs : interleave [] hs hs.
Proof. induction hs; auto with ether. Qed.

Lemma interleave_concat ps hs : interleave ps hs (ps ++ hs).
Proof. induction ps; simpl; auto using interleave_rights with ether. Qed.

Lemma interleave_app ps1 hs1 l1 ps2 hs2 l2 : interleave ps1 hs1 l1 -> interleave ps2 hs2 l2 ->
  interleave (ps1 ++ ps2) (hs1 ++ hs2) (l1 ++ l2).
Proof. induction 1; simpl; auto with ether. Qed.

Lemma interleave_snoc_left ps hs l x : interleave ps hs l -> interleave (ps ++ [x]) hs (l ++ [x]).
Proof. intros H. rewrite <- (app_nil_r hs). apply interleave_app; auto with ether. Qed.

Lemma interleave_snoc_right ps hs l x : interleave ps hs l -> interleave ps (hs ++ [x]) (l ++ [x]).
Proof. intros H. rewrite <- (app_nil_r ps). apply interleave_app; auto with ether. Qed.

Lemma interleave_perm ps hs l : interleave ps hs l -> l ≡ₚ ps ++ hs.
Proof.
  induction 1 as [|x ps hs l _ IH|x ps hs l _ IH]; [done|by rewrite IH|].
  rewrite IH. apply Permutation_middle.
Qed.

Lemma interleave_Forall P ps hs l : interleave ps hs l -> Forall P ps -> Forall P hs -> Forall P l.
Proof. intros H Hp Hh. rewrite (interleave_perm _ _ _ H). by apply Forall_app. Qed.

Lemma mergeQueues_interleave picks : forall ps hs, interleave ps hs (mergeQueues picks ps hs).
Proof.
  induction picks as [|[] picks IH]; intros ps hs; cbn [mergeQueues]; [apply interleave_concat| |].
  - destruct ps; [apply interleave_rights|auto with ether].
  - destruct hs; [apply interleave_lefts|auto with ether].
Qed.
End Interleave.

(** ** The parser: decoding in steps, and the size of a batch *)

Lemma decodeLoop_app es1 : forall s s1 r1 es2 s2 r2,
  decodeLoop s es1 = Some (s1, r1) -> decodeLoop s1 es2 = Some (s2, r2) ->
  decodeLoop s (es1 ++ es2) = Some (s2, r1 ++ r2).
Proof.
  induction es1 as [|e es1 IH]; intros s s1 r1 es2 s2 r2 E1 E2; cbn [decodeLoop app] in *.
  { injection E1 as <- <-. done. }
  destruct e as [c|]; [|by eapply IH].
  destruct (ch_group c) as [gp|]; [|by eapply IH]. destruct (ch_data c); [by eapply IH|].
  destruct (decodeChunk _ _ _) as [[st rows]|]; [|done]. cbn [mbind option_bind] in *.
  destruct (decodeLoop _ es1) as [[s' r']|] eqn:E; [|done]. cbn [mbind option_bind] in *.
  injection E1 as <- <-. rewrite (IH _ _ _ _ _ _ E E2). cbn [mbind option_bind]. by rewrite app_assoc.
Qed.

Section Sizes.
Context (deviceOf : nat -> option DeviceDesc) (groupOf : nat -> option DeviceGroup)
  (order : gmap nat (DevicePtr * RowBatch) -> list (nat * (DevicePtr * RowBatch)))
  (Horder : forall m, order m ≡ₚ map_to_list m).

Definition fits (b : RowBatch) : Prop := lenZ (b_ts b) < 2 ^ 31.

Lemma device_rows_length a rows : lenZ (device_rows a rows) <= lenZ rows.
Proof. unfold device_rows, lenZ. pose proof (length_filter (fun r => p_addr (r_dev r) = a) rows). lia. Qed.

(** A batch is no longer than what its device wrote in total. *)
Lemma written_fits b bs d : b ∈ bs -> b_dev b = Some d -> lenZ (b_ts b) <= lenZ (written (p_addr d) bs).
Proof.
  intros Hb Hd. apply list_elem_of_split in Hb as (l1 & l2 & ->). unfold written.
  rewrite map_app, concat_app. unfold device_rows. cbn [map concat]. rewrite !filter_app, !lenZ_app.
  fold (device_rows (p_addr d) (batch_rows b)). rewrite device_rows_of.
  2:{ unfold batch_rows. rewrite Hd. apply rows_of_device. }
  unfold batch_rows. rewrite Hd, rows_of_length_Z.
  match goal with |- _ <= lenZ ?x + (_ + lenZ ?y) => pose proof (lenZ_nonneg x); pose proof (lenZ_nonneg y); lia end.
Qed.

Lemma pending_small w a : worker_ok deviceOf groupOf w -> quiet w -> lenZ (pending a w) <= pw_batchRows w.
Proof.
  intros Hw Hq. pose proof (wo_batchRows _ _ _ Hw) as Hn. unfold pending.
  destruct (pw_batches w !! a) as [[key b]|] eqn:E; [|rewrite lenZ_nil; lia].
  destruct (wo_batches _ _ _ Hw _ _ _ E) as (_ & _ & Hd & _). unfold batch_rows. rewrite Hd, rows_of_length_Z.
  destruct (Hq _ _ _ E) as [->|[_ H]]; [rewrite lenZ_nil|]; lia.
Qed.

(** What a step adds to the write queue was pending or has just been decoded. *)
Lemma written_bound w w' bs n : worker_ok deviceOf groupOf w -> worker_ok deviceOf groupOf w' -> quiet w ->
  pw_write w' = pw_write w ++ bs -> pw_batchRows w + n < 2 ^ 31 ->
  (forall a, exists rows, out a w' = out a w ++ rows /\ lenZ rows <= n) ->
  Forall fits (pw_write w) -> Forall fits (pw_write w').
Proof.
  intros Hw Hw' Hq E Hn Hout Hf. pose proof (wo_write _ _ _ Hw') as Hwr. rewrite E in *.
  apply Forall_app. split; [done|]. apply Forall_app in Hwr as [_ Hwr]. rewrite Forall_forall in Hwr |- *.
  intros b Hb. destruct (Hwr b Hb) as (_ & _ & Hd). destruct (b_dev b) as [d|] eqn:Eb; [|done].
  pose proof (written_fits b bs d Hb Eb) as Hlen. unfold fits.
  destruct (Hout (p_addr d)) as (rows & Ho & Hr). unfold out, written in Ho. rewrite E, map_app, concat_app in Ho.
  unfold device_rows in Ho. rewrite filter_app, <- !app_assoc in Ho. apply app_inv_head in Ho.
  fold (device_rows (p_addr d) (concat (map batch_rows bs))) in Ho. fold (written (p_addr d) bs) in Ho.
  apply (f_equal lenZ) in Ho. rewrite !lenZ_app in Ho.
  pose proof (pending_small w (p_addr d) Hw Hq). pose proof (lenZ_nonneg (pending (p_addr d) w')). lia.
Qed.

Lemma decode_bound w c s rows : worker_ok deviceOf groupOf w -> event_ok deviceOf groupOf (Dequeued c) ->
  decodeLoop (pw_streams w) [Dequeued c] = Some (s, rows) -> lenZ rows <= kMaxFrame + lenZ (ch_data c).
Proof.
  intros Hw [Hd Hg] E. cbn [decodeLoop] in E. pose proof (lenZ_nonneg (ch_data c)) as Hc.
  assert (kMaxFrame = 65536) as Hk by done.
  destruct (ch_group c) as [gp|]; [|injection E as <- <-; rewrite lenZ_nil; lia].
  destruct (ch_data c) as [|x xs] eqn:Edata; [injection E as <- <-; rewrite lenZ_nil; lia|]. rewrite <- Edata in *.
  assert (group_stream_ok (gp_group gp) (default DeviceStream0 (pw_streams w !! gp_addr gp))) as Hst.
  { destruct (pw_streams w !! gp_addr gp) as [st|] eqn:Es; [|apply group_stream0].
    destruct (wo_streams _ _ _ Hw _ _ Es) as (g & Hgo & Hgs). rewrite (gk_group _ _ _ Hg) in Hgo. by injection Hgo as <-. }
  destruct (decodeChunk_ok deviceOf groupOf gp c _ Hg Hst Hd) as (st' & rows' & Ed & _ & _ & Hcnt & _).
  rewrite Ed in E. cbn [mbind option_bind] in E. injection E as _ <-. by rewrite app_nil_r.
Qed.

Lemma parserStep_fits w e w' :
  worker_ok deviceOf groupOf w -> quiet w -> event_ok deviceOf groupOf e -> event_small e ->
  pw_batchRows w <= 2 ^ 30 -> parserStep order w e = Some w' -> Forall fits (pw_write w) -> Forall fits (pw_write w').
Proof.
  intros Hw Hq He Hs Hn E. assert (kMaxFrame = 65536) as Hk by done.
  destruct (parserStep_ok deviceOf groupOf order w e Horder Hw He) as (w1 & s1 & rows & E1 & Hw1 & D & _ & Hout & bs & Hq1 & _).
  rewrite E in E1. injection E1 as <-.
  assert (lenZ rows <= kMaxFrame + 2 ^ 29) as Hr.
  { destruct e as [c|]; [pose proof (decode_bound w c _ _ Hw He D); cbn [event_small] in Hs; lia|].
    cbn [decodeLoop] in D. injection D as _ <-. rewrite lenZ_nil. lia. }
  apply (written_bound w w' bs (kMaxFrame + 2 ^ 29)); try done; [lia|].
  intros a. exists (device_rows a rows). split; [apply Hout|]. pose proof (device_rows_length a rows). lia.
Qed.

Lemma flushAll_fits w : worker_ok deviceOf groupOf w -> quiet w -> pw_batchRows w <= 2 ^ 30 ->
  Forall fits (pw_write w) -> Forall fits (pw_write (flushAll order w)).
Proof. intros Hw Hq Hn. by apply (parserStep_fits w Timeout). Qed.
End Sizes.

(** ** What the servers enqueue *)

(** Data the network library can deliver in one callback. *)
Definition net_ok (e : NetEvent) : Prop :=
  match e with Received _ data _ => is_bytes data /\ lenZ data <= 2 ^ 29 | _ => True end.

Lemma trace_ok_prefix es1 : forall live es2, trace_ok live (es1 ++ es2) -> trace_ok live es1.
Proof.
  induction es1 as [|e es1 IH]; intros live es2 H; [done|].
  destruct e; cbn [app trace_ok] in *; destruct H; split; eauto.
Qed.

Section Servers.
Context (db : ConfigDB) (Hdb : devices_ok (db_devices db)).

Definition device_of (a : nat) : option DeviceDesc := db_devices db !! a.

(** A chunk the ingest server enqueues is one the parser is ready for. *)
Lemma wanted_event_ok e c : net_ok e -> wanted db e = Some c ->
  event_ok device_of (groupAt db) (Dequeued c) /\ event_small (Dequeued c).
Proof.
  intros Hn H. destruct e as [?|?|k [|b data] t]; try done. cbn [wanted] in H.
  destruct (peerGroup db (cn_ip k) (cn_port k)) as [g|] eqn:Eg; [|done]. cbn [mbind option_bind] in H.
  destruct (ingestable _); [|done]. injection H as <-. destruct Hn as [Hb Hl]. cbn. split; [split; [done|]|done].
  unfold peerGroup in Eg. apply bind_Some in Eg as (gi & _ & Eg). apply bind_Some in Eg as (g' & Hg & [= <-]).
  by apply loaded_group_known.
Qed.

(** A batch of the HTTP server. *)
Lemma httpStep_batches llround_invalid s e s' : httpStep llround_invalid db s e = Some s' ->
  Forall (batch_for (db_devices db)) (hi_write s) -> Forall (batch_for (db_devices db)) (hi_write s').
Proof.
  intros E Hs. destruct e as [c|c|c data t]; cbn [httpStep] in E; [by injection E as <-..|].
  apply bind_Some in E as ([s1 rest] & E & [= ->]). unfold httpMessage in E.
  destruct data as [|b data]; [by injection E as <- _|]. set (st := mkState _ _ _) in E.
  destruct (_ <? _); [by injection E as <- _|].
  apply bind_Some in E as (stage & _ & E). destruct stage as [|code body|st']; [by injection E as <- _..|].
  destruct (_ <? _); [by injection E as <- _|]. apply bind_Some in E as (s2 & E & [= <- _]).
  unfold handleRequest in E. destruct (matchHttpDevice _ _ _ _) as [dev|] eqn:Ed; [|by injection E as <-].
  assert (db_devices db !! p_addr dev = Some (p_desc dev)) as Hdev.
  { assert (forall i d, deviceAt db i = Some d -> db_devices db !! p_addr d = Some (p_desc d)) as Hat.
    { intros i d Hd. unfold deviceAt in Hd. apply bind_Some in Hd as (x & Hx & [= <-]). done. }
    assert ((i ← db_httpByPort db !! hi_port s; deviceAt db i) = Some dev -> db_devices db !! p_addr dev = Some (p_desc dev)) as Hport.
    { intros H. apply bind_Some in H as (i & _ & H). by eapply Hat. }
    unfold matchHttpDevice in Ed. destruct (matchDevice _ _ _) as [d|] eqn:Em; [|by apply Hport].
    destruct (_ =? _); [|by apply Hport]. injection Ed as <-. unfold matchDevice in Em.
    apply bind_Some in Em as (gi & _ & Em). apply bind_Some in Em as (g & Hg & Em).
    pose proof (gk_members _ _ _ (loaded_group_known db gi g Hdb Hg)) as Hm. rewrite Forall_forall in Hm.
    apply Hm. unfold primary in Em. simpl in *. by eapply head_Some_elem_of. }
  destruct (s_fields _) as [|f0 fs] eqn:Ef; [by injection E as <-|].
  set (cells := replicate _ _) in E. pose proof (parseJsonFields_ends llround_invalid
    (str_take (Z.to_nat (cs_contentLen st')) (cs_buf st')) (d_spec (p_desc dev)) cells) as Hj.
  destruct (parseJsonFields _ _ _ _) as [m cells'|cells'|]; [|by injection E as <-|done]. injection E as <-.
  cbn [hi_write sendResponse hi_count hi_enqueue set_conns]. apply Forall_app. split; [done|].
  apply Forall_singleton. split_and!; [|done|exact Hdev]. unfold batch_wf. cbn [b_dev b_ts b_cells].
  unfold lenZ at 1. rewrite Hj. unfold cells. rewrite length_replicate.
  pose proof (fieldCount_nonneg (p_desc dev)). rewrite Z2Nat.id, lenZ_cons, lenZ_nil by done. lia.
Qed.

(** A batch of the parser. *)
Lemma parser_batch_for w : worker_ok device_of (groupAt db) w -> Forall fits (pw_write w) ->
  Forall (batch_for (db_devices db)) (pw_write w).
Proof.
  intros Hw Hf. pose proof (wo_write _ _ _ Hw) as Hwr. rewrite Forall_forall in *. intros b Hb.
  destruct (Hwr b Hb) as (_ & Hwf & Hd). split_and!; [done|by apply Hf|]. by destruct (b_dev b).
Qed.
End Servers.

(** ** The invariant of a run *)

Section Run.
Context {D : Type} (cl : DbClient D) (llround_invalid : Z -> Z).
Context (batch_order : gmap nat (DevicePtr * RowBatch) -> list (nat * (DevicePtr * RowBatch)))
  (Horder : forall m, batch_order m ≡ₚ map_to_list m).
Context (sink_order : gmap nat Sink -> list (nat * Sink)).
Context (db : ConfigDB) (Hdb : devices_ok (db_devices db)) (Hwr : Forall writable (db_devices db)).
(** The components as they were started. *)
Context (s0 : IngestServer) (h0 : HttpIngest) (w0 : Writer D) (cap rowLimit : Z).
Context (Hs0 : is_queue s0 = []) (Hlimit : rowLimit <= 2 ^ 30).

Definition ingested (des : list NetEvent) : list RawChunk := omap (wanted db) des.

(** What the database and the counters hold after the batches [bs]. *)
Definition inserted (bs : list RowBatch) : D * AdapterStats :=
  fold_left (insertBatch cl cap (stmts w0)) bs (wr_db w0, wr_stats w0).

(** After the events [des] of the ingest server and [hes] of the HTTP server. *)
Record app_inv (des hes : list NetEvent) (a : AdapterApp D) : Prop := {
  ai_ingest : app_ingest a = fold_left (ingestStep db) des (s0, ∅);
  ai_http : httpRun llround_invalid db h0 hes = Some (app_http a);
  ai_httpBatches : Forall (batch_for (db_devices db)) (hi_write (app_http a));
  ai_parser : worker_ok (device_of db) (groupAt db) (app_parser a);
  ai_quiet : quiet (app_parser a) /\ pw_batchRows (app_parser a) = rowLimit;
  ai_fits : Forall fits (pw_write (app_parser a));
  ai_chunks : (app_chunksTaken a <= length (ingested des))%nat;
  ai_decoded : exists rows,
    decodeLoop ∅ (map Dequeued (take (app_chunksTaken a) (ingested des))) = Some (pw_streams (app_parser a), rows) /\
    forall d, out d (app_parser a) = device_rows d rows;
  ai_taken : (app_parserTaken a <= length (pw_write (app_parser a)))%nat /\
    (app_httpTaken a <= length (hi_write (app_http a)))%nat;
  ai_sinks : sinks_for (db_devices db) cap (wr_sinks (app_writer a)) /\ stmts (app_writer a) = stmts w0;
  ai_inserted : exists bs,
    interleave (take (app_parserTaken a) (pw_write (app_parser a))) (take (app_httpTaken a) (hi_write (app_http a))) bs /\
    (wr_db (app_writer a), wr_stats (app_writer a)) = inserted bs;
}.

Lemma ingest_queue des : trace_ok ∅ des ->
  is_queue (fst (fold_left (ingestStep db) des (s0, ∅))) = ingested des.
Proof.
  intros Ht. destruct (ingestRun_effect db des ∅ s0 ∅ Ht) as (s' & bufs & E & _ & Hq & _); [by intros c|done|].
  rewrite E. cbn [fst]. by rewrite Hq, Hs0.
Qed.

(** One step of the parser thread, on a chunk or on none. *)
Lemma parser_inv des hes a e w' taken :
  app_inv des hes a -> event_ok (device_of db) (groupAt db) e -> event_small e ->
  (taken <= length (ingested des))%nat ->
  map Dequeued (take taken (ingested des)) = map Dequeued (take (app_chunksTaken a) (ingested des)) ++
    match e with Dequeued _ => [e] | Timeout => [] end ->
  parserStep batch_order (app_parser a) e = Some w' ->
  app_inv des hes (mkApp (app_ingest a) (app_http a) w' (app_writer a) taken (app_parserTaken a) (app_httpTaken a)).
Proof.
  intros H He Hs Htk Etk E. destruct (ai_quiet _ _ _ H) as [Hq Hn]. pose proof (ai_parser _ _ _ H) as Hw.
  destruct (parserStep_ok _ _ batch_order (app_parser a) e Horder Hw He)
    as (w1 & s1 & rows & E1 & Hw1 & Dl & Es & Hout & bs & Hq1 & _).
  rewrite E in E1. injection E1 as <-. destruct (ai_decoded _ _ _ H) as (rs & Dr & Ho).
  constructor; cbn; try apply H; try done.
  - split; [|by rewrite (parserStep_batchRows _ _ _ _ E)].
    apply (parserStep_quiet (device_of db) (groupAt db) batch_order Horder (app_parser a) e); try done. lia.
  - apply (parserStep_fits (device_of db) (groupAt db) batch_order Horder (app_parser a) e); try done; [lia|apply H].
  - exists (rs ++ rows). split.
    + rewrite Etk, Es. destruct e as [c|]; [by eapply decodeLoop_app|]. cbn [decodeLoop] in Dl. injection Dl as <- <-.
      by rewrite !app_nil_r.
    + intros d. rewrite Hout, Ho. unfold device_rows. by rewrite filter_app.
  - destruct (ai_taken _ _ _ H). rewrite Hq1, length_app. split; [lia|done].
  - destruct (ai_inserted _ _ _ H) as (bs' & Hi & Hd). exists bs'. split; [|done].
    rewrite Hq1, take_app_le by apply H. exact Hi.
Qed.

(** The writer takes batches. *)
Lemma writer_runs w bs done : sinks_for (db_devices db) cap (wr_sinks w) -> stmts w = stmts w0 ->
  Forall (batch_for (db_devices db)) bs -> (wr_db w, wr_stats w) = inserted done ->
  exists w', writerRun cl bs w = Some w' /\ sinks_for (db_devices db) cap (wr_sinks w') /\
    stmts w' = stmts w0 /\ (wr_db w', wr_stats w') = inserted (done ++ bs).
Proof.
  intros Hs Hst Hbs Hd. destruct (writerRun_ok cl (db_devices db) cap bs w Hwr Hs Hbs) as (w' & E & Hs' & Ht' & H').
  exists w'. split_and!; [done|done|congruence|]. rewrite H', Hst, Hd. unfold inserted. by rewrite fold_left_app.
Qed.

Lemma writer_inv des hes a http b : app_inv des hes a -> nextBatch http a = Some b ->
  exists a', appStep cl llround_invalid batch_order db a (WriterDequeues http) = Some a' /\ app_inv des hes a' /\
    app_chunksTaken a' = app_chunksTaken a.
Proof.
  intros H Hb. cbn [appStep]. rewrite Hb. destruct (ai_sinks _ _ _ H) as [Hs Ht].
  destruct (ai_inserted _ _ _ H) as (bs & Hi & Hd). destruct (ai_taken _ _ _ H) as [Hp Hh].
  assert (Forall (batch_for (db_devices db)) [b]) as Hbf.
  { apply Forall_singleton. destruct http; cbn [nextBatch] in Hb.
    - pose proof (ai_httpBatches _ _ _ H) as Hf. by eapply Forall_lookup_1.
    - pose proof (parser_batch_for db _ (ai_parser _ _ _ H) (ai_fits _ _ _ H)) as Hf. by eapply Forall_lookup_1. }
  destruct (writer_runs _ [b] bs Hs Ht Hbf Hd) as (w' & E & Hs' & Ht' & Hd').
  rewrite E. cbn [mbind option_bind]. eexists. split; [done|]. split; [|done].
  constructor; cbn; try apply H; try done.
  - destruct http; cbn [nextBatch] in Hb; apply lookup_lt_Some in Hb; split; lia.
  - exists (bs ++ [b]). split; [|done].
    destruct http; cbn [nextBatch] in Hb; rewrite (take_S_r _ _ _ Hb);
      [by apply interleave_snoc_right|by apply interleave_snoc_left].
Qed.

(** Publishing touches nothing but the publish queue and a counter. *)
Lemma publishWork_same w :
  pw_streams (publishWork w) = pw_streams w /\ pw_batches (publishWork w) = pw_batches w /\
  pw_touched (publishWork w) = pw_touched w /\ pw_write (publishWork w) = pw_write w /\
  pw_batchRows (publishWork w) = pw_batchRows w.
Proof. unfold publishWork. destruct (pw_publish w) as [q|]; [|done]. by destruct (publishRun q _). Qed.

Lemma worker_ok_same dev grp w w' : pw_streams w' = pw_streams w -> pw_batches w' = pw_batches w ->
  pw_touched w' = pw_touched w -> pw_write w' = pw_write w -> pw_batchRows w' = pw_batchRows w ->
  worker_ok dev grp w -> worker_ok dev grp w'.
Proof. intros E1 E2 E3 E4 E5 [A B C F G]. constructor; by rewrite ?E1, ?E2, ?E3, ?E4, ?E5. Qed.

Lemma publish_inv des hes a : app_inv des hes a ->
  app_inv des hes (set_parser (publishWork (app_parser a)) a).
Proof.
  intros H. destruct (publishWork_same (app_parser a)) as (E1 & E2 & E3 & E4 & E5).
  constructor; cbn; rewrite ?E1, ?E4, ?E5; try apply H.
  - apply (worker_ok_same _ _ (app_parser a)); try done. apply H.
  - split; [|apply H]. intros x key b Hl. rewrite E2 in Hl. unfold may_wait. rewrite E5.
    by apply (proj1 (ai_quiet _ _ _ H) x key b).
  - destruct (ai_decoded _ _ _ H) as (rows & Hr & Ho). exists rows. split; [done|]. intros d. rewrite <- Ho.
    unfold out, pending. by rewrite E4, E2.
Qed.

Lemma ingested_app des es : ingested (des ++ es) = ingested des ++ ingested es.
Proof. apply omap_app. Qed.

Lemma data_inv des hes a e : app_inv des hes a ->
  app_inv (des ++ [e]) hes (mkApp (ingestStep db (app_ingest a) e) (app_http a) (app_parser a) (app_writer a)
    (app_chunksTaken a) (app_parserTaken a) (app_httpTaken a)).
Proof.
  intros H. pose proof (ai_chunks _ _ _ H) as Hc.
  constructor; cbn; try apply H; rewrite ?ingested_app, ?length_app, ?take_app_le by done; try apply H; [|lia].
  by rewrite fold_left_app, (ai_ingest _ _ _ H).
Qed.

Lemma httpRun_snoc es e : forall h h1 h2, httpRun llround_invalid db h es = Some h1 ->
  httpStep llround_invalid db h1 e = Some h2 -> httpRun llround_invalid db h (es ++ [e]) = Some h2.
Proof.
  induction es as [|e0 es IH]; intros h h1 h2 E1 E2; cbn [httpRun app] in *.
  - injection E1 as <-. by rewrite E2.
  - apply bind_Some in E1 as (h' & E & E1). rewrite E. cbn [mbind option_bind]. by eapply IH.
Qed.

Lemma http_inv des hes a e : app_inv des hes a ->
  exists h, httpStep llround_invalid db (app_http a) e = Some h /\
    app_inv des (hes ++ [e]) (mkApp (app_ingest a) h (app_parser a) (app_writer a)
      (app_chunksTaken a) (app_parserTaken a) (app_httpTaken a)).
Proof.
  intros H. assert (exists h rows, httpStep llround_invalid db (app_http a) e = Some h /\
    hi_write h = hi_write (app_http a) ++ rows) as (h & rows & E & Hrows).
  { destruct (httpStep_effect llround_invalid db (app_http a) e) as (h & o & E & He). exists h, (outcome_rows o).
    split; [done|apply He]. }
  exists h. split; [done|]. constructor; cbn; try apply H.
  - eapply httpRun_snoc; [apply H|done].
  - eapply httpStep_batches; [done|exact E|apply H].
  - destruct (ai_taken _ _ _ H). rewrite Hrows, length_app. split; [done|lia].
  - destruct (ai_inserted _ _ _ H) as (bs & Hi & Hd). exists bs. split; [|done].
    rewrite Hrows, take_app_le by apply H. exact Hi.
Qed.

(** Every event keeps the invariant; nothing gets stuck. *)
Lemma appStep_inv des hes a e :
  app_inv des hes a -> trace_ok ∅ des -> Forall net_ok des ->
  exists a', appStep cl llround_invalid batch_order db a e = Some a' /\
    app_inv (des ++ option_list (dataEvent e)) (hes ++ option_list (httpEvent e)) a' /\
    (app_chunksTaken a <= app_chunksTaken a')%nat /\
    (e = ParserDequeues -> (length (ingested des) <= app_chunksTaken a \/ app_chunksTaken a' = S (app_chunksTaken a))%nat).
Proof.
  intros H Ht Hn. destruct e as [e|e| | | |http]; cbn [dataEvent httpEvent option_list appStep]; rewrite ?app_nil_r.
  - eexists. split; [done|]. split; [by apply data_inv|]. done.
  - destruct (http_inv des hes a e H) as (h & E & Hi). rewrite E. eexists. split; [done|]. done.
  - assert (nextChunk a = ingested des !! app_chunksTaken a) as ->.
    { unfold nextChunk. by rewrite (ai_ingest _ _ _ H), ingest_queue. }
    destruct (ingested des !! app_chunksTaken a) as [c|] eqn:Ec.
    2:{ exists a. apply lookup_ge_None in Ec. split_and!; [done|done|done|]. intros _. by left. }
    assert (event_ok (device_of db) (groupAt db) (Dequeued c) /\ event_small (Dequeued c)) as [He Hs].
    { apply list_elem_of_lookup_2, list_elem_of_omap in Ec as (e & Hin & Hw).
      rewrite Forall_forall in Hn. by apply (wanted_event_ok db Hdb e); [apply Hn|]. }
    destruct (parserStep_ok _ _ batch_order (app_parser a) (Dequeued c) Horder (ai_parser _ _ _ H) He) as (w & _ & _ & E & _).
    rewrite E. eexists. split; [done|]. split; [|cbn; split; [lia|by right]].
    apply (parser_inv des hes a (Dequeued c)); try done; [by apply lookup_lt_Some in Ec|].
    by rewrite (take_S_r _ _ _ Ec), map_app.
  - destruct (parserStep_ok _ _ batch_order (app_parser a) Timeout Horder (ai_parser _ _ _ H) I) as (w & _ & _ & E & _).
    rewrite E. eexists. split; [done|]. split; [|done].
    apply (parser_inv des hes a Timeout); try done; [apply H|by rewrite app_nil_r].
  - eexists. split; [done|]. split; [by apply publish_inv|done].
  - destruct (nextBatch http a) as [b|] eqn:Eb; [|by exists a].
    destruct (writer_inv des hes a http b H Eb) as (a' & E & Hi & Hc). cbn [appStep] in E. rewrite Eb in E.
    exists a'. split; [exact E|]. split; [done|]. split; [lia|done].
Qed.

(** How often the parser thread dequeues. *)
Fixpoint dequeues (es : list AppEvent) : nat :=
  match es with
  | [] => O
  | ParserDequeues :: es' => S (dequeues es')
  | _ :: es' => dequeues es'
  end.

Lemma omap_cons_list {A B} (f : A -> option B) x l : omap f (x :: l) = option_list (f x) ++ omap f l.
Proof. cbn [omap list_omap]. by destruct (f x). Qed.

Lemma appLoop_inv es : forall des hes a,
  app_inv des hes a -> trace_ok ∅ (des ++ omap dataEvent es) -> Forall net_ok (des ++ omap dataEvent es) ->
  exists a', appLoop cl llround_invalid batch_order db a es = Some a' /\
    app_inv (des ++ omap dataEvent es) (hes ++ omap httpEvent es) a' /\
    (app_chunksTaken a <= app_chunksTaken a')%nat /\
    (Nat.min (length (ingested des)) (app_chunksTaken a + dequeues es) <= app_chunksTaken a')%nat.
Proof.
  induction es as [|e es IH]; intros des hes a H Ht Hn.
  - exists a. cbn [omap list_omap dequeues appLoop]. rewrite !app_nil_r. split_and!; [done|done|lia|lia].
  - rewrite !omap_cons_list, !app_assoc in *. cbn [appLoop].
    destruct (appStep_inv des hes a e H) as (a1 & E & H1 & Hle & Hdq).
    { eapply trace_ok_prefix. by rewrite <- app_assoc in Ht. }
    { rewrite <- app_assoc in Hn. by apply Forall_app in Hn as [? _]. }
    rewrite E. cbn [mbind option_bind]. destruct (IH _ _ a1 H1 Ht Hn) as (a2 & E2 & H2 & Hle2 & Hmin).
    exists a2. split_and!; [done|done|lia|]. rewrite ingested_app, length_app in Hmin.
    destruct e; cbn [dequeues]; try lia. destruct (Hdq eq_refl); lia.
Qed.

(** *** Shutdown *)

Lemma appStop_ok des hes a picks : app_inv des hes a ->
  exists a' rows bs w', appStop cl batch_order sink_order picks a = Some a' /\
    decodeLoop ∅ (map Dequeued (take (app_chunksTaken a) (ingested des))) = Some (pw_streams (app_parser a'), rows) /\
    (forall d, written d (pw_write (app_parser a')) = device_rows d rows) /\
    hi_write (app_http a') = hi_write (app_http a) /\
    interleave (pw_write (app_parser a')) (hi_write (app_http a')) bs /\
    app_writer a' = writerStop cl sink_order w' /\ (wr_db w', wr_stats w') = inserted bs.
Proof.
  intros H. unfold appStop. destruct (ai_quiet _ _ _ H) as [Hq Hn]. pose proof (ai_parser _ _ _ H) as Hw.
  destruct (flushAll_empties _ _ batch_order (app_parser a) Horder Hw) as (Hw1 & Ho & He & bs1 & Hq1 & _).
  set (w1 := flushAll batch_order (app_parser a)) in *. cbn [pw_write set_publish].
  assert (Forall fits (pw_write w1)) as Hf.
  { apply (flushAll_fits (device_of db) (groupAt db)); try done; [lia|apply H]. }
  destruct (ai_taken _ _ _ H) as [Hp Hh]. destruct (ai_inserted _ _ _ H) as (bs & Hi & Hd). destruct (ai_sinks _ _ _ H) as [Hs Ht].
  set (rest := mergeQueues _ _ _).
  assert (interleave (drop (app_parserTaken a) (pw_write w1)) (drop (app_httpTaken a) (hi_write (app_http a))) rest)
    as Hrest by apply mergeQueues_interleave.
  assert (Forall (batch_for (db_devices db)) rest) as Hbf.
  { apply (interleave_Forall _ _ _ _ Hrest); apply Forall_drop; [by apply parser_batch_for|apply H]. }
  destruct (writer_runs _ rest bs Hs Ht Hbf Hd) as (w' & E & _ & _ & Hd'). rewrite E. cbn [mbind option_bind].
  destruct (ai_decoded _ _ _ H) as (rows & Dr & Hout).
  exists (mkApp (ingestStop (fst (app_ingest a)), snd (app_ingest a)) (httpStop (app_http a))
    (set_publish (option_map publishStop (pw_publish w1)) w1) (writerStop cl sink_order w')
    (app_chunksTaken a) (length (pw_write w1)) (length (hi_write (app_http a)))), rows, (bs ++ rest), w'.
  cbn. split_and!; try done.
  - rewrite Dr. do 2 f_equal. symmetry.
    destruct (parserStep_ok _ _ batch_order (app_parser a) Timeout Horder Hw I) as (w2 & s2 & rs & E2 & _ & D2 & Es & _).
    cbn [parserStep decodeLoop] in E2, D2. injection E2 as <-. injection D2 as <- _. exact Es.
  - intros d. specialize (Ho d). specialize (He d). unfold out in Ho. rewrite He, app_nil_r in Ho. exact (eq_trans Ho (Hout d)).
  - rewrite <- (take_drop (app_parserTaken a) (pw_write w1)), <- (take_drop (app_httpTaken a) (hi_write (app_http a))).
    apply interleave_app; [|exact Hrest]. rewrite Hq1, take_app_le by done. exact Hi.
Qed.
End Run.

(** ** The contract *)

(** What a run of the program does with the events [es], for the
    configuration [db] and the writer [w] it has started: the chunks of the
    configured peers are parsed in order, except those still queued at
    shutdown; every decoded row and every HTTP row is inserted exactly once, in
    order per device; then the client is closed. *)
Record delivered {D} (cl : DbClient D) llround_invalid sink_order (db : ConfigDB) (cfg : AdapterConfig) (w : Writer D)
    (es : list AppEvent) (a : AdapterApp D) (parsed lost : list RawChunk) (rows : list Row) : Prop := {
  dl_chunks : omap (wanted db) (omap dataEvent es) = parsed ++ lost;
  dl_lost : forall es1 es2, es = es1 ++ es2 -> omap dataEvent es2 = [] ->
    (length (omap (wanted db) (omap dataEvent es1)) <= dequeues es2)%nat -> lost = [];
  dl_decoded : decodeLoop ∅ (map Dequeued parsed) = Some (pw_streams (app_parser a), rows);
  dl_rows : forall d, written d (pw_write (app_parser a)) = device_rows d rows;
  dl_http : exists h, hi_write (app_http a) = hi_write h /\
    httpRun llround_invalid db (httpStart db (cfg_http cfg) (newHttpIngest AdapterStats0)) (omap httpEvent es) = Some h;
  dl_inserted : exists bs w', interleave (pw_write (app_parser a)) (hi_write (app_http a)) bs /\
    app_writer a = writerStop cl sink_order w' /\
    (wr_db w', wr_stats w') =
    fold_left (insertBatch cl (sinkCapacity (wr_cfg w)) (stmts w)) bs (wr_db w, wr_stats w);
}.

Lemma appLoop_app {D} (cl : DbClient D) li order db es1 : forall es2 a,
  appLoop cl li order db a (es1 ++ es2) = appLoop cl li order db a es1 ≫= fun a' => appLoop cl li order db a' es2.
Proof.
  induction es1 as [|e es1 IH]; intros es2 a; cbn [appLoop app]; [done|].
  destruct (appStep cl li order db a e); [|done]. cbn [mbind option_bind]. apply IH.
Qed.

(** What starting the program requires. *)
Record startable {std : StdSort} {D} (cl : DbClient D) float_text (cfg : AdapterConfig) (q : SqlDb) (d0 : D)
    (db : ConfigDB) (w : Writer D) : Prop := {
  sa_loaded : loadAll float_text q (empty_db []) = Some (inr db);
  sa_devices : db_devices db <> [] /\ Forall writable (db_devices db);
  sa_rows : batchRows (cfg_etherdb cfg) <= 2 ^ 30;
  sa_writer : writerStart cl db (newWriter (cfg_etherdb cfg) AdapterStats0 d0) = (None, w);
  sa_ports : ingestPorts db (cfg_server cfg) <> [];
}.

(** The invariant holds when everything has started. *)
Lemma app_inv_start {std : StdSort} {D} (cl : DbClient D) li float_text cfg q d0 db w :
  startable cl float_text cfg q d0 db w ->
  exists a s0, appStart db cfg w = inr a /\ is_queue s0 = [] /\
    app_inv cl li db s0 (httpStart db (cfg_http cfg) (newHttpIngest AdapterStats0)) w (sinkCapacity (wr_cfg w))
      (Z.max 1 (batchRows (cfg_etherdb cfg))) [] [] a.
Proof.
  intros [_ [_ Hwr] Hrows Hw Hports]. unfold appStart, ingestStart.
  destruct (ingestPorts db (cfg_server cfg)) as [|p ports]; [done|].
  eexists _, (mkIngest _ ∅ [] AdapterStats0). split; [done|]. split; [done|].
  destruct (writerStart_ok cl db (newWriter (cfg_etherdb cfg) AdapterStats0 d0) w eq_refl Hwr ltac:(cbn; lia) Hw) as [Hs _].
  assert (hi_write (httpStart db (cfg_http cfg) (newHttpIngest AdapterStats0)) = []) as Hh.
  { unfold httpStart. destruct (_ =? 0); [|done]. by destruct (db_httpListenPorts db). }
  constructor; cbn; rewrite ?Hh; try done.
  - apply new_worker_ok.
  - split; [done|]. destruct (Z.ltb_spec 0 (batchRows (cfg_etherdb cfg))); lia.
  - by exists [].
  - exists []. split; [constructor|done].
Qed.

Section Whole.
Context {std : StdSort} {D : Type} (cl : DbClient D) (llround_invalid : Z -> Z) (float_text : Z -> string).
Context (batch_order : gmap nat (DevicePtr * RowBatch) -> list (nat * (DevicePtr * RowBatch)))
  (Horder : forall m, batch_order m ≡ₚ map_to_list m).
Context (sink_order : gmap nat Sink -> list (nat * Sink)).

Lemma adapter_delivers cfg q d0 db w es picks :
  startable cl float_text cfg q d0 db w ->
  trace_ok ∅ (omap dataEvent es) -> Forall net_ok (omap dataEvent es) ->
  exists a parsed lost rows,
    adapterRun cl llround_invalid float_text batch_order sink_order cfg (inr q) d0 es picks = Some (Finished a) /\
    delivered cl llround_invalid sink_order db cfg w es a parsed lost rows.
Proof.
  intros Hst Ht Hn. pose proof (loaded_ok float_text q _ _ (sa_loaded _ _ _ _ _ _ _ Hst)) as Hdb.
  destruct (app_inv_start cl llround_invalid _ _ _ _ _ _ Hst) as (a0 & s0 & E0 & Hq & H0).
  destruct Hst as [Hl [Hd Hwr] Hrows Hw Hports]. set (h0 := httpStart _ _ _) in *.
  assert (Z.max 1 (batchRows (cfg_etherdb cfg)) <= 2 ^ 30) as Hlim by lia.
  destruct (appLoop_inv cl llround_invalid batch_order Horder db Hdb Hwr s0 h0 w _ _ Hq Hlim es [] [] a0 H0 Ht Hn)
    as (a1 & E1 & H1 & _ & _).
  destruct (appStop_ok cl llround_invalid batch_order Horder sink_order db Hwr s0 h0 w _ _ Hlim _ _ a1 picks H1)
    as (a2 & rows & bs & w' & E2 & Dr & Hrs & Hhw & Hi & Hcl & Hdb').
  exists a2, (take (app_chunksTaken a1) (ingested db (omap dataEvent es))),
    (drop (app_chunksTaken a1) (ingested db (omap dataEvent es))), rows. split.
  - unfold adapterRun. unfold empty_db in Hl. rewrite Hl. cbn [mbind option_bind].
    destruct (db_devices db) as [|dev devs]; [done|]. rewrite Hw, E0, E1. cbn [mbind option_bind]. by rewrite E2.
  - constructor; try done.
    + by rewrite take_drop.
    + intros es1 es2 -> Hes2 Hmin. rewrite appLoop_app in E1. apply bind_Some in E1 as (a & E & E1).
      rewrite omap_app, Hes2, app_nil_r in *.
      destruct (appLoop_inv cl llround_invalid batch_order Horder db Hdb Hwr s0 h0 w _ _ Hq Hlim es1 [] [] a0 H0 Ht Hn)
        as (a' & E' & H' & _). rewrite E in E'. injection E' as <-.
      destruct (appLoop_inv cl llround_invalid batch_order Horder db Hdb Hwr s0 h0 w _ _ Hq Hlim es2 _ _ a H')
        as (a' & E' & _ & _ & Hlen); [by rewrite Hes2, app_nil_r..|]. rewrite E1 in E'. injection E' as <-.
      apply drop_ge. cbn [app] in Hlen. unfold ingested in *. lia.
    + exists (app_http a1). split; [done|]. apply H1.
    + by exists bs, w'.
Qed.
End Whole.
