(* ===== verification/EndToEnd.v ===== *)
(** * From the wire to the database

    The values a device sends are the values its rows hold, whatever the
    segmentation, the receive times, the other peers' traffic and the
    interleaving of the threads: the codec's round trips composed with
    [AdapterAppProps]. *)

From stdpp Require Import base list numbers gmap strings.
From Stdlib Require Import ZArith Lia.
From S2P Require Import Prelude CText DeviceModel ConfigDB ConfigDBGroups ConfigDBProps AdapterConfig FrameCodec FrameCodecLoads Slicer FrameCodecStream FrameCodecWire FrameCodecProps Pipeline ParserProps Writer WriterProps Ingest HttpIngest AdapterApp AdapterAppProps.
Local Open Scope Z_scope.

(** ** Receive times are only stored *)

Definition retime (ts : Z) (r : Row) : Row := mkRow (r_dev r) ts (r_cells r).

Definition retimeStep (ts : Z) (r : Step) : Step :=
  match r with Advance k st rows => Advance k st (map (retime ts) rows) | _ => r end.

Definition retimed {S} (ts : Z) (r : S * list Row) : S * list Row := (fst r, map (retime ts) (snd r)).

(** The device and the cells of a row. *)
Definition rowValue (r : Row) : DevicePtr * list Cell := (r_dev r, r_cells r).

Lemma rowValue_retime ts rows : map rowValue (map (retime ts) rows) = map rowValue rows.
Proof. induction rows as [|r rows IH]; [done|]. cbn [map]. by rewrite IH. Qed.

Lemma feedRecords_retime n dev ts ts' rb : forall p scratch,
  feedRecords n dev ts' p rb scratch = option_map (retimed ts') (feedRecords n dev ts p rb scratch).
Proof.
  induction n as [|n IH]; intros p scratch; cbn [feedRecords]; [done|].
  destruct (decodePayload _ _ _ _ _) as [[good sc]|]; [|done]. cbn [mbind option_bind].
  destruct good; cbn [negb]; [|done]. rewrite IH.
  by destruct (feedRecords n dev ts (dropZ rb p) rb sc) as [[[ok sc2] rows]|].
Qed.

Lemma feedFrame_retime dev ts ts' h pb tail tf st :
  feedFrame dev ts' h pb tail tf st = option_map (retimeStep ts') (feedFrame dev ts h pb tail tf st).
Proof.
  unfold feedFrame. destruct (if tail =? 0 then Some 0 else _) as [last|]; [|done]. cbn [mbind option_bind].
  rewrite (feedRecords_retime _ dev ts ts'). by destruct (feedRecords _ dev ts _ _ _) as [[[ok sc] rows]|].
Qed.

Lemma feed_step_retime g ts ts' h st : feed_step g ts' h st = option_map (retimeStep ts') (feed_step g ts h st).
Proof.
  unfold feed_step. destruct (lenZ h <? kHeaderSize); [done|].
  destruct (rd h 0) as [ft|]; [|done]. destruct (rd h 1) as [fl|]; [|done].
  destruct (rd h 2) as [b2|]; [|done]. destruct (rd h 3) as [b3|]; [|done]. cbn [mbind option_bind].
  destruct (byFrameType g ft) as [dev|]; [|done]. destruct (s_fields _); [done|]. cbv zeta.
  repeat (destr_if; [done|]). apply feedFrame_retime.
Qed.

Lemma modbusFrame_retime dev ts ts' h hdr total pl st :
  modbusFrame dev ts' h hdr total pl st = option_map (retimeStep ts') (modbusFrame dev ts h hdr total pl st).
Proof. unfold modbusFrame. destruct (decodePayload _ _ _ _ _) as [[[] sc]|]; done. Qed.

Lemma modbus_step_retime dev ts ts' h st :
  modbus_step dev ts' h st = option_map (retimeStep ts') (modbus_step dev ts h st).
Proof.
  unfold modbus_step. cbv zeta. destruct ((_ =? 7) || _).
  - destruct (mbapScan h 0) as [p|]; [|done]. unfold modbusResponse.
    destruct (_ <? 6); [done|]. destruct (rd _ 4) as [h4|]; [|done]. destruct (rd _ 5) as [h5|]; [|done].
    cbn [mbind option_bind]. cbv zeta. repeat (destr_if; [done|]). rewrite (modbusFrame_retime dev ts ts').
    by destruct (modbusFrame dev ts _ _ _ _ _) as [[]|].
  - repeat (destr_if; [done|]). apply modbusFrame_retime.
Qed.

Lemma slice_retime step step' ts' fuel : (forall h st, step' h st = option_map (retimeStep ts') (step h st)) -> forall h st,
  slice step' fuel h st =
  option_map (fun r => match r with (rest, st', rows, b) => (rest, st', map (retime ts') rows, b) end) (slice step fuel h st).
Proof.
  intros Hstep. induction fuel as [|fuel IH]; intros h st; cbn [slice]; [done|]. rewrite Hstep.
  destruct (step h st) as [[k st'|k st' rows|st']|]; try done. cbn [option_map mbind option_bind retimeStep].
  rewrite IH. destruct (slice step fuel (dropZ k h) st') as [[[[rest st''] rows'] b]|]; [|done].
  cbn [option_map mbind option_bind]. by rewrite map_app.
Qed.

Lemma feedLoop_retime step step' ts' data sl st : (forall h st, step' h st = option_map (retimeStep ts') (step h st)) ->
  feedLoop step' data sl st = option_map (retimed ts') (feedLoop step data sl st).
Proof.
  intros Hstep. unfold feedLoop. rewrite (slice_retime step step' ts' _ Hstep).
  destruct (slice step _ _ sl) as [[[[rest sl'] rows] b]|]; [|done]. cbn [option_map mbind option_bind].
  by destruct (if b then compact rest sl' else (st_buf st ++ data, sl')).
Qed.

(** Equal but for the last unknown-type report. *)
Definition relog (n : Z) {R} (r : DeviceStream * R) : DeviceStream * R := (set_unknownTypeLogged n (fst r), snd r).

Lemma feedLoop_relog step data sl n st :
  feedLoop step data sl (set_unknownTypeLogged n st) = option_map (relog n) (feedLoop step data sl st).
Proof.
  unfold feedLoop. cbn [st_buf set_unknownTypeLogged].
  destruct (slice step _ _ sl) as [[[[rest sl'] rows] b]|]; [|done]. cbn [mbind option_bind].
  by destruct (if b then compact rest sl' else (st_buf st ++ data, sl')).
Qed.

(** What the parser does with a chunk of a group, at time [ts]. *)
Definition groupFeed (gp : GroupPtr) (ts : Z) (st : DeviceStream) (data : list Z)
    : option (DeviceStream * list Row) := decodeChunk gp (mkChunk (Some gp) ts data) st.

Lemma groupFeed_retime gp ts ts' st data :
  groupFeed gp ts' st data = option_map (retimed ts') (groupFeed gp ts st data).
Proof.
  assert (forall d, feedModbus d ts' st data = option_map (retimed ts') (feedModbus d ts st data)) as Hm.
  { intros d. unfold feedModbus. destruct (s_fields _); [done|]. destr_if; [done|]. destr_if; [done|].
    apply feedLoop_retime. intros. apply modbus_step_retime. }
  assert (feed (gp_group gp) ts' st data = option_map (retimed ts') (feed (gp_group gp) ts st data)) as Hf.
  { unfold feed. apply feedLoop_retime. intros. apply feed_step_retime. }
  unfold groupFeed, decodeChunk. cbn [ch_recvMs ch_data]. destruct (primary _) as [d|]; [|done]. by destr_if.
Qed.

Lemma groupFeed_relog gp ts n st data :
  groupFeed gp ts (set_unknownTypeLogged n st) data = option_map (relog n) (groupFeed gp ts st data).
Proof.
  assert (forall d, feedModbus d ts (set_unknownTypeLogged n st) data = option_map (relog n) (feedModbus d ts st data)) as Hm.
  { intros d. unfold feedModbus. destruct (s_fields _); [done|]. destr_if; [done|]. destr_if; [done|].
    exact (feedLoop_relog _ data _ n (add_bytesIn (lenZ data) st)). }
  assert (feed (gp_group gp) ts (set_unknownTypeLogged n st) data = option_map (relog n) (feed (gp_group gp) ts st data)) as Hf
    by exact (feedLoop_relog _ data _ n (add_bytesIn (lenZ data) st)).
  unfold groupFeed, decodeChunk. cbn [ch_recvMs ch_data]. destruct (primary _) as [d|]; [|done]. by destr_if.
Qed.

(** ** The stream of one group *)

Definition same (s1 s2 : DeviceStream) : Prop := set_unknownTypeLogged 0 s1 = set_unknownTypeLogged 0 s2.

Lemma same_logUnknown s1 s2 : same s1 s2 -> same (logUnknown s1) s2.
Proof. intros H. unfold logUnknown. destruct (_ =? _); exact H. Qed.

Lemma groupFeed_same gp ts1 ts2 s1 s2 data s1' r1 : same s1 s2 -> groupFeed gp ts1 s1 data = Some (s1', r1) ->
  exists s2' r2, groupFeed gp ts2 s2 data = Some (s2', r2) /\ same s1' s2' /\ map rowValue r1 = map rowValue r2.
Proof.
  intros Hs E. pose proof (groupFeed_relog gp ts1 0 s1 data) as H1. pose proof (groupFeed_relog gp ts1 0 s2 data) as H2.
  rewrite <- Hs, H1, E in H2. rewrite (groupFeed_retime gp ts1 ts2 s2 data).
  destruct (groupFeed gp ts1 s2 data) as [[s2' r2]|]; [|done]. cbn [option_map relog fst snd] in H2.
  injection H2 as Hb Hn Hsl Hr. exists s2', (map (retime ts2) r2). subst r2. rewrite rowValue_retime.
  split; [done|]. split; [|done]. unfold same, set_unknownTypeLogged. congruence.
Qed.

Section Group.
Context (deviceOf : nat -> option DeviceDesc) (groupOf : nat -> option DeviceGroup).
Context (gp : GroupPtr) (ts0 : Z).

Definition addrs : list nat := map p_addr (g_members (gp_group gp)).

(** The group's devices are in no other group. *)
Context (Hapart : forall gp', group_known deviceOf groupOf gp' -> gp_addr gp' <> gp_addr gp ->
  forall d, d ∈ g_members (gp_group gp') -> p_addr d ∉ addrs).

Definition streams_ok (streams : gmap nat DeviceStream) : Prop :=
  forall a st, streams !! a = Some st -> exists g, groupOf a = Some g /\ group_stream_ok g st.

Definition of_group (c : RawChunk) : bool :=
  match ch_group c with Some g => Nat.eqb (gp_addr g) (gp_addr gp) | None => false end.

(** The bytes of the group, segment by segment. *)
Definition groupData (cs : list RawChunk) : list (list Z) :=
  omap (fun c => if of_group c then Some (ch_data c) else None) cs.

Definition groupRows (rows : list Row) : list Row := filter (fun r => p_addr (r_dev r) ∈ addrs) rows.

Lemma groupRows_all rows : Forall (fun r => r_dev r ∈ g_members (gp_group gp)) rows -> groupRows rows = rows.
Proof.
  intros H. assert (Forall (fun r => p_addr (r_dev r) ∈ addrs) rows) as Ha.
  { eapply Forall_impl; [exact H|]. intros r Hr. unfold addrs. apply list_elem_of_fmap. by exists (r_dev r). }
  clear H. revert Ha. intros H. unfold groupRows. induction H as [|r rows Hr _ IH]; [done|]. by rewrite filter_cons, decide_True, IH.
Qed.

Lemma groupRows_none rows : Forall (fun r => p_addr (r_dev r) ∉ addrs) rows -> groupRows rows = [].
Proof. intros H. unfold groupRows. induction H as [|r rows Hr _ IH]; [done|]. by rewrite filter_cons, decide_False. Qed.

Definition chunk_ready (c : RawChunk) : Prop := ch_data c <> [] /\
  match ch_group c with Some _ => event_ok deviceOf groupOf (Dequeued c) | None => False end.

Lemma streams_default streams gp' : streams_ok streams -> group_known deviceOf groupOf gp' ->
  group_stream_ok (gp_group gp') (default DeviceStream0 (streams !! gp_addr gp')).
Proof.
  intros Hs Hg. destruct (streams !! gp_addr gp') as [st|] eqn:E; [|apply group_stream0].
  destruct (Hs _ _ E) as (g & Hgo & Hgs). rewrite (gk_group _ _ _ Hg) in Hgo. by injection Hgo as <-.
Qed.

Lemma streams_insert streams gp' st : streams_ok streams -> group_known deviceOf groupOf gp' ->
  group_stream_ok (gp_group gp') st -> streams_ok (<[gp_addr gp' := logUnknown st]> streams).
Proof.
  intros Hs Hg Hst a st' Hl. apply lookup_insert_Some in Hl as [[<- <-]|[_ Hl]]; [|by apply Hs].
  exists (gp_group gp'). split; [apply Hg|by apply logUnknown_ok].
Qed.

(** The rows of the group's devices are what its bytes alone decode to. *)
Lemma decode_group : group_known deviceOf groupOf gp -> forall cs streams st streams' rows,
  Forall chunk_ready cs -> streams_ok streams -> same st (default DeviceStream0 (streams !! gp_addr gp)) ->
  decodeLoop streams (map Dequeued cs) = Some (streams', rows) ->
  exists st' rows', feed_calls (groupFeed gp ts0) st (groupData cs) = Some (st', rows') /\
    map rowValue (groupRows rows) = map rowValue rows'.
Proof.
  intros Hgp. induction cs as [|c cs IH]; intros streams st streams' rows Hcs Hok Hst E; cbn [map decodeLoop] in E.
  { injection E as <- <-. by exists st, []. }
  apply Forall_cons in Hcs as [[Hne Hc] Hcs]. destruct c as [[gp'|] ts data]; [|done].
  destruct Hc as [Hb Hg]. cbn [ch_group ch_data] in *.
  pose proof (streams_default streams gp' Hok Hg) as Hst'.
  destruct (decodeChunk_ok deviceOf groupOf gp' (mkChunk (Some gp') ts data) _ Hg Hst' Hb)
    as (s1 & r1 & E1 & Hs1 & _ & _ & Hm).
  destruct data as [|b data]; [done|]. set (data0 := b :: data) in *. rewrite E1 in E. cbn [mbind option_bind] in E.
  destruct (decodeLoop _ (map Dequeued cs)) as [[s2 r2]|] eqn:E2; [|done]. injection E as <- <-.
  unfold groupData, groupRows. rewrite omap_cons_list, filter_app, map_app. unfold of_group at 1. cbn [ch_group ch_data].
  fold (groupData cs) (groupRows r1) (groupRows r2).
  destruct (Nat.eqb_spec (gp_addr gp') (gp_addr gp)) as [Ea|Ea]; cbn [option_list app].
  - assert (gp' = gp) as ->.
    { pose proof (gk_group _ _ _ Hg) as G1. pose proof (gk_group _ _ _ Hgp) as G2. rewrite Ea, G2 in G1.
      destruct gp', gp; cbn in *. congruence. }
    destruct (groupFeed_same gp ts ts0 _ st data0 s1 r1 (eq_sym Hst) E1) as (s1' & r1' & E1' & Hs & Hr).
    destruct (IH _ s1' s2 r2 Hcs (streams_insert _ _ _ Hok Hgp Hs1)) as (st' & r2' & E3 & Hr2).
    { rewrite lookup_insert_eq. cbn [default]. symmetry. by apply same_logUnknown. }
    { exact E2. }
    exists st', (r1' ++ r2'). change (option_list (Some data0) ++ groupData cs) with (data0 :: groupData cs). cbn [feed_calls]. rewrite E1'. cbn [mbind option_bind]. rewrite E3.
    split; [done|]. rewrite groupRows_all by done. by rewrite map_app, Hr, Hr2.
  - destruct (IH _ st s2 r2 Hcs (streams_insert _ _ _ Hok Hg Hs1)) as (st' & r2' & E3 & Hr2).
    { by rewrite lookup_insert_ne. }
    { exact E2. }
    exists st', r2'. split; [exact E3|]. rewrite groupRows_none; [done|].
    eapply Forall_impl; [exact Hm|]. intros r. by apply (Hapart gp').
Qed.
End Group.

(** ** What a device writes on the wire *)

Lemma feed_calls_ext {S O} (f f' : S -> list Z -> option (S * list O)) segs : (forall s d, f s d = f' s d) ->
  forall s, feed_calls f s segs = feed_calls f' s segs.
Proof.
  intros H. induction segs as [|d segs IH]; intros s; cbn [feed_calls]; [done|]. rewrite H.
  destruct (f' s d) as [[s1 o1]|]; [|done]. cbn [mbind option_bind]. by rewrite IH.
Qed.

(** The values of a frame's records, and of a response. *)
Definition frame_values (fr : Frame) : list (DevicePtr * list Cell) :=
  map (fun r => (fr_dev fr, value_cells (d_spec (p_desc (fr_dev fr))) (snd r))) (fr_records fr).
Definition response_value (d : DevicePtr) (m : Response) : DevicePtr * list Cell :=
  (d, value_cells (d_spec (p_desc d)) (rs_values m)).

(** The bytes a group sends and what they mean: frames of any of its devices,
    or responses of its modbus device. *)
Inductive encodes (g : DeviceGroup) : list Z -> list (DevicePtr * list Cell) -> Prop :=
| encodes_frames frames :
    (forall d, primary g = Some d -> d_connProto (p_desc d) <> CONN_MODBUS) -> Forall (frame_ok g) frames ->
    encodes g (concat (map encode_frame frames)) (concat (map frame_values frames))
| encodes_responses d ms :
    primary g = Some d -> d_connProto (p_desc d) = CONN_MODBUS -> ModbusReady (p_desc d) ->
    Forall (response_ok (p_desc d)) ms ->
    encodes g (concat (map (encode_response (d_spec (p_desc d))) ms)) (map (response_value d) ms).

Lemma frame_values_expected ts frames :
  map rowValue (concat (map (frame_expected ts) frames)) = concat (map frame_values frames).
Proof.
  induction frames as [|fr frames IH]; [done|]. cbn [map concat]. rewrite map_app, IH. f_equal.
  unfold frame_expected, frame_values. by rewrite map_map.
Qed.

Lemma encodes_empty g values : encodes g [] values -> values = [].
Proof.
  intros H. inversion H as [frames _ Hfr E|d ms _ _ HR Hms E]; subst.
  - destruct frames; [done|discriminate].
  - destruct ms as [|m ms]; [done|]. apply Forall_cons in Hms as [Hm _]. exfalso.
    apply (f_equal lenZ) in E. cbn [map concat] in E.
    rewrite lenZ_app, (response_size d m Hm), lenZ_nil in E.
    pose proof (ro_fits _ _ Hm) as Hfit. pose proof (ro_hdr _ _ Hm) as Hhdr.
    pose proof (lenZ_nonneg (rs_head m)). pose proof (lenZ_nonneg (rs_payload m)).
    pose proof (lenZ_nonneg (concat (map (encode_response (d_spec (p_desc d))) ms))).
    unfold record_fits in Hfit. destruct HR as [_ _ _ Hp _]. bool_to_prop.
    destruct (has_mbap (d_spec (p_desc d))); lia.
Qed.

(** The group's bytes, cut anywhere, decode to what was encoded. *)
Lemma groupFeed_reads gp ts segs values :
  group_ok (gp_group gp) -> encodes (gp_group gp) (concat segs) values ->
  exists st' rows, feed_calls (groupFeed gp ts) DeviceStream0 segs = Some (st', rows) /\ map rowValue rows = values.
Proof.
  intros Hg H. destruct (decide (segs = [])) as [->|Hne].
  { apply encodes_empty in H as ->. by exists DeviceStream0, []. }
  inversion H as [frames Hp Hfr E|d ms Hp Hm HR Hms E]; subst.
  - destruct (feed_frames (gp_group gp) ts DeviceStream0 segs frames) as (st' & Ef & _); try done; [apply stream0_ok|].
    exists st', (concat (map (frame_expected ts) frames)). split; [|apply frame_values_expected]. rewrite <- Ef.
    apply feed_calls_ext. intros s x. unfold groupFeed, decodeChunk. cbn [ch_recvMs ch_data].
    destruct (primary (gp_group gp)) as [p|]; [|done].
    destruct (Z.eqb_spec (d_connProto (p_desc p)) CONN_MODBUS) as [Em|]; [|done]. by destruct (Hp p eq_refl).
  - destruct (feedModbus_responses d ts DeviceStream0 segs ms) as (st' & Ef & _); try done; [apply stream0_ok|].
    exists st', (map (response_expected d ts) ms). split; [|by rewrite map_map]. rewrite <- Ef.
    apply feed_calls_ext. intros s x. unfold groupFeed, decodeChunk. cbn [ch_recvMs ch_data].
    by rewrite Hp, Hm.
Qed.

(** ** The whole program *)

(** The cells a device should get. *)
Definition cellsOf (d : DevicePtr) (values : list (DevicePtr * list Cell)) : list (list Cell) :=
  map snd (filter (fun v => p_addr (fst v) = p_addr d) values).

Lemma cellsOf_rows d rows : map r_cells (device_rows (p_addr d) rows) = cellsOf d (map rowValue rows).
Proof.
  unfold device_rows, cellsOf. induction rows as [|r rows IH]; [done|]. cbn [map]. rewrite !filter_cons. cbn [rowValue fst].
  destruct (decide (p_addr (r_dev r) = p_addr d)); [|exact IH]. cbn [map snd]. by rewrite IH.
Qed.

Lemma device_rows_group gp d rows : d ∈ g_members (gp_group gp) ->
  device_rows (p_addr d) (groupRows gp rows) = device_rows (p_addr d) rows.
Proof.
  intros Hd. unfold device_rows, groupRows. rewrite list_filter_filter. apply list_filter_iff. intros r. split; [tauto|].
  intros E. split; [done|]. rewrite E. unfold addrs. apply list_elem_of_fmap. by exists d.
Qed.

Lemma wanted_ready db es : devices_ok (db_devices db) -> Forall net_ok es ->
  Forall (chunk_ready (device_of db) (groupAt db)) (omap (wanted db) es).
Proof.
  intros Hdb Hn. apply Forall_forall. intros c Hc. apply list_elem_of_omap in Hc as (e & Hin & Hw).
  rewrite Forall_forall in Hn. destruct (wanted_event_ok db Hdb e c (Hn e Hin) Hw) as [He _].
  unfold chunk_ready. destruct e as [?|?|k [|b data] t]; try done. cbn [wanted] in Hw.
  destruct (peerGroup db _ _) as [g|]; [|done]. cbn [mbind option_bind] in Hw. destruct (ingestable _); [|done].
  injection Hw as <-. by split.
Qed.

Section Whole.
Context {std : StdSort} {D : Type} (cl : DbClient D) (llround_invalid : Z -> Z) (float_text : Z -> string).
Context (batch_order : gmap nat (DevicePtr * RowBatch) -> list (nat * (DevicePtr * RowBatch)))
  (sink_order : gmap nat Sink -> list (nat * Sink)).

(** C2: every row reaches the database exactly once.  Whatever the
    interleaving of the event loop, the parser, the publish and the writer
    thread, a started adapter runs and shuts down without leaving a buffer; the
    chunks of the configured peers are parsed in order, except those the ingest
    queue still holds when the parser stops - none if the parser got to dequeue
    them - and the rows decoded from them and the rows of the HTTP requests are
    inserted, each once and in order per device, before the client is
    closed. *)
Theorem adapterRun_delivers cfg q d0 db w es picks :
  (forall m, batch_order m ≡ₚ map_to_list m) -> startable cl float_text cfg q d0 db w ->
  trace_ok ∅ (omap dataEvent es) -> Forall net_ok (omap dataEvent es) ->
  exists a parsed lost rows,
    adapterRun cl llround_invalid float_text batch_order sink_order cfg (inr q) d0 es picks = Some (Finished a) /\
    delivered cl llround_invalid sink_order db cfg w es a parsed lost rows.
Proof. intros Ho. by apply adapter_delivers. Qed.

(** C1: from the wire to the database.  If the bytes of the peers of a group,
    in whatever segments and at whatever times they arrive among the traffic of
    other peers, are an encoding of values by the group's protocol - frames of
    its status and event devices, or modbus responses - and the parser gets to
    dequeue what was queued, then the batches inserted for each device of the
    group hold exactly its values, in order. *)
Theorem adapterRun_end_to_end cfg q d0 db w es1 es2 picks gi g values :
  (forall m, batch_order m ≡ₚ map_to_list m) -> startable cl float_text cfg q d0 db w ->
  trace_ok ∅ (omap dataEvent es1) -> Forall net_ok (omap dataEvent es1) ->
  omap dataEvent es2 = [] -> (length (omap (wanted db) (omap dataEvent es1)) <= dequeues es2)%nat ->
  groupAt db gi = Some g ->
  encodes g (concat (groupData (mkGroupPtr gi g) (omap (wanted db) (omap dataEvent es1)))) values ->
  exists a bs w',
    adapterRun cl llround_invalid float_text batch_order sink_order cfg (inr q) d0 (es1 ++ es2) picks = Some (Finished a) /\
    (forall d, d ∈ g_members g -> map r_cells (written (p_addr d) (pw_write (app_parser a))) = cellsOf d values) /\
    interleave (pw_write (app_parser a)) (hi_write (app_http a)) bs /\
    app_writer a = writerStop cl sink_order w' /\
    (wr_db w', wr_stats w') =
    fold_left (insertBatch cl (sinkCapacity (wr_cfg w)) (stmts w)) bs (wr_db w, wr_stats w).
Proof.
  intros Ho Hst Ht Hn Hes2 Hdq Hg Henc.
  destruct (adapter_delivers cl llround_invalid float_text batch_order Ho sink_order cfg q d0 db w (es1 ++ es2) picks Hst)
    as (a & parsed & lost & rows & E & [Hc Hl Hd Hr _ (bs & w' & Hi & Hw & Hdb')]);
    [by rewrite omap_app, Hes2, app_nil_r..|].
  exists a, bs, w'. split_and!; try done. intros d Hdg.
  specialize (Hl es1 es2 eq_refl Hes2 Hdq) as ->. rewrite omap_app, Hes2, !app_nil_r in Hc. rewrite <- Hc in Hd.
  pose proof (sa_loaded _ _ _ _ _ _ _ Hst) as Hload. pose proof (loaded_ok _ _ _ _ Hload) as Hok.
  pose proof (loaded_group_known db gi g Hok Hg) as Hgk. set (gp := mkGroupPtr gi g) in *.
  destruct (decode_group (device_of db) (groupAt db) gp 0) with (cs := omap (wanted db) (omap dataEvent es1))
    (streams := ∅ : gmap nat DeviceStream) (st := DeviceStream0) (streams' := pw_streams (app_parser a)) (rows := rows)
    as (st' & rows' & Ef & Hv); try done.
  - intros gp' Hgk' Hne e He Ha. apply list_elem_of_fmap in Ha as (e' & Ea & He'). apply Hne.
    by apply (loaded_apart _ _ _ _ _ _ _ _ e e' Hload (gk_group _ _ _ Hgk') Hg He He').
  - by apply wanted_ready.
  - destruct (groupFeed_reads gp 0 _ values (gk_ok _ _ _ Hgk) Henc) as (st2 & rows2 & Ef2 & Hv2).
    rewrite Ef in Ef2. injection Ef2 as <- <-.
    rewrite Hr, <- (device_rows_group gp d rows Hdg), cellsOf_rows. by rewrite Hv, Hv2.
Qed.
End Whole.

(** ** Runs *)

#[local] Existing Instance stable_sort.

Definition wire_cfg : AdapterConfig :=
  mkConfig (cfg_server AdapterConfig0) (cfg_sqlite AdapterConfig0) demo_cfg (cfg_http AdapterConfig0)
    (cfg_modbus AdapterConfig0) (cfg_log AdapterConfig0) (cfg_zmq AdapterConfig0) "" "".

Definition wire_start := writerStart demo_client demo_loaded (newWriter demo_cfg AdapterStats0 []).
Definition wire_group : DeviceGroup := Eval vm_compute in default Demo.group (groupAt demo_loaded 0).
Definition wire_pump : DevicePtr := Eval vm_compute in default Demo.status (deviceAt demo_loaded 1).

(** The status values -2 and 300, sent as one frame. *)
Definition wire_frame : Frame := mkFrame wire_pump 0 9 [([0xFE; 0xFF; 0x2C; 1], [-2; 300])].

(** The frame arrives in two pieces, between other traffic. *)
Definition wire_events : list AppEvent :=
  [DataEvent (Opened (mkConn 7 "10.0.0.1" 502)); DataEvent (Received (mkConn 7 "10.0.0.1" 502) [1; 0; 4; 0; 9] 1000);
   DataEvent (Opened (mkConn 8 "10.0.0.9" 1)); DataEvent (Received (mkConn 8 "10.0.0.9" 1) [1; 2; 3] 2000);
   ParserDequeues; ParserIdle; HttpEvent (Opened (mkConn 9 "10.0.0.2" 5));
   DataEvent (Received (mkConn 7 "10.0.0.1" 502) [0; 0xFE; 0xFF; 0x2C; 1] 3000); WriterDequeues true].

Definition wire_drained : list AppEvent := [ParserDequeues; PublishDequeues; WriterDequeues false; ParserDequeues].

Lemma wire_startable : startable demo_client (fun _ => "") wire_cfg demo_tables [] demo_loaded (snd wire_start).
Proof.
  constructor.
  - vm_compute. reflexivity.
  - split; [vm_compute; discriminate|].
    repeat (apply Forall_cons; split; [constructor; [|reflexivity]|]); try (apply Forall_nil; exact I);
      repeat (apply Forall_cons; split; [split; [reflexivity|simpl; lia]|]); apply Forall_nil; exact I.
  - vm_compute. discriminate.
  - change (wire_start = (None, snd wire_start)).
    assert (fst wire_start = None) as E by (vm_compute; reflexivity).
    destruct wire_start as [e w]. cbn in *. by rewrite E.
  - vm_compute. discriminate.
Qed.

Lemma wire_net_ok : Forall net_ok (omap dataEvent wire_events).
Proof.
  repeat (apply Forall_cons; split; [first [exact I|split; [solve_bytes|vm_compute; discriminate]]|]).
  apply Forall_nil. exact I.
Qed.

Lemma adapterRun_delivers_witness :
  exists a parsed lost rows,
    adapterRun demo_client (fun _ => 0) (fun _ => "") map_to_list map_to_list wire_cfg (inr demo_tables) []
      wire_events [] = Some (Finished a) /\
    parsed ++ lost = [mkChunk (Some (mkGroupPtr 0 wire_group)) 1 [1; 0; 4; 0; 9];
                      mkChunk (Some (mkGroupPtr 0 wire_group)) 3 [0; 0xFE; 0xFF; 0x2C; 1]] /\
    decodeLoop ∅ (map Dequeued parsed) = Some (pw_streams (app_parser a), rows).
Proof.
  destruct (adapterRun_delivers demo_client (fun _ => 0) (fun _ => "") map_to_list map_to_list wire_cfg demo_tables
    [] demo_loaded (snd wire_start) wire_events []) as (a & parsed & lost & rows & E & [Hc _ Hd _ _ _]).
  - intros m. reflexivity.
  - exact wire_startable.
  - vm_compute. repeat split.
  - exact wire_net_ok.
  - exists a, parsed, lost, rows. split; [exact E|]. split; [|exact Hd]. rewrite <- Hc. vm_compute. reflexivity.
Defined.

(** What the parser enqueued, with the chunk left in the queue or not. *)
Definition wire_written (es : list AppEvent) : option (list (list Z * list Z)) :=
  r ← adapterRun demo_client (fun _ => 0) (fun _ => "") map_to_list map_to_list wire_cfg (inr demo_tables) [] es [];
  match r with
  | Finished a => Some (map (fun b => (b_ts b, map cell_i (b_cells b))) (pw_write (app_parser a)))
  | Failed _ _ => None
  end.

Lemma wire_lost : wire_written wire_events = Some [].
Proof. vm_compute. reflexivity. Qed.

Lemma wire_delivered : wire_written (wire_events ++ wire_drained) = Some [([3], [-2; 300])].
Proof. vm_compute. reflexivity. Qed.

Lemma adapterRun_end_to_end_witness :
  exists a bs, adapterRun demo_client (fun _ => 0) (fun _ => "") map_to_list map_to_list wire_cfg (inr demo_tables) []
      (wire_events ++ wire_drained) [] = Some (Finished a) /\
    map r_cells (written 1 (pw_write (app_parser a))) = [[mkCell (2 ^ 64 - 2) 0; mkCell 300 0]] /\
    interleave (pw_write (app_parser a)) (hi_write (app_http a)) bs.
Proof.
  destruct (adapterRun_end_to_end demo_client (fun _ => 0) (fun _ => "") map_to_list map_to_list wire_cfg demo_tables
    [] demo_loaded (snd wire_start) wire_events wire_drained [] 0 wire_group
    (concat (map frame_values [wire_frame]))) as (a & bs & w' & E & Hd & Hi & _).
  - intros m. reflexivity.
  - exact wire_startable.
  - vm_compute. repeat split.
  - exact wire_net_ok.
  - reflexivity.
  - vm_compute. repeat constructor.
  - vm_compute. reflexivity.
  - refine (eq_ind_r (fun b => encodes wire_group b _) (encodes_frames wire_group [wire_frame] _ _) _).
    + intros d H E. assert (option_map (fun p => d_connProto (p_desc p)) (primary wire_group) = Some 1) as Hp
        by (vm_compute; reflexivity). rewrite H in Hp. cbn [option_map] in Hp. rewrite E in Hp. discriminate.
    + apply Forall_cons; split; [|apply Forall_nil; exact I]. solve_frame.
    + vm_compute. reflexivity.
  - exists a, bs. split; [exact E|]. split; [|exact Hi].
    assert (wire_pump ∈ g_members wire_group) as Hin by (vm_compute; left).
    refine (eq_trans (Hd wire_pump Hin) _). vm_compute. reflexivity.
Defined.
